(* ===== verification/_CoqProject ===== *)
-Q . S2P
Prelude.v
Double.v
Lua.v
Misc.v
Sched.v
SchedInv.v
SchedRun.v
SchedWait.v
SchedThm.v
LuaC.v
LuaCInv.v
Error.v
ErrorObj.v
Exec.v
ExecSpec.v
ExecThm.v
Net.v
Ssl.v
SslCtx.v
Sockopt.v
Timerfd.v
Socket.v
SocketSpec.v
SocketThm.v
SslCtxThm.v
Zmq.v
ZmqSpec.v
ZmqThm.v
DnsBase.v
StackDump.v
DnsName.v
DnsNameSpec.v
DnsNamePush.v
DnsNameThm.v
DnsRr.v
DnsRrSpec.v
DnsLayout.v
DnsRdata.v
DnsPush.v
DnsPacket.v
DnsPacketSpec.v
DnsFlat.v
DnsIter.v
DnsPacketThm.v
DnsText.v
DnsTextThm.v
DnsResconf.v
DnsResconfSpec.v
DnsStr.v
DnsResconfThm.v
DnsHosts.v
DnsHostsAns.v
DnsHostsThm.v
DnsHints.v
DnsHintsThm.v
DnsPermutor.v
DnsPermutorThm.v
DnsSo.v
DnsSoSpec.v
DnsSoFd.v
DnsSoTcp.v
DnsSoThm.v
DnsRes.v
DnsResSpec.v
DnsResThm.v
DnsAi.v
DnsAiThm.v
Dns.v
DnsMx.v
DnsQuery.v
DnsLink.v
DnsLinkThm.v
