(* ===== verification/Prelude.v ===== *)
(** * A verification library for ratchet

    ratchet is a C extension for Lua 5.2 that runs Lua coroutines as threads over
    libevent, with sockets, DNS, subprocesses, timers, TLS and ZeroMQ on top. A
    thread that must wait yields a request to the scheduler; the scheduler adds
    an event to libevent and resumes the thread from the event's callback. The
    DNS module is built on libdns (src/src/c/dns/libdns), which encodes and
    decodes packets.

    ** What is modelled, and where

    - [Prelude]: tactics, list and stack lemmas shared by the files below.
    - [Double], [Lua]: IEEE binary64 arithmetic (spec_float at 53 bits), Lua
      values, the Lua stack, the conversions of the C API. The conversions
      between strings and numbers belong to the Lua core and are the operations
      of the class [LuaConv].
    - [Misc]: misc.c. Time conversions, signal names, descriptor flags. [StackDump]:
      the dump of the Lua stack.
    - [Sched]: ratchet.c. The uservalue tables of the ratchet object, the
      coroutines, and the pending libevent events form one record [world]; each
      C function is a computation in a state and error monad over it, named as
      in the source ([ratchet_loop_once], [event_triggered], [ratchet_attach],
      [ratchet_wait_all], ...). Lua code is a parameter [prog] that maps a
      function and its arguments to a tree of calls into ratchet.thread; the
      methods get_fd and get_timeout of the objects waited for, the alarm
      callbacks and the order of [lua_next] are parameters too. One iteration
      of the event loop takes the list of events libevent reports. The set
      [loose] is a history variable: threads that were resumed in the middle of
      a wait, or whose wait was set up half way.
      [SchedInv], [SchedRun], [SchedWait] hold the invariant, its
      preservation by every operation and the
      behaviour of wait_all; [SchedThm] the properties and their witnesses.
    - [LuaC]: C functions of a Lua module. A function works on a stack of its
      own in a state and error monad over a heap of tables and userdata and an
      abstract operating system; [step] does what the Lua core does with its
      calls, returns and yields ([lua_callk], [lua_yieldk]), and [reach] is the
      life of a call, resumed with values a relation allows in a state that other
      threads may have changed. [LuaCInv] carries an invariant of the heap through
      a computation and through [reach].
    - [Error]: error.c, with an error as a record inside a value; [ErrorObj]: the
      same functions on the tables that errors are. [Exec]: exec.c over the class [ExecOS] of the system
      calls it makes, one definition per C function; the child's side of fork is
      [child_fds], and the two ways it handles SIGCHLD are one
      ([sigchld_variants_agree]). [ExecSpec] records the system calls of a run and gives the
      states [communicate] goes through ([phase], with a bound on the steps to
      the next wait); [ExecThm] holds the properties and witnesses.
    - [Net], [Ssl], [Sockopt], [Timerfd], [Socket]: ssl.c, sockopt.c, timerfd.c and
      socket.c over the class [NetOS] of the system and OpenSSL calls they make;
      the tracer of a socket is Lua code that may raise. [SocketSpec] records the
      transfers of a run and gives the states of [send] and [recv], plain and
      encrypted; [SocketThm] holds the properties and witnesses. [SslCtx]: the
      contexts of ssl.c, from which sessions are made, over the class [CtxOS];
      [SslCtxThm].
    - [Zmq]: zmq.c over the class [ZmqOS] of libzmq; [ZmqSpec] records the messages
      of a run, [ZmqThm] holds the properties and witnesses.
    - [DnsBase], [DnsName], [DnsRr], [DnsRdata], [DnsPacket]: libdns/dns.c from
      the packet routines to the record data, one definition per function under
      its C name. A routine returns a value, or reads or writes outside its
      memory ([UB]), or is still looping when its fuel is used up ([Loop]);
      error codes are ordinary results. Sixteen- and thirty-two-bit arithmetic
      wraps where the C types do.
      [DnsNameSpec] says what the bytes of a name mean ([name_at]), [DnsLayout]
      what a packet of four sections is ([layout]); [DnsRrSpec], [DnsNamePush],
      [DnsPush], [DnsPacketSpec], [DnsFlat], [DnsIter] relate the routines to
      them; [DnsNameThm] and [DnsPacketThm] hold the properties and witnesses.
    - [DnsResconf], [DnsHosts], [DnsHints]: the configuration of libdns, from the
      hosts routines to the hint servers. The parsers read the bytes of a file
      one by one into the buffers the code has, so that a word that does not fit
      leaves its memory as it does there. [DnsResconfSpec] splits a file into
      lines and words and says what a line does, [DnsHostsAns] what the answer from
      the hosts file to a question is; [DnsResconfThm], [DnsHostsThm]
      and [DnsHintsThm] hold the properties and witnesses.
    - [DnsPermutor]: the permutation that query identifiers are drawn from, a
      Feistel network over the TEA cipher; [DnsPermutorThm].
    - [DnsSo]: the socket of libdns, a state machine that sends one query and
      waits for its answer over UDP and then TCP, over the class [SoOS] of the
      system calls it makes. [DnsSoSpec] holds the laws of the system ([SoOk]) and
      the invariant, [DnsSoFd] an account of the descriptors, [DnsSoTcp] the
      framing of messages; [DnsSoThm] the properties and witnesses.
    - [DnsRes]: the resolver, a stack of frames each in a state of
      [dns_res_exec], on top of the socket, the hosts, the hints and a cache of
      the application ([cache]). Its routines are in a monad that tells a null
      pointer that is followed ([RNull]) from the errors they return. Each case of
      the switch is a definition ([case_glue], [case_switch], ...); [res_step]
      dispatches. [DnsResSpec] gives the invariant of the stack and the rules
      that carry it through a computation; [DnsResThm] the properties and
      witnesses, among them the resolution of a name from end to end.
    - [DnsStr]: how libdns copies C strings, byte by byte. [DnsText]: the names of
      sections, classes, types, opcodes and response codes, and records and packets
      as text; [DnsTextThm]. [DnsAi]: the getaddrinfo interface, an
      automaton that asks the resolver and hands out one address per call;
      [DnsAiThm].
    - [Dns]: dns/dns.c, dns/hosts.c and dns/resolv_conf.c as C functions on the
      machine of [LuaC], over the class [DnsApi] of the libdns routines they call,
      on handles; [DnsMx] relates the result of an MX query, tables of tables, to
      the records of the answer; [DnsQuery] follows a call of [query] with the
      resolvers it opens and closes. [DnsLink] implements [DnsApi] with the
      models of libdns above, a handle being a pointer; [DnsLinkThm] counts the
      references to what resolvers share, and runs a query from the Lua function
      down to the packets.

    ** What is shown

    - Scheduler. In every world that a program reaches, errors that its caller
      caught included, libevent and the coroutines agree ([SchedInv.inv]), except
      for loose threads, whose events the code leaves behind; an event resumes the
      thread that registered it, with the
      values its wait promises and all its other events deleted; the loop stops
      only when nothing is left to run; a thread in wait_all is resumed when every
      thread it was given has ended, or by unpause.
    - Subprocesses. For every operating system that keeps the contracts of
      pipe(2) and write(2), all output and every interleaving, [communicate]
      calls fork once, writes its data to the pipe and returns what it read of each
      stream in order, up to the first chunk that strcmp(3) takes for empty,
      with the exit status it waited for; every turn of the call ends.
    - Sockets. [send] and [recv] account for every byte for every order of events,
      and with encryption nothing is sent or read in clear (a session writes strings
      of less than 2^31 bytes as a whole); a descriptor is closed
      once; byte order conversions are inverse; [prepare_tcp] describes the first
      address of a host.
    - Names. [dns_d_expand] computes exactly the name that the bytes denote,
      never leaves the packet, and reads back what [dns_d_push] wrote; skipping
      terminates and makes progress.
    - Packets. [dns_p_push] keeps header counts, section memos and bytes in
      agreement ([DnsPacketSpec.valid]), restores the packet when it fails,
      succeeds when there is room, and what it wrote is parsed back; parsing and
      skipping are memory safe on every packet; iterating equals one pass over
      the records; growing, shuffling and decimal printing are correct.
    - Configuration. The parsers of resolv.conf and of the hosts file implement
      the languages of their lines on files whose words fit; what is written as
      resolv.conf is read back; the search list and the servers are enumerated
      completely, once, and in the configured order by iterators that keep their
      state between calls; a query is answered from the hosts file with the
      addresses or names of the matching entries, in their order. Allocations may
      fail at any point.
    - Queries. An answer that the socket hands over has the identifier and the
      question of the query it was sent for, whatever arrives; the identifiers do
      not repeat before all of them were used; no descriptor is lost or closed
      twice, through any sequence of operations and failures; messages are framed
      and put together over TCP however the stream is cut. The resolver follows no
      null pointer, nor does its socket as long as it is called again only when it
      would block, and has an answer when it reports success; what resolvers share
      stays as long as one of them or the DNS module refers to it, and no longer,
      whichever allocations fail.
    - Addresses. Every address that the getaddrinfo interface hands out is that of
      a record that answers what was asked, or of one for a host that such a record
      refers to, through any sequence of calls; names
      printed for numbers are read back as those numbers.
    - Results. The hosts of an MX query are counted through by preference, those
      of equal preference in the order of the answer. [query] closes the resolver
      it opened exactly once when it returns, whatever other threads do.
    - TLS. No context, session, BIO, certificate or key of OpenSSL is used after it
      was freed or given away, through any
      sequence of calls of the module, and a password stays in its buffer.
    - Errors. The tables that error.c builds and reads stand for the records that the
      other modules raise.
    - Messages. [recv_all] of a ZeroMQ socket returns the parts of one message in
      order, and returns when they are there; [send] hands its data over once,
      unless libzmq cannot make a message, which zmq.c does not notice.
    - Defects. Where the code does not do what it is meant to, a theorem states
      what it does: names that loop, names that compress to other names, long
      labels, SRV records refused, fingerprints taken for equal, killed threads
      that run again, wait_all on a killed thread, events left behind by a thread that
      is unpaused in a wait, strings cut to the size of an int, close-on-exec never set,
      standard error lost by communicate without data, signals sent to a process
      group, the wrong table returned by prepare_udp, certificates refused,
      words of resolv.conf and hosts files that leave their buffers, a search
      list that starts with the root, lookup methods that stay, a query over TCP
      that is resumed at the wrong byte, names of the search list that are never
      asked, multiples of the number of MX hosts for which there is none, userdata
      that are dumped without end.

    ** Bounds and fuel

    Loops that follow pointers or Lua code take fuel. The theorems about names
    hold for all fuel above a bound they give, or for every fuel ([Loop] for
    every fuel is how non-termination is stated). Loops over a packet are run
    with one more step than the packet has bytes, and [rr_skip_ok] shows each
    step moves forward. Theorems about pushing assume a buffer below 65536
    bytes, the largest a DNS message can be. The loops of the socket and the
    resolver, which end when the system has nothing more to say, take fuel; the
    theorems hold for every fuel. Loops over a Lua array take two more steps than
    it has entries.

    ** What is not modelled

    The Lua side of the library (src/src/lua); the glue that only registers
    functions, allocates or frees; what is compiled on other systems only (the Windows
    branches of dns.c and its own [strsep]); and the test programs at the end of
    dns.c. *)

From stdpp Require Import prelude gmap list strings.
From Stdlib Require Import ZArith Lia.

(** ** Tactics shared by the components *)

(** Case analysis on the scrutinee of a [match] or [if] in the goal. *)
Ltac case_goal :=
  match goal with
  | |- context [match ?x with _ => _ end] =>
      lazymatch x with
      | context [match _ with _ => _ end] => fail
      | _ => let E := fresh "E" in destruct x eqn:E
      end
  end.

(** The same on a hypothesis. *)
Ltac case_hyp H :=
  match type of H with
  | context [match ?x with _ => _ end] =>
      lazymatch x with
      | context [match _ with _ => _ end] => fail
      | _ => let E := fresh "E" in destruct x eqn:E
      end
  end.

(** Boolean comparisons of [Z] and [nat] to propositions. *)
Ltac bprop :=
  repeat match goal with
  | H : (_ <? _)%Z = true |- _ => apply Z.ltb_lt in H
  | H : (_ <? _)%Z = false |- _ => apply Z.ltb_ge in H
  | H : (_ <=? _)%Z = true |- _ => apply Z.leb_le in H
  | H : (_ <=? _)%Z = false |- _ => apply Z.leb_gt in H
  | H : (_ =? _)%Z = true |- _ => apply Z.eqb_eq in H
  | H : (_ =? _)%Z = false |- _ => apply Z.eqb_neq in H
  | H : (_ <? _)%nat = true |- _ => apply Nat.ltb_lt in H
  | H : (_ <? _)%nat = false |- _ => apply Nat.ltb_ge in H
  | H : (_ <=? _)%nat = true |- _ => apply Nat.leb_le in H
  | H : (_ <=? _)%nat = false |- _ => apply Nat.leb_gt in H
  | H : (_ =? _)%nat = true |- _ => apply Nat.eqb_eq in H
  | H : (_ =? _)%nat = false |- _ => apply Nat.eqb_neq in H
  | H : (_ && _) = true |- _ => apply andb_prop in H; destruct H
  | H : (_ || _) = false |- _ => apply orb_false_elim in H; destruct H
  | H : negb _ = true |- _ => apply negb_true_iff in H
  | H : negb _ = false |- _ => apply negb_false_iff in H
  end.

(** ** The stack of a Lua state

    A [lua_State] shows its C functions a stack of values, index 1 at the
    bottom and -1 at the top (Lua 5.2 Reference Manual, section 4.1). It is a
    list with index 1 at the head. *)
Module Stk.
Section Stk.
Context {A : Type} (nil : A).
Implicit Types s : list A.

(** [lua_gettop]. *)
Definition gettop s : Z := Z.of_nat (length s).

(** A relative index to a position in the list. *)
Definition abs s (i : Z) : nat :=
  if (0 <? i)%Z then Z.to_nat (i - 1) else Z.to_nat (gettop s + i).

(** The value at an index ([None]: LUA_TNONE). *)
Definition at_ s (i : Z) : option A := s !! abs s i.

(** [lua_settop] with a non-negative argument: truncate or fill with nil. *)
Definition settop s (n : nat) : list A :=
  take n s ++ replicate (n - length s) nil.

(** [lua_pop]. *)
Definition pop s (n : nat) : list A := take (length s - n) s.

(** [lua_pushvalue]. *)
Definition pushvalue s (i : Z) : list A :=
  match at_ s i with Some v => s ++ [v] | None => s ++ [nil] end.

(** [lua_insert]: move the top element to index [i], shifting up. *)
Definition insert s (i : Z) : list A :=
  match at_ s (-1) with
  | Some v => let p := abs s i in
              take p s ++ v :: drop p (take (length s - 1) s)
  | None => s
  end.

(** [lua_remove]: remove the element at index [i], shifting down. *)
Definition remove s (i : Z) : list A :=
  let p := abs s i in take p s ++ drop (S p) s.

(** [lua_replace]: pop the top element and store it at index [i]. *)
Definition replace s (i : Z) : list A :=
  match at_ s (-1) with
  | Some v => take (length s - 1) (<[abs s i := v]> s)
  | None => s
  end.

Lemma settop_0 s : settop s 0 = [].
Proof. unfold settop. simpl. reflexivity. Qed.

Lemma length_settop s n : length (settop s n) = n.
Proof.
  unfold settop. rewrite length_app, length_take, length_replicate. lia.
Qed.

Lemma insert_1 s v : insert (s ++ [v]) 1 = v :: s.
Proof.
  unfold insert, at_, abs, gettop. rewrite length_app. cbn [length].
  change ((0 <? 1)%Z) with true. change ((0 <? -1)%Z) with false. cbn [negb].
  replace (Z.to_nat (Z.of_nat (length s + 1) + -1)) with (length s) by lia.
  rewrite list_lookup_middle by done.
  change (Z.to_nat (1 - 1)) with 0%nat. simpl.
  replace (length s + 1 - 1)%nat with (length s) by lia.
  rewrite drop_0, take_app_length. reflexivity.
Qed.
End Stk.
End Stk.

(** Checking a property of [n] consecutive integers by evaluation. *)
Fixpoint all_from (f : Z -> bool) (n : nat) (z : Z) : bool :=
  match n with O => true | S n' => f z && all_from f n' (Z.succ z) end.

Lemma all_from_ok f n : forall z, all_from f n z = true -> forall x, (z <= x < z + Z.of_nat n)%Z -> f x = true.
Proof.
  induction n as [|n IH]; intros z; cbn; [lia|]. intros [Hz Hn]%andb_true_iff x Hx.
  destruct (Z.eq_dec x z) as [->|]; [done|]. apply (IH (Z.succ z)); [done|lia].
Qed.

(** ** Strings *)
Lemma append_cons x a b : (String x a ++ b = String x (a ++ b))%string.
Proof. done. Qed.
Lemma append_assoc (a b c : string) : ((a ++ b) ++ c = a ++ b ++ c)%string.
Proof. induction a as [|x a IH]; [done|]. by rewrite !append_cons, IH. Qed.
Lemma append_nil_r (a : string) : (a ++ "" = a)%string.
Proof. induction a as [|x a IH]; [done|]. by rewrite append_cons, IH. Qed.
Lemma substring_all (d : string) : String.substring 0 (String.length d) d = d.
Proof. induction d as [|x d IH]; [done|]. simpl. by rewrite IH. Qed.
Lemma substring_split (d : string) : forall n, n <= String.length d ->
  (String.substring 0 n d ++ String.substring n (String.length d - n) d = d)%string.
Proof.
  induction d as [|x d IH]; intros [|n] Hn; [done|simpl in Hn; lia| |].
  - change (String.substring 0 0 (String x d)) with ""%string. rewrite Nat.sub_0_r. apply (substring_all (String x d)).
  - simpl in Hn. specialize (IH n ltac:(lia)). simpl. by rewrite append_cons, IH.
Qed.
Lemma substring_0 (d : string) : forall n, String.substring n 0 d = ""%string.
Proof. induction d as [|x d IH]; intros [|n]; simpl; auto. Qed.
Lemma length_substring (d : string) : forall n m, n + m <= String.length d -> String.length (String.substring n m d) = m.
Proof.
  induction d as [|x d IH]; intros [|n] [|m] Hl; simpl in *; try lia; auto; [rewrite IH; lia|by apply (IH n 0); lia|apply IH; lia].
Qed.
Lemma length_append (a b : string) : String.length (a ++ b) = String.length a + String.length b.
Proof. induction a as [|c a IH]; [done|]. rewrite append_cons. cbn [String.length]. by rewrite IH. Qed.
