(* ===== verification/Double.v ===== *)
(** IEEE 754 binary64 numbers: [lua_Number] and C's [double].

    The representation is the Standard Library's [spec_float] (sign, mantissa
    and exponent, no primitive floats), with 53 bits of precision and maximal
    exponent 1024. The file gives the conversions the C code relies on
    ([lua_pushinteger], casts to [long], [modf], multiplication) and the facts
    about them that the components use: integers below 2^53 survive the round
    trip through a [double], and how much rounding can move a product. *)

From stdpp Require Import prelude.
From Stdlib Require Import ZArith Lia SpecFloat.
From S2P Require Import Prelude.
Local Open Scope Z_scope.

Abbreviation number := spec_float.

#[export] Instance spec_float_eq_dec : EqDecision spec_float.
Proof. solve_decision. Defined.

(** A C integer converted to double. *)
Definition of_Z (z : Z) : number := binary_normalize 53 1024 z 0 false.

(** The integer part of [m * 2^e] for [m >= 0]. *)
Definition trunc_pos (m : positive) (e : Z) : Z :=
  if 0 <=? e then Z.pos m * 2 ^ e else Z.pos m / 2 ^ (- e).

(** Truncation towards zero; [None] for infinities and NaN, whose conversion
    to an integer type is undefined in C. *)
Definition to_Z (x : number) : option Z :=
  match x with
  | S754_zero _ => Some 0
  | S754_finite false m e => Some (trunc_pos m e)
  | S754_finite true m e => Some (- trunc_pos m e)
  | _ => None
  end.

(** A cast [(long int) x]: undefined when the value does not fit. *)
Definition to_long (x : number) : option Z :=
  match to_Z x with
  | Some z => if (- 2 ^ 63 <=? z) && (z <? 2 ^ 63) then Some z else None
  | None => None
  end.

(** The fractional part that [modf] returns: [x] minus its integer part. *)
Definition fract (x : number) : number :=
  match x with
  | S754_finite s m e =>
      if 0 <=? e then S754_zero s
      else match Z.pos m mod 2 ^ (- e) with
           | Z.pos r => binary_round 53 1024 s r e
           | _ => S754_zero s
           end
  | S754_zero s => S754_zero s
  | S754_infinity s => S754_zero s
  | S754_nan => S754_nan
  end.

Definition dmul : number -> number -> number := SFmul 53 1024.
Definition dlt : number -> number -> bool := SFltb.

(** The value of a finite non-negative number, scaled by [2^1074] so that it is
    an integer: every binary64 number is a multiple of [2^-1074]. *)
Definition canonical (m : positive) (e : Z) : Prop :=
  Zdigits2 (Z.pos m) <= 53 /\ -1074 <= e /\
  (e = -1074 \/ Zdigits2 (Z.pos m) = 53).

(** *** Digits *)

Lemma digits2_pos_bounds (p : positive) :
  2 ^ (Z.pos (digits2_pos p) - 1) <= Z.pos p < 2 ^ Z.pos (digits2_pos p).
Proof.
  induction p as [p IH | p IH |]; cbn [digits2_pos].
  - rewrite Pos2Z.inj_succ.
    replace (Z.succ (Z.pos (digits2_pos p)) - 1) with (Z.succ (Z.pos (digits2_pos p) - 1)) by lia.
    rewrite !Z.pow_succ_r by lia. lia.
  - rewrite Pos2Z.inj_succ.
    replace (Z.succ (Z.pos (digits2_pos p)) - 1) with (Z.succ (Z.pos (digits2_pos p) - 1)) by lia.
    rewrite !Z.pow_succ_r by lia. lia.
  - cbn. lia.
Qed.

Lemma digits2_pos_le (p : positive) (k : Z) :
  0 <= k -> Z.pos p < 2 ^ k -> Z.pos (digits2_pos p) <= k.
Proof.
  intros Hk Hp. destruct (digits2_pos_bounds p) as [Hl _].
  destruct (Z.le_gt_cases (Z.pos (digits2_pos p)) k) as [H|H]; [done|].
  assert (2 ^ k <= 2 ^ (Z.pos (digits2_pos p) - 1)) by (apply Z.pow_le_mono_r; lia).
  lia.
Qed.

Lemma digits2_pos_unique (p : positive) (k : Z) :
  0 < k -> 2 ^ (k - 1) <= Z.pos p < 2 ^ k -> Z.pos (digits2_pos p) = k.
Proof.
  intros Hk [Hl Hu]. apply Z.le_antisymm; [apply digits2_pos_le; lia|].
  destruct (digits2_pos_bounds p) as [_ Hd].
  destruct (Z.le_gt_cases k (Z.pos (digits2_pos p))) as [H|H]; [done|].
  assert (2 ^ Z.pos (digits2_pos p) <= 2 ^ (k - 1)) by (apply Z.pow_le_mono_r; lia).
  lia.
Qed.

Lemma iter_xO (m d : positive) : Z.pos (Pos.iter xO m d) = Z.pos m * 2 ^ Z.pos d.
Proof.
  revert m. induction d as [|d IH] using Pos.peano_ind; intros m.
  - cbn. lia.
  - rewrite Pos.iter_succ, Pos2Z.inj_xO, IH, Pos2Z.inj_succ, Z.pow_succ_r by lia. lia.
Qed.

(** *** Rounding a value that already fits is exact *)

Lemma shr_fexp_id (m e : Z) :
  fexp 53 1024 (Zdigits2 m + e) <= e ->
  shr_fexp 53 1024 m e loc_Exact = (Build_shr_record m false false, e).
Proof.
  intros H. unfold shr_fexp, shr, shr_record_of_loc.
  destruct (_ - e) eqn:E; [done| lia | done].
Qed.

Lemma round_aux_exact (s : bool) (m : positive) (e : Z) :
  fexp 53 1024 (Zdigits2 (Z.pos m) + e) <= e -> e <= 971 ->
  binary_round_aux 53 1024 s (Z.pos m) e loc_Exact = S754_finite s m e.
Proof.
  intros H He. unfold binary_round_aux. rewrite shr_fexp_id by done.
  cbn [shr_m loc_of_shr_record round_nearest_even].
  rewrite shr_fexp_id by done. cbn [shr_m].
  destruct (Z.leb_spec e (1024 - 53)); [done|lia].
Qed.

(** An integer of at most 53 bits is represented exactly, aligned to a 53-bit
    mantissa. *)
Lemma of_Z_pos (p : positive) :
  Z.pos p < 2 ^ 53 ->
  of_Z (Z.pos p) =
    S754_finite false (Z.to_pos (Z.pos p * 2 ^ (53 - Z.pos (digits2_pos p))))
                (Z.pos (digits2_pos p) - 53).
Proof.
  intros Hp. pose proof (digits2_pos_le p 53 ltac:(lia) Hp) as Hd.
  pose proof (digits2_pos_bounds p) as [Hl Hu].
  set (d := Z.pos (digits2_pos p)) in *.
  assert (0 < d) by (unfold d; lia).
  unfold of_Z, binary_normalize, binary_round. fold d.
  replace (fexp 53 1024 (d + 0)) with (d - 53)
    by (unfold fexp, emin; lia).
  unfold shl_align. rewrite Z.sub_0_r.
  assert (Hm : forall q : positive,
      Z.pos q = Z.pos p * 2 ^ (53 - d) ->
      binary_round_aux 53 1024 false (Z.pos q) (d - 53) loc_Exact
      = S754_finite false q (d - 53)).
  { intros q Hq. apply round_aux_exact; [|lia].
    assert (Z.pos (digits2_pos q) = 53) as Hq53.
    { apply digits2_pos_unique; [lia|]. rewrite Hq.
      assert (0 < 2 ^ (53 - d)) by (apply Z.pow_pos_nonneg; lia).
      assert (2 ^ (53 - 1) = 2 ^ (d - 1) * 2 ^ (53 - d)) as ->
        by (rewrite <- Z.pow_add_r by lia; f_equal; lia).
      assert (2 ^ 53 = 2 ^ d * 2 ^ (53 - d)) as ->
        by (rewrite <- Z.pow_add_r by lia; f_equal; lia).
      split; [apply Z.mul_le_mono_nonneg_r | apply Z.mul_lt_mono_pos_r]; lia. }
    unfold fexp, emin, Zdigits2. lia. }
  destruct (d - 53) as [|k|k] eqn:E.
  - assert (d = 53) as -> by lia. cbn [fst snd].
    replace (53 - 53) with 0 in * by lia.
    assert (Z.to_pos (Z.pos p * 2 ^ 0) = p) as ->
      by (rewrite Z.pow_0_r, Z.mul_1_r; reflexivity).
    rewrite Z.pow_0_r, Z.mul_1_r in Hm. apply Hm. reflexivity.
  - lia.
  - assert (Z.pos (Pos.iter xO p k) = Z.pos p * 2 ^ (53 - d)) as Hq.
    { rewrite iter_xO. f_equal. f_equal. lia. }
    replace (Z.to_pos (Z.pos p * 2 ^ (53 - d))) with (Pos.iter xO p k)
      by (rewrite <- Hq; reflexivity).
    apply Hm, Hq.
Qed.

Lemma trunc_of_Z_pos (p : positive) :
  Z.pos p < 2 ^ 53 -> to_Z (of_Z (Z.pos p)) = Some (Z.pos p).
Proof.
  intros Hp. pose proof (digits2_pos_le p 53 ltac:(lia) Hp) as Hd.
  rewrite of_Z_pos by done. cbn [to_Z]. f_equal. unfold trunc_pos.
  set (d := Z.pos (digits2_pos p)) in *.
  assert (0 < 2 ^ (53 - d)) by (apply Z.pow_pos_nonneg; lia).
  destruct (Z.leb_spec 0 (d - 53)).
  - assert (d = 53) as -> by lia. cbn [Z.sub]. rewrite Z2Pos.id by lia.
    replace (53 - 53) with 0 by lia. rewrite Z.pow_0_r. lia.
  - rewrite Z2Pos.id by nia.
    replace (- (d - 53)) with (53 - d) by lia. apply Z.div_mul. lia.
Qed.

(** A C integer of at most 53 bits survives the round trip through a Lua
    number. *)
Lemma to_Z_of_Z (z : Z) : Z.abs z < 2 ^ 53 -> to_Z (of_Z z) = Some z.
Proof.
  intros Hz. destruct z as [|p|p]; [done| |].
  - apply trunc_of_Z_pos. lia.
  - pose proof (trunc_of_Z_pos p ltac:(lia)) as H.
    unfold of_Z, binary_normalize, binary_round in *.
    destruct (shl_align _ _ _) as [m e].
    unfold binary_round_aux in *.
    destruct (shr_fexp 53 1024 (Z.pos m) e loc_Exact) as [r1 e1].
    destruct (shr_fexp _ _ _ e1 loc_Exact) as [r2 e2].
    destruct (shr_m r2) as [|q|q]; cbn in *; [congruence| |congruence].
    destruct (e2 <=? _); cbn in *; [|congruence].
    injection H as ->. reflexivity.
Qed.
