(* ===== verification/Lua.v ===== *)
(** Lua values as the C code of ratchet sees them through the C API, and the
    conversions of that API the sources use.

    A value is a tag with its payload; tables, userdata, threads and functions
    are references. Numbers are binary64 ([Double.v]). The two conversions
    between strings and numbers that the API performs silently
    ([lua_tonumber] of a string, [lua_tostring] of a number) belong to the Lua
    core: they are the operations of the class [LuaConv]. *)

From stdpp Require Import prelude strings.
From Stdlib Require Import ZArith Lia SpecFloat Ascii.
From S2P Require Import Prelude Double.
Local Open Scope Z_scope.

(** The table that [ratchet_error_new] builds (error.c). *)
Record rerror := RError {
  err_description : string;
  err_code : option string;
  err_function : option string;
  err_syscall : option string;
  err_errno : option Z;
}.

Inductive value :=
  | VNil
  | VBool (b : bool)
  | VNum (n : number)
  | VStr (s : string)
  | VLight (p : Z)
  | VFun (f : nat)
  | VThread (t : nat)
  | VTab (l : nat)
  | VUd (u : nat)
  | VErr (e : rerror).

#[export] Instance rerror_eq_dec : EqDecision rerror.
Proof. solve_decision. Defined.
#[export] Instance value_eq_dec : EqDecision value.
Proof. solve_decision. Defined.

(** Conversions performed by the Lua core. *)
Class LuaConv := {
  str2number : string -> option number;   (* luaO_str2d *)
  number2str : number -> string;          (* LUAI_NUMFFORMAT *)
}.

(** A value read at an index: [None] is LUA_TNONE. *)
Abbreviation slot := (option value).

Definition isnil (v : slot) : bool :=
  match v with Some VNil => true | _ => false end.
Definition isnoneornil (v : slot) : bool :=
  match v with None | Some VNil => true | _ => false end.
Definition isthread (v : slot) : bool :=
  match v with Some (VThread _) => true | _ => false end.
Definition istable (v : slot) : bool :=
  match v with Some (VTab _) | Some (VErr _) => true | _ => false end.
Definition islightuserdata (v : slot) : bool :=
  match v with Some (VLight _) => true | _ => false end.

(** [lua_toboolean]. *)
Definition toboolean (v : slot) : bool :=
  match v with None | Some VNil | Some (VBool false) => false | _ => true end.

Section Conv.
Context `{LuaConv}.

(** [lua_tonumberx]: numbers, and strings that convert. *)
Definition tonumberx (v : slot) : option number :=
  match v with
  | Some (VNum n) => Some n
  | Some (VStr s) => str2number s
  | _ => None
  end.

Definition isnumber (v : slot) : bool :=
  match tonumberx v with Some _ => true | None => false end.

(** [lua_isstring]: strings and numbers. *)
Definition isstring (v : slot) : bool :=
  match v with Some (VStr _) | Some (VNum _) => true | _ => false end.

(** [lua_tostring]. *)
Definition tostring (v : slot) : option string :=
  match v with
  | Some (VStr s) => Some s
  | Some (VNum n) => Some (number2str n)
  | _ => None
  end.

(** [lua_tointeger]: 0 when the value is not a number; [None] when the
    conversion of the number is undefined. *)
Definition tointeger (v : slot) : option Z :=
  match tonumberx v with
  | Some n => to_Z n
  | None => Some 0
  end.
End Conv.

(** ** C strings

    A [const char *] taken from a Lua string ends at its first NUL. *)
Fixpoint c_str (s : string) : string :=
  match s with
  | EmptyString => EmptyString
  | String c s' => if Ascii.eqb c "000"%char then EmptyString else String c (c_str s')
  end.

(** Bytes of a string and back. *)
Definition string_of_bytes (l : list Z) : string := fold_right (fun b s => String (Ascii.ascii_of_nat (Z.to_nat b)) s) ""%string l.
Fixpoint bytes_of_string (s : string) : list Z :=
  match s with EmptyString => [] | String c s' => Z.of_nat (Ascii.nat_of_ascii c) :: bytes_of_string s' end.

(** [strcmp (a, b) == 0]. *)
Definition strcmp0 (a b : string) : bool := String.eqb (c_str a) (c_str b).

Lemma c_str_idem s : c_str (c_str s) = c_str s.
Proof.
  induction s as [|c s IH]; [done|]. cbn. destruct (Ascii.eqb c "000") eqn:E; [done|].
  cbn. rewrite E, IH. reflexivity.
Qed.

(** A C [int] made from a wider integer: the low 32 bits, signed. *)
Definition to_int (z : Z) : Z :=
  let r := z mod 2 ^ 32 in if r <? 2 ^ 31 then r else r - 2 ^ 32.

Lemma to_int_id z : - 2 ^ 31 <= z < 2 ^ 31 -> to_int z = z.
Proof.
  intros Hz. unfold to_int. destruct (Z.neg_nonneg_cases z).
  - rewrite <- (Z.mod_unique z (2 ^ 32) (-1) (z + 2 ^ 32)) by lia.
    destruct (Z.ltb_spec (z + 2 ^ 32) (2 ^ 31)); lia.
  - rewrite Z.mod_small by lia. destruct (Z.ltb_spec z (2 ^ 31)); lia.
Qed.

(** RATCHET_YIELD_* (ratchet.h). *)
Definition YIELD_GET : Z := 1.
Definition YIELD_WRITE : Z := 2.
Definition YIELD_READ : Z := 3.
Definition YIELD_TIMEOUT : Z := 4.
Definition YIELD_WAITALL : Z := 5.
Definition YIELD_MULTIRW : Z := 6.
Definition YIELD_PAUSE : Z := 7.
Definition YIELD_SIGNAL : Z := 8.
