(* ===== verification/Misc.v ===== *)
(** misc.c: conversions between Lua numbers and [struct timeval] / [struct
    timespec], signal names, string comparison and descriptor flags. *)

From stdpp Require Import prelude strings.
From Stdlib Require Import ZArith Lia SpecFloat.
From S2P Require Import Prelude Double Lua.
Local Open Scope Z_scope.

Record timeval := Timeval { tv_sec : Z; tv_usec : Z }.
Record timespec := Timespec { ts_sec : Z; ts_nsec : Z }.

#[export] Instance timeval_eq_dec : EqDecision timeval.
Proof. solve_decision. Defined.

(** What [gettimeval] does to its output argument: it leaves it alone and
    returns 0, fills it and returns 1, or performs a conversion that C leaves
    undefined (NaN, infinity, seconds beyond a [long]). *)
Inductive conv (T : Type) :=
  | Unset
  | Set_ (t : T)
  | Undefined.
Arguments Unset {T}.
Arguments Set_ {T} t.
Arguments Undefined {T}.

(** The constants 1000000.0 and 1000000000.0. *)
Definition million : number := of_Z 1000000.
Definition billion : number := of_Z 1000000000.

Definition gettimeval (secs : number) : conv timeval :=
  if dlt secs (S754_zero false) then Unset
  else
    match to_long secs, to_long (dmul (fract secs) million) with
    | Some s, Some us => Set_ (Timeval s us)
    | _, _ => Undefined
    end.

Definition gettimespec (secs : number) : conv timespec :=
  if dlt secs (S754_zero false) then Unset
  else
    match to_long secs, to_long (dmul (fract secs) billion) with
    | Some s, Some ns => Set_ (Timespec s ns)
    | _, _ => Undefined
    end.

Definition fromtimeval (tv : timeval) : number :=
  let ret := S754_zero false in
  let ret := SFadd 53 1024 ret (of_Z (tv_sec tv)) in
  SFadd 53 1024 ret (SFdiv 53 1024 (of_Z (tv_usec tv)) million).

Definition fromtimespec (tv : timespec) : number :=
  let ret := S754_zero false in
  let ret := SFadd 53 1024 ret (of_Z (ts_sec tv)) in
  SFadd 53 1024 ret (SFdiv 53 1024 (of_Z (ts_nsec tv)) billion).

(** The argument errors of [luaL_checknumber], [luaL_argerror]. *)
Definition argerror (msg : string) : value := VStr msg.

Section Args.
Context `{LuaConv}.

(** [luaL_checknumber], [luaL_optnumber]. *)
Definition checknumber (v : slot) : value + number :=
  match tonumberx v with
  | Some n => inr n
  | None => inl (argerror "number expected")
  end.

Definition optnumber (v : slot) (d : number) : value + number :=
  if isnoneornil v then inr d else checknumber v.

Definition gettimeval_arg (v : slot) : value + conv timeval :=
  match checknumber v with inl e => inl e | inr secs => inr (gettimeval secs) end.

Definition gettimeval_opt (v : slot) : value + conv timeval :=
  match optnumber v (of_Z (-1)) with inl e => inl e | inr secs => inr (gettimeval secs) end.

Definition gettimespec_arg (v : slot) : value + conv timespec :=
  match checknumber v with inl e => inl e | inr secs => inr (gettimespec secs) end.

Definition gettimespec_opt (v : slot) : value + conv timespec :=
  match optnumber v (of_Z (-1)) with inl e => inl e | inr secs => inr (gettimespec secs) end.

(** [strequal]: the value is a string (or number) equal to [s2] as a C string. *)
Definition strequal (v : slot) (s2 : string) : bool :=
  match tostring v with
  | Some s1 => strcmp0 s1 s2
  | None => false
  end.

(** The names [get_signal] knows, with their numbers on Linux. *)
Definition signal_names : list (string * Z) :=
  [("SIGHUP", 1); ("SIGINT", 2); ("SIGQUIT", 3); ("SIGILL", 4); ("SIGABRT", 6);
   ("SIGFPE", 8); ("SIGKILL", 9); ("SIGSEGV", 11); ("SIGPIPE", 13); ("SIGALRM", 14);
   ("SIGTERM", 15); ("SIGUSR1", 10); ("SIGUSR2", 12); ("SIGCHLD", 17); ("SIGCONT", 18);
   ("SIGSTOP", 19); ("SIGTSTP", 20); ("SIGTTIN", 21); ("SIGTTOU", 22)]%string.

Fixpoint signal_by_name (names : list (string * Z)) (s : string) : Z :=
  match names with
  | [] => -1
  | (n, sig) :: names' => if strcmp0 n s then sig else signal_by_name names' s
  end.

Definition get_signal (v : slot) (def : Z) : Z :=
  if isnumber v then
    match tointeger v with Some z => to_int z | None => to_int (- 2 ^ 63) end
  else
    match tostring v with
    | Some s => signal_by_name signal_names s
    | None => if isnoneornil v then def else -1
    end.
End Args.

(** ** Descriptor flags

    Per descriptor, the kernel keeps the descriptor flags (FD_CLOEXEC) apart
    from the file status flags of the open file. fcntl(2): F_SETFL changes only
    O_APPEND, O_ASYNC, O_DIRECT, O_NOATIME and O_NONBLOCK of the latter. *)
Record fdstate := FdState { fd_flags : Z; fd_status : Z }.

Definition O_NONBLOCK : Z := 2048.
Definition FD_CLOEXEC : Z := 1.
Definition setfl_mask : Z := 1024 + 8192 + 16384 + 262144 + 2048.

(** [fcntl (fd, F_GETFL, 0)]: -1 for a closed descriptor. *)
Definition fcntl_getfl (st : option fdstate) : Z :=
  match st with Some s => fd_status s | None => -1 end.

(** [fcntl (fd, F_SETFL, fl)]. *)
Definition fcntl_setfl (st : option fdstate) (fl : Z) : Z * option fdstate :=
  match st with
  | Some s => (0, Some (FdState (fd_flags s)
      (Z.lor (Z.ldiff (fd_status s) setfl_mask) (Z.land fl setfl_mask))))
  | None => (-1, None)
  end.

Definition set_nonblocking (st : option fdstate) : Z * option fdstate :=
  let flags := if fcntl_getfl st =? -1 then 0 else fcntl_getfl st in
  fcntl_setfl st (Z.lor flags O_NONBLOCK).

Definition set_closeonexec (st : option fdstate) : Z * option fdstate :=
  let flags := if fcntl_getfl st =? -1 then 0 else fcntl_getfl st in
  fcntl_setfl st (Z.lor flags FD_CLOEXEC).

(** An open descriptor becomes non-blocking, and nothing else of it changes. *)
Lemma set_nonblocking_ok (s : fdstate) :
  0 <= fd_status s ->
  exists s', set_nonblocking (Some s) = (0, Some s') /\
    Z.testbit (fd_status s') 11 = true /\
    fd_flags s' = fd_flags s /\
    (forall i, 0 <= i -> i <> 11 -> Z.testbit (fd_status s') i = Z.testbit (fd_status s) i).
Proof.
  intros Hs. unfold set_nonblocking, fcntl_getfl, fcntl_setfl.
  destruct (Z.eqb_spec (fd_status s) (-1)); [lia|].
  eexists. split; [reflexivity|]. cbn [fd_status fd_flags]. split; [|split; [done|]].
  - rewrite Z.lor_spec, Z.land_spec, Z.lor_spec.
    change (Z.testbit O_NONBLOCK 11) with true. change (Z.testbit setfl_mask 11) with true.
    rewrite !orb_true_r. reflexivity.
  - intros i Hi Hne. rewrite Z.lor_spec, Z.ldiff_spec, Z.land_spec, Z.lor_spec.
    replace (Z.testbit O_NONBLOCK i) with false.
    + rewrite orb_false_r. destruct (Z.testbit (fd_status s) i), (Z.testbit setfl_mask i); done.
    + symmetry. change O_NONBLOCK with (2 ^ 11). apply Z.pow2_bits_false. lia.
Qed.

(** [set_closeonexec] goes through F_SETFL, which does not reach the descriptor
    flags: FD_CLOEXEC is whatever it was, and since bit 0 (O_WRONLY) is not one
    F_SETFL changes, the call changes nothing at all. *)
Lemma set_closeonexec_noop (s : fdstate) :
  0 <= fd_status s -> set_closeonexec (Some s) = (0, Some s).
Proof.
  intros Hs. unfold set_closeonexec, fcntl_getfl, fcntl_setfl.
  destruct (Z.eqb_spec (fd_status s) (-1)); [lia|].
  do 2 f_equal. destruct s as [f st]. cbn [fd_flags fd_status] in *. f_equal.
  apply Z.bits_inj'. intros i Hi.
  rewrite Z.lor_spec, Z.ldiff_spec, Z.land_spec, Z.lor_spec.
  destruct (Z.testbit setfl_mask i) eqn:E.
  - replace (Z.testbit FD_CLOEXEC i) with false; [by destruct (Z.testbit st i)|].
    symmetry. destruct (Z.eq_dec i 0) as [->|]; [by vm_compute in E|].
    change FD_CLOEXEC with (2 ^ 0). apply Z.pow2_bits_false. lia.
  - rewrite andb_false_r. by destruct (Z.testbit st i).
Qed.

(** A descriptor opened for reading and writing. *)
Lemma set_closeonexec_witness : set_closeonexec (Some (FdState 0 2)) = (0, Some (FdState 0 2)).
Proof. apply (set_closeonexec_noop (FdState 0 2)). cbn. lia. Defined.
