(* ===== verification/Sched.v ===== *)
(** ratchet.c: the coroutine scheduler, its state and its operations.

    The uservalue table of the ratchet object is the record [world]: the tables
    [threads], [ready], [waiting_on], [alarm_events], [alarm_callbacks],
    [thread_space] and the fields [break_flag] and [error_handler]. Beside them
    the world holds what those tables refer to: every coroutine with its stack
    and status, the small tables the C code leaves on coroutine stacks, and the
    events pending in libevent. The set [loose] is a history variable, which no
    operation reads: the threads whose cleanup table was dropped while an event
    of it was pending, so that their events are no longer in step with them.

    Parameters: the text of the Lua functions ([prog]), the [get_fd] and
    [get_timeout] methods of the objects a thread blocks on ([Objects]), the
    outcome of an alarm callback, the order in which [lua_next] visits a table
    ([NextOrder]), and, for each run of the event loop, which events libevent
    reports. Garbage collection of weak tables is not modelled. *)

From stdpp Require Import prelude gmap strings.
From Stdlib Require Import ZArith Lia SpecFloat.
From S2P Require Import Prelude Double Lua Misc.

(** ** Data *)

(** The functions of the [ratchet.thread] namespace. *)
Inductive tfn :=
  | F_attach | F_block_on | F_sigwait | F_wait_all | F_space | F_self
  | F_timer | F_pause | F_unpause | F_kill | F_kill_all | F_alarm.

(** What the Lua code of a thread does between two resumptions: return, raise,
    yield (from Lua or from a C function of another module), make a table, or
    call a [ratchet.thread] function and go on with its results or with the
    error it raised. The tree has finite paths; what a program that runs forever
    does up to some moment, a finite one does as well. *)
Inductive body :=
  | BRet (vs : list value)
  | BErr (e : value)
  | BYield (vs : list value) (k : list value -> body)
  | BTab (vs : list value) (k : value -> body)
  | BCall (f : tfn) (args : list value) (k : value + list value -> body).

(** Where a coroutine continues: not started (function and arguments are on its
    stack), after a plain yield, or inside the C function [f] that called
    [lua_yieldk] with its frame saved. *)
Inductive cont :=
  | KCall
  | KLua (k : list value -> body)
  | KFrame (f : tfn) (frame : list value) (k : value + list value -> body).

(** [lua_status]. *)
Inductive lstatus := LUA_OK | LUA_YIELD | LUA_ERR.

#[export] Instance lstatus_eq_dec : EqDecision lstatus.
Proof. solve_decision. Defined.

Record cor := Cor { c_status : lstatus; c_stack : list value; c_cont : cont }.

(** Tables: arrays made by Lua code, the cleanup tables of the wait functions
    (fields [event] and [event_list]), lists of events, maps from descriptors. *)
Inductive ltab :=
  | TArr (vs : list value)
  | TCleanup (event : option nat) (event_list : option nat)
  | TEvList (evs : list nat)
  | TFdMap (m : gmap Z value).

(** A libevent event: what it waits for, the callback, its argument and the
    timeout given to [event_add]. *)
Inductive ekind := EvRead (fd : Z) | EvWrite (fd : Z) | EvSignal (sig : Z) | EvTimer.
Inductive callback :=
  | event_triggered_cb | signal_triggered_cb | timeout_triggered_cb
  | alarm_triggered_cb | multi_event_triggered_cb.
Record event := Event {
  ev_kind : ekind; ev_cb : callback; ev_arg : nat; ev_tv : option timeval }.

Record world := World {
  threads : gset nat;
  ready : gset nat;
  waiting_on : gmap nat (gset nat);
  alarm_events : gmap nat nat;
  alarm_callbacks : gmap nat value;
  thread_space : gmap nat value;
  break_flag : bool;
  error_handler : value;
  cors : gmap nat cor;
  tabs : gmap nat ltab;
  events : gmap nat event;
  next_id : nat;
  handled : list (value * nat);
  loose : gset nat;
}.

(** The main thread and the ratchet object. *)
Definition main_thread : nat := 0.
Definition ratchet_object : value := VUd 0.

(** *** Field updates *)
Definition set_threads (w : world) x := World x (ready w) (waiting_on w) (alarm_events w)
  (alarm_callbacks w) (thread_space w) (break_flag w) (error_handler w) (cors w) (tabs w)
  (events w) (next_id w) (handled w) (loose w).
Definition set_ready (w : world) x := World (threads w) x (waiting_on w) (alarm_events w)
  (alarm_callbacks w) (thread_space w) (break_flag w) (error_handler w) (cors w) (tabs w)
  (events w) (next_id w) (handled w) (loose w).
Definition set_waiting (w : world) x := World (threads w) (ready w) x (alarm_events w)
  (alarm_callbacks w) (thread_space w) (break_flag w) (error_handler w) (cors w) (tabs w)
  (events w) (next_id w) (handled w) (loose w).
Definition set_alarm_events (w : world) x := World (threads w) (ready w) (waiting_on w) x
  (alarm_callbacks w) (thread_space w) (break_flag w) (error_handler w) (cors w) (tabs w)
  (events w) (next_id w) (handled w) (loose w).
Definition set_alarm_callbacks (w : world) x := World (threads w) (ready w) (waiting_on w)
  (alarm_events w) x (thread_space w) (break_flag w) (error_handler w) (cors w) (tabs w)
  (events w) (next_id w) (handled w) (loose w).
Definition set_thread_space (w : world) x := World (threads w) (ready w) (waiting_on w)
  (alarm_events w) (alarm_callbacks w) x (break_flag w) (error_handler w) (cors w) (tabs w)
  (events w) (next_id w) (handled w) (loose w).
Definition set_break (w : world) x := World (threads w) (ready w) (waiting_on w)
  (alarm_events w) (alarm_callbacks w) (thread_space w) x (error_handler w) (cors w) (tabs w)
  (events w) (next_id w) (handled w) (loose w).
Definition set_cors (w : world) x := World (threads w) (ready w) (waiting_on w)
  (alarm_events w) (alarm_callbacks w) (thread_space w) (break_flag w) (error_handler w) x
  (tabs w) (events w) (next_id w) (handled w) (loose w).
Definition set_tabs (w : world) x := World (threads w) (ready w) (waiting_on w)
  (alarm_events w) (alarm_callbacks w) (thread_space w) (break_flag w) (error_handler w)
  (cors w) x (events w) (next_id w) (handled w) (loose w).
Definition set_events (w : world) x := World (threads w) (ready w) (waiting_on w)
  (alarm_events w) (alarm_callbacks w) (thread_space w) (break_flag w) (error_handler w)
  (cors w) (tabs w) x (next_id w) (handled w) (loose w).
Definition set_next (w : world) x := World (threads w) (ready w) (waiting_on w)
  (alarm_events w) (alarm_callbacks w) (thread_space w) (break_flag w) (error_handler w)
  (cors w) (tabs w) (events w) x (handled w) (loose w).
Definition set_handled (w : world) x := World (threads w) (ready w) (waiting_on w)
  (alarm_events w) (alarm_callbacks w) (thread_space w) (break_flag w) (error_handler w)
  (cors w) (tabs w) (events w) (next_id w) x (loose w).
Definition set_loose (w : world) x := World (threads w) (ready w) (waiting_on w)
  (alarm_events w) (alarm_callbacks w) (thread_space w) (break_flag w) (error_handler w)
  (cors w) (tabs w) (events w) (next_id w) (handled w) x.

(** ** Effects

    An operation changes the world and returns, raises a Lua error in the
    thread that called it, aborts to the main thread (an error raised in a
    coroutine that is not running reaches the handler of the main thread),
    or exhausts the fuel given to a loop. [Undef]: the sources do not determine
    what happens next, because the Lua API is used against its contract. *)
Inductive res (A : Type) :=
  | Ok (a : A)
  | Raise (e : value)
  | Abort_ (e : value)
  | Undef
  | Fuel.
Arguments Ok {A} a.
Arguments Raise {A} e.
Arguments Abort_ {A} e.
Arguments Undef {A}.
Arguments Fuel {A}.

Definition M (A : Type) : Type := world -> world * res A.

Definition ret {A} (a : A) : M A := fun w => (w, Ok a).
Definition bind {A B} (m : M A) (f : A -> M B) : M B := fun w =>
  match m w with
  | (w', Ok a) => f a w'
  | (w', Raise e) => (w', Raise e)
  | (w', Abort_ e) => (w', Abort_ e)
  | (w', Undef) => (w', Undef)
  | (w', Fuel) => (w', Fuel)
  end.

Declare Scope sched_scope.
Delimit Scope sched_scope with sched.
Notation "'let!' x := m 'in' k" := (bind m (fun x => k))
  (at level 10, x binder, m at level 100, k at level 200) : sched_scope.
Notation "m ;; k" := (bind m (fun _ => k))
  (at level 100, k at level 200, right associativity) : sched_scope.
Open Scope sched_scope.

Definition get : M world := fun w => (w, Ok w).
Definition gets {A} (f : world -> A) : M A := fun w => (w, Ok (f w)).
Definition modify (f : world -> world) : M unit := fun w => (f w, Ok tt).
Definition raise {A} (e : value) : M A := fun w => (w, Raise e).
Definition undef {A} : M A := fun w => (w, Undef).
Definition fresh : M nat := fun w => (set_next w (S (next_id w)), Ok (next_id w)).
Definition lift {A} (r : value + A) : M A :=
  match r with inl e => raise e | inr a => ret a end.

(** *** Coroutines *)
Definition stack_of (w : world) (t : nat) : list value :=
  match cors w !! t with Some c => c_stack c | None => [] end.
Definition status_of (w : world) (t : nat) : lstatus :=
  match cors w !! t with Some c => c_status c | None => LUA_OK end.
Definition set_stack (t : nat) (s : list value) : M unit :=
  modify (fun w => set_cors w (alter (fun c => Cor (c_status c) s (c_cont c)) t (cors w))).
Definition set_cor (t : nat) (c : cor) : M unit :=
  modify (fun w => set_cors w (<[t := c]> (cors w))).

(** An error raised with [luaL_error (L1, ...)] or [luaL_checktype (L1, ...)] on
    a suspended coroutine: it marks the coroutine as dead and is thrown in the
    main thread. *)
Definition throw_in {A} (t : nat) (e : value) : M A := fun w =>
  (set_cors w (alter (fun c => Cor LUA_ERR (c_stack c) (c_cont c)) t (cors w)), Abort_ e).

(** *** Tables and events *)
Definition new_table (x : ltab) : M nat :=
  let! l := fresh in modify (fun w => set_tabs w (<[l := x]> (tabs w))) ;; ret l.
Definition set_table (l : nat) (x : ltab) : M unit :=
  modify (fun w => set_tabs w (<[l := x]> (tabs w))).

(** The array part of a table up to its first nil, as a [lua_rawgeti] loop sees
    it. *)
Fixpoint until_nil (vs : list value) : list value :=
  match vs with
  | [] => []
  | VNil :: _ => []
  | v :: vs' => v :: until_nil vs'
  end.
Definition array_of (w : world) (v : value) : list value :=
  match v with
  | VTab l => match tabs w !! l with Some (TArr vs) => until_nil vs | _ => [] end
  | _ => []
  end.

Definition event_del (ev : nat) : M unit :=
  modify (fun w => set_events w (delete ev (events w))).
Definition event_add (ev : nat) (e : event) : M unit :=
  modify (fun w => set_events w (<[ev := e]> (events w))).

(** ** Bookkeeping (ratchet.c, lines 94-200) *)

Definition set_thread_persist (t : nat) : M unit :=
  modify (fun w => set_threads w ({[t]} ∪ threads w)).

Definition set_thread_ready (t : nat) : M unit :=
  modify (fun w => set_ready w ({[t]} ∪ ready w)).

Definition end_thread_persist (t : nat) : M unit :=
  set_stack t [] ;;
  modify (fun w => set_threads w (threads w ∖ {[t]})) ;;
  let! ae := gets (fun w => alarm_events w !! t) in
  match ae with Some ev => event_del ev | None => ret tt end ;;
  modify (fun w => set_waiting w ((fun s => s ∖ {[t]}) <$> waiting_on w)).

(** The events recorded in the cleanup table at index 2 of the stack. *)
Definition cleanup_event (w : world) (t : nat) : list nat :=
  match stack_of w t !! 1%nat with
  | Some (VTab l) =>
      match tabs w !! l with Some (TCleanup (Some ev) _) => [ev] | _ => [] end
  | _ => []
  end.
Definition cleanup_event_list (w : world) (t : nat) : list nat :=
  match stack_of w t !! 1%nat with
  | Some (VTab l) =>
      match tabs w !! l with
      | Some (TCleanup _ (Some l')) =>
          match tabs w !! l' with Some (TEvList evs) => evs | _ => [] end
      | _ => []
      end
  | _ => []
  end.

Fixpoint event_del_all (evs : list nat) : M unit :=
  match evs with
  | [] => ret tt
  | ev :: evs' => event_del ev ;; event_del_all evs'
  end.

(** Some event of the cleanup table is still pending. *)
Definition busy (w : world) (t : nat) : bool :=
  existsb (fun ev => bool_decide (is_Some (events w !! ev)))
          (cleanup_event w t ++ cleanup_event_list w t).

(** The history variable: [t] is about to lose its stack. *)
Definition loosen (t : nat) : M unit := modify (fun w => set_loose w ({[t]} ∪ loose w)).
Definition note_drop (t : nat) : M unit :=
  let! b := gets (fun w => busy w t) in if b then loosen t else ret tt.

Definition end_all_waiting_thread_events (t : nat) : M unit :=
  let! ev := gets (fun w => cleanup_event w t) in
  event_del_all ev ;;
  let! evs := gets (fun w => cleanup_event_list w t) in
  event_del_all evs.

(** [handle_thread_error]: the error handler given to [ratchet.new] is called
    with the error and the thread, or the error is raised from the loop. *)
Definition handle_thread_error (e : value) (t : nat) : M unit :=
  let! h := gets error_handler in
  match h with
  | VNil => raise e
  | _ => modify (fun w => set_handled w (handled w ++ [(e, t)]))
  end.

(** [ratchet_error_str]. *)
Definition error_str (func : option string) (code descr : string) : value :=
  VErr (RError descr (Some code) func None None).

(** ** Waiting for events (ratchet.c, lines 202-239 and 766-960) *)

(** The methods of the objects a thread blocks on, written by other modules or
    by Lua code: [get_fd] returns a descriptor or raises; [get_timeout] may be
    missing. *)
Class Objects := {
  get_fd : value -> value + Z;
  get_timeout : value -> option number;
}.

(** The order in which [lua_next] visits the keys of a table. *)
Class NextOrder := {
  next_order : gset nat -> list nat;
  next_order_perm : forall s, next_order s ≡ₚ elements s;
}.

Section Sched.
Context `{LuaConv, Objects, NextOrder}.
(** The functions of the Lua program, by reference, and what an alarm callback
    does when it is called: [Some e] when it raises [e]. *)
Context (prog : nat -> list value -> body).
Context (run_callback : value -> option value).

Definition get_fd_from_object (v : slot) : M Z :=
  match v with
  | Some o => lift (get_fd o)
  | None => raise (VStr "object has no get_fd() method")
  end.

Definition get_timeout_from_object (v : slot) : number :=
  match v with
  | Some o => match get_timeout o with Some n => n | None => of_Z (-1) end
  | None => of_Z (-1)
  end.

(** The timeout argument of [event_add] from the result of [gettimeval]. *)
Definition use_tv (c : conv timeval) : M (option timeval) :=
  match c with
  | Unset => ret None
  | Set_ tv => ret (Some tv)
  | Undefined => undef
  end.

(** Append to the stack of [L1]. *)
Definition push (t : nat) (v : value) : M unit :=
  let! s := gets (fun w => stack_of w t) in set_stack t (s ++ [v]).

(** [ratchet_wait_for_write] and [ratchet_wait_for_read] differ in the event. *)
Definition wait_for_rw (kind : Z -> ekind) (t : nat) (args : list value) : M unit :=
  let! fd := get_fd_from_object (args !! 0%nat) in
  let timeout := get_timeout_from_object (args !! 0%nat) in
  let! l := new_table (TCleanup None None) in
  push t (VTab l) ;;
  if (fd <? 0)%Z then raise (error_str None "EBADF" "Invalid file descriptor")
  else
    let! tv := use_tv (gettimeval timeout) in
    let! ev := fresh in
    event_add ev (Event (kind fd) event_triggered_cb t tv) ;;
    set_table l (TCleanup (Some ev) None).

Definition wait_for_write := wait_for_rw EvWrite.
Definition wait_for_read := wait_for_rw EvRead.

Definition wait_for_signal (t : nat) (args : list value) : M unit :=
  let sig := match tointeger (args !! 0%nat) with Some z => to_int z | None => 0%Z end in
  let! c := lift (gettimeval_opt (args !! 1%nat)) in
  let! tv := use_tv c in
  let! l := new_table (TCleanup None None) in
  push t (VTab l) ;;
  let! l' := new_table (TEvList []) in
  let! ev := fresh in
  set_table l' (TEvList [ev]) ;;
  event_add ev (Event (EvSignal sig) signal_triggered_cb t None) ;;
  match tv with
  | Some _ =>
      let! to := fresh in
      set_table l' (TEvList [ev; to]) ;;
      event_add to (Event EvTimer signal_triggered_cb t tv)
  | None => ret tt
  end ;;
  set_table l (TCleanup None (Some l')).

(** The return value of [gettimeval_arg] is ignored: a negative time leaves the
    [struct timeval] uninitialised. *)
Definition tv_arg (c : conv timeval) : M timeval :=
  match c with Set_ tv => ret tv | Unset | Undefined => undef end.

Definition wait_for_timeout (t : nat) (args : list value) : M unit :=
  let! c := lift (gettimeval_arg (args !! 0%nat)) in
  let! l := new_table (TCleanup None None) in
  push t (VTab l) ;;
  let! ev := fresh in
  set_table l (TCleanup (Some ev) None) ;;
  let! tv := tv_arg c in
  event_add ev (Event EvTimer timeout_triggered_cb t (Some tv)).

(** One of the two loops of [ratchet_wait_for_multi]: for each object, record
    it under its descriptor in the table [lm] and register an event in [ll]. An
    object without a descriptor ends the wait with the events so far pending. *)
Fixpoint multi_add (t : nat) (kind : Z -> ekind) (lm ll : nat) (objs : list value) : M unit :=
  match objs with
  | [] => ret tt
  | o :: objs' =>
      match get_fd o with
      | inl e => loosen t ;; raise e
      | inr fd =>
          let! m := gets (fun w => match tabs w !! lm with Some (TFdMap m) => m | _ => ∅ end) in
          set_table lm (TFdMap (<[fd := o]> m)) ;;
          let! ev := fresh in
          let! evs := gets (fun w => match tabs w !! ll with Some (TEvList evs) => evs | _ => [] end) in
          set_table ll (TEvList (evs ++ [ev])) ;;
          event_add ev (Event (kind fd) multi_event_triggered_cb t None) ;;
          multi_add t kind lm ll objs'
      end
  end.

Definition check_table (v : slot) : M unit :=
  if istable v then ret tt else raise (VStr "table expected").

Definition wait_for_multi (t : nat) (args : list value) : M unit :=
  check_table (args !! 0%nat) ;;
  (if isnoneornil (args !! 1%nat) then ret tt else check_table (args !! 1%nat)) ;;
  let! c := lift (gettimeval_opt (args !! 2%nat)) in
  let! tv := use_tv c in
  let! reads := gets (fun w => match args !! 0%nat with Some v => array_of w v | None => [] end) in
  let! writes := gets (fun w => match args !! 1%nat with Some v => array_of w v | None => [] end) in
  let! l := new_table (TCleanup None None) in
  push t (VTab l) ;;
  let! to := fresh in
  set_table l (TCleanup (Some to) None) ;;
  match tv with
  | Some _ => event_add to (Event EvTimer multi_event_triggered_cb t tv)
  | None => ret tt
  end ;;
  let! lm := new_table (TFdMap ∅) in
  push t (VTab lm) ;;
  let! ll := new_table (TEvList []) in
  push t (VTab ll) ;;
  multi_add t EvRead lm ll reads ;;
  multi_add t EvWrite lm ll writes ;;
  let! s := gets (fun w => stack_of w t) in
  set_stack t (Stk.pop s 1) ;;
  set_table l (TCleanup (Some to) (Some ll)).

(** [ratchet_yield_thread]: register what the thread waits for, and leave the
    main thread at index 1 of its stack. *)
Definition yield_thread (t : nat) : M unit :=
  let! s := gets (fun w => stack_of w t) in
  match s with
  | VLight y :: args =>
      (if (y =? YIELD_WRITE)%Z then set_stack t [] ;; wait_for_write t args
       else if (y =? YIELD_READ)%Z then set_stack t [] ;; wait_for_read t args
       else if (y =? YIELD_SIGNAL)%Z then set_stack t [] ;; wait_for_signal t args
       else if (y =? YIELD_TIMEOUT)%Z then set_stack t [] ;; wait_for_timeout t args
       else if (y =? YIELD_MULTIRW)%Z then set_stack t [] ;; wait_for_multi t args
       else set_stack t [] ;; let! l := new_table (TCleanup None None) in push t (VTab l)) ;;
      let! s' := gets (fun w => stack_of w t) in
      set_stack t (VThread main_thread :: s')
  | _ => raise (VStr "Illegal yield of a ratchet thread.")
  end.

(** ** ratchet.thread functions (ratchet.c, lines 962-1323)

    A C function gets the frame [L] of its call and whether it is being
    continued after a [lua_yieldk]; it returns values, yields, or yields with
    itself as continuation and its frame kept. *)
Inductive cres :=
  | CRet (vs : list value)
  | CYield (vs : list value)
  | CYieldK (vs : list value) (frame : list value).

(** [get_event_base (L, 1)]. *)
Definition check_ratchet (L : list value) : M unit :=
  if decide (L !! 0%nat = Some ratchet_object) then ret tt
  else raise (VStr "ratchet expected").

(** The shared prologue of the functions that first ask for the ratchet object:
    yield RATCHET_YIELD_GET, and on continuation move the object to index 1. *)
Definition with_get (resumed : bool) (L : list value) (k : list value -> M cres) : M cres :=
  if resumed then k (Stk.insert L 1)
  else ret (CYieldK [VLight YIELD_GET] L).

Definition ratchet_attach (resumed : bool) (self : nat) (L : list value) : M cres :=
  with_get resumed L (fun L =>
    check_ratchet L ;;
    match drop 1 L with
    | [] => raise (VStr "value expected")
    | f :: args =>
        let! t := fresh in
        set_cor t (Cor LUA_OK (f :: args) KCall) ;;
        set_thread_persist t ;;
        set_thread_ready t ;;
        ret (CRet [VThread t])
    end).

Definition ratchet_block_on (self : nat) (L : list value) : M cres :=
  ret (CYield (VLight YIELD_MULTIRW :: L)).

Definition ratchet_sigwait (self : nat) (L : list value) : M cres :=
  let L := L ++ [VLight YIELD_SIGNAL] in
  let sig := get_signal (L !! 0%nat) (-1) in
  if (sig =? -1)%Z then raise (VStr "Invalid signal.")
  else ret (CYield [VLight YIELD_SIGNAL; VNum (of_Z sig)]).

(** A listed thread is skipped when it has finished or failed. The top of the
    running thread's own stack is the frame of [wait_all], which is not empty. *)
Definition finished (w : world) (self t : nat) : bool :=
  match status_of w t with
  | LUA_OK => if decide (t = self) then false else bool_decide (stack_of w t = [])
  | LUA_YIELD => false
  | LUA_ERR => true
  end.

Fixpoint wait_set (w : world) (self : nat) (items : list value) : option (gset nat) :=
  match items with
  | [] => Some ∅
  | VThread t :: items' =>
      s ← wait_set w self items';
      Some (if finished w self t then s else {[t]} ∪ s)
  | _ => None
  end.

Definition ratchet_wait_all (resumed : bool) (self : nat) (L : list value) : M cres :=
  with_get resumed L (fun L =>
    check_ratchet L ;;
    check_table (L !! 1%nat) ;;
    if decide (self = main_thread)
    then raise (VStr "ratchet.thread.wait_all() cannot be called from main thread.")
    else
      let! items := gets (fun w => match L !! 1%nat with Some v => array_of w v | None => [] end) in
      let! s := gets (fun w => wait_set w self items) in
      match s with
      | None => raise (VStr "Table item is not a thread.")
      | Some s =>
          modify (fun w => set_waiting w (<[self := s]> (waiting_on w))) ;;
          ret (CYield [VLight YIELD_WAITALL])
      end).

(** [ratchet_get_space] for the thread [t] with an optional premade value. *)
Definition ratchet_get_space (t : nat) (premade : slot) : M value :=
  let! o := gets (fun w => thread_space w !! t) in
  match o with
  | Some v => ret v
  | None =>
      if isnoneornil premade then
        let! l := new_table (TArr []) in
        modify (fun w => set_thread_space w (<[t := VTab l]> (thread_space w))) ;;
        ret (VTab l)
      else
        let v := default VNil premade in
        modify (fun w => set_thread_space w (<[t := v]> (thread_space w))) ;;
        ret v
  end.

Definition ratchet_thread_space (resumed : bool) (self : nat) (L : list value) : M cres :=
  with_get resumed L (fun L =>
    let L := Stk.settop VNil L 2 in
    if decide (self = main_thread)
    then raise (VStr "ratchet.thread.space() cannot be called from main thread.")
    else
      check_ratchet L ;;
      let! v := ratchet_get_space self (L !! 1%nat) in
      ret (CRet [v])).

Definition ratchet_running_thread (self : nat) (L : list value) : M cres :=
  ret (CRet [if decide (self = main_thread) then VNil else VThread self]).

Definition ratchet_timer (self : nat) (L : list value) : M cres :=
  if decide (self = main_thread)
  then raise (VStr "ratchet.thread.timer() cannot be called from main thread.")
  else ret (CYield (VLight YIELD_TIMEOUT :: L)).

Definition ratchet_pause (self : nat) (L : list value) : M cres :=
  if decide (self = main_thread)
  then raise (VStr "ratchet.thread.pause() cannot be called from main thread.")
  else ret (CYield [VLight YIELD_PAUSE]).

(** The thread's own stack must start with the thread that runs the loop; a
    suspended thread whose stack does not is reported in that thread, which
    kills it and unwinds to the main thread. Unpausing the running thread finds
    its own argument there and fails as not yielding. *)
Definition ratchet_unpause (self : nat) (L : list value) : M cres :=
  match L with
  | VThread t :: args =>
      if decide (t = self) then raise (VStr "Thread is not yielding, cannot unpause.")
      else
        let! s := gets (fun w => stack_of w t) in
        match s with
        | VThread t2 :: _ =>
            if decide (t2 = main_thread) then
              note_drop t ;;
              set_stack t [] ;;
              let! st := gets (fun w => status_of w t) in
              match st with
              | LUA_YIELD => set_stack t args ;; set_thread_ready t ;; ret (CRet [])
              | _ => raise (VStr "Thread is not yielding, cannot unpause.")
              end
            else undef
        | _ => throw_in t (VStr "thread expected")
        end
  | _ => raise (VStr "thread expected")
  end.

(** Killing the running thread clears the frame the function itself works on. *)
Definition kill_thread (self t : nat) : M unit :=
  if decide (t = self) then undef
  else
    let! st := gets (fun w => status_of w t) in
    match st with
    | LUA_YIELD => end_all_waiting_thread_events t
    | _ => ret tt
    end ;;
    end_thread_persist t.

Definition ratchet_kill (resumed : bool) (self : nat) (L : list value) : M cres :=
  with_get resumed L (fun L =>
    check_ratchet L ;;
    match L !! 1%nat with
    | Some (VThread t) => kill_thread self t ;; ret (CRet [])
    | _ => undef
    end).

Fixpoint kill_each (self : nat) (items : list value) : M unit :=
  match items with
  | [] => ret tt
  | VThread t :: items' => kill_thread self t ;; kill_each self items'
  | _ => undef
  end.

Definition ratchet_kill_all (resumed : bool) (self : nat) (L : list value) : M cres :=
  with_get resumed L (fun L =>
    check_ratchet L ;;
    let L := Stk.settop VNil L 2 in
    if istable (L !! 1%nat) then
      let! items := gets (fun w => match L !! 1%nat with Some v => array_of w v | None => [] end) in
      kill_each self items ;;
      ret (CRet [])
    else undef).

Definition ratchet_alarm (resumed : bool) (self : nat) (L : list value) : M cres :=
  with_get resumed L (fun L =>
    let L := Stk.settop VNil L 3 in
    if decide (self = main_thread)
    then raise (VStr "ratchet.thread.alarm() cannot be called from main thread.")
    else
      check_ratchet L ;;
      let! c := lift (gettimeval_arg (L !! 1%nat)) in
      let! old := gets (fun w => alarm_events w !! self) in
      match old with Some ev => event_del ev | None => ret tt end ;;
      let! ev := fresh in
      let! tv := tv_arg c in
      event_add ev (Event EvTimer alarm_triggered_cb self (Some tv)) ;;
      modify (fun w => set_alarm_events w (<[self := ev]> (alarm_events w))) ;;
      modify (fun w => set_alarm_callbacks w
        (match L !! 2%nat with
         | Some VNil | None => delete self (alarm_callbacks w)
         | Some cb => <[self := cb]> (alarm_callbacks w)
         end)) ;;
      ret (CRet [])).

Definition call (f : tfn) (resumed : bool) (self : nat) (L : list value) : M cres :=
  match f with
  | F_attach => ratchet_attach resumed self L
  | F_block_on => ratchet_block_on self L
  | F_sigwait => ratchet_sigwait self L
  | F_wait_all => ratchet_wait_all resumed self L
  | F_space => ratchet_thread_space resumed self L
  | F_self => ratchet_running_thread self L
  | F_timer => ratchet_timer self L
  | F_pause => ratchet_pause self L
  | F_unpause => ratchet_unpause self L
  | F_kill => ratchet_kill resumed self L
  | F_kill_all => ratchet_kill_all resumed self L
  | F_alarm => ratchet_alarm resumed self L
  end.

(** ** Running a thread (ratchet.c, lines 610-720)

    [lua_resume]: the coroutine runs until it returns, raises or yields. The
    result is its new status; returned, yielded or error values are on its
    stack. *)
Definition finish (t : nat) (st : lstatus) (s : list value) (k : cont) : M lstatus :=
  set_cor t (Cor st s k) ;; ret st.

(** The outcome of a C function inside the coroutine [t]. *)
Definition try {A} (m : M A) : M (value + A) := fun w =>
  match m w with
  | (w', Ok a) => (w', Ok (inr a))
  | (w', Raise e) => (w', Ok (inl e))
  | (w', Abort_ e) => (w', Abort_ e)
  | (w', Undef) => (w', Undef)
  | (w', Fuel) => (w', Fuel)
  end.

Definition c_call (t : nat) (f : tfn) (resumed : bool) (L : list value)
    (k : value + list value -> body) (exec : body -> M lstatus) : M lstatus :=
  let! r := try (call f resumed t L) in
  match r with
  | inl e => exec (k (inl e))
  | inr (CRet vs) => exec (k (inr vs))
  | inr (CYield vs) => finish t LUA_YIELD vs (KLua (fun vs => k (inr vs)))
  | inr (CYieldK vs frame) => finish t LUA_YIELD vs (KFrame f frame k)
  end.

Fixpoint exec (t : nat) (b : body) : M lstatus :=
  match b with
  | BRet vs => finish t LUA_OK vs KCall
  | BErr e => finish t LUA_ERR [e] KCall
  | BYield vs k => finish t LUA_YIELD vs (KLua k)
  | BTab vs k => let! l := new_table (TArr vs) in exec t (k (VTab l))
  | BCall f args k => c_call t f false args k (exec t)
  end.

(** While it runs, a coroutine's status is LUA_OK. *)
Definition running (t : nat) : M unit := set_cor t (Cor LUA_OK [] KCall).

(** Resume [t] with everything on its stack as arguments: a new coroutine needs
    its function there too, so that an empty stack makes the argument count -1. *)
Definition lua_resume (t : nat) : M lstatus :=
  note_drop t ;;
  let! w := get in
  match cors w !! t with
  | None => undef
  | Some (Cor LUA_OK s _) =>
      match s with
      | [] => undef
      | VFun f :: args => running t ;; exec t (prog f args)
      | _ :: _ => finish t LUA_ERR [VStr "attempt to call a non-function value"] KCall
      end
  | Some (Cor LUA_YIELD s (KLua k)) => running t ;; exec t (k s)
  | Some (Cor LUA_YIELD s (KFrame f frame k)) => running t ;; c_call t f true (frame ++ s) k (exec t)
  | Some (Cor LUA_YIELD s KCall) => undef
  | Some (Cor LUA_ERR s _) => finish t LUA_ERR [VStr "cannot resume dead coroutine"] KCall
  end.

Fixpoint run_thread (n : nat) (t : nat) : M unit :=
  match n with
  | O => fun w => (w, Fuel)
  | S n' =>
      let! st := lua_resume t in
      match st with
      | LUA_OK => end_thread_persist t
      | LUA_YIELD =>
          let! s := gets (fun w => stack_of w t) in
          match s with
          | VLight y :: _ =>
              if (y =? YIELD_GET)%Z then set_stack t [ratchet_object] ;; run_thread n' t
              else yield_thread t
          | _ => yield_thread t
          end
      | LUA_ERR =>
          let! s := gets (fun w => stack_of w t) in
          let e := default VNil (last s) in
          set_stack t (Stk.pop s 1) ;;
          end_all_waiting_thread_events t ;;
          end_thread_persist t ;;
          handle_thread_error e t
      end
  end.

Definition alarm_error : value :=
  error_str (Some "ratchet.thread.alarm()"%string) "ALARM" "Thread alarm!".

Definition alarm_thread (t : nat) : M unit :=
  let! st := gets (fun w => status_of w t) in
  match st with LUA_YIELD => end_all_waiting_thread_events t | _ => ret tt end ;;
  set_stack t [] ;;
  let! cb := gets (fun w => alarm_callbacks w !! t) in
  let e := match cb with
           | Some f => match run_callback f with Some e => e | None => alarm_error end
           | None => alarm_error
           end in
  end_thread_persist t ;;
  handle_thread_error e t.

(** ** Event callbacks (ratchet.c, lines 241-357) *)

(** Index 1 of the stack must be a thread, and is taken for the one that runs the
    loop. *)
Definition check_waiting (t : nat) : M unit :=
  let! s := gets (fun w => stack_of w t) in
  match s !! 0%nat with
  | Some (VThread t2) => if decide (t2 = main_thread) then ret tt else undef
  | _ => throw_in t (VStr "ratchet internal error.")
  end.

Definition event_triggered (n t : nat) (timeout : bool) : M unit :=
  check_waiting t ;;
  set_stack t [VBool (negb timeout)] ;;
  run_thread n t.

Definition signal_triggered (n t : nat) (timeout : bool) : M unit :=
  check_waiting t ;;
  end_all_waiting_thread_events t ;;
  set_stack t [VBool (negb timeout)] ;;
  run_thread n t.

Definition timeout_triggered (n t : nat) : M unit :=
  check_waiting t ;;
  set_stack t [] ;;
  run_thread n t.

Definition alarm_triggered (t : nat) : M unit :=
  check_waiting t ;;
  alarm_thread t.

Definition multi_event_triggered (n t : nat) (fd : Z) (timeout : bool) : M unit :=
  check_waiting t ;;
  end_all_waiting_thread_events t ;;
  (if timeout then set_stack t [VBool false]
   else
     let! w := get in
     match stack_of w t !! 2%nat with
     | Some (VTab lm) =>
         match tabs w !! lm with
         | Some (TFdMap m) => set_stack t [default VNil (m !! fd)]
         | _ => undef
         end
     | _ => undef
     end) ;;
  run_thread n t.

Definition event_fd (e : event) : Z :=
  match ev_kind e with EvRead fd | EvWrite fd => fd | EvSignal s => s | EvTimer => -1 end.

(** libevent removes a non-persistent event and calls its callback; [timeout]
    is the EV_TIMEOUT bit of the flags it passes. *)
Definition fire (n : nat) (ev : nat) (timeout : bool) : M unit :=
  let! o := gets (fun w => events w !! ev) in
  match o with
  | None => ret tt
  | Some e =>
      event_del ev ;;
      match ev_cb e with
      | event_triggered_cb => event_triggered n (ev_arg e) timeout
      | signal_triggered_cb => signal_triggered n (ev_arg e) timeout
      | timeout_triggered_cb => timeout_triggered n (ev_arg e)
      | alarm_triggered_cb => alarm_triggered (ev_arg e)
      | multi_event_triggered_cb => multi_event_triggered n (ev_arg e) (event_fd e) timeout
      end
  end.

(** [event_base_loop]: [Some fires] are the events that become active, in
    order; one deleted by an earlier callback does not fire. [None] is an
    internal error of libevent. *)
Fixpoint fire_all (n : nat) (fires : list (nat * bool)) : M unit :=
  match fires with
  | [] => ret tt
  | (ev, timeout) :: fires' => fire n ev timeout ;; fire_all n fires'
  end.

Definition event_base_loop (n : nat) (fires : option (list (nat * bool))) : M Z :=
  let! w := get in
  if decide (events w = ∅) then ret 1%Z
  else match fires with
       | None => ret (-1)%Z
       | Some fs => fire_all n fs ;; ret 0%Z
       end.

(** ** The loop (ratchet.c, lines 437-608) *)

Definition ratchet_get_num_threads : M Z := gets (fun w => Z.of_nat (size (threads w))).

Fixpoint start_threads_ready (n : nat) (some_ready : bool) : M bool :=
  match n with
  | O => fun w => (w, Fuel)
  | S n' =>
      let! r := gets ready in
      match next_order r with
      | [] => ret some_ready
      | t :: _ =>
          modify (fun w => set_ready w (ready w ∖ {[t]})) ;;
          run_thread n t ;;
          start_threads_ready n' true
      end
  end.

(** The traversal of [waiting_on]: the entries present when it starts, each
    looked up when it is reached. *)
Fixpoint done_waiting_each (n : nat) (keys : list nat) (some_ready : bool) : M bool :=
  match keys with
  | [] => ret some_ready
  | t :: keys' =>
      let! o := gets (fun w => waiting_on w !! t) in
      match o with
      | Some s =>
          if decide (s = ∅) then
            modify (fun w => set_waiting w (delete t (waiting_on w))) ;;
            run_thread n t ;;
            done_waiting_each n keys' true
          else done_waiting_each n keys' some_ready
      | None => done_waiting_each n keys' some_ready
      end
  end.

Definition start_threads_done_waiting (n : nat) : M bool :=
  let! w := gets waiting_on in
  done_waiting_each n (next_order (dom w)) false.

Definition deadlock_error : value :=
  error_str (Some "ratchet.loop_once()"%string) "DEADLOCK" "Non-IO deadlock detected.".

Definition ratchet_loop_once (n : nat) (fires : option (list (nat * bool))) : M bool :=
  let! b := start_threads_ready n false in
  if b then ret true
  else
    let! b := start_threads_done_waiting n in
    if b then ret true
    else
      let! ts := gets threads in
      if decide (ts = ∅) then ret false
      else
        let! r := event_base_loop n fires in
        if (r <? 0)%Z then raise (VStr "libevent internal error.")
        else if (0 <? r)%Z then raise deadlock_error
        else ret true.

(** [ratchet_loop]: [fires i] is what libevent reports in iteration [i]. *)
Fixpoint ratchet_loop (n fuel : nat) (fires : nat -> option (list (nat * bool))) (i : nat) : M unit :=
  match fuel with
  | O => fun w => (w, Fuel)
  | S fuel' =>
      let! b := gets break_flag in
      if b then modify (fun w => set_break w false)
      else
        let! b := ratchet_loop_once n (fires i) in
        if b then ratchet_loop n fuel' fires (S i) else ret tt
  end.

Definition ratchet_break : M unit := modify (fun w => set_break w true).

(** [setup_persistance_tables] and [ratchet_new]: an entry thread for the
    function given, ready to run. *)
Definition setup_persistance_tables (handler : value) : world :=
  World ∅ ∅ ∅ ∅ ∅ ∅ false handler ∅ ∅ ∅ 1 [] ∅.

Definition ratchet_new (f handler : value) : world :=
  fst ((let! t := fresh in
        set_cor t (Cor LUA_OK [f] KCall) ;;
        set_thread_persist t ;;
        set_thread_ready t) (setup_persistance_tables handler)).

End Sched.
