(* ===== verification/SchedInv.v ===== *)
(** Invariant of the scheduler of ratchet.c and its preservation.

    The invariant says that libevent and the coroutines agree: an event that is
    pending (other than an alarm) belongs to a coroutine that is suspended in
    the scheduler, with the main thread at index 1 of its stack and the event
    recorded in the cleanup table at index 2, in the shape the callback of the
    event relies on; and a pending alarm is the one recorded for its thread.
    Threads that lost their cleanup table while an event of it was pending
    ([loose]) are excepted from the first part. It is proved of every operation, from the thread functions up to the loop,
    by a small program logic for the monad of [Sched.v]. *)

From stdpp Require Import prelude gmap strings.
From Stdlib Require Import ZArith Lia SpecFloat.
From S2P Require Import Prelude Double Lua Misc Sched.

(** ** The invariant *)

(** How the stack and the tables of the owner record the event [ev]. *)
Definition recorded (w : world) (ev : nat) (e : event) (l : nat) (rest : list value) : Prop :=
  match ev_cb e with
  | event_triggered_cb | timeout_triggered_cb => tabs w !! l = Some (TCleanup (Some ev) None)
  | signal_triggered_cb =>
      exists l' evs, tabs w !! l = Some (TCleanup None (Some l')) /\
        tabs w !! l' = Some (TEvList evs) /\ ev ∈ evs
  | multi_event_triggered_cb =>
      exists to l' evs lm m, tabs w !! l = Some (TCleanup (Some to) (Some l')) /\
        tabs w !! l' = Some (TEvList evs) /\ rest = [VTab lm] /\
        tabs w !! lm = Some (TFdMap m) /\
        (ev = to /\ ev_kind e = EvTimer \/ ev ∈ evs /\ is_Some (m !! event_fd e))
  | alarm_triggered_cb => False
  end.

Definition suspended_on (w : world) (ev : nat) (e : event) : Prop :=
  exists l rest k,
    cors w !! ev_arg e = Some (Cor LUA_YIELD (VThread main_thread :: VTab l :: rest) k) /\
    recorded w ev e l rest.

Definition waits (w : world) : Prop :=
  forall ev e, events w !! ev = Some e -> ev_cb e <> alarm_triggered_cb -> ev_arg e ∉ loose w -> suspended_on w ev e.

Definition alarms (w : world) : Prop :=
  forall ev e, events w !! ev = Some e -> ev_cb e = alarm_triggered_cb ->
    alarm_events w !! ev_arg e = Some ev.

(** Every identifier in use was handed out. *)
Record bounded (w : world) : Prop := {
  bd_cors : forall t c, cors w !! t = Some c -> t < next_id w;
  bd_tabs : forall l x, tabs w !! l = Some x -> l < next_id w;
  bd_events : forall ev e, events w !! ev = Some e -> ev < next_id w;
  bd_alarms : forall t ev, alarm_events w !! t = Some ev -> ev < next_id w;
}.

Record inv (w : world) : Prop := {
  inv_bounded : bounded w;
  inv_waits : waits w;
  inv_alarms : alarms w;
}.

(** No event other than an alarm is pending for [t], unless [t] is loose: it may run. *)
Definition quiet (w : world) (t : nat) : Prop :=
  forall ev e, events w !! ev = Some e -> ev_cb e <> alarm_triggered_cb -> ev_arg e = t -> t ∈ loose w.

(** ** Postconditions

    [post m w Q]: if [m] returns normally from [w], then [Q] holds of its result
    and of the world it leaves; if it ends in an error, the invariant holds. *)
Definition post {A} (m : M A) (w : world) (Q : A -> world -> Prop) : Prop :=
  match m w with (w', Ok a) => Q a w' | (w', Raise _) | (w', Abort_ _) => inv w' | _ => True end.

Section Post.
Context {A B : Type}.
Implicit Types (m : M A) (Q : A -> world -> Prop).

Lemma post_mono m w Q Q' :
  post m w Q -> (forall a w', Q a w' -> Q' a w') -> post m w Q'.
Proof. unfold post. destruct (m w) as [? []]; auto. Qed.

Lemma post_bind m (f : A -> M B) w (Q : B -> world -> Prop) :
  post m w (fun a w' => post (f a) w' Q) -> post (bind m f) w Q.
Proof. unfold post, bind. destruct (m w) as [? []]; auto. Qed.

Lemma post_ret (a : A) w Q : Q a w -> post (ret a) w Q.
Proof. auto. Qed.

Lemma post_gets (f : world -> A) w Q : Q (f w) w -> post (gets f) w Q.
Proof. auto. Qed.

Lemma post_raise e w Q : inv w -> post (raise e) w Q.
Proof. auto. Qed.

Lemma post_undef w Q : post undef w Q.
Proof. exact I. Qed.

Lemma post_lift (r : value + A) w Q : inv w -> (forall a, r = inr a -> Q a w) -> post (lift r) w Q.
Proof. destruct r; cbn; unfold post; auto. Qed.

Lemma post_try m w (Q : value + A -> world -> Prop) :
  (forall w' e, m w = (w', Raise e) -> Q (inl e) w') -> (forall w' e, m w = (w', Abort_ e) -> inv w') ->
  match m w with (w', Ok a) => Q (inr a) w' | _ => True end -> post (try m) w Q.
Proof. unfold post, try. destruct (m w) as [? []]; eauto. Qed.
End Post.

Lemma post_get w (Q : world -> world -> Prop) : Q w w -> post get w Q.
Proof. auto. Qed.

Lemma post_modify f w (Q : unit -> world -> Prop) : Q tt (f w) -> post (modify f) w Q.
Proof. auto. Qed.

Lemma post_fresh w (Q : nat -> world -> Prop) :
  Q (next_id w) (set_next w (S (next_id w))) -> post fresh w Q.
Proof. auto. Qed.

Create HintDb sched.
#[export] Hint Resolve post_raise post_undef : sched.

(** One step of symbolic execution of a [post] goal. *)
Ltac mstep :=
  lazymatch goal with
  | |- post (bind _ _) _ _ => apply post_bind
  | |- post (ret _) _ _ => apply post_ret
  | |- post (gets _) _ _ => apply post_gets
  | |- post get _ _ => apply post_get
  | |- post (modify _) _ _ => apply post_modify
  | |- post fresh _ _ => apply post_fresh
  | |- post (raise _) _ _ => apply post_raise
  | |- post undef _ _ => exact I
  | |- post (match ?x with _ => _ end) _ _ => let E := fresh "E" in destruct x eqn:E
  | |- post (let _ := _ in _) _ _ => cbv zeta
  end.
Ltac msteps := repeat (mstep; cbn beta).

(** ** Primitive updates *)

Lemma alter_ne_stack (t t' : nat) f (cs : gmap nat cor) :
  t ≠ t' -> alter f t cs !! t' = cs !! t'.
Proof. intros. by rewrite lookup_alter_ne. Qed.

Lemma recorded_tabs w w' ev e l rest :
  (forall i x, tabs w !! i = Some x -> tabs w' !! i = Some x) ->
  recorded w ev e l rest -> recorded w' ev e l rest.
Proof.
  intros Ht. unfold recorded. destruct (ev_cb e); auto.
  - intros (l' & evs & ? & ? & ?). exists l', evs. eauto.
  - intros (to & l' & evs & lm & m & ? & ? & ? & ? & ?). exists to, l', evs, lm, m. eauto 8.
Qed.

(** The invariant only looks at coroutines, tables, events and alarms; it is
    kept when tables are only added, events only removed, and the coroutines
    that own an event are left alone. *)
Lemma waits_frame w w' :
  waits w ->
  (forall ev e, events w' !! ev = Some e -> events w !! ev = Some e) ->
  (forall i x, tabs w !! i = Some x -> tabs w' !! i = Some x) ->
  loose w ⊆ loose w' ->
  (forall ev e, events w' !! ev = Some e -> ev_cb e <> alarm_triggered_cb -> ev_arg e ∉ loose w' ->
     cors w' !! ev_arg e = cors w !! ev_arg e) ->
  waits w'.
Proof.
  intros Hw He Ht Hl Hc ev e Hev Hcb Hn.
  destruct (Hw ev e (He _ _ Hev) Hcb ltac:(set_solver)) as (l & rest & k & H1 & H2).
  exists l, rest, k. rewrite (Hc _ _ Hev Hcb Hn). eauto using recorded_tabs.
Qed.

Lemma inv_event_del w ev : inv w -> inv (set_events w (delete ev (events w))).
Proof.
  intros [Hb Hw Ha]. split.
  - destruct Hb. split; cbn; eauto.
    intros ev' e [_ ?]%lookup_delete_Some. eauto.
  - apply (waits_frame w); cbn; auto.
    intros ev' e [_ ?]%lookup_delete_Some. done.
  - intros ev' e Hev. cbn in *. apply lookup_delete_Some in Hev as [_ ?]. eauto.
Qed.

Lemma quiet_sub w w' t :
  quiet w t -> (forall ev e, events w' !! ev = Some e -> events w !! ev = Some e) -> loose w ⊆ loose w' -> quiet w' t.
Proof. intros Hq Hs Hl ev e Hev Hcb Harg. apply Hl. eapply Hq; eauto. Qed.

Lemma quiet_event_del w ev t : quiet w t -> quiet (set_events w (delete ev (events w))) t.
Proof.
  intros Hq. eapply quiet_sub; [exact Hq| |done]. cbn. by intros ? ? [_ ?]%lookup_delete_Some.
Qed.

Lemma inv_fresh w : inv w -> inv (set_next w (S (next_id w))).
Proof.
  intros [[] Hw Ha]. split; [|exact Hw|exact Ha].
  split; cbn; intros; apply Nat.lt_lt_succ_r; eauto.
Qed.

Lemma inv_new_table w x :
  inv w -> inv (set_tabs (set_next w (S (next_id w))) (<[next_id w := x]> (tabs w))).
Proof.
  intros Hi. destruct (inv_fresh w Hi) as [[] Hw Ha]. destruct Hi as [Hb _ _]. split; [| |exact Ha].
  - split; cbn; eauto. intros l y [[<- _]|[_ ?]]%lookup_insert_Some; [lia|eauto].
  - apply (waits_frame (set_next w (S (next_id w)))); cbn; auto.
    intros i y Hi. rewrite lookup_insert_ne; [done|].
    intros <-. pose proof (bd_tabs _ Hb _ _ Hi). lia.
Qed.

Lemma inv_set_cor w t c :
  inv w -> quiet w t -> t < next_id w -> inv (set_cors w (<[t := c]> (cors w))).
Proof.
  intros [[] Hw Ha] Hq Ht. split; [| |exact Ha].
  - split; cbn; eauto. intros t' c' [[<- _]|[_ ?]]%lookup_insert_Some; eauto.
  - apply (waits_frame w); cbn; auto. intros ev e Hev Hcb Hl.
    apply lookup_insert_ne. intros Heq. apply Hl. rewrite <- Heq. by eapply Hq.
Qed.

Lemma inv_alter_cor w t f :
  inv w -> quiet w t -> inv (set_cors w (alter f t (cors w))).
Proof.
  intros Hi Hq. destruct (cors w !! t) as [c|] eqn:E.
  - assert (alter f t (cors w) = <[t := f c]> (cors w)) as ->.
    { apply map_eq. intros i. destruct (decide (t = i)) as [<-|].
      - by rewrite lookup_alter_eq, E, lookup_insert_eq.
      - by rewrite lookup_alter_ne, lookup_insert_ne. }
    apply inv_set_cor; auto. eapply bd_cors; [apply Hi|exact E].
  - assert (alter f t (cors w) = cors w) as ->.
    { apply map_eq. intros i. destruct (decide (t = i)) as [<-|].
      - rewrite lookup_alter_eq, E. done.
      - by rewrite lookup_alter_ne. }
    destruct w; exact Hi.
Qed.

(** ** Deleting the events of a thread *)

Lemma event_del_all_spec evs : forall w,
  event_del_all evs w =
    (set_events w (foldr delete (events w) (reverse evs)), Ok tt).
Proof.
  induction evs as [|ev evs IH]; intros w; cbn [event_del_all].
  - unfold ret. destruct w; reflexivity.
  - unfold bind, event_del, modify. rewrite IH, reverse_cons, foldr_app.
    destruct w; reflexivity.
Qed.

Lemma lookup_foldr_delete (evs : list nat) (m : gmap nat event) ev :
  foldr delete m evs !! ev = if decide (ev ∈ evs) then None else m !! ev.
Proof.
  induction evs as [|x evs IH]; cbn; [done|].
  rewrite lookup_delete, IH. repeat case_decide; try done; set_solver.
Qed.

(** After [end_all_waiting_thread_events] exactly the events of the cleanup
    table are gone. *)
Definition drop_events (w : world) (evs : list nat) : world :=
  set_events w (foldr delete (events w) evs).

Lemma end_all_spec w t :
  exists evs, end_all_waiting_thread_events t w = (drop_events w evs, Ok tt) /\
    forall ev, ev ∈ evs <-> ev ∈ cleanup_event w t ++ cleanup_event_list w t.
Proof.
  exists (reverse (cleanup_event_list w t) ++ reverse (cleanup_event w t)). split.
  - unfold end_all_waiting_thread_events, bind, gets. rewrite event_del_all_spec.
    change (cleanup_event_list (set_events w _) t) with (cleanup_event_list w t).
    rewrite event_del_all_spec. unfold drop_events. rewrite foldr_app. destruct w; reflexivity.
  - intros ev. rewrite !elem_of_app, !elem_of_reverse. tauto.
Qed.

Lemma drop_events_sub w evs ev e :
  events (drop_events w evs) !! ev = Some e -> events w !! ev = Some e /\ ev ∉ evs.
Proof. cbn. rewrite lookup_foldr_delete. case_decide; naive_solver. Qed.

Lemma inv_drop_events w evs : inv w -> inv (drop_events w evs).
Proof.
  intros Hi. unfold drop_events. induction evs as [|ev evs IH]; [destruct w; exact Hi|].
  apply (inv_event_del _ ev) in IH. exact IH.
Qed.

(** By the invariant the cleanup table lists every event of the thread, so the
    thread is quiet afterwards. *)
Lemma recorded_cleanup w ev e :
  suspended_on w ev e ->
  ev ∈ cleanup_event w (ev_arg e) ++ cleanup_event_list w (ev_arg e).
Proof.
  intros (l & rest & k & Hc & Hr). unfold cleanup_event, cleanup_event_list, stack_of.
  rewrite Hc. cbn [c_stack lookup list_lookup]. unfold recorded in Hr.
  destruct (ev_cb e); [| | |done|].
  - rewrite Hr. set_solver.
  - destruct Hr as (l' & evs & -> & -> & ?). set_solver.
  - rewrite Hr. set_solver.
  - destruct Hr as (to & l' & evs & lm & m & -> & -> & _ & _ & Hor). set_solver.
Qed.

Lemma end_all_quiet w t Q :
  inv w ->
  (forall w', inv w' -> quiet w' t -> cors w' = cors w -> tabs w' = tabs w ->
     next_id w' = next_id w -> loose w' = loose w ->
     (forall ev e, events w' !! ev = Some e -> events w !! ev = Some e) -> Q tt w') ->
  post (end_all_waiting_thread_events t) w Q.
Proof.
  intros Hi HQ. unfold post. destruct (end_all_spec w t) as (evs & -> & Hevs).
  apply HQ; try done.
  - by apply inv_drop_events.
  - intros ev e Hev Hcb Heq. apply drop_events_sub in Hev as [Hev Hn].
    destruct (decide (t ∈ loose w)) as [|Hl]; [done|]. destruct Hn. apply Hevs.
    rewrite <- Heq. apply recorded_cleanup. apply (inv_waits _ Hi); [done..|by rewrite Heq].
  - intros ev e Hev. apply (drop_events_sub w evs), Hev.
Qed.

(** ** Operations that keep a property whether they return or raise *)

Definition keeps {A} (P : world -> Prop) (m : M A) : Prop := forall w, P w ->
  match m w with (w', Ok _) | (w', Raise _) | (w', Abort_ _) => P w' | _ => True end.

Section Keeps.
Context {A B : Type} (P : world -> Prop).

Lemma keeps_bind (m : M A) (f : A -> M B) :
  keeps P m -> (forall a, keeps P (f a)) -> keeps P (bind m f).
Proof.
  intros Hm Hf w Hw. specialize (Hm w Hw). unfold bind.
  destruct (m w) as [w' []]; try done. by apply Hf.
Qed.

Lemma keeps_ret (a : A) : keeps P (ret a).
Proof. intros w; auto. Qed.

Lemma keeps_gets (f : world -> A) : keeps P (gets f).
Proof. intros w; auto. Qed.

Lemma keeps_raise e : keeps P (raise (A := A) e).
Proof. intros w; auto. Qed.

Lemma keeps_undef : keeps P (undef (A := A)).
Proof. intros w; cbn; auto. Qed.

Lemma keeps_lift (r : value + A) : keeps P (lift r).
Proof. destruct r; intros w; cbn; auto. Qed.

Lemma keeps_post (m : M A) w : (forall w, P w -> inv w) -> keeps P m -> P w -> post m w (fun _ => P).
Proof. intros HP Hm Hw. specialize (Hm w Hw). unfold post. destruct (m w) as [? []]; auto. Qed.
End Keeps.

Lemma keeps_modify (P : world -> Prop) f : (forall w, P w -> P (f w)) -> keeps P (modify f).
Proof. intros Hf w Hw. cbn. auto. Qed.

#[export] Hint Resolve keeps_ret keeps_gets keeps_raise keeps_undef keeps_lift : sched.

(** [self] may run: the invariant holds and nothing is pending for it. *)
Record can_run (self : nat) (w : world) : Prop := {
  cr_inv : inv w;
  cr_quiet : quiet w self;
  cr_old : self < next_id w;
}.

Ltac keep :=
  repeat first
    [ solve [eauto with sched]
    | progress cbv zeta
    | apply keeps_bind; [|intros ?]
    | match goal with |- keeps _ (match ?x with _ => _ end) => destruct x eqn:? end ].

Section CanRun.
Context (self : nat).

Lemma keeps_event_del ev : keeps (can_run self) (event_del ev).
Proof.
  apply keeps_modify. intros w [Hi Hq Ho]. split; [by apply inv_event_del| |exact Ho].
  by apply quiet_event_del.
Qed.

Lemma keeps_fresh : keeps (can_run self) fresh.
Proof.
  intros w [Hi Hq Ho]. cbn. split; [by apply inv_fresh|exact Hq|cbn; lia].
Qed.

Lemma keeps_new_table x : keeps (can_run self) (new_table x).
Proof.
  intros w [Hi Hq Ho]. cbn. split; [by apply inv_new_table|exact Hq|cbn; lia].
Qed.

(** The tables of the ratchet object that the invariant does not mention. *)
Lemma keeps_persist t : keeps (can_run self) (set_thread_persist t).
Proof. apply keeps_modify. intros w [[[] ? ?] ? ?]. repeat split; auto. Qed.
Lemma keeps_ready t : keeps (can_run self) (set_thread_ready t).
Proof. apply keeps_modify. intros w [[[] ? ?] ? ?]. repeat split; auto. Qed.
Lemma keeps_waiting f : keeps (can_run self) (modify (fun w => set_waiting w (f w))).
Proof. apply keeps_modify. intros w [[[] ? ?] ? ?]. repeat split; auto. Qed.
Lemma keeps_threads f : keeps (can_run self) (modify (fun w => set_threads w (f w))).
Proof. apply keeps_modify. intros w [[[] ? ?] ? ?]. repeat split; auto. Qed.
Lemma keeps_space f : keeps (can_run self) (modify (fun w => set_thread_space w (f w))).
Proof. apply keeps_modify. intros w [[[] ? ?] ? ?]. repeat split; auto. Qed.
Lemma keeps_alarm_cb f : keeps (can_run self) (modify (fun w => set_alarm_callbacks w (f w))).
Proof. apply keeps_modify. intros w [[[] ? ?] ? ?]. repeat split; auto. Qed.
Lemma keeps_handled f : keeps (can_run self) (modify (fun w => set_handled w (f w))).
Proof. apply keeps_modify. intros w [[[] ? ?] ? ?]. repeat split; auto. Qed.
End CanRun.

#[export] Hint Resolve keeps_event_del keeps_fresh keeps_new_table keeps_persist keeps_ready
  keeps_waiting keeps_threads keeps_space keeps_alarm_cb keeps_handled : sched.

(** A thread that is not suspended, or whose cleanup table lists nothing
    pending, is quiet. *)
Lemma quiet_not_yield w t : inv w -> status_of w t <> LUA_YIELD -> quiet w t.
Proof.
  intros Hi Hs ev e Hev Hcb <-. destruct (decide (ev_arg e ∈ loose w)) as [|Hl]; [done|].
  destruct (inv_waits _ Hi ev e Hev Hcb Hl) as (l & rest & k & Hc & _).
  destruct Hs. unfold status_of. by rewrite Hc.
Qed.

Lemma quiet_not_busy w t : inv w -> busy w t = false -> quiet w t.
Proof.
  intros Hi Hb ev e Hev Hcb <-. destruct (decide (ev_arg e ∈ loose w)) as [|Hl]; [done|]. exfalso.
  pose proof (recorded_cleanup w ev e (inv_waits _ Hi ev e Hev Hcb Hl)) as Hin.
  unfold busy in Hb. apply not_true_iff_false in Hb. apply Hb.
  apply existsb_exists. exists ev. split; [by apply list_elem_of_In|].
  apply bool_decide_eq_true. eauto.
Qed.

(** A suspended thread that waits has the main thread at the bottom of its stack. *)
Lemma quiet_no_main w t : inv w -> stack_of w t !! 0 <> Some (VThread main_thread) -> quiet w t.
Proof.
  intros Hi Hs ev e Hev Hcb <-. destruct (decide (ev_arg e ∈ loose w)) as [|Hl]; [done|].
  destruct (inv_waits _ Hi ev e Hev Hcb Hl) as (l & rest & k & Hc & _).
  destruct Hs. unfold stack_of. by rewrite Hc.
Qed.

(** More threads are loose. *)
Lemma inv_loosen w t : inv w -> inv (set_loose w ({[t]} ∪ loose w)).
Proof.
  intros [[] Hw Ha]. split; [split; auto| |exact Ha]. apply (waits_frame w); cbn; auto. set_solver.
Qed.
Lemma note_drop_keeps self t : keeps (can_run self) (note_drop t).
Proof.
  intros w [Hi Hq Ho]. unfold note_drop, bind, gets, loosen. destruct (busy w t); cbn; [|done].
  split; [by apply inv_loosen| |exact Ho]. eapply quiet_sub; [exact Hq|done|cbn; set_solver].
Qed.
(** Afterwards the thread may lose its stack. *)
Lemma note_drop_spec w t : inv w -> exists w', note_drop t w = (w', Ok tt) /\ inv w' /\ quiet w' t /\
  cors w' = cors w /\ next_id w' = next_id w /\ loose w ⊆ loose w' /\ events w' = events w.
Proof.
  intros Hi. unfold note_drop, bind, gets, loosen. destruct (busy w t) eqn:Eb; cbn; eexists; (split; [reflexivity|]); cbn.
  - split; [by apply inv_loosen|]. split; [|set_solver]. intros ev e _ _ _. cbn. set_solver.
  - split; [done|]. split; [by apply quiet_not_busy|done].
Qed.

Lemma can_run_set_stack self t s w :
  can_run self w -> quiet w t ->
  can_run self (set_cors w (alter (fun c => Cor (c_status c) s (c_cont c)) t (cors w))).
Proof.
  intros [Hi Hq Ho] Ht. split; [by apply inv_alter_cor|exact Hq|exact Ho].
Qed.

(** [end_thread_persist] for a quiet thread. *)
Lemma end_thread_persist_keeps self t w :
  can_run self w -> quiet w t ->
  match end_thread_persist t w with (w', Ok _) | (w', Raise _) | (w', Abort_ _) => can_run self w' | _ => True end.
Proof.
  intros Hc Ht.
  assert (keeps (can_run self)
    (modify (fun w => set_threads w (threads w ∖ {[t]})) ;;
     let! ae := gets (fun w => alarm_events w !! t) in
     match ae with Some ev => event_del ev | None => ret tt end ;;
     modify (fun w => set_waiting w ((fun s => s ∖ {[t]}) <$> waiting_on w)))) as Hk
    by keep.
  apply (Hk _ (can_run_set_stack self t [] w Hc Ht)).
Qed.

(** ** The thread functions *)
Section Calls.
Context `{LuaConv, Objects, NextOrder}.
Context (self : nat).

Lemma kill_thread_keeps t : keeps (can_run self) (kill_thread self t).
Proof.
  intros w Hc. unfold kill_thread. case_decide; [done|].
  unfold bind at 1, gets. destruct (status_of w t) eqn:Es.
  - apply end_thread_persist_keeps; [done|].
    apply quiet_not_yield; [apply Hc|congruence].
  - destruct Hc as [Hi Hq Ho].
    pose proof (end_all_quiet w t (fun _ w' => can_run self w' /\ quiet w' t) Hi) as Hp.
    unfold bind, post in *. destruct (end_all_spec w t) as (evs & Hend & _).
    rewrite Hend in *. destruct Hp as [Hc' Hq'].
    + intros w' ? ? ? ? Hn Hl Hs. split; [|done]. split; [done| |lia].
      eapply quiet_sub; [exact Hq|exact Hs|by rewrite Hl].
    + by apply end_thread_persist_keeps.
  - apply end_thread_persist_keeps; [done|].
    apply quiet_not_yield; [apply Hc|congruence].
Qed.
Hint Resolve kill_thread_keeps : sched.

Lemma kill_each_keeps items : keeps (can_run self) (kill_each self items).
Proof. induction items as [|[] items IH]; cbn [kill_each]; keep. Qed.
Hint Resolve kill_each_keeps : sched.

Lemma throw_keeps {A} t e w : can_run self w -> quiet w t ->
  match throw_in (A := A) t e w with (w', Ok _) | (w', Raise _) | (w', Abort_ _) => can_run self w' | _ => True end.
Proof. intros [Hi Hq Ho] Ht. cbn. split; [by apply inv_alter_cor|exact Hq|exact Ho]. Qed.

Lemma unpause_keeps L : keeps (can_run self) (ratchet_unpause self L).
Proof.
  unfold ratchet_unpause. destruct L as [|[] args]; auto with sched.
  case_decide; [auto with sched|]. intros w Hc. unfold bind at 1, gets.
  destruct (stack_of w t) as [|v st] eqn:Es; [apply throw_keeps, quiet_no_main; [done|apply Hc|by rewrite Es]|].
  destruct v as [| | | | | |t2| | |]; try (apply throw_keeps, quiet_no_main; [done|apply Hc|by rewrite Es]).
  case_decide; [|done]. pose proof (note_drop_keeps self t w Hc) as Hn.
  destruct (note_drop_spec w t (cr_inv _ _ Hc)) as (w1 & E & Hi1 & Hq1 & _). rewrite E in Hn. unfold bind at 1. rewrite E.
  pose proof (can_run_set_stack self t [] w1 Hn Hq1) as Hc1. unfold bind, gets, modify, set_stack. cbn.
  destruct (status_of _ t); cbn; [done| |done].
  pose proof (can_run_set_stack self t args _ Hc1 Hq1) as Hc2.
  exact (keeps_ready self t _ Hc2).
Qed.

Lemma attach_keeps resumed L : keeps (can_run self) (ratchet_attach resumed self L).
Proof.
  unfold ratchet_attach, with_get, check_ratchet. destruct resumed; [|auto with sched].
  apply keeps_bind; [keep|intros []].
  destruct (drop 1 (Stk.insert L 1)) as [|v l]; [auto with sched|].
  intros w [Hi Hq Ho].
  assert (can_run self (set_cors (set_next w (S (next_id w)))
            (<[next_id w := Cor LUA_OK (v :: l) KCall]> (cors w)))) as Hc.
  { split; [|exact Hq|cbn; lia].
    apply (inv_set_cor (set_next w (S (next_id w)))); [by apply inv_fresh| |cbn; lia].
    apply quiet_not_yield; [by apply inv_fresh|]. unfold status_of. cbn.
    destruct (cors w !! next_id w) eqn:E; [|done].
    pose proof (bd_cors _ (inv_bounded _ Hi) _ _ E). lia. }
  assert (keeps (can_run self) (set_thread_persist (next_id w) ;; set_thread_ready (next_id w) ;;
            ret (CRet [VThread (next_id w)]))) as Hk by keep.
  exact (Hk _ Hc).
Qed.

(** Arming an alarm: any older one of the thread has been deleted. *)
Lemma arm_alarm w tv old :
  can_run self w ->
  old = alarm_events w !! self ->
  let w1 := match old with
            | Some ev => set_events w (delete ev (events w))
            | None => w
            end in
  let ev := next_id w1 in
  let w2 := set_next w1 (S ev) in
  can_run self (set_alarm_events
    (set_events w2 (<[ev := Event EvTimer alarm_triggered_cb self (Some tv)]> (events w2)))
    (<[self := ev]> (alarm_events w2))).
Proof.
  intros Hc Hold w1 ev w2.
  assert (can_run self w1) as [Hi1 Hq1 Ho1].
  { unfold w1. destruct old; [|done]. apply (keeps_event_del self n w Hc). }
  assert (forall ev' e, events w1 !! ev' = Some e -> ev_cb e = alarm_triggered_cb ->
            ev_arg e <> self) as Hno.
  { intros ev' e He Hcb Harg. pose proof (inv_alarms _ Hi1 _ _ He Hcb) as Ha.
    rewrite Harg in Ha. unfold w1 in *. subst old.
    destruct (alarm_events w !! self) as [o|] eqn:Eo; [|congruence].
    cbn in *. rewrite Eo in Ha. injection Ha as ->. by rewrite lookup_delete_eq in He. }
  destruct Hi1 as [Hb Hw Ha]. destruct (Hb) as [Hb1 Hb2 Hb3 Hb4].
  assert (forall t e, events w1 !! t = Some e -> t <> ev) as Hnew
    by (intros t e He ->; specialize (Hb3 _ _ He); unfold ev in Hb3; lia).
  split; [split| |cbn; lia].
  - split; cbn; fold ev.
    + intros t c Hx. specialize (Hb1 _ _ Hx). unfold ev. lia.
    + intros t c Hx. specialize (Hb2 _ _ Hx). unfold ev. lia.
    + intros t c [[<- _]|[_ Hx]]%lookup_insert_Some; [lia|]. specialize (Hb3 _ _ Hx). unfold ev. lia.
    + intros t c [[_ <-]|[_ Hx]]%lookup_insert_Some; [lia|]. specialize (Hb4 _ _ Hx). unfold ev. lia.
  - intros ev' e He Hcb. cbn in He. apply lookup_insert_Some in He as [[<- <-]|[_ Hx]]; [done|].
    exact (Hw _ _ Hx Hcb).
  - intros ev' e He Hcb. cbn in He |- *. apply lookup_insert_Some in He as [[<- <-]|[_ Hx]]; cbn.
    + by rewrite lookup_insert_eq.
    + rewrite lookup_insert_ne; [eauto|]. intros Heq. by eapply Hno.
  - intros ev' e He Hcb. cbn in He. apply lookup_insert_Some in He as [[<- <-]|[_ Hx]]; [done|]. eauto.
Qed.

Lemma alarm_keeps resumed L : keeps (can_run self) (ratchet_alarm resumed self L).
Proof.
  unfold ratchet_alarm, with_get, check_ratchet.
  destruct resumed; [|keep]. cbv zeta.
  case_decide; [keep|]. apply keeps_bind; [keep|intros []].
  apply keeps_bind; [keep|intros c].
  intros w Hc. destruct c as [|tv|]; [by cbn; destruct (alarm_events w !! self)| |
    by cbn; destruct (alarm_events w !! self)].
  pose proof (arm_alarm w tv _ Hc eq_refl) as Ha. cbn zeta in Ha. cbn.
  destruct (alarm_events w !! self) as [old|] eqn:Eold; cbn in Ha |- *.
  - exact (keeps_alarm_cb self (fun _ => _) _ Ha).
  - exact (keeps_alarm_cb self (fun _ => _) _ Ha).
Qed.

Lemma space_keeps premade : keeps (can_run self) (ratchet_get_space self premade).
Proof. unfold ratchet_get_space. keep. Qed.
Hint Resolve space_keeps unpause_keeps attach_keeps alarm_keeps : sched.

(** Every [ratchet.thread] function, whether it returns, yields or raises,
    leaves the invariant and the calling thread free to run. *)
Lemma call_keeps f resumed L : keeps (can_run self) (call f resumed self L).
Proof.
  destruct f; cbn [call]; auto with sched;
    unfold ratchet_block_on, ratchet_sigwait, ratchet_wait_all, ratchet_thread_space,
      ratchet_running_thread, ratchet_timer, ratchet_pause, ratchet_kill, ratchet_kill_all,
      with_get, check_ratchet, check_table; cbv zeta; keep.
Qed.
End Calls.

(** ** Registering what a thread waits for

    [grown w0 w t P]: [w] results from [w0] by adding tables and events; the new
    events belong to [t] and satisfy [P]; only the stack of [t] changed. *)
Record grown (w0 w : world) (t : nat) (P : nat -> event -> Prop) : Prop := {
  g_next : next_id w0 <= next_id w;
  g_tabs : forall l x, tabs w0 !! l = Some x -> tabs w !! l = Some x;
  g_tabs_bd : forall l x, tabs w !! l = Some x -> l < next_id w;
  g_events : forall ev e, events w !! ev = Some e ->
    events w0 !! ev = Some e \/
    (ev < next_id w /\ ev_arg e = t /\ ev_cb e <> alarm_triggered_cb /\ P ev e);
  g_cors : forall t', t' <> t -> cors w !! t' = cors w0 !! t';
  g_alarms : alarm_events w = alarm_events w0;
  g_loose : loose w0 ⊆ loose w;
}.

Lemma inv_grown w0 w t P :
  can_run t w0 -> grown w0 w t P ->
  (t ∉ loose w -> forall ev e, ev_arg e = t -> P ev e -> suspended_on w ev e) ->
  inv w.
Proof.
  intros [Hi Hq Ho] [Hn Ht Htb He Hc Ha Hl] HP.
  destruct Hi as [[Hb1 Hb2 Hb3 Hb4] Hw Hal]. split; [split| |].
  - intros t' c Hx. destruct (decide (t' = t)) as [->|Hne]; [lia|].
    rewrite Hc in Hx by done. specialize (Hb1 _ _ Hx). lia.
  - exact Htb.
  - intros ev e Hx. destruct (He _ _ Hx) as [Hx'|(? & _)]; [|done].
    specialize (Hb3 _ _ Hx'). lia.
  - intros t' ev Hx. rewrite Ha in Hx. specialize (Hb4 _ _ Hx). lia.
  - intros ev e Hx Hcb Hnl. destruct (He _ _ Hx) as [Hx'|(_ & Harg & _ & HPe)].
    + destruct (decide (ev_arg e = t)) as [E|E]; [exfalso; apply Hnl, Hl; rewrite E; by eapply Hq|].
      destruct (Hw _ _ Hx' Hcb ltac:(set_solver)) as (l' & rest' & k' & Hcor & Hr).
      exists l', rest', k'. rewrite Hc by done. eauto using recorded_tabs.
    + apply HP; [by rewrite <- Harg|done..].
  - intros ev e Hx Hcb. rewrite Ha. destruct (He _ _ Hx) as [Hx'|(_ & _ & Hne & _)]; [eauto|done].
Qed.

Lemma grown_refl w t P : inv w -> grown w w t P.
Proof. intros [[] _ _]. split; auto. Qed.

Lemma grown_fresh w0 w t P n :
  n = S (next_id w) -> grown w0 w t P -> grown w0 (set_next w n) t P.
Proof.
  intros ->. intros [Hn Ht Htb He Hc Ha Hlo]. split; cbn; auto.
  - intros l x Hx. specialize (Htb _ _ Hx). lia.
  - intros ev e Hx. destruct (He _ _ Hx) as [?|(? & ? & ? & ?)]; auto 6.
Qed.

Lemma grown_table w0 w t P l x m :
  m = <[l := x]> (tabs w) -> inv w0 -> grown w0 w t P -> next_id w0 <= l < next_id w ->
  grown w0 (set_tabs w m) t P.
Proof.
  intros -> Hi [Hn Ht Htb He Hc Ha Hlo] Hl. split; cbn; auto.
  - intros i y Hx. rewrite lookup_insert_ne; [auto|]. intros ->.
    pose proof (bd_tabs _ (inv_bounded _ Hi) _ _ Hx). lia.
  - intros i y [[<- _]|[_ ?]]%lookup_insert_Some; [lia|eauto].
Qed.

Lemma grown_event w0 w t (P : nat -> event -> Prop) ev e m :
  m = <[ev := e]> (events w) ->
  grown w0 w t P -> ev < next_id w -> ev_arg e = t -> ev_cb e <> alarm_triggered_cb -> P ev e ->
  grown w0 (set_events w m) t P.
Proof.
  intros ->. intros [Hn Ht Htb He Hc Ha Hlo] Hl Harg Hcb HP. split; cbn; auto.
  intros i y [[<- <-]|[_ ?]]%lookup_insert_Some; auto.
Qed.

Lemma grown_stack w0 w t P f m :
  m = alter f t (cors w) -> grown w0 w t P -> grown w0 (set_cors w m) t P.
Proof.
  intros ->. intros [Hn Ht Htb He Hc Ha Hlo]. split; cbn; auto.
  intros t' Hne. rewrite lookup_alter_ne by done. auto.
Qed.

Lemma grown_loosen w0 w t P u m : m = {[u]} ∪ loose w -> grown w0 w t P -> grown w0 (set_loose w m) t P.
Proof. intros ->. intros [Hn Ht Htb He Hc Ha Hlo]. split; cbn; auto. set_solver. Qed.

Lemma grown_mono w0 w t (P Q : nat -> event -> Prop) :
  grown w0 w t P -> (forall ev e, P ev e -> Q ev e) -> grown w0 w t Q.
Proof.
  intros [Hn Ht Htb He Hc Ha Hlo] HPQ. split; auto.
  intros ev e Hx. destruct (He _ _ Hx) as [?|(? & ? & ? & ?)]; auto 6.
Qed.

(** The stack a wait function leaves, before the main thread is put under it. *)
Definition parked (w0 w : world) (t : nat) : Prop :=
  exists P l rest k, grown w0 w t P /\
    cors w !! t = Some (Cor LUA_YIELD (VTab l :: rest) k) /\
    (forall ev e, P ev e -> recorded w ev e l rest).

Lemma parked_inv w0 w t :
  can_run t w0 -> parked w0 w t ->
  inv (set_cors w (alter (fun c => Cor (c_status c)
         (VThread main_thread :: stack_of w t) (c_cont c)) t (cors w))).
Proof.
  intros Hc (P & l & rest & k & Hg & Hk & HP).
  eapply (inv_grown w0 _ t P); [done|by eapply grown_stack|].
  intros _ ev e Harg Hpe. exists l, rest, k. rewrite Harg. split.
  - cbn. rewrite lookup_alter_eq, Hk. unfold stack_of. rewrite Hk. done.
  - specialize (HP _ _ Hpe). eapply recorded_tabs; [|exact HP]. done.
Qed.

Section Waits.
Context `{LuaConv, Objects, NextOrder}.

Ltac grow := repeat first
  [ eapply grown_event; [reflexivity| |cbn; lia|done|done|cbn; auto]
  | eapply grown_stack; [reflexivity|]
  | eapply grown_table; [reflexivity|done| |cbn; lia]
  | eapply grown_fresh; [reflexivity|]
  | apply grown_refl; done ].

(** An error before the first event is registered. *)
Ltac regrow t := eapply (inv_grown _ _ t (fun _ _ => False)); [eassumption|grow|done].

(** The stack of [t] after the pushes so far, when its coroutine is known. *)
Ltac stack_now Hk :=
  cbn; rewrite ?lookup_alter_eq; unfold stack_of; cbn;
  repeat (rewrite ?lookup_alter_eq, ?Hk; cbn); reflexivity.

Lemma wait_for_rw_parked kind t args w k :
  can_run t w -> cors w !! t = Some (Cor LUA_YIELD [] k) ->
  post (wait_for_rw kind t args) w (fun _ w' => parked w w' t).
Proof.
  intros Hc Hk. pose proof (cr_inv _ _ Hc) as Hi.
  unfold wait_for_rw, new_table, push, set_stack, event_add, set_table.
  mstep. eapply post_mono with (Q := fun _ w' => w' = w).
  { unfold get_fd_from_object, post, lift. destruct (args !! 0); [|done].
    by destruct (get_fd v). }
  intros fd ? ->. cbv zeta. msteps; [regrow t|].
  eapply post_mono with (Q := fun _ w' => w' = _).
  { unfold use_tv, post. destruct (gettimeval _); done. }
  intros tv ? ->. cbn beta. msteps.
  eexists (fun ev e => ev = S (next_id w) /\ ev_cb e = event_triggered_cb), (next_id w), [], k.
  split; [|split].
  - grow.
  - stack_now Hk.
  - intros ev e [-> Hcb]. unfold recorded. rewrite Hcb. cbn. by rewrite lookup_insert_eq.
Qed.

Lemma post_use_tv c w Q :
  (forall tv, Q tv w) -> post (use_tv c) w Q.
Proof. intros HQ. destruct c; first [exact I | apply HQ]. Qed.

Lemma wait_for_signal_parked t args w k :
  can_run t w -> cors w !! t = Some (Cor LUA_YIELD [] k) ->
  post (wait_for_signal t args) w (fun _ w' => parked w w' t).
Proof.
  intros Hc Hk. pose proof (cr_inv _ _ Hc) as Hi.
  unfold wait_for_signal, new_table, push, set_stack, event_add, set_table.
  cbv zeta. mstep. apply post_lift; [done|]. intros c _. mstep. apply post_use_tv. intros tv.
  msteps.
  - eexists (fun ev e => (ev = S (S (next_id w)) \/ ev = S (S (S (next_id w)))) /\
      ev_cb e = signal_triggered_cb), (next_id w), [], k. split; [|split].
    + grow.
    + stack_now Hk.
    + intros ev e [Hev Hcb]. unfold recorded. rewrite Hcb. cbn.
      eexists (S (next_id w)), _. rewrite !lookup_insert_eq, !lookup_insert_ne by lia.
      rewrite !lookup_insert_eq. split_and!; [done..|].
      destruct Hev as [->| ->]; repeat constructor.
  - eexists (fun ev e => ev = S (S (next_id w)) /\ ev_cb e = signal_triggered_cb),
      (next_id w), [], k. split; [|split].
    + grow.
    + stack_now Hk.
    + intros ev e [Hev Hcb]. unfold recorded. rewrite Hcb. cbn.
      eexists (S (next_id w)), _. rewrite !lookup_insert_eq, !lookup_insert_ne by lia.
      rewrite !lookup_insert_eq. split_and!; [done..|]. subst ev. constructor.
Qed.

Lemma wait_for_timeout_parked t args w k :
  can_run t w -> cors w !! t = Some (Cor LUA_YIELD [] k) ->
  post (wait_for_timeout t args) w (fun _ w' => parked w w' t).
Proof.
  intros Hc Hk. pose proof (cr_inv _ _ Hc) as Hi.
  unfold wait_for_timeout, new_table, push, set_stack, event_add, set_table.
  mstep. apply post_lift; [done|]. intros c _. unfold tv_arg. msteps.
  eexists (fun ev e => ev = S (next_id w) /\ ev_cb e = timeout_triggered_cb), (next_id w), [], k.
  split; [|split].
  - grow.
  - stack_now Hk.
  - intros ev e [-> Hcb]. unfold recorded. rewrite Hcb. cbn. by rewrite lookup_insert_eq.
Qed.

(** The state of [ratchet_wait_for_multi] between two objects: [lm] maps the
    descriptor of every event registered so far, [ll] lists the events. *)
Definition multi_state (w0 w : world) (t to l lm ll : nat) (k : cont) : Prop :=
  exists m evs,
    tabs w !! lm = Some (TFdMap m) /\ tabs w !! ll = Some (TEvList evs) /\
    tabs w !! l = Some (TCleanup (Some to) None) /\
    cors w !! t = Some (Cor LUA_YIELD [VTab l; VTab lm; VTab ll] k) /\
    next_id w0 <= l < next_id w /\ next_id w0 <= lm < next_id w /\ next_id w0 <= ll < next_id w /\
    grown w0 w t (fun ev e => ev_cb e = multi_event_triggered_cb /\
      (ev = to /\ ev_kind e = EvTimer \/ ev ∈ evs /\ is_Some (m !! event_fd e))).

Lemma multi_add_state w0 t to l lm ll k kind objs :
  (forall fd cb a tv, event_fd (Event (kind fd) cb a tv) = fd) ->
  can_run t w0 -> l <> lm -> l <> ll -> lm <> ll ->
  forall w, multi_state w0 w t to l lm ll k ->
  post (multi_add t kind lm ll objs) w (fun _ w' => multi_state w0 w' t to l lm ll k).
Proof.
  intros Hfd Hc Hne1 Hne2 Hne3. pose proof (cr_inv _ _ Hc) as Hi.
  induction objs as [|o objs IH]; intros w Hm; cbn [multi_add]; [by apply post_ret|].
  destruct Hm as (m & evs & Hlm & Hll & Hl & Hk & Hn1 & Hn2 & Hn3 & Hg).
  destruct (get_fd o) as [err|fd].
  { unfold loosen. msteps. eapply inv_grown; [exact Hc|eapply grown_loosen; [reflexivity|exact Hg]|]. cbn. set_solver. }
  unfold set_table, event_add. msteps. apply IH.
  cbn. rewrite lookup_insert_ne by done. rewrite Hlm, Hll.
  exists (<[fd := o]> m), (evs ++ [next_id w]).
  cbn. rewrite lookup_insert_ne, lookup_insert_eq by done.
  rewrite lookup_insert_eq, !lookup_insert_ne by done.
  split_and!; try done; try (cbn; lia).
  eapply grown_event; [reflexivity| |cbn; lia|done|done|].
  - eapply grown_table; [reflexivity|done| |cbn; lia].
    eapply grown_fresh; [reflexivity|].
    eapply grown_table; [reflexivity|done| |cbn; lia].
    eapply grown_mono; [exact Hg|]. cbn. intros ev e [Hcb [?|[Hin Hs]]]; split; auto.
    right. split; [apply elem_of_app; auto|]. rewrite lookup_insert_is_Some'. auto.
  - split; [done|]. right. rewrite Hfd, lookup_insert_eq.
    split; [apply elem_of_app; right; constructor|eauto].
Qed.

Lemma check_table_post v w (Q : unit -> world -> Prop) : inv w -> Q tt w -> post (check_table v) w Q.
Proof. intros Hi HQ. unfold check_table. destruct (istable v); [exact HQ|exact Hi]. Qed.

(** Steps of a wait function with the world they leave named and described by
    its fields only. *)
Record during (w0 w : world) (t : nat) (s : list value) (k : cont) (P : nat -> event -> Prop) : Prop := {
  du_grown : grown w0 w t P;
  du_cor : cors w !! t = Some (Cor LUA_YIELD s k);
}.

Section During.
Context (w0 : world) (t : nat) (k : cont) (P : nat -> event -> Prop) (Hi : inv w0).

Lemma during_new_table w s x Q :
  during w0 w t s k P ->
  (forall w', during w0 w' t s k P -> next_id w' = S (next_id w) ->
     tabs w' = <[next_id w := x]> (tabs w) -> Q (next_id w) w') ->
  post (new_table x) w Q.
Proof.
  intros [Hg Hk] HQ. apply HQ; [|done..]. split; [|done].
  eapply grown_table; [reflexivity|done| |cbn; pose proof (g_next _ _ _ _ Hg); lia].
  by eapply grown_fresh.
Qed.

Lemma during_push w s v Q :
  during w0 w t s k P ->
  (forall w', during w0 w' t (s ++ [v]) k P -> next_id w' = next_id w -> tabs w' = tabs w -> Q tt w') ->
  post (push t v) w Q.
Proof.
  intros [Hg Hk] HQ. apply HQ; [|done..]. split; [by eapply grown_stack|].
  cbn. rewrite lookup_alter_eq, Hk. unfold stack_of. by rewrite Hk.
Qed.

Lemma during_set_table w s l x Q :
  during w0 w t s k P -> next_id w0 <= l < next_id w ->
  (forall w', during w0 w' t s k P -> next_id w' = next_id w ->
     tabs w' = <[l := x]> (tabs w) -> Q tt w') ->
  post (set_table l x) w Q.
Proof.
  intros [Hg Hk] Hl HQ. apply HQ; [|done..]. split; [|done]. by eapply grown_table.
Qed.

Lemma during_fresh w s Q :
  during w0 w t s k P ->
  (forall w', during w0 w' t s k P -> next_id w' = S (next_id w) -> tabs w' = tabs w ->
     Q (next_id w) w') ->
  post fresh w Q.
Proof. intros [Hg Hk] HQ. apply HQ; [|done..]. split; [|done]. by eapply grown_fresh. Qed.

Lemma during_event w s ev e Q :
  during w0 w t s k P -> ev < next_id w -> ev_arg e = t -> ev_cb e <> alarm_triggered_cb -> P ev e ->
  (forall w', during w0 w' t s k P -> next_id w' = next_id w -> tabs w' = tabs w -> Q tt w') ->
  post (event_add ev e) w Q.
Proof. intros [Hg Hk] ? ? ? ? HQ. apply HQ; [|done..]. split; [|done]. by eapply grown_event. Qed.
End During.

Lemma wait_for_multi_parked t args w k :
  can_run t w -> cors w !! t = Some (Cor LUA_YIELD [] k) ->
  post (wait_for_multi t args) w (fun _ w' => parked w w' t).
Proof.
  intros Hc Hk. pose proof (cr_inv _ _ Hc) as Hi. unfold wait_for_multi.
  mstep. apply check_table_post; [done|]. cbn beta.
  mstep. eapply post_mono with (Q := fun _ w' => w' = w).
  { destruct (isnoneornil _); [done|by apply check_table_post]. }
  intros _ ? ->. mstep. apply post_lift; [done|]. intros c _. mstep. apply post_use_tv. intros tv.
  do 4 mstep. set (n := next_id w).
  set (P := fun ev e => ev_cb e = multi_event_triggered_cb /\
      (ev = S n /\ ev_kind e = EvTimer \/ ev ∈ [] /\ is_Some ((∅ : gmap Z value) !! event_fd e))).
  assert (during w w t [] k P) as D by (split; [by apply grown_refl|done]).
  mstep. eapply during_new_table; [done|exact D|]. clear D. intros w1 D E1 T1.
  mstep. eapply during_push; [exact D|]. clear D. intros w2 D E2 T2.
  mstep. eapply during_fresh; [exact D|]. clear D. intros w3 D E3 T3.
  mstep. eapply during_set_table; [done|exact D|lia|]. clear D. intros w4 D E4 T4.
  mstep. eapply post_mono with (Q := fun _ w' => during w w' t [VTab n] k P /\
    next_id w' = next_id w4 /\ tabs w' = tabs w4).
  { destruct tv; [|by apply post_ret].
    eapply during_event; [exact D|lia|done|done| |auto]. split; [done|]. left. split; [lia|done]. }
  clear D. intros _ w5 (D & E5 & T5).
  mstep. eapply during_new_table; [done|exact D|]. clear D. intros w6 D E6 T6.
  mstep. eapply during_push; [exact D|]. clear D. intros w7 D E7 T7.
  mstep. eapply during_new_table; [done|exact D|]. clear D. intros w8 D E8 T8.
  mstep. eapply during_push; [exact D|]. clear D. intros w9 D E9 T9.
  assert (next_id w5 = S (S n)) as N5 by lia. assert (next_id w7 = S (S (S n))) as N7 by lia.
  assert (next_id w2 = S n) as N2 by lia.
  rewrite N5, N7, N2 in *. cbn [app] in D.
  assert (multi_state w w9 t (S n) n (S (S n)) (S (S (S n))) k) as Hm.
  { exists ∅, []. rewrite T9, T8, T7, T6, T5, T4. rewrite !lookup_insert_eq.
    rewrite !(lookup_insert_ne _ (S (S (S n)))) by lia. rewrite lookup_insert_eq.
    rewrite !(lookup_insert_ne _ (S (S n))) by lia. rewrite lookup_insert_eq.
    split_and!; try done; try lia; apply D. }
  mstep. eapply post_mono; [eapply (multi_add_state w t (S n) n (S (S n)) (S (S (S n))) k);
    [done|exact Hc|lia|lia|lia|exact Hm]|].
  clear Hm. intros [] w10 Hm. cbn beta in Hm.
  mstep. eapply post_mono; [eapply (multi_add_state w t (S n) n (S (S n)) (S (S (S n))) k);
    [done|exact Hc|lia|lia|lia|exact Hm]|].
  clear Hm. intros [] w11 (m & evs & Hlm & Hll & Hl & Hkk & ? & ? & ? & Hg).
  mstep. mstep. unfold set_stack, set_table. msteps.
  assert (stack_of w11 t = [VTab n; VTab (S (S n)); VTab (S (S (S n)))]) as Hst
    by (unfold stack_of; by rewrite Hkk).
  rewrite Hst. eexists _, n, [VTab (S (S n))], k. split; [|split].
  - eapply grown_table; [reflexivity|done| |cbn; lia]. eapply grown_stack; [reflexivity|exact Hg].
  - cbn. rewrite lookup_alter_eq, Hkk. done.
  - intros ev e [Hcb Hor]. unfold recorded. rewrite Hcb. cbn.
    exists (S n), (S (S (S n))), evs, (S (S n)), m.
    rewrite lookup_insert_eq, !lookup_insert_ne by lia. auto.
Qed.
End Waits.
