(* ===== verification/SchedRun.v ===== *)
(** The scheduler's invariant along a run: resuming a thread, the event
    callbacks and the loop of ratchet.c keep [SchedInv.inv], whether they return
    or end in an error; and what each way of waking a thread delivers to it. *)

From stdpp Require Import prelude gmap strings.
From Stdlib Require Import ZArith Lia SpecFloat.
From S2P Require Import Prelude Double Lua Misc Sched SchedInv.

(** ** Running threads *)
Section Run.
Context `{LuaConv, Objects, NextOrder}.
Context (prog : nat -> list value -> body) (run_callback : value -> option value).

(** A suspended coroutine that [yield_thread] registers satisfies the
    invariant again. *)
Lemma yield_thread_inv t w s k :
  can_run t w -> cors w !! t = Some (Cor LUA_YIELD s k) ->
  post (yield_thread t) w (fun _ w' => inv w').
Proof.
  intros Hc Hk. unfold yield_thread. mstep. mstep.
  assert (stack_of w t = s) as -> by (unfold stack_of; by rewrite Hk).
  destruct s as [|[] args]; try apply Hc.
  set (w1 := set_cors w (alter (fun c => Cor (c_status c) [] (c_cont c)) t (cors w))).
  assert (can_run t w1) as Hc1 by (apply can_run_set_stack; [done|apply Hc]).
  assert (cors w1 !! t = Some (Cor LUA_YIELD [] k)) as Hk1
    by (unfold w1; cbn; by rewrite lookup_alter_eq, Hk).
  assert (forall m : M unit, post m w1 (fun _ w' => parked w1 w' t) ->
    post (let! x := (set_stack t [] ;; m) in
          let! s' := gets (fun w => stack_of w t) in set_stack t (VThread main_thread :: s'))
         w (fun _ w' => inv w')) as Hfin.
  { intros m Hm. mstep. mstep. unfold set_stack at 1. apply post_modify. fold w1.
    eapply post_mono; [exact Hm|]. intros [] w' Hp. unfold set_stack. msteps.
    by eapply parked_inv. }
  repeat case_goal; apply Hfin.
  - by eapply wait_for_rw_parked.
  - by eapply wait_for_rw_parked.
  - by eapply wait_for_signal_parked.
  - by eapply wait_for_timeout_parked.
  - by eapply wait_for_multi_parked.
  - unfold new_table, push, set_stack. msteps.
    exists (fun _ _ => False), (next_id w1), [], k. split; [|split]; [| |done].
    + eapply grown_stack; [reflexivity|]. eapply grown_table; [reflexivity|apply Hc1| |cbn; lia].
      eapply grown_fresh; [reflexivity|]. apply grown_refl, Hc1.
    + unfold stack_of. cbn. rewrite !lookup_alter_eq, !Hk. done.
Qed.

(** What [lua_resume] leaves: the coroutine has the status returned. *)
Definition resumed_to (t : nat) (st : lstatus) (w : world) : Prop :=
  can_run t w /\ exists s k, cors w !! t = Some (Cor st s k).

Lemma finish_post t st s k w :
  can_run t w -> post (finish t st s k) w (fun r w' => resumed_to t r w').
Proof.
  intros [Hi Hq Ho]. unfold finish, set_cor. msteps. split.
  - split; [by apply inv_set_cor|exact Hq|exact Ho].
  - cbn. rewrite lookup_insert_eq. eauto.
Qed.

Lemma c_call_post t f resumed L k exec w :
  can_run t w ->
  (forall r w', can_run t w' -> post (exec (k r)) w' (fun r w' => resumed_to t r w')) ->
  post (c_call t f resumed L k exec) w (fun r w' => resumed_to t r w').
Proof.
  intros Hc Hx. unfold c_call. pose proof (call_keeps t f resumed L w Hc) as Hk.
  mstep. apply post_try.
  - intros w' e E. rewrite E in Hk. by apply Hx.
  - intros w' e E. rewrite E in Hk. apply Hk.
  - unfold post. destruct (call f resumed t L w) as [w' []]; try done.
    destruct a; [by apply Hx| |]; by apply finish_post.
Qed.

Lemma exec_post t b : forall w, can_run t w ->
  post (exec t b) w (fun r w' => resumed_to t r w').
Proof.
  induction b as [vs|e|vs k IH|vs k IH|f args k IH]; intros w Hc; cbn [exec].
  - by apply finish_post.
  - by apply finish_post.
  - by apply finish_post.
  - mstep. eapply post_mono; [apply (keeps_post _ _ _ (cr_inv t) (keeps_new_table t (TArr vs)) Hc)|].
    intros l w' Hc'. by apply IH.
  - apply c_call_post; [done|]. intros r w' Hc'. by apply IH.
Qed.

Lemma lua_resume_post t w :
  inv w -> post (lua_resume prog t) w (fun r w' => resumed_to t r w').
Proof.
  intros Hi0. unfold lua_resume. destruct (note_drop_spec w t Hi0) as (w1 & E1 & Hi & Hq & _). mstep.
  unfold post at 1. rewrite E1. clear w Hi0 E1. rename w1 into w. mstep. apply post_get.
  destruct (cors w !! t) as [[st s k]|] eqn:E; [|exact I].
  assert (can_run t w) as Hc by (split; [done..|]; eapply bd_cors; [apply Hi|exact E]).
  assert (can_run t (set_cors w (<[t := Cor LUA_OK [] KCall]> (cors w)))) as Hr
    by (destruct Hc as [? ? Ho]; split; [by apply inv_set_cor|exact Hq|exact Ho]).
  unfold running, set_cor.
  destruct st; [destruct s as [|[] args]| |]; try exact I; try by apply finish_post.
  - msteps. by apply exec_post.
  - destruct k; try exact I; msteps.
    + by apply exec_post.
    + apply c_call_post; [done|]. intros. by apply exec_post.
Qed.

Lemma handle_thread_error_inv e t w :
  inv w -> post (handle_thread_error e t) w (fun _ w' => inv w').
Proof.
  intros Hi. pose proof Hi as [[] Hw Ha]. unfold handle_thread_error. do 2 mstep.
  destruct (error_handler w); first [exact Hi | apply post_modify; repeat split; auto].
Qed.

Lemma end_persist_inv t w :
  inv w -> quiet w t -> post (end_thread_persist t) w (fun _ w' => inv w').
Proof.
  intros Hi Hq. unfold end_thread_persist, set_stack, event_del.
  assert (inv (set_cors w (alter (fun c => Cor (c_status c) [] (c_cont c)) t (cors w)))) as Hi1
    by (by apply inv_alter_cor).
  msteps.
  - apply (inv_event_del _ n) in Hi1. destruct Hi1 as [[] Hw Ha]. repeat split; auto.
  - destruct Hi1 as [[] Hw Ha]. repeat split; auto.
Qed.

Lemma run_thread_inv n : forall t w, inv w -> post (run_thread prog n t) w (fun _ w' => inv w').
Proof.
  induction n as [|n IH]; intros t w Hi; cbn [run_thread]; [exact I|].
  mstep. eapply post_mono; [by apply lua_resume_post|]. intros st w1 [Hc (s & k & Hk)].
  destruct st.
  - apply end_persist_inv; apply Hc.
  - mstep. mstep.
    assert (stack_of w1 t = s) as -> by (unfold stack_of; by rewrite Hk).
    assert (post (yield_thread t) w1 (fun _ w' => inv w')) as Hy by (by eapply yield_thread_inv).
    destruct s as [|[] s]; try exact Hy. destruct (_ =? _)%Z; [|exact Hy].
    unfold set_stack. msteps. apply IH. apply inv_alter_cor; apply Hc.
  - unfold set_stack. do 2 mstep. cbv zeta. do 2 mstep. mstep.
    eapply end_all_quiet; [apply inv_alter_cor; apply Hc|].
    intros w2 Hi2 Hq2 _ _ _ _ _. mstep. eapply post_mono; [by apply end_persist_inv|].
    intros [] w3 Hi3. by apply handle_thread_error_inv.
Qed.

Lemma alarm_thread_inv t w : inv w -> post (alarm_thread run_callback t) w (fun _ w' => inv w').
Proof.
  intros Hi. unfold alarm_thread, set_stack. do 2 mstep.
  mstep. eapply post_mono with (Q := fun _ w' => inv w' /\ quiet w' t).
  { destruct (status_of w t) eqn:Es.
    - apply post_ret. split; [done|]. apply quiet_not_yield; congruence.
    - eapply end_all_quiet; [done|]. auto.
    - apply post_ret. split; [done|]. apply quiet_not_yield; congruence. }
  intros [] w1 [Hi1 Hq1]. do 4 mstep. cbv zeta. mstep.
  eapply post_mono; [apply end_persist_inv; [by apply inv_alter_cor|exact Hq1]|].
  intros [] w2 Hi2. by apply handle_thread_error_inv.
Qed.

(** ** Events *)

Lemma suspended_stack w ev e :
  suspended_on w ev e ->
  status_of w (ev_arg e) = LUA_YIELD /\ stack_of w (ev_arg e) !! 0 = Some (VThread main_thread).
Proof.
  intros (l & rest & k & Hc & _). unfold status_of, stack_of. rewrite Hc. done.
Qed.

(** A thread blocked on one descriptor or on a timer has no second event. *)
Lemma single_event w ev e :
  inv w -> events w !! ev = Some e ->
  ev_cb e = event_triggered_cb \/ ev_cb e = timeout_triggered_cb ->
  quiet (set_events w (delete ev (events w))) (ev_arg e).
Proof.
  intros Hi Hev Hcb ev' e' He' Hcb' Harg. cbn in He' |- *.
  destruct (decide (ev_arg e ∈ loose w)) as [|Hnl]; [done|]. exfalso.
  apply lookup_delete_Some in He' as [Hne He'].
  assert (ev_cb e <> alarm_triggered_cb) as Hna by (destruct Hcb as [-> | ->]; done).
  destruct (inv_waits _ Hi _ _ Hev Hna Hnl) as (l & rest & k & Hc & Hr).
  destruct (inv_waits _ Hi _ _ He' Hcb' ltac:(by rewrite Harg)) as (l' & rest' & k' & Hc' & Hr').
  rewrite Harg, Hc in Hc'. injection Hc' as <- <- <-.
  assert (tabs w !! l = Some (TCleanup (Some ev) None)) as Hl
    by (unfold recorded in Hr; destruct Hcb as [Hx|Hx]; rewrite Hx in Hr; exact Hr).
  unfold recorded in Hr'. destruct (ev_cb e'); [| | |done|].
  - rewrite Hl in Hr'. congruence.
  - destruct Hr' as (? & ? & Hx & _). congruence.
  - rewrite Hl in Hr'. congruence.
  - destruct Hr' as (? & ? & ? & ? & ? & Hx & _). congruence.
Qed.

(** The world in which the thread is resumed with [vs]. *)
Definition wake (w : world) (t : nat) (vs : list value) : world :=
  set_cors w (alter (fun c => Cor (c_status c) vs (c_cont c)) t (cors w)).

Lemma check_waiting_ok w t :
  stack_of w t !! 0 = Some (VThread main_thread) -> check_waiting t w = (w, Ok tt).
Proof. intros Hs. unfold check_waiting, bind, gets. rewrite Hs. by rewrite decide_True. Qed.
Lemma check_waiting_post t w (Q : unit -> world -> Prop) : inv w -> Q tt w -> post (check_waiting t) w Q.
Proof.
  intros Hi HQ. unfold check_waiting. mstep. mstep. destruct (stack_of w t !! 0) as [[]|] eqn:E; try (case_decide; [exact HQ|exact I]).
  all: apply inv_alter_cor, quiet_no_main; [done..|]; by rewrite E.
Qed.

(** What firing an event does, by its callback. *)
Lemma fire_event_triggered n w ev e timeout :
  inv w -> events w !! ev = Some e -> ev_cb e = event_triggered_cb -> ev_arg e ∉ loose w ->
  let w' := wake (set_events w (delete ev (events w))) (ev_arg e) [VBool (negb timeout)] in
  fire prog run_callback n ev timeout w = run_thread prog n (ev_arg e) w' /\
  inv w' /\ quiet w' (ev_arg e).
Proof.
  intros Hi Hev Hcb Hnl w'.
  destruct (suspended_stack w ev e) as [_ Hs]; [apply Hi; [done|by rewrite Hcb|done]|].
  split; [|split].
  - unfold fire, bind at 1, gets. rewrite Hev. unfold bind at 1. cbn [event_del modify].
    rewrite Hcb. unfold event_triggered, bind at 1.
    rewrite check_waiting_ok by exact Hs. reflexivity.
  - apply inv_alter_cor; [by apply inv_event_del|]. apply single_event; auto.
  - exact (single_event w ev e Hi Hev (or_introl Hcb)).
Qed.

Lemma fire_timeout_triggered n w ev e timeout :
  inv w -> events w !! ev = Some e -> ev_cb e = timeout_triggered_cb -> ev_arg e ∉ loose w ->
  let w' := wake (set_events w (delete ev (events w))) (ev_arg e) [] in
  fire prog run_callback n ev timeout w = run_thread prog n (ev_arg e) w' /\
  inv w' /\ quiet w' (ev_arg e).
Proof.
  intros Hi Hev Hcb Hnl w'.
  destruct (suspended_stack w ev e) as [_ Hs]; [apply Hi; [done|by rewrite Hcb|done]|].
  split; [|split].
  - unfold fire, bind at 1, gets. rewrite Hev. unfold bind at 1. cbn [event_del modify].
    rewrite Hcb. unfold timeout_triggered, bind at 1.
    rewrite check_waiting_ok by exact Hs. reflexivity.
  - apply inv_alter_cor; [by apply inv_event_del|]. apply single_event; auto.
  - exact (single_event w ev e Hi Hev (or_intror Hcb)).
Qed.

(** The world after the event [ev] fired and the callback deleted every event of
    the thread's cleanup table. *)
Lemma end_all_after_fire w ev e :
  inv w -> events w !! ev = Some e ->
  exists w1,
    end_all_waiting_thread_events (ev_arg e) (set_events w (delete ev (events w))) = (w1, Ok tt) /\
    inv w1 /\ quiet w1 (ev_arg e) /\ cors w1 = cors w /\ tabs w1 = tabs w /\ loose w1 = loose w /\
    (forall ev' e', events w1 !! ev' = Some e' -> events w !! ev' = Some e' /\ ev' <> ev).
Proof.
  intros Hi Hev. pose proof (inv_event_del w ev Hi) as Hi1.
  destruct (end_all_spec (set_events w (delete ev (events w))) (ev_arg e)) as (evs & Heq & Hevs).
  pose proof (end_all_quiet _ (ev_arg e)
    (fun _ w' => inv w' /\ quiet w' (ev_arg e)) Hi1) as Hp.
  unfold post in Hp. rewrite Heq in Hp.
  destruct Hp as [Hi2 Hq2]; [by intros; split|].
  eexists. split; [exact Heq|]. split; [done|]. split; [done|]. split; [done|]. split; [done|]. split; [done|].
  intros ev' e' Hx. apply drop_events_sub in Hx as [Hx _]. cbn in Hx.
  apply lookup_delete_Some in Hx as [? ?]. auto.
Qed.

Lemma fire_signal_triggered n w ev e timeout :
  inv w -> events w !! ev = Some e -> ev_cb e = signal_triggered_cb -> ev_arg e ∉ loose w ->
  exists w1,
    fire prog run_callback n ev timeout w
      = run_thread prog n (ev_arg e) (wake w1 (ev_arg e) [VBool (negb timeout)]) /\
    inv w1 /\ quiet w1 (ev_arg e) /\ loose w1 = loose w /\
    (forall ev' e', events w1 !! ev' = Some e' -> events w !! ev' = Some e').
Proof.
  intros Hi Hev Hcb Hnl.
  destruct (suspended_stack w ev e) as [_ Hs]; [apply Hi; [done|by rewrite Hcb|done]|].
  destruct (end_all_after_fire w ev e Hi Hev) as (w1 & Heq & Hi1 & Hq1 & _ & _ & Hl1 & Hsub).
  exists w1. split; [|naive_solver].
  unfold fire, bind at 1, gets. rewrite Hev. unfold bind at 1. cbn [event_del modify].
  rewrite Hcb. unfold signal_triggered, bind at 1. rewrite check_waiting_ok by exact Hs.
  unfold bind at 1. rewrite Heq. reflexivity.
Qed.

(** A multi-object wait: every event of the wait is gone before the thread
    runs, and it is resumed with the object registered for the descriptor. *)
Lemma fire_multi n w ev e timeout :
  inv w -> events w !! ev = Some e -> ev_cb e = multi_event_triggered_cb -> ev_arg e ∉ loose w ->
  (timeout = true \/ ev_kind e <> EvTimer) ->
  exists w1 v,
    fire prog run_callback n ev timeout w
      = run_thread prog n (ev_arg e) (wake w1 (ev_arg e) [v]) /\
    inv w1 /\ quiet w1 (ev_arg e) /\ loose w1 = loose w /\
    (forall ev' e', events w1 !! ev' = Some e' -> events w !! ev' = Some e') /\
    (if timeout then v = VBool false
     else exists lm m, stack_of w (ev_arg e) !! 2 = Some (VTab lm) /\
            tabs w !! lm = Some (TFdMap m) /\ m !! event_fd e = Some v).
Proof.
  intros Hi Hev Hcb Hnl Hto.
  assert (suspended_on w ev e) as Hsus by (apply Hi; [done|by rewrite Hcb|done]).
  destruct (suspended_stack w ev e Hsus) as [_ Hs].
  destruct Hsus as (l & rest & k & Hc & Hr). unfold recorded in Hr. rewrite Hcb in Hr.
  destruct Hr as (to & l' & evs & lm & m & _ & _ & -> & Hlm & Hor).
  destruct (end_all_after_fire w ev e Hi Hev) as (w1 & Heq & Hi1 & Hq1 & Hc1 & Ht1 & Hl1 & Hsub).
  assert (stack_of w (ev_arg e) !! 2 = Some (VTab lm)) as Hst
    by (unfold stack_of; by rewrite Hc).
  assert (fire prog run_callback n ev timeout w =
    multi_event_triggered prog n (ev_arg e) (event_fd e) timeout (set_events w (delete ev (events w)))) as Hf.
  { unfold fire, bind at 1, gets. rewrite Hev. unfold bind at 1. cbn [event_del modify].
    by rewrite Hcb. }
  rewrite Hf. unfold multi_event_triggered, bind at 1.
  rewrite check_waiting_ok by exact Hs. unfold bind at 1. rewrite Heq.
  destruct timeout.
  - exists w1, (VBool false). split; [reflexivity|]. split_and!; auto. intros; by eapply Hsub.
  - destruct Hor as [[_ Hx]|[_ [v Hv]]]; [destruct Hto; done|].
    exists w1, v. split.
    + unfold bind, get, stack_of. rewrite Hc1, Hc. cbn [c_stack lookup list_lookup].
      rewrite Ht1, Hlm, Hv. reflexivity.
    + split_and!; auto. { intros; by eapply Hsub. } exists lm, m. auto.
Qed.

Lemma fire_inv n ev timeout w :
  inv w -> post (fire prog run_callback n ev timeout) w (fun _ w' => inv w').
Proof.
  intros Hi. unfold fire. mstep. apply post_gets. destruct (events w !! ev) as [e|] eqn:Hev; [|by apply post_ret].
  unfold event_del. do 2 mstep. pose proof (inv_event_del w ev Hi) as Hi1. set (w1 := set_events w (delete ev (events w))) in *.
  assert (forall w2 vs, inv w2 -> quiet w2 (ev_arg e) ->
    post (set_stack (ev_arg e) vs ;; run_thread prog n (ev_arg e))%sched w2 (fun _ w' => inv w')) as Hgo.
  { intros w2 vs Hi2 Hq2. unfold set_stack. do 2 mstep. apply run_thread_inv. by apply inv_alter_cor. }
  unfold event_triggered, signal_triggered, timeout_triggered, alarm_triggered, multi_event_triggered.
  destruct (ev_cb e) eqn:Hcb.
  - mstep. apply check_waiting_post; [done|]. apply Hgo; [done|]. apply single_event; auto.
  - mstep. apply check_waiting_post; [done|]. mstep. eapply end_all_quiet; [done|]. auto.
  - mstep. apply check_waiting_post; [done|]. apply Hgo; [done|]. apply single_event; auto.
  - mstep. apply check_waiting_post; [done|]. by apply alarm_thread_inv.
  - mstep. apply check_waiting_post; [done|]. mstep. eapply end_all_quiet; [done|]. intros w2 Hi2 Hq2 _ _ _ _ _.
    destruct timeout; [by apply Hgo|]. mstep. mstep. apply post_get.
    destruct (stack_of w2 (ev_arg e) !! 2) as [[]|]; try exact I. destruct (tabs w2 !! l) as [[]|]; try exact I. by apply (Hgo w2).
Qed.

Lemma fire_all_inv n fires : forall w,
  inv w -> post (fire_all prog run_callback n fires) w (fun _ w' => inv w').
Proof.
  induction fires as [|[ev timeout] fires IH]; intros w Hi; cbn [fire_all]; [by apply post_ret|].
  mstep. eapply post_mono; [by apply fire_inv|]. intros ? w' Hi'. by apply IH.
Qed.

Lemma start_threads_ready_inv n : forall b w,
  inv w -> post (start_threads_ready prog n b) w (fun _ w' => inv w').
Proof.
  induction n as [|n IH]; intros b w Hi; cbn [start_threads_ready]; [exact I|].
  mstep. apply post_gets. destruct (next_order (ready w)) as [|t ?]; [by apply post_ret|].
  mstep. apply post_modify. mstep.
  eapply post_mono; [apply (run_thread_inv (S n))|].
  - destruct Hi as [[] ? ?]. repeat split; auto.
  - intros ? w' Hi'. by apply IH.
Qed.

Lemma done_waiting_inv n keys : forall b w,
  inv w -> post (done_waiting_each prog n keys b) w (fun _ w' => inv w').
Proof.
  induction keys as [|t keys IH]; intros b w Hi; cbn [done_waiting_each]; [by apply post_ret|].
  mstep. apply post_gets. destruct (waiting_on w !! t); [|by apply IH].
  case_decide; [|by apply IH]. mstep. apply post_modify. mstep.
  eapply post_mono; [apply run_thread_inv|].
  - destruct Hi as [[] ? ?]. repeat split; auto.
  - intros ? w' Hi'. by apply IH.
Qed.

Lemma loop_once_inv n fires w :
  inv w -> post (ratchet_loop_once prog run_callback n fires) w (fun _ w' => inv w').
Proof.
  intros Hi. unfold ratchet_loop_once, start_threads_done_waiting, event_base_loop.
  mstep. eapply post_mono; [by apply start_threads_ready_inv|]. intros [] w1 Hi1; [by mstep|].
  mstep. mstep. apply post_gets.
  eapply post_mono; [by apply done_waiting_inv|]. intros [] w2 Hi2; [by mstep|].
  do 2 mstep. case_decide; [by mstep|]. do 2 mstep. apply post_get.
  case_decide; [by repeat mstep|]. destruct fires as [fs|]; [|by repeat mstep].
  mstep. eapply post_mono; [by apply fire_all_inv|]. intros ? w3 Hi3. by repeat mstep.
Qed.

Lemma new_inv f h : inv (ratchet_new f h).
Proof.
  split; [split| |]; cbn.
  - intros t c Hx. apply lookup_insert_Some in Hx as [[<- _]|[_ Hx]]; [lia|done].
  - done.
  - done.
  - done.
  - intros ev e Hx. done.
  - intros ev e Hx. done.
Qed.

(** ** Reachable worlds

    A program may call [loop_once] (alone or from [loop]), catch an error that comes
    out of it and go on, and call [break]. Between two calls the garbage collector
    may free events that no cleanup table of a thread refers to any more, those
    of threads that are loose, and deletes them. *)
Definition goes_on {A} (r : res A) : bool := match r with Ok _ | Raise _ | Abort_ _ => true | _ => false end.
Inductive reachable (f h : value) : world -> Prop :=
  | reach_new : reachable f h (ratchet_new f h)
  | reach_loop w w' n fires r :
      reachable f h w -> ratchet_loop_once prog run_callback n fires w = (w', r) -> goes_on r = true ->
      reachable f h w'
  | reach_break w w' : reachable f h w -> ratchet_break w = (w', Ok tt) -> reachable f h w'
  | reach_collect w ev e : reachable f h w -> events w !! ev = Some e -> ev_arg e ∈ loose w ->
      ev_cb e <> alarm_triggered_cb -> reachable f h (set_events w (delete ev (events w))).

Lemma reachable_inv f h w : reachable f h w -> inv w.
Proof.
  induction 1 as [|w w' n fires r _ IH Heq Hr|w w' _ IH Heq|w ev e _ IH _ _ _].
  - apply new_inv.
  - pose proof (loop_once_inv n fires w IH) as Hp. unfold post in Hp. rewrite Heq in Hp. by destruct r.
  - injection Heq as <-. destruct IH as [[] ? ?]. repeat split; auto.
  - by apply inv_event_del.
Qed.
End Run.
