(* ===== verification/SchedWait.v ===== *)
(** [ratchet.thread.wait_all]: the loop as a sequence of turns of threads; the set of
    threads a waiter waits for shrinks only when a thread of it ends, whatever the
    other threads do in their turns, and no event belongs to the waiter. *)

From stdpp Require Import prelude gmap strings.
From Stdlib Require Import ZArith Lia SpecFloat.
From S2P Require Import Prelude Double Lua Misc Sched SchedInv SchedRun.

(** [w] is later than a world in which identifiers below [N] were in use and
    [t] waited for [s0]: [t] still waits, for threads of [s0] only, those of [s0]
    it no longer waits for have ended, and no event but an alarm is its own. *)
Definition unwoken (t : nat) (w : world) : Prop :=
  forall ev e, events w !! ev = Some e -> ev_arg e = t -> ev_cb e = alarm_triggered_cb.
Definition shrunk (t N : nat) (s0 : gset nat) (w : world) : Prop :=
  N <= next_id w /\ unwoken t w /\
  exists s, waiting_on w !! t = Some s /\ s ⊆ s0 /\
    forall x, x ∈ s0 -> x < N -> x ∉ s -> x ∉ threads w.

#[export] Instance callback_eq_dec : EqDecision callback.
Proof. solve_decision. Defined.

Section Shrink.
Context (t N : nat) (s0 : gset nat).

(** A change of other fields. *)
Lemma shrunk_frame f :
  (forall w, next_id w <= next_id (f w) /\ waiting_on (f w) = waiting_on w /\ threads (f w) = threads w /\
    forall ev e, events (f w) !! ev = Some e -> ev_arg e = t -> ev_cb e <> alarm_triggered_cb -> events w !! ev = Some e) ->
  keeps (shrunk t N s0) (modify f).
Proof.
  intros Hf. apply keeps_modify. intros w (Hn & Hu & s & Hs & Hsub & Hx).
  destruct (Hf w) as (Hle & Hw & Ht & He). split; [lia|]. split; [|exists s; rewrite Hw, Ht; auto].
  intros ev e Hev Harg. destruct (decide (ev_cb e = alarm_triggered_cb)) as [|Hcb]; [done|]. eauto.
Qed.

Lemma shrunk_fresh : keeps (shrunk t N s0) fresh.
Proof. intros w [Hn Hs]. cbn. split; [cbn; lia|exact Hs]. Qed.
Lemma shrunk_event_del ev : keeps (shrunk t N s0) (event_del ev).
Proof. apply shrunk_frame. intros w. split_and!; [cbn; lia|done|done|]. cbn. by intros ev' e [_ ?]%lookup_delete_Some. Qed.
Lemma shrunk_event_add ev e : ev_arg e <> t \/ ev_cb e = alarm_triggered_cb -> keeps (shrunk t N s0) (event_add ev e).
Proof.
  intros Ho. apply shrunk_frame. intros w. split_and!; [cbn; lia|done|done|]. cbn. intros ev' e' [[<- <-]|[_ ?]]%lookup_insert_Some; [naive_solver|done].
Qed.
Lemma shrunk_throw {A} u e : keeps (shrunk t N s0) (throw_in (A := A) u e).
Proof. intros w Hw. exact Hw. Qed.
Hint Resolve shrunk_fresh shrunk_event_del shrunk_throw : sched.
Hint Extern 1 (keeps _ (event_add _ _)) => (apply shrunk_event_add; first [by right|by left]) : sched.
Hint Extern 2 (keeps _ (modify _)) => (apply shrunk_frame; intros ?; split_and!; [cbn; lia|done|done|done]) : sched.

Ltac wkeep := unfold set_thread_ready, push, set_stack, set_cor, new_table, set_table,
  check_table, use_tv, tv_arg, get_fd_from_object, note_drop, loosen in *; keep.

Lemma shrunk_event_del_all evs : keeps (shrunk t N s0) (event_del_all evs).
Proof. induction evs; cbn [event_del_all]; wkeep. Qed.
Hint Resolve shrunk_event_del_all : sched.
Lemma shrunk_end_all u : keeps (shrunk t N s0) (end_all_waiting_thread_events u).
Proof. unfold end_all_waiting_thread_events. wkeep. Qed.
Hint Resolve shrunk_end_all : sched.

(** The one operation that shrinks the set: the thread leaves [threads] first. *)
Lemma shrunk_end_persist u : keeps (shrunk t N s0) (end_thread_persist u).
Proof.
  intros w (Hn & Hu & s & Hs & Hsub & Hx). unfold end_thread_persist, bind, set_stack, modify, gets. cbn.
  destruct (alarm_events w !! u); cbn; (split; [exact Hn|]); (split; [intros ev e Hev; cbn in Hev; try apply lookup_delete_Some in Hev as [_ Hev]; by apply (Hu ev e)|]); cbn.
  all: exists (s ∖ {[u]}); rewrite lookup_fmap, Hs; split; [done|]; split; [set_solver|].
  all: intros x Hxs HxN Hnot; destruct (decide (x = u)); set_solver.
Qed.
Hint Resolve shrunk_end_persist : sched.

Lemma shrunk_handle e u : keeps (shrunk t N s0) (handle_thread_error e u).
Proof. unfold handle_thread_error. wkeep. Qed.
Hint Resolve shrunk_handle : sched.

Section Ops.
Context `{LuaConv, Objects, NextOrder}.
Context (prog : nat -> list value -> body).

Lemma shrunk_multi_add u kind lm ll objs : u <> t -> keeps (shrunk t N s0) (multi_add u kind lm ll objs).
Proof. intros Hne. induction objs as [|o objs IH]; cbn [multi_add]; wkeep. Qed.
Hint Resolve shrunk_multi_add : sched.

Lemma shrunk_yield_thread u : u <> t -> keeps (shrunk t N s0) (yield_thread u).
Proof.
  intros Hne. unfold yield_thread, wait_for_write, wait_for_read, wait_for_rw, wait_for_signal,
    wait_for_timeout, wait_for_multi; wkeep.
Qed.
Hint Resolve shrunk_yield_thread : sched.

Lemma shrunk_attach resumed self L : keeps (shrunk t N s0) (ratchet_attach resumed self L).
Proof.
  unfold ratchet_attach, with_get. destruct resumed; [|auto with sched].
  apply keeps_bind; [unfold check_ratchet; keep|intros []].
  destruct (drop 1 (Stk.insert L 1)) as [|f args]; [auto with sched|].
  intros w (Hn & Hu & s & Hs & Hsub & Hx). cbn. split; [cbn; lia|]. split; [exact Hu|]. exists s. cbn.
  split_and!; [done|done|]. intros x Hxs HxN Hnot. specialize (Hx x Hxs HxN Hnot).
  assert (x <> next_id w) by lia. set_solver.
Qed.
Hint Resolve shrunk_attach : sched.

Lemma shrunk_kill self u : keeps (shrunk t N s0) (kill_thread self u).
Proof. unfold kill_thread. keep. Qed.
Hint Resolve shrunk_kill : sched.
Lemma shrunk_kill_each self items : keeps (shrunk t N s0) (kill_each self items).
Proof. induction items as [|[] items IH]; cbn [kill_each]; keep. Qed.
Hint Resolve shrunk_kill_each : sched.

Lemma shrunk_waiting_other u s : u <> t ->
  keeps (shrunk t N s0) (modify (fun w => set_waiting w (<[u := s]> (waiting_on w)))).
Proof.
  intros Hne. apply keeps_modify. intros w (Hn & Hu & s' & Hs & Hsub & Hx). split; [exact Hn|]. split; [exact Hu|].
  exists s'. cbn. by rewrite lookup_insert_ne.
Qed.
Hint Resolve shrunk_waiting_other : sched.

Lemma shrunk_call f resumed self L : self <> t -> keeps (shrunk t N s0) (call f resumed self L).
Proof.
  intros Hne. destruct f; cbn [call]; auto with sched;
    unfold ratchet_block_on, ratchet_sigwait, ratchet_wait_all, ratchet_thread_space,
      ratchet_get_space, ratchet_running_thread, ratchet_timer, ratchet_pause, ratchet_unpause,
      ratchet_kill, ratchet_kill_all, ratchet_alarm, with_get, check_ratchet; cbv zeta; wkeep.
Qed.

Lemma keeps_try {A} P (m : M A) : keeps P m -> keeps P (try m).
Proof. intros Hm w Hw. specialize (Hm w Hw). unfold try. by destruct (m w) as [? []]. Qed.

Lemma shrunk_c_call u f resumed L k : u <> t -> (forall r, keeps (shrunk t N s0) (exec u (k r))) ->
  keeps (shrunk t N s0) (c_call u f resumed L k (exec u)).
Proof.
  intros Hne Hk. unfold c_call. apply keeps_bind; [by apply keeps_try, shrunk_call|].
  intros [e|[vs|vs|vs fr]]; unfold finish; wkeep.
Qed.

Lemma shrunk_exec u b : u <> t -> keeps (shrunk t N s0) (exec u b).
Proof.
  intros Hne. induction b as [vs|e|vs k IH|vs k IH|f args k IH]; cbn [exec]; unfold finish;
    [wkeep..|by apply shrunk_c_call].
Qed.

Lemma shrunk_lua_resume u : u <> t -> keeps (shrunk t N s0) (lua_resume prog u).
Proof.
  intros Hne. unfold lua_resume. apply keeps_bind; [wkeep|intros _].
  apply keeps_bind; [intros w; auto|intros w].
  destruct (cors w !! u) as [[[] s k]|]; [destruct s as [|[] s]|destruct k| |];
    unfold finish, running; try solve [wkeep];
    (apply keeps_bind; [wkeep|intros _]; first [by apply shrunk_exec|apply shrunk_c_call; auto using shrunk_exec]).
Qed.

Lemma shrunk_run_thread n u : u <> t -> keeps (shrunk t N s0) (run_thread prog n u).
Proof.
  intros Hne. induction n as [|n IH]; [by intros w|]. cbn [run_thread].
  apply keeps_bind; [by apply shrunk_lua_resume|]. intros []; wkeep.
Qed.
End Ops.
End Shrink.

(** ** The loop as turns *)
Section Turns.
Context `{LuaConv, Objects, NextOrder}.
Context (prog : nat -> list value -> body) (run_callback : value -> option value).

(** What the loop does next in [w], with the thread it resumes: one that is ready, one
    whose wait for other threads is over, or the owner of an event (nobody, when it is
    an alarm). *)
Inductive turn (w : world) : option nat -> world -> Prop :=
  | turn_ready n x r w' : x ∈ ready w -> run_thread prog n x (set_ready w (ready w ∖ {[x]})) = (w', r) ->
      goes_on r = true -> turn w (Some x) w'
  | turn_done n x r w' : waiting_on w !! x = Some ∅ ->
      run_thread prog n x (set_waiting w (delete x (waiting_on w))) = (w', r) -> goes_on r = true -> turn w (Some x) w'
  | turn_event n ev timeout e r w' : events w !! ev = Some e -> fire prog run_callback n ev timeout w = (w', r) ->
      goes_on r = true -> turn w (if decide (ev_cb e = alarm_triggered_cb) then None else Some (ev_arg e)) w'.

(** Several turns, with the world each starts in. *)
Inductive turns : world -> list (world * option nat) -> world -> Prop :=
  | turns_nil w : turns w [] w
  | turns_cons w x w1 l w' : turn w x w1 -> turns w1 l w' -> turns w ((w, x) :: l) w'.
Lemma turns_app w l w1 l' w' : turns w l w1 -> turns w1 l' w' -> turns w (l ++ l') w'.
Proof. induction 1; cbn; eauto using turns. Qed.

(** What is made of turns. *)
Definition by_turns {A} (m : M A) : Prop := forall w w' r, m w = (w', r) -> goes_on r = true -> exists l, turns w l w'.
Lemma by_turns_bind {A B} (m : M A) (f : A -> M B) : by_turns m -> (forall a, by_turns (f a)) -> by_turns (bind m f).
Proof.
  intros Hm Hf w w' r E Hr. unfold bind in E. specialize (Hm w). destruct (m w) as [w1 [a|e|e| |]];
    [|injection E as <- <-; by eauto..]. destruct (Hm _ _ eq_refl eq_refl) as [l Hl]. destruct (Hf a _ _ _ E Hr) as [l' Hl']. eauto using turns_app.
Qed.
Lemma by_turns_still {A} (m : M A) : (forall w, fst (m w) = w) -> by_turns m.
Proof. intros Hm w w' r E _. specialize (Hm w). rewrite E in Hm. cbn in Hm. subst w'. exists []. constructor. Qed.
Hint Extern 1 (by_turns (ret _)) => (apply by_turns_still; done) : sched.
Hint Extern 1 (by_turns (gets _)) => (apply by_turns_still; done) : sched.
Hint Extern 1 (by_turns get) => (apply by_turns_still; done) : sched.
Hint Extern 1 (by_turns (raise _)) => (apply by_turns_still; done) : sched.
Ltac by_turns_go := repeat first
  [ solve [eauto with sched] | progress cbv zeta | apply by_turns_bind; [|intros ?]
  | match goal with |- by_turns (match ?x with _ => _ end) => destruct x end ].

Lemma ready_turns n : forall b, by_turns (start_threads_ready prog n b).
Proof.
  induction n as [|n IH]; intros b; cbn [start_threads_ready]; [by intros w w' r [= <- <-]|].
  intros w w' r. unfold bind at 1, gets. destruct (next_order (ready w)) as [|x xs] eqn:E; [intros [= <- <-] _; eauto using turns|].
  assert (x ∈ ready w) as Hx by (apply elem_of_elements; rewrite <- (next_order_perm (ready w)), E; left).
  unfold bind at 1, modify, bind. destruct (run_thread _ _ _ _) as [w1 [[]|e|e| |]] eqn:Er; intros Hf Hr; try (by injection Hf as <- <-).
  - destruct (IH _ _ _ _ Hf Hr) as [l Hl]. eexists. eapply turns_cons; [by eapply turn_ready|exact Hl].
  - injection Hf as <- <-. eexists. eapply turns_cons; [by eapply turn_ready|constructor].
  - injection Hf as <- <-. eexists. eapply turns_cons; [by eapply turn_ready|constructor].
Qed.
Lemma done_turns n keys : forall b, by_turns (done_waiting_each prog n keys b).
Proof.
  induction keys as [|x keys IH]; intros b; cbn [done_waiting_each]; [by_turns_go|].
  intros w w' r. unfold bind at 1, gets. destruct (waiting_on w !! x) as [s|] eqn:E; [|by apply IH]. case_decide as Hs; [subst s|by apply IH].
  unfold bind at 1, modify, bind. destruct (run_thread _ _ _ _) as [w1 [[]|e|e| |]] eqn:Er; intros Hf Hr; try (by injection Hf as <- <-).
  - destruct (IH _ _ _ _ Hf Hr) as [l Hl]. eexists. eapply turns_cons; [by eapply turn_done|exact Hl].
  - injection Hf as <- <-. eexists. eapply turns_cons; [by eapply turn_done|constructor].
  - injection Hf as <- <-. eexists. eapply turns_cons; [by eapply turn_done|constructor].
Qed.
Lemma fire_turns n ev timeout : by_turns (fire prog run_callback n ev timeout).
Proof.
  intros w w' r Hf Hr. destruct (events w !! ev) as [e|] eqn:E.
  - eexists. eapply turns_cons; [by eapply turn_event|constructor].
  - unfold fire, bind, gets in Hf. rewrite E in Hf. injection Hf as <- <-. eauto using turns.
Qed.
Hint Resolve ready_turns done_turns fire_turns : sched.
Lemma fire_all_turns n fires : by_turns (fire_all prog run_callback n fires).
Proof. induction fires as [|[ev timeout] fires IH]; cbn [fire_all]; by_turns_go. Qed.
Hint Resolve fire_all_turns : sched.
(** An iteration of the loop is a sequence of turns, whatever its outcome. *)
Lemma loop_once_turns n fires : by_turns (ratchet_loop_once prog run_callback n fires).
Proof. unfold ratchet_loop_once, start_threads_done_waiting, event_base_loop. by_turns_go. Qed.

(** ** A waiter while others have their turns *)
Section Waiter.
Context (t N : nat) (s0 : gset nat).
Lemma keeps_result {A} P (m : M A) w w' r : keeps P m -> P w -> m w = (w', r) -> goes_on r = true -> P w'.
Proof. intros Hm Hw Heq Hr. specialize (Hm w Hw). rewrite Heq in Hm. by destruct r. Qed.

Lemma shrunk_fire n ev timeout w w' r e : events w !! ev = Some e -> ev_cb e = alarm_triggered_cb \/ ev_arg e <> t ->
  fire prog run_callback n ev timeout w = (w', r) -> goes_on r = true -> shrunk t N s0 w -> shrunk t N s0 w'.
Proof.
  intros Hev Hne Hf Hr Hw. unfold fire, bind at 1, gets in Hf. rewrite Hev in Hf.
  assert (forall u s, keeps (shrunk t N s0) (set_stack u s)) as Hset.
  { intros u s. apply shrunk_frame. intros ?. split_and!; [cbn; lia|done|done|done]. }
  pose proof (fun A => shrunk_throw t N s0 (A := A)) as Hthr.
  assert (forall u, keeps (shrunk t N s0) (check_waiting u)) as Hchk by (intros; unfold check_waiting; keep).
  assert (keeps (shrunk t N s0) get) as Hget by (intros ?; auto).
  pose proof (shrunk_end_all t N s0) as Hend. pose proof (shrunk_end_persist t N s0) as Hper.
  pose proof (shrunk_handle t N s0) as Hhan.
  refine (keeps_result _ _ _ _ _ _ Hw Hf Hr). apply keeps_bind; [apply shrunk_event_del|intros _].
  unfold event_triggered, signal_triggered, timeout_triggered, alarm_triggered, alarm_thread, multi_event_triggered.
  destruct (ev_cb e) eqn:Hcb; [| | |keep|]; (destruct Hne as [|Hne]; [done|]);
    (assert (forall n, keeps (shrunk t N s0) (run_thread prog n (ev_arg e))) as Hrun by (intros; by apply shrunk_run_thread)); keep.
Qed.
Lemma shrunk_turn w x w' : turn w x w' -> x <> Some t -> shrunk t N s0 w -> shrunk t N s0 w'.
Proof.
  intros [n u r w1 _ Hm Hr|n u r w1 Hu Hm Hr|n ev to e r w1 Hev Hm Hr] Hx Hw.
  - refine (keeps_result _ _ _ _ _ (shrunk_run_thread t N s0 prog n u _) _ Hm Hr); [congruence|exact Hw].
  - refine (keeps_result _ _ _ _ _ (shrunk_run_thread t N s0 prog n u _) _ Hm Hr); [congruence|].
    destruct Hw as (Hn & Hev & s & Hs & Hsub & Hd). split; [exact Hn|]. split; [exact Hev|]. exists s. cbn. rewrite lookup_delete_ne by congruence. auto.
  - eapply shrunk_fire; [exact Hev| |exact Hm|exact Hr|exact Hw]. case_decide; [by left|right; congruence].
Qed.
(** The waiter itself has its turn only when it was made ready, or its set is empty. *)
Lemma waiter_turn w w' : turn w (Some t) w' -> unwoken t w -> t ∈ ready w \/ waiting_on w !! t = Some ∅.
Proof.
  intros Ht Hu. inversion Ht as [|n x r w1 Hx _ _|n ev to e r w1 Hev _ _ Hl]; subst; [by left|by right|].
  case_decide as Hcb; [done|]. injection Hl as Hl. by destruct Hcb; eapply Hu.
Qed.
End Waiter.
End Turns.
