(* ===== verification/SchedThm.v ===== *)
(** Properties of the scheduler of ratchet.c. *)

From stdpp Require Import prelude gmap strings.
From Stdlib Require Import ZArith Lia SpecFloat.
From S2P Require Import Prelude Double Lua Misc Sched SchedInv SchedRun SchedWait.

(** ** A concrete instance, used to evaluate the definitions

    Descriptors are userdata, no string converts to a number, and [lua_next]
    visits keys in increasing order. *)
Module Demo.
#[export] Instance conv : LuaConv := {| str2number _ := None; number2str _ := "" |}.
#[export] Instance objects : Objects := {|
  get_fd v := match v with VUd n => inr (Z.of_nat n) | _ => inl (VStr "no get_fd") end;
  get_timeout _ := None |}.
#[export] Instance order : NextOrder := {| next_order s := elements s; next_order_perm s := reflexivity _ |}.

(** Function 0 blocks on descriptor 5 and returns; function 1 does nothing. *)
Definition blocker (f : nat) (args : list value) : body :=
  match f with
  | 0 => BYield [VLight YIELD_READ; VUd 5] (fun vs => BRet vs)
  | _ => BRet []
  end.
Definition no_callback (v : value) : option value := None.

(** The world after one and two iterations of the loop. *)
Definition started : world := fst (ratchet_loop_once blocker no_callback 9 None (ratchet_new (VFun 0) VNil)).
End Demo.
Import Demo.

(** ** Helper lemmas *)
Lemma wait_set_spec w self items s : wait_set w self items = Some s ->
  forall x, x ∈ s <-> VThread x ∈ items /\ finished w self x = false.
Proof.
  revert s. induction items as [|v items IH]; cbn [wait_set].
  - intros s [= <-] x. split; [set_solver|intros [Hx _]; inversion Hx].
  - intros s Hs x. destruct v; try done. destruct (wait_set w self items) as [s0|]; [|done].
    cbn in Hs. injection Hs as <-. specialize (IH s0 eq_refl x). rewrite elem_of_cons.
    destruct (finished w self t) eqn:E.
    + rewrite IH. split; [naive_solver|]. intros [[[= <-]|Hx] Hf]; [congruence|auto].
    + rewrite elem_of_union, elem_of_singleton, IH. split; [|naive_solver].
      intros [->|[]]; auto.
Qed.

Section Lemmas.
Context `{LuaConv, Objects, NextOrder}.
Context (prog : nat -> list value -> body) (run_callback : value -> option value).

(** What the value of an event's thread is when the event fires: see
    [event_wakes_owner]. *)
Definition resume_values (w : world) (e : event) (timeout : bool) (vs : list value) : Prop :=
  match ev_cb e with
  | event_triggered_cb | signal_triggered_cb => vs = [VBool (negb timeout)]
  | timeout_triggered_cb => vs = []
  | multi_event_triggered_cb =>
      if timeout then vs = [VBool false]
      else exists lm m v, stack_of w (ev_arg e) !! 2 = Some (VTab lm) /\
             tabs w !! lm = Some (TFdMap m) /\ m !! event_fd e = Some v /\ vs = [v]
  | alarm_triggered_cb => False
  end.

Lemma done_waiting_false n keys : forall b w w',
  done_waiting_each prog n keys b w = (w', Ok false) ->
  b = false /\ w' = w /\ forall t, t ∈ keys -> waiting_on w !! t <> Some ∅.
Proof.
  induction keys as [|t keys IH]; intros b w w'; cbn [done_waiting_each].
  - intros [= <- <-]. split_and!; [done..|]. intros t Ht. inversion Ht.
  - unfold bind at 1, gets.
    assert (forall w1, waiting_on w !! t <> Some ∅ ->
      done_waiting_each prog n keys b w = (w1, Ok false) ->
      b = false ∧ w1 = w ∧ (∀ t0 : nat, t0 ∈ t :: keys → waiting_on w !! t0 ≠ Some ∅)) as Hskip.
    { intros w1 Hne Heq. apply IH in Heq as (-> & -> & Hk). split_and!; [done..|].
      intros t0 [->|Ht]%elem_of_cons; auto. }
    destruct (waiting_on w !! t) as [s|]; [|by apply Hskip].
    case_decide as Hs; [|apply Hskip; congruence].
    unfold bind. cbn. destruct (run_thread prog n t _) as [w1 []]; try done.
    intros (? & _)%IH. done.
Qed.

Lemma ready_false n : forall b w w',
  start_threads_ready prog n b w = (w', Ok false) -> b = false /\ w' = w /\ ready w = ∅.
Proof.
  induction n as [|n IH]; intros b w w'; [done|]. cbn [start_threads_ready].
  unfold bind at 1, gets. destruct (next_order (ready w)) as [|t ts] eqn:E.
  - intros [= <- <-]. split_and!; [done..|].
    pose proof (next_order_perm (ready w)) as Hp. rewrite E in Hp.
    symmetry in Hp. apply Permutation_nil_r in Hp. by apply elements_empty_inv, leibniz_equiv in Hp.
  - unfold bind, modify. cbn beta iota.
    destruct (run_thread prog (S n) t (set_ready w (ready w ∖ {[t]}))) as [w1 []]; try done.
    intros (? & _)%IH. done.
Qed.

(** [t] is suspended in [wait_all], and waits for [s0]: its cleanup table is the one
    [ratchet_wait_all] leaves, which holds no event. *)
Definition in_wait_all (w : world) (t : nat) (s0 : gset nat) : Prop :=
  waiting_on w !! t = Some s0 /\
  exists l k, cors w !! t = Some (Cor LUA_YIELD [VThread main_thread; VTab l] k) /\ tabs w !! l = Some (TCleanup None None).

Lemma in_wait_all_unwoken w t s0 : inv w -> t ∉ loose w -> in_wait_all w t s0 -> unwoken t w.
Proof.
  intros Hi Hl (_ & l & k & Hc & Ht) ev e Hev <-. destruct (decide (ev_cb e = alarm_triggered_cb)) as [|Hcb]; [done|].
  destruct (inv_waits _ Hi ev e Hev Hcb Hl) as (l' & rest & k' & Hc' & Hr). rewrite Hc in Hc'. injection Hc' as <- <- <-.
  unfold recorded in Hr. destruct (ev_cb e); naive_solver.
Qed.

Lemma quiet_unwoken w t : quiet w t -> t ∉ loose w -> unwoken t w.
Proof. intros Hq Hl ev e Hev <-. destruct (decide (ev_cb e = alarm_triggered_cb)) as [|Hcb]; [done|]. by destruct Hl; eapply Hq. Qed.

Lemma shrunk_turns t N s0 w l w' : turns prog run_callback w l w' -> (forall w1, (w1, Some t) ∉ l) ->
  shrunk t N s0 w -> shrunk t N s0 w'.
Proof.
  induction 1 as [|w x w1 l w' Ht _ IH]; intros Hl Hw; [done|]. apply IH.
  - intros w2 Hin. apply (Hl w2). by right.
  - eapply shrunk_turn; [exact Ht| |exact Hw]. intros ->. apply (Hl w). left.
Qed.
End Lemmas.

(** ** Theorems *)
Section Theorems.
Context `{LuaConv, Objects, NextOrder}.
Context (prog : nat -> list value -> body) (run_callback : value -> option value).

(** C1: in every world a program can reach by running the loop, libevent and the
    coroutines agree: each pending descriptor, timer or signal event belongs to
    a coroutine suspended in the scheduler whose cleanup table records that
    event in the shape its callback relies on, each pending alarm is the one
    recorded for its thread, and identifiers are never reused. The runs are those of
    any program, errors raised by the loop and caught by its caller included. The one
    exception are threads that were [unpause]d or resumed while an event of theirs was
    pending, or whose [block_on] failed half way ([loose]): the code leaves their
    events behind. *)
Theorem scheduler_invariant f h w : reachable prog run_callback f h w -> inv w.
Proof. apply reachable_inv. Qed.


(** [wait_all] records exactly the listed threads that have not finished,
    and suspends the caller. *)
Theorem wait_all_records self L l vs s w :
  self <> main_thread -> L = [VTab l; ratchet_object] -> tabs w !! l = Some (TArr vs) ->
  wait_set w self (until_nil vs) = Some s ->
  ratchet_wait_all true self L w
    = (set_waiting w (<[self := s]> (waiting_on w)), Ok (CYield [VLight YIELD_WAITALL])) /\
  forall x, x ∈ s <-> VThread x ∈ until_nil vs /\ finished w self x = false.
Proof.
  intros Hm -> Hl Hs. split; [|by apply wait_set_spec].
  unfold ratchet_wait_all, with_get, check_ratchet, check_table.
  change (Stk.insert [VTab l; ratchet_object] 1) with [ratchet_object; VTab l].
  rewrite decide_True by done. cbn -[decide]. rewrite decide_False by done.
  unfold bind, gets. cbn. rewrite Hl. by rewrite Hs.
Qed.


(** [loop_once] tells [loop] to stop only when nothing is left to do: no
    thread is ready, none is due to be resumed from [wait_all], no thread is
    left, and it has changed nothing. *)
Theorem loop_stops_only_when_idle n fires w w' :
  ratchet_loop_once prog run_callback n fires w = (w', Ok false) ->
  w' = w /\ ready w = ∅ /\ threads w = ∅ /\ forall t, waiting_on w !! t <> Some ∅.
Proof.
  unfold ratchet_loop_once, bind.
  destruct (start_threads_ready prog n false w) as [w1 [[]| | | |]] eqn:E1; try done.
  apply ready_false in E1 as (_ & -> & Hr).
  destruct (start_threads_done_waiting prog n w) as [w2 [[]| | | |]] eqn:E2; try done.
  unfold start_threads_done_waiting, bind, gets in E2.
  apply done_waiting_false in E2 as (_ & -> & Hk). cbn.
  case_decide as Ht.
  - intros [= <-]. split_and!; try done. intros t Heq. eapply Hk; [|exact Heq].
    rewrite next_order_perm, elem_of_elements. apply elem_of_dom. eauto.
  - unfold event_base_loop, bind, get. case_decide; [done|].
    destruct fires as [fs|]; [|done]. destruct (fire_all _ _ _ fs w) as [? []]; done.
Qed.

(** [attach] creates a coroutine that no table or event knew before, with
    the function and arguments on its stack, keeps it alive and makes it ready;
    the caller gets the thread. *)
Theorem attach_starts_thread self f args w :
  bounded w ->
  exists w', ratchet_attach true self (f :: args ++ [ratchet_object]) w
               = (w', Ok (CRet [VThread (next_id w)])) /\
    cors w !! next_id w = None /\
    cors w' = <[next_id w := Cor LUA_OK (f :: args) KCall]> (cors w) /\
    threads w' = {[next_id w]} ∪ threads w /\ ready w' = {[next_id w]} ∪ ready w /\
    events w' = events w /\ waiting_on w' = waiting_on w.
Proof.
  intros Hb. eexists. split.
  - unfold ratchet_attach, with_get. rewrite app_comm_cons, Stk.insert_1. reflexivity.
  - split; [|done]. destruct (cors w !! next_id w) as [c|] eqn:E; [|done].
    apply (bd_cors _ Hb) in E. lia.
Qed.
End Theorems.

(** ** Defects of the scheduler

    Each is a run of the model or a general statement about the operation. *)
Section Defects.
Context `{LuaConv, Objects, NextOrder}.
Context (prog : nat -> list value -> body) (run_callback : value -> option value).

(** killing a thread that is ready but was never started does not take it
    out of the ready table: the loop then resumes it with an empty stack, that
    is with -1 arguments, which the Lua API leaves undefined. *)
Theorem kill_leaves_ready self t w w' n :
  kill_thread self t w = (w', Ok tt) -> t ∈ ready w -> status_of w t = LUA_OK -> is_Some (cors w !! t) ->
  t ∉ threads w' /\ t ∈ ready w' /\ snd (run_thread prog (S n) t w') = Undef.
Proof.
  unfold kill_thread. case_decide as Hd; [done|]. unfold bind at 1, gets.
  intros Hk Hr Hs [c Hc]. rewrite Hs in Hk.
  unfold status_of in Hs. rewrite Hc in Hs. destruct c as [st s k]. cbn in Hs. subst st.
  unfold end_thread_persist, bind, set_stack, modify, gets, ret in Hk. cbn in Hk.
  destruct (alarm_events w !! t); injection Hk as <-; split_and!; [set_solver|exact Hr| |set_solver|exact Hr|].
  all: unfold run_thread, lua_resume, note_drop, loosen, busy, cleanup_event, cleanup_event_list, stack_of, bind, gets, get;
    cbn; rewrite !lookup_alter_eq, Hc; cbn; by rewrite lookup_alter_eq, Hc.
Qed.

(** [timer] with a negative time uses an uninitialised timeval: the status
    that [gettimeval_arg] returns is ignored. *)
Theorem timer_negative_undefined t secs w :
  dlt secs (S754_zero false) = true -> snd (wait_for_timeout t [VNum secs] w) = Undef.
Proof. intros Hn. unfold wait_for_timeout, gettimeval_arg, gettimeval. cbn. by rewrite Hn. Qed.
End Defects.

(** A program in which a thread is killed while it waits: the entry thread
    starts B, which sleeps, and A, which waits for B; then it kills A. *)
Definition killer (f : nat) (args : list value) : body :=
  match f, args with
  | 0, _ =>
      BCall F_attach [VFun 2] (fun r => match r with inr [b] =>
        BTab [b] (fun tb => BCall F_attach [VFun 1; tb] (fun r => match r with inr [a] =>
          BCall F_timer [VNum (of_Z 1)] (fun _ => BCall F_kill [a] (fun _ => BRet []))
        | _ => BRet [] end)) | _ => BRet [] end)
  | 1, tb :: _ => BCall F_wait_all [tb] (fun _ => BErr (VStr "killed thread runs"))
  | _, _ => BCall F_timer [VNum (of_Z 2)] (fun _ => BRet [])
  end.

(** Each iteration, every pending event fires. *)
Definition fire_pending (n : nat) (w : world) : world * res bool :=
  ratchet_loop_once killer no_callback n (Some ((fun x => (x.1, true)) <$> map_to_list (events w))) w.

(** a killed thread is run again. The entry of a killed waiter in
    [waiting_on] survives [end_thread_persist]; when the thread it waited for
    ends, the loop resumes it. Here the killed thread 4 raises an error after
    its death, which the error handler records. *)
Theorem killed_waiter_runs :
  let w1 := fst (ratchet_loop_once killer no_callback 20 None (ratchet_new (VFun 0) (VFun 9))) in
  let main_timer := (fun x => (x.1, true)) <$>
    filter (fun x => ev_arg x.2 = 1) (map_to_list (events w1)) in
  let w2 := fst (ratchet_loop_once killer no_callback 20 (Some main_timer) w1) in
  let w3 := fst (fire_pending 20 w2) in
  let w4 := fst (fire_pending 20 w3) in
  bool_decide (4 ∈ threads w1) = true /\ bool_decide (4 ∈ threads w2) = false /\
  handled w3 = [] /\ handled w4 = [(VStr "killed thread runs", 4)].
Proof. vm_compute. repeat split. Qed.

(** A program in which a thread waits for one that was killed: the entry thread
    starts A, which pauses, kills it and waits for it. *)
Definition waiter (f : nat) (args : list value) : body :=
  match f with
  | 0 =>
      BCall F_attach [VFun 1] (fun r => match r with inr [a] =>
        BCall F_timer [VNum (of_Z 1)] (fun _ => BCall F_kill [a] (fun _ =>
          BTab [a] (fun ta => BCall F_wait_all [ta] (fun _ => BRet []))))
      | _ => BRet [] end)
  | _ => BCall F_pause [] (fun _ => BRet [])
  end.

(** waiting for a thread that was killed while it was suspended never ends.
    Its coroutine keeps the status LUA_YIELD, so [wait_all] counts it as
    running, and the loop ends in a deadlock error. *)
Theorem wait_all_on_killed_deadlocks :
  let w1 := fst (ratchet_loop_once waiter no_callback 20 None (ratchet_new (VFun 0) VNil)) in
  let r2 := ratchet_loop_once waiter no_callback 20
    (Some ((fun x => (x.1, true)) <$> map_to_list (events w1))) w1 in
  let r3 := ratchet_loop_once waiter no_callback 20 (Some []) (fst r2) in
  snd r2 = Ok true /\ elements (threads (fst r2)) = [1] /\ snd r3 = Raise deadlock_error.
Proof. vm_compute. repeat split. Qed.

(** A program whose entry thread waits for a thread that ends at once, and
    raises the first value [wait_all] returned. *)
Definition leaker (f : nat) (args : list value) : body :=
  match f with
  | 0 =>
      BCall F_attach [VFun 1] (fun r => match r with inr [a] =>
        BTab [a] (fun ta => BCall F_wait_all [ta] (fun r => match r with
          | inr (v :: VTab _ :: _) => BErr v | _ => BRet [] end))
      | _ => BRet [] end)
  | _ => BRet []
  end.

(** [wait_all] returns values it should not: the loop resumes the waiter
    without clearing its stack, so the Lua call returns the main thread and the
    cleanup table, where the documentation says it returns nothing. *)
Theorem wait_all_leaks_stack :
  let w1 := fst (ratchet_loop_once leaker no_callback 20 None (ratchet_new (VFun 0) (VFun 9))) in
  let r2 := ratchet_loop_once leaker no_callback 20 None w1 in
  snd r2 = Ok true /\ handled (fst r2) = [(VThread main_thread, 1)].
Proof. vm_compute. repeat split. Qed.

(** A program in which a thread is unpaused out of a timer: the entry thread starts A,
    which sleeps and returns, and unpauses it after a shorter sleep. *)
Definition unpauser (f : nat) (args : list value) : body :=
  match f with
  | 0 =>
      BCall F_attach [VFun 1] (fun r => match r with inr [a] =>
        BCall F_timer [VNum (of_Z 1)] (fun _ => BCall F_unpause [a] (fun _ => BCall F_pause [] (fun _ => BRet [])))
      | _ => BRet [] end)
  | _ => BCall F_timer [VNum (of_Z 2)] (fun _ => BRet [])
  end.

(** [unpause] does not test that the thread is paused: a thread that sleeps is made
    ready, and runs to its end, while its timer stays pending. When the timer
    fires, its callback finds no thread and throws an internal error out of the loop. *)
Theorem unpaused_wait_breaks :
  let step fires w := ratchet_loop_once unpauser no_callback 20 fires w in
  let due t w := Some ((fun x => (x.1, true)) <$> filter (fun x => ev_arg x.2 = t) (map_to_list (events w))) in
  let w1 := fst (step None (ratchet_new (VFun 0) VNil)) in
  let w2 := fst (step (due 1 w1) w1) in
  let w3 := fst (step None w2) in
  elements (threads w1) = [2; 1] /\ elements (threads w3) = [1] /\ length (map_to_list (events w3)) = 1 /\
  snd (step (due 2 w3) w3) = Abort_ (VStr "ratchet internal error.").
Proof. vm_compute. repeat split. Qed.

(** ** Witnesses *)
Module Witnesses.
Definition started_reachable : reachable blocker no_callback (VFun 0) VNil started.
Proof.
  eapply (reach_loop _ _ _ _ _ _ 9 None); [apply reach_new|unfold started; vm_compute; reflexivity|reflexivity].
Defined.

Lemma scheduler_invariant_witness : inv started.
Proof. apply (scheduler_invariant blocker no_callback (VFun 0) VNil). exact started_reachable. Defined.


Definition two_waiting : world :=
  World {[1; 2]} ∅ ∅ ∅ ∅ ∅ false VNil
    {[1 := Cor LUA_OK [] KCall; 2 := Cor LUA_YIELD [VThread 0] (KLua (fun vs => BRet vs));
      3 := Cor LUA_ERR [] KCall]} {[4 := TArr [VThread 2; VThread 3; VNil; VThread 1]]} ∅ 5 [] ∅.

Lemma wait_all_records_witness :
  ratchet_wait_all true 1 [VTab 4; ratchet_object] two_waiting
    = (set_waiting two_waiting (<[1 := {[2]}]> ∅), Ok (CYield [VLight YIELD_WAITALL])) /\
  forall x, x ∈ ({[2]} : gset nat) <-> VThread x ∈ [VThread 2; VThread 3] /\ finished two_waiting 1 x = false.
Proof.
  apply (wait_all_records 1 [VTab 4; ratchet_object] 4 [VThread 2; VThread 3; VNil; VThread 1] {[2]} two_waiting);
    [discriminate|reflexivity|reflexivity|vm_compute; reflexivity].
Defined.

(** Function 0 starts a thread that sleeps for a second, and waits for it. *)
Definition joiner (f : nat) (args : list value) : body :=
  match f with
  | 0 =>
      BCall F_attach [VFun 1] (fun r => match r with inr [a] =>
        BTab [a] (fun ta => BCall F_wait_all [ta] (fun _ => BRet []))
      | _ => BRet [] end)
  | _ => BCall F_timer [VNum (of_Z 1)] (fun _ => BRet [])
  end.

(** Thread 1 waits for thread 2, which sleeps; then the sleep is over. *)
Definition joining : world := fst (ratchet_loop_once joiner no_callback 20 None (ratchet_new (VFun 0) VNil)).
Definition joined : world := fst (fire joiner no_callback 9 6 true joining).


Definition idle : world := setup_persistance_tables VNil.

Lemma loop_stops_only_when_idle_witness :
  idle = idle /\ ready idle = ∅ /\ threads idle = ∅ /\ forall t, waiting_on idle !! t <> Some ∅.
Proof.
  apply (loop_stops_only_when_idle blocker no_callback 3 None idle idle). vm_compute. reflexivity.
Defined.

Lemma attach_starts_thread_witness :
  exists w', ratchet_attach true 7 (VFun 0 :: [VNil] ++ [ratchet_object]) idle = (w', Ok (CRet [VThread 1])) /\
    cors idle !! 1 = None /\ cors w' = <[1 := Cor LUA_OK [VFun 0; VNil] KCall]> (cors idle) /\
    threads w' = {[1]} ∪ threads idle /\ ready w' = {[1]} ∪ ready idle /\
    events w' = events idle /\ waiting_on w' = waiting_on idle.
Proof. apply (attach_starts_thread 7 (VFun 0) [VNil] idle). split; discriminate. Defined.

Lemma kill_leaves_ready_witness :
  let w := ratchet_new (VFun 0) VNil in
  let w' := fst (kill_thread 2 1 w) in
  1 ∉ threads w' /\ 1 ∈ ready w' /\ snd (run_thread blocker (S 4) 1 w') = Undef.
Proof.
  apply (kill_leaves_ready blocker 2 1 (ratchet_new (VFun 0) VNil)).
  - vm_compute. reflexivity.
  - set_solver.
  - reflexivity.
  - exists (Cor LUA_OK [VFun 0] KCall). reflexivity.
Defined.

Lemma timer_negative_undefined_witness :
  snd (wait_for_timeout 1 [VNum (of_Z (-1))] idle) = Undef.
Proof. apply (timer_negative_undefined 1 (of_Z (-1)) idle). vm_compute. reflexivity. Defined.
End Witnesses.
