(* ===== verification/LuaC.v ===== *)
(** C functions of a Lua module: the stack of the running function, tables,
    userdata, system calls, and the machine that calls, yields and resumes.

    The functions of exec.c, socket.c and timerfd.c work on a Lua stack of their
    own, call each other with [lua_callk] and give up the coroutine with
    [lua_yieldk]. A function is a computation of type [C]; where it hands
    control to another it says so with a value of the type [next], and [step]
    does what the Lua core does: it makes the frame of the callee, hands results
    back to the caller's continuation, or suspends the whole stack of frames
    until the scheduler resumes it (Lua 5.2 Reference Manual, 4.1 to 4.7). *)

From stdpp Require Import prelude gmap strings.
From Stdlib Require Import ZArith Lia SpecFloat.
From S2P Require Import Prelude Double Lua.
Local Open Scope Z_scope.

(** A table with string keys and integer keys. *)
Record tab := Tab { t_fields : gmap string value; t_arr : gmap Z value }.

(** A full userdata: its metatable, its memory block and its uservalue. *)
Record udata (mem : Type) := UData { ud_meta : option string; ud_mem : mem; ud_uv : value }.
Arguments UData {mem} ud_meta ud_mem ud_uv.
Arguments ud_meta {mem} u.
Arguments ud_mem {mem} u.
Arguments ud_uv {mem} u.

(** What the functions share: the heap and the operating system. *)
Record lstate (mem os : Type) := LState {
  ls_tabs : gmap nat tab;
  ls_uds : gmap nat (udata mem);
  ls_next : nat;
  ls_os : os;
}.
Arguments LState {mem os} ls_tabs ls_uds ls_next ls_os.
Arguments ls_tabs {mem os} l.
Arguments ls_uds {mem os} l.
Arguments ls_next {mem os} l.
Arguments ls_os {mem os} l.

Definition set_ls_tabs {mem os} (s : lstate mem os) t : lstate mem os := LState t (ls_uds s) (ls_next s) (ls_os s).
Definition set_ls_uds {mem os} (s : lstate mem os) u : lstate mem os := LState (ls_tabs s) u (ls_next s) (ls_os s).
Definition set_ls_next {mem os} (s : lstate mem os) n : lstate mem os := LState (ls_tabs s) (ls_uds s) n (ls_os s).
Definition set_ls_os {mem os} (s : lstate mem os) o : lstate mem os := LState (ls_tabs s) (ls_uds s) (ls_next s) o.

(** The outcome of C code: a value with the stack and state it leaves, a Lua
    error, or a use of the API or of memory that C leaves undefined. *)
Inductive cres (mem os A : Type) :=
  | CVal (a : A) (stk : list value) (s : lstate mem os)
  | CErr (e : value) (s : lstate mem os)
  | CUB.
Arguments CVal {mem os A} a stk s.
Arguments CErr {mem os A} e s.
Arguments CUB {mem os A}.

Definition C (mem os A : Type) : Type := list value -> lstate mem os -> cres mem os A.

#[export] Instance C_ret mem os : MRet (C mem os) := fun A a k s => CVal a k s.
#[export] Instance C_bind mem os : MBind (C mem os) := fun A B f m k s =>
  match m k s with
  | CVal a k' s' => f a k' s'
  | CErr e s' => CErr e s'
  | CUB => CUB
  end.

(** How a function hands over control: [return n], [goto] another state of
    itself, [lua_callk] with [nargs] arguments for [nres] results and [ctx], or
    [lua_yieldk] with [n] values and [ctx]. *)
Inductive next :=
  | NRet (n : nat)
  | NGoto (ctx : Z)
  | NCall (nargs nres : nat) (ctx : Z)
  | NYield (n : nat) (ctx : Z).

(** A caller waiting for its callee: its function, the context of its
    continuation, its stack and the number of results it wants. *)
Record frame := Frame { fr_fun : nat; fr_ctx : Z; fr_stk : list value; fr_nres : nat }.

(** Results adjusted to the number the caller asked for. *)
Definition adjust (vs : list value) (n : nat) : list value := take n vs ++ replicate (n - length vs) VNil.

Section Api.
Context {mem os : Type}.
Implicit Types k : list value.
Implicit Types s : lstate mem os.
Abbreviation M := (C mem os).

Definition cub {A} : M A := fun _ _ => CUB.
Definition craise {A} (e : value) : M A := fun _ s => CErr e s.
Definition gstate : M (lstate mem os) := fun k s => CVal s k s.
Definition pstate (s : lstate mem os) : M unit := fun k _ => CVal tt k s.
Definition gstack : M (list value) := fun k s => CVal k k s.
Definition pstack (k : list value) : M unit := fun _ s => CVal tt k s.

(** A system call. *)
Definition sys {A} (f : os -> os * A) : M A := fun k s =>
  let '(o, a) := f (ls_os s) in CVal a k (set_ls_os s o).

(** The position of a valid index. *)
Definition pos (k : list value) (i : Z) : option nat :=
  let n := Z.of_nat (length k) in
  if (0 <? i) && (i <=? n) then Some (Z.to_nat (i - 1))
  else if (i <? 0) && (- n <=? i) then Some (Z.to_nat (n + i))
  else None.

(** *** Stack *)
Definition lua_value (i : Z) : M slot := fun k s =>
  CVal (match pos k i with Some p => k !! p | None => None end) k s.
Definition lua_push (v : value) : M unit := fun k s => CVal tt (k ++ [v]) s.
(** An index above the top is acceptable and reads as nil. *)
Definition lua_pushvalue (i : Z) : M unit := fun k s =>
  match pos k i with
  | Some p => match k !! p with Some v => CVal tt (k ++ [v]) s | None => CUB end
  | None => if 0 <? i then CVal tt (k ++ [VNil]) s else CUB
  end.
Definition lua_settop (n : nat) : M unit := fun k s => CVal tt (Stk.settop VNil k n) s.
Definition lua_pop (n : nat) : M unit := fun k s =>
  if (n <=? length k)%nat then CVal tt (take (length k - n) k) s else CUB.
Definition lua_insert (i : Z) : M unit := fun k s =>
  match pos k i, last k with
  | Some p, Some v => CVal tt (take p k ++ v :: drop p (take (length k - 1) k)) s
  | _, _ => CUB
  end.
Definition lua_remove (i : Z) : M unit := fun k s =>
  match pos k i with Some p => CVal tt (take p k ++ drop (S p) k) s | None => CUB end.
Definition lua_replace (i : Z) : M unit := fun k s =>
  match pos k i, last k with
  | Some p, Some v => CVal tt (take (length k - 1) (<[p := v]> k)) s
  | _, _ => CUB
  end.
(** Take the value on the top of the stack. *)
Definition take_top : M value := fun k s =>
  match last k with Some v => CVal v (take (length k - 1) k) s | None => CUB end.

(** *** Tables *)
Definition no_index {A} : M A := craise (VStr "attempt to index a value").

Definition rawget (t : tab) (n : Z) : value := default VNil (t_arr t !! n).
Definition rawset (t : tab) (n : Z) (v : value) : tab :=
  Tab (t_fields t) (match v with VNil => delete n (t_arr t) | _ => <[n := v]> (t_arr t) end).
Definition field (t : tab) (f : string) : value := default VNil (t_fields t !! f).
Definition set_field (t : tab) (f : string) (v : value) : tab :=
  Tab (match v with VNil => delete f (t_fields t) | _ => <[f := v]> (t_fields t) end) (t_arr t).

Definition lua_createtable : M unit := fun k s =>
  let l := ls_next s in
  CVal tt (k ++ [VTab l]) (set_ls_next (set_ls_tabs s (<[l := Tab ∅ ∅]> (ls_tabs s))) (S l)).
Definition get_tab (l : nat) : M tab := fun k s =>
  match ls_tabs s !! l with Some t => CVal t k s | None => CUB end.
Definition put_tab (l : nat) (t : tab) : M unit := fun k s =>
  CVal tt k (set_ls_tabs s (<[l := t]> (ls_tabs s))).

Definition lua_rawgeti (i n : Z) : M unit :=
  v ← lua_value i;
  match v with
  | Some (VTab l) => t ← get_tab l; lua_push (rawget t n)
  | _ => cub
  end.
Definition lua_rawseti (i n : Z) : M unit :=
  v ← lua_value i;
  match v with
  | Some (VTab l) => x ← take_top; t ← get_tab l; put_tab l (rawset t n x)
  | _ => cub
  end.
Definition lua_setfield (i : Z) (f : string) : M unit :=
  v ← lua_value i;
  match v with
  | Some (VTab l) => x ← take_top; t ← get_tab l; put_tab l (set_field t f x)
  | _ => no_index
  end.

(** *** Userdata *)

(** The methods of the classes: what the [__index] table of a metatable holds. *)
Context (methods : string -> string -> option nat).

Definition get_ud (u : nat) : M (udata mem) := fun k s =>
  match ls_uds s !! u with Some d => CVal d k s | None => CUB end.
Definition put_ud (u : nat) (d : udata mem) : M unit := fun k s =>
  CVal tt k (set_ls_uds s (<[u := d]> (ls_uds s))).
Definition put_mem (u : nat) (m : mem) : M unit :=
  d ← get_ud u; put_ud u (UData (ud_meta d) m (ud_uv d)).

Definition lua_getfield (i : Z) (f : string) : M unit :=
  v ← lua_value i;
  match v with
  | Some (VTab l) => t ← get_tab l; lua_push (field t f)
  | Some (VUd u) =>
      d ← get_ud u;
      match ud_meta d with
      | Some meta => lua_push (match methods meta f with Some g => VFun g | None => VNil end)
      | None => no_index
      end
  | _ => no_index
  end.

(** [lua_newuserdata], with what the code stores in the block, and the metatable
    and uservalue set later. *)
Definition lua_newuserdata (m : mem) : M nat := fun k s =>
  let u := ls_next s in
  CVal u (k ++ [VUd u]) (set_ls_next (set_ls_uds s (<[u := UData None m VNil]> (ls_uds s))) (S u)).
Definition luaL_setmetatable (u : nat) (meta : string) : M unit :=
  d ← get_ud u; put_ud u (UData (Some meta) (ud_mem d) (ud_uv d)).
Definition lua_setuservalue (i : Z) : M unit :=
  v ← lua_value i;
  match v with
  | Some (VUd u) => x ← take_top; d ← get_ud u; put_ud u (UData (ud_meta d) (ud_mem d) x)
  | _ => cub
  end.
Definition lua_getuservalue (i : Z) : M unit :=
  v ← lua_value i;
  match v with
  | Some (VUd u) => d ← get_ud u; lua_push (ud_uv d)
  | _ => cub
  end.

(** [luaL_checkudata]. *)
Definition luaL_checkudata (i : Z) (meta : string) : M nat :=
  v ← lua_value i;
  match v with
  | Some (VUd u) =>
      d ← get_ud u;
      if bool_decide (ud_meta d = Some meta) then mret u else craise (VStr (meta ++ " expected"))
  | _ => craise (VStr (meta ++ " expected"))
  end.
(** [luaL_testudata] as a condition. *)
Definition luaL_testudata (i : Z) (meta : string) : M bool :=
  v ← lua_value i;
  match v with
  | Some (VUd u) => d ← get_ud u; mret (bool_decide (ud_meta d = Some meta))
  | _ => mret false
  end.

(** [lua_call] of a C function that is not meant to yield: it runs on a stack of
    its own with the top [nargs] values, and [nres] results replace them. *)
Definition lua_call_c (f : M next) (nargs nres : nat) : M unit := fun k s =>
  if (length k <? nargs)%nat then CUB
  else match f (drop (length k - nargs) k) s with
  | CVal (NRet n) k' s' =>
      if (length k' <? n)%nat then CUB
      else CVal tt (take (length k - nargs) k ++ adjust (drop (length k' - n) k') nres) s'
  | CVal _ _ s' => CErr (VStr "attempt to yield across a C-call boundary") s'
  | CErr e s' => CErr e s'
  | CUB => CUB
  end.

(** ** The machine *)

(** The function at an address (its code, entered with its context). *)
Context (code : nat -> option (Z -> M next)).

(** The coroutine: the running function with its context and stack, the frames
    below it, and the shared state. *)
Record conf := Conf { c_fun : nat; c_ctx : Z; c_stk : list value; c_frames : list frame; c_st : lstate mem os }.

(** A suspended coroutine: the function whose continuation runs on resumption,
    its context, the rest of its stack, and the frames below. *)
Record susp := Susp { su_fun : nat; su_ctx : Z; su_stk : list value; su_frames : list frame }.

Inductive after :=
  | Running (c : conf)
  | Finished (vs : list value) (s : lstate mem os)
  | Suspended (vs : list value) (u : susp) (s : lstate mem os)
  | Raised (e : value) (s : lstate mem os)
  | Broken.

(** The last [n] values of a stack. *)
Definition top (k : list value) (n : nat) : list value := drop (length k - n) k.
Definition below (k : list value) (n : nat) : list value := take (length k - n) k.

Definition step (c : conf) : after :=
  match code (c_fun c) with
  | None => Broken
  | Some body =>
      match body (c_ctx c) (c_stk c) (c_st c) with
      | CUB => Broken
      | CErr e s => Raised e s
      | CVal n k s =>
          match n with
          | NRet n =>
              if (length k <? n)%nat then Broken
              else match c_frames c with
              | [] => Finished (top k n) s
              | f :: fs => Running (Conf (fr_fun f) (fr_ctx f) (fr_stk f ++ adjust (top k n) (fr_nres f)) fs s)
              end
          | NGoto ctx => Running (Conf (c_fun c) ctx k (c_frames c) s)
          | NCall nargs nres ctx =>
              if (length k <? S nargs)%nat then Broken
              else match k !! (length k - S nargs)%nat with
              | Some (VFun g) =>
                  Running (Conf g 0 (top k nargs) (Frame (c_fun c) ctx (below k (S nargs)) nres :: c_frames c) s)
              | _ => Raised (VStr "attempt to call a value") s
              end
          | NYield n ctx =>
              if (length k <? n)%nat then Broken
              else Suspended (top k n) (Susp (c_fun c) ctx (below k n) (c_frames c)) s
          end
      end
  end.

(** Resumption with values. *)
Definition resume (u : susp) (vs : list value) (s : lstate mem os) : conf :=
  Conf (su_fun u) (su_ctx u) (su_stk u ++ vs) (su_frames u) s.

(** Run until the coroutine finishes, suspends or fails. *)
Fixpoint run (fuel : nat) (c : conf) : after :=
  match fuel with
  | O => Running c
  | S fuel' => match step c with Running c' => run fuel' c' | a => a end
  end.

(** A function called from Lua code. *)
Definition start (f : nat) (args : list value) (s : lstate mem os) : conf := Conf f 0 args [] s.

(** The life of a call: it is started, makes steps, and is resumed with values
    that [legit] allows for what it yielded, in a state the other threads of the
    program may have changed ([env]). *)
Context (legit : lstate mem os -> list value -> list value -> Prop) (env : lstate mem os -> lstate mem os -> Prop).

Inductive reach (c0 : conf) : after -> Prop :=
  | reach_start : reach c0 (Running c0)
  | reach_step c : reach c0 (Running c) -> reach c0 (step c)
  | reach_resume vs u s s' rs : reach c0 (Suspended vs u s) -> legit s vs rs -> env s s' ->
      reach c0 (Running (resume u rs s')).

(** Rule induction with an invariant on running and on suspended coroutines. *)
Lemma reach_inv c0 (I : after -> Prop) : I (Running c0) ->
  (forall c, I (Running c) -> I (step c)) ->
  (forall vs u s s' rs, I (Suspended vs u s) -> legit s vs rs -> env s s' -> I (Running (resume u rs s'))) ->
  forall a, reach c0 a -> I a.
Proof. intros H0 Hs Hr a. induction 1; eauto. Qed.

Lemma run_reach c0 fuel : forall c, reach c0 (Running c) -> reach c0 (run fuel c).
Proof.
  induction fuel as [|fuel IH]; intros c Hc; [done|]. cbn. pose proof (reach_step _ _ Hc) as Hs.
  destruct (step c); auto.
Qed.
End Api.
Arguments conf : clear implicits.
Arguments after : clear implicits.

(** ** Arguments

    The [luaL_check*] functions: they return the argument or raise an error. *)
Section Args.
Context `{LuaConv} {mem os : Type}.
Abbreviation M := (C mem os).

(** [luaL_checkinteger]: numbers out of range of the conversion are undefined. *)
Definition luaL_checkinteger (i : Z) : M Z :=
  v ← lua_value i;
  match tonumberx v with
  | Some n => match to_Z n with Some z => mret z | None => cub end
  | None => craise (VStr "number expected")
  end.
Definition luaL_checkint (i : Z) : M Z := z ← luaL_checkinteger i; mret (to_int z).
Definition luaL_optint (i def : Z) : M Z :=
  v ← lua_value i; if isnoneornil v then mret def else luaL_checkint i.
Definition luaL_checknumber (i : Z) : M unit :=
  v ← lua_value i; if isnumber v then mret tt else craise (VStr "number expected").
Definition luaL_checklstring (i : Z) : M string :=
  v ← lua_value i;
  match tostring v with Some d => mret d | None => craise (VStr "string expected") end.
Definition luaL_checktable (i : Z) : M unit :=
  v ← lua_value i; if istable v then mret tt else craise (VStr "table expected").
(** [luaL_checkoption]: the position of the string in the list. *)
Fixpoint option_index (name : string) (lst : list string) (i : nat) : option nat :=
  match lst with
  | [] => None
  | x :: lst' => if strcmp0 x name then Some i else option_index name lst' (S i)
  end.
Definition luaL_checkoption (i : Z) (def : string) (lst : list string) : M nat :=
  v ← lua_value i;
  name ← (if isnoneornil v then mret def else luaL_checklstring i);
  match option_index name lst 0 with Some n => mret n | None => craise (VStr "invalid option") end.

(** The memory block of a userdata. *)
Definition mem_of (u : nat) : M mem := d ← get_ud u; mret (ud_mem d).

(** [lua_call] of the function below its [nargs] arguments, which must be one of
    [fns]; [nres] is [None] for LUA_MULTRET. *)
Definition lua_call_fn (fns : nat -> option (M next)) (nargs : nat) (nres : option nat) : M unit := fun k s =>
  if (length k <? S nargs)%nat then CUB
  else match k !! (length k - S nargs)%nat with
  | Some (VFun f) =>
      match fns f with
      | Some body =>
          match body (drop (length k - nargs) k) s with
          | CVal (NRet n) k' s' =>
              if (length k' <? n)%nat then CUB
              else let r := drop (length k' - n) k' in
                CVal tt (take (length k - S nargs) k ++ match nres with Some m => adjust r m | None => r end) s'
          | CVal _ _ s' => CErr (VStr "attempt to yield across a C-call boundary") s'
          | CErr e s' => CErr e s'
          | CUB => CUB
          end
      | None => CUB
      end
  | _ => CErr (VStr "attempt to call a value") s
  end.
End Args.

(** [lua_rawlen] of a table: the first border. *)
Fixpoint border_from (t : tab) (n : Z) (fuel : nat) : Z :=
  match fuel with
  | O => n
  | S fuel' => match rawget t (n + 1) with VNil => n | _ => border_from t (n + 1) fuel' end
  end.
Definition rawlen (t : tab) : Z := border_from t 0 (size (t_arr t)).

(** ** Evaluation of C code on a known stack

    One equation per operation, for the tactic [lrun]. *)
Section Eval.
Context {mem os : Type}.
Implicit Types s : lstate mem os.

Lemma bindE {A B} (f : A -> C mem os B) (m : C mem os A) k s :
  (m ≫= f) k s = match m k s with CVal a k' s' => f a k' s' | CErr e s' => CErr e s' | CUB => CUB end.
Proof. done. Qed.
Lemma mretE {A} (a : A) k s : (mret a : C mem os A) k s = CVal a k s.
Proof. done. Qed.

Lemma valueE i k s p : pos k i = Some p -> @lua_value mem os i k s = CVal (k !! p) k s.
Proof. intros Hp. unfold lua_value. by rewrite Hp. Qed.
Lemma valueNoneE i k s : pos k i = None -> @lua_value mem os i k s = CVal None k s.
Proof. intros Hp. unfold lua_value. by rewrite Hp. Qed.
Lemma pushvalueE i k s p v : pos k i = Some p -> k !! p = Some v -> @lua_pushvalue mem os i k s = CVal tt (k ++ [v]) s.
Proof. intros Hp Hv. unfold lua_pushvalue. by rewrite Hp, Hv. Qed.
Lemma popE n k s : (n <=? length k)%nat = true -> @lua_pop mem os n k s = CVal tt (take (length k - n) k) s.
Proof. intros Hn. unfold lua_pop. by rewrite Hn. Qed.
Lemma insertE i k s p v : pos k i = Some p -> last k = Some v ->
  @lua_insert mem os i k s = CVal tt (take p k ++ v :: drop p (take (length k - 1) k)) s.
Proof. intros Hp Hv. unfold lua_insert. by rewrite Hp, Hv. Qed.
Lemma removeE i k s p : pos k i = Some p -> @lua_remove mem os i k s = CVal tt (take p k ++ drop (S p) k) s.
Proof. intros Hp. unfold lua_remove. by rewrite Hp. Qed.
Lemma replaceE i k s p v : pos k i = Some p -> last k = Some v ->
  @lua_replace mem os i k s = CVal tt (take (length k - 1) (<[p := v]> k)) s.
Proof. intros Hp Hv. unfold lua_replace. by rewrite Hp, Hv. Qed.
Lemma take_topE k s v : last k = Some v -> @take_top mem os k s = CVal v (take (length k - 1) k) s.
Proof. intros Hv. unfold take_top. by rewrite Hv. Qed.

Lemma call_cE (f : C mem os next) nargs nres k s n k' s' : (length k <? nargs)%nat = false ->
  f (drop (length k - nargs) k) s = CVal (NRet n) k' s' -> (length k' <? n)%nat = false ->
  lua_call_c f nargs nres k s = CVal tt (take (length k - nargs) k ++ adjust (drop (length k' - n) k') nres) s'.
Proof. intros Hk Hf Hn. unfold lua_call_c. by rewrite Hk, Hf, Hn. Qed.
Lemma get_tabE l k s t : ls_tabs s !! l = Some t -> @get_tab mem os l k s = CVal t k s.
Proof. intros Ht. unfold get_tab. by rewrite Ht. Qed.
Lemma rawgetiE i n k s p l t : pos k i = Some p -> k !! p = Some (VTab l) -> ls_tabs s !! l = Some t ->
  @lua_rawgeti mem os i n k s = CVal tt (k ++ [rawget t n]) s.
Proof. intros Hp Hk Ht. unfold lua_rawgeti. rewrite bindE, (valueE _ _ _ _ Hp), Hk, bindE, (get_tabE _ _ _ _ Ht). done. Qed.
Lemma rawsetiE i n k s p l t v : pos k i = Some p -> k !! p = Some (VTab l) -> last k = Some v -> ls_tabs s !! l = Some t ->
  @lua_rawseti mem os i n k s = CVal tt (take (length k - 1) k) (set_ls_tabs s (<[l := rawset t n v]> (ls_tabs s))).
Proof.
  intros Hp Hk Hv Ht. unfold lua_rawseti. rewrite bindE, (valueE _ _ _ _ Hp), Hk, bindE, (take_topE _ _ _ Hv), bindE, (get_tabE _ _ _ _ Ht). done.
Qed.
Lemma setfieldE i f k s p l t v : pos k i = Some p -> k !! p = Some (VTab l) -> last k = Some v -> ls_tabs s !! l = Some t ->
  @lua_setfield mem os i f k s = CVal tt (take (length k - 1) k) (set_ls_tabs s (<[l := set_field t f v]> (ls_tabs s))).
Proof.
  intros Hp Hk Hv Ht. unfold lua_setfield. rewrite bindE, (valueE _ _ _ _ Hp), Hk, bindE, (take_topE _ _ _ Hv), bindE, (get_tabE _ _ _ _ Ht). done.
Qed.

Lemma get_udE u k s d : ls_uds s !! u = Some d -> @get_ud mem os u k s = CVal d k s.
Proof. intros Hu. unfold get_ud. by rewrite Hu. Qed.
Lemma put_memE u m k s d : ls_uds s !! u = Some d ->
  @put_mem mem os u m k s = CVal tt k (set_ls_uds s (<[u := UData (ud_meta d) m (ud_uv d)]> (ls_uds s))).
Proof. intros Hu. unfold put_mem. by rewrite bindE, (get_udE _ _ _ _ Hu). Qed.
Lemma getuservalueE i k s p u d : pos k i = Some p -> k !! p = Some (VUd u) -> ls_uds s !! u = Some d ->
  @lua_getuservalue mem os i k s = CVal tt (k ++ [ud_uv d]) s.
Proof. intros Hp Hk Hu. unfold lua_getuservalue. rewrite bindE, (valueE _ _ _ _ Hp), Hk, bindE, (get_udE _ _ _ _ Hu). done. Qed.
Lemma setuservalueE i k s p u d v : pos k i = Some p -> k !! p = Some (VUd u) -> last k = Some v -> ls_uds s !! u = Some d ->
  @lua_setuservalue mem os i k s = CVal tt (take (length k - 1) k) (set_ls_uds s (<[u := UData (ud_meta d) (ud_mem d) v]> (ls_uds s))).
Proof.
  intros Hp Hk Hv Hu. unfold lua_setuservalue. rewrite bindE, (valueE _ _ _ _ Hp), Hk, bindE, (take_topE _ _ _ Hv), bindE, (get_udE _ _ _ _ Hu). done.
Qed.
Lemma setmetatableE u meta k s d : ls_uds s !! u = Some d ->
  @luaL_setmetatable mem os u meta k s = CVal tt k (set_ls_uds s (<[u := UData (Some meta) (ud_mem d) (ud_uv d)]> (ls_uds s))).
Proof. intros Hu. unfold luaL_setmetatable. rewrite bindE, (get_udE _ _ _ _ Hu). done. Qed.
Lemma getfield_tabE methods i f k s p l t : pos k i = Some p -> k !! p = Some (VTab l) -> ls_tabs s !! l = Some t ->
  @lua_getfield mem os methods i f k s = CVal tt (k ++ [field t f]) s.
Proof. intros Hp Hk Ht. unfold lua_getfield. rewrite bindE, (valueE _ _ _ _ Hp), Hk, bindE, (get_tabE _ _ _ _ Ht). done. Qed.
Lemma getfield_udE methods i f k s p u d meta g : pos k i = Some p -> k !! p = Some (VUd u) -> ls_uds s !! u = Some d ->
  ud_meta d = Some meta -> methods meta f = Some g -> @lua_getfield mem os methods i f k s = CVal tt (k ++ [VFun g]) s.
Proof.
  intros Hp Hk Hu Hm Hg. unfold lua_getfield. rewrite bindE, (valueE _ _ _ _ Hp), Hk, bindE, (get_udE _ _ _ _ Hu), Hm, Hg. done.
Qed.
Lemma checkudataE i meta k s p u d : pos k i = Some p -> k !! p = Some (VUd u) -> ls_uds s !! u = Some d -> ud_meta d = Some meta ->
  @luaL_checkudata mem os i meta k s = CVal u k s.
Proof.
  intros Hp Hk Hu Hm. unfold luaL_checkudata. rewrite bindE, (valueE _ _ _ _ Hp), Hk, bindE, (get_udE _ _ _ _ Hu), Hm.
  by rewrite bool_decide_eq_true_2.
Qed.

Lemma pos_head v k : pos (v :: k) 1 = Some 0%nat.
Proof. unfold pos. cbn [length]. by rewrite (proj2 (Z.leb_le _ _)) by lia. Qed.

Lemma call_fnE (fns : nat -> option (C mem os next)) k f body args nres s : fns f = Some body ->
  lua_call_fn fns (length args) nres (k ++ VFun f :: args) s =
  match body args s with
  | CVal (NRet n) k' s' =>
      if (length k' <? n)%nat then CUB
      else CVal tt (k ++ match nres with Some m => adjust (drop (length k' - n) k') m | None => drop (length k' - n) k' end) s'
  | CVal _ _ s' => CErr (VStr "attempt to yield across a C-call boundary") s'
  | CErr e s' => CErr e s'
  | CUB => CUB
  end.
Proof.
  intros Hf. unfold lua_call_fn. rewrite length_app. cbn [length].
  rewrite (proj2 (Nat.ltb_ge _ _)) by lia.
  replace (length k + S (length args) - S (length args))%nat with (length k + 0)%nat by lia.
  rewrite lookup_app_r by lia. replace (length k + 0 - length k)%nat with 0%nat by lia. cbn. rewrite Hf.
  replace (length k + S (length args) - length args)%nat with (length (k ++ [VFun f])) by (rewrite length_app; cbn; lia).
  replace (k ++ VFun f :: args) with ((k ++ [VFun f]) ++ args) by by rewrite <- app_assoc.
  rewrite drop_app_length, Nat.add_0_r, <- app_assoc, take_app_length. done.
Qed.
End Eval.

Lemma field_setE t f v g : field (set_field t f v) g = if decide (f = g) then v else field t g.
Proof. unfold field, set_field. case_decide; subst; destruct v; cbn; by rewrite ?lookup_insert_eq, ?lookup_delete_eq, ?lookup_insert_ne, ?lookup_delete_ne. Qed.

(** States that were built by updates, in the normal form tables, userdata, next
    address, operating system. *)
Section Updates.
Context {mem os : Type}.
Implicit Types s : lstate mem os.
Lemma os_osE s a b : set_ls_os (set_ls_os s a) b = set_ls_os s b.
Proof. done. Qed.
Lemma os_udsE s a b : set_ls_os (set_ls_uds s a) b = set_ls_uds (set_ls_os s b) a.
Proof. done. Qed.
Lemma os_tabsE s a b : set_ls_os (set_ls_tabs s a) b = set_ls_tabs (set_ls_os s b) a.
Proof. done. Qed.
Lemma os_nextE s a b : set_ls_os (set_ls_next s a) b = set_ls_next (set_ls_os s b) a.
Proof. done. Qed.
Lemma next_nextE s a b : set_ls_next (set_ls_next s a) b = set_ls_next s b.
Proof. done. Qed.
Lemma next_udsE s a b : set_ls_next (set_ls_uds s a) b = set_ls_uds (set_ls_next s b) a.
Proof. done. Qed.
Lemma next_tabsE s a b : set_ls_next (set_ls_tabs s a) b = set_ls_tabs (set_ls_next s b) a.
Proof. done. Qed.
Lemma uds_udsE s a b : set_ls_uds (set_ls_uds s a) b = set_ls_uds s b.
Proof. done. Qed.
Lemma uds_tabsE s a b : set_ls_uds (set_ls_tabs s a) b = set_ls_tabs (set_ls_uds s b) a.
Proof. done. Qed.
Lemma tabs_tabsE s a b : set_ls_tabs (set_ls_tabs s a) b = set_ls_tabs s b.
Proof. done. Qed.
Lemma get_uds_osE s a : ls_uds (set_ls_os s a) = ls_uds s.
Proof. done. Qed.
Lemma get_uds_nextE s a : ls_uds (set_ls_next s a) = ls_uds s.
Proof. done. Qed.
Lemma get_uds_tabsE s a : ls_uds (set_ls_tabs s a) = ls_uds s.
Proof. done. Qed.
Lemma get_uds_udsE s a : ls_uds (set_ls_uds s a) = a.
Proof. done. Qed.
Lemma get_tabs_osE s a : ls_tabs (set_ls_os s a) = ls_tabs s.
Proof. done. Qed.
Lemma get_tabs_nextE s a : ls_tabs (set_ls_next s a) = ls_tabs s.
Proof. done. Qed.
Lemma get_tabs_udsE s a : ls_tabs (set_ls_uds s a) = ls_tabs s.
Proof. done. Qed.
Lemma get_tabs_tabsE s a : ls_tabs (set_ls_tabs s a) = a.
Proof. done. Qed.
Lemma get_next_osE s a : ls_next (set_ls_os s a) = ls_next s.
Proof. done. Qed.
Lemma get_next_nextE s a : ls_next (set_ls_next s a) = a.
Proof. done. Qed.
Lemma get_next_udsE s a : ls_next (set_ls_uds s a) = ls_next s.
Proof. done. Qed.
Lemma get_next_tabsE s a : ls_next (set_ls_tabs s a) = ls_next s.
Proof. done. Qed.
End Updates.
Create Rewrite HintDb lstate.
#[export] Hint Rewrite @os_osE @os_udsE @os_tabsE @os_nextE @next_nextE @next_udsE @next_tabsE @uds_udsE @uds_tabsE @tabs_tabsE
  @get_uds_osE @get_uds_nextE @get_uds_tabsE @get_uds_udsE @get_tabs_osE @get_tabs_nextE @get_tabs_udsE @get_tabs_tabsE
  @get_next_osE @get_next_nextE @get_next_udsE @get_next_tabsE : lstate.
Ltac lst := autorewrite with lstate; rewrite ?insert_insert_eq.

(** Lookups in such states. *)
Ltac lk := cbn [ls_tabs ls_uds ls_next ls_os set_ls_tabs set_ls_uds set_ls_next set_ls_os];
  repeat first [rewrite lookup_insert_eq | rewrite lookup_insert_ne by (congruence || lia)]; first [eassumption | reflexivity].
Ltac lpos := vm_compute; reflexivity.
Ltac lnorm := cbn [app length take drop last Nat.sub Nat.leb lookup list_lookup insert list_insert Stk.settop replicate ud_meta ud_mem ud_uv
  Z.eqb Z.leb Z.ltb Z.compare Pos.eqb Pos.compare Pos.compare_cont negb andb isnil isnoneornil isnumber tonumberx tostring toboolean].

Ltac lside := lazymatch goal with
  | |- pos _ _ = _ => lpos
  | |- ls_tabs _ !! _ = _ => lk
  | |- ls_uds _ !! _ = _ => lk
  | |- _ => reflexivity
  end.

(** One operation. *)
Ltac lop :=
  match goal with
  | |- context [(mbind ?f ?m) ?k ?s] => rewrite (bindE f m k s)
  | |- context [(mret ?a) ?k ?s] => rewrite (mretE a k s)
  | |- context [lua_push ?v ?k ?s] => change (lua_push v k s) with (CVal tt (k ++ [v]) s)
  | |- context [gstack ?k ?s] => change (gstack k s) with (CVal k k s)
  | |- context [gstate ?k ?s] => change (gstate k s) with (CVal s k s)
  | |- context [lua_settop ?n ?k ?s] => change (lua_settop n k s) with (CVal tt (Stk.settop VNil k n) s)
  | |- context [lua_createtable ?k ?s] => change (lua_createtable k s) with
      (CVal tt (k ++ [VTab (ls_next s)]) (set_ls_next (set_ls_tabs s (<[ls_next s := Tab ∅ ∅]> (ls_tabs s))) (S (ls_next s))))
  | |- context [lua_newuserdata ?m ?k ?s] => change (lua_newuserdata m k s) with
      (CVal (ls_next s) (k ++ [VUd (ls_next s)]) (set_ls_next (set_ls_uds s (<[ls_next s := UData None m VNil]> (ls_uds s))) (S (ls_next s))))
  | |- context [@craise ?m ?o ?A ?v ?k ?s] => change (@craise m o A v k s) with (@CErr m o A v s)
  | |- context [lua_value ?i ?k ?s] => first [erewrite (valueE i k s) by lpos | rewrite (valueNoneE i k s) by lpos]
  | |- context [lua_pushvalue ?i ?k ?s] => erewrite (pushvalueE i k s) by lside
  | |- context [lua_pop ?n ?k ?s] => rewrite (popE n k s) by reflexivity
  | |- context [lua_insert ?i ?k ?s] => erewrite (insertE i k s) by lside
  | |- context [lua_remove ?i ?k ?s] => erewrite (removeE i k s) by lpos
  | |- context [lua_replace ?i ?k ?s] => erewrite (replaceE i k s) by lside
  | |- context [take_top ?k ?s] => erewrite (take_topE k s) by reflexivity
  | |- context [lua_rawgeti ?i ?n ?k ?s] => erewrite (rawgetiE i n k s) by lside
  | |- context [lua_rawseti ?i ?n ?k ?s] => erewrite (rawsetiE i n k s) by lside
  | |- context [lua_setfield ?i ?f ?k ?s] => erewrite (setfieldE i f k s) by lside
  | |- context [lua_getuservalue ?i ?k ?s] => erewrite (getuservalueE i k s) by lside
  | |- context [lua_setuservalue ?i ?k ?s] => erewrite (setuservalueE i k s) by lside
  | |- context [luaL_setmetatable ?u ?m ?k ?s] => erewrite (setmetatableE u m k s) by lk
  | |- context [get_ud ?u ?k ?s] => erewrite (get_udE u k s) by lk
  | |- context [get_tab ?u ?k ?s] => erewrite (get_tabE u k s) by lk
  | |- context [put_mem ?u ?m ?k ?s] => erewrite (put_memE u m k s) by lk
  | |- context [luaL_checkudata ?i ?m ?k ?s] => erewrite (checkudataE i m k s) by lside
  | |- context [lua_getfield ?ms ?i ?f ?k ?s] =>
      first [erewrite (getfield_tabE ms i f k s) by lside | erewrite (getfield_udE ms i f k s) by lside]
  end; cbv beta iota; lnorm.
Ltac lrun := cbv beta iota; repeat lop.
