(* ===== verification/LuaCInv.v ===== *)
(** Properties of the shared state that a C function keeps, whatever is on its stack.

    A property that does not depend on tables ([Framed]) is kept by all the operations
    of the API on the stack and on tables; [stable_go] carries it through a function
    and leaves the calls that matter: system calls, and changes of userdata. *)

From stdpp Require Import prelude gmap strings.
From Stdlib Require Import ZArith Lia SpecFloat.
From S2P Require Import Prelude Double Lua LuaC.
Local Open Scope Z_scope.

(** [m] keeps [P], also when it raises an error. *)
Definition stable {mem os A} (P : lstate mem os -> Prop) (m : C mem os A) : Prop := forall k s, P s ->
  match m k s with CVal _ _ s' | CErr _ s' => P s' | CUB => True end.

Class Framed {mem os} (P : lstate mem os -> Prop) : Prop := {
  framed_tabs s t : P s -> P (set_ls_tabs s t);
  framed_next s : P s -> P (set_ls_next s (S (ls_next s)));
}.

Section Stable.
Context {mem os : Type} (P : lstate mem os -> Prop).
Abbreviation M := (C mem os).

Lemma stable_ret {A} (a : A) : stable P (mret a : M A).
Proof. by intros k s. Qed.
Lemma stable_raise {A} (e : value) : stable P (craise e : M A).
Proof. by intros k s. Qed.
Lemma stable_ub {A} : stable P (cub : M A).
Proof. by intros k s. Qed.
Lemma stable_bind {A B} (m : M A) (f : A -> M B) : stable P m -> (forall a, stable P (f a)) -> stable P (m ≫= f).
Proof. intros Hm Hf k s Hs. rewrite bindE. specialize (Hm k s Hs). destruct (m k s) as [a k' s'|e s'|]; [by apply Hf|done|done]. Qed.
(** Functions that do not change the state. *)
Lemma stable_read {A} (m : M A) : (forall k s, match m k s with CVal _ _ s' | CErr _ s' => s' = s | CUB => True end) -> stable P m.
Proof. intros Hm k s Hs. specialize (Hm k s). destruct (m k s); by subst. Qed.
End Stable.

Create HintDb stable.
#[export] Hint Resolve stable_ret stable_raise stable_ub : stable.
#[export] Hint Extern 1 (Framed _) => typeclasses eauto : stable.
(** Through a function, down to the calls that [tac] or the hints know. *)
Ltac stable_with tac := repeat first
  [ assumption | solve [auto 3 with stable] | progress tac
  | match goal with
    | |- stable _ (_ ≫= _) => apply stable_bind; [|intros ?]
    | |- stable _ (match ?x with _ => _ end) => destruct x
    end ].
Ltac stable_go := stable_with fail.
Ltac stable_prim := apply stable_read; intros ? ?;
  cbv [lua_value lua_push lua_pushvalue lua_settop lua_pop lua_remove lua_insert lua_replace take_top get_tab get_ud gstate gstack];
  repeat case_goal; done.

Section Prims.
Context {mem os : Type} (P : lstate mem os -> Prop) `{!Framed P}.
Abbreviation M := (C mem os).
Lemma stable_value i : stable P (lua_value i).
Proof. stable_prim. Qed.
Lemma stable_push v : stable P (lua_push v).
Proof. stable_prim. Qed.
Lemma stable_pushvalue i : stable P (lua_pushvalue i).
Proof. stable_prim. Qed.
Lemma stable_settop n : stable P (lua_settop n).
Proof. stable_prim. Qed.
Lemma stable_pop n : stable P (lua_pop n).
Proof. stable_prim. Qed.
Lemma stable_insert i : stable P (lua_insert i).
Proof. stable_prim. Qed.
Lemma stable_remove i : stable P (lua_remove i).
Proof. stable_prim. Qed.
Lemma stable_replace i : stable P (lua_replace i).
Proof. stable_prim. Qed.
Lemma stable_take_top : stable P take_top.
Proof. stable_prim. Qed.
Lemma stable_get_tab l : stable P (get_tab l).
Proof. stable_prim. Qed.
Lemma stable_get_ud u : stable P (get_ud u).
Proof. stable_prim. Qed.
Lemma stable_gstate : stable P gstate.
Proof. stable_prim. Qed.
Lemma stable_gstack : stable P gstack.
Proof. stable_prim. Qed.
Lemma stable_put_tab l t : stable P (put_tab l t).
Proof. intros k s Hs. by apply framed_tabs. Qed.
Lemma stable_createtable : stable P lua_createtable.
Proof. intros k s Hs. apply (framed_next (set_ls_tabs s _)). by apply framed_tabs. Qed.
End Prims.
#[export] Hint Resolve stable_value stable_push stable_pushvalue stable_settop stable_pop stable_insert stable_remove stable_replace stable_take_top
  stable_get_tab stable_get_ud stable_gstate stable_gstack stable_put_tab stable_createtable : stable.

Section Composed.
Context `{LuaConv} {mem os : Type} (P : lstate mem os -> Prop) `{!Framed P}.
Lemma stable_setfield i f : stable P (lua_setfield i f).
Proof. unfold lua_setfield, no_index. stable_go. Qed.
Lemma stable_getfield ms i f : stable P (lua_getfield ms i f).
Proof. unfold lua_getfield, no_index. stable_go. Qed.
Lemma stable_rawgeti i n : stable P (lua_rawgeti i n).
Proof. unfold lua_rawgeti. stable_go. Qed.
Lemma stable_rawseti i n : stable P (lua_rawseti i n).
Proof. unfold lua_rawseti. stable_go. Qed.
Lemma stable_getuservalue i : stable P (lua_getuservalue i).
Proof. unfold lua_getuservalue. stable_go. Qed.
Lemma stable_checkudata i meta : stable P (luaL_checkudata i meta).
Proof. unfold luaL_checkudata. stable_go. Qed.
Lemma stable_mem_of u : stable P (mem_of u).
Proof. unfold mem_of. stable_go. Qed.
Lemma stable_checklstring i : stable P (luaL_checklstring i).
Proof. unfold luaL_checklstring. stable_go. Qed.
Lemma stable_checkinteger i : stable P (luaL_checkinteger i).
Proof. unfold luaL_checkinteger. stable_go. Qed.
Lemma stable_optint i d : stable P (luaL_optint i d).
Proof. unfold luaL_optint, luaL_checkint, luaL_checkinteger. stable_go. Qed.
Lemma stable_checktable i : stable P (luaL_checktable i).
Proof. unfold luaL_checktable. stable_go. Qed.
Lemma stable_checkoption i d l : stable P (luaL_checkoption i d l).
Proof. unfold luaL_checkoption, luaL_checklstring. stable_go. Qed.
(** Calls of functions that keep [P]. *)
Lemma stable_call_c f nargs nres : stable P f -> stable P (lua_call_c f nargs nres).
Proof.
  intros Hf k s Hs. unfold lua_call_c. case_goal; [done|]. specialize (Hf (drop (length k - nargs) k) s Hs). repeat case_goal; simplify_eq; done.
Qed.
Lemma stable_call_fn fns nargs nres : (forall f body, fns f = Some body -> stable P body) -> stable P (lua_call_fn fns nargs nres).
Proof.
  intros Hf k s Hs. unfold lua_call_fn. repeat case_goal; simplify_eq; try done;
    match goal with E : fns ?f = Some ?b |- _ => specialize (Hf f b E (drop (length k - nargs) k) s Hs) end; simplify_eq/=;
    repeat match goal with E : _ = _ |- _ => rewrite E in Hf end; done.
Qed.
End Composed.
#[export] Hint Resolve stable_setfield stable_getfield stable_rawgeti stable_rawseti stable_getuservalue stable_checkudata stable_mem_of
  stable_checklstring stable_checkinteger stable_optint stable_checktable stable_checkoption : stable.
