(* ===== verification/Error.v ===== *)
(** error.c: the error objects that the C functions of ratchet raise.

    The table built by [ratchet_error_new] is the record [rerror] (Lua.v) inside
    a value [VErr]; its fields [file], [line] and [thread], which only tell where
    an error was raised, are left out. *)

From stdpp Require Import prelude strings.
From Stdlib Require Import ZArith Lia SpecFloat.
From S2P Require Import Prelude Double Lua Misc.
Local Open Scope Z_scope.

(** Error numbers of Linux. *)
Definition EPERM : Z := 1.
Definition EINTR : Z := 4.
Definition EBADF : Z := 9.
Definition EAGAIN : Z := 11.
Definition EPIPE : Z := 32.
Definition EALREADY : Z := 114.
Definition EINPROGRESS : Z := 115.

(** [build_errno_code_table]: the entries in the order they are stored. *)
Definition errno_codes : list (string * Z) :=
  [("EACCES", 13); ("EAFNOSUPPORT", 97); ("EINVAL", 22); ("EMFILE", 24); ("ENFILE", 23); ("ENOBUFS", 105);
   ("ENOMEM", 12); ("EPROTONOSUPPORT", 93);
   ("EAGAIN", 11); ("EWOULDBLOCK", 11); ("EBADF", 9); ("ECONNABORTED", 103); ("EFAULT", 14); ("EINTR", 4);
   ("EINVAL", 22); ("ENOTSOCK", 88); ("EOPNOTSUPP", 95); ("EPROTO", 71); ("EPERM", 1);
   ("EADDRINUSE", 98); ("EADDRNOTAVAIL", 99); ("ELOOP", 40); ("ENAMETOOLONG", 36); ("ENOENT", 2); ("ENOTDIR", 20);
   ("EROFS", 30);
   ("EALREADY", 114); ("ECONNREFUSED", 111); ("EINPROGRESS", 115); ("EISCONN", 106); ("ENETUNREACH", 101);
   ("ETIMEDOUT", 110);
   ("ECONNRESET", 104); ("EDESTADDRREQ", 89); ("EMSGSIZE", 90); ("ENOTCONN", 107); ("EPIPE", 32);
   ("ENODEV", 19); ("ENOTSUP", 95)]%string.

(** [ratchet_error_push_code]: the last entry stored for a number is the one in
    the table. *)
Fixpoint code_in (codes : list (string * Z)) (e : Z) : option string :=
  match codes with
  | [] => None
  | (name, n) :: codes' =>
      match code_in codes' e with
      | Some c => Some c
      | None => if n =? e then Some name else None
      end
  end.
Definition ratchet_error_push_code (e : Z) : option string := code_in errno_codes e.

Section Errors.
(** The text of [strerror_r]. *)
Context (strerror : Z -> string).

Definition push_errno_description (e : Z) : string :=
  if e =? 0 then "Unknown error occurred." else strerror e.

(** [ratchet_error_errno]: the error for a failed system call. *)
Definition ratchet_error_errno (function syscall : string) (e : Z) : value :=
  VErr (RError (push_errno_description e) (ratchet_error_push_code e) (Some function) (Some syscall) (Some e)).
End Errors.

(** [ratchet_error_str]: an error with a code of its own. *)
Definition ratchet_error_str (function code description : string) : value :=
  VErr (RError description (Some code) (Some function) None None).

(** Equality as [lua_compare] tests it, for values without an [__eq]. *)
Definition lua_equal (a b : value) : bool :=
  match a, b with
  | VNum x, VNum y => SFeqb x y
  | _, _ => bool_decide (a = b)
  end.

(** [ratchet_error_is (err, code)]. [index] is [lua_getfield] on values other than
    error objects; [None] is its Lua error. *)
Definition ratchet_error_is `{LuaConv} (index : value -> string -> option value) (err code : value) : option bool :=
  match err with
  | VStr _ | VNum _ => Some (lua_equal err code)
  | VErr e => Some (lua_equal (match err_code e with Some c => VStr c | None => VNil end) code)
  | _ =>
      t ← index err "type"%string;
      if strequal (Some t) "ratchet_error" then c ← index err "code"%string; Some (lua_equal c code)
      else Some false
  end.

(** [ratchet_error_get_string] of an error object that was raised by C code, which
    always has a function: "function: description". *)
Definition ratchet_error_get_string (e : rerror) : option string :=
  f ← err_function e; Some (c_str f ++ ": " ++ c_str (err_description e))%string.

(** The code of an error is the one a program tests for with [is]. *)
Lemma errno_is_code `{LuaConv} index strerror f c e code : ratchet_error_push_code e = Some code ->
  ratchet_error_is index (ratchet_error_errno strerror f c e) (VStr code) = Some true.
Proof.
  intros Hc. unfold ratchet_error_errno, ratchet_error_is. cbn [err_code]. rewrite Hc. unfold lua_equal. by rewrite bool_decide_eq_true_2.
Qed.

(** On Linux EAGAIN and EWOULDBLOCK are one number, and so are EOPNOTSUPP and
    ENOTSUP: the table keeps the name stored last, and no error has the code EAGAIN. *)
Lemma shadowed_codes : ratchet_error_push_code EAGAIN = Some "EWOULDBLOCK"%string /\ ratchet_error_push_code 95 = Some "ENOTSUP"%string.
Proof. split; reflexivity. Qed.
