(* ===== verification/ErrorObj.v ===== *)
(** error.c: error objects as the tables they are.

    Elsewhere an error that C code raises is the record [rerror] inside a value
    ([VErr]); here [ratchet_error_new] builds its table on the Lua stack, with the
    fields for file, line and thread and the metatable, and [error_view] reads the
    record off the table. *)

From stdpp Require Import prelude gmap strings.
From Stdlib Require Import ZArith Lia SpecFloat.
From S2P Require Import Prelude Double Lua Misc Error LuaC.
Local Open Scope Z_scope.

(** The metatables of tables, the running thread (and whether it is the main one),
    and [errno]. *)
Record estate := EState { eo_meta : gmap nat string; eo_thread : value; eo_main : bool; eo_errno : Z }.

(** The C library, and the traceback of the Lua core. *)
Class ErrOS := {
  (** [strerror_r] with a buffer of 512 bytes; [None] when it returns -1. *)
  e_strerror_r : Z -> option string;
  (** [luaL_traceback (L, L1, msg, 1)]. *)
  e_traceback : value -> option string -> string;
}.

Definition ERROR_META : string := "ratchet_error_meta".
Definition EF_new : nat := 1.
Definition EF_is : nat := 2.
Definition EF_get_string : nat := 3.
(** [meths] of [luaopen_ratchet_error]. *)
Definition error_meth (name : string) : value :=
  if String.eqb name "is" then VFun EF_is else if String.eqb name "get_string" then VFun EF_get_string else VNil.

Section ErrorObj.
Context `{LuaConv, ErrOS} {mem : Type}.
Abbreviation M := (C mem estate).

Definition lua_setmetatable (i : Z) (meta : string) : M unit :=
  v ← lua_value i;
  match v with
  | Some (VTab l) => sys (fun o => (EState (<[l := meta]> (eo_meta o)) (eo_thread o) (eo_main o) (eo_errno o), tt))
  | _ => cub
  end.
(** [lua_getfield] through the [__index] of an error object. *)
Definition err_getfield (i : Z) (f : string) : M unit :=
  v ← lua_value i;
  match v with
  | Some (VTab l) =>
      t ← get_tab l;
      s ← gstate;
      let x := field t f in
      lua_push (if isnil (Some x) && bool_decide (eo_meta (ls_os s) !! l = Some ERROR_META) then error_meth f else x)
  | _ => no_index
  end.

(** [luaL_optstring] and [luaL_optint] with their results unused. *)
Definition check_optstring (i : Z) : M unit :=
  v ← lua_value i; if isnoneornil v then mret tt else _ ← luaL_checklstring i; mret tt.
Definition check_optint (i : Z) : M unit := _ ← luaL_optint i (-1); mret tt.

Definition ratchet_error_new : M next :=
  lua_settop 7;;
  lua_createtable;;
  lua_setmetatable (-1) ERROR_META;;
  s ← gstate;
  lua_push (eo_thread (ls_os s));;
  (if eo_main (ls_os s) then lua_pop 1 else lua_setfield (-2) "thread");;
  lua_push (VStr "ratchet_error");;
  lua_setfield (-2) "type";;
  _ ← luaL_checklstring 1;
  lua_pushvalue 1;;
  lua_setfield (-2) "description";;
  check_optstring 2;;
  lua_pushvalue 2;;
  lua_setfield (-2) "code";;
  check_optstring 3;;
  lua_pushvalue 3;;
  lua_setfield (-2) "function";;
  check_optstring 4;;
  lua_pushvalue 4;;
  lua_setfield (-2) "file";;
  check_optint 5;;
  lua_pushvalue 5;;
  lua_setfield (-2) "line";;
  check_optstring 6;;
  lua_pushvalue 6;;
  lua_setfield (-2) "syscall";;
  check_optint 7;;
  lua_pushvalue 7;;
  lua_setfield (-2) "errno";;
  mret (NRet 1).

(** [lua_error] with the value on the top. *)
Definition lua_error {A} : M A := v ← take_top; craise v.

(** [lua_pushstring] of a pointer that may be null. *)
Definition push_cstr (s : option string) : M unit := lua_push (match s with Some s => VStr (c_str s) | None => VNil end).

Definition errno_description (e : Z) : string :=
  if e =? 0 then "Unknown error occurred."
  else match e_strerror_r e with
  | Some d => c_str d
  | None => "Unknown error occurred. [errno=" ++ number2str (of_Z e) ++ "]"
  end.

Definition ratchet_error_errno_ln {A} (function syscall file : option string) (line : Z) : M A :=
  s ← gstate;
  let e := eo_errno (ls_os s) in
  lua_settop 0;;
  lua_push (VFun EF_new);;
  lua_push (VStr (errno_description e));;
  lua_push (match Error.ratchet_error_push_code e with Some c => VStr c | None => VNil end);;
  push_cstr function;;
  push_cstr file;;
  lua_push (VNum (of_Z line));;
  push_cstr syscall;;
  lua_push (VNum (of_Z e));;
  lua_call_fn (fun f => if (f =? EF_new)%nat then Some ratchet_error_new else None) 7 (Some 1%nat);;
  lua_error.

(** The description is the value on the top. *)
Definition ratchet_error_top_ln {A} (function code file : option string) (line : Z) : M A :=
  lua_push (VFun EF_new);;
  lua_pushvalue (-2);;
  push_cstr code;;
  push_cstr function;;
  push_cstr file;;
  lua_push (VNum (of_Z line));;
  lua_push VNil;;
  lua_push VNil;;
  lua_call_fn (fun f => if (f =? EF_new)%nat then Some ratchet_error_new else None) 7 (Some 1%nat);;
  lua_error.
(** The description, formatted. *)
Definition ratchet_error_str_ln {A} (function code file : option string) (line : Z) (description : string) : M A :=
  lua_settop 0;;
  lua_push (VStr description);;
  ratchet_error_top_ln function code file line.

(** ** Methods *)

(** A null pointer for "%s" is printed as "(null)". *)
Definition fmt_s (s : option string) : string := match s with Some s => c_str s | None => "(null)" end.
Definition ratchet_error_get_string : M next :=
  lua_settop 1;;
  err_getfield 1 "description";;
  description ← lua_value (-1);
  err_getfield 1 "file";;
  file ← lua_value (-1);
  err_getfield 1 "line";;
  v ← lua_value (-1);
  line ← (match tointeger v with Some z => mret (to_int z) | None => cub end);
  err_getfield 1 "function";;
  func ← lua_value (-1);
  let description := tostring description in
  (match tostring func, tostring file with
   | Some func, _ => lua_push (VStr (c_str func ++ ": " ++ fmt_s description))
   | None, Some file => lua_push (VStr (c_str file ++ ":" ++ number2str (of_Z line) ++ ": " ++ fmt_s description))
   | None, None => push_cstr description
   end);;
  lua_replace 2;;
  lua_settop 2;;
  mret (NRet 1).

Definition ratchet_error_is : M next :=
  lua_settop 2;;
  v ← lua_value 1;
  code ← lua_value 2;
  if isstring v then lua_push (VBool (lua_equal (default VNil v) (default VNil code)));; mret (NRet 1)
  else
    err_getfield 1 "type";;
    t ← lua_value (-1);
    lua_pop 1;;
    if negb (strequal t "ratchet_error") then lua_push (VBool false);; mret (NRet 1)
    else
      err_getfield 1 "code";;
      c ← lua_value (-1);
      lua_push (VBool (lua_equal (default VNil c) (default VNil code)));;
      mret (NRet 1).

Definition error_fns (f : nat) : option (M next) :=
  if (f =? EF_new)%nat then Some ratchet_error_new
  else if (f =? EF_is)%nat then Some ratchet_error_is
  else if (f =? EF_get_string)%nat then Some ratchet_error_get_string
  else None.
Definition ratchet_error_tostring : M next :=
  lua_settop 1;;
  err_getfield 1 "thread";;
  th ← lua_value (-1);
  err_getfield 1 "get_string";;
  lua_pushvalue 1;;
  lua_call_fn error_fns 1 (Some 1%nat);;
  msg ← lua_value (-1);
  (if isthread th then lua_push (VStr (e_traceback (default VNil th) (tostring msg))) else mret tt);;
  mret (NRet 1).

(** ** The record behind a table *)
Definition opt_str (v : value) : option (option string) := match v with VNil => Some None | VStr s => Some (Some s) | _ => None end.
Definition opt_num (v : value) : option (option Z) :=
  match v with VNil => Some None | VNum n => match to_Z n with Some z => Some (Some z) | None => None end | _ => None end.
Definition error_view (t : tab) : option rerror :=
  match field t "type", field t "description" with
  | VStr ty, VStr d =>
      if String.eqb ty "ratchet_error" then
        c ← opt_str (field t "code"); f ← opt_str (field t "function"); sc ← opt_str (field t "syscall"); e ← opt_num (field t "errno");
        Some (RError d c f sc e)
      else None
  | _, _ => None
  end.

(** ** What the constructor builds *)

(** Arguments that [ratchet_error_new] takes: strings or nil, integers or nil. *)
Definition str_or_nil (v : value) : Prop := match v with VNil | VStr _ => True | _ => False end.
Definition int_or_nil (v : value) : Prop := match v with VNil => True | VNum n => is_Some (to_Z n) | _ => False end.

Definition error_table (thread : option value) (description code function file line syscall errno : value) : tab :=
  foldl (fun t p => set_field t p.1 p.2) (Tab ∅ ∅)
    (match thread with Some th => [("thread"%string, th)] | None => [] end ++
     [("type", VStr "ratchet_error"); ("description", description); ("code", code); ("function", function); ("file", file);
      ("line", line); ("syscall", syscall); ("errno", errno)]%string).
Definition thread_field (o : estate) : option value := if eo_main o then None else Some (eo_thread o).

(** The state with the table [t] as a new error object. *)
Definition with_error (s : lstate mem estate) (t : tab) : lstate mem estate :=
  LState (<[ls_next s := t]> (ls_tabs s)) (ls_uds s) (S (ls_next s))
    (EState (<[ls_next s := ERROR_META]> (eo_meta (ls_os s))) (eo_thread (ls_os s)) (eo_main (ls_os s)) (eo_errno (ls_os s))).

Lemma check_optstringE i k (s : lstate mem estate) p v : pos k i = Some p -> k !! p = Some v -> str_or_nil v -> check_optstring i k s = CVal tt k s.
Proof.
  intros Hp Hk Hv. unfold check_optstring. rewrite bindE, (valueE _ _ _ _ Hp), Hk. destruct v; try done.
  cbn. unfold luaL_checklstring. rewrite !bindE, (valueE _ _ _ _ Hp), Hk. done.
Qed.
Lemma check_optintE i k (s : lstate mem estate) p v : pos k i = Some p -> k !! p = Some v -> int_or_nil v -> check_optint i k s = CVal tt k s.
Proof.
  intros Hp Hk Hv. unfold check_optint, luaL_optint. rewrite !bindE, (valueE _ _ _ _ Hp), Hk. destruct v as [| |n| | | | | | |]; try done.
  destruct Hv as [z Hz]. cbn. unfold luaL_checkint, luaL_checkinteger. rewrite !bindE, (valueE _ _ _ _ Hp), Hk. cbn. by rewrite Hz.
Qed.
Lemma checkstringE i k (s : lstate mem estate) p d : pos k i = Some p -> k !! p = Some (VStr d) -> luaL_checklstring i k s = CVal d k s.
Proof. intros Hp Hk. unfold luaL_checklstring. rewrite bindE, (valueE _ _ _ _ Hp), Hk. done. Qed.

Ltac eop := first
  [ lop
  | match goal with
    | |- context [check_optstring ?i ?k ?s] => erewrite (check_optstringE i k s) by (lpos || reflexivity || assumption)
    | |- context [check_optint ?i ?k ?s] => erewrite (check_optintE i k s) by (lpos || reflexivity || assumption)
    | |- context [luaL_checklstring ?i ?k ?s] => erewrite (checkstringE i k s) by (lpos || reflexivity)
    end; cbv beta iota; lnorm ].
Lemma ratchet_error_newE d code function file line syscall errno (s : lstate mem estate) :
  str_or_nil code -> str_or_nil function -> str_or_nil file -> int_or_nil line -> str_or_nil syscall -> int_or_nil errno ->
  ratchet_error_new [VStr d; code; function; file; line; syscall; errno] s =
    CVal (NRet 1) [VStr d; code; function; file; line; syscall; errno; VTab (ls_next s)]
      (with_error s (error_table (thread_field (ls_os s)) (VStr d) code function file line syscall errno)).
Proof.
  intros. destruct s as [tabs uds n [m th mn e]]. unfold ratchet_error_new. lrun. unfold lua_setmetatable, sys. lrun.
  cbn [eo_main eo_thread eo_meta eo_errno ls_os ls_next ls_tabs ls_uds set_ls_os set_ls_next set_ls_tabs]. unfold with_error, thread_field. cbn [ls_os eo_main].
  destruct mn; cbv beta iota; repeat eop.
  all: cbn; by rewrite ?insert_insert_eq.
Qed.

Lemma err_getfieldE i name k (s : lstate mem estate) p l t : pos k i = Some p -> k !! p = Some (VTab l) -> ls_tabs s !! l = Some t ->
  error_meth name = VNil -> err_getfield i name k s = CVal tt (k ++ [field t name]) s.
Proof.
  intros Hp Hk Ht Hm. unfold err_getfield. rewrite bindE, (valueE _ _ _ _ Hp), Hk, bindE, (get_tabE _ _ _ _ Ht), bindE. cbv [gstate]. rewrite Hm.
  destruct (field t name) eqn:E; cbn; try done. by destruct (bool_decide _).
Qed.
Ltac fop := first
  [ eop
  | match goal with |- context [err_getfield ?i ?f ?k ?s] => erewrite (err_getfieldE i f k s) by (lpos || eassumption || reflexivity) end;
    cbv beta iota; lnorm ].

(** The fields of a table with a record behind it. *)
Lemma error_view_inv t r : error_view t = Some r ->
  field t "type" = VStr "ratchet_error" /\ field t "description" = VStr (err_description r) /\
  opt_str (field t "code") = Some (err_code r) /\ opt_str (field t "function") = Some (err_function r).
Proof.
  unfold error_view. destruct (field t "type") as [| | |ty| | | | | |]; try done. destruct (field t "description"); try done.
  destruct (String.eqb ty "ratchet_error") eqn:E; [|done]. apply String.eqb_eq in E as ->.
  intros (c & Ec & (f & Ef & (sc & _ & (e & _ & [= <-])%bind_Some)%bind_Some)%bind_Some)%bind_Some. done.
Qed.
Lemma get_stringE l t r f (s : lstate mem estate) : ls_tabs s !! l = Some t -> error_view t = Some r -> err_function r = Some f -> int_or_nil (field t "line") ->
  ratchet_error_get_string [VTab l] s = CVal (NRet 1) [VTab l; VStr (c_str f ++ ": " ++ c_str (err_description r))] s.
Proof.
  intros Ht (Hty & Hd & _ & Hf)%error_view_inv Er Hl. rewrite Er in Hf. unfold ratchet_error_get_string. repeat fop.
  assert (exists z, tointeger (Some (field t "line")) = Some z) as [z Hz].
  { unfold tointeger, tonumberx. destruct (field t "line"); cbn in *; try done; eauto. }
  rewrite Hz. repeat fop. rewrite Hd. destruct (field t "function"); simplify_eq/=. repeat fop. done.
Qed.
Lemma is_codeE l t r code index (s : lstate mem estate) : ls_tabs s !! l = Some t -> error_view t = Some r ->
  exists k b, ratchet_error_is [VTab l; code] s = CVal (NRet 1) (k ++ [VBool b]) s /\ Error.ratchet_error_is index (VErr r) code = Some b.
Proof.
  intros Ht (Hty & _ & Hc & _)%error_view_inv. unfold ratchet_error_is. repeat fop. cbn [isstring]. repeat fop. rewrite Hty. repeat fop.
  unfold strequal, strcmp0. cbn -[lua_equal]. repeat fop. eexists [_; _; _], _. split; [reflexivity|]. cbn -[lua_equal]. do 2 f_equal.
  destruct (field t "code"); simplify_eq/=; by destruct (err_code r); simplify_eq/=.
Qed.

Lemma error_table_view th d code function file line syscall errno c f sc e : opt_str code = Some c -> opt_str function = Some f ->
  opt_str syscall = Some sc -> opt_num errno = Some e -> error_view (error_table th (VStr d) code function file line syscall errno) = Some (RError d c f sc e) /\
  field (error_table th (VStr d) code function file line syscall errno) "line" = line.
Proof.
  intros Hc Hf Hs He. unfold error_view, error_table. destruct th; cbn [app foldl fst snd].
  all: rewrite !field_setE; repeat first [rewrite decide_True by done | rewrite decide_False by done]; by rewrite Hc, Hf, Hs, He.
Qed.

Lemma opt_str_nil v c : opt_str v = Some c -> str_or_nil v.
Proof. by destruct v. Qed.
Lemma opt_num_nil v e : opt_num v = Some e -> int_or_nil v.
Proof. destruct v; try done. cbn. destruct (to_Z n); [by eexists|done]. Qed.
Definition vopt (s : option string) : value := match s with Some s => VStr s | None => VNil end.
Lemma opt_str_vopt s : opt_str (vopt s) = Some s.
Proof. by destruct s. Qed.
Lemma opt_num_of_Z z : Z.abs z < 2 ^ 53 -> opt_num (VNum (of_Z z)) = Some (Some z).
Proof. intros Hz. cbn. by rewrite to_Z_of_Z. Qed.

(** A call of the constructor from C. *)
Lemma call_newE k d code function file line syscall errno c f sc e (s : lstate mem estate) :
  opt_str code = Some c -> opt_str function = Some f -> str_or_nil file -> int_or_nil line -> opt_str syscall = Some sc -> opt_num errno = Some e ->
  exists t, error_view t = Some (RError d c f sc e) /\ int_or_nil (field t "line") /\
    lua_call_fn (fun f => if (f =? EF_new)%nat then Some ratchet_error_new else None) 7 (Some 1%nat)
      (k ++ [VFun EF_new; VStr d; code; function; file; line; syscall; errno]) s = CVal tt (k ++ [VTab (ls_next s)]) (with_error s t).
Proof.
  intros Hc Hf Hfi Hl Hs He. pose proof (error_table_view (thread_field (ls_os s)) d code function file line syscall errno c f sc e Hc Hf Hs He) as [Hv Hline].
  eexists. split; [exact Hv|]. split; [by rewrite Hline|].
  rewrite (call_fnE _ k EF_new ratchet_error_new [VStr d; code; function; file; line; syscall; errno] (Some 1%nat) s eq_refl).
  rewrite ratchet_error_newE by eauto using opt_str_nil, opt_num_nil. done.
Qed.

(** C22: The error objects are the records that the model of the other modules raises. The
    table that [ratchet_error_errno] or [ratchet_error_str] builds and throws has
    behind it the record of Error.v for the same function, system call and number,
    or code and text, with the description and the code of the number; of the state
    nothing else changes; and on every such table [is] and [get_string] answer as
    they do for the record. *)
Theorem error_objects_refine f sc fi code d line k (s : lstate mem estate) :
  Z.abs line < 2 ^ 53 -> Z.abs (eo_errno (ls_os s)) < 2 ^ 53 ->
  (exists t r, ratchet_error_errno_ln (A := next) (Some f) (Some sc) (Some fi) line k s = CErr (VTab (ls_next s)) (with_error s t) /\
    int_or_nil (field t "line") /\ error_view t = Some r /\
    VErr r = Error.ratchet_error_errno errno_description (c_str f) (c_str sc) (eo_errno (ls_os s))) /\
  (exists t r, ratchet_error_str_ln (A := next) (Some f) (Some code) (Some fi) line d k s = CErr (VTab (ls_next s)) (with_error s t) /\
    int_or_nil (field t "line") /\ error_view t = Some r /\ VErr r = Error.ratchet_error_str (c_str f) (c_str code) d) /\
  (forall l t r (s' : lstate mem estate), ls_tabs s' !! l = Some t -> error_view t = Some r -> int_or_nil (field t "line") ->
    (forall x, Error.ratchet_error_get_string r = Some x -> ratchet_error_get_string [VTab l] s' = CVal (NRet 1) [VTab l; VStr x] s') /\
    (forall v index, exists q b, ratchet_error_is [VTab l; v] s' = CVal (NRet 1) (q ++ [VBool b]) s' /\
      Error.ratchet_error_is index (VErr r) v = Some b)).
Proof.
  intros Hl He. split_and!.
  - pose (e := eo_errno (ls_os s)).
    destruct (call_newE [] (errno_description e) (vopt (Error.ratchet_error_push_code e)) (VStr (c_str f)) (VStr (c_str fi)) (VNum (of_Z line)) (VStr (c_str sc))
      (VNum (of_Z e)) _ _ _ _ s (opt_str_vopt _) eq_refl I (opt_num_nil _ _ (opt_num_of_Z _ Hl)) eq_refl (opt_num_of_Z _ He)) as (t & Hv & Hi & E).
    eexists t, _. split_and!; [|exact Hi|exact Hv|].
    + unfold ratchet_error_errno_ln, push_cstr. repeat eop. fold e. rewrite Stk.settop_0. unfold vopt in E. cbn [app] in *. rewrite E. unfold lua_error. by repeat eop.
    + unfold Error.ratchet_error_errno, push_errno_description, errno_description, e. by destruct (eo_errno (ls_os s) =? 0).
  - destruct (call_newE [VStr d] d (VStr (c_str code)) (VStr (c_str f)) (VStr (c_str fi)) (VNum (of_Z line)) VNil VNil _ _ _ _ s eq_refl eq_refl I
      (opt_num_nil _ _ (opt_num_of_Z _ Hl)) eq_refl eq_refl) as (t & Hv & Hi & E).
    eexists t, _. split_and!; [|exact Hi|exact Hv|done].
    unfold ratchet_error_str_ln, ratchet_error_top_ln, push_cstr. rewrite !bindE. cbv [lua_settop]. cbv beta iota. rewrite Stk.settop_0. repeat eop. cbn [app] in E. rewrite E. unfold lua_error. by repeat eop.
  - intros l t r s' Ht Hv Hi. split; [|intros v index; by eapply is_codeE]. intros x. unfold Error.ratchet_error_get_string.
    intros (g & Hg & [= <-])%bind_Some. by eapply get_stringE.
Qed.
End ErrorObj.

(** ** A witness *)
Module ErrorWitnesses.
#[export] Instance conv : LuaConv := {| str2number _ := None; number2str _ := ""%string |}.
#[export] Instance simerr : ErrOS := {| e_strerror_r _ := Some "Broken pipe"%string; e_traceback _ _ := ""%string |}.
Definition s0 : lstate unit estate := LState ∅ ∅ 0 (EState ∅ VNil true EPIPE).
Lemma error_objects_refine_witness :
  exists t r, ratchet_error_errno_ln (A := next) (Some "ratchet.socket.send()"%string) (Some "send"%string) (Some "socket.c"%string) 1000 [] s0 =
      CErr (VTab 0) (with_error s0 t) /\ error_view t = Some r /\ err_code r = Some "EPIPE"%string /\
    ratchet_error_get_string [VTab 0] (with_error s0 t) = CVal (NRet 1) [VTab 0; VStr "ratchet.socket.send(): Broken pipe"] (with_error s0 t).
Proof.
  destruct (error_objects_refine (mem := unit) "ratchet.socket.send()" "send" "socket.c" "" "" 1000 [] s0) as ((t & r & E & Hi & Hv & Hr) & _ & Hm);
    [vm_compute; reflexivity..|].
  exists t, r. split_and!; [exact E|exact Hv|injection Hr as ->; reflexivity|].
  apply (proj1 (Hm 0%nat t r (with_error s0 t) (lookup_insert_eq _ _ _) Hv Hi)). injection Hr as ->. vm_compute. reflexivity.
Defined.
End ErrorWitnesses.
