(* ===== verification/Exec.v ===== *)
(** exec.c: subprocesses. *)

From stdpp Require Import prelude gmap strings.
From Stdlib Require Import ZArith Lia SpecFloat.
From S2P Require Import Prelude Double Lua Misc Error LuaC.
Local Open Scope Z_scope.

(** ** Data *)

(** struct rexec_state. *)
Record rexec_state := ExecState { pid : Z; infds : Z * Z; outfds : Z * Z; errfds : Z * Z }.
Definition clear_state : rexec_state := ExecState 0 (-1, -1) (-1, -1) (-1, -1).

(** The descriptor a file object points to, inside the state of its process. *)
Inductive stream := Stdin | Stdout | Stderr.
#[export] Instance stream_eq_dec : EqDecision stream.
Proof. solve_decision. Defined.

(** The memory blocks of the module: the state of a process, and the pointer of a
    file object ([int **]). *)
Inductive emem :=
  | MExec (st : rexec_state)
  | MFile (exec : nat) (which : stream).

Definition stream_fd (st : rexec_state) (w : stream) : Z :=
  match w with Stdin => (infds st).2 | Stdout => (outfds st).1 | Stderr => (errfds st).1 end.
Definition set_stream_fd (st : rexec_state) (w : stream) (fd : Z) : rexec_state :=
  match w with
  | Stdin => ExecState (pid st) ((infds st).1, fd) (outfds st) (errfds st)
  | Stdout => ExecState (pid st) (infds st) (fd, (outfds st).2) (errfds st)
  | Stderr => ExecState (pid st) (infds st) (outfds st) (fd, (errfds st).2)
  end.

Definition EXEC_META : string := "ratchet_exec_meta".
Definition WRITE_META : string := "ratchet_exec_file_write_meta".
Definition READ_META : string := "ratchet_exec_file_read_meta".

(** Constants of the platform. *)
Definition LUAL_BUFFERSIZE : Z := 8192.
Definition SIGPIPE : Z := 13.
Definition SIGTERM : Z := 15.
Definition SIGCHLD : Z := 17.

(** ** The operating system

    The calls exec.c makes, on an abstract state. An errno is returned where the
    call fails with -1. *)
Class ExecOS := {
  eos : Type;
  os_pipe : eos -> eos * (Z + Z * Z);
  (** [fork] and, in the child, [execvp] of the arguments with the given
      descriptors for its pipes: the pid, or -1. *)
  os_fork : list string -> rexec_state -> eos -> eos * Z;
  os_close : Z -> eos -> eos * (Z + unit);
  os_set_nonblocking : Z -> eos -> eos * (Z + unit);
  os_read : Z -> Z -> eos -> eos * (Z + string);
  os_write : Z -> string -> eos -> eos * (Z + Z);
  (** [waitpid (pid, &status, WNOHANG)]: the pid (0: no state change) and status. *)
  os_waitpid : Z -> eos -> eos * (Z + Z * Z);
  os_kill : Z -> Z -> eos -> eos * (Z + unit);
  os_time : eos -> Z;
  os_strerror : Z -> string;
}.

(** The addresses of the functions, for [VFun]. *)
Definition F_communicate : nat := 1.
Definition F_start : nat := 2.
Definition F_wait : nat := 3.
Definition F_read : nat := 4.
Definition F_write : nat := 5.
Definition F_close : nat := 6.
Definition F_kill : nat := 7.
Definition F_clean_up : nat := 8.
Definition F_get_fd : nat := 9.
Definition F_new : nat := 10.
Definition F_get_argv : nat := 11.
Definition F_get_start_time : nat := 12.
Definition F_stdin : nat := 13.
Definition F_stdout : nat := 14.
Definition F_stderr : nat := 15.

(** The method tables that [luaopen_ratchet_exec] registers. *)
Definition exec_methods (meta name : string) : option nat :=
  let find l := snd <$> list_find (fun p : string * nat => p.1 = name) l ≫= fun p => Some p.2 in
  if String.eqb meta EXEC_META then
    find [("get_argv", F_get_argv); ("communicate", F_communicate); ("start", F_start);
          ("get_start_time", F_get_start_time); ("stdin", F_stdin); ("stdout", F_stdout); ("stderr", F_stderr);
          ("wait", F_wait); ("kill", F_kill)]%string
  else if String.eqb meta READ_META then
    find [("get_fd", F_get_fd); ("read", F_read); ("close", F_close)]%string
  else if String.eqb meta WRITE_META then
    find [("get_fd", F_get_fd); ("write", F_write); ("close", F_close)]%string
  else None.

(** ** The child's side of start_process *)

(** The descriptors of a process, and what the child does to its copy between
    [fork] and [execvp]: [None] is [_exit (1)]. *)
Definition fds := gmap Z nat.
Definition dup2 (t : fds) (old new : Z) : option fds :=
  match t !! old with Some f => Some (<[new := f]> t) | None => None end.

Definition child_fds (st : rexec_state) (t : fds) : option fds :=
  let t := delete (infds st).2 t in
  let t := delete (outfds st).1 t in
  let t := delete (errfds st).1 t in
  let t := delete 0 t in
  let t := delete 1 t in
  let t := delete 2 t in
  t ← dup2 t (infds st).1 0;
  let t := delete (infds st).1 t in
  t ← dup2 t (outfds st).2 1;
  let t := delete (outfds st).2 t in
  t ← dup2 t (errfds st).2 2;
  Some (delete (errfds st).2 t).

Section Exec.
Context `{LuaConv, ExecOS}.
Abbreviation M := (C emem eos).
Abbreviation getfield := (lua_getfield exec_methods).

Definition errno (function syscall : string) (e : Z) : value := ratchet_error_errno os_strerror function syscall e.

(** The state behind an exec object, and behind the pointer of a file object. *)
Definition exec_of (u : nat) : M rexec_state :=
  d ← get_ud u; match ud_mem d with MExec st => mret st | MFile _ _ => cub end.
Definition put_exec (u : nat) (st : rexec_state) : M unit := put_mem u (MExec st).
Definition file_of (u : nat) : M (nat * stream) :=
  d ← get_ud u; match ud_mem d with MFile e w => mret (e, w) | MExec _ => cub end.

(** [close (fd)] with the result ignored, if the descriptor is open. *)
Definition close_fd (fd : Z) : M unit :=
  if 0 <=? fd then _ ← sys (os_close fd); mret tt else mret tt.

(** ** Starting a process *)

(** [alloc_argv_array]: the array part of [argv] up to the first nil; the
    arguments are C strings. *)
Fixpoint argv_items (n : nat) (t : tab) (i : Z) : M (list string) :=
  match n with
  | O => mret []
  | S n' =>
      match rawget t i with
      | VNil => mret []
      | v => match tostring (Some v) with
             | Some str => rest ← argv_items n' t (i + 1); mret (c_str str :: rest)
             | None => cub
             end
      end
  end.

Definition alloc_argv_array : M (list string) :=
  lua_getuservalue 1;;
  getfield (-1) "argv";;
  lua_remove (-2);;
  v ← lua_value (-1);
  match v with
  | Some (VTab l) => t ← get_tab l; argv_items (S (size (t_arr t))) t 1
  | _ => cub
  end.

(** [start_process]. The parent does not look at the result of [fork] other than
    to tell the child, so that -1 is taken for a pid. *)
Definition start_process (u : nat) (argv : list string) : M unit :=
  let pipe (store : rexec_state -> Z * Z -> rexec_state) :=
    r ← sys os_pipe;
    match r with
    | inl e => craise (errno "ratchet.exec.start()" "pipe" e)
    | inr fds => st ← exec_of u; put_exec u (store st fds)
    end in
  pipe (fun st p => ExecState (pid st) p (outfds st) (errfds st));;
  pipe (fun st p => ExecState (pid st) (infds st) p (errfds st));;
  pipe (fun st p => ExecState (pid st) (infds st) (outfds st) p);;
  st ← exec_of u;
  child ← sys (os_fork argv st);
  _ ← sys (os_close (infds st).1);
  _ ← sys (os_close (outfds st).2);
  _ ← sys (os_close (errfds st).2);
  _ ← sys (os_set_nonblocking (infds st).2);
  _ ← sys (os_set_nonblocking (outfds st).1);
  _ ← sys (os_set_nonblocking (errfds st).1);
  put_exec u (ExecState child (infds st) (outfds st) (errfds st)).

Definition rexec_new : M next :=
  v ← lua_value 1;
  if negb (istable v) then craise (VStr "table expected")
  else
    u ← lua_newuserdata (MExec clear_state);
    luaL_setmetatable u EXEC_META;;
    lua_createtable;;
    lua_pushvalue 1;;
    lua_setfield (-2) "argv";;
    lua_setuservalue (-2);;
    mret (NRet 1).

(** A new file object for one stream, stored in the uservalue on the top. *)
Definition new_file (u : nat) (meta : string) (w : stream) (name : string) : M unit :=
  f ← lua_newuserdata (MFile u w);
  luaL_setmetatable f meta;;
  lua_setfield (-2) name.

Definition rexec_start : M next :=
  u ← luaL_checkudata 1 EXEC_META;
  s ← gstate;
  let start_time := os_time (ls_os s) in
  argv ← alloc_argv_array;
  start_process u argv;;
  lua_getuservalue 1;;
  lua_push (VNum (of_Z start_time));;
  lua_setfield (-2) "start_time";;
  new_file u WRITE_META Stdin "stdin";;
  new_file u READ_META Stdout "stdout";;
  new_file u READ_META Stderr "stderr";;
  st ← exec_of u;
  lua_push (VNum (of_Z (pid st)));;
  mret (NRet 1).

(** [rexec_clean_up], also the [__gc] metamethod: [waitpid] with WNOHANG only
    reaps a child that has ended. *)
Definition clean_up (u : nat) : M unit :=
  st ← exec_of u;
  close_fd (infds st).2;;
  close_fd (outfds st).1;;
  close_fd (errfds st).1;;
  let st := ExecState (pid st) ((infds st).1, -1) (-1, (outfds st).2) (-1, (errfds st).2) in
  put_exec u st;;
  (if 0 <? pid st then _ ← sys (os_waitpid (pid st)); mret tt else mret tt);;
  put_exec u (ExecState 0 (infds st) (outfds st) (errfds st)).

Definition rexec_clean_up : M next := u ← luaL_checkudata 1 EXEC_META; clean_up u;; mret (NRet 0).

(** The accessors of the uservalue. *)
Definition uservalue_field (name : string) : M next :=
  _ ← luaL_checkudata 1 EXEC_META;
  lua_getuservalue 1;;
  getfield (-1) name;;
  mret (NRet 1).
Definition rexec_get_argv : M next := uservalue_field "argv".
Definition rexec_get_start_time : M next := uservalue_field "start_time".

Definition stream_field (name meta function : string) : M next :=
  _ ← luaL_checkudata 1 EXEC_META;
  lua_getuservalue 1;;
  getfield (-1) name;;
  b ← luaL_testudata (-1) meta;
  if (b : bool) then mret (NRet 1) else craise (ratchet_error_str function "EBADF" "Must call start().").
Definition rexec_stdin : M next := stream_field "stdin" WRITE_META "ratchet.exec.stdin()".
Definition rexec_stdout : M next := stream_field "stdout" READ_META "ratchet.exec.stdout()".
Definition rexec_stderr : M next := stream_field "stderr" READ_META "ratchet.exec.stderr()".

(** ** Waiting and signalling *)

(** WEXITSTATUS and WIFEXITED. *)
Definition WEXITSTATUS (status : Z) : Z := Z.shiftr (Z.land status 65280) 8.
Definition WIFEXITED (status : Z) : bool := Z.land status 127 =? 0.

Definition rexec_wait (ctx : Z) : M next :=
  u ← luaL_checkudata 1 EXEC_META;
  t ← lua_value 2;
  if negb (isnoneornil t) && negb (isnumber t) then craise (VStr "Optional timeout number or nil expected.")
  else
    v ← lua_value 3;
    let timed_out := (ctx =? 1) && negb (toboolean v) in
    lua_settop 2;;
    st ← exec_of u;
    r ← sys (os_waitpid (pid st));
    match r with
    | inl e => craise (errno "ratchet.exec.wait()" "waitpid" e)
    | inr (ret, status) =>
        if ret =? 0 then
          if timed_out then craise (ratchet_error_str "ratchet.exec.wait()" "ETIMEDOUT" "Timed out on wait.")
          else
            lua_push (VLight YIELD_SIGNAL);;
            lua_push (VNum (of_Z SIGCHLD));;
            lua_pushvalue 2;;
            mret (NYield 3 1)
        else
          put_exec u (ExecState 0 (infds st) (outfds st) (errfds st));;
          clean_up u;;
          lua_push (VNum (of_Z (WEXITSTATUS status)));;
          lua_push (VBool (WIFEXITED status));;
          mret (NRet 2)
    end.

Definition rexec_kill : M next :=
  u ← luaL_checkudata 1 EXEC_META;
  lua_settop 2;;
  v ← lua_value 2;
  let sig := get_signal v SIGTERM in
  if sig =? -1 then craise (VStr "Invalid signal.")
  else
    st ← exec_of u;
    r ← sys (os_kill (pid st) sig);
    match r with
    | inl e => craise (errno "ratchet.exec.kill()" "kill" e)
    | inr _ => mret (NRet 0)
    end.

(** ** File objects *)

(** The descriptor behind a file object; [lua_topointer] does not check its type. *)
Definition file_fd (v : slot) : M (nat * stream * Z) :=
  match v with
  | Some (VUd f) => '(u, w) ← file_of f; st ← exec_of u; mret (u, w, stream_fd st w)
  | _ => cub
  end.

Definition rexec_file_get_fd : M next :=
  v ← lua_value 1; '(_, _, fd) ← file_fd v; lua_push (VNum (of_Z fd));; mret (NRet 1).

Definition rexec_file_close : M next :=
  v ← lua_value 1;
  '(u, w, fd) ← file_fd v;
  close_fd fd;;
  st ← exec_of u;
  put_exec u (set_stream_fd st w (-1));;
  mret (NRet 0).

(** [luaL_optunsigned] for a length. *)
Definition opt_len (v : slot) : M Z :=
  if isnoneornil v then mret LUAL_BUFFERSIZE
  else match tonumberx v with
       | Some n => match to_Z n with Some z => mret (z mod 2 ^ 32) | None => cub end
       | None => craise (VStr "number expected")
       end.

Definition rexec_file_read (ctx : Z) : M next :=
  f ← luaL_checkudata 1 READ_META;
  '(_, _, fd) ← file_fd (Some (VUd f));
  lua_settop 2;;
  v ← lua_value 2;
  len ← opt_len v;
  if LUAL_BUFFERSIZE <? len then craise (VStr "Cannot read more than 8192 bytes")
  else
    r ← sys (os_read fd len);
    match r with
    | inl e =>
        if e =? EAGAIN then
          lua_push (VLight YIELD_READ);; lua_pushvalue 1;; mret (NYield 2 1)
        else craise (errno "ratchet.exec.file.read()" "read" e)
    | inr data => lua_push (VStr data);; mret (NRet 1)
    end.

(** The rest of a string after [n] bytes. *)
Definition str_drop (n : Z) (d : string) : string := String.substring (Z.to_nat n) (String.length d - Z.to_nat n) d.

Definition rexec_file_write (ctx : Z) : M next :=
  f ← luaL_checkudata 1 WRITE_META;
  '(_, _, fd) ← file_fd (Some (VUd f));
  v ← lua_value 2;
  match tostring v with
  | None => craise (VStr "string expected")
  | Some data =>
      lua_settop 2;;
      r ← sys (os_write fd data);
      match r with
      | inl e =>
          if e =? EAGAIN then
            lua_push (VLight YIELD_WRITE);; lua_pushvalue 1;; mret (NYield 2 1)
          else craise (errno "ratchet.exec.file.write()" "write" e)
      | inr n =>
          if n <? Z.of_nat (String.length data)
          then lua_push (VStr (str_drop n data));; mret (NRet 1)
          else mret (NRet 0)
      end
  end.

(** ** communicate

    The states of [rexec_communicate], as its [ctx] numbers them; [goto top] is
    [NGoto]. The call of [stdin:close] in state 2 is followed, when it returns
    without yielding as it always does, by the code that is state 20 here. *)
Definition optstring (v : slot) : M (option string) :=
  if isnoneornil v then mret None
  else match tostring v with Some d => mret (Some d) | None => craise (VStr "string expected") end.

(** [strcmp ("", lua_tostring (L, -1)) == 0]. *)
Definition top_is_empty : M bool :=
  v ← lua_value (-1);
  match tostring v with Some d => mret (strcmp0 "" d) | None => cub end.

(** [lua_pushvalue (L, i); lua_insert (L, -2); lua_concat (L, 2); lua_replace (L, i)]. *)
Definition append_to (i : Z) : M unit :=
  lua_pushvalue i;;
  lua_insert (-2);;
  b ← take_top;
  a ← take_top;
  match tostring (Some a), tostring (Some b) with
  | Some x, Some y => lua_push (VStr (x ++ y))
  | _, _ => craise (VStr "attempt to concatenate a value")
  end;;
  lua_replace i.

(** Equality of the values at -1 and -3 (raw: the file objects have no [__eq]). *)
Definition top_equals_third : M bool :=
  a ← lua_value (-1); b ← lua_value (-3); mret (bool_decide (a = b)).

Definition rexec_communicate (ctx : Z) : M next :=
  _ ← luaL_checkudata 1 EXEC_META;
  v2 ← lua_value 2;
  data ← (if ctx <=? 2 then optstring v2 else mret None);
  if ctx =? 0 then
    lua_settop 2;;
    lua_push (VStr "");;
    lua_push (VStr "");;
    getfield 1 "start";;
    lua_pushvalue 1;;
    mret (NCall 1 0 1)
  else if ctx =? 1 then
    match data with
    | Some _ =>
        lua_getuservalue 1;;
        getfield (-1) "stdin";;
        lua_remove (-2);;
        getfield (-1) "write";;
        lua_insert (-2);;
        lua_pushvalue 2;;
        mret (NCall 2 1 2)
    | None => mret (NGoto 2)
    end
  else if ctx =? 2 then
    v ← lua_value (-1);
    if negb (isnil v) then lua_replace 2;; mret (NGoto 1)
    else
      lua_pop 1;;
      lua_getuservalue 1;;
      getfield (-1) "stdin";;
      lua_remove (-2);;
      getfield (-1) "close";;
      lua_insert (-2);;
      mret (NCall 1 0 20)
  else if ctx =? 20 then
    lua_getuservalue 1;;
    lua_createtable;;
    getfield (-2) "stdout";;
    lua_rawseti (-2) 1;;
    getfield (-2) "stderr";;
    lua_rawseti (-2) 2;;
    lua_replace 2;;
    lua_pop 1;;
    mret (NGoto 3)
  else if ctx =? 3 then
    lua_rawgeti 2 1;;
    v ← lua_value (-1);
    if isnil v then lua_pop 1;; mret (NGoto 9)
    else
      lua_pop 1;;
      lua_push (VLight YIELD_MULTIRW);;
      lua_pushvalue 2;;
      mret (NYield 2 4)
  else if ctx =? 4 then
    v ← lua_value (-1);
    if isnumber v && bool_decide (tointeger v = Some SIGPIPE) then lua_pop 1;; mret (NGoto 9)
    else
      lua_getuservalue 1;;
      getfield (-1) "stdout";;
      eq ← top_equals_third;
      if (eq : bool) then lua_replace (-3);; lua_pop 1;; mret (NGoto 5)
      else
        lua_pop 1;;
        getfield (-1) "stderr";;
        eq ← top_equals_third;
        if (eq : bool) then lua_replace (-3);; lua_pop 1;; mret (NGoto 7)
        else lua_pop 3;; mret (NGoto 3)
  else if ctx =? 5 then
    getfield (-1) "read";; lua_insert (-2);; mret (NCall 1 1 6)
  else if ctx =? 6 then
    e ← top_is_empty;
    if (e : bool) then
      lua_pop 1;;
      lua_pushvalue 2;;
      lua_rawgeti (-1) 2;;
      lua_rawseti (-2) 1;;
      lua_push VNil;;
      lua_rawseti (-2) 2;;
      lua_pop 1;;
      mret (NGoto 3)
    else append_to 3;; mret (NGoto 3)
  else if ctx =? 7 then
    getfield (-1) "read";; lua_insert (-2);; mret (NCall 1 1 8)
  else if ctx =? 8 then
    e ← top_is_empty;
    if (e : bool) then
      lua_pop 1;;
      lua_pushvalue 2;;
      lua_rawgeti (-1) 2;;
      v ← lua_value (-1);
      (if isnil v then lua_rawseti (-2) 1
       else lua_pop 1;; lua_push VNil;; lua_rawseti (-2) 2);;
      lua_pop 1;;
      mret (NGoto 3)
    else append_to 4;; mret (NGoto 3)
  else if ctx =? 9 then
    getfield 1 "wait";; lua_pushvalue 1;; mret (NCall 1 1 10)
  else if ctx =? 10 then mret (NRet 3)
  else craise (VStr "unreachable").

(** The functions of the module by address. *)
Definition exec_code (f : nat) : option (Z -> M next) :=
  nth f [None; Some rexec_communicate; Some (fun _ => rexec_start); Some rexec_wait; Some rexec_file_read;
         Some rexec_file_write; Some (fun _ => rexec_file_close); Some (fun _ => rexec_kill);
         Some (fun _ => rexec_clean_up); Some (fun _ => rexec_file_get_fd); Some (fun _ => rexec_new);
         Some (fun _ => rexec_get_argv); Some (fun _ => rexec_get_start_time); Some (fun _ => rexec_stdin);
         Some (fun _ => rexec_stdout); Some (fun _ => rexec_stderr)] None.
End Exec.

(** ** SIGCHLD

    What [luaopen_ratchet_exec] does once: children must not be reaped behind the back
    of waitpid(2), so the signal must not be ignored. The code has two variants, for
    systems with and without sigaction(2). *)
Inductive sighandler := SIG_DFL | SIG_IGN | SigHandler (address : Z).
Class SigOS := {
  sigs : Type;
  (** [sigaction (SIGCHLD, NULL, &old)] and [sigaction (SIGCHLD, &new, NULL)]. *)
  sigaction_get : sigs -> sigs * (Z + sighandler);
  sigaction_set : sighandler -> sigs -> sigs * (Z + unit);
  (** [signal (SIGCHLD, h)]: the handler before. *)
  os_signal : sighandler -> sigs -> sigs * (Z + sighandler);
  sig_strerror : Z -> string;
  (** The address of [sigchld_handler], which does nothing. *)
  sigchld_handler : Z;
}.

Section Sigchld.
Context `{SigOS}.
Definition sig_error (call : string) (e : Z) : value := ratchet_error_errno sig_strerror "ratchet.exec" call e.
Definition is_default (h : sighandler) : bool := match h with SigHandler _ => false | _ => true end.
(** With HAVE_SIGACTION. *)
Definition enable_sigchld_sigaction (s : sigs) : sigs * (value + unit) :=
  match sigaction_get s with
  | (s, inl e) => (s, inl (sig_error "sigaction" e))
  | (s, inr old) =>
      if is_default old then
        match sigaction_set (SigHandler sigchld_handler) s with
        | (s, inl e) => (s, inl (sig_error "sigaction" e))
        | (s, inr _) => (s, inr tt)
        end
      else (s, inr tt)
  end.
(** Without. *)
Definition enable_sigchld_signal (s : sigs) : sigs * (value + unit) :=
  match os_signal (SigHandler sigchld_handler) s with
  | (s, inl e) => (s, inl (sig_error "signal" e))
  | (s, inr ret) =>
      if is_default ret then (s, inr tt)
      else match os_signal ret s with
      | (s, inl e) => (s, inl (sig_error "signal" e))
      | (s, inr _) => (s, inr tt)
      end
  end.

(** On a system that keeps one handler ([current]), both variants succeed and leave
    the same one: that of the application if it has one, and never the one that
    ignores the signal. *)
Lemma sigchld_variants_agree (current : sigs -> sighandler) (set : sighandler -> sigs -> sigs) s :
  (forall h x, current (set h x) = h) -> (forall x, sigaction_get x = (x, inr (current x))) ->
  (forall h x, sigaction_set h x = (set h x, inr tt)) -> (forall h x, os_signal h x = (set h x, inr (current x))) ->
  let a := enable_sigchld_sigaction s in let b := enable_sigchld_signal s in
  a.2 = inr tt /\ b.2 = inr tt /\ current a.1 = current b.1 /\ is_default (current a.1) = false /\
  (is_default (current s) = false -> current a.1 = current s).
Proof.
  intros Hc Hg Hs Ho. unfold enable_sigchld_sigaction, enable_sigchld_signal. rewrite Hg, Ho.
  destruct (is_default (current s)) eqn:E; cbn; rewrite ?Hs, ?Ho; cbn; rewrite ?Hc; done.
Qed.
End Sigchld.
