(* ===== verification/ExecSpec.v ===== *)
(** [rexec_communicate] collects the output of the process: the states of its
    Lua stack along every run, for every operating system and every order in
    which the streams become ready. *)

From stdpp Require Import prelude gmap strings.
From Stdlib Require Import ZArith Lia SpecFloat.
From S2P Require Import Prelude Double Lua Misc Error LuaC Exec.
Local Open Scope Z_scope.

(** ** The system calls of a run

    Any operating system, with a record of the calls this run made. *)
Inductive call :=
  | DidRead (fd : Z) (data : string)
  | DidWrite (fd : Z) (data : string) (n : Z)
  | DidClose (fd : Z)
  | DidFork (argv : list string) (st : rexec_state) (child : Z)
  | DidWait (pid ret status : Z).

Definition recorded {A} (o : ExecOS) (f : @eos o -> @eos o * A) (ev : A -> list call)
    (s : @eos o * list call) : (@eos o * list call) * A :=
  let '(x, a) := f s.1 in ((x, s.2 ++ ev a), a).

Definition ev_none {A} (_ : A) : list call := [].
Definition ev_close {A} (fd : Z) (_ : A) : list call := [DidClose fd].
Definition ev_read (fd : Z) (r : Z + string) : list call := match r with inr d => [DidRead fd d] | inl _ => [] end.
Definition ev_write (fd : Z) (d : string) (r : Z + Z) : list call :=
  match r with inr n => [DidWrite fd d n] | inl _ => [] end.
Definition ev_fork (argv : list string) (st : rexec_state) (child : Z) : list call := [DidFork argv st child].
Definition ev_wait (pid : Z) (r : Z + Z * Z) : list call :=
  match r with inr (ret, status) => [DidWait pid ret status] | inl _ => [] end.

Definition logged (o : ExecOS) : ExecOS := {|
  eos := @eos o * list call;
  os_pipe := recorded o os_pipe ev_none;
  os_fork argv st := recorded o (os_fork argv st) (ev_fork argv st);
  os_close fd := recorded o (os_close fd) (ev_close fd);
  os_set_nonblocking fd := recorded o (os_set_nonblocking fd) ev_none;
  os_read fd n := recorded o (os_read fd n) (ev_read fd);
  os_write fd d := recorded o (os_write fd d) (ev_write fd d);
  os_waitpid p := recorded o (os_waitpid p) (ev_wait p);
  os_kill p sig := recorded o (os_kill p sig) ev_none;
  os_time s := os_time s.1;
  os_strerror := os_strerror |}.

(** The chunks that were read from a descriptor, and what was written to it. *)
Fixpoint chunks (fd : Z) (l : list call) : list string :=
  match l with
  | [] => []
  | DidRead fd' d :: l' => if fd' =? fd then d :: chunks fd l' else chunks fd l'
  | _ :: l' => chunks fd l'
  end.
Definition joined (cs : list string) : string := foldr String.append ""%string cs.
Fixpoint bytes_written (fd : Z) (l : list call) : string :=
  match l with
  | [] => ""
  | DidWrite fd' d n :: l' =>
      if fd' =? fd then (String.substring 0 (Z.to_nat n) d ++ bytes_written fd l')%string else bytes_written fd l'
  | _ :: l' => bytes_written fd l'
  end.
(** The calls of [fork]: the arguments and pipes for the child, and what it returned. *)
Fixpoint forks (l : list call) : list (list string * rexec_state * Z) :=
  match l with
  | [] => []
  | DidFork argv st child :: l' => (argv, st, child) :: forks l'
  | _ :: l' => forks l'
  end.
(** The chunks that code which compares them with strcmp(3) takes for output. *)
Definition nonempty (cs : list string) : Prop := Forall (fun c => c_str c <> ""%string) cs.
(** [acc] is what was read from a stream, up to the first chunk whose C string is
    empty: the end, where read(2) returned 0, or a chunk that starts with a NUL byte.
    Nothing was read after it. *)
Definition read_to_end (fd : Z) (l : list call) (acc : string) : Prop :=
  exists cs e, chunks fd l = cs ++ [e] /\ nonempty cs /\ c_str e = ""%string /\ acc = joined cs.

(** What the calls promise: [read] and [write] transfer at most what was asked
    for, [write] at least one byte of several, and three pipes made in a row have
    six different descriptors (read(2), write(2), pipe(2)). *)
Class Posix (o : ExecOS) : Prop := {
  write_ok fd d x x' n : os_write fd d x = (x', inr n) -> 0 <= n <= Z.of_nat (String.length d) /\ (d <> ""%string -> 0 < n);
  pipes_ok x x1 x2 x3 p1 p2 p3 : os_pipe x = (x1, inr p1) -> os_pipe x1 = (x2, inr p2) -> os_pipe x2 = (x3, inr p3) ->
    NoDup [p1.1; p1.2; p2.1; p2.2; p3.1; p3.2];
}.

Lemma chunks_app fd l l' : chunks fd (l ++ l') = chunks fd l ++ chunks fd l'.
Proof. induction l as [|c l IH]; [done|]. destruct c; cbn; auto. case_match; [|done]. by rewrite IH. Qed.
Lemma joined_app a b : joined (a ++ b) = (joined a ++ joined b)%string.
Proof. induction a as [|c a IH]; [done|]. unfold joined in *. cbn. by rewrite IH, append_assoc. Qed.

Lemma bytes_written_app fd l l' : bytes_written fd (l ++ l') = (bytes_written fd l ++ bytes_written fd l')%string.
Proof.
  induction l as [|c l IH]; [done|]. destruct c; cbn; auto. case_match; [|done]. by rewrite IH, append_assoc.
Qed.

Lemma forks_app l l' : forks (l ++ l') = forks l ++ forks l'.
Proof. induction l as [|c l IH]; [done|]. destruct c; cbn; by rewrite ?IH. Qed.

Section Comm.
Context `{LuaConv} (o : ExecOS).
#[local] Instance los : ExecOS := logged o.
Abbreviation St := (lstate emem (@eos los)).
Implicit Types s : St.
Definition log_of (s : St) : list call := @snd (@eos o) (list call) (ls_os s).

(** Code after a system call, with the event the record got. *)
Lemma sysE {A} (f : @eos o -> @eos o * A) (ev : A -> list call) (k : list value) (s : St) :
  exists x a, f (@fst (@eos o) (list call) (ls_os s)) = (x, a) /\
    sys (recorded o f ev : @eos los -> @eos los * A) k s = CVal a k (set_ls_os s ((x, log_of s ++ ev a) : @eos los)).
Proof.
  unfold sys, recorded, log_of. destruct (f _) as [x a] eqn:E. by exists x, a.
Qed.

(** The object [u] is an exec object with state [st] and uservalue [uv]. *)
Definition is_exec (s : St) (u uv : nat) (st : rexec_state) : Prop :=
  ls_uds s !! u = Some (UData (Some EXEC_META) (MExec st) (VTab uv)).
(** [f] is its file object for a stream. *)
Definition file_data (u : nat) (w : stream) : udata emem :=
  UData (Some (match w with Stdin => WRITE_META | _ => READ_META end)) (MFile u w) VNil.
Definition is_file (s : St) (u f : nat) (w : stream) : Prop := ls_uds s !! f = Some (file_data u w).

(** ** The run of [communicate (data)] on the object [u] *)
Context (u uv : nat) (args : list string) (data : string).

(** The file objects and the descriptors of the process. *)
Record info := Info { x_in : nat; x_out : nat; x_err : nat; x_st : rexec_state; x_pid : Z }.
Definition fd_in (x : info) : Z := (infds (x_st x)).2.
Definition fd_out (x : info) : Z := (outfds (x_st x)).1.
Definition fd_err (x : info) : Z := (errfds (x_st x)).1.

Record streams (s : St) (x : info) (infd : Z) : Prop := {
  sm_exec : exists st, is_exec s u uv st /\ (infds st).2 = infd /\ (outfds st).1 = fd_out x /\ (errfds st).1 = fd_err x /\
    pid st = x_pid x;
  sm_in : is_file s u (x_in x) Stdin;
  sm_out : is_file s u (x_out x) Stdout;
  sm_err : is_file s u (x_err x) Stderr;
  sm_tab : exists tb, ls_tabs s !! uv = Some tb /\ field tb "stdin" = VUd (x_in x) /\
    field tb "stdout" = VUd (x_out x) /\ field tb "stderr" = VUd (x_err x);
  sm_fds : fd_out x <> fd_err x;
  sm_next : (uv < ls_next s)%nat;
}.

(** The files still open, as the array at index 2 of the stack lists them. *)
Definition elem_of_list (l : list nat) (i : Z) : value :=
  if i =? 1 then match l with f :: _ => VUd f | [] => VNil end
  else if i =? 2 then match l with _ :: f :: _ => VUd f | _ => VNil end
  else VNil.
Definition holds (t : tab) (l : list nat) : Prop := forall i, rawget t i = elem_of_list l i.

Lemma rawget_rawset t n v i : rawget (rawset t n v) i = if i =? n then v else rawget t i.
Proof.
  unfold rawget, rawset. cbn. destruct (Z.eqb_spec i n) as [->|Hne]; destruct v; cbn;
    rewrite ?lookup_delete_eq, ?lookup_insert_eq, ?lookup_delete_ne, ?lookup_insert_ne by done; done.
Qed.

(** The stream [b]: standard output or standard error. *)
Definition file_of_stream (x : info) (b : bool) : nat := if b then x_out x else x_err x.
Definition fd_of_stream (x : info) (b : bool) : Z := if b then fd_out x else fd_err x.
Definition add_to (b c : bool) (acc chunk : string) : string := if Bool.eqb b c then (acc ++ chunk)%string else acc.

(** A chunk that was read and not looked at yet, and its stream. *)
Definition pending (p : option (bool * string)) (b : bool) : list string :=
  match p with Some (b', c) => if Bool.eqb b' b then [c] else [] | None => [] end.
(** What was collected of a stream: while its file is still in the array ([is_open]) all
    that was read, but a chunk that is pending; then all up to the end. *)
Definition got (fd : Z) (is_open : bool) (pend : list string) (log : list call) (acc : string) : Prop :=
  if is_open then exists cs, chunks fd log = cs ++ pend /\ nonempty cs /\ acc = joined cs
  else read_to_end fd log acc.

(** What has been collected, with the chunk that is pending. *)
Record collected_p (p : option (bool * string)) (s : St) (x : info) (l : list nat) (out err : string) : Prop := {
  co_forked : forks (log_of s) = [(c_str <$> args, x_st x, x_pid x)];
  co_data : bytes_written (fd_in x) (log_of s) = data;
  co_files : l ∈ [[x_out x; x_err x]; [x_out x]; [x_err x]; []];
  co_got (b : bool) : got (fd_of_stream x b) (bool_decide (file_of_stream x b ∈ l)) (pending p b) (log_of s) (if b then out else err);
}.
Record collecting_p (p : option (bool * string)) (s : St) (x : info) (T : nat) (l : list nat) (out err : string) : Prop := {
  cg_streams : streams s x (-1);
  cg_tab : exists t, ls_tabs s !! T = Some t /\ holds t l;
  cg_uv : T <> uv;
  cg_got : collected_p p s x l out err;
}.
Abbreviation collected := (collected_p None).
Abbreviation collecting := (collecting_p None).

(** Stacks of [communicate] before and after the array of files replaces the data. *)
Definition k0 (d : string) : list value := [VUd u; VStr d; VStr ""; VStr ""].
Definition k1 (T : nat) (out err : string) : list value := [VUd u; VTab T; VStr out; VStr err].
Record silent (s : St) (x : info) : Prop := {
  si_forked : forks (log_of s) = [(c_str <$> args, x_st x, x_pid x)];
  si_out : chunks (fd_out x) (log_of s) = [];
  si_err : chunks (fd_err x) (log_of s) = [];
}.
Definition written (s : St) (x : info) (d : string) : Prop := (bytes_written (fd_in x) (log_of s) ++ d)%string = data.

(** The table [t] lists the arguments. *)
Definition argv_table (t : tab) (args : list string) : Prop :=
  (forall i a, args !! i = Some a -> tostring (Some (rawget t (Z.of_nat i + 1))) = Some a) /\
  rawget t (Z.of_nat (length args) + 1) = VNil.
(** A new object: created by [ratchet.exec.new], not started. *)
Record fresh_exec (s : St) : Prop := {
  fe_exec : is_exec s u uv clear_state;
  fe_tab : exists tb al ta, ls_tabs s !! uv = Some tb /\ field tb "argv" = VTab al /\ ls_tabs s !! al = Some ta /\
    argv_table ta args;
  fe_next : (uv < ls_next s)%nat /\ (u < ls_next s)%nat;
}.

(** The process was waited for, with this status. *)
Definition reaped (s : St) (x : info) (ret status : Z) : Prop := DidWait (x_pid x) ret status ∈ log_of s /\ ret <> 0.

(** The states of a run, with a bound on the steps until it waits or ends. *)
Inductive phase : nat -> nat -> Z -> list value -> list frame -> St -> Prop :=
  | ph_0 s : fresh_exec s -> log_of s = [] ->
      phase (15 + 3 * String.length data) F_communicate 0 [VUd u; VStr data] [] s
  | ph_start s : fresh_exec s -> log_of s = [] ->
      phase (14 + 3 * String.length data) F_start 0 [VUd u] [Frame F_communicate 1 (k0 data) 0] s
  | ph_1 s x d : streams s x (fd_in x) -> written s x d -> silent s x ->
      phase (13 + 3 * String.length d) F_communicate 1 (k0 d) [] s
  | ph_write s x d ctx rest : streams s x (fd_in x) -> written s x d -> silent s x -> rest = [] \/ (exists b, rest = [VBool b]) ->
      phase (12 + 3 * String.length d) F_write ctx (VUd (x_in x) :: VStr d :: rest) [Frame F_communicate 2 (k0 d) 1] s
  | ph_2_more s x d d' : streams s x (fd_in x) -> written s x d' -> silent s x ->
      phase (14 + 3 * String.length d') F_communicate 2 (k0 d ++ [VStr d']) [] s
  | ph_2_done s x d : streams s x (fd_in x) -> written s x "" -> silent s x ->
      phase 10 F_communicate 2 (k0 d ++ [VNil]) [] s
  | ph_close s x d : streams s x (fd_in x) -> written s x "" -> silent s x ->
      phase 9 F_close 0 [VUd (x_in x)] [Frame F_communicate 20 (k0 d) 0] s
  | ph_20 s x d : streams s x (-1) -> written s x "" -> silent s x ->
      phase 8 F_communicate 20 (k0 d) [] s
  | ph_4 s x T l out err f : collecting s x T l out err -> f ∈ l ->
      phase 7 F_communicate 4 (k1 T out err ++ [VUd f]) [] s
  | ph_5 s x T l out err (b : bool) : collecting s x T l out err -> file_of_stream x b ∈ l ->
      phase 6 F_communicate (if b then 5 else 7) (k1 T out err ++ [VUd (file_of_stream x b)]) [] s
  | ph_read s x T l out err (b : bool) ctx rest : collecting s x T l out err -> file_of_stream x b ∈ l ->
      rest = [] \/ (exists c, rest = [VNil; VBool c]) ->
      phase 5 F_read ctx (VUd (file_of_stream x b) :: rest) [Frame F_communicate (if b then 6 else 8) (k1 T out err) 1] s
  | ph_6 s x T l out err (b : bool) chunk : collecting_p (Some (b, chunk)) s x T l out err -> file_of_stream x b ∈ l ->
      phase 4 F_communicate (if b then 6 else 8) (k1 T out err ++ [VStr chunk]) [] s
  | ph_3 s x T l out err : collecting s x T l out err ->
      phase 3 F_communicate 3 (k1 T out err) [] s
  | ph_9 s x T out err st : is_exec s u uv st -> pid st = x_pid x -> collected s x [] out err ->
      phase 2 F_communicate 9 (k1 T out err) [] s
  | ph_wait s x T out err st ctx rest : is_exec s u uv st -> pid st = x_pid x -> collected s x [] out err ->
      rest = [] \/ (exists c, rest = [VNil; VBool c]) ->
      phase 1 F_wait ctx (VUd u :: rest) [Frame F_communicate 10 (k1 T out err) 1] s
  | ph_10 s x T out err st ret status : is_exec s u uv st -> collected s x [] out err -> reaped s x ret status ->
      phase 0 F_communicate 10 (k1 T out err ++ [VNum (of_Z (WEXITSTATUS status))]) [] s.

(** The points where a run waits. *)
Inductive waiting : list value -> susp -> St -> Prop :=
  | wt_write s x d : streams s x (fd_in x) -> written s x d -> silent s x ->
      waiting [VLight YIELD_WRITE; VUd (x_in x)] (Susp F_write 1 [VUd (x_in x); VStr d] [Frame F_communicate 2 (k0 d) 1]) s
  | wt_multi s x T l out err : collecting s x T l out err -> l <> [] ->
      waiting [VLight YIELD_MULTIRW; VTab T] (Susp F_communicate 4 (k1 T out err) []) s
  | wt_read s x T l out err (b : bool) : collecting s x T l out err -> file_of_stream x b ∈ l ->
      waiting [VLight YIELD_READ; VUd (file_of_stream x b)]
        (Susp F_read 1 [VUd (file_of_stream x b); VNil] [Frame F_communicate (if b then 6 else 8) (k1 T out err) 1]) s
  | wt_wait s x T out err st : is_exec s u uv st -> pid st = x_pid x -> collected s x [] out err ->
      waiting [VLight YIELD_SIGNAL; VNum (of_Z SIGCHLD); VNil]
        (Susp F_wait 1 [VUd u; VNil] [Frame F_communicate 10 (k1 T out err) 1]) s.

Definition good (m : nat) (a : after emem (@eos los)) : Prop :=
  match a with
  | Running c => exists r, (r < m)%nat /\ phase r (c_fun c) (c_ctx c) (c_stk c) (c_frames c) (c_st c)
  | Suspended vs w s => waiting vs w s
  | Finished vs s => exists x out err ret status, vs = [VStr out; VStr err; VNum (of_Z (WEXITSTATUS status))] /\
      collected s x [] out err /\ reaped s x ret status
  | Raised _ _ => True
  | Broken => False
  end.

Abbreviation estep := (step exec_code).

(** The body of a function at the head of a step. *)
Ltac body f g := unfold step; cbn [c_fun c_ctx c_stk c_frames c_st]; change (exec_code f) with (Some g); cbv beta iota.
Ltac exec_facts := repeat match goal with
  | H : is_exec _ _ _ _ |- _ => unfold is_exec in H
  | H : is_file _ _ _ _ |- _ => unfold is_file, file_data in H
  end.

Lemma optstringE d k s : @optstring _ los (Some (VStr d)) k s = CVal (Some d) k s.
Proof. done. Qed.

Lemma step_3 s x T l out err : collecting s x T l out err -> good 3 (estep (Conf F_communicate 3 (k1 T out err) [] s)).
Proof.
  intros Hcg. pose proof Hcg as [[(st & He & _ & _ & _ & Hp) _ _ _ _ _ _] (t & Ht & Hh) Hne Hc].
  body F_communicate (@rexec_communicate _ los). unfold rexec_communicate, k1. exec_facts. lrun.
  rewrite (Hh 1). unfold elem_of_list. destruct l as [|f l]; lrun.
  - exists 2%nat. split; [lia|]. by eapply ph_9.
  - by apply (wt_multi s x T (f :: l)).
Qed.

Lemma step_0 s : fresh_exec s -> log_of s = [] ->
  good (15 + 3 * String.length data) (estep (Conf F_communicate 0 [VUd u; VStr data] [] s)).
Proof.
  intros Hf Hl. pose proof Hf as [He _ _]. body F_communicate (@rexec_communicate _ los). unfold rexec_communicate. exec_facts. lrun.
  rewrite optstringE. cbv beta iota. lrun.
  eexists. split; [|by apply ph_start]. lia.
Qed.

Lemma step_1 s x d : streams s x (fd_in x) -> written s x d -> silent s x ->
  good (13 + 3 * String.length d) (estep (Conf F_communicate 1 (k0 d) [] s)).
Proof.
  intros Hs Hw Hq. pose proof Hs as [(st & He & _) Hi _ _ (tb & Htb & Hfi & _) _ _].
  body F_communicate (@rexec_communicate _ los). unfold rexec_communicate, k0. exec_facts. lrun.
  rewrite optstringE. cbv beta iota. lrun. rewrite Hfi. lrun.
  eexists. split; [|by apply (ph_write s x d 0 []); auto]. lia.
Qed.

Lemma step_2_more s x d d' : streams s x (fd_in x) -> written s x d' -> silent s x ->
  good (14 + 3 * String.length d') (estep (Conf F_communicate 2 (k0 d ++ [VStr d']) [] s)).
Proof.
  intros Hs Hw Hq. pose proof Hs as [(st & He & _) _ _ _ _ _ _].
  body F_communicate (@rexec_communicate _ los). unfold rexec_communicate, k0. lnorm. exec_facts. lrun.
  rewrite optstringE. cbv beta iota. lrun.
  eexists. split; [|by apply (ph_1 s x d')]. lia.
Qed.

Lemma step_2_done s x d : streams s x (fd_in x) -> written s x "" -> silent s x ->
  good 10 (estep (Conf F_communicate 2 (k0 d ++ [VNil]) [] s)).
Proof.
  intros Hs Hw Hq. pose proof Hs as [(st & He & _) Hi _ _ (tb & Htb & Hfi & _) _ _].
  body F_communicate (@rexec_communicate _ los). unfold rexec_communicate, k0. lnorm. exec_facts. lrun.
  rewrite optstringE. cbv beta iota. lrun. rewrite Hfi. lrun.
  eexists. split; [|by apply (ph_close s x d)]. lia.
Qed.

Lemma step_5 s x T l out err (b : bool) : collecting s x T l out err -> file_of_stream x b ∈ l ->
  good 6 (estep (Conf F_communicate (if b then 5 else 7) (k1 T out err ++ [VUd (file_of_stream x b)]) [] s)).
Proof.
  intros Hcg Hin. pose proof Hcg as [[(st & He & _) _ Ho Her _ _ _] _ _ _].
  body F_communicate (@rexec_communicate _ los). unfold rexec_communicate, k1. lnorm. exec_facts.
  destruct b; cbn [file_of_stream]; lrun; eexists; (split; [|first [by apply (ph_read s x T l out err true 0 []); auto
    |by apply (ph_read s x T l out err false 0 []); auto]]); lia.
Qed.

Lemma step_9 s x T out err st : is_exec s u uv st -> pid st = x_pid x -> collected s x [] out err ->
  good 2 (estep (Conf F_communicate 9 (k1 T out err) [] s)).
Proof.
  intros He Hp Hc. body F_communicate (@rexec_communicate _ los). unfold rexec_communicate, k1. exec_facts. lrun.
  eexists. split; [|by eapply (ph_wait s x T out err st 0 []); eauto]. lia.
Qed.

Lemma step_10 s x T out err st ret status : is_exec s u uv st -> collected s x [] out err -> reaped s x ret status ->
  good 0 (estep (Conf F_communicate 10 (k1 T out err ++ [VNum (of_Z (WEXITSTATUS status))]) [] s)).
Proof.
  intros He Hc Hr. body F_communicate (@rexec_communicate _ los). unfold rexec_communicate, k1. lnorm. exec_facts. lrun.
  by exists x, out, err, ret, status.
Qed.

(** A file found ready is one of the two, and the right one is read. *)
Lemma step_4 s x T l out err f : collecting s x T l out err -> f ∈ l ->
  good 7 (estep (Conf F_communicate 4 (k1 T out err ++ [VUd f]) [] s)).
Proof.
  intros Hcg Hin. pose proof Hcg as [[(st & He & _) _ _ _ (tb & Htb & _ & Hfo & Hfe) _ _] _ _ Hc].
  body F_communicate (@rexec_communicate _ los). unfold rexec_communicate, k1. lnorm. exec_facts. lrun.
  rewrite Hfo. unfold top_equals_third. lrun.
  destruct (decide (f = x_out x)) as [->|Hne].
  - rewrite bool_decide_eq_true_2 by done. lrun. eexists. split; [|by apply (ph_5 s x T l out err true)]. lia.
  - rewrite bool_decide_eq_false_2 by congruence. lrun. rewrite Hfe.
    assert (f = x_err x) as ->.
    { pose proof (co_files _ _ _ _ _ _ Hc) as Hl. rewrite !elem_of_cons, elem_of_nil in Hl.
      destruct_or! Hl; subst l; rewrite ?elem_of_cons, ?elem_of_nil in Hin; destruct_or! Hin; done. }
    rewrite bool_decide_eq_true_2 by done. lrun. eexists. split; [|by apply (ph_5 s x T l out err false)]. lia.
Qed.

(** An empty chunk takes the file off the array, another one is appended. *)
Lemma holds_drop_out t x l : l ∈ [[x_out x; x_err x]; [x_out x]] -> holds t l ->
  holds (rawset (rawset t 1 (rawget t 2)) 2 VNil) (tail l).
Proof.
  intros Hl Hh i. rewrite !rawget_rawset, (Hh 2), (Hh i). unfold elem_of_list.
  rewrite !elem_of_cons, elem_of_nil in Hl. destruct_or! Hl; subst l; try done; cbn;
    destruct (Z.eqb_spec i 2), (Z.eqb_spec i 1); subst; done.
Qed.

Lemma holds_drop_err t x l : x_out x <> x_err x -> l ∈ [[x_out x; x_err x]; [x_err x]] -> holds t l ->
  holds (if isnil (Some (rawget t 2)) then rawset t 1 (rawget t 2) else rawset t 2 VNil)
    (if decide (l = [x_err x]) then [] else [x_out x]).
Proof.
  intros Hne Hl Hh i. rewrite (Hh 2). rewrite !elem_of_cons, elem_of_nil in Hl.
  destruct_or! Hl; subst l; try done; cbn [elem_of_list Z.eqb Pos.eqb isnil]; rewrite rawget_rawset, (Hh i);
    unfold elem_of_list; (case_decide as Hd; [try (by inversion Hd)|try done]); destruct (Z.eqb_spec i 2), (Z.eqb_spec i 1); subst; done.
Qed.

Lemma streams_tabs s x infd T t : streams s x infd -> T <> uv -> streams (set_ls_tabs s (<[T := t]> (ls_tabs s))) x infd.
Proof. intros [A B D E F G I] Hne. split; try done. destruct F as (tb & Htb & ?). exists tb. split; [|done]. lk. Qed.

Lemma streams_distinct s x infd : streams s x infd -> x_out x <> x_err x.
Proof. intros [_ _ Ho He _ _ _] Heq. unfold is_file in *. rewrite Heq, He in Ho. by injection Ho. Qed.

Lemma append_toE3 T out err chunk s :
  @append_to _ los 3 [VUd u; VTab T; VStr out; VStr err; VStr chunk] s = CVal tt (k1 T (out ++ chunk) err) s.
Proof. unfold append_to. lrun. done. Qed.
Lemma append_toE4 T out err chunk s :
  @append_to _ los 4 [VUd u; VTab T; VStr out; VStr err; VStr chunk] s = CVal tt (k1 T out (err ++ chunk)) s.
Proof. unfold append_to. lrun. done. Qed.

Lemma top_is_emptyE T out err chunk s : let k := [VUd u; VTab T; VStr out; VStr err; VStr chunk] in
  @top_is_empty _ los k s = CVal (strcmp0 "" chunk) k s.
Proof. cbv zeta. unfold top_is_empty. lrun. done. Qed.

(** The array after an empty chunk of the stream [b]. *)
Definition drop_file (x : info) (b : bool) (l : list nat) : list nat :=
  if b then tail l else if decide (l = [x_err x]) then [] else [x_out x].

Lemma in_drop x b l : x_out x <> x_err x -> l ∈ [[x_out x; x_err x]; [x_out x]; [x_err x]; []] -> file_of_stream x b ∈ l ->
  drop_file x b l ∈ [[x_out x; x_err x]; [x_out x]; [x_err x]; []] /\
  forall c, bool_decide (file_of_stream x c ∈ drop_file x b l) = negb (Bool.eqb b c) && bool_decide (file_of_stream x c ∈ l).
Proof.
  intros Hne Hl Hin. rewrite !elem_of_cons, elem_of_nil in Hl. destruct_or! Hl; subst l; destruct b; cbn [drop_file tail file_of_stream] in *;
    rewrite ?elem_of_cons, ?elem_of_nil in Hin; repeat case_decide; simplify_eq; (split; [set_solver|]); try (by destruct_or! Hin; simplify_eq).
  all: intros []; cbn [Bool.eqb negb andb file_of_stream]; repeat case_bool_decide; try done; exfalso; set_solver.
Qed.

(** The last chunk was empty. *)
Lemma collected_drop s x b l out err chunk : x_out x <> x_err x -> collected_p (Some (b, chunk)) s x l out err -> file_of_stream x b ∈ l ->
  c_str chunk = ""%string -> collected s x (drop_file x b l) out err.
Proof.
  intros Hne [Hk Hd Hl Hg] Hin Hch. destruct (in_drop x b l Hne Hl Hin) as [Hl' Hd']. split; try done. intros c. rewrite Hd'. specialize (Hg c).
  cbn [pending] in Hg. destruct (Bool.eqb_spec b c) as [->|Hbc]; cbn [negb andb]; [|exact Hg].
  rewrite bool_decide_eq_true_2 in Hg by done. destruct Hg as (cs & E & Hcs & ->). by exists cs, chunk.
Qed.
(** The last chunk was appended. *)
Lemma collected_add s x b l out err chunk : collected_p (Some (b, chunk)) s x l out err -> file_of_stream x b ∈ l ->
  c_str chunk <> ""%string -> collected s x l (add_to b true out chunk) (add_to b false err chunk).
Proof.
  intros [Hk Hd Hl Hg] Hin Hch. split; try done. intros c. specialize (Hg c). cbn [pending] in *.
  destruct (Bool.eqb_spec b c) as [->|Hbc].
  - rewrite bool_decide_eq_true_2 in * by done. destruct Hg as (cs & E & Hcs & Ha). exists (cs ++ [chunk]). rewrite app_nil_r. split; [done|].
    split; [by apply Forall_app; split; [|constructor]|]. rewrite joined_app. cbn. rewrite append_nil_r. by destruct c; cbn; rewrite Ha.
  - by destruct b, c.
Qed.

Lemma strcmp0_nonempty chunk : c_str chunk <> ""%string -> strcmp0 "" chunk = false.
Proof. intros Hch. unfold strcmp0. cbn. by destruct (c_str chunk). Qed.
Lemma strcmp0_empty chunk : c_str chunk = ""%string -> strcmp0 "" chunk = true.
Proof. intros Hch. unfold strcmp0. by rewrite Hch. Qed.

Lemma collecting_add s x T l out err b chunk : collecting_p (Some (b, chunk)) s x T l out err -> file_of_stream x b ∈ l ->
  c_str chunk <> ""%string -> collecting s x T l (add_to b true out chunk) (add_to b false err chunk).
Proof. intros [Hs Ht Hne Hc] Hin Hch. split; try done. by apply collected_add. Qed.
Lemma step_6_more s x T l out err (b : bool) chunk :
  collecting_p (Some (b, chunk)) s x T l out err -> file_of_stream x b ∈ l -> c_str chunk <> ""%string ->
  good 4 (estep (Conf F_communicate (if b then 6 else 8) (k1 T out err ++ [VStr chunk]) [] s)).
Proof.
  intros Hcg Hin Hch. apply collecting_add in Hcg; [|done..]. pose proof Hcg as [[(st & He & _) _ _ _ _ _ _] _ _ _]. exec_facts.
  body F_communicate (@rexec_communicate _ los). unfold rexec_communicate, k1.
  destruct b; cbn [add_to Bool.eqb] in Hcg; lnorm; lrun; rewrite top_is_emptyE, strcmp0_nonempty by done; cbv beta iota; rewrite bindE.
  - rewrite append_toE3. lrun. eexists. split; [|by apply (ph_3 s x T l)]. lia.
  - rewrite append_toE4. lrun. eexists. split; [|by apply (ph_3 s x T l)]. lia.
Qed.

Lemma collecting_drop s x T l out err b chunk t' : collecting_p (Some (b, chunk)) s x T l out err -> file_of_stream x b ∈ l ->
  c_str chunk = ""%string -> holds t' (drop_file x b l) ->
  collecting (set_ls_tabs s (<[T := t']> (ls_tabs s))) x T (drop_file x b l) out err.
Proof.
  intros [Hs _ Hne Hc] Hin Hch Hh. pose proof (streams_distinct _ _ _ Hs) as Hxd. split; [by apply streams_tabs| |done|].
  - exists t'. split; [lk|done].
  - destruct (collected_drop s x b l out err chunk Hxd Hc Hin Hch). by split.
Qed.

Lemma files_with p s x l out err f : collected_p p s x l out err -> x_out x <> x_err x -> f ∈ l ->
  (f = x_out x -> l ∈ [[x_out x; x_err x]; [x_out x]]) /\ (f = x_err x -> l ∈ [[x_out x; x_err x]; [x_err x]]).
Proof.
  intros Hc Hne Hin. pose proof (co_files _ _ _ _ _ _ Hc) as Hl. rewrite !elem_of_cons, elem_of_nil in Hl |- *.
  destruct_or! Hl; subst l; rewrite ?elem_of_cons, ?elem_of_nil in Hin; destruct_or! Hin; subst; naive_solver.
Qed.

Lemma step_6_eof_out s x T l out err chunk : collecting_p (Some (true, chunk)) s x T l out err -> x_out x ∈ l -> c_str chunk = ""%string ->
  good 4 (estep (Conf F_communicate 6 (k1 T out err ++ [VStr chunk]) [] s)).
Proof.
  intros Hcg Hin Hch. pose proof Hcg as [Hs (t & Ht & Hh) Hne Hc]. pose proof Hs as [(st & He & _) _ _ _ _ _ _]. exec_facts.
  pose proof (streams_distinct _ _ _ Hs) as Hxd.
  assert (l ∈ [[x_out x; x_err x]; [x_out x]]) as Hl by (by apply (files_with _ s x l out err (x_out x) Hc)).
  body F_communicate (@rexec_communicate _ los). unfold rexec_communicate, k1. lnorm. lrun.
  rewrite top_is_emptyE, (strcmp0_empty chunk Hch). cbv beta iota. lrun.
  eexists. split; [|apply (ph_3 _ x T (drop_file x true l))]; [lia|].
  unfold set_ls_tabs. cbn [ls_tabs ls_uds ls_next ls_os]. rewrite insert_insert_eq.
  apply (collecting_drop s x T l out err true chunk); [done|done|done|]. by apply (holds_drop_out t x).
Qed.

Lemma step_6_eof_err s x T l out err chunk : collecting_p (Some (false, chunk)) s x T l out err -> x_err x ∈ l -> c_str chunk = ""%string ->
  good 4 (estep (Conf F_communicate 8 (k1 T out err ++ [VStr chunk]) [] s)).
Proof.
  intros Hcg Hin Hch. pose proof Hcg as [Hs (t & Ht & Hh) Hne Hc]. pose proof Hs as [(st & He & _) _ _ _ _ _ _]. exec_facts.
  pose proof (streams_distinct _ _ _ Hs) as Hxd.
  assert (l ∈ [[x_out x; x_err x]; [x_err x]]) as Hl by (by apply (files_with _ s x l out err (x_err x) Hc)).
  pose proof (holds_drop_err t x l Hxd Hl Hh) as Hd.
  body F_communicate (@rexec_communicate _ los). unfold rexec_communicate, k1. lnorm. lrun.
  rewrite top_is_emptyE, (strcmp0_empty chunk Hch). cbv beta iota. lrun.
  cbn [isnil] in Hd. destruct (rawget t 2) eqn:E2; lrun; eexists;
    (split; [|apply (ph_3 _ x T (drop_file x false l)); by apply (collecting_drop s x T l out err false chunk)]; lia).
Qed.

(** ** Steps that make system calls *)
Context (Hposix : Posix o).

(** Facts that a system call or a changed exec object leave alone. *)
Lemma streams_os s x infd y : streams s x infd -> streams (set_ls_os s y) x infd.
Proof. by intros []. Qed.

Lemma file_fdE k s x infd b : streams s x infd ->
  @file_fd los (Some (VUd (file_of_stream x b))) k s =
    CVal (u, if b then Stdout else Stderr, fd_of_stream x b) k s.
Proof.
  intros [(st & He & _ & Ho & Hr & _) _ Hfo Hfe _ _ _]. exec_facts. unfold file_fd, file_of.
  destruct b; cbn [file_of_stream fd_of_stream]; lrun; unfold exec_of; lrun; cbn [stream_fd]; by rewrite ?Ho, ?Hr.
Qed.

Lemma file_fd_inE k s x infd : streams s x infd ->
  @file_fd los (Some (VUd (x_in x))) k s = CVal (u, Stdin, infd) k s.
Proof.
  intros [(st & He & Hi & _) Hfi _ _ _ _ _]. exec_facts. unfold file_fd, file_of. lrun. unfold exec_of. lrun. cbn [stream_fd]. by rewrite Hi.
Qed.

Lemma written_more s x d n y : written s x d -> 0 <= n <= Z.of_nat (String.length d) ->
  written (set_ls_os s ((y, log_of s ++ [DidWrite (fd_in x) d n]) : @eos los)) x (str_drop n d).
Proof.
  intros Hw Hn. unfold written, log_of in *. cbn [ls_os set_ls_os snd]. rewrite bytes_written_app. cbn. rewrite Z.eqb_refl, append_nil_r.
  rewrite append_assoc. unfold str_drop. by rewrite substring_split by lia.
Qed.

Lemma length_str_drop n d : 0 <= n <= Z.of_nat (String.length d) -> String.length (str_drop n d) = (String.length d - Z.to_nat n)%nat.
Proof. intros Hn. unfold str_drop. apply length_substring. lia. Qed.
Lemma str_drop_all n d : Z.of_nat (String.length d) <= n -> str_drop n d = ""%string.
Proof. intros Hn. unfold str_drop. replace (String.length d - Z.to_nat n)%nat with 0%nat by lia. apply substring_0. Qed.

(** A recorded system call in the code at hand. *)
Ltac syscall f ev := match goal with
  | |- context [sys ?g ?k ?s] => change g with (recorded o f ev);
      let y := fresh "y" in let r := fresh "r" in let Hos := fresh "Hos" in
      destruct (sysE f ev k s) as (y & r & Hos & ->); cbv beta iota
  end.

Lemma silent_log s x l y : silent s x -> forks l = [] -> chunks (fd_out x) l = [] -> chunks (fd_err x) l = [] ->
  silent (set_ls_os s ((y, log_of s ++ l) : @eos los)) x.
Proof.
  unfold log_of. intros [Hk Ho He] Hf Hlo Hle. split; unfold log_of in *; cbn [ls_os set_ls_os snd]; by rewrite ?chunks_app, ?forks_app, ?Hk, ?Ho, ?He, ?Hf, ?Hlo, ?Hle.
Qed.

(** A part of the record without transfers. *)
Definition quiet (l : list call) : Prop := Forall (fun c => match c with DidClose _ | DidWait _ _ _ => True | _ => False end) l.
Lemma quiet_read fd l : quiet l -> chunks fd l = [].
Proof. induction 1 as [|c l Hc _ IH]; [done|]. by destruct c. Qed.
Lemma quiet_written fd l : quiet l -> bytes_written fd l = ""%string.
Proof. induction 1 as [|c l Hc _ IH]; [done|]. by destruct c. Qed.

Lemma quiet_forks l : quiet l -> forks l = [].
Proof. induction 1 as [|c l Hc _ IH]; [done|]. by destruct c. Qed.

(** A state with more of the record. *)
Definition log_grown (s s' : St) : Prop := exists l, quiet l /\ log_of s' = log_of s ++ l.
Lemma log_grown_refl s s' : log_of s' = log_of s -> log_grown s s'.
Proof. intros E. exists []. rewrite E, app_nil_r. split; [constructor|done]. Qed.
Lemma log_grown_trans s1 s2 s3 : log_grown s1 s2 -> log_grown s2 s3 -> log_grown s1 s3.
Proof. intros (l & Hl & E) (l' & Hl' & E'). exists (l ++ l'). rewrite E', E, app_assoc. split; [by apply Forall_app|done]. Qed.
Lemma silent_grown s s' x : log_grown s s' -> silent s x -> silent s' x.
Proof.
  intros (l & Hl & E) []. split; by rewrite E, ?chunks_app, ?forks_app, ?(quiet_read _ _ Hl), ?(quiet_forks _ Hl), ?append_nil_r, ?app_nil_r.
Qed.
Lemma written_grown s s' x d : log_grown s s' -> written s x d -> written s' x d.
Proof. intros (l & Hl & E) Hw. unfold written in *. by rewrite E, bytes_written_app, (quiet_written _ _ Hl), append_nil_r. Qed.
Lemma collected_grown p s s' x l out err : log_grown s s' -> collected_p p s x l out err -> collected_p p s' x l out err.
Proof.
  intros (l' & Hl & E) [Hk Hd Hf Hg]. split; rewrite ?E, ?bytes_written_app, ?forks_app, ?(quiet_written _ _ Hl), ?(quiet_forks _ Hl), ?append_nil_r, ?app_nil_r; auto.
  intros b. specialize (Hg b). unfold got, read_to_end in *. by rewrite chunks_app, (quiet_read _ _ Hl), app_nil_r.
Qed.

Lemma step_write s x d ctx rest : streams s x (fd_in x) -> written s x d -> silent s x -> rest = [] \/ (exists b, rest = [VBool b]) ->
  good (12 + 3 * String.length d) (estep (Conf F_write ctx (VUd (x_in x) :: VStr d :: rest) [Frame F_communicate 2 (k0 d) 1] s)).
Proof.
  intros Hs Hw Hq Hrest. pose proof Hs as [_ Hi _ _ _ _ _]. exec_facts. body F_write (@rexec_file_write _ los). unfold rexec_file_write.
  assert (exists b, rest = [] \/ rest = [VBool b]) as (b & Hr) by (destruct Hrest as [->|[b ->]]; [exists true|exists b]; auto). clear Hrest.
  destruct Hr as [-> | ->]; lrun; rewrite (file_fd_inE _ s x _ Hs); lrun;
    syscall (@os_write o (fd_in x) d) (ev_write (fd_in x) d);
    (destruct r as [e|n]; cbn [ev_write]; cbv beta iota;
     [destruct (e =? EAGAIN); lrun; [|done]; rewrite app_nil_r; apply wt_write; [by apply streams_os|done|by eapply silent_grown, Hq; apply log_grown_refl]
     |destruct (write_ok _ _ _ _ _ Hos) as [Hn Hpos]; pose proof (written_more s x d n y Hw Hn) as Hw';
      destruct (Z.ltb_spec n (Z.of_nat (String.length d))); lrun; eexists;
      (split; [|first [apply (ph_2_more _ x d (str_drop n d)) | apply (ph_2_done _ x d)];
                [by apply streams_os|try exact Hw'|by apply silent_log]])]).
  all: try match goal with |- written _ _ "" => rewrite <- (str_drop_all n d) by lia; exact Hw' end; try lia.
  all: assert (0 < n) by (apply Hpos; intros ->; cbn in *; lia); rewrite length_str_drop by lia; lia.
Qed.

Lemma sys_log_grown {A} (f : @eos o -> @eos o * A) (ev : A -> list call) (k : list value) (s : St) : (forall a, quiet (ev a)) ->
  exists y a, log_grown s (set_ls_os s y) /\ sys (recorded o f ev : @eos los -> @eos los * A) k s = CVal a k (set_ls_os s y).
Proof.
  intros Hq. destruct (sysE f ev k s) as (x & a & _ & E). exists (x, log_of s ++ ev a), a. split; [|done]. by exists (ev a).
Qed.
Lemma quiet_none {A} (a : A) : quiet (ev_none a).
Proof. constructor. Qed.
Lemma quiet_close {A} fd (a : A) : quiet (ev_close fd a).
Proof. by repeat constructor. Qed.
Lemma quiet_wait p r : quiet (ev_wait p r).
Proof. destruct r as [|[]]; by repeat constructor. Qed.

(** A recorded call of the operating system that transfers nothing. *)
Ltac quiet_call f ev := match goal with
  | |- context [sys ?g ?k ?s] => change g with (recorded o f ev);
      let y := fresh "y" in let r := fresh "r" in let Hg := fresh "Hg" in
      destruct (sys_log_grown f ev k s) as (y & r & Hg & ->); [first [apply quiet_none | apply quiet_close | apply quiet_wait]|cbv beta iota]
  end.

(** The state a step ends in. *)
Ltac landed := cbn [good Nat.ltb Nat.leb length c_fun c_ctx c_stk c_frames c_st fr_fun fr_ctx fr_stk fr_nres].

Lemma close_fdE fd k s : exists y, log_grown s (set_ls_os s y) /\ @close_fd los fd k s = CVal tt k (set_ls_os s y).
Proof.
  unfold close_fd. destruct (0 <=? fd).
  - lrun. quiet_call (@os_close o fd) (@ev_close (Z + unit) fd). by exists y.
  - exists (ls_os s). split; [by apply log_grown_refl|]. by destruct s.
Qed.

(** [stdin:close] closes the descriptor once and clears it in the exec object. *)
Lemma step_close s x d : streams s x (fd_in x) -> written s x "" -> silent s x ->
  good 9 (estep (Conf F_close 0 [VUd (x_in x)] [Frame F_communicate 20 (k0 d) 0] s)).
Proof.
  intros Hs Hw Hq. pose proof Hs as [(st & He & Hi & Ho & Hr & Hp) Hfi Hfo Hfe Htb Hne Hnx]. exec_facts.
  assert (u <> x_in x /\ u <> x_out x /\ u <> x_err x) as (? & ? & ?) by (repeat split; intros Eq; rewrite <- Eq in *; congruence).
  body F_close (fun _ : Z => @rexec_file_close los). unfold rexec_file_close. lrun. rewrite (file_fd_inE _ s x _ Hs). cbv beta iota.
  lrun. destruct (close_fdE (fd_in x) [VUd (x_in x)] s) as (y & Hg & ->). lrun. unfold exec_of, put_exec. lrun. landed.
  eexists. split; [|apply (ph_20 _ x d)]; [lia| |by eapply written_grown|by eapply silent_grown].
  split; try done; try (unfold is_file, file_data; lk). exists (set_stream_fd st Stdin (-1)). split; [|done].
  unfold is_exec. lk.
Qed.

Lemma step_20 s x d : streams s x (-1) -> written s x "" -> silent s x ->
  good 8 (estep (Conf F_communicate 20 (k0 d) [] s)).
Proof.
  intros Hs Hw Hq. pose proof Hs as [(st & He & ?) Hfi Hfo Hfe (tb & Htb & Hti & Hto & Hte) Hne Hnx]. exec_facts.
  body F_communicate (@rexec_communicate _ los). unfold rexec_communicate, k0. lrun. rewrite Hto, Hte.
  landed. eexists. split; [|apply (ph_3 _ x (ls_next s) [x_out x; x_err x] "" "")]; [lia|].
  split; [|eexists; split; [lk|]|lia|].
  - split; try done; [by exists st|exists tb; split; [lk|done]|exact (Nat.lt_lt_succ_r _ _ Hnx)].
  - intros i. rewrite !rawget_rawset. unfold elem_of_list. destruct (Z.eqb_spec i 2), (Z.eqb_spec i 1); subst; done.
  - destruct Hq as [Hqk Hqo Hqe]. unfold written in Hw. rewrite append_nil_r in Hw. split; [done|done|constructor|].
    intros [|]; cbn [file_of_stream fd_of_stream pending]; rewrite bool_decide_eq_true_2 by set_solver; exists []; (split; [done|]); (split; [constructor|done]).
Qed.

Lemma pos_first v k : pos (v :: k) 1 = Some 0%nat.
Proof. unfold pos. cbn [length]. by rewrite (proj2 (Z.leb_le _ _)) by lia. Qed.

(** A chunk read from the stream [b] goes to that stream only. *)
Lemma collected_read s s' x l out err b chunk : fd_out x <> fd_err x -> collected s x l out err -> file_of_stream x b ∈ l ->
  log_of s' = log_of s ++ [DidRead (fd_of_stream x b) chunk] -> collected_p (Some (b, chunk)) s' x l out err.
Proof.
  intros Hne [Hk Hd Hf Hg] Hin E. split; rewrite ?E, ?bytes_written_app, ?forks_app; auto.
  - cbn. by rewrite app_nil_r.
  - cbn. by rewrite append_nil_r.
  - intros c. specialize (Hg c). cbn [pending] in *. assert (chunks (fd_of_stream x c) [DidRead (fd_of_stream x b) chunk] = if Bool.eqb b c then [chunk] else []) as Hc.
    { cbn. destruct b, c; cbn; rewrite ?Z.eqb_refl; try done; by rewrite (proj2 (Z.eqb_neq _ _)) by done. }
    unfold got, read_to_end in *. rewrite chunks_app, Hc. destruct (Bool.eqb_spec b c) as [->|]; [|by rewrite app_nil_r].
    rewrite bool_decide_eq_true_2 in * by done. destruct Hg as (cs & -> & ? & ?). exists cs. by rewrite app_nil_r.
Qed.

Lemma step_read s x T l out err (b : bool) ctx rest : collecting s x T l out err -> file_of_stream x b ∈ l ->
  rest = [] \/ (exists c, rest = [VNil; VBool c]) ->
  good 5 (estep (Conf F_read ctx (VUd (file_of_stream x b) :: rest) [Frame F_communicate (if b then 6 else 8) (k1 T out err) 1] s)).
Proof.
  intros Hcg Hin Hrest. pose proof Hcg as [Hs Ht Huv Hc]. pose proof Hs as [_ _ Hfo Hfe _ Hne _]. exec_facts.
  assert (ls_uds s !! file_of_stream x b = Some (file_data u (if b then Stdout else Stderr))) as Hf by (by destruct b).
  assert (ud_meta (file_data u (if b then Stdout else Stderr)) = Some READ_META) as Hm by (by destruct b).
  body F_read (@rexec_file_read _ los). unfold rexec_file_read. rewrite bindE.
  rewrite (checkudataE 1 READ_META _ s 0 (file_of_stream x b) _) by (apply pos_first || reflexivity || eassumption). cbv beta iota.
  rewrite bindE, (file_fdE _ s x _ b Hs). cbv beta iota. rewrite bindE.
  assert (@lua_settop emem (@eos los) 2 (VUd (file_of_stream x b) :: rest) s = CVal tt [VUd (file_of_stream x b); VNil] s) as ->
    by (by destruct Hrest as [->|[c ->]]).
  lrun. change (@opt_len _ los (Some VNil)) with (mret LUAL_BUFFERSIZE : C emem (@eos los) Z). lrun.
  change (LUAL_BUFFERSIZE <? LUAL_BUFFERSIZE) with false. cbv beta iota. lrun.
  syscall (@os_read o (fd_of_stream x b) LUAL_BUFFERSIZE) (ev_read (fd_of_stream x b)).
  destruct r as [e|chunk]; cbn [ev_read].
  - destruct (e =? EAGAIN); lrun; [|done]. rewrite app_nil_r. landed.
    apply (wt_read _ x T l); [|done]. split; [by apply streams_os|done|done|]. eapply collected_grown, Hc. by apply log_grown_refl.
  - lrun. landed. exists 4%nat. split; [lia|]. apply (ph_6 _ x T l out err b chunk); [|done].
    split; [by apply streams_os|done|done|]. by eapply collected_read.
Qed.

(** [rexec_clean_up] of an exec object: the stack stays, the object is closed. *)
Lemma clean_upE k s st : is_exec s u uv st -> exists s' st', @clean_up los u k s = CVal tt k s' /\ log_grown s s' /\
  is_exec s' u uv st' /\ pid st' = 0.
Proof.
  intros He. exec_facts. unfold clean_up, exec_of, put_exec. lrun.
  destruct (close_fdE (infds st).2 k s) as (y1 & Hg1 & ->). lrun.
  destruct (close_fdE (outfds st).1 k (set_ls_os s y1)) as (y2 & Hg2 & ->). lrun.
  destruct (close_fdE (errfds st).1 k (set_ls_os (set_ls_os s y1) y2)) as (y3 & Hg3 & ->). lrun. cbn [pid infds outfds errfds].
  destruct (0 <? pid st).
  - lrun. quiet_call (@os_waitpid o (pid st)) (ev_wait (pid st)). lrun. eexists _, _. split; [reflexivity|].
    split; [|split; [unfold is_exec; lk|done]].
    eapply log_grown_trans; [exact Hg1|]. eapply log_grown_trans; [exact Hg2|]. eapply log_grown_trans; [exact Hg3|exact Hg].
  - lrun. eexists _, _. split; [reflexivity|]. split; [|split; [unfold is_exec; lk|done]].
    eapply log_grown_trans; [exact Hg1|]. eapply log_grown_trans; [exact Hg2|exact Hg3].
Qed.

Lemma reaped_grown s s' x ret status : log_grown s s' -> reaped s x ret status -> reaped s' x ret status.
Proof. intros (l & _ & E) [Hin Hr]. split; [|done]. rewrite E. apply elem_of_app. auto. Qed.

Lemma step_wait s x T out err st ctx rest : is_exec s u uv st -> pid st = x_pid x -> collected s x [] out err ->
  rest = [] \/ (exists c, rest = [VNil; VBool c]) ->
  good 1 (estep (Conf F_wait ctx (VUd u :: rest) [Frame F_communicate 10 (k1 T out err) 1] s)).
Proof.
  intros He Hp Hc Hrest. pose proof He as He'. exec_facts. body F_wait (@rexec_wait _ los). unfold rexec_wait.
  assert (exists c, rest = [] \/ rest = [VNil; VBool c]) as (c & Hr) by (destruct Hrest as [->|[c ->]]; [exists true|exists c]; auto).
  destruct Hr as [-> | ->]; lrun; unfold exec_of, put_exec; lrun; syscall (@os_waitpid o (pid st)) (ev_wait (pid st));
    (destruct r as [e|[ret status]]; lrun; [done|]).
  all: assert (Hg : log_grown s (set_ls_os s ((y, log_of s ++ ev_wait (pid st) (inr (ret, status))) : @eos los)))
    by (eexists; split; [apply (quiet_wait (pid st) (inr (ret, status)))|done]).
  all: destruct (Z.eqb_spec ret 0).
  all: try (match goal with |- context [if ?b then craise _ else _] => destruct b end; lrun; try done; landed;
    apply (wt_wait _ x T out err st); [done|done|by eapply collected_grown]).
  all: assert (Hrp : reaped (set_ls_os s ((y, log_of s ++ ev_wait (pid st) (inr (ret, status))) : @eos los)) x ret status)
    by (split; [rewrite <- Hp; unfold log_of; cbn; apply elem_of_app; right; constructor|done]).
  all: lrun; match goal with |- context [clean_up u ?k ?s1] => destruct (clean_upE k s1 (ExecState 0 (infds st) (outfds st) (errfds st)))
    as (s2 & st2 & -> & Hg2 & He2 & _); [unfold is_exec; lk|] end; lrun; landed;
    eexists; (split; [|eapply (ph_10 _ x T out err st2 ret status); [exact He2| |]]; [lia| |by eapply reaped_grown]);
    (eapply collected_grown, Hc; eapply log_grown_trans; [exact Hg|exact Hg2]).
Qed.

Lemma argv_itemsE t k s l i n : (forall j a, l !! j = Some a -> tostring (Some (rawget t (i + Z.of_nat j))) = Some a) ->
  rawget t (i + Z.of_nat (length l)) = VNil -> (length l < n)%nat -> @argv_items _ los n t i k s = CVal (c_str <$> l) k s.
Proof.
  revert i n. induction l as [|a l IH]; intros i n Hl Hend Hn; (destruct n as [|n]; [cbn in Hn; lia|]); cbn [argv_items].
  - cbn in Hend. by rewrite Z.add_0_r in Hend; rewrite Hend.
  - pose proof (Hl 0%nat a eq_refl) as H0. rewrite Z.add_0_r in H0. cbn [length] in *.
    assert (@argv_items _ los n t (i + 1) k s = CVal (c_str <$> l) k s) as Ha.
    { apply IH; [|by replace (i + 1 + Z.of_nat (length l)) with (i + Z.of_nat (S (length l))) by lia|lia].
      intros j b Hj. replace (i + 1 + Z.of_nat j) with (i + Z.of_nat (S j)) by lia. by apply Hl. }
    destruct (rawget t i); try done; cbv beta iota; by rewrite H0, bindE, Ha.
Qed.

(** The loop over the table has room for all arguments. *)
Lemma argv_table_size t : argv_table t args -> (length args <= size (t_arr t))%nat.
Proof.
  intros [Hargs _]. trans (size (list_to_set (seqZ 1 (Z.of_nat (length args))) : gset Z)).
  { rewrite size_list_to_set, length_seqZ by apply NoDup_seqZ. lia. }
  rewrite <- (size_dom (D := gset Z)). apply subseteq_size. intros i Hi.
  rewrite elem_of_list_to_set, elem_of_seqZ in Hi. apply elem_of_dom.
  destruct (lookup_lt_is_Some_2 args (Z.to_nat (i - 1))) as [a Ha]; [lia|]. specialize (Hargs _ _ Ha).
  replace (Z.of_nat (Z.to_nat (i - 1)) + 1) with i in Hargs by lia. unfold rawget in Hargs. by destruct (t_arr t !! i).
Qed.

Lemma alloc_argvE s : fresh_exec s -> exists al, @alloc_argv_array _ los [VUd u] s = CVal (c_str <$> args) [VUd u; VTab al] s.
Proof.
  intros [He (tb & al & ta & Htb & Hal & Hta & Hargs) _]. exec_facts. unfold alloc_argv_array. lrun. rewrite Hal. lrun.
  exists al. pose proof (argv_table_size ta Hargs). destruct Hargs as [Ha Hend].
  apply argv_itemsE; [|by rewrite Z.add_comm|lia]. intros j a Hj. rewrite Z.add_comm. by apply Ha.
Qed.

(** [start_process] either raises, or leaves the six descriptors of its pipes. *)
Lemma start_processE argv k s : is_exec s u uv clear_state ->
  (exists e s', @start_process los u argv k s = CErr e s') \/
  exists y st child, let st' := ExecState child (infds st) (outfds st) (errfds st) in
    @start_process los u argv k s =
      CVal tt k (set_ls_uds (set_ls_os s y) (<[u := UData (Some EXEC_META) (MExec st') (VTab uv)]> (ls_uds s))) /\
    (exists z, log_grown (set_ls_os s ((z, log_of s ++ [DidFork argv st child]) : @eos los)) (set_ls_os s y)) /\
    (exists w, child = (@os_fork o argv st w).2) /\
    NoDup [(infds st).2; (outfds st).1; (errfds st).1].
Proof.
  intros He. exec_facts. unfold start_process, exec_of, put_exec. lrun.
  syscall (@os_pipe o) (@ev_none (Z + Z * Z)). destruct r as [e|p1]; lrun; [by left; eauto|]. lst.
  syscall (@os_pipe o) (@ev_none (Z + Z * Z)). destruct r as [e|p2]; lrun; [by left; eauto|]. lst.
  syscall (@os_pipe o) (@ev_none (Z + Z * Z)). destruct r as [e|p3]; lrun; [by left; eauto|]. lst.
  right. cbn [pid infds outfds errfds].
  syscall (@os_fork o argv (ExecState (pid clear_state) p1 p2 p3)) (ev_fork argv (ExecState (pid clear_state) p1 p2 p3)). lrun. lst.
  quiet_call (@os_close o p1.1) (@ev_close (Z + unit) p1.1). lrun. lst.
  quiet_call (@os_close o p2.2) (@ev_close (Z + unit) p2.2). lrun. lst.
  quiet_call (@os_close o p3.2) (@ev_close (Z + unit) p3.2). lrun. lst.
  quiet_call (@os_set_nonblocking o p1.2) (@ev_none (Z + unit)). lrun. lst.
  quiet_call (@os_set_nonblocking o p2.1) (@ev_none (Z + unit)). lrun. lst.
  quiet_call (@os_set_nonblocking o p3.1) (@ev_none (Z + unit)). lrun. lst.
  exists y8, (ExecState (pid clear_state) p1 p2 p3), r. split; [done|]. split.
  - exists y2. do 6 (eapply log_grown_trans; [|first [exact Hg4|exact Hg3|exact Hg2|exact Hg1|exact Hg0|exact Hg]]).
    apply log_grown_refl. unfold log_of. cbn [ls_os set_ls_os set_ls_uds snd ev_none ev_fork]. by rewrite !app_nil_r.
  - split; [eexists; symmetry; exact (f_equal snd Hos2)|]. pose proof (pipes_ok _ _ _ _ _ _ _ Hos Hos0 Hos1) as Hnd. cbn. rewrite !NoDup_cons in *. set_solver.
Qed.

(** A state with one more file object in the uservalue. *)
Definition with_file (s : St) (tb : tab) (meta : string) (w : stream) (name : string) : St :=
  set_ls_tabs (set_ls_uds (set_ls_next s (S (ls_next s))) (<[ls_next s := UData (Some meta) (MFile u w) VNil]> (ls_uds s)))
    (<[uv := set_field tb name (VUd (ls_next s))]> (ls_tabs s)).
Lemma new_fileE s l tb meta w name : ls_tabs s !! uv = Some tb ->
  let k := [VUd u; VTab l; VTab uv] in
  @new_file los u meta w name k s = CVal tt k (with_file s tb meta w name).
Proof. intros Htb k. unfold new_file, k. lrun. by lst. Qed.

Lemma with_file_tab s tb meta w name : ls_tabs (with_file s tb meta w name) !! uv = Some (set_field tb name (VUd (ls_next s))).
Proof. unfold with_file. lk. Qed.
Lemma with_file_uds s tb meta w name : ls_uds (with_file s tb meta w name) = <[ls_next s := UData (Some meta) (MFile u w) VNil]> (ls_uds s).
Proof. done. Qed.
Lemma with_file_next s tb meta w name : ls_next (with_file s tb meta w name) = S (ls_next s).
Proof. done. Qed.

(** The three file objects of a started process. *)
Lemma started s st child tb : is_exec s u uv (ExecState child (infds st) (outfds st) (errfds st)) -> ls_tabs s !! uv = Some tb -> (uv < ls_next s)%nat -> (u < ls_next s)%nat ->
  (outfds st).1 <> (errfds st).1 -> let n := ls_next s in
  let tb1 := set_field tb "stdin" (VUd n) in let tb2 := set_field tb1 "stdout" (VUd (S n)) in
  streams (with_file (with_file (with_file s tb WRITE_META Stdin "stdin") tb1 READ_META Stdout "stdout") tb2 READ_META Stderr "stderr")
    (Info n (S n) (S (S n)) st child) (infds st).2.
Proof.
  intros He Htb Huv Hu Hne. cbv zeta. split; cbn [fd_in fd_out fd_err x_in x_out x_err x_st x_pid]; try done;
    unfold is_exec, is_file; rewrite ?with_file_uds, ?with_file_next.
  - eexists. split; [rewrite !lookup_insert_ne by lia; exact He|done].
  - rewrite !lookup_insert_ne by lia. apply lookup_insert_eq.
  - rewrite lookup_insert_ne by lia. apply lookup_insert_eq.
  - apply lookup_insert_eq.
  - eexists. split; [apply with_file_tab|]. by rewrite !field_setE.
  - lia.
Qed.

(** [rexec_start] of a new object: it raises, or the three streams are there. *)
Lemma startE s : fresh_exec s ->
  (exists e s', @rexec_start _ los [VUd u] s = CErr e s') \/
  exists l s' st child n z, @rexec_start _ los [VUd u] s = CVal (NRet 1) [VUd u; VTab l; VTab uv; VNum (of_Z child)] s' /\
    streams s' (Info n (S n) (S (S n)) st child) (infds st).2 /\
    log_grown (set_ls_os s ((z, log_of s ++ [DidFork (c_str <$> args) st child]) : @eos los)) s' /\
    exists w, child = (@os_fork o (c_str <$> args) st w).2.
Proof.
  intros Hf. pose proof Hf as [He (tb & al & ta & Htb & _) [Huv Hu]].
  destruct (alloc_argvE s Hf) as (l & Hargv). unfold rexec_start.
  pose proof He as He'. exec_facts. lrun. unfold gstate. lrun. rewrite Hargv. lrun.
  destruct (start_processE (c_str <$> args) [VUd u; VTab l] s He')
    as [(e & s' & ->)|(y & st & child & -> & (z & Hg) & Hw & Hnd)]; [by left; eauto|right].
  lrun. erewrite new_fileE by lk. lop. do 2 (erewrite new_fileE by apply with_file_tab; lop).
  unfold exec_of. rewrite bindE.
  erewrite get_udE by (rewrite !with_file_uds, !with_file_next; lst; rewrite !lookup_insert_ne by lia; apply lookup_insert_eq). lrun.
  exists l. eexists _, st, child, (ls_next s), z. split; [reflexivity|]. split; [|split; [exact Hg|done]].
  apply (started (set_ls_tabs (set_ls_uds (set_ls_os s y) _) _)); try done; [unfold is_exec; lk|lk|].
  intros Heq. rewrite !NoDup_cons, !elem_of_cons in Hnd. tauto.
Qed.

Lemma step_start s : fresh_exec s -> log_of s = [] ->
  good (14 + 3 * String.length data) (estep (Conf F_start 0 [VUd u] [Frame F_communicate 1 (k0 data) 0] s)).
Proof.
  intros Hf Hlog. body F_start (fun _ : Z => @rexec_start _ los).
  destruct (startE s Hf) as [(e & s' & ->)|(l & s' & st & child & n & z & -> & Hs & Hg & _)]; [done|]. landed.
  eexists. split; [|apply (ph_1 _ (Info n (S n) (S (S n)) st child) data)]; [lia|done| |].
  - eapply written_grown; [exact Hg|]. unfold written, log_of at 1. cbn [ls_os set_ls_os snd]. by rewrite Hlog.
  - eapply silent_grown; [exact Hg|]. split; unfold log_of at 1; cbn [ls_os set_ls_os snd]; by rewrite Hlog.
Qed.
End Comm.
