(* ===== verification/ExecThm.v ===== *)
(** exec.c: what [communicate] and the other operations do. *)

From stdpp Require Import prelude gmap strings.
From Stdlib Require Import ZArith Lia SpecFloat.
From S2P Require Import Prelude Double Lua Misc Error LuaC Exec ExecSpec.
Local Open Scope Z_scope.

Section Runs.
Context `{LuaConv} (o : ExecOS) (Hposix : Posix o).
Context (u uv : nat) (args : list string) (data : string).
#[local] Existing Instance los.
Abbreviation St := (lstate emem (@eos (los o))).
Implicit Types s : St.

(** Every step of a run ends well and lowers the bound. *)
Lemma step_good r f ctx k fs s : phase o u uv args data r f ctx k fs s ->
  good o u uv args data r (step (@exec_code _ (los o)) (Conf f ctx k fs s)).
Proof.
  destruct 1 as [| | | | | | | | | | |s x T l out err b chunk Hcg Hin| | | |];
    eauto using step_0, step_start, step_1, step_write, step_2_more, step_2_done, step_close, step_20, step_4, step_5,
      step_read, step_3, step_9, step_wait, step_10.
  destruct (decide (c_str chunk = ""%string)); [|by apply (step_6_more _ _ _ _ _ _ x _ l)].
  destruct b; [by apply (step_6_eof_out _ _ _ _ _ _ x _ l)|by apply (step_6_eof_err _ _ _ _ _ _ x _ l)].
Qed.

(** The values a waiting thread is resumed with (ratchet.c, modelled in the
    scheduler's files): the object that became ready for YIELD_MULTIRW, whether
    the event happened for the others. *)
Definition legit (s : St) (vs rs : list value) : Prop :=
  match vs with
  | [VLight t; VTab T] => t = YIELD_MULTIRW /\ exists tb i f, ls_tabs s !! T = Some tb /\ rawget tb i = VUd f /\ rs = [VUd f]
  | _ => exists b, rs = [VBool b]
  end.

(** What the rest of the program leaves alone while this thread waits: the exec
    object, its file objects, and the tables that refer to them. *)
Definition refers (s : St) (t : tab) : Prop :=
  exists f w, is_file o s u f w /\ ((exists i, rawget t i = VUd f) \/ (exists n, field t n = VUd f)).
Record others (s s' : St) : Prop := {
  ot_exec : ls_uds s' !! u = ls_uds s !! u;
  ot_files f w : is_file o s u f w -> is_file o s' u f w;
  ot_tabs T t : ls_tabs s !! T = Some t -> refers s t -> ls_tabs s' !! T = Some t;
  ot_next : (ls_next s <= ls_next s')%nat;
  ot_log : log_of o s' = log_of o s;
}.

Lemma streams_others s s' x infd : others s s' -> streams o u uv s x infd -> streams o u uv s' x infd.
Proof.
  intros [He Hf Ht Hn _] [(st & Hst & ?) Hi Ho Hr (tb & Htb & Hti & ?) ? Hx]. split; auto; [| |lia].
  - exists st. unfold is_exec in *. by rewrite He.
  - exists tb. split; [|done]. apply (Ht uv tb Htb). exists (x_in x), Stdin. eauto.
Qed.

Lemma collecting_others s s' x T l out err : others s s' -> collecting_p o u uv args data None s x T l out err -> l <> [] ->
  collecting_p o u uv args data None s' x T l out err.
Proof.
  intros Hot [Hs (t & Ht & Hh) Hne Hc] Hl. split; [by eapply streams_others| |done|].
  - exists t. split; [|done]. apply (ot_tabs _ _ Hot T t Ht). pose proof (co_files _ _ _ _ _ _ _ _ _ Hc) as Hfs.
    rewrite !elem_of_cons, elem_of_nil in Hfs. pose proof (Hh 1) as H1. unfold refers.
    destruct_or! Hfs; subst l; try done; [exists (x_out x), Stdout|exists (x_out x), Stdout|exists (x_err x), Stderr];
      (split; [by destruct Hs|left; by exists 1]).
  - eapply collected_grown, Hc. apply log_grown_refl, Hot.
Qed.

(** Resumption continues the run. *)
Lemma resume_good vs w s s' rs : waiting o u uv args data vs w s -> legit s vs rs -> others s s' ->
  exists r, let c := resume w rs s' in phase o u uv args data r (c_fun c) (c_ctx c) (c_stk c) (c_frames c) (c_st c).
Proof.
  intros Hw Hleg Hot. assert (Hg : log_grown o s s') by apply log_grown_refl, Hot. destruct Hw as [s x d Hs Hw Hq|s x T l out err Hcg Hne|s x T l out err b Hcg Hin|s x T out err st He Hp Hc]; cbn in *.
  - destruct Hleg as [b ->]. eexists. eapply (ph_write _ _ _ _ _ s' x d 1 [VBool b]); eauto using streams_others, written_grown, silent_grown.
  - destruct Hleg as (_ & tb & i & f & Htb & Hf & ->). eexists. eapply (ph_4 _ _ _ _ _ s' x T l); [by eapply collecting_others|].
    destruct Hcg as [_ (t & Ht & Hh) _ _]. assert (tb = t) as -> by (apply (inj Some); by rewrite <- Ht). rewrite (Hh i) in Hf. unfold elem_of_list in Hf.
    destruct (i =? 1), (i =? 2), l as [|? [|]]; simplify_eq; repeat constructor.
  - destruct Hleg as [c ->]. eexists. eapply (ph_read _ _ _ _ _ s' x T l out err b 1 [VNil; VBool c]); eauto.
    eapply collecting_others; eauto. by intros ->; inversion Hin.
  - destruct Hleg as [c ->]. eexists. eapply (ph_wait _ _ _ _ _ s' x T out err st 1 [VNil; VBool c]); eauto using collected_grown.
    unfold is_exec in *. by rewrite (ot_exec _ _ Hot).
Qed.

Definition run_ok (a : after emem (@eos (los o))) : Prop := exists m, good o u uv args data m a.

Lemma reach_ok s a : fresh_exec o u uv args s -> log_of o s = [] ->
  reach (@exec_code _ (los o)) legit others (start F_communicate [VUd u; VStr data] s) a -> run_ok a.
Proof.
  intros Hf Hl. apply reach_inv.
  - exists (16 + 3 * String.length data)%nat, (15 + 3 * String.length data)%nat. split; [lia|]. by apply ph_0.
  - intros [f ctx k fs s1] (m & r & Hr & Hph). exists r. by apply step_good.
  - intros vs w s1 s2 rs (m & Hw) Hleg Hot. destruct (resume_good vs w s1 s2 rs Hw Hleg Hot) as [r Hr]. exists (S r), r. auto with lia.
Qed.
End Runs.

(** ** Bounds on a turn *)
Section Bound.
Context `{LuaConv} (o : ExecOS) (Hposix : Posix o).
Context (u uv : nat) (args : list string) (data : string).
#[local] Existing Instance los.

Lemma written_le s x d : written o data s x d -> (String.length d <= String.length data)%nat.
Proof. unfold written. intros <-. rewrite length_append. lia. Qed.

Lemma phase_le r f ctx k fs s : phase o u uv args data r f ctx k fs s -> (r <= 15 + 3 * String.length data)%nat.
Proof.
  destruct 1; repeat match goal with Hw : written _ _ _ _ ?d |- _ => apply written_le in Hw end; lia.
Qed.

Lemma run_ends r f ctx k fs s : phase o u uv args data r f ctx k fs s -> forall n, (r < n)%nat ->
  match run (@exec_code _ (los o)) n (Conf f ctx k fs s) with Running _ | Broken => False | _ => True end.
Proof.
  revert f ctx k fs s. induction r as [r IH] using lt_wf_ind. intros f ctx k fs s Hph n Hn. destruct n as [|n]; [lia|]. cbn [run].
  pose proof (step_good o Hposix u uv args data _ _ _ _ _ _ Hph) as Hg. destruct (step _ _) as [[f' c' k' fs' s']| | | |]; try done.
  destruct Hg as (r' & Hr & Hph'). apply (IH r' Hr _ _ _ _ _ Hph'). lia.
Qed.
End Bound.

(** ** Theorems *)

(** C3: Whatever the order in which the streams of the process become ready, the
    sizes and the bytes of the chunks, and whatever other threads do in between: a call of
    [communicate (data)] on a new exec object that returns has called [fork] once,
    with the arguments of the object, has written exactly [data] to the pipe for the
    standard input, and returns all that was read from the standard output and
    from the standard error, in order and not mixed up, each read up to the first
    chunk that strcmp(3) takes for empty - the end of the stream, or a chunk that
    starts with a NUL byte, which is lost - and not further, with the exit status that
    [waitpid] reported for what [fork] returned. No step of the call is undefined. *)
Theorem communicate_collects `{LuaConv} (o : ExecOS) (u uv : nat) (args : list string) (data : string) s a :
  Posix o -> fresh_exec o u uv args s -> log_of o s = [] ->
  reach (@exec_code _ (los o)) (legit o) (others o u) (start F_communicate [VUd u; VStr data] s) a ->
  match a with
  | Finished vs s' => exists st child out err ret status,
      vs = [VStr out; VStr err; VNum (of_Z (WEXITSTATUS status))] /\
      forks (log_of o s') = [(c_str <$> args, st, child)] /\
      bytes_written (infds st).2 (log_of o s') = data /\
      read_to_end (outfds st).1 (log_of o s') out /\
      read_to_end (errfds st).1 (log_of o s') err /\
      DidWait child ret status ∈ log_of o s' /\ ret <> 0
  | Broken => False
  | _ => True
  end.
Proof.
  intros Hp Hf Hl Hr. destruct (reach_ok o Hp u uv args data s a Hf Hl Hr) as [m Hg]. destruct a; try done.
  destruct Hg as (x & out & err & ret & status & -> & [Hk Hd _ Hgot] & Hw & Hr0).
  exists (x_st x), (x_pid x), out, err, ret, status. repeat split; auto; [exact (Hgot true)|exact (Hgot false)].
Qed.

(** C39: Between two waits [communicate] makes at most 16 + 3 * |data| steps: from
    every reachable state the call returns, raises or waits within that bound. *)
Theorem communicate_turn_ends `{LuaConv} (o : ExecOS) (u uv : nat) (args : list string) (data : string) s c :
  Posix o -> fresh_exec o u uv args s -> log_of o s = [] ->
  reach (@exec_code _ (los o)) (legit o) (others o u) (start F_communicate [VUd u; VStr data] s) (Running c) ->
  match run (@exec_code _ (los o)) (16 + 3 * String.length data) c with Running _ | Broken => False | _ => True end.
Proof.
  intros Hp Hf Hl Hr. destruct (reach_ok o Hp u uv args data s _ Hf Hl Hr) as (m & r & _ & Hph).
  destruct c as [f ctx k fs s']. pose proof (phase_le o u uv args data _ _ _ _ _ _ Hph).
  eapply run_ends; [done|exact Hph|lia].
Qed.

(** Lookups in a descriptor table after [close] and [dup2]. *)
Ltac fdsE := repeat match goal with
  | |- context [delete ?i ?m !! ?i] => rewrite (lookup_delete_eq m i)
  | |- context [delete ?i ?m !! ?j] => rewrite (lookup_delete_ne m i j) by congruence
  | |- context [<[?i := ?x]> ?m !! ?i] => rewrite (lookup_insert_eq m i x)
  | |- context [<[?i := ?x]> ?m !! ?j] => rewrite (lookup_insert_ne m i j x) by congruence
  end.

(** When the pipes got descriptors above 2, the child runs the program with
    its three standard descriptors connected to the pipes and every descriptor
    of the pipes closed; other descriptors are inherited unchanged. *)
Theorem child_streams (st : rexec_state) (t : fds) (fi fo fe : nat) :
  let pipes := [(infds st).1; (infds st).2; (outfds st).1; (outfds st).2; (errfds st).1; (errfds st).2] in
  Forall (fun fd => 2 < fd) pipes -> NoDup pipes ->
  t !! (infds st).1 = Some fi -> t !! (outfds st).2 = Some fo -> t !! (errfds st).2 = Some fe ->
  exists t', child_fds st t = Some t' /\ t' !! 0 = Some fi /\ t' !! 1 = Some fo /\ t' !! 2 = Some fe /\
    (forall fd, fd ∈ pipes -> t' !! fd = None) /\ (forall fd, 2 < fd -> fd ∉ pipes -> t' !! fd = t !! fd).
Proof.
  destruct st as [p [i1 i2] [o1 o2] [e1 e2]]. cbn. intros Hgt Hnd Hi Ho He.
  rewrite !Forall_cons in Hgt. destruct Hgt as (? & ? & ? & ? & ? & ? & _).
  rewrite !NoDup_cons, !not_elem_of_cons in Hnd. destruct Hnd as ((?&?&?&?&?&_) & (?&?&?&?&_) & (?&?&?&_) & (?&?&_) & (?&_) & _ & _).
  assert (Hne : forall fd, 2 < fd -> fd <> 0 /\ fd <> 1 /\ fd <> 2) by lia.
  repeat match goal with Hgt : 2 < _ |- _ => apply Hne in Hgt as (?&?&?) end.
  unfold fds in *. pose (t1 := delete 2 (delete 1 (delete 0 (delete e1 (delete o1 (delete i2 t)))))).
  assert (Hi1 : t1 !! i1 = Some fi) by (by unfold t1; fdsE).
  pose (t2 := delete i1 (<[0 := fi]> t1)). assert (Ho2 : t2 !! o2 = Some fo) by (by unfold t2, t1; fdsE).
  pose (t3 := delete o2 (<[1 := fo]> t2)). assert (He3 : t3 !! e2 = Some fe) by (by unfold t3, t2, t1; fdsE).
  exists (delete e2 (<[2 := fe]> t3)). split.
  { unfold child_fds, dup2, fds. cbn [infds outfds errfds fst snd]. fold t1. rewrite Hi1. cbn [mbind option_bind]. fold t2. rewrite Ho2.
    cbn [mbind option_bind]. fold t3. by rewrite He3. }
  unfold t3, t2, t1. repeat split; [by fdsE..| |].
  - intros fd Hin. rewrite !elem_of_cons, elem_of_nil in Hin. destruct_or! Hin; subst; by fdsE.
  - intros fd (?&?&?)%Hne Hin. rewrite !not_elem_of_cons in Hin. destruct Hin as (?&?&?&?&?&?&_). by fdsE.
Qed.

(** [ratchet.exec.new (argv)] makes an object in the state that
    [communicate] and [start] expect. *)
Theorem new_makes_fresh `{LuaConv} (o : ExecOS) (args : list string) al ta (s : lstate emem (@eos (los o))) :
  ls_tabs s !! al = Some ta -> argv_table ta args -> (al < ls_next s)%nat ->
  exists u uv s', step (@exec_code _ (los o)) (start F_new [VTab al] s) = Finished [VUd u] s' /\
    fresh_exec o u uv args s' /\ log_of o s' = log_of o s.
Proof.
  intros Hal Hargs Hlt. exists (ls_next s), (S (ls_next s)). eexists. split.
  { unfold step, start. cbn [c_fun c_ctx c_stk c_frames c_st]. change (exec_code F_new) with (Some (fun _ : Z => @rexec_new (los o))).
    cbv beta iota. unfold rexec_new. lrun. cbn [istable negb]. lrun. lst. reflexivity. }
  split; [|done]. split.
  - unfold is_exec. lk.
  - eexists _, al, ta. split; [lk|]. split; [done|]. split; [lk|done].
  - cbn [ls_next set_ls_tabs set_ls_uds set_ls_next]. lia.
Qed.

(** What [kill ()] does with the state of the object. *)
Lemma kill_step `{LuaConv, ExecOS} u uvv s st : ls_uds s !! u = Some (UData (Some EXEC_META) (MExec st) uvv) ->
  step exec_code (start F_kill [VUd u] s) =
    match os_kill (pid st) SIGTERM (ls_os s) with
    | (x, inl e) => Raised (errno "ratchet.exec.kill()" "kill" e) (set_ls_os s x)
    | (x, inr _) => Finished [] (set_ls_os s x)
    end.
Proof.
  intros Hu. unfold step, start. cbn [c_fun c_ctx c_stk c_frames c_st]. change (exec_code F_kill) with (Some (fun _ : Z => rexec_kill)).
  cbv beta iota. unfold rexec_kill. lrun. change (get_signal (Some VNil) SIGTERM) with SIGTERM. change (SIGTERM =? -1) with false. cbv beta iota.
  unfold exec_of. lrun. unfold sys. destruct (os_kill (pid st) SIGTERM (ls_os s)) as [x [e|[]]]; lrun; done.
Qed.

(** [kill ()] on an object that was not started sends the signal to pid 0,
    which is the process group of the caller; and when [fork] fails, [start]
    returns -1 as a pid instead of raising, and [kill ()] then sends the signal
    to pid -1, which is every process. *)
Theorem kill_without_process `{LuaConv} (o : ExecOS) (u uv : nat) (args : list string) s :
  Posix o -> fresh_exec o u uv args s -> (forall argv st w, (@os_fork o argv st w).2 = -1) ->
  let kill_to p s := match @os_kill (los o) p SIGTERM (ls_os s) with
    | (x, inl e) => Raised (@errno (los o) "ratchet.exec.kill()" "kill" e) (set_ls_os s x)
    | (x, inr _) => Finished [] (set_ls_os s x)
    end in
  step (@exec_code _ (los o)) (start F_kill [VUd u] s) = kill_to 0 s /\
  match step (@exec_code _ (los o)) (start F_start [VUd u] s) with
  | Finished vs s' => vs = [VNum (of_Z (-1))] /\ step (@exec_code _ (los o)) (start F_kill [VUd u] s') = kill_to (-1) s'
  | Raised _ _ => True
  | _ => False
  end.
Proof.
  intros Hp Hf Hfork kill_to. pose proof Hf as [He _ _]. split; [by apply (kill_step u (VTab uv) s clear_state)|].
  unfold step at 1, start. cbn [c_fun c_ctx c_stk c_frames c_st].
  change (exec_code F_start) with (Some (fun _ : Z => @rexec_start _ (los o))). cbv beta iota.
  destruct (startE o u uv args Hp s Hf) as [(e & s' & ->)|(l & s' & st & child & n & z & -> & Hs & _ & w & Hw)]; [done|].
  rewrite Hfork in Hw. subst child. cbn [Nat.ltb Nat.leb length]. split; [done|].
  destruct Hs as [(st' & He' & _ & _ & _ & Hpid) _ _ _ _ _ _]. unfold kill_to. cbn [x_pid] in Hpid. rewrite <- Hpid.
  by apply (kill_step u (VTab uv)).
Qed.

Ltac enter_communicate := unfold step; cbn [c_fun c_ctx c_stk c_frames c_st];
  change (exec_code F_communicate) with (Some rexec_communicate); cbv beta iota; unfold rexec_communicate; lnorm; lrun.

(** Without data, [communicate] takes one of its two result strings for the
    data: after [start] it writes that empty string to the process and goes on
    with one string only, and every chunk of standard error is dropped. *)
Theorem communicate_without_data `{LuaConv, ExecOS} u uvv st (s : lstate emem eos) T out chunk :
  ls_uds s !! u = Some (UData (Some EXEC_META) (MExec st) uvv) -> c_str chunk <> ""%string ->
  run exec_code 2 (Conf F_communicate 1 [VUd u; VNil; VStr ""; VStr ""] [] s) =
    Running (Conf F_communicate 1 [VUd u; VStr ""; VStr ""] [] s) /\
  step exec_code (Conf F_communicate 8 [VUd u; VTab T; VStr out; VStr chunk] [] s) =
    Running (Conf F_communicate 3 [VUd u; VTab T; VStr out] [] s).
Proof.
  intros Hu Hch. split; [|enter_communicate; unfold top_is_empty; lrun; rewrite (strcmp0_nonempty chunk Hch); cbv beta iota;
    unfold append_to; lrun; done].
  assert (forall k, k = [VUd u; VNil; VStr ""; VStr ""] -> step exec_code (Conf F_communicate 1 k [] s) = Running (Conf F_communicate 2 k [] s)) as E1
    by (intros k ->; enter_communicate; unfold optstring; lrun; done).
  cbn [run]. rewrite E1 by done. enter_communicate. unfold optstring. lrun. done.
Qed.

(** A chunk of standard output that starts with a NUL byte is taken for the end of
    the stream, and is lost. *)
Lemma nul_chunk_ends_stream `{LuaConv, ExecOS} u uvv st (s : lstate emem eos) T t out err chunk :
  ls_uds s !! u = Some (UData (Some EXEC_META) (MExec st) uvv) -> ls_tabs s !! T = Some t -> c_str chunk = ""%string ->
  step exec_code (Conf F_communicate 6 (k1 u T out err ++ [VStr chunk]) [] s) =
    Running (Conf F_communicate 3 (k1 u T out err) []
      (set_ls_tabs s (<[T := rawset (rawset t 1 (rawget t 2)) 2 VNil]> (ls_tabs s)))).
Proof.
  intros Hu Ht Hch. unfold k1. enter_communicate. unfold top_is_empty. lrun. unfold strcmp0. rewrite Hch. cbn [c_str String.eqb].
  cbv beta iota. lrun. by lst.
Qed.

(** ** A process that ignores its input *)
Module ExecWitnesses.

#[export] Instance conv : LuaConv := {| str2number _ := None; number2str _ := ""%string |}.

(** The operating system: the next descriptor, the chunks the process will write,
    the input it got, and the signals sent. [fork] gives [child]. *)
Record sim := Sim { nfd : nat; outq : list string; errq : list string; inq : string; sigs : list (Z * Z) }.
Definition sim_read (fd : Z) (s : sim) : sim * (Z + string) :=
  let s' q := Sim (nfd s) (if fd =? 12 then tail (outq s) else outq s) (if fd =? 12 then errq s else tail (errq s)) (inq s) (sigs s) in
  match (if fd =? 12 then outq s else errq s) with
  | [] => (s, inr ""%string)
  | c :: q => (s' q, inr c)
  end.
Definition simos (child : Z) : ExecOS := {|
  eos := sim;
  os_pipe s := (Sim (2 + nfd s) (outq s) (errq s) (inq s) (sigs s), inr (Z.of_nat (nfd s), Z.of_nat (nfd s) + 1));
  os_fork _ _ s := (s, child);
  os_close _ s := (s, inr tt);
  os_set_nonblocking _ s := (s, inr tt);
  os_read fd _ s := sim_read fd s;
  os_write _ d s := (Sim (nfd s) (outq s) (errq s) (inq s ++ d) (sigs s), inr (Z.of_nat (String.length d)));
  os_waitpid _ s := (s, inr (42, 768));
  os_kill p sig s := (Sim (nfd s) (outq s) (errq s) (inq s) (sigs s ++ [(p, sig)]), inr tt);
  os_time _ := 0;
  os_strerror _ := "error"%string |}.

#[export] Instance sim_posix child : Posix (simos child).
Proof.
  split.
  - intros fd d x x' n [= <- <-]. split; [lia|]. destruct d; [done|]. cbn. lia.
  - intros x x1 x2 x3 p1 p2 p3 [= <- <-] [= <- <-] [= <- <-]. cbn [nfd fst snd].
    rewrite !NoDup_cons, !not_elem_of_cons. repeat split; try apply not_elem_of_nil; try apply NoDup_nil_2; lia.
Qed.

(** An object as [new {"cat", "-"}] makes it. *)
Definition state (child : Z) : lstate emem (@eos (los (simos child))) :=
  LState (<[0%nat := Tab ∅ (<[1 := VStr "cat"]> (<[2 := VStr "-"]> ∅))]> (<[2%nat := Tab (<["argv"%string := VTab 0]> ∅) ∅]> ∅))
    (<[1%nat := UData (Some EXEC_META) (MExec clear_state) (VTab 2)]> ∅) 3 (Sim 10 ["out1"; "out2"]%string ["err1"]%string "" [], []).
Definition args : list string := ["cat"; "-"]%string.

Lemma argv_ok : argv_table (Tab ∅ (<[1 := VStr "cat"]> (<[2 := VStr "-"]> ∅))) args.
Proof. split; [|reflexivity]. intros [|[|[|i]]] a [= <-]; reflexivity. Qed.
Lemma state_fresh child : fresh_exec (simos child) 1 2 args (state child).
Proof.
  split; [reflexivity| |cbn; lia]. eexists _, 0%nat, _. split; [reflexivity|]. split; [reflexivity|]. split; [reflexivity|apply argv_ok].
Qed.

(** A scheduler that resumes the call with the given values, as long as they are
    values it may use. *)
Definition allowed {o : ExecOS} (s : lstate emem (@eos (los o))) (vs : list value) (v : value) : bool :=
  match vs, v with
  | [VLight t; VTab T], VUd f => bool_decide (t = YIELD_MULTIRW) &&
      match ls_tabs s !! T with Some tb => bool_decide (rawget tb 1 = VUd f) || bool_decide (rawget tb 2 = VUd f) | None => false end
  | [VLight _; VTab _], _ => false
  | _, VBool _ => true
  | _, _ => false
  end.
Fixpoint drive {o : ExecOS} (with_ : list value) (a : after emem (@eos (los o))) : after emem (@eos (los o)) :=
  match with_, a with
  | v :: rest, Suspended vs w s => if allowed s vs v then drive rest (run (@exec_code _ (los o)) 100 (resume w [v] s)) else a
  | _, _ => a
  end.

Lemma allowed_legit (o : ExecOS) s vs v : allowed s vs v = true -> legit o s vs [v].
Proof.
  unfold allowed, legit. intros Ha. destruct vs as [|[] [|[] [|]]]; try (destruct v; try done; by eexists).
  destruct v; try done. apply andb_prop in Ha as [Ht Ha]. split; [by apply bool_decide_eq_true in Ht|].
  destruct (ls_tabs s !! l) as [tb|] eqn:Htb; [|done]. apply orb_prop in Ha as [Ha|Ha]; apply bool_decide_eq_true in Ha; by eexists _, _, _.
Qed.

Lemma drive_reach (o : ExecOS) u c0 with_ : forall a, reach (@exec_code _ (los o)) (legit o) (others o u) c0 a ->
  reach (@exec_code _ (los o)) (legit o) (others o u) c0 (drive with_ a).
Proof.
  induction with_ as [|v rest IH]; intros a Ha; [done|]. destruct a as [| |vs w s| |]; try done. cbn [drive].
  destruct (allowed s vs v) eqn:Hv; [|done]. apply IH, run_reach. eapply reach_resume; [done|by apply allowed_legit|by split].
Qed.

(** The call [communicate ("hello")] of that object, with the streams ready in this order. *)
Definition call_end : after emem (@eos (los (simos 42))) :=
  drive [VUd 4; VUd 5; VUd 4; VUd 4; VUd 5]
    (run (@exec_code _ (los (simos 42))) 100 (start F_communicate [VUd 1; VStr "hello"] (state 42))).

Lemma communicate_collects_witness :
  match call_end with Finished [VStr out; VStr err; _] _ => (out, err) = ("out1out2", "err1")%string | _ => False end /\
  match call_end with
  | Finished vs s' => exists st child out err ret status,
      vs = [VStr out; VStr err; VNum (of_Z (WEXITSTATUS status))] /\
      forks (log_of (simos 42) s') = [(c_str <$> args, st, child)] /\
      bytes_written (infds st).2 (log_of (simos 42) s') = "hello"%string /\
      read_to_end (outfds st).1 (log_of (simos 42) s') out /\
      read_to_end (errfds st).1 (log_of (simos 42) s') err /\
      DidWait child ret status ∈ log_of (simos 42) s' /\ ret <> 0
  | Broken => False
  | _ => True
  end.
Proof.
  split; [vm_compute; reflexivity|].
  apply (communicate_collects (simos 42) 1 2 args "hello" (state 42) call_end); [apply sim_posix|apply state_fresh|reflexivity|].
  apply drive_reach, run_reach, reach_start.
Defined.

Lemma communicate_turn_ends_witness :
  match run (@exec_code _ (los (simos 42))) (16 + 3 * 5) (start F_communicate [VUd 1; VStr "hello"] (state 42)) with
  | Running _ | Broken => False | _ => True end.
Proof.
  apply (communicate_turn_ends (simos 42) 1 2 args "hello" (state 42));
    [apply sim_posix|apply state_fresh|reflexivity|apply reach_start].
Defined.

Lemma child_streams_witness : exists t', child_fds (ExecState 0 (10, 11) (12, 13) (14, 15))
    (<[10 := 1%nat]> (<[13 := 2%nat]> (<[15 := 3%nat]> ∅))) = Some t' /\ t' !! 0 = Some 1%nat.
Proof.
  destruct (child_streams (ExecState 0 (10, 11) (12, 13) (14, 15)) (<[10 := 1%nat]> (<[13 := 2%nat]> (<[15 := 3%nat]> ∅))) 1 2 3)
    as (t' & Ht & H0 & _); [by repeat constructor| |reflexivity..|by exists t'].
  by apply (bool_decide_unpack _).
Defined.

Lemma new_makes_fresh_witness : exists u uv s',
  step (@exec_code _ (los (simos 42))) (start F_new [VTab 0] (state 42)) = Finished [VUd u] s' /\
  fresh_exec (simos 42) u uv args s' /\ log_of (simos 42) s' = [].
Proof.
  apply (new_makes_fresh (simos 42) args 0 (Tab ∅ (<[1 := VStr "cat"]> (<[2 := VStr "-"]> ∅))) (state 42)); [reflexivity|apply argv_ok|cbn; lia].
Defined.

(** With [fork] failing, the signal goes to every process. *)
Lemma kill_without_process_witness :
  match step (@exec_code _ (los (simos (-1)))) (start F_start [VUd 1] (state (-1))) with
  | Finished vs s' => vs = [VNum (of_Z (-1))] /\
      match step (@exec_code _ (los (simos (-1)))) (start F_kill [VUd 1] s') with Finished _ s2 => sigs (ls_os s2).1 = [(-1, 15)] | _ => False end
  | _ => False
  end.
Proof.
  pose proof (kill_without_process (simos (-1)) 1 2 args (state (-1)) (sim_posix _) (state_fresh _) (fun _ _ _ => eq_refl)) as [_ Hk].
  vm_compute in Hk |- *. split; reflexivity.
Defined.

Lemma communicate_without_data_witness :
  match run (@exec_code _ (los (simos 42))) 2 (Conf F_communicate 1 [VUd 1; VNil; VStr ""; VStr ""] [] (state 42)) with
  | Running c => c_stk c = [VUd 1; VStr ""; VStr ""] | _ => False end /\
  match drive [VUd 4; VUd 5; VUd 4; VUd 4; VUd 5] (run (@exec_code _ (los (simos 42))) 100 (start F_communicate [VUd 1] (state 42))) with
  | Finished vs s' => firstn 2 vs = [VTab 6; VStr "out1out2"] /\ chunks 14 (log_of (simos 42) s') = ["err1"; ""]%string
  | _ => False
  end.
Proof.
  split; [|vm_compute; by split].
  destruct (communicate_without_data (H0 := los (simos 42)) 1 (VTab 2) clear_state (state 42) 0 "" "x") as [-> _]; [reflexivity|by vm_compute|reflexivity].
Defined.
End ExecWitnesses.
