(* ===== verification/Net.v ===== *)
(** What socket.c, sockopt.c, ssl.c and timerfd.c share: the memory blocks behind
    their objects, the system calls and OpenSSL calls they make, and the argument
    checks of the auxiliary library. *)

From stdpp Require Import prelude gmap strings.
From Stdlib Require Import ZArith Lia SpecFloat.
From S2P Require Import Prelude Double Lua Misc Error LuaC.
Local Open Scope Z_scope.

(** ** Data *)

(** A socket address, as its family says it is read: an IPv4 or IPv6 port and
    address, a path, or a family the code does not look into. *)
Inductive sockaddr :=
  | SaIn (port : Z) (addr : list Z)
  | SaIn6 (port : Z) (addr : list Z)
  | SaUn (path : string)
  | SaOther (family : Z).
#[export] Instance sockaddr_eq_dec : EqDecision sockaddr.
Proof. solve_decision. Defined.

(** The memory blocks: the descriptor of a socket or timer object, an address
    with the size of its block, the bytes of an address record of the DNS
    module, an SSL context, an SSL session (NULL after its [__gc]). *)
Inductive nmem :=
  | MSock (fd : Z)
  | MAddr (a : sockaddr) (size : Z)
  | MIn (addr : list Z)
  | MCtx (ctx : option Z)
  | MSsl (ssl : option Z)
  | MTimer (fd : Z).

Definition SOCKET_META : string := "ratchet_socket_meta".
Definition SOCKADDR_META : string := "ratchet_socket_sockaddr_meta".
Definition SSL_CTX_META : string := "ratchet_ssl_ctx_meta".
Definition SSL_META : string := "ratchet_ssl_session_meta".
Definition TIMERFD_META : string := "ratchet_timerfd_meta".

(** Constants of the platform. *)
Definition AF_UNIX : Z := 1.
Definition AF_INET : Z := 2.
Definition AF_INET6 : Z := 10.
Definition SOCK_STREAM : Z := 1.
Definition SOCK_DGRAM : Z := 2.
Definition SOCK_NONBLOCK : Z := 2048.
Definition SOCK_CLOEXEC : Z := 524288.
Definition SOMAXCONN : Z := 128.
Definition UNIX_PATH_MAX : Z := 108.
Definition LUAL_BUFFERSIZE : Z := 8192.
Definition SIZEOF_IN : Z := 16.
Definition SIZEOF_IN6 : Z := 28.
Definition SIZEOF_UN : Z := 110.
Definition SIZEOF_STORAGE : Z := 128.

(** The outcome of an SSL call: its return value, what [SSL_get_error] says of it,
    and [errno]. *)
Inductive ssl_error := SslNone | SslZeroReturn | SslWantRead | SslWantWrite | SslSyscall | SslOther (code : Z).
Record ssl_result := SslResult { sr_ret : Z; sr_error : ssl_error; sr_errno : Z }.

(** The values of socket options: [int], a buffer, [struct linger], [struct ucred],
    [struct timeval]. *)
Inductive optval :=
  | OInt (n : Z)
  | OBuf (d : string)
  | OLinger (on_off linger : Z)
  | OCred (pid uid gid : Z)
  | OTime (sec usec : Z).
Inductive optkind := KBoolean | KInt | KString | KLinger | KPeercred | KTimeval.

(** ** The operating system and OpenSSL

    The calls on an abstract state; an errno where the call fails with -1. *)
Class NetOS := {
  nos : Type;
  os_socket : Z -> Z -> Z -> nos -> nos * (Z + Z);
  os_socketpair : Z -> Z -> Z -> nos -> nos * (Z + Z * Z);
  os_set_nonblocking : Z -> nos -> nos * (Z + unit);
  os_set_closeonexec : Z -> nos -> nos * (Z + unit);
  os_close : Z -> nos -> nos * (Z + unit);
  os_unlink : string -> nos -> nos * unit;
  os_bind : Z -> sockaddr -> Z -> nos -> nos * (Z + unit);
  os_listen : Z -> Z -> nos -> nos * (Z + unit);
  os_shutdown : Z -> Z -> nos -> nos * (Z + unit);
  os_connect : Z -> sockaddr -> Z -> nos -> nos * (Z + unit);
  (** [getsockopt (fd, SOL_SOCKET, SO_ERROR)]. *)
  os_so_error : Z -> nos -> nos * (Z + Z);
  os_accept : Z -> nos -> nos * (Z + Z * sockaddr);
  os_send : Z -> string -> nos -> nos * (Z + Z);
  os_recv : Z -> Z -> nos -> nos * (Z + string);
  os_gethostname : nos -> nos * (Z + string);
  (** Text of an address of a family, or an errno. *)
  os_inet_ntop : Z -> list Z -> Z + string;
  os_strerror : Z -> string;
  (** A call of the tracer, which is Lua code: what it raises, if it does. *)
  os_trace : value -> list value -> nos -> nos * option value;
  (** [getsockopt] and [setsockopt] at level SOL_SOCKET, with the value in the C
      type that the caller uses. *)
  os_getsockopt : Z -> Z -> optkind -> nos -> nos * (Z + optval);
  os_setsockopt : Z -> Z -> optval -> nos -> nos * (Z + unit);
  (** timerfd(2). *)
  os_timerfd_create : Z -> nos -> nos * (Z + Z);
  os_timerfd_settime : Z -> Z -> timespec * timespec -> nos -> nos * (Z + timespec * timespec);
  os_timerfd_gettime : Z -> nos -> nos * (Z + timespec * timespec);
  os_timerfd_read : Z -> nos -> nos * (Z + Z);
  (** OpenSSL. *)
  ssl_bio : Z -> nos -> nos * option Z;
  (** [SSL_new] of a context with a BIO for reading and one for writing. *)
  ssl_new : option Z -> Z -> Z -> nos -> nos * option Z;
  ssl_read : Z -> Z -> nos -> nos * (ssl_result * string);
  (** [SSL_write (session, data, num)]; [num] is an int. *)
  ssl_write : Z -> string -> Z -> nos -> nos * ssl_result;
  ssl_connect : Z -> nos -> nos * ssl_result;
  ssl_accept : Z -> nos -> nos * ssl_result;
  ssl_shutdown : Z -> nos -> nos * ssl_result;
  ssl_free : Z -> nos -> nos * unit;
  ssl_clear : nos -> nos * unit;
  (** [ERR_get_error () != 0], the queue being cleared after. *)
  ssl_queued : nos -> nos * bool;
  (** [ERR_reason_error_string]. *)
  ssl_reason : Z -> option string;
  (** The peer's certificate, which is then the caller's to free; whether it was
      verified ([SSL_get_verify_result] is X509_V_OK); the common names of its
      subject, in their order. *)
  ssl_peer_certificate : Z -> nos -> nos * option Z;
  ssl_verify_result : Z -> nos -> nos * bool;
  x509_names : Z -> nos -> nos * list string;
  x509_free : Z -> nos -> nos * unit;
}.

(** ** Methods

    The addresses of the functions that are called through Lua, for [VFun], and
    the method tables that the modules register. [NF_query_all] is
    [ratchet.dns.query_all] (dns/dns.c), which the socket module only calls. *)
Definition NF_query_all : nat := 1.
Definition NF_prepare_tcp : nat := 2.
Definition NF_prepare_udp : nat := 3.
Definition NF_multi_recv : nat := 4.
Definition NF_send : nat := 5.
Definition NF_recv : nat := 6.
Definition NF_connect : nat := 7.
Definition NF_accept : nat := 8.
Definition NF_ssl_read : nat := 9.
Definition NF_ssl_write : nat := 10.
Definition NF_ssl_connect : nat := 11.
Definition NF_ssl_accept : nat := 12.
Definition NF_ssl_shutdown : nat := 13.
Definition NF_tfd_read : nat := 14.

Definition net_methods (meta name : string) : option nat :=
  let find l := (fun p : string * nat => p.2) <$> (snd <$> list_find (fun p : string * nat => p.1 = name) l) in
  if String.eqb meta SOCKET_META then
    find [("send", NF_send); ("recv", NF_recv); ("connect", NF_connect); ("accept", NF_accept)]%string
  else if String.eqb meta SSL_META then
    find [("read", NF_ssl_read); ("write", NF_ssl_write); ("shutdown", NF_ssl_shutdown); ("connect", NF_ssl_connect);
          ("accept", NF_ssl_accept); ("client_handshake", NF_ssl_connect); ("server_handshake", NF_ssl_accept)]%string
  else if String.eqb meta TIMERFD_META then find [("read", NF_tfd_read)]%string
  else None.

(** ** Argument checks (lauxlib) *)
Section Args.
Context `{LuaConv, NetOS}.
Abbreviation M := (C nmem nos).

Definition errno (function syscall : string) (e : Z) : value := ratchet_error_errno os_strerror function syscall e.

(** [luaL_optunsigned] for a length. *)
Definition opt_size (i : Z) : M Z :=
  v ← lua_value i;
  if isnoneornil v then mret LUAL_BUFFERSIZE
  else match tonumberx v with
       | Some n => match to_Z n with Some z => mret (z mod 2 ^ 32) | None => cub end
       | None => craise (VStr "number expected")
       end.
(** The descriptor of a socket object: the macro [socket_fd]. *)
Definition socket_fd (i : Z) : M (nat * Z) :=
  u ← luaL_checkudata i SOCKET_META;
  m ← mem_of u;
  match m with MSock fd => mret (u, fd) | _ => cub end.
(** The address behind [luaL_checkudata (L, i, "ratchet_socket_sockaddr_meta")],
    with [lua_rawlen]. *)
Definition check_sockaddr (i : Z) : M (sockaddr * Z) :=
  u ← luaL_checkudata i SOCKADDR_META;
  m ← mem_of u;
  match m with MAddr a n => mret (a, n) | _ => cub end.
End Args.
