(* ===== verification/Ssl.v ===== *)
(** ssl.c: sessions. What OpenSSL does is a parameter ([NetOS]); modelled is how
    its outcomes become results, waits and errors. *)

From stdpp Require Import prelude gmap strings.
From Stdlib Require Import ZArith Lia SpecFloat.
From S2P Require Import Prelude Double Lua Misc Error LuaC Net.
Local Open Scope Z_scope.

Section Ssl.
Context `{LuaConv, NetOS}.
Abbreviation M := (C nmem nos).
Abbreviation getfield := (lua_getfield net_methods).

(** The numbers of [SSL_get_error]. *)
Definition ssl_code (e : ssl_error) : Z :=
  match e with
  | SslNone => 0 | SslWantRead => 2 | SslWantWrite => 3 | SslSyscall => 5 | SslZeroReturn => 6 | SslOther c => c
  end.

Definition is_syscall (e : ssl_error) : bool := match e with SslSyscall => true | _ => false end.

Definition handle_ssl_error {A} (func : string) (ret : Z) (error : ssl_error) (orig_errno : Z) : M A :=
  queued ← sys ssl_queued;
  match (if (queued : bool) then ssl_reason (ssl_code error) else None) with
  | Some reason => craise (ratchet_error_str func "SSLERROR" ("SSL error: " ++ reason))
  | None =>
      if is_syscall error && (ret =? 0) then craise (ratchet_error_str func "SSLEOF" "Unexpected EOF received")
      else if is_syscall error && (ret =? -1) && negb (orig_errno =? 0) then craise (errno func "<unknown>" orig_errno)
      else craise (ratchet_error_str func "SSLERROR" "Unknown SSL error")
  end.

(** The session behind an object; a session freed by [__gc] is a null pointer. *)
Definition session_of (i : Z) : M Z :=
  u ← luaL_checkudata i SSL_META;
  m ← mem_of u;
  match m with MSsl (Some s) => mret s | _ => cub end.

(** The object waits for the engine of the session, a socket. *)
Definition wait_engine (what : Z) : M next :=
  lua_push (VLight what);;
  lua_getuservalue 1;;
  getfield (-1) "engine";;
  lua_remove (-2);;
  mret (NYield 2 1).

(** The check for a timeout at the head of each operation, with the index of the
    value the thread was resumed with. *)
Definition check_timeout (ctx i : Z) (func description : string) : M unit :=
  v ← lua_value i;
  if (ctx =? 1) && negb (toboolean v) then craise (ratchet_error_str func "ETIMEDOUT" description) else mret tt.

Definition rssl_session_read (ctx : Z) : M next :=
  s ← session_of 1;
  check_timeout ctx 3 "ratchet.ssl.session.read()" "Timed out on read.";;
  lua_settop 2;;
  len ← opt_size 2;
  if LUAL_BUFFERSIZE <? len then craise (VStr "Cannot recv more than 8192 bytes")
  else
    '(r, data) ← sys (ssl_read s len);
    match sr_error r with
    | SslNone => lua_push (VStr data);; mret (NRet 1)
    | SslZeroReturn => lua_push (VStr "");; mret (NRet 1)
    | SslWantRead => wait_engine YIELD_READ
    | SslWantWrite => wait_engine YIELD_WRITE
    | e => handle_ssl_error "ratchet.ssl.session.read()" (sr_ret r) e (sr_errno r)
    end.

Definition rssl_session_write (ctx : Z) : M next :=
  s ← session_of 1;
  data ← luaL_checklstring 2;
  check_timeout ctx 3 "ratchet.ssl.session.write()" "Timed out on write.";;
  lua_settop 2;;
  _ ← sys ssl_clear;
  r ← sys (ssl_write s data (to_int (Z.of_nat (String.length data))));
  match sr_error r with
  | SslNone => mret (NRet 0)
  | SslWantRead => wait_engine YIELD_READ
  | SslWantWrite => wait_engine YIELD_WRITE
  | e => handle_ssl_error "ratchet.ssl.session.write()" (sr_ret r) e (sr_errno r)
  end.

(** The two handshakes. *)
Definition handshake (call : Z -> nos -> nos * ssl_result) (func description : string) (ctx : Z) : M next :=
  s ← session_of 1;
  check_timeout ctx 2 func description;;
  lua_settop 1;;
  r ← sys (call s);
  match sr_error r with
  | SslNone => mret (NRet 0)
  | SslWantRead => wait_engine YIELD_READ
  | SslWantWrite => wait_engine YIELD_WRITE
  | e => handle_ssl_error func (sr_ret r) e (sr_errno r)
  end.
Definition rssl_session_connect : Z -> M next :=
  handshake ssl_connect "ratchet.ssl.session.client_handshake()" "Timed out on client_handshake.".
Definition rssl_session_accept : Z -> M next :=
  handshake ssl_accept "ratchet.ssl.session.server_handshake()" "Timed out on server_handshake.".

Definition rssl_session_shutdown (ctx : Z) : M next :=
  s ← session_of 1;
  check_timeout ctx 2 "ratchet.ssl.session.shutdown()" "Timed out on shutdown.";;
  lua_settop 1;;
  r ← sys (ssl_shutdown s);
  r ← (if sr_ret r =? 0 then sys (ssl_shutdown s) else mret r);
  let fail := handle_ssl_error "ratchet.ssl.session.shutdown()" (sr_ret r) (sr_error r) (sr_errno r) in
  match sr_error r with
  | SslNone => lua_push (VBool true);; mret (NRet 1)
  | SslWantRead => wait_engine YIELD_READ
  | SslWantWrite => wait_engine YIELD_WRITE
  | SslSyscall =>
      if (sr_ret r =? 0) || ((sr_ret r =? -1) && ((sr_errno r =? EPIPE) || (sr_errno r =? EBADF)))
      then lua_push (VBool false);; mret (NRet 1)
      else fail
  | _ => fail
  end.

Definition rssl_session_gc : M next :=
  u ← luaL_checkudata 1 SSL_META;
  m ← mem_of u;
  match m with
  | MSsl (Some s) => _ ← sys (ssl_free s); put_mem u (MSsl None);; mret (NRet 0)
  | MSsl None => mret (NRet 0)
  | _ => cub
  end.

Definition rssl_session_get_engine : M next :=
  _ ← luaL_checkudata 1 SSL_META;
  lua_getuservalue 1;;
  getfield (-1) "engine";;
  mret (NRet 1).

(** The loop over the common names: the first name of another length ends it. *)
Fixpoint check_names (host : string) (names : list string) (found : bool) : bool :=
  match names with
  | [] => found
  | n :: names' =>
      if negb (String.length host =? String.length n)%nat then false
      else check_names host names' (if String.eqb host n then true else found)
  end.

Definition rssl_session_verify_certificate : M next :=
  s ← session_of 1;
  v ← lua_value 2;
  host ← (if isnoneornil v then mret None else d ← luaL_checklstring 2; mret (Some d));
  peer ← sys (ssl_peer_certificate s);
  match peer with
  | None => lua_push (VBool false);; mret (NRet 1)
  | Some peer =>
      lua_push (VBool true);;
      verified ← sys (ssl_verify_result s);
      if negb verified then _ ← sys (x509_free peer); lua_push (VBool false);; mret (NRet 2)
      else
        lua_push (VBool true);;
        match host with
        | Some h =>
            names ← sys (x509_names peer);
            _ ← sys (x509_free peer);
            lua_push (VBool (check_names h names false));;
            mret (NRet 3)
        | None => _ ← sys (x509_free peer); mret (NRet 2)
        end
  end.

(** The context behind an object, null after [__gc]. *)
Definition ctx_of (i : Z) : M (nat * option Z) :=
  u ← luaL_checkudata i SSL_CTX_META;
  m ← mem_of u;
  match m with MCtx c => mret (u, c) | _ => cub end.

Definition rssl_ctx_create_session : M next :=
  '(_, ctx) ← ctx_of 1;
  v2 ← lua_value 2;
  v3 ← lua_value 3;
  v4 ← lua_value 4;
  match v2, v3 with
  | Some _, Some (VLight rbio) =>
      wbio ← match v4 with
             | None | Some VNil => mret rbio
             | Some (VLight b) => mret b
             | _ => craise (VStr "light userdata expected")
             end;
      r ← sys (ssl_new ctx rbio wbio);
      match r with
      | None => craise (VStr "Could not create SSL object")
      | Some ssl =>
          n ← lua_newuserdata (MSsl (Some ssl));
          luaL_setmetatable n SSL_META;;
          lua_createtable;;
          lua_pushvalue 2;;
          lua_setfield (-2) "engine";;
          lua_setuservalue (-2);;
          mret (NRet 1)
      end
  | None, _ => craise (VStr "value expected")
  | _, _ => craise (VStr "light userdata expected")
  end.

(** ** Socket functions of the module *)
Definition rsock_get_encryption : M next :=
  _ ← luaL_checkudata 1 SOCKET_META;
  lua_getuservalue 1;;
  getfield (-1) "ssl";;
  mret (NRet 1).

Definition rsock_encrypt : M next :=
  '(_, fd) ← socket_fd 1;
  _ ← luaL_checkudata 2 SSL_CTX_META;
  bio ← sys (ssl_bio fd);
  match bio with
  | None => craise (VStr "Could not create BIO object")
  | Some b =>
      lua_pushvalue 2;;
      lua_pushvalue 1;;
      lua_push (VLight b);;
      lua_call_c rssl_ctx_create_session 3 1;;
      lua_getuservalue 1;;
      lua_pushvalue (-2);;
      lua_setfield (-2) "ssl";;
      lua_pop 1;;
      mret (NRet 1)
  end.
End Ssl.
