(* ===== verification/SslCtx.v ===== *)
(** ssl.c: contexts, and what a session tells about its peer.

    The OpenSSL routines that only contexts use are the class [CtxOS]. Certificates,
    keys and parameters are handles, as contexts and sessions are. *)

From stdpp Require Import prelude gmap strings.
From Stdlib Require Import ZArith Lia SpecFloat.
From S2P Require Import Prelude Double Lua Misc Error LuaC Net Ssl.
Local Open Scope Z_scope.

Definition SSL_VERIFY_NONE : Z := 0.
Definition SSL_VERIFY_PEER : Z := 1.
Definition SSL_VERIFY_FAIL_IF_NO_PEER_CERT : Z := 2.
Definition SSL_VERIFY_CLIENT_ONCE : Z := 4.
Definition RSA_F4 : Z := 65537.

Class CtxOS `{NetOS} := {
  (** The address of the routine that gives a protocol method, [SSLv3_method] for
      "SSLv3", and whether OpenSSL was built without SSL 2. *)
  ssl_method : string -> Z;
  OPENSSL_NO_SSL2 : bool;
  (** [SSL_CTX_new (meth ())]. *)
  SSL_CTX_new : Z -> nos -> nos * option Z;
  SSL_CTX_free : Z -> nos -> nos * unit;
  SSL_CTX_set_verify : Z -> Z -> nos -> nos * unit;
  SSL_CTX_use_certificate_chain_file : Z -> string -> nos -> nos * Z;
  (** The callback is [password_cb], with the password as its user data. *)
  SSL_CTX_set_default_passwd : Z -> string -> nos -> nos * unit;
  SSL_CTX_use_PrivateKey_file : Z -> string -> nos -> nos * Z;
  SSL_CTX_load_verify_locations : Z -> option string -> option string -> nos -> nos * Z;
  SSL_CTX_set_verify_depth : Z -> Z -> nos -> nos * unit;
  RAND_file_name : nos -> nos * option string;
  RAND_load_file : string -> Z -> nos -> nos * Z;
  BIO_new_file : string -> nos -> nos * option Z;
  BIO_free : Z -> nos -> nos * unit;
  PEM_read_bio_DHparams : Z -> nos -> nos * option Z;
  SSL_CTX_set_tmp_dh : Z -> Z -> nos -> nos * Z;
  RSA_generate_key : Z -> Z -> nos -> nos * option Z;
  SSL_CTX_set_tmp_rsa : Z -> Z -> nos -> nos * Z;
  RSA_free : Z -> nos -> nos * unit;
  (** A memory BIO, the subject of a certificate printed into it by the rules of
      RFC 2253, and reading from it: the bytes, or a negative number. *)
  BIO_new_mem : nos -> nos * option Z;
  X509_subject_print : Z -> Z -> nos -> nos * unit;
  BIO_read : Z -> Z -> nos -> nos * (Z + string);
  SSL_get_cipher : Z -> nos -> nos * string;
}.

(** [password_cb (buf, size, rwflag, userdata)]: the buffer after the call with the
    result, or [None] when memory outside of it is written. The length is an [int],
    and the string is copied with its NUL. *)
Definition password_cb (buf : list Z) (size : Z) (password : list Z) : option (list Z * Z) :=
  let plen := to_int (Z.of_nat (length password)) in
  if size <? plen + 1 then Some (buf, 0)
  else if (length buf <? length password + 1)%nat then None
  else Some (password ++ 0 :: drop (length password + 1) buf, plen).

Section SslCtx.
Context `{LuaConv, CtxOS}.
Abbreviation M := (C nmem nos).

(** The context is handed to OpenSSL, which follows it. *)
Definition use_ctx (c : option Z) : M Z := match c with Some c => mret c | None => cub end.
(** [luaL_optstring] with NULL as the default. *)
Definition luaL_optstring (i : Z) : M (option string) :=
  v ← lua_value i; if isnoneornil v then mret None else d ← luaL_checklstring i; mret (Some (c_str d)).

Definition ssl_methods : list string :=
  (if OPENSSL_NO_SSL2 then [] else ["SSLv2"; "SSLv2_server"; "SSLv2_client"]%string) ++
  ["SSLv3"; "SSLv3_server"; "SSLv3_client"; "TLSv1"; "TLSv1_server"; "TLSv1_client"]%string.
Fixpoint setup_ssl_method_fields (l : list string) : M unit :=
  match l with
  | [] => mret tt
  | n :: l' => lua_push (VLight (ssl_method n));; lua_setfield (-2) n;; setup_ssl_method_fields l'
  end.
Definition setup_ssl_methods : M unit := setup_ssl_method_fields ssl_methods.

Definition rssl_ctx_new : M next :=
  v ← lua_value 1;
  meth ← match v with
         | None | Some VNil => mret (ssl_method "SSLv3")
         | Some (VLight p) => mret p
         | _ => craise (VStr "light userdata expected")
         end;
  ctx ← sys (SSL_CTX_new meth);
  match ctx with
  | None => craise (VStr "Creation of SSL_CTX object failed")
  | Some ctx =>
      u ← lua_newuserdata (MCtx (Some ctx));
      luaL_setmetatable u SSL_CTX_META;;
      lua_createtable;;
      lua_pushvalue 2;;
      lua_setfield (-2) "password";;
      lua_setuservalue (-2);;
      mret (NRet 1)
  end.

Definition rssl_ctx_gc : M next :=
  '(u, ctx) ← ctx_of 1;
  (match ctx with Some c => sys (SSL_CTX_free c) | None => mret tt end);;
  put_mem u (MCtx None);;
  mret (NRet 0).

Definition verify_modes : list Z :=
  [SSL_VERIFY_NONE; SSL_VERIFY_PEER; Z.lor SSL_VERIFY_PEER SSL_VERIFY_FAIL_IF_NO_PEER_CERT; Z.lor SSL_VERIFY_PEER SSL_VERIFY_CLIENT_ONCE].
Definition rssl_ctx_set_verify_mode : M next :=
  '(_, ctx) ← ctx_of 1;
  i ← luaL_checkoption 2 "peer" ["none"; "peer"; "fail"; "once"]%string;
  match verify_modes !! i with
  | None => cub
  | Some mode => c ← use_ctx ctx; _ ← sys (SSL_CTX_set_verify c mode); mret (NRet 0)
  end.

(** The pointer to the password is kept by OpenSSL. *)
Definition rssl_ctx_load_certs : M next :=
  '(_, ctx) ← ctx_of 1;
  d ← luaL_checklstring 2;
  let certchainfile := c_str d in
  p ← luaL_optstring 3;
  let privkeyfile := default certchainfile p in
  password ← luaL_optstring 4;
  c ← use_ctx ctx;
  r ← sys (SSL_CTX_use_certificate_chain_file c certchainfile);
  if r =? 0 then craise (VStr ("Could not read certificate chain file: " ++ certchainfile))
  else
    (match password with Some p => sys (SSL_CTX_set_default_passwd c p) | None => mret tt end);;
    r ← sys (SSL_CTX_use_PrivateKey_file c privkeyfile);
    if r =? 0 then craise (VStr ("Could not read key file: " ++ privkeyfile)) else mret (NRet 0).

Definition rssl_ctx_load_cas : M next :=
  '(_, ctx) ← ctx_of 1;
  ca_path ← luaL_optstring 2;
  ca_file ← luaL_optstring 3;
  match ca_path, ca_file with
  | None, None => craise (VStr "Path to trusted CAs required.")
  | _, _ =>
      depth ← luaL_optint 4 1;
      c ← use_ctx ctx;
      r ← sys (SSL_CTX_load_verify_locations c ca_file ca_path);
      if r =? 0 then
        craise (VStr (match ca_path, ca_file with
                      | Some p, Some f => "Could not read CA locations: " ++ f ++ " " ++ p
                      | Some p, None => "Could not read CA path: " ++ p
                      | None, f => "Could not read CA file: " ++ default "(null)" f
                      end)%string)
      else _ ← sys (SSL_CTX_set_verify_depth c depth); mret (NRet 0)
  end.

Definition rssl_ctx_load_randomness : M next :=
  _ ← luaL_checkudata 1 SSL_CTX_META;
  random ← luaL_optstring 2;
  rand_max_bytes ← luaL_optint 3 1048576;
  random ← (match random with Some r => mret (Some r) | None => sys RAND_file_name end);
  match random with
  | None => craise (VStr "Could not find default random file")
  | Some random =>
      r ← sys (RAND_load_file random rand_max_bytes);
      if r =? 0 then craise (VStr ("Could not load randomness: " ++ random)) else mret (NRet 0)
  end.

Definition rssl_ctx_load_dh_params : M next :=
  '(_, ctx) ← ctx_of 1;
  d ← luaL_checklstring 2;
  let file := c_str d in
  bio ← sys (BIO_new_file file);
  match bio with
  | None => craise (VStr ("Could not open DH params file: " ++ file))
  | Some bio =>
      ret ← sys (PEM_read_bio_DHparams bio);
      _ ← sys (BIO_free bio);
      match ret with
      | None => craise (VStr ("Could not read DH params file: " ++ file))
      | Some dh =>
          c ← use_ctx ctx;
          r ← sys (SSL_CTX_set_tmp_dh c dh);
          if r <? 0 then craise (VStr ("Could not set DH params: " ++ file)) else mret (NRet 0)
      end
  end.

(** [luaL_optlong], cast to an unsigned long. *)
Definition opt_ulong (i def : Z) : M Z :=
  v ← lua_value i; if isnoneornil v then mret def else z ← luaL_checkinteger i; mret (z mod 2 ^ 64).
Definition rssl_ctx_generate_tmp_rsa : M next :=
  '(_, ctx) ← ctx_of 1;
  bits ← luaL_optint 2 512;
  e ← opt_ulong 3 RSA_F4;
  rsa ← sys (RSA_generate_key bits e);
  match rsa with
  | None => craise (VStr ("Could not generate a " ++ number2str (of_Z bits) ++ "-bit RSA key"))
  | Some rsa =>
      c ← use_ctx ctx;
      r ← sys (SSL_CTX_set_tmp_rsa c rsa);
      if r =? 0 then craise (VStr "Could not set set temporary RSA key")
      else _ ← sys (RSA_free rsa); mret (NRet 0)
  end.

(** ** Sessions *)

(** What [BIO_read] returns is the number of bytes added to the buffer, also when it
    is negative. *)
Definition rssl_session_get_rfc2253 : M next :=
  s ← session_of 1;
  peer ← sys (ssl_peer_certificate s);
  match peer with
  | None => lua_push VNil;; mret (NRet 1)
  | Some peer =>
      bio ← sys BIO_new_mem;
      match bio with
      | None => cub
      | Some bio =>
          _ ← sys (X509_subject_print bio peer);
          r ← sys (BIO_read bio LUAL_BUFFERSIZE);
          match r with
          | inl _ => cub
          | inr d =>
              lua_push (VStr d);;
              _ ← sys (BIO_free bio);
              _ ← sys (x509_free peer);
              mret (NRet 1)
          end
      end
  end.

(** [lua_pushstring]: up to the first NUL. *)
Definition rssl_session_get_cipher : M next :=
  s ← session_of 1;
  c ← sys (SSL_get_cipher s);
  lua_push (VStr (c_str c));;
  mret (NRet 1).

(** The functions that Lua code can call: [luaopen_ratchet_ssl], and encryption of
    a socket. *)
Inductive ssl_fn :=
  | FCtxNew | FCtxGc | FCreateSession | FSetVerifyMode | FLoadCerts | FLoadCas | FLoadRandomness | FLoadDhParams | FGenerateTmpRsa
  | FGetEngine | FVerifyCertificate | FGetRfc2253 | FGetCipher | FRead | FWrite | FShutdown | FConnect | FAccept | FSessionGc
  | FEncrypt | FGetEncryption.
Definition ssl_code_of (f : ssl_fn) (ctx : Z) : M next :=
  match f with
  | FCtxNew => rssl_ctx_new
  | FCtxGc => rssl_ctx_gc
  | FCreateSession => rssl_ctx_create_session
  | FSetVerifyMode => rssl_ctx_set_verify_mode
  | FLoadCerts => rssl_ctx_load_certs
  | FLoadCas => rssl_ctx_load_cas
  | FLoadRandomness => rssl_ctx_load_randomness
  | FLoadDhParams => rssl_ctx_load_dh_params
  | FGenerateTmpRsa => rssl_ctx_generate_tmp_rsa
  | FGetEngine => rssl_session_get_engine
  | FVerifyCertificate => rssl_session_verify_certificate
  | FGetRfc2253 => rssl_session_get_rfc2253
  | FGetCipher => rssl_session_get_cipher
  | FRead => rssl_session_read ctx
  | FWrite => rssl_session_write ctx
  | FShutdown => rssl_session_shutdown ctx
  | FConnect => rssl_session_connect ctx
  | FAccept => rssl_session_accept ctx
  | FSessionGc => rssl_session_gc
  | FEncrypt => rsock_encrypt
  | FGetEncryption => rsock_get_encryption
  end.
End SslCtx.
