(* ===== verification/Sockopt.v ===== *)
(** sockopt.c: options of sockets by name. *)

From stdpp Require Import prelude gmap strings.
From Stdlib Require Import ZArith Lia SpecFloat.
From S2P Require Import Prelude Double Lua Misc Error LuaC Net.
Local Open Scope Z_scope.

(** The options that CHECK_OPT_GET and CHECK_OPT_SET name, in their order, with
    their numbers on Linux. *)
Definition socket_options : list (string * Z * optkind) :=
  [("SO_ACCEPTCONN", 30, KBoolean); ("SO_BINDTODEVICE", 25, KString); ("SO_BROADCAST", 6, KInt); ("SO_BSDCOMPAT", 14, KBoolean);
   ("SO_DEBUG", 1, KBoolean); ("SO_DOMAIN", 39, KInt); ("SO_ERROR", 4, KInt); ("SO_DONTROUTE", 5, KBoolean);
   ("SO_KEEPALIVE", 9, KBoolean); ("SO_LINGER", 13, KLinger); ("SO_OOBINLINE", 10, KBoolean); ("SO_PASSCRED", 16, KBoolean);
   ("SO_PEERCRED", 17, KPeercred); ("SO_PRIORITY", 12, KInt); ("SO_PROTOCOL", 38, KInt); ("SO_RCVBUF", 8, KInt);
   ("SO_RCVBUFFORCE", 33, KInt); ("SO_RCVLOWAT", 18, KInt); ("SO_SNDLOWAT", 19, KInt); ("SO_RCVTIMEO", 20, KTimeval);
   ("SO_SNDTIMEO", 21, KTimeval); ("SO_REUSEADDR", 2, KBoolean); ("SO_SNDBUF", 7, KInt); ("SO_SNDBUFFORCE", 32, KInt);
   ("SO_TIMESTAMP", 29, KBoolean); ("SO_TYPE", 3, KInt)]%string.

(** The chain of comparisons of [rsockopt_get] and [rsockopt_set]. *)
Fixpoint find_option (opts : list (string * Z * optkind)) (key : string) : option (Z * optkind) :=
  match opts with
  | [] => None
  | (name, opt, kind) :: opts' => if strcmp0 name key then Some (opt, kind) else find_option opts' key
  end.

Section Sockopt.
Context `{LuaConv, NetOS}.
Abbreviation M := (C nmem nos).
Abbreviation getfield := (lua_getfield net_methods).

(** ** Reading *)
Definition get_opt (fd opt : Z) (kind : optkind) : M optval :=
  r ← sys (os_getsockopt fd opt kind);
  match r with
  | inl e => craise (errno "ratchet.socket.getsockopt()" "getsockopt" e)
  | inr v => mret v
  end.

(** A field of the table at the top. *)
Definition put_field (name : string) (v : value) : M unit := lua_push v;; lua_setfield (-2) name.
Definition boolean (z : Z) : value := VBool (negb (z =? 0)).

Definition rsockopt_get_boolean (fd opt : Z) : M next :=
  v ← get_opt fd opt KBoolean;
  match v with OInt z => lua_push (boolean z);; mret (NRet 1) | _ => cub end.
Definition rsockopt_get_int (fd opt : Z) : M next :=
  v ← get_opt fd opt KInt;
  match v with OInt z => lua_push (VNum (of_Z z));; mret (NRet 1) | _ => cub end.
Definition rsockopt_get_string (fd opt : Z) : M next :=
  v ← get_opt fd opt KString;
  match v with OBuf d => lua_push (VStr d);; mret (NRet 1) | _ => cub end.
Definition rsockopt_get_linger (fd opt : Z) : M next :=
  v ← get_opt fd opt KLinger;
  match v with
  | OLinger on l => lua_createtable;; put_field "l_onoff" (boolean on);; put_field "l_linger" (VNum (of_Z l));; mret (NRet 1)
  | _ => cub
  end.
Definition rsockopt_get_peercred (fd opt : Z) : M next :=
  v ← get_opt fd opt KPeercred;
  match v with
  | OCred p u g =>
      lua_createtable;; put_field "pid" (VNum (of_Z (to_int p)));; put_field "uid" (VNum (of_Z (to_int u)));;
      put_field "gid" (VNum (of_Z (to_int g)));; mret (NRet 1)
  | _ => cub
  end.
Definition rsockopt_get_timeval (fd opt : Z) : M next :=
  v ← get_opt fd opt KTimeval;
  match v with
  | OTime s us => lua_createtable;; put_field "tv_sec" (VNum (of_Z s));; put_field "tv_usec" (VNum (of_Z us));; mret (NRet 1)
  | _ => cub
  end.

(** ** Writing *)
Definition set_opt (fd opt : Z) (v : optval) : M next :=
  r ← sys (os_setsockopt fd opt v);
  match r with
  | inl e => craise (errno "ratchet.socket.setsockopt()" "setsockopt" e)
  | inr _ => mret (NRet 0)
  end.

(** [lua_tointeger] of a field of the table at [i]. *)
Definition int_field (i : Z) (name : string) : M Z :=
  getfield i name;;
  v ← lua_value (-1);
  lua_pop 1;;
  match tointeger v with Some z => mret z | None => cub end.
Definition bool_field (i : Z) (name : string) : M Z :=
  getfield i name;;
  v ← lua_value (-1);
  lua_pop 1;;
  mret (if toboolean v then 1 else 0).

Definition rsockopt_set_boolean (fd opt i : Z) : M next :=
  v ← lua_value i; set_opt fd opt (OInt (if toboolean v then 1 else 0)).
Definition rsockopt_set_int (fd opt i : Z) : M next := z ← luaL_checkint i; set_opt fd opt (OInt z).
Definition rsockopt_set_string (fd opt i : Z) : M next := d ← luaL_checklstring i; set_opt fd opt (OBuf d).
Definition rsockopt_set_linger (fd opt i : Z) : M next :=
  luaL_checktable i;;
  on ← bool_field i "l_onoff";
  l ← int_field i "l_linger";
  set_opt fd opt (OLinger on (to_int l)).
Definition rsockopt_set_peercred (fd opt i : Z) : M next :=
  luaL_checktable i;;
  p ← int_field i "pid";
  u ← int_field i "uid";
  g ← int_field i "gid";
  set_opt fd opt (OCred (to_int p) (u mod 2 ^ 32) (g mod 2 ^ 32)).
Definition rsockopt_set_timeval (fd opt i : Z) : M next :=
  luaL_checktable i;;
  s ← int_field i "tv_sec";
  us ← int_field i "tv_usec";
  set_opt fd opt (OTime s us).

(** ** Public functions *)
Definition rsockopt_get : M next :=
  '(_, fd) ← socket_fd 1;
  key ← luaL_checklstring 2;
  match find_option socket_options key with
  | Some (opt, KBoolean) => rsockopt_get_boolean fd opt
  | Some (opt, KInt) => rsockopt_get_int fd opt
  | Some (opt, KString) => rsockopt_get_string fd opt
  | Some (opt, KLinger) => rsockopt_get_linger fd opt
  | Some (opt, KPeercred) => rsockopt_get_peercred fd opt
  | Some (opt, KTimeval) => rsockopt_get_timeval fd opt
  | None => lua_push VNil;; mret (NRet 1)
  end.

(** An unknown option makes the C function return -1 results, which the Lua core
    does not allow. *)
Definition rsockopt_set : M next :=
  '(_, fd) ← socket_fd 1;
  key ← luaL_checklstring 2;
  match find_option socket_options key with
  | Some (opt, KBoolean) => rsockopt_set_boolean fd opt 3
  | Some (opt, KInt) => rsockopt_set_int fd opt 3
  | Some (opt, KString) => rsockopt_set_string fd opt 3
  | Some (opt, KLinger) => rsockopt_set_linger fd opt 3
  | Some (opt, KPeercred) => rsockopt_set_peercred fd opt 3
  | Some (opt, KTimeval) => rsockopt_set_timeval fd opt 3
  | None => cub
  end.
End Sockopt.
