(* ===== verification/Timerfd.v ===== *)
(** timerfd.c: timers as descriptors. *)

From stdpp Require Import prelude gmap strings.
From Stdlib Require Import ZArith Lia SpecFloat.
From S2P Require Import Prelude Double Lua Misc Error LuaC Net.
Local Open Scope Z_scope.

Section Timerfd.
Context `{LuaConv, NetOS}.
Abbreviation M := (C nmem nos).

Definition CLOCK_REALTIME : Z := 0.
Definition CLOCK_MONOTONIC : Z := 1.
Definition TFD_TIMER_ABSTIME : Z := 1.

(** The descriptor behind an object: the macro [timerfd_fd]. *)
Definition timerfd_fd (i : Z) : M (nat * Z) :=
  u ← luaL_checkudata i TIMERFD_META;
  m ← mem_of u;
  match m with MTimer fd => mret (u, fd) | _ => cub end.

Definition rtfd_new : M next :=
  how ← luaL_checkoption 1 "monotonic" ["monotonic"; "realtime"]%string;
  u ← lua_newuserdata (MTimer (-1));
  r ← sys (os_timerfd_create (if (how =? 0)%nat then CLOCK_MONOTONIC else CLOCK_REALTIME));
  match r with
  | inl e => craise (errno "ratchet.timerfd.new()" "timerfd_create" e)
  | inr fd => put_mem u (MTimer fd);; luaL_setmetatable u TIMERFD_META;; mret (NRet 1)
  end.

Definition rtfd_gc : M next :=
  '(_, fd) ← timerfd_fd 1;
  (if 0 <=? fd then _ ← sys (os_close fd); mret tt else mret tt);;
  mret (NRet 0).

Definition rtfd_get_fd : M next := '(_, fd) ← timerfd_fd 1; lua_push (VNum (of_Z fd));; mret (NRet 1).

(** [gettimespec_opt] into a field that was cleared before. *)
Definition timespec_opt (i : Z) : M timespec :=
  v ← lua_value i;
  match gettimespec_opt v with
  | inl e => craise e
  | inr (Set_ ts) => mret ts
  | inr Unset => mret (Timespec 0 0)
  | inr Undefined => cub
  end.

Definition rtfd_settime : M next :=
  '(_, fd) ← timerfd_fd 1;
  value ← timespec_opt 2;
  interval ← timespec_opt 3;
  how ← luaL_checkoption 4 "relative" ["relative"; "absolute"]%string;
  r ← sys (os_timerfd_settime fd (if (how =? 0)%nat then 0 else TFD_TIMER_ABSTIME) (value, interval));
  match r with
  | inl e => craise (errno "ratchet.timerfd.settime()" "timerfd_settime" e)
  | inr (v, i) => lua_push (VNum (fromtimespec v));; lua_push (VNum (fromtimespec i));; mret (NRet 2)
  end.

Definition rtfd_gettime : M next :=
  '(_, fd) ← timerfd_fd 1;
  r ← sys (os_timerfd_gettime fd);
  match r with
  | inl e => craise (errno "ratchet.timerfd.gettime()" "timerfd_gettime" e)
  | inr (v, i) => lua_push (VNum (fromtimespec v));; lua_push (VNum (fromtimespec i));; mret (NRet 2)
  end.

Definition rtfd_close : M next :=
  '(u, fd) ← timerfd_fd 1;
  if fd <? 0 then mret (NRet 0)
  else
    r ← sys (os_close fd);
    match r with
    | inl e => craise (errno "ratchet.timerfd.close()" "close" e)
    | inr _ => put_mem u (MTimer (-1));; lua_push (VBool true);; mret (NRet 1)
    end.

Definition rtfd_read (_ : Z) : M next :=
  lua_settop 1;;
  '(_, fd) ← timerfd_fd 1;
  r ← sys (os_timerfd_read fd);
  match r with
  | inl e =>
      if e =? EAGAIN then lua_push (VLight YIELD_READ);; lua_pushvalue 1;; mret (NYield 2 1)
      else craise (errno "ratchet.timerfd.read()" "read" e)
  | inr fires => lua_push (VNum (of_Z fires));; mret (NRet 1)
  end.
End Timerfd.
