(* ===== verification/Socket.v ===== *)
(** socket.c: socket objects. *)

From stdpp Require Import prelude gmap strings.
From Stdlib Require Import ZArith Lia SpecFloat.
From S2P Require Import Prelude Double Lua Misc Error LuaC Net Ssl Timerfd.
Local Open Scope Z_scope.

(** ** Byte order

    A number in network byte order, as [memcpy] of the result of [htonl] or
    [htons] puts it in a string, and back. *)
Fixpoint be_bytes (n : nat) (x : Z) : list Z :=
  match n with O => [] | S n' => be_bytes n' (x / 256) ++ [x mod 256] end.
Fixpoint be_value (l : list Z) (acc : Z) : Z :=
  match l with [] => acc | b :: l' => be_value l' (256 * acc + b) end.

Section Socket.
Context `{LuaConv, NetOS}.
Abbreviation M := (C nmem nos).
Abbreviation getfield := (lua_getfield net_methods).

(** ** Helpers *)

Definition push_inet_ntop (a : sockaddr) : M unit :=
  let push f bytes :=
    match os_inet_ntop f bytes with
    | inl e => craise (errno "ratchet.socket.sockaddr.__tostring()" "inet_ntop" e)
    | inr t => lua_push (VStr t)
    end in
  match a with
  | SaIn _ bytes => push AF_INET bytes
  | SaIn6 _ bytes => push AF_INET6 bytes
  | SaUn path => lua_push (VStr (c_str path))
  | SaOther _ => lua_push VNil
  end.

(** [call_tracer (L, index, type, args)]: the top [args] values are consumed. *)
Definition call_tracer (index : Z) (type : string) (args : nat) : M unit :=
  lua_getuservalue index;;
  getfield (-1) "tracer";;
  v ← lua_value (-1);
  if negb (toboolean v) then lua_pop (2 + args)
  else
    lua_remove (-2);;
    lua_insert (- Z.of_nat args - 1);;
    lua_push (VStr type);;
    lua_insert (- Z.of_nat args - 1);;
    k ← gstack;
    lua_pop (S (S args));;
    match drop (length k - S (S args)) k with
    | f :: vs =>
        r ← sys (os_trace f vs);
        match r with Some e => craise e | None => mret tt end
    | [] => cub
    end.

Definition push_query_types_table (index : Z) : M unit :=
  let one name := lua_createtable;; lua_push (VStr name);; lua_rawseti (-2) 1 in
  v ← lua_value index;
  if isnoneornil v || strequal v "AF_UNSPEC" then
    lua_createtable;;
    lua_push (VStr "aaaa");;
    lua_rawseti (-2) 1;;
    lua_push (VStr "a");;
    lua_rawseti (-2) 2
  else if strequal v "AF_INET" then one "a"%string
  else if strequal v "AF_INET6" then one "aaaa"%string
  else craise (VStr "Unknown socket address family.").

(** A new userdata with an address. *)
Definition new_sockaddr (a : sockaddr) (size : Z) : M unit :=
  u ← lua_newuserdata (MAddr a size); luaL_setmetatable u SOCKADDR_META.

(** The bytes of the record at the top of the stack: [lua_topointer] and the
    [memcpy] of [n] bytes from it. *)
Definition top_address (n : nat) : M (list Z) :=
  v ← lua_value (-1);
  match v with
  | Some (VUd u) =>
      m ← mem_of u;
      match m with MIn bytes => if (n <=? length bytes)%nat then mret (take n bytes) else cub | _ => cub end
  | _ => cub
  end.

Definition to_uint16 (z : Z) : Z := z mod 2 ^ 16.

(** The common head of [build_tcp_info] and [build_udp_info]. *)
Definition build_info_head (socktype : Z) : M (string * Z) :=
  luaL_checktable 1;;
  host ← luaL_checklstring 2;
  port ← luaL_checkint 3;
  lua_settop 3;;
  lua_createtable;;
  lua_push (VNum (of_Z socktype));;
  lua_setfield 4 "socktype";;
  lua_push (VNum (of_Z 0));;
  lua_setfield 4 "protocol";;
  lua_pushvalue 2;;
  lua_setfield 4 "host";;
  mret (host, port).

(** One family of [build_tcp_info]: the records under [name]; true when the
    function returns, with the info table on the top. *)
Definition tcp_family (name : string) (family : Z) (n : nat) (size : Z) (mk : list Z -> sockaddr) : M bool :=
  getfield 1 name;;
  v ← lua_value (-1);
  done ← (if isnil v then mret false
    else
      lua_push (VNum (of_Z family));;
      lua_setfield 4 "family";;
      lua_rawgeti (-1) 1;;
      lua_remove (-2);;
      v ← lua_value (-1);
      if isnil v then lua_pop 1;; mret false
      else
        a ← top_address n;
        new_sockaddr (mk a) size;;
        lua_setfield 4 "addr";;
        lua_pop 1;;
        mret true);
  if (done : bool) then mret true else lua_pop 1;; mret false.

Definition build_tcp_info : M next :=
  '(host, port) ← build_info_head SOCK_STREAM;
  six ← tcp_family "aaaa" AF_INET6 16 SIZEOF_IN6 (SaIn6 (to_uint16 port));
  if (six : bool) then mret (NRet 1)
  else
    four ← tcp_family "a" AF_INET 4 SIZEOF_IN (SaIn (to_uint16 port));
    if (four : bool) then mret (NRet 1)
    else
      getfield 1 "aaaa_error";;
      getfield 1 "a_error";;
      v6 ← lua_value (-2);
      v4 ← lua_value (-1);
      let why := match tostring v4, tostring v6 with Some t, _ => t | None, Some t => t | None, None => host end in
      craise (ratchet_error_str "ratchet.dns.query()" "ENOENT" ("No DNS records: " ++ c_str why)).

(** One family of [build_udp_info], which keeps the table of records below the
    record. *)
Definition udp_family (name : string) (family : Z) (n : nat) (size : Z) (mk : list Z -> sockaddr) : M bool :=
  getfield 1 name;;
  v ← lua_value (-1);
  done ← (if isnil v then mret false
    else
      lua_push (VNum (of_Z family));;
      lua_setfield 4 "family";;
      lua_rawgeti (-1) 1;;
      v ← lua_value (-1);
      if isnil v then lua_pop 1;; mret false
      else
        a ← top_address n;
        new_sockaddr (mk a) size;;
        lua_setfield 4 "addr";;
        lua_pop 1;;
        mret true);
  if (done : bool) then mret true else lua_pop 1;; mret false.

Definition build_udp_info : M next :=
  '(_, port) ← build_info_head SOCK_DGRAM;
  six ← udp_family "aaaa" AF_INET6 16 SIZEOF_IN6 (SaIn6 (to_uint16 port));
  if (six : bool) then mret (NRet 1)
  else
    four ← udp_family "a" AF_INET 4 SIZEOF_IN (SaIn (to_uint16 port));
    if (four : bool) then mret (NRet 1) else mret (NRet 0).

(** ** Namespace functions *)

(** The metatable and the uservalue of a socket object at an index below the top;
    the socket module sets them one by one. *)
Definition new_uservalue (index : Z) : M unit :=
  lua_createtable;;
  lua_push (VNum (of_Z (-1)));;
  lua_setfield (-2) "timeout";;
  lua_setuservalue index.

Definition rsock_new : M next :=
  family ← luaL_optint 1 AF_INET;
  socktype ← luaL_optint 2 SOCK_STREAM;
  protocol ← luaL_optint 3 0;
  u ← lua_newuserdata (MSock (-1));
  r ← sys (os_socket family (Z.lor socktype (Z.lor SOCK_NONBLOCK SOCK_CLOEXEC)) protocol);
  match r with
  | inl e => craise (errno "ratchet.socket.new()" "socket" e)
  | inr fd =>
      put_mem u (MSock fd);;
      luaL_setmetatable u SOCKET_META;;
      new_uservalue (-2);;
      mret (NRet 1)
  end.

Definition rsock_new_pair : M next :=
  family ← luaL_optint 1 AF_UNIX;
  socktype ← luaL_optint 2 SOCK_STREAM;
  protocol ← luaL_optint 3 0;
  u1 ← lua_newuserdata (MSock (-1));
  u2 ← lua_newuserdata (MSock (-1));
  r ← sys (os_socketpair family (Z.lor socktype (Z.lor SOCK_NONBLOCK SOCK_CLOEXEC)) protocol);
  match r with
  | inl e => craise (errno "ratchet.socket.new_pair()" "socketpair" e)
  | inr (a, b) =>
      put_mem u1 (MSock a);;
      put_mem u2 (MSock b);;
      luaL_setmetatable u2 SOCKET_META;;
      luaL_setmetatable u1 SOCKET_META;;
      new_uservalue (-2);;
      new_uservalue (-3);;
      mret (NRet 2)
  end.

Definition rsock_from_fd : M next :=
  u ← lua_newuserdata (MSock (-1));
  fd ← luaL_checkint 1;
  put_mem u (MSock fd);;
  if fd <? 0 then craise (ratchet_error_str "ratchet.socket.from_fd()" "EBADF" "Invalid file descriptor.")
  else
    r ← sys (os_set_nonblocking fd);
    match r with
    | inl e => craise (errno "ratchet.socket.from_fd()" "fcntl" e)
    | inr _ =>
        r ← sys (os_set_closeonexec fd);
        match r with
        | inl e => craise (errno "ratchet.socket.from_fd()" "fcntl" e)
        | inr _ => luaL_setmetatable u SOCKET_META;; new_uservalue (-2);; mret (NRet 1)
        end
    end.

Definition rsock_prepare_unix : M next :=
  path ← luaL_checklstring 1;
  lua_settop 1;;
  lua_createtable;;
  lua_push (VNum (of_Z AF_UNIX));;
  lua_setfield 2 "family";;
  lua_push (VNum (of_Z SOCK_STREAM));;
  lua_setfield 2 "socktype";;
  lua_push (VNum (of_Z 0));;
  lua_setfield 2 "protocol";;
  new_sockaddr (SaUn (String.substring 0 (Z.to_nat (UNIX_PATH_MAX - 1)) (c_str path))) SIZEOF_UN;;
  lua_setfield 2 "addr";;
  mret (NRet 1).

(** [prepare_tcp] and [prepare_udp]: the query of the DNS module in between. *)
Definition prepare (build : M next) (ctx : Z) : M next :=
  if ctx =? 0 then
    lua_settop 3;;
    push_query_types_table 3;;
    lua_replace 3;;
    lua_push (VFun NF_query_all);;
    lua_pushvalue 1;;
    lua_pushvalue 3;;
    mret (NCall 2 2 1)
  else
    v ← lua_value 4;
    if toboolean v then
      lua_settop 4;;
      lua_pushvalue 4;;
      lua_pushvalue 1;;
      lua_pushvalue 2;;
      lua_call_c build 3 1;;
      mret (NRet 1)
    else mret (NRet 2).
Definition rsock_prepare_tcp : Z -> M next := prepare build_tcp_info.
Definition rsock_prepare_udp : Z -> M next := prepare build_udp_info.

(** [ntoh], [ntoh16]: the number replaces the first argument. *)
Definition ntoh (size : nat) : M next :=
  str ← luaL_checklstring 1;
  k ← gstack;
  (if negb (String.length str =? size)%nat then lua_push VNil
   else lua_push (VNum (of_Z (be_value (bytes_of_string str) 0))));;
  lua_replace 1;;
  mret (NRet (length k)).
Definition rsock_ntoh : M next := ntoh 4.
Definition rsock_ntoh16 : M next := ntoh 2.

Definition hton (size : nat) : M next :=
  k ← gstack;
  x ← luaL_checkinteger 1;
  lua_push (VStr (string_of_bytes (be_bytes size x)));;
  lua_replace 1;;
  mret (NRet (length k)).
Definition rsock_hton : M next := hton 4.
Definition rsock_hton16 : M next := hton 2.

Definition rsock_gethostname : M next :=
  r ← sys os_gethostname;
  match r with
  | inl e => craise (errno "ratchet.socket.gethostname()" "gethostname" e)
  | inr t => lua_push (VStr (c_str t));; mret (NRet 1)
  end.

Definition rsock_multi_recv (ctx : Z) : M next :=
  if ctx =? 0 then
    lua_settop 3;;
    lua_push (VLight YIELD_MULTIRW);;
    lua_pushvalue 1;;
    lua_push VNil;;
    lua_pushvalue 2;;
    mret (NYield 4 1)
  else if ctx =? 1 then
    v ← lua_value 4;
    if negb (toboolean v) then lua_push VNil;; mret (NRet 1)
    else
      lua_settop 4;;
      getfield 4 "recv";;
      lua_pushvalue 4;;
      lua_pushvalue 3;;
      mret (NCall 2 2 2)
  else
    v ← lua_value 5;
    if negb (toboolean v) then mret (NRet 2)
    else lua_pushvalue 5;; lua_pushvalue 4;; mret (NRet 2).

(** ** Member functions *)

Definition rsock_sockaddr_tostring : M next := '(a, _) ← check_sockaddr 1; push_inet_ntop a;; mret (NRet 1).

Definition rsock_gc : M next :=
  '(u, fd) ← socket_fd 1;
  (if 0 <=? fd then _ ← sys (os_close fd); mret tt else mret tt);;
  put_mem u (MSock (-1));;
  mret (NRet 0).

Definition rsock_eq : M next :=
  '(_, fd1) ← socket_fd 1;
  '(_, fd2) ← socket_fd 2;
  lua_push (VBool (fd1 =? fd2));;
  mret (NRet 1).

Definition rsock_get_fd : M next := '(_, fd) ← socket_fd 1; lua_push (VNum (of_Z fd));; mret (NRet 1).

Definition rsock_get_timeout : M next :=
  _ ← socket_fd 1; lua_getuservalue 1;; getfield (-1) "timeout";; mret (NRet 1).

Definition rsock_set_timeout : M next :=
  _ ← socket_fd 1;
  luaL_checknumber 2;;
  lua_getuservalue 1;;
  lua_pushvalue 2;;
  lua_setfield (-2) "timeout";;
  mret (NRet 0).

Definition rsock_check_errors : M next :=
  '(_, fd) ← socket_fd 1;
  r ← sys (os_so_error fd);
  match r with
  | inl e =>
      if e =? EBADF then craise (errno "ratchet.socket.check_errors()" "<unknown>" e)
      else craise (errno "ratchet.socket.check_errors()" "getsockopt" e)
  | inr error =>
      if negb (error =? 0) then craise (errno "ratchet.socket.check_errors()" "<unknown>" error)
      else lua_push (VBool true);; mret (NRet 1)
  end.

Definition rsock_bind : M next :=
  '(_, fd) ← socket_fd 1;
  '(a, len) ← check_sockaddr 2;
  match a with SaUn path => _ ← sys (os_unlink (c_str path)); mret tt | _ => mret tt end;;
  r ← sys (os_bind fd a len);
  match r with
  | inl e => craise (errno "ratchet.socket.bind()" "bind" e)
  | inr _ => lua_pushvalue 2;; call_tracer 1 "bind" 1;; lua_push (VBool true);; mret (NRet 1)
  end.

Definition rsock_listen : M next :=
  '(_, fd) ← socket_fd 1;
  backlog ← luaL_optint 2 SOMAXCONN;
  r ← sys (os_listen fd backlog);
  match r with
  | inl e => craise (errno "ratchet.socket.listen()" "listen" e)
  | inr _ => call_tracer 1 "listen" 0;; lua_push (VBool true);; mret (NRet 1)
  end.

(** SHUT_RD, SHUT_WR, SHUT_RDWR are 0, 1, 2, in the order of the options; the value
    at index 2 is traced, nil when the default was used. *)
Definition rsock_shutdown : M next :=
  '(_, fd) ← socket_fd 1;
  how ← luaL_checkoption 2 "both" ["read"; "write"; "both"]%string;
  r ← sys (os_shutdown fd (Z.of_nat how));
  match r with
  | inl e => craise (errno "ratchet.socket.shutdown()" "shutdown" e)
  | inr _ => lua_pushvalue 2;; call_tracer 1 "shutdown" 1;; lua_push (VBool true);; mret (NRet 1)
  end.

Definition rsock_close : M next :=
  '(u, fd) ← socket_fd 1;
  if fd <? 0 then mret (NRet 0)
  else
    r ← sys (os_close fd);
    match r with
    | inl e => craise (errno "ratchet.socket.close()" "close" e)
    | inr _ => put_mem u (MSock (-1));; call_tracer 1 "close" 0;; lua_push (VBool true);; mret (NRet 1)
    end.

Definition rsock_set_tracer : M next :=
  _ ← socket_fd 1;
  lua_settop 2;;
  lua_getuservalue 1;;
  lua_pushvalue 2;;
  lua_setfield (-2) "tracer";;
  mret (NRet 0).

Definition rsock_connect (ctx : Z) : M next :=
  '(_, fd) ← socket_fd 1;
  '(a, len) ← check_sockaddr 2;
  check_timeout ctx 3 "ratchet.socket.connect()" "Timed out on connect.";;
  lua_settop 2;;
  r ← sys (os_connect fd a len);
  match r with
  | inl e =>
      if (e =? EALREADY) || (e =? EINPROGRESS)
      then lua_push (VLight YIELD_WRITE);; lua_pushvalue 1;; mret (NYield 2 1)
      else craise (errno "ratchet.socket.connect()" "connect" e)
  | inr _ =>
      r ← sys (os_so_error fd);
      match r with
      | inl e => craise (errno "ratchet.socket.connect()" "getsockopt" e)
      | inr _ => push_inet_ntop a;; call_tracer 1 "connect" 1;; mret (NRet 0)
      end
  end.

(** The bytes an address takes. [accept] is told there are SIZEOF_STORAGE of them. *)
Definition sa_size (a : sockaddr) : Z :=
  match a with SaIn _ _ => SIZEOF_IN | SaIn6 _ _ => SIZEOF_IN6 | SaUn _ => SIZEOF_UN | SaOther _ => SIZEOF_STORAGE end.

(** The address that [accept] fills in is the userdata at index 2, made here unless
    the caller gave one. *)
Definition rsock_accept (ctx : Z) : M next :=
  '(_, fd) ← socket_fd 1;
  check_timeout ctx 3 "ratchet.socket.accept()" "Timed out on accept.";;
  lua_settop 2;;
  v ← lua_value 2;
  u ← match v with
      | Some (VUd u) => mret u
      | Some (VLight _) => cub
      | _ => new_sockaddr (SaOther 0) SIZEOF_STORAGE;; k ← gstack; lua_replace 2;;
             match last k with Some (VUd u) => mret u | _ => cub end
      end;
  r ← sys (os_accept fd);
  match r with
  | inl e =>
      if e =? EAGAIN
      then lua_push (VLight YIELD_READ);; lua_pushvalue 1;; mret (NYield 2 1)
      else craise (errno "ratchet.socket.accept()" "accept" e)
  | inr (client, a) =>
      m ← mem_of u;
      match m with
      | MAddr _ size =>
          (if size <? sa_size a then cub else put_mem u (MAddr a size));;
          lua_push (VNum (of_Z client));;
          lua_call_c rsock_from_fd 1 1;;
          lua_pushvalue 2;;
          push_inet_ntop a;;
          call_tracer 1 "accept" 1;;
          mret (NRet 2)
      | _ => cub
      end
  end.

(** A prefix of a string and what follows it. *)
Definition str_take (n : Z) (d : string) : string := String.substring 0 (Z.to_nat n) d.
Definition str_rest (n : Z) (d : string) : string := String.substring (Z.to_nat n) (String.length d - Z.to_nat n) d.

Definition rsock_send (ctx : Z) : M next :=
  '(_, fd) ← socket_fd 1;
  data ← luaL_checklstring 2;
  check_timeout ctx 3 "ratchet.socket.send()" "Timed out on send.";;
  lua_settop 2;;
  r ← sys (os_send fd data);
  match r with
  | inl e =>
      if e =? EAGAIN
      then lua_push (VLight YIELD_WRITE);; lua_pushvalue 1;; mret (NYield 2 1)
      else craise (errno "ratchet.socket.send()" "send" e)
  | inr n =>
      if n <? Z.of_nat (String.length data) then
        lua_push (VStr (str_take n data));;
        call_tracer 1 "send" 1;;
        lua_push (VStr (str_rest n data));;
        mret (NRet 1)
      else lua_pushvalue 2;; call_tracer 1 "send" 1;; mret (NRet 0)
  end.

Definition rsock_recv (ctx : Z) : M next :=
  '(_, fd) ← socket_fd 1;
  check_timeout ctx 3 "ratchet.socket.recv()" "Timed out on recv.";;
  lua_settop 2;;
  len ← opt_size 2;
  if LUAL_BUFFERSIZE <? len then craise (VStr "Cannot recv more than 8192 bytes")
  else
    r ← sys (os_recv fd len);
    match r with
    | inl e =>
        if e =? EAGAIN
        then lua_push (VLight YIELD_READ);; lua_pushvalue 1;; mret (NYield 2 1)
        else craise (errno "ratchet.socket.recv()" "recv" e)
    | inr data =>
        lua_push (VStr data);;
        lua_pushvalue (-1);;
        call_tracer 1 "recv" 1;;
        mret (NRet 1)
    end.

(** *** Sends and receives that may be encrypted

    The contexts 0 and 1 are those of [rsock_try_encrypted_send] and
    [rsock_try_encrypted_recv]; the plain routine they call yields with itself as
    the continuation, which is the context 11 here. *)
Definition as_plain (plain : Z -> M next) (ctx : Z) : M next :=
  n ← plain ctx; match n with NYield m 1 => mret (NYield m 11) | n => mret n end.

Definition rsock_try_encrypted_send (ctx : Z) : M next :=
  if ctx =? 11 then as_plain rsock_send 1
  else
    _ ← socket_fd 1;
    if ctx =? 1 then lua_pushvalue 2;; call_tracer 1 "encrypted send" 1;; mret (NRet 0)
    else
      lua_settop 2;;
      lua_pushvalue 1;;
      lua_call_c rsock_get_encryption 1 1;;
      v ← lua_value (-1);
      if toboolean v then
        getfield (-1) "write";;
        lua_pushvalue (-2);;
        lua_pushvalue 2;;
        mret (NCall 2 0 1)
      else lua_settop 2;; as_plain rsock_send 0.

Definition rsock_try_encrypted_recv (ctx : Z) : M next :=
  if ctx =? 11 then as_plain rsock_recv 1
  else
    _ ← socket_fd 1;
    if ctx =? 1 then lua_pushvalue (-1);; call_tracer 1 "encrypted recv" 1;; mret (NRet 1)
    else
      lua_settop 2;;
      lua_pushvalue 1;;
      lua_call_c rsock_get_encryption 1 1;;
      v ← lua_value (-1);
      if toboolean v then
        getfield (-1) "read";;
        lua_pushvalue (-2);;
        lua_pushvalue 2;;
        mret (NCall 2 1 1)
      else lua_settop 2;; as_plain rsock_recv 0.

(** The functions by address; [query_all] is the DNS module's. *)
Context (query_all : Z -> M next).
Definition net_code (f : nat) : option (Z -> M next) :=
  nth f [None; Some query_all; Some rsock_prepare_tcp; Some rsock_prepare_udp; Some rsock_multi_recv;
         Some rsock_try_encrypted_send; Some rsock_try_encrypted_recv; Some rsock_connect; Some rsock_accept;
         Some rssl_session_read; Some rssl_session_write; Some rssl_session_connect; Some rssl_session_accept;
         Some rssl_session_shutdown; Some rtfd_read] None.
End Socket.
