(* ===== verification/SocketSpec.v ===== *)
(** Sends and receives of a socket along every run: the states of the Lua stack
    for every operating system, every order of events and every tracer. *)

From stdpp Require Import prelude gmap strings.
From Stdlib Require Import ZArith Lia SpecFloat.
From S2P Require Import Prelude Double Lua Misc Error LuaC Net Ssl Timerfd Socket.
Local Open Scope Z_scope.

(** ** The transfers of a run

    The state of the operating system holds a record of the transfers; the record
    is read through [transfers], and each call says what it adds. *)
Inductive transfer :=
  | Sent (fd : Z) (data : string)
  | Received (fd : Z) (data : string)
  | SslWrote (session : Z) (data : string)
  | SslRead (session : Z) (data : string).

Definition kept {A} (o : NetOS) (f : @nos o -> @nos o * A) (ev : A -> list transfer)
    (s : @nos o * list transfer) : (@nos o * list transfer) * A :=
  let '(x, a) := f s.1 in ((x, s.2 ++ ev a), a).
Definition no_transfer {A} (_ : A) : list transfer := [].
Definition tr_send (fd : Z) (d : string) (r : Z + Z) : list transfer :=
  match r with inr n => [Sent fd (str_take n d)] | inl _ => [] end.
Definition tr_recv (fd : Z) (r : Z + string) : list transfer := match r with inr d => [Received fd d] | inl _ => [] end.
Definition tr_ssl_write (s : Z) (d : string) (r : ssl_result) : list transfer :=
  match sr_error r with SslNone => [SslWrote s (str_take (sr_ret r) d)] | _ => [] end.
Definition tr_ssl_read (s : Z) (r : ssl_result * string) : list transfer :=
  match sr_error r.1 with SslNone => [SslRead s r.2] | _ => [] end.

Definition nlogged (o : NetOS) : NetOS := {|
  nos := @nos o * list transfer;
  os_socket f t p := kept o (os_socket f t p) no_transfer;
  os_socketpair f t p := kept o (os_socketpair f t p) no_transfer;
  os_set_nonblocking fd := kept o (os_set_nonblocking fd) no_transfer;
  os_set_closeonexec fd := kept o (os_set_closeonexec fd) no_transfer;
  os_close fd := kept o (os_close fd) no_transfer;
  os_unlink p := kept o (os_unlink p) no_transfer;
  os_bind fd a n := kept o (os_bind fd a n) no_transfer;
  os_listen fd n := kept o (os_listen fd n) no_transfer;
  os_shutdown fd n := kept o (os_shutdown fd n) no_transfer;
  os_connect fd a n := kept o (os_connect fd a n) no_transfer;
  os_so_error fd := kept o (os_so_error fd) no_transfer;
  os_accept fd := kept o (os_accept fd) no_transfer;
  os_send fd d := kept o (os_send fd d) (tr_send fd d);
  os_recv fd n := kept o (os_recv fd n) (tr_recv fd);
  os_gethostname := kept o os_gethostname no_transfer;
  os_inet_ntop := os_inet_ntop;
  os_strerror := os_strerror;
  os_trace f vs := kept o (os_trace f vs) no_transfer;
  os_getsockopt fd n k := kept o (os_getsockopt fd n k) no_transfer;
  os_setsockopt fd n v := kept o (os_setsockopt fd n v) no_transfer;
  os_timerfd_create n := kept o (os_timerfd_create n) no_transfer;
  os_timerfd_settime fd n v := kept o (os_timerfd_settime fd n v) no_transfer;
  os_timerfd_gettime fd := kept o (os_timerfd_gettime fd) no_transfer;
  os_timerfd_read fd := kept o (os_timerfd_read fd) no_transfer;
  ssl_bio fd := kept o (ssl_bio fd) no_transfer;
  ssl_new c a b := kept o (ssl_new c a b) no_transfer;
  ssl_read s n := kept o (ssl_read s n) (tr_ssl_read s);
  ssl_write s d n := kept o (ssl_write s d n) (tr_ssl_write s d);
  ssl_connect s := kept o (ssl_connect s) no_transfer;
  ssl_accept s := kept o (ssl_accept s) no_transfer;
  ssl_shutdown s := kept o (ssl_shutdown s) no_transfer;
  ssl_free s := kept o (ssl_free s) no_transfer;
  ssl_clear := kept o ssl_clear no_transfer;
  ssl_queued := kept o ssl_queued no_transfer;
  ssl_reason := ssl_reason;
  ssl_peer_certificate s := kept o (ssl_peer_certificate s) no_transfer;
  ssl_verify_result s := kept o (ssl_verify_result s) no_transfer;
  x509_names p := kept o (x509_names p) no_transfer;
  x509_free p := kept o (x509_free p) no_transfer |}.

(** What the calls promise: [send] sends some prefix of the data (send(2)), and
    [SSL_write], which is not set to write in parts, succeeds only when it wrote all
    of the bytes it was asked to write (SSL_write(3)). *)
Class SendOk (o : NetOS) : Prop := {
  send_ok fd d x x' n : os_send fd d x = (x', inr n) -> 0 <= n <= Z.of_nat (String.length d);
  ssl_write_ok s d n x x' r : ssl_write s d n x = (x', r) -> sr_error r = SslNone -> sr_ret r = n;
}.

(** What a session writes of a string: its size is cast to an int. *)
Definition ssl_part (data : string) : string := str_take (to_int (Z.of_nat (String.length data))) data.
Lemma ssl_part_all data : Z.of_nat (String.length data) < 2 ^ 31 -> ssl_part data = data.
Proof.
  intros Hl. unfold ssl_part, str_take. rewrite to_int_id by lia. rewrite Nat2Z.id. clear Hl. induction data as [|a d IH]; [done|]. cbn. by rewrite IH.
Qed.

Section Io.
Context `{LuaConv} (o : NetOS) (query_all : Z -> C nmem (@nos (nlogged o)) next).
#[local] Instance nlos : NetOS := nlogged o.
Abbreviation St := (lstate nmem (@nos nlos)).
Implicit Types s : St.
Definition transfers (s : St) : list transfer := @snd (@nos o) (list transfer) (ls_os s).

Lemma keptE {A} (f : @nos o -> @nos o * A) (ev : A -> list transfer) (k : list value) (s : St) :
  exists x a, f (@fst (@nos o) (list transfer) (ls_os s)) = (x, a) /\
    sys (kept o f ev : @nos nlos -> @nos nlos * A) k s = CVal a k (set_ls_os s ((x, transfers s ++ ev a) : @nos nlos)).
Proof. unfold sys, kept, transfers. destruct (f _) as [x a] eqn:E. by exists x, a. Qed.

(** The object [u] is a socket with descriptor [fd], uservalue [uv] holding [tb]. *)
Record is_socket (s : St) (u uv : nat) (fd : Z) (tb : tab) : Prop := {
  is_ud : ls_uds s !! u = Some (UData (Some SOCKET_META) (MSock fd) (VTab uv));
  is_uv : ls_tabs s !! uv = Some tb;
}.
(** [w] is a session, whose engine is [e]. *)
Record is_session (s : St) (w wv : nat) (ssl : Z) (tb : tab) : Prop := {
  ss_ud : ls_uds s !! w = Some (UData (Some SSL_META) (MSsl (Some ssl)) (VTab wv));
  ss_uv : ls_tabs s !! wv = Some tb;
}.

(** States that differ in the operating system only, with the same transfers. *)
Definition same (s s' : St) : Prop := exists y, s' = set_ls_os s y /\ transfers s' = transfers s.
Lemma same_refl s : same s s.
Proof. exists (ls_os s). by destruct s. Qed.
Lemma same_trans s1 s2 s3 : same s1 s2 -> same s2 s3 -> same s1 s3.
Proof. intros (y & -> & E) (z & -> & E'). exists z. split; [done|]. by rewrite <- E, <- E'. Qed.
Lemma same_os s y : same s (set_ls_os s ((y, transfers s ++ []) : @nos nlos)).
Proof. eexists. split; [reflexivity|]. unfold transfers. cbn. by rewrite app_nil_r. Qed.
Lemma same_socket s s' u uv fd tb : same s s' -> is_socket s u uv fd tb -> is_socket s' u uv fd tb.
Proof. intros (y & -> & _) []. by split. Qed.
Lemma same_session s s' w wv ssl tb : same s s' -> is_session s w wv ssl tb -> is_session s' w wv ssl tb.
Proof. intros (y & -> & _) []. by split. Qed.

Ltac netcall f ev := match goal with
  | |- context [sys ?g ?k ?s] => change g with (kept o f ev);
      let y := fresh "y" in let r := fresh "r" in let Hos := fresh "Hos" in
      destruct (keptE f ev k s) as (y & r & Hos & ->); cbv beta iota
  end.

(** The tracer consumes its argument; it may raise. *)
Lemma tracerE s u uv fd tb k v type : is_socket s u uv fd tb -> (length k <= 3)%nat ->
  (exists e s', @call_tracer nlos 1 type 1 (VUd u :: k ++ [v]) s = CErr e s' /\ same s s') \/
  (exists s', @call_tracer nlos 1 type 1 (VUd u :: k ++ [v]) s = CVal tt (VUd u :: k) s' /\ same s s').
Proof.
  intros [Hu Hv] Hk. unfold call_tracer.
  destruct k as [|a [|b [|c [|]]]]; [..|cbn in Hk; lia]; lnorm; lrun;
    (destruct (field tb "tracer") as [|[]| | | | | | | | ] eqn:Ht; lnorm; lrun;
     try (right; eexists; split; [reflexivity|apply same_refl])).
  all: match goal with |- context [sys (os_trace ?f ?vs)] => netcall (@os_trace o f vs) (@no_transfer (option value)) end.
  all: (destruct r as [ex|]; lrun; [left; eexists _, _|right; eexists]; (split; [reflexivity|by apply same_os])).
Qed.

(** An error of OpenSSL always raises. *)
Lemma handle_ssl_errorE {A} func ret e en k s : exists v s', @handle_ssl_error nlos A func ret e en k s = CErr v s' /\ same s s'.
Proof.
  unfold handle_ssl_error. lrun. netcall (@ssl_queued o) (@no_transfer bool). destruct (if r then _ else _); lrun;
    [eexists _, _; split; [reflexivity|apply same_os]|].
  destruct (is_syscall e && (ret =? 0)); lrun; [eexists _, _; split; [reflexivity|apply same_os]|].
  destruct (is_syscall e && (ret =? -1) && negb (en =? 0)); lrun; eexists _, _; (split; [reflexivity|apply same_os]).
Qed.

(** The check for a timeout raises or does nothing. *)
Lemma check_timeoutE ctx i f d k s :
  (exists e, @check_timeout nlos ctx i f d k s = CErr e s) \/ @check_timeout nlos ctx i f d k s = CVal tt k s.
Proof. unfold check_timeout. rewrite bindE. unfold lua_value. cbv beta iota. case_match; [left; by eexists|by right]. Qed.

(** ** [send] *)
Section Send.
Context (u uv : nat) (fd : Z) (tb : tab) (data : string) (t0 : list transfer).

(** The socket is not encrypted, or its session is [w]. *)
Inductive mode := Plain | Tls (w wv : nat) (ssl : Z) (tbw : tab).
Definition mode_ok (s : St) (m : mode) : Prop :=
  match m with
  | Plain => toboolean (Some (field tb "ssl")) = false
  | Tls w wv ssl tbw => field tb "ssl" = VUd w /\ is_session s w wv ssl tbw
  end.
(** The transfer that a send of [data] makes in each mode, and its results. *)
Definition sent (m : mode) (vs : list value) (s : St) : Prop :=
  match m with
  | Plain => exists n, 0 <= n <= Z.of_nat (String.length data) /\ transfers s = t0 ++ [Sent fd (str_take n data)] /\
      vs = if n <? Z.of_nat (String.length data) then [VStr (str_rest n data)] else []
  | Tls w wv ssl tbw => transfers s = t0 ++ [SslWrote ssl (ssl_part data)] /\ vs = []
  end.

Definition ready (s : St) (m : mode) : Prop := is_socket s u uv fd tb /\ mode_ok s m.
Lemma ready_same s s' m : same s s' -> ready s m -> ready s' m.
Proof. intros Hs [Hu Hm]. split; [by eapply same_socket|]. destruct m; [done|]. destruct Hm. split; [done|]. by eapply same_session. Qed.

Lemma ready_os s y m : ready s m -> ready (set_ls_os s y) m.
Proof. intros [[] Hm]. split; [by split|]. destruct m; [done|]. destruct Hm as [? []]. split; [done|by split]. Qed.

Inductive sending (m : mode) : nat -> Z -> list value -> list frame -> St -> Prop :=
  | sd_0 s : ready s m -> transfers s = t0 -> sending m NF_send 0 [VUd u; VStr data] [] s
  | sd_11 s b : ready s m -> m = Plain -> transfers s = t0 -> sending m NF_send 11 [VUd u; VStr data; VBool b] [] s
  | sd_ssl s w wv ssl tbw ctx rest : ready s m -> m = Tls w wv ssl tbw -> transfers s = t0 -> rest = [] \/ (exists b, rest = [VBool b]) ->
      sending m NF_ssl_write ctx (VUd w :: VStr data :: rest) [Frame NF_send 1 [VUd u; VStr data; VUd w] 0] s
  | sd_1 s w wv ssl tbw : ready s m -> m = Tls w wv ssl tbw -> transfers s = t0 ++ [SslWrote ssl (ssl_part data)] ->
      sending m NF_send 1 [VUd u; VStr data; VUd w] [] s.

Inductive send_waits (m : mode) : list value -> susp -> St -> Prop :=
  | sw_plain s : ready s m -> m = Plain -> transfers s = t0 ->
      send_waits m [VLight YIELD_WRITE; VUd u] (Susp NF_send 11 [VUd u; VStr data] []) s
  | sw_ssl s w wv ssl tbw y : ready s m -> m = Tls w wv ssl tbw -> transfers s = t0 -> y = YIELD_READ \/ y = YIELD_WRITE ->
      send_waits m [VLight y; field tbw "engine"]
        (Susp NF_ssl_write 1 [VUd w; VStr data] [Frame NF_send 1 [VUd u; VStr data; VUd w] 0]) s.

Definition send_good (m : mode) (a : after nmem (@nos nlos)) : Prop :=
  match a with
  | Running c => sending m (c_fun c) (c_ctx c) (c_stk c) (c_frames c) (c_st c)
  | Suspended vs w s => send_waits m vs w s
  | Finished vs s => sent m vs s
  | Raised _ s => transfers s = t0 \/ exists vs, sent m vs s
  | Broken => False
  end.

Abbreviation nstep := (step (@net_code _ nlos query_all)).
Ltac nbody f g := unfold step; cbn [c_fun c_ctx c_stk c_frames c_st]; change (net_code query_all f) with (Some g); cbv beta iota.

Lemma sent_same m vs s s' : same s s' -> sent m vs s -> sent m vs s'.
Proof. intros (y & -> & E). destruct m; unfold sent; by rewrite E. Qed.

(** The plain routine. *)
Lemma rsock_sendE (Hok : SendOk o) s ctx rest : ready s Plain -> transfers s = t0 -> rest = [] \/ (exists b, rest = [VBool b]) ->
  match @rsock_send _ nlos ctx (VUd u :: VStr data :: rest) s with
  | CVal (NYield 2 1) k s' => k = [VUd u; VStr data; VLight YIELD_WRITE; VUd u] /\ same s s'
  | CVal (NRet n) k s' => (n <= length k)%nat /\ sent Plain (drop (length k - n) k) s'
  | CErr _ s' => transfers s' = t0 \/ exists vs, sent Plain vs s'
  | _ => False
  end.
Proof.
  intros [Hu Hm] Ht Hrest. pose proof Hu as [Hud Huv]. unfold rsock_send, socket_fd, mem_of, luaL_checklstring.
  assert (exists b, rest = [] \/ rest = [VBool b]) as (b & Hr) by (destruct Hrest as [->|[b ->]]; [exists true|exists b]; auto).
  destruct Hr as [-> | ->]; lrun; match goal with |- context [check_timeout ?c ?i ?f ?d ?k s] =>
      destruct (check_timeoutE c i f d k s) as [[e ->]| ->] end; cbv beta iota; [by left| |by left|]; lrun;
    netcall (@os_send o fd data) (tr_send fd data); (destruct r as [e|n]; cbn [tr_send]; [destruct (e =? EAGAIN); lrun|]);
    try (left; unfold transfers in *; cbn; by rewrite app_nil_r); try (split; [done|apply same_os]).
  all: destruct (send_ok _ _ _ _ _ Hos) as [Hn0 Hn1].
  all: assert (Hsent : sent Plain (if n <? Z.of_nat (String.length data) then [VStr (str_rest n data)] else [])
    (set_ls_os s ((y, transfers s ++ [Sent fd (str_take n data)]) : @nos nlos))) by (exists n; rewrite Ht; by repeat split).
  all: destruct (n <? Z.of_nat (String.length data)); lrun.
  all: match goal with |- context [call_tracer 1 "send" 1 (?x :: ?d :: [?v]) ?s1] =>
      destruct (tracerE s1 u uv fd tb [d] v "send" (ltac:(by split)) (ltac:(cbn; lia))) as [(e & s2 & Hc & Hsame)|(s2 & Hc & Hsame)];
      cbn [app] in Hc; rewrite Hc end; cbv beta iota; lrun; [right; eexists; by eapply sent_same|split; [cbn; lia|by eapply sent_same]].
Qed.

Lemma as_plainE (f : Z -> C nmem (@nos nlos) next) c k s : as_plain f c k s =
  match f c k s with
  | CVal (NYield m 1) k' s' => CVal (NYield m 11) k' s'
  | CVal n k' s' => CVal n k' s'
  | CErr e s' => CErr e s'
  | CUB => CUB
  end.
Proof. unfold as_plain. rewrite bindE. destruct (f c k s) as [[n|c'|a b c'|m [|[]|]] k' s'| |]; reflexivity. Qed.

(** A step of the plain routine. *)
Lemma plain_step (Hok : SendOk o) s ctx rest fs : ready s Plain -> transfers s = t0 -> rest = [] \/ (exists b, rest = [VBool b]) -> fs = [] ->
  send_good Plain match as_plain (@rsock_send _ nlos) ctx (VUd u :: VStr data :: rest) s with
    | CUB => Broken
    | CErr e s' => Raised e s'
    | CVal n k s' =>
        match n with
        | NRet n => if (length k <? n)%nat then Broken else Finished (top k n) s'
        | NYield n c => if (length k <? n)%nat then Broken else Suspended (top k n) (Susp NF_send c (below k n) fs) s'
        | _ => Broken
        end
    end.
Proof.
  intros Hr Ht Hrest ->. rewrite as_plainE. pose proof (rsock_sendE Hok s ctx rest Hr Ht Hrest) as Hs.
  destruct (rsock_send ctx _ s) as [[n|c'|a b c'|[|[|[|m]]] [|[]|]] k' s'|e s'|]; try done.
  - destruct Hs as [Hn Hs]. cbv beta iota. by rewrite (proj2 (Nat.ltb_ge _ _) Hn).
  - destruct Hs as [-> Hsame]. cbn. apply sw_plain; [by eapply ready_same|done|]. destruct Hsame as (y & -> & E). by rewrite E.
Qed.

Lemma get_encryptionE s k : is_socket s u uv fd tb ->
  lua_call_c (@rsock_get_encryption nlos) 1 1 (k ++ [VUd u]) s = CVal tt (k ++ [field tb "ssl"]) s.
Proof.
  intros [Hu Hv]. rewrite (call_cE _ _ _ _ _ 1 [VUd u; VTab uv; field tb "ssl"] s).
  - rewrite length_app. cbn [length]. replace (length k + 1 - 1)%nat with (length k) by lia. by rewrite take_app_length.
  - rewrite length_app. cbn [length]. apply Nat.ltb_ge. lia.
  - rewrite length_app. cbn [length]. replace (length k + 1 - 1)%nat with (length k) by lia. rewrite drop_app_length.
    unfold rsock_get_encryption. lrun. done.
  - done.
Qed.

Lemma step_send_0 (Hok : SendOk o) m s : ready s m -> transfers s = t0 ->
  send_good m (nstep (Conf NF_send 0 [VUd u; VStr data] [] s)).
Proof.
  intros Hr Ht. pose proof Hr as [Hu Hm]. pose proof Hu as [Hud Huv].
  nbody NF_send (@rsock_try_encrypted_send _ nlos). unfold rsock_try_encrypted_send, socket_fd, mem_of. lnorm. lrun.
  pose proof (get_encryptionE s [VUd u; VStr data] Hu) as Hge. cbn [app] in Hge. rewrite Hge. cbv beta iota. lop. lop.
  destruct m as [|w wv ssl tbw].
  - cbn [mode_ok] in Hm. change (match field tb "ssl" with VNil | VBool false => false | _ => true end) with (toboolean (Some (field tb "ssl"))).
    rewrite Hm. cbv beta iota. lop. lop. pose proof (plain_step Hok s 0 [] [] Hr Ht (or_introl eq_refl) eq_refl) as Hp.
    destruct (as_plain _ _ _ _) as [[] |e s'|]; done.
  - destruct Hm as [Hssl [Hw Hwv]]. rewrite Hssl. cbv beta iota. lrun.
    eapply (sd_ssl _ s w wv ssl tbw 0 []); auto.
Qed.

(** A wait of a session for its engine. *)
Lemma wait_engineE y k s w wv ssl tbw : is_session s w wv ssl tbw -> (length k <= 2)%nat ->
  @wait_engine nlos y (VUd w :: k) s = CVal (NYield 2 1) (VUd w :: k ++ [VLight y; field tbw "engine"]) s.
Proof. intros [Hw Hv] Hk. unfold wait_engine. destruct k as [|a [|b [|]]]; [..|cbn in Hk; lia]; lrun; done. Qed.

Lemma transfers_same s s' : same s s' -> transfers s' = transfers s.
Proof. by intros (y & -> & E). Qed.

Lemma step_send_ssl (Hok : SendOk o) m s w wv ssl tbw ctx rest : ready s m -> m = Tls w wv ssl tbw -> transfers s = t0 ->
  rest = [] \/ (exists b, rest = [VBool b]) ->
  send_good m (nstep (Conf NF_ssl_write ctx (VUd w :: VStr data :: rest) [Frame NF_send 1 [VUd u; VStr data; VUd w] 0] s)).
Proof.
  intros Hr -> Ht Hrest. pose proof Hr as [Hu [Hssl Hw]]. pose proof Hw as [Hwd Hwv].
  nbody NF_ssl_write (@rssl_session_write _ nlos). unfold rssl_session_write, session_of, mem_of, luaL_checklstring.
  assert (exists b, rest = [] \/ rest = [VBool b]) as (b & Hb) by (destruct Hrest as [->|[b ->]]; [exists true|exists b]; auto).
  destruct Hb as [-> | ->]; lrun; match goal with |- context [check_timeout ?c ?i ?f ?d ?k s] =>
      destruct (check_timeoutE c i f d k s) as [[e ->]| ->] end; cbv beta iota; [by left| |by left|]; lrun;
    netcall (@ssl_clear o) (@no_transfer unit); lrun;
    match goal with |- context [sys (ssl_write ssl data _) ?k ?s1] => assert (Hs1 : same s s1) by apply same_os; revert Hs1; generalize s1 end;
    intros s1 Hs1; lrun; netcall (@ssl_write o ssl data (to_int (Z.of_nat (String.length data)))) (tr_ssl_write ssl data); pose proof (ssl_write_ok _ _ _ _ _ _ Hos0) as Hret;
    destruct r0 as [ret err en]; cbn [sr_error sr_ret sr_errno] in *;
    unfold tr_ssl_write; cbn [sr_error sr_ret].
  all: pose proof (ready_same _ _ _ Hs1 Hr) as Hr1; pose proof Hr1 as [_ [_ Hw1]]; pose proof (transfers_same _ _ Hs1) as Et1.
  all: assert (Hs2 : err <> SslNone -> same s1 (set_ls_os s1 ((y0, transfers s1 ++ match err with SslNone => [SslWrote ssl (str_take ret data)] | _ => [] end) : @nos nlos)))
    by (destruct err; try done; intros _; apply same_os).
  all: destruct err; cbv beta iota; try (specialize (Hs2 ltac:(done)); pose proof (same_trans _ _ _ Hs1 Hs2) as Hs;
    pose proof (transfers_same _ _ Hs) as Et; pose proof (ready_same _ _ _ Hs Hr) as Hr2; pose proof Hr2 as [Hu2 [_ Hw2]]).
  all: try (match goal with |- context [handle_ssl_error ?f ?r ?e ?n ?k ?s2] => destruct (@handle_ssl_errorE next f r e n k s2) as (v & s3 & -> & Hs3) end;
    left; by rewrite (transfers_same _ _ Hs3), Et).
  all: try (rewrite (wait_engineE _ [VStr data] _ w wv ssl tbw) by (first [done | cbn; lia]); cbv beta iota; apply (sw_ssl _ _ w wv ssl tbw); [done|done|by rewrite Et|by auto]).
  all: lrun; eapply sd_1; [by apply ready_os|reflexivity|]; unfold transfers at 1; cbn [ls_os set_ls_os snd]; by rewrite Et1, Ht, Hret.
Qed.

Lemma step_send_1 m s w wv ssl tbw : ready s m -> m = Tls w wv ssl tbw -> transfers s = t0 ++ [SslWrote ssl (ssl_part data)] ->
  send_good m (nstep (Conf NF_send 1 [VUd u; VStr data; VUd w] [] s)).
Proof.
  intros Hr -> Ht. pose proof Hr as [Hu [Hssl Hw]]. pose proof Hu as [Hud Huv].
  assert (Hsent : sent (Tls w wv ssl tbw) [] s) by by split.
  nbody NF_send (@rsock_try_encrypted_send _ nlos). unfold rsock_try_encrypted_send, socket_fd, mem_of. lnorm. lrun.
  destruct (tracerE s u uv fd tb [VStr data; VUd w] (VStr data) "encrypted send" Hu (ltac:(cbn; lia))) as [(e & s2 & Hc & Hsame)|(s2 & Hc & Hsame)];
    cbn [app] in Hc; rewrite Hc; cbv beta iota; lrun; [right; eexists; by eapply sent_same|by eapply sent_same].
Qed.

Lemma step_send_11 (Hok : SendOk o) m s b : ready s m -> m = Plain -> transfers s = t0 ->
  send_good m (nstep (Conf NF_send 11 [VUd u; VStr data; VBool b] [] s)).
Proof.
  intros Hr -> Ht. nbody NF_send (@rsock_try_encrypted_send _ nlos). unfold rsock_try_encrypted_send. lnorm.
  pose proof (plain_step Hok s 1 [VBool b] [] Hr Ht (or_intror (ex_intro _ b eq_refl)) eq_refl) as Hp.
  destruct (as_plain _ _ _ _) as [[] |e s'|]; done.
Qed.

Lemma step_send (Hok : SendOk o) m f ctx k fs s : sending m f ctx k fs s -> send_good m (nstep (Conf f ctx k fs s)).
Proof. destruct 1; eauto using step_send_0, step_send_11, step_send_ssl, step_send_1. Qed.

(** Resumption. What the other threads leave alone: the objects of this call. *)
Lemma resume_send m vs w s s' b : send_waits m vs w s -> ready s' m -> transfers s' = transfers s ->
  let c := resume w [VBool b] s' in sending m (c_fun c) (c_ctx c) (c_stk c) (c_frames c) (c_st c).
Proof.
  intros Hw Hr Et. destruct Hw as [s _ -> Ht|s w wv ssl tbw y _ -> Ht _]; cbn.
  - apply sd_11; [done|done|by rewrite Et].
  - eapply (sd_ssl _ _ w wv ssl tbw 1 [VBool b]); [done|done|by rewrite Et|eauto].
Qed.
End Send.

(** What a resumed call may rely on: other threads leave the socket object, its
    uservalue and its session alone, and the record is this call's. *)
Record keeps (u uv : nat) (s s' : St) : Prop := {
  kp_ud : ls_uds s' !! u = ls_uds s !! u;
  kp_uv : ls_tabs s' !! uv = ls_tabs s !! uv;
  kp_session w d : ls_uds s !! w = Some d -> ud_meta d = Some SSL_META -> ls_uds s' !! w = Some d /\
    forall wv, ud_uv d = VTab wv -> ls_tabs s' !! wv = ls_tabs s !! wv;
  kp_transfers : transfers s' = transfers s;
}.
Definition event_value (_ : St) (_ rs : list value) : Prop := exists b, rs = [VBool b].

Lemma ready_keeps u uv fd tb m s s' : keeps u uv s s' -> ready u uv fd tb s m -> ready u uv fd tb s' m.
Proof.
  intros [Hu Hv Hw _] [[Hud Huv] Hm]. split; [split; congruence|]. destruct m as [|w wv ssl tbw]; [done|].
  destruct Hm as [Hssl [Hwd Hwv]]. split; [done|]. destruct (Hw w _ Hwd eq_refl) as [Hwd' Hwv']. split; [done|]. rewrite <- Hwv. by apply Hwv'.
Qed.

Lemma reach_send (Hok : SendOk o) u uv fd tb data m s a : ready u uv fd tb s m ->
  reach (@net_code _ nlos query_all) event_value (keeps u uv) (start NF_send [VUd u; VStr data] s) a ->
  send_good u uv fd tb data (transfers s) m a.
Proof.
  intros Hr. apply reach_inv.
  - by apply sd_0.
  - intros [f ctx k fs s1] Hs. by apply step_send.
  - intros vs w s1 s2 rs Hw [b ->] Hk. pose proof (kp_transfers _ _ _ _ Hk) as Et.
    eapply (resume_send u uv fd tb data (transfers s) m vs w s1 s2 b); [done| |done].
    eapply ready_keeps; [done|]. by destruct Hw.
Qed.

(** ** [recv] *)
Section Recv.
Context (u uv : nat) (fd : Z) (tb : tab) (lenv : value) (len : Z) (t0 : list transfer).

(** The argument that says how much to read. *)
Definition length_arg (v : value) : option Z :=
  if isnoneornil (Some v) then Some LUAL_BUFFERSIZE
  else match tonumberx (Some v) with Some n => match to_Z n with Some z => Some (z mod 2 ^ 32) | None => None end | None => None end.
Context (Hlen : length_arg lenv = Some len) (Hmax : len <= LUAL_BUFFERSIZE).

Lemma opt_sizeE v k s : opt_size (H0 := nlos) 2 (v :: lenv :: k) s = CVal len (v :: lenv :: k) s.
Proof.
  unfold opt_size. rewrite bindE. assert (pos (v :: lenv :: k) 2 = Some 1%nat) as Hp.
  { unfold pos. cbn [length]. by rewrite (proj2 (Z.leb_le 2 _)) by lia. }
  rewrite (valueE _ _ _ _ Hp). cbv beta iota. cbn [lookup list_lookup]. unfold length_arg in Hlen.
  destruct (isnoneornil (Some lenv)); [by injection Hlen as ->|]. destruct (tonumberx (Some lenv)) as [n|]; [|done].
  destruct (to_Z n); [|done]. by injection Hlen as ->.
Qed.

(** The transfer that a [recv] makes in each mode, and its result: the empty
    string without a transfer when the peer has closed an encrypted stream. *)
Definition received (m : mode) (d : string) (s : St) : Prop :=
  match m with
  | Plain => transfers s = t0 ++ [Received fd d]
  | Tls w wv ssl tbw => transfers s = t0 ++ [SslRead ssl d] \/ (transfers s = t0 /\ d = ""%string)
  end.
Lemma received_same m d s s' : same s s' -> received m d s -> received m d s'.
Proof. intros (y & -> & E). destruct m; unfold received; by rewrite E. Qed.

Abbreviation ready := (ready u uv fd tb).
Inductive receiving (m : mode) : nat -> Z -> list value -> list frame -> St -> Prop :=
  | rc_0 s : ready s m -> transfers s = t0 -> receiving m NF_recv 0 [VUd u; lenv] [] s
  | rc_11 s b : ready s m -> m = Plain -> transfers s = t0 -> receiving m NF_recv 11 [VUd u; lenv; VBool b] [] s
  | rc_ssl s w wv ssl tbw ctx rest : ready s m -> m = Tls w wv ssl tbw -> transfers s = t0 -> rest = [] \/ (exists b, rest = [VBool b]) ->
      receiving m NF_ssl_read ctx (VUd w :: lenv :: rest) [Frame NF_recv 1 [VUd u; lenv; VUd w] 1] s
  | rc_1 s w wv ssl tbw d : ready s m -> m = Tls w wv ssl tbw -> received m d s ->
      receiving m NF_recv 1 [VUd u; lenv; VUd w; VStr d] [] s.

Inductive recv_waits (m : mode) : list value -> susp -> St -> Prop :=
  | rw_plain s : ready s m -> m = Plain -> transfers s = t0 ->
      recv_waits m [VLight YIELD_READ; VUd u] (Susp NF_recv 11 [VUd u; lenv] []) s
  | rw_ssl s w wv ssl tbw y : ready s m -> m = Tls w wv ssl tbw -> transfers s = t0 -> y = YIELD_READ \/ y = YIELD_WRITE ->
      recv_waits m [VLight y; field tbw "engine"]
        (Susp NF_ssl_read 1 [VUd w; lenv] [Frame NF_recv 1 [VUd u; lenv; VUd w] 1]) s.

Definition recv_good (m : mode) (a : after nmem (@nos nlos)) : Prop :=
  match a with
  | Running c => receiving m (c_fun c) (c_ctx c) (c_stk c) (c_frames c) (c_st c)
  | Suspended vs w s => recv_waits m vs w s
  | Finished vs s => exists d, vs = [VStr d] /\ received m d s
  | Raised _ s => transfers s = t0 \/ exists d, received m d s
  | Broken => False
  end.
Abbreviation nstep := (step (@net_code _ nlos query_all)).
Ltac nbody f g := unfold step; cbn [c_fun c_ctx c_stk c_frames c_st]; change (net_code query_all f) with (Some g); cbv beta iota.

Lemma rsock_recvE s ctx rest : ready s Plain -> transfers s = t0 -> rest = [] \/ (exists b, rest = [VBool b]) ->
  match @rsock_recv _ nlos ctx (VUd u :: lenv :: rest) s with
  | CVal (NYield 2 1) k s' => k = [VUd u; lenv; VLight YIELD_READ; VUd u] /\ same s s'
  | CVal (NRet 1) k s' => exists d, k = [VUd u; lenv; VStr d] /\ received Plain d s'
  | CErr _ s' => transfers s' = t0 \/ exists d, received Plain d s'
  | _ => False
  end.
Proof.
  intros [Hu Hm] Ht Hrest. pose proof Hu as [Hud Huv]. unfold rsock_recv, socket_fd, mem_of.
  assert (exists b, rest = [] \/ rest = [VBool b]) as (b & Hr) by (destruct Hrest as [->|[b ->]]; [exists true|exists b]; auto).
  destruct Hr as [-> | ->]; lrun; match goal with |- context [check_timeout ?c ?i ?f ?d ?k s] =>
      destruct (check_timeoutE c i f d k s) as [[e ->]| ->] end; cbv beta iota; [by left| |by left|]; lrun;
    rewrite opt_sizeE; cbv beta iota; rewrite (proj2 (Z.ltb_ge _ _) Hmax); cbv beta iota; lrun;
    netcall (@os_recv o fd len) (tr_recv fd); (destruct r as [e|d]; cbn [tr_recv]; [destruct (e =? EAGAIN); lrun|]);
    try (left; unfold transfers in *; cbn; by rewrite app_nil_r); try (split; [done|apply same_os]).
  all: lrun; match goal with |- context [call_tracer 1 "recv" 1 (?x :: ?a :: ?v :: [?v]) ?s1] =>
      assert (Hrec : received Plain d s1) by (unfold received; by rewrite <- Ht);
      destruct (tracerE s1 u uv fd tb [a; v] v "recv" (ltac:(by split)) (ltac:(cbn; lia))) as [(e & s2 & Hc & Hsame)|(s2 & Hc & Hsame)];
      cbn [app] in Hc; rewrite Hc end; cbv beta iota; lrun; [right; eexists; by eapply received_same|eexists; split; [done|by eapply received_same]].
Qed.

Lemma plain_recv_step s ctx rest : ready s Plain -> transfers s = t0 -> rest = [] \/ (exists b, rest = [VBool b]) ->
  recv_good Plain match as_plain (@rsock_recv _ nlos) ctx (VUd u :: lenv :: rest) s with
    | CUB => Broken
    | CErr e s' => Raised e s'
    | CVal n k s' =>
        match n with
        | NRet n => if (length k <? n)%nat then Broken else Finished (top k n) s'
        | NYield n c => if (length k <? n)%nat then Broken else Suspended (top k n) (Susp NF_recv c (below k n) []) s'
        | _ => Broken
        end
    end.
Proof.
  intros Hr Ht Hrest. rewrite as_plainE. pose proof (rsock_recvE s ctx rest Hr Ht Hrest) as Hs.
  destruct (rsock_recv ctx _ s) as [[[|[|n]]|c'|a b c'|[|[|[|m]]] [|[]|]] k' s'|e s'|]; try done.
  - destruct Hs as (d & -> & Hs). cbn. by exists d.
  - destruct Hs as [-> Hsame]. cbn. apply rw_plain; [by eapply ready_same|done|]. by rewrite (transfers_same _ _ Hsame).
Qed.

Lemma step_recv_0 m s : ready s m -> transfers s = t0 -> recv_good m (nstep (Conf NF_recv 0 [VUd u; lenv] [] s)).
Proof.
  intros Hr Ht. pose proof Hr as [Hu Hm]. pose proof Hu as [Hud Huv].
  nbody NF_recv (@rsock_try_encrypted_recv _ nlos). unfold rsock_try_encrypted_recv, socket_fd, mem_of. lnorm. lrun.
  pose proof (get_encryptionE u uv fd tb s [VUd u; lenv] Hu) as Hge. cbn [app] in Hge. rewrite Hge. cbv beta iota. lop. lop.
  destruct m as [|w wv ssl tbw].
  - cbn [mode_ok] in Hm. change (match field tb "ssl" with VNil | VBool false => false | _ => true end) with (toboolean (Some (field tb "ssl"))).
    rewrite Hm. cbv beta iota. lop. lop. pose proof (plain_recv_step s 0 [] Hr Ht (or_introl eq_refl)) as Hp.
    destruct (as_plain _ _ _ _) as [[] |e s'|]; done.
  - destruct Hm as [Hssl [Hw Hwv]]. rewrite Hssl. cbv beta iota. lrun. eapply (rc_ssl _ s w wv ssl tbw 0 []); auto.
Qed.

Lemma step_recv_11 m s b : ready s m -> m = Plain -> transfers s = t0 -> recv_good m (nstep (Conf NF_recv 11 [VUd u; lenv; VBool b] [] s)).
Proof.
  intros Hr -> Ht. nbody NF_recv (@rsock_try_encrypted_recv _ nlos). unfold rsock_try_encrypted_recv. lnorm.
  pose proof (plain_recv_step s 1 [VBool b] Hr Ht (or_intror (ex_intro _ b eq_refl))) as Hp.
  destruct (as_plain _ _ _ _) as [[] |e s'|]; done.
Qed.

Lemma step_recv_1 m s w wv ssl tbw d : ready s m -> m = Tls w wv ssl tbw -> received m d s ->
  recv_good m (nstep (Conf NF_recv 1 [VUd u; lenv; VUd w; VStr d] [] s)).
Proof.
  intros Hr Hm Hd. pose proof Hr as [Hu _]. pose proof Hu as [Hud Huv].
  nbody NF_recv (@rsock_try_encrypted_recv _ nlos). unfold rsock_try_encrypted_recv, socket_fd, mem_of. lnorm. lrun.
  destruct (tracerE s u uv fd tb [lenv; VUd w; VStr d] (VStr d) "encrypted recv" Hu (ltac:(cbn; lia))) as [(e & s2 & Hc & Hsame)|(s2 & Hc & Hsame)];
    cbn [app] in Hc; rewrite Hc; cbv beta iota; lrun; [right; eexists; by eapply received_same|].
  exists d. split; [done|by eapply received_same].
Qed.

Lemma step_recv_ssl m s w wv ssl tbw ctx rest : ready s m -> m = Tls w wv ssl tbw -> transfers s = t0 ->
  rest = [] \/ (exists b, rest = [VBool b]) ->
  recv_good m (nstep (Conf NF_ssl_read ctx (VUd w :: lenv :: rest) [Frame NF_recv 1 [VUd u; lenv; VUd w] 1] s)).
Proof.
  intros Hr -> Ht Hrest. pose proof Hr as [Hu [Hssl Hw]]. pose proof Hw as [Hwd Hwv].
  nbody NF_ssl_read (@rssl_session_read _ nlos). unfold rssl_session_read, session_of, mem_of.
  assert (exists b, rest = [] \/ rest = [VBool b]) as (b & Hb) by (destruct Hrest as [->|[b ->]]; [exists true|exists b]; auto).
  destruct Hb as [-> | ->]; lrun; match goal with |- context [check_timeout ?c ?i ?f ?d ?k s] =>
      destruct (check_timeoutE c i f d k s) as [[e ->]| ->] end; cbv beta iota; [by left| |by left|]; lrun;
    rewrite opt_sizeE; cbv beta iota; rewrite (proj2 (Z.ltb_ge _ _) Hmax); cbv beta iota; lrun;
    netcall (@ssl_read o ssl len) (tr_ssl_read ssl); destruct r as [[ret err en] d]; cbn [sr_error sr_ret sr_errno];
    unfold tr_ssl_read; cbn [sr_error fst snd].
  all: assert (Hs2 : err <> SslNone -> same s (set_ls_os s ((y, transfers s ++ match err with SslNone => [SslRead ssl d] | _ => [] end) : @nos nlos)))
    by (destruct err; try done; intros _; apply same_os).
  all: destruct err; cbv beta iota; try (specialize (Hs2 ltac:(done));
    pose proof (transfers_same _ _ Hs2) as Et; pose proof (ready_same _ _ _ _ _ _ _ Hs2 Hr) as Hr2; pose proof Hr2 as [Hu2 [_ Hw2]]).
  all: try (match goal with |- context [handle_ssl_error ?f ?r ?e ?n ?k ?s2] => destruct (@handle_ssl_errorE next f r e n k s2) as (v & s3 & -> & Hs3) end;
    left; by rewrite (transfers_same _ _ Hs3), Et).
  all: try (rewrite (wait_engineE _ [lenv] _ w wv ssl tbw) by (first [done | cbn; lia]); cbv beta iota; apply (rw_ssl _ _ w wv ssl tbw);
    [done|done|by rewrite Et|by auto]).
  all: lrun; eapply rc_1; [by apply ready_os|reflexivity|].
  all: unfold received; cbn [c_st]; first [left; unfold transfers at 1; cbn [ls_os set_ls_os snd]; by rewrite Ht | right; by rewrite Et].
Qed.

Lemma step_recv m f ctx k fs s : receiving m f ctx k fs s -> recv_good m (nstep (Conf f ctx k fs s)).
Proof. destruct 1; eauto using step_recv_0, step_recv_11, step_recv_ssl, step_recv_1. Qed.

Lemma resume_recv m vs w s s' b : recv_waits m vs w s -> ready s' m -> transfers s' = transfers s ->
  let c := resume w [VBool b] s' in receiving m (c_fun c) (c_ctx c) (c_stk c) (c_frames c) (c_st c).
Proof.
  intros Hw Hr Et. destruct Hw as [s _ -> Ht|s w wv ssl tbw y _ -> Ht _]; cbn.
  - apply rc_11; [done|done|by rewrite Et].
  - eapply (rc_ssl _ _ w wv ssl tbw 1 [VBool b]); [done|done|by rewrite Et|eauto].
Qed.
End Recv.

Lemma reach_recv u uv fd tb lenv len m s a : length_arg lenv = Some len -> len <= LUAL_BUFFERSIZE -> ready u uv fd tb s m ->
  reach (@net_code _ nlos query_all) event_value (keeps u uv) (start NF_recv [VUd u; lenv] s) a ->
  recv_good u uv fd tb lenv (transfers s) m a.
Proof.
  intros Hlen Hmax Hr. apply reach_inv.
  - by apply rc_0.
  - intros [f ctx k fs s1] Hs. by apply (step_recv u uv fd tb lenv len).
  - intros vs w s1 s2 rs Hw [b ->] Hk. pose proof (kp_transfers _ _ _ _ Hk) as Et.
    eapply (resume_recv u uv fd tb lenv (transfers s) m vs w s1 s2 b); [done| |done].
    eapply ready_keeps; [done|]. by destruct Hw.
Qed.
End Io.
