(* ===== verification/SocketThm.v ===== *)
(** socket.c, ssl.c, sockopt.c: the properties and their witnesses. *)

From stdpp Require Import prelude gmap strings.
From Stdlib Require Import ZArith Lia SpecFloat.
From S2P Require Import Prelude Double Lua Misc Error LuaC Net Ssl Sockopt Timerfd Socket SocketSpec.
Local Open Scope Z_scope.

(** ** Transfers *)

(** C4: A call of [send] makes no transfer while it waits, whatever the order of
    events. When it returns, a plain socket has been given one prefix of the data
    and the result is exactly the rest (nothing when all was sent); a socket with
    encryption has written the data through its session, as many bytes as its size
    is as an int, which is all of it below 2^31 bytes, and nothing to the
    socket itself. No step of the call is undefined. *)
Theorem send_exact `{LuaConv} (o : NetOS) (query_all : Z -> C nmem (@nos (nlogged o)) next) u uv fd tb data m s a :
  SendOk o -> ready o u uv fd tb s m ->
  reach (@net_code _ (nlogged o) query_all) (event_value o) (keeps o u uv) (start NF_send [VUd u; VStr data] s) a ->
  match a with
  | Finished vs s' => sent o fd data (transfers o s) m vs s'
  | Suspended _ _ s' => transfers o s' = transfers o s
  | Raised _ s' => transfers o s' = transfers o s \/ exists vs, sent o fd data (transfers o s) m vs s'
  | Running _ => True
  | Broken => False
  end /\
  (Z.of_nat (String.length data) < 2 ^ 31 -> ssl_part data = data).
Proof.
  intros Hok Hr Ha. split; [|apply ssl_part_all]. pose proof (reach_send o query_all Hok u uv fd tb data m s a Hr Ha) as Hg. destruct a; try done. by destruct Hg.
Qed.

(** Of a string of 4294967297 bytes a session writes one, and [send] returns as if it
    had written all of them. *)
Lemma long_send_truncated data k : 0 < k < 2 ^ 31 -> Z.of_nat (String.length data) = 2 ^ 32 + k -> ssl_part data = str_take k data.
Proof.
  intros Hk E. unfold ssl_part. rewrite E. unfold to_int. replace ((2 ^ 32 + k) mod 2 ^ 32) with k; [by rewrite (proj2 (Z.ltb_lt _ _)) by lia|].
  rewrite Z.add_mod, Z.mod_same, Z.add_0_l, Z.mod_mod, Z.mod_small by lia. done.
Qed.

(** C40: A call of [recv] returns exactly the bytes of the one read that succeeded,
    from the socket or, with encryption, from the session only (the empty string
    when the peer closed it); while it waits nothing has been read. *)
Theorem recv_exact `{LuaConv} (o : NetOS) (query_all : Z -> C nmem (@nos (nlogged o)) next) u uv fd tb lenv len m s a :
  length_arg lenv = Some len -> len <= LUAL_BUFFERSIZE -> ready o u uv fd tb s m ->
  reach (@net_code _ (nlogged o) query_all) (event_value o) (keeps o u uv) (start NF_recv [VUd u; lenv] s) a ->
  match a with
  | Finished vs s' => exists d, vs = [VStr d] /\ received o fd (transfers o s) m d s'
  | Suspended _ _ s' => transfers o s' = transfers o s
  | Raised _ s' => transfers o s' = transfers o s \/ exists d, received o fd (transfers o s) m d s'
  | Running _ => True
  | Broken => False
  end.
Proof.
  intros Hlen Hmax Hr Ha. pose proof (reach_recv o query_all u uv fd tb lenv len m s a Hlen Hmax Hr Ha) as Hg. destruct a; try done. by destruct Hg.
Qed.

(** ** Byte order *)
Lemma be_value_snoc l b : forall acc, be_value (l ++ [b]) acc = 256 * be_value l acc + b.
Proof. induction l as [|x l IH]; intros acc; [done|]. cbn. apply IH. Qed.

Lemma be_round n : forall x, be_value (be_bytes n x) 0 = x mod 256 ^ Z.of_nat n.
Proof.
  induction n as [|n IH]; intros x; [by rewrite Z.mod_1_r|]. cbn [be_bytes]. rewrite be_value_snoc, IH.
  rewrite Nat2Z.inj_succ, Z.pow_succ_r by lia. rewrite (Z.mul_comm 256 (256 ^ Z.of_nat n)), (Z.mul_comm (256 ^ Z.of_nat n)).
  rewrite Z.rem_mul_r by lia. lia.
Qed.

Lemma be_bytes_range n : forall x, Forall (fun b => 0 <= b < 256) (be_bytes n x).
Proof.
  induction n as [|n IH]; intros x; [constructor|]. cbn. apply Forall_app. split; [apply IH|]. constructor; [|constructor].
  by apply Z.mod_pos_bound.
Qed.
Lemma be_bytes_length n : forall x, length (be_bytes n x) = n.
Proof. induction n as [|n IH]; intros x; [done|]. cbn. rewrite length_app, IH. cbn. lia. Qed.

Lemma string_bytes l : Forall (fun b => 0 <= b < 256) l -> bytes_of_string (string_of_bytes l) = l.
Proof.
  induction 1 as [|b l Hb _ IH]; [done|]. cbn [string_of_bytes foldr bytes_of_string]. fold (string_of_bytes l). rewrite IH, Ascii.nat_ascii_embedding by lia. f_equal. lia.
Qed.
Lemma string_of_bytes_length l : String.length (string_of_bytes l) = length l.
Proof. induction l as [|b l IH]; [done|]. cbn [string_of_bytes foldr String.length length]. fold (string_of_bytes l). by rewrite IH. Qed.

(** [ntoh] and [ntoh16] undo [hton] and [hton16], up to the width of the number. *)
Theorem ntoh_hton `{LuaConv, NetOS} (size : nat) n x (s : lstate nmem nos) : to_Z n = Some x ->
  exists d, hton size [VNum n] s = CVal (NRet 1) [VStr d] s /\ String.length d = size /\
    ntoh size [VStr d] s = CVal (NRet 1) [VNum (of_Z (x mod 256 ^ Z.of_nat size))] s.
Proof.
  intros Hx. exists (string_of_bytes (be_bytes size x)). split; [|split].
  - unfold hton, luaL_checkinteger. lrun. rewrite Hx. lrun. done.
  - by rewrite string_of_bytes_length, be_bytes_length.
  - unfold ntoh, luaL_checklstring. lrun. rewrite string_of_bytes_length, be_bytes_length, Nat.eqb_refl. cbn [negb]. lrun.
    by rewrite string_bytes, be_round by apply be_bytes_range.
Qed.

(** ** Descriptors *)

(** A socket object closes its descriptor once. After [close] has succeeded,
    or after [__gc], the object holds -1, whatever the tracer did; and with -1
    both return at once without any system call. A [close] that fails raises and
    keeps the descriptor. *)
Theorem closed_once `{LuaConv, NetOS} u uv fd tb (s : lstate nmem nos) : 0 <= fd ->
  ls_uds s !! u = Some (UData (Some SOCKET_META) (MSock fd) (VTab uv)) -> ls_tabs s !! uv = Some tb ->
  let holds z (s' : lstate nmem nos) := ls_uds s' !! u = Some (UData (Some SOCKET_META) (MSock z) (VTab uv)) in
  (exists s', rsock_gc [VUd u] s = CVal (NRet 0) [VUd u] s' /\ holds (-1) s') /\
  match os_close fd (ls_os s), rsock_close [VUd u] s with
  | (_, inr _), CVal _ _ s' | (_, inr _), CErr _ s' => holds (-1) s'
  | (_, inl _), CErr _ s' => holds fd s'
  | _, _ => False
  end /\
  (forall s', holds (-1) s' -> rsock_gc [VUd u] s' = CVal (NRet 0) [VUd u] s' /\ rsock_close [VUd u] s' = CVal (NRet 0) [VUd u] s').
Proof.
  intros Hfd Hu Hv holds. split; [|split].
  - unfold rsock_gc, socket_fd, mem_of. lrun. rewrite (proj2 (Z.leb_le _ _) Hfd). lrun. unfold sys. destruct (os_close fd (ls_os s)) as [x r].
    lrun. eexists. split; [reflexivity|]. unfold holds. lk.
  - unfold rsock_close, socket_fd, mem_of. lrun. rewrite (proj2 (Z.ltb_ge _ _) Hfd). cbv beta iota. lrun. unfold sys.
    destruct (os_close fd (ls_os s)) as [x [e|[]]]; lrun; [unfold holds; lk|]. unfold call_tracer. lrun.
    destruct (field tb "tracer") as [|[]| | | | | | | | ] eqn:Ht; lnorm; lrun; try (unfold holds; lk);
      unfold sys; match goal with |- context [os_trace ?f ?vs ?y] => destruct (os_trace f vs y) as [z [ex|]] end; lrun; unfold holds; lk.
  - intros s' Hs'. unfold holds in Hs'. unfold rsock_gc, rsock_close, socket_fd, mem_of. split; lrun; [|done].
    f_equal. destruct s'. unfold set_ls_uds. cbn in *. f_equal. by apply insert_id.
Qed.

(** ** Addresses *)
(** The head of the two functions that build a table. *)
Ltac info_start := unfold build_info_head, luaL_checktable, luaL_checklstring, luaL_checkint, luaL_checkinteger;
  lrun; cbn [istable]; lrun.

Section Info.
Context `{LuaConv, NetOS} (s : lstate nmem nos) (host : string) (pn : number) (port : Z).
Context (q l6 r6 : nat) (tq t6 : tab) (bytes : list Z) (meta : option string) (rv : value).
(** The answer of [query_all]: a table [q] whose field [aaaa] lists one record. *)
Record answered : Prop := {
  an_q : ls_tabs s !! q = Some tq;
  an_aaaa : field tq "aaaa" = VTab l6;
  an_l6 : ls_tabs s !! l6 = Some t6;
  an_r6 : rawget t6 1 = VUd r6;
  an_mem : ls_uds s !! r6 = Some (UData meta (MIn bytes) rv);
  an_len : (16 <= length bytes)%nat;
  an_next : (q < ls_next s)%nat /\ (l6 < ls_next s)%nat /\ (r6 < ls_next s)%nat;
  an_port : to_Z pn = Some port;
}.
(** The info table: an IPv6 address with the port, a socket type, the host. *)
Definition info_table (socktype : Z) (s' : lstate nmem nos) (info : nat) : Prop :=
  exists t a, ls_tabs s' !! info = Some t /\ field t "family" = VNum (of_Z AF_INET6) /\ field t "socktype" = VNum (of_Z socktype) /\
    field t "protocol" = VNum (of_Z 0) /\ field t "host" = VStr host /\ field t "addr" = VUd a /\
    ls_uds s' !! a = Some (UData (Some SOCKADDR_META) (MAddr (SaIn6 (to_uint16 (to_int port)) (take 16 bytes)) SIZEOF_IN6) VNil).

Lemma top_addressE `{NetOS} n k (s1 : lstate nmem nos) p r d b : pos k (-1) = Some p -> k !! p = Some (VUd r) ->
  ls_uds s1 !! r = Some d -> ud_mem d = MIn b -> (n <= length b)%nat -> top_address n k s1 = CVal (take n b) k s1.
Proof.
  intros Hp Hk Hr Hd Hn. unfold top_address, mem_of. rewrite bindE, (valueE _ _ _ _ Hp), Hk, bindE, bindE, (get_udE _ _ _ _ Hr).
  cbv beta iota. rewrite mretE. cbv beta iota. rewrite Hd, (proj2 (Nat.leb_le _ _) Hn). done.
Qed.

(** From the record at the top of the stack to the end. *)
Ltac info_end Hlen := erewrite top_addressE by (first [exact Hlen | lside]); lrun; unfold new_sockaddr; lrun; lst;
  eexists; (split; [reflexivity|]); eexists _, (S (ls_next s)); (split; [lk|]); rewrite !field_setE;
  repeat (split; [done|]); lk.

Lemma build_tcpE : answered -> exists s',
  build_tcp_info [VTab q; VStr host; VNum pn] s = CVal (NRet 1) [VTab q; VStr host; VNum pn; VTab (ls_next s)] s' /\
  info_table SOCK_STREAM s' (ls_next s).
Proof.
  intros [Hq H6 Hl6 Hr6 Hm Hlen (Hqn & Hln & Hrn) Hp]. unfold build_tcp_info. info_start. rewrite Hp. lrun.
  unfold tcp_family. lrun. rewrite H6. lrun. lst. rewrite Hr6. lrun. info_end Hlen.
Qed.

Lemma build_udpE : answered -> exists s',
  build_udp_info [VTab q; VStr host; VNum pn] s = CVal (NRet 1) [VTab q; VStr host; VNum pn; VTab (ls_next s); VTab l6] s' /\
  info_table SOCK_DGRAM s' (ls_next s).
Proof.
  intros [Hq H6 Hl6 Hr6 Hm Hlen (Hqn & Hln & Hrn) Hp]. unfold build_udp_info. info_start. rewrite Hp. lrun.
  unfold udp_family. lrun. rewrite H6. lrun. lst. rewrite Hr6. lrun. info_end Hlen.
Qed.
End Info.

(** With an IPv6 record in the answer of the DNS module, [prepare_tcp] returns
    a table with the family, the socket type, the protocol, the host, and the
    address of the first record with the port in its 16 bits. *)
Theorem prepare_tcp_info `{LuaConv, NetOS} query_all (s : lstate nmem nos) host pn port q l6 r6 tq t6 bytes meta rv types err :
  answered s pn port q l6 r6 tq t6 bytes meta rv ->
  exists s' info, step (net_code query_all) (Conf NF_prepare_tcp 1 [VStr host; VNum pn; types; VTab q; err] [] s) = Finished [VTab info] s' /\
    info_table host port bytes SOCK_STREAM s' info.
Proof.
  intros Ha. destruct (build_tcpE s host pn port q l6 r6 tq t6 bytes meta rv Ha) as (s' & Hb & Hi). exists s', (ls_next s). split; [|done].
  unfold step. cbn [c_fun c_ctx c_stk c_frames c_st]. change (net_code query_all NF_prepare_tcp) with (Some rsock_prepare_tcp).
  cbv beta iota. unfold rsock_prepare_tcp, prepare. lnorm. lrun. erewrite call_cE by (reflexivity || exact Hb). lrun. done.
Qed.

(** [prepare_udp] builds the same table for a datagram socket, but returns the
    list of records of the DNS module instead of it. *)
Theorem prepare_udp_returns_records `{LuaConv, NetOS} query_all (s : lstate nmem nos) host pn port q l6 r6 tq t6 bytes meta rv types err :
  answered s pn port q l6 r6 tq t6 bytes meta rv ->
  exists s' info, step (net_code query_all) (Conf NF_prepare_udp 1 [VStr host; VNum pn; types; VTab q; err] [] s) = Finished [VTab l6] s' /\
    info_table host port bytes SOCK_DGRAM s' info /\ info <> l6.
Proof.
  intros Ha. destruct (build_udpE s host pn port q l6 r6 tq t6 bytes meta rv Ha) as (s' & Hb & Hi). exists s', (ls_next s). split; [|split; [done|]].
  - unfold step. cbn [c_fun c_ctx c_stk c_frames c_st]. change (net_code query_all NF_prepare_udp) with (Some rsock_prepare_udp).
    cbv beta iota. unfold rsock_prepare_udp, prepare. lnorm. lrun. erewrite call_cE by (reflexivity || exact Hb). lrun. done.
  - destruct Ha as [_ _ _ _ _ _ (_ & Hl & _) _]. lia.
Qed.

(** When the answer has an empty list of IPv6 records, [build_tcp_info] pops its
    info table and fails on the IPv4 record. *)
Lemma empty_aaaa_fails `{LuaConv, NetOS} (s : lstate nmem nos) host pn port q l6 l4 r4 tq t6 t4 bytes meta rv :
  ls_tabs s !! q = Some tq -> field tq "aaaa" = VTab l6 -> ls_tabs s !! l6 = Some t6 -> rawget t6 1 = VNil ->
  field tq "a" = VTab l4 -> ls_tabs s !! l4 = Some t4 -> rawget t4 1 = VUd r4 ->
  ls_uds s !! r4 = Some (UData meta (MIn bytes) rv) -> (4 <= length bytes)%nat -> to_Z pn = Some port ->
  (q < ls_next s)%nat -> (l6 < ls_next s)%nat -> (l4 < ls_next s)%nat -> l4 <> q -> (r4 < ls_next s)%nat ->
  exists e s', build_tcp_info [VTab q; VStr host; VNum pn] s = CErr e s'.
Proof.
  intros Hq H6 Hl6 Hr6 H4 Hl4 Hr4 Hm Hlen Hp Hqn Hln Hfn Hne Hrn. unfold build_tcp_info. info_start. rewrite Hp. lrun.
  unfold tcp_family. lrun. rewrite H6. lrun. lst. rewrite Hr6. lrun. rewrite H4. lrun. lst.
  change (rawget (set_field t4 "family" (VNum (of_Z AF_INET))) 1) with (rawget t4 1). rewrite Hr4. lrun.
  erewrite top_addressE by (first [exact Hlen | lside]). lrun. unfold new_sockaddr. lrun. unfold lua_setfield, no_index. lrun. eauto.
Qed.

(** ** Certificates *)

(** [verify_certificate (host)] looks for the host among the common names, but
    the first name of another length ends the search: the host is accepted
    exactly when it is one of the names and all names have its length. *)
Theorem verify_needs_equal_lengths host names :
  check_names host names false = true <-> host ∈ names /\ Forall (fun n => String.length n = String.length host) names.
Proof.
  assert (forall found, check_names host names found = true <->
    (found = true \/ host ∈ names) /\ Forall (fun n => String.length n = String.length host) names) as Hg.
  { induction names as [|n names IH]; intros found; cbn [check_names].
    - split; [intros ->; split; [by left|constructor]|by intros [[->|?%elem_of_nil] _]].
    - destruct (Nat.eqb_spec (String.length host) (String.length n)) as [E|E]; cbn [negb];
        [|split; [done|by intros [_ [? _]%Forall_cons]]].
      rewrite IH, Forall_cons, elem_of_cons. destruct (String.eqb_spec host n) as [->|Hne]; [tauto|].
      assert (String.length n = String.length host) by done. tauto. }
  rewrite Hg. intuition congruence.
Qed.

(** An option that is not in the list makes [setsockopt] return -1 results. *)
Lemma setsockopt_unknown_undefined `{LuaConv, NetOS} u uv fd key v (s : lstate nmem nos) :
  ls_uds s !! u = Some (UData (Some SOCKET_META) (MSock fd) uv) -> find_option socket_options key = None ->
  rsockopt_set [VUd u; VStr key; v] s = CUB.
Proof.
  intros Hu Hk. unfold rsockopt_set, socket_fd, mem_of, luaL_checklstring. lrun. by rewrite Hk.
Qed.

(** ** Witnesses *)
Module SocketWitnesses.

#[export] Instance conv : LuaConv := {| str2number _ := None; number2str _ := ""%string |}.

(** A network that takes three bytes at a time, after being busy once, and a peer
    that says "pong". *)
Definition simnet : NetOS := {|
  nos := bool;
  os_socket _ _ _ s := (s, inr 5);
  os_socketpair _ _ _ s := (s, inr (5, 6));
  os_set_nonblocking _ s := (s, inr tt);
  os_set_closeonexec _ s := (s, inr tt);
  os_close _ s := (s, inr tt);
  os_unlink _ s := (s, tt);
  os_bind _ _ _ s := (s, inr tt);
  os_listen _ _ s := (s, inr tt);
  os_shutdown _ _ s := (s, inr tt);
  os_connect _ _ _ s := (s, inr tt);
  os_so_error _ s := (s, inr 0);
  os_accept _ s := (s, inr (7, SaIn 80 [127; 0; 0; 1]));
  os_send _ d s := if s then (false, inl EAGAIN) else (s, inr (Z.min 3 (Z.of_nat (String.length d))));
  os_recv _ _ s := if s then (false, inl EAGAIN) else (s, inr "pong"%string);
  os_gethostname s := (s, inr "localhost"%string);
  os_inet_ntop _ _ := inr "127.0.0.1"%string;
  os_strerror _ := "error"%string;
  os_trace _ _ s := (s, None);
  os_getsockopt _ _ _ s := (s, inr (OInt 0));
  os_setsockopt _ _ _ s := (s, inr tt);
  os_timerfd_create _ s := (s, inr 8);
  os_timerfd_settime _ _ v s := (s, inr v);
  os_timerfd_gettime _ s := (s, inl EBADF);
  os_timerfd_read _ s := (s, inr 1);
  ssl_bio _ s := (s, Some 1);
  ssl_new _ _ _ s := (s, Some 1);
  ssl_read _ _ s := if s then (false, (SslResult (-1) SslWantWrite 0, ""%string)) else (s, (SslResult 4 SslNone 0, "pong"%string));
  ssl_write _ d n s := if s then (false, SslResult (-1) SslWantRead 0) else (s, SslResult n SslNone 0);
  ssl_connect _ s := (s, SslResult 1 SslNone 0);
  ssl_accept _ s := (s, SslResult 1 SslNone 0);
  ssl_shutdown _ s := (s, SslResult 1 SslNone 0);
  ssl_free _ s := (s, tt);
  ssl_clear s := (s, tt);
  ssl_queued s := (s, false);
  ssl_reason _ := None;
  ssl_peer_certificate _ s := (s, None);
  ssl_verify_result _ s := (s, false);
  x509_names _ s := (s, []);
  x509_free _ s := (s, tt) |}.

#[export] Instance sim_send : SendOk simnet.
Proof. split; cbn; [intros fd d x x' n; destruct x; intros [= <- <-]; lia|]. intros _ d n x x' r. by destruct x; intros [= <- <-]. Qed.

(** A socket, plain or with the session 3. *)
Definition sockets (tls : bool) : lstate nmem (@nos (nlogged simnet)) :=
  LState (<[2%nat := Tab (if tls then <["ssl"%string := VUd 3]> ∅ else ∅) ∅]> (<[4%nat := Tab (<["engine"%string := VUd 1]> ∅) ∅]> ∅))
    (<[1%nat := UData (Some SOCKET_META) (MSock 5) (VTab 2)]> (<[3%nat := UData (Some SSL_META) (MSsl (Some 1)) (VTab 4)]> ∅)) 5 (true, []).
Definition no_dns : Z -> C nmem (@nos (nlogged simnet)) next := fun _ => mret (NRet 0).
Abbreviation code := (@net_code _ (nlogged simnet) no_dns).

Definition tbl (tls : bool) : tab := Tab (if tls then <["ssl"%string := VUd 3]> ∅ else ∅) ∅.
Definition mode_of (tls : bool) : mode := if tls then Tls 3 4 1 (Tab (<["engine"%string := VUd 1]> ∅) ∅) else Plain.
Lemma sockets_ready tls : ready simnet 1 2 5 (tbl tls) (sockets tls) (mode_of tls).
Proof. split; [by split|]. destruct tls; [|done]. split; [done|by split]. Qed.

(** A run that waits once and is then resumed. *)
Definition after_wait (c : conf nmem (@nos (nlogged simnet))) : after nmem (@nos (nlogged simnet)) :=
  match run code 20 c with Suspended _ w s => run code 20 (resume w [VBool true] s) | a => a end.
Lemma after_wait_reach c : reach code (event_value simnet) (keeps simnet 1 2) c (after_wait c).
Proof.
  unfold after_wait. pose proof (run_reach code (event_value simnet) (keeps simnet 1 2) c 20 c (reach_start _ _ _ _)) as Hr.
  destruct (run code 20 c) as [| |vs w s| |] eqn:E; try done. apply run_reach. eapply reach_resume; [done|by eexists|]. split; auto.
Qed.

Lemma send_exact_witness :
  (match after_wait (start NF_send [VUd 1; VStr "hello"] (sockets false)) with
   | Finished vs s' => vs = [VStr "lo"] /\ sent simnet 5 "hello" [] Plain vs s' | _ => False end) /\
  match after_wait (start NF_send [VUd 1; VStr "hello"] (sockets true)) with
  | Finished vs s' => transfers simnet s' = [SslWrote 1 "hello"] | _ => False end.
Proof.
  pose proof (send_exact simnet no_dns 1 2 5 (tbl false) "hello" Plain (sockets false) _ sim_send (sockets_ready false) (after_wait_reach _)) as [H1 _].
  pose proof (send_exact simnet no_dns 1 2 5 (tbl true) "hello" (mode_of true) (sockets true) _ sim_send (sockets_ready true) (after_wait_reach _)) as [H2 _].
  vm_compute in H1, H2 |- *. split; [split; [reflexivity|exact H1]|exact (proj1 H2)].
Defined.

Lemma recv_exact_witness :
  match after_wait (start NF_recv [VUd 1; VNil] (sockets true)) with
  | Finished vs s' => exists d, vs = [VStr d] /\ received simnet 5 [] (mode_of true) d s' | _ => False end.
Proof.
  exact (recv_exact simnet no_dns 1 2 5 (tbl true) VNil 8192 (mode_of true) (sockets true) _ eq_refl (Z.le_refl _) (sockets_ready true) (after_wait_reach _)).
Defined.

Lemma ntoh_hton_witness : exists d, hton 4 [VNum (of_Z 2130706433)] (sockets false) = CVal (NRet 1) [VStr d] (sockets false) /\
  String.length d = 4%nat /\ ntoh 4 [VStr d] (sockets false) = CVal (NRet 1) [VNum (of_Z (2130706433 mod 256 ^ 4))] (sockets false).
Proof. apply (ntoh_hton (H0 := nlogged simnet) 4 (of_Z 2130706433) 2130706433). vm_compute. reflexivity. Defined.

Lemma closed_once_witness : exists s', rsock_gc [VUd 1] (sockets false) = CVal (NRet 0) [VUd 1] s'.
Proof.
  destruct (closed_once (H0 := nlogged simnet) 1 2 5 (tbl false) (sockets false)) as [(s' & Hs & _) _]; [lia|reflexivity|reflexivity|by exists s'].
Defined.

(** The answer of the DNS module with one IPv6 address. *)
Definition answer : lstate nmem (@nos (nlogged simnet)) :=
  LState (<[0%nat := Tab (<["aaaa"%string := VTab 1]> ∅) ∅]> (<[1%nat := Tab ∅ (<[1 := VUd 2]> ∅)]> ∅))
    (<[2%nat := UData None (MIn [0; 0; 0; 0; 0; 0; 0; 0; 0; 0; 0; 0; 0; 0; 0; 1]) VNil]> ∅) 3 (false, []).
Lemma answer_ok : answered answer (of_Z 443) 443 0 1 2 (Tab (<["aaaa"%string := VTab 1]> ∅) ∅) (Tab ∅ (<[1 := VUd 2]> ∅))
  [0; 0; 0; 0; 0; 0; 0; 0; 0; 0; 0; 0; 0; 0; 0; 1] None VNil.
Proof. by split; [..|cbn; lia|]. Qed.

Lemma prepare_tcp_info_witness : exists s' info,
  step code (Conf NF_prepare_tcp 1 [VStr "localhost"; VNum (of_Z 443); VNil; VTab 0; VNil] [] answer) = Finished [VTab info] s'.
Proof.
  destruct (prepare_tcp_info (H0 := nlogged simnet) no_dns answer "localhost" (of_Z 443) 443 0 1 2 _ _ _ _ _ VNil VNil answer_ok) as (s' & info & Hs & _).
  by exists s', info.
Defined.
Lemma prepare_udp_witness : exists s' info,
  step code (Conf NF_prepare_udp 1 [VStr "localhost"; VNum (of_Z 443); VNil; VTab 0; VNil] [] answer) = Finished [VTab 1] s' /\ info <> 1%nat.
Proof.
  destruct (prepare_udp_returns_records (H0 := nlogged simnet) no_dns answer "localhost" (of_Z 443) 443 0 1 2 _ _ _ _ _ VNil VNil answer_ok)
    as (s' & info & Hs & _ & Hne).
  by exists s', info.
Defined.
End SocketWitnesses.
