(* ===== verification/SslCtxThm.v ===== *)
(** The life of the objects of OpenSSL behind the objects of ssl.c: each is used
    only while it is allocated and freed once, through every sequence of calls. *)

From stdpp Require Import prelude gmap strings.
From Stdlib Require Import ZArith Lia SpecFloat.
From S2P Require Import Prelude Double Lua Misc Error LuaC LuaCInv Net Ssl SslCtx SocketThm.
Local Open Scope Z_scope.

(** ** A system that watches its handles *)
(** [KSock] is a BIO of a socket, [KLost] one whose session could not be made. *)
Inductive kind := KCtx | KSsl | KBio | KCert | KDh | KRsa | KSock | KLost.
#[export] Instance kind_eq_dec : EqDecision kind.
Proof. solve_decision. Defined.
#[export] Instance kind_countable : Countable kind.
Proof.
  apply (inj_countable' (fun k => match k with KCtx => 0 | KSsl => 1 | KBio => 2 | KCert => 3 | KDh => 4 | KRsa => 5 | KSock => 6 | KLost => 7 end)%nat
    (fun n => match n with 0 => KCtx | 1 => KSsl | 2 => KBio | 3 => KCert | 4 => KDh | 5 => KRsa | 6 => KSock | _ => KLost end)%nat).
  by intros [].
Defined.
Definition handle : Type := kind * Z.

(** What is allocated, whether a handle was used or freed that was not, and whether
    one was handed out that was in use. *)
Record watched (os : Type) := Watched { w_os : os; w_live : gset handle; w_misuse : bool; w_reused : bool }.
Arguments Watched {os} w_os w_live w_misuse w_reused.
Arguments w_os {os} w.
Arguments w_live {os} w.
Arguments w_misuse {os} w.
Arguments w_reused {os} w.

Section Watch.
Context {os : Type}.
Abbreviation W := (watched os).
Definition uses {A} (hs : list handle) (f : os -> os * A) : W -> W * A := fun w =>
  let '(x, a) := f (w_os w) in (Watched x (w_live w) (w_misuse w || negb (bool_decide (Forall (fun h => h ∈ w_live w) hs))) (w_reused w), a).
Definition allocates (k : kind) (f : W -> W * option Z) : W -> W * option Z := fun w =>
  let '(w', r) := f w in
  (match r with
   | Some h => Watched (w_os w') ({[(k, h)]} ∪ w_live w') (w_misuse w') (w_reused w' || bool_decide ((k, h) ∈ w_live w'))
   | None => w'
   end, r).
Definition frees {A} (h : handle) (f : os -> os * A) : W -> W * A := fun w =>
  let '(w', a) := uses [h] f w in (Watched (w_os w') (w_live w' ∖ {[h]}) (w_misuse w') (w_reused w'), a).
(** The BIO of a socket becomes a part of the session that is made with it. *)
Definition takes (b : Z) (f : W -> W * option Z) : W -> W * option Z := fun w =>
  let '(w', r) := f w in
  let rest := w_live w' ∖ {[(KSock, b)]} in
  (Watched (w_os w') (match r with Some _ => rest | None => {[(KLost, b)]} ∪ rest end) (w_misuse w') (w_reused w'), r).
End Watch.

Definition of_ctx (c : option Z) : list handle := match c with Some c => [(KCtx, c)] | None => [] end.
Definition watch_net (o : NetOS) : NetOS := {|
  nos := watched (@nos o);
  os_socket f t p := uses [] (os_socket f t p);
  os_socketpair f t p := uses [] (os_socketpair f t p);
  os_set_nonblocking fd := uses [] (os_set_nonblocking fd);
  os_set_closeonexec fd := uses [] (os_set_closeonexec fd);
  os_close fd := uses [] (os_close fd);
  os_unlink p := uses [] (os_unlink p);
  os_bind fd a n := uses [] (os_bind fd a n);
  os_listen fd n := uses [] (os_listen fd n);
  os_shutdown fd n := uses [] (os_shutdown fd n);
  os_connect fd a n := uses [] (os_connect fd a n);
  os_so_error fd := uses [] (os_so_error fd);
  os_accept fd := uses [] (os_accept fd);
  os_send fd d := uses [] (os_send fd d);
  os_recv fd n := uses [] (os_recv fd n);
  os_gethostname := uses [] os_gethostname;
  os_inet_ntop := os_inet_ntop;
  os_strerror := os_strerror;
  os_trace f vs := uses [] (os_trace f vs);
  os_getsockopt fd n k := uses [] (os_getsockopt fd n k);
  os_setsockopt fd n v := uses [] (os_setsockopt fd n v);
  os_timerfd_create n := uses [] (os_timerfd_create n);
  os_timerfd_settime fd n v := uses [] (os_timerfd_settime fd n v);
  os_timerfd_gettime fd := uses [] (os_timerfd_gettime fd);
  os_timerfd_read fd := uses [] (os_timerfd_read fd);
  ssl_bio fd := allocates KSock (uses [] (ssl_bio fd));
  ssl_new c a b := allocates KSsl (takes a (takes b (uses (of_ctx c ++ [(KSock, a); (KSock, b)]) (ssl_new c a b))));
  ssl_read s n := uses [(KSsl, s)] (ssl_read s n);
  ssl_write s d n := uses [(KSsl, s)] (ssl_write s d n);
  ssl_connect s := uses [(KSsl, s)] (ssl_connect s);
  ssl_accept s := uses [(KSsl, s)] (ssl_accept s);
  ssl_shutdown s := uses [(KSsl, s)] (ssl_shutdown s);
  ssl_free s := frees (KSsl, s) (ssl_free s);
  ssl_clear := uses [] ssl_clear;
  ssl_queued := uses [] ssl_queued;
  ssl_reason := ssl_reason;
  ssl_peer_certificate s := allocates KCert (uses [(KSsl, s)] (ssl_peer_certificate s));
  ssl_verify_result s := uses [(KSsl, s)] (ssl_verify_result s);
  x509_names p := uses [(KCert, p)] (x509_names p);
  x509_free p := frees (KCert, p) (x509_free p) |}.
Definition watch_ctx {o : NetOS} (c : CtxOS) : @CtxOS (watch_net o) :=
  @Build_CtxOS (watch_net o)
    (ssl_method)
    (OPENSSL_NO_SSL2)
    (fun m => allocates KCtx (uses [] (SSL_CTX_new m)))
    (fun c => frees (KCtx, c) (SSL_CTX_free c))
    (fun c m => uses [(KCtx, c)] (SSL_CTX_set_verify c m))
    (fun c f => uses [(KCtx, c)] (SSL_CTX_use_certificate_chain_file c f))
    (fun c p => uses [(KCtx, c)] (SSL_CTX_set_default_passwd c p))
    (fun c f => uses [(KCtx, c)] (SSL_CTX_use_PrivateKey_file c f))
    (fun c f p => uses [(KCtx, c)] (SSL_CTX_load_verify_locations c f p))
    (fun c d => uses [(KCtx, c)] (SSL_CTX_set_verify_depth c d))
    (uses [] RAND_file_name)
    (fun f n => uses [] (RAND_load_file f n))
    (fun f => allocates KBio (uses [] (BIO_new_file f)))
    (fun b => frees (KBio, b) (BIO_free b))
    (fun b => allocates KDh (uses [(KBio, b)] (PEM_read_bio_DHparams b)))
    (fun c d => uses [(KCtx, c); (KDh, d)] (SSL_CTX_set_tmp_dh c d))
    (fun b e => allocates KRsa (uses [] (RSA_generate_key b e)))
    (fun c r => uses [(KCtx, c); (KRsa, r)] (SSL_CTX_set_tmp_rsa c r))
    (fun r => frees (KRsa, r) (RSA_free r))
    (allocates KBio (uses [] BIO_new_mem))
    (fun b p => uses [(KBio, b); (KCert, p)] (X509_subject_print b p))
    (fun b n => uses [(KBio, b)] (BIO_read b n))
    (fun s => uses [(KSsl, s)] (SSL_get_cipher s)).

(** ** The invariant *)
Section Life.
Context `{LuaConv} (o : NetOS) (c : CtxOS).
#[local] Instance wnet : NetOS := watch_net o.
#[local] Instance wctx : @CtxOS wnet := watch_ctx c.
Abbreviation M := (C nmem (@nos wnet)).
Abbreviation St := (lstate nmem (@nos wnet)).
Implicit Types s : St.
Implicit Types T B : gset handle.

Definition watch_of s : watched (@nos o) := ls_os s.
Definition live s : gset handle := w_live (watch_of s).

(** The handle that a userdata holds. *)
Definition handle_of (m : nmem) : option handle :=
  match m with MCtx (Some x) => Some (KCtx, x) | MSsl (Some x) => Some (KSsl, x) | _ => None end.
Definition owns s (u : nat) (h : handle) : Prop := exists d, ls_uds s !! u = Some d /\ handle_of (ud_mem d) = Some h.
(** The kinds that are not always freed. *)
Definition leaky (h : handle) : Prop := h.1 = KDh \/ h.1 = KRsa \/ h.1 = KLost.

(** In the middle of a call: [T] are allocated and nobody's, [B] are known to be
    allocated. *)
Record sound T B s : Prop := {
  s_misuse : w_misuse (watch_of s) = false;
  s_next u : is_Some (ls_uds s !! u) -> (u < ls_next s)%nat;
  s_owned u h : owns s u h -> h ∈ live s /\ h ∉ T;
  s_once u u' h : owns s u h -> owns s u' h -> u = u';
  s_live h : h ∈ live s -> leaky h \/ h ∈ T \/ exists u, owns s u h;
  s_temp : T ⊆ live s;
  s_known : B ⊆ live s;
}.
Definition inv T B s : Prop := w_reused (watch_of s) = true \/ sound T B s.

(** What a computation does to it; errors leave the function. *)
Definition triple {A} T B (m : M A) (T' B' : A -> gset handle) : Prop := forall k s, inv T B s ->
  match m k s with
  | CVal a _ s' => inv (T' a) (B' a) s'
  | CErr _ s' => inv ∅ ∅ s'
  | CUB => True
  end.

Lemma t_ret {A} (a : A) T B (T' B' : A -> gset handle) : T = T' a -> B' a ⊆ B -> triple T B (mret a) T' B'.
Proof. intros -> HB k s [Hr|Hs]; [by left|]. right. destruct Hs. split; [done..|]. by etrans. Qed.
Lemma t_bind {A R} (m : M A) (f : A -> M R) T B (T1 B1 : A -> gset handle) (T2 B2 : R -> gset handle) : triple T B m T1 B1 -> (forall a, triple (T1 a) (B1 a) (f a) T2 B2) ->
  triple T B (m ≫= f) T2 B2.
Proof.
  intros Hm Hf k s Hs. unfold mbind, C_bind. specialize (Hm k s Hs). destruct (m k s) as [a k' s'|e s'|]; [|done|done].
  by apply Hf.
Qed.
Lemma inv_forget T B s : T = ∅ -> inv T B s -> inv ∅ ∅ s.
Proof. intros -> [Hr|[]]; [by left|]. right. by split. Qed.
Lemma t_raise {A} (e : value) B (T' B' : A -> gset handle) : triple ∅ B (craise e) T' B'.
Proof. intros k s Hs. by apply (inv_forget _ _ _ eq_refl Hs). Qed.
Lemma t_ub {A} T B (T' B' : A -> gset handle) : triple T B cub T' B'.
Proof. intros k s Hs. exact I. Qed.

(** Computations that leave the handles where they are. *)
Definition same_objects s s' : Prop :=
  (forall u h, owns s' u h <-> owns s u h) /\ ls_os s' = ls_os s /\
  ((forall u, is_Some (ls_uds s !! u) -> (u < ls_next s)%nat) -> forall u, is_Some (ls_uds s' !! u) -> (u < ls_next s')%nat).
Lemma same_objects_refl s : same_objects s s.
Proof. by split_and!. Qed.
Lemma same_objects_trans s1 s2 s3 : same_objects s1 s2 -> same_objects s2 s3 -> same_objects s1 s3.
Proof. intros (A1 & A2 & A3) (B1 & B2 & B3). split_and!; [|congruence|auto]. intros u h. by rewrite B1, A1. Qed.
Lemma same_objects_uds s s' : ls_uds s' = ls_uds s -> ls_os s' = ls_os s -> (ls_next s <= ls_next s')%nat -> same_objects s s'.
Proof. intros E1 E2 E3. unfold same_objects, owns. rewrite E1, E2. split_and!; [done|done|]. intros Hw u Hu. specialize (Hw u Hu). lia. Qed.
(** The metatable or the uservalue of an object changes. *)
Lemma same_objects_ud s u d d' : ls_uds s !! u = Some d -> ud_mem d' = ud_mem d -> same_objects s (set_ls_uds s (<[u := d']> (ls_uds s))).
Proof.
  intros Hu Hm. split_and!; [|done|].
  - intros v h. unfold owns. cbn [ls_uds set_ls_uds]. destruct (decide (u = v)) as [<-|Hne].
    + rewrite lookup_insert_eq, Hu. split; intros (x & [= <-] & Hx); eexists; (split; [done|]); congruence.
    + by rewrite lookup_insert_ne.
  - intros Hw v. cbn [ls_uds set_ls_uds]. destruct (decide (u = v)) as [<-|Hne]; [intros _; by apply Hw; rewrite Hu|]. rewrite lookup_insert_ne by done. apply Hw.
Qed.

Lemma inv_same T B s s' : same_objects s s' -> inv T B s -> inv T B s'.
Proof.
  intros (E1 & E2 & E3) [Hr|[]]; [left|right]; unfold live, watch_of in *; [by rewrite E2|].
  split; unfold live, watch_of in *; rewrite ?E2; [done|auto| | | |done|done].
  - intros u h Hu. apply (s_owned0 u), E1, Hu.
  - intros u u' h Hu Hu'. apply (s_once0 u u' h); by apply E1.
  - intros h Hh. destruct (s_live0 h Hh) as [?|[?|[u Hu]]]; auto. right. right. exists u. by apply E1.
Qed.
#[local] Instance same_framed s0 : Framed (same_objects s0).
Proof. split; intros s **; (eapply same_objects_trans; [eassumption|]); apply same_objects_uds; cbn; auto. Qed.
(** [m] leaves the handles where they are. *)
Definition aside {A} (m : M A) : Prop := forall s0, stable (same_objects s0) m.
Lemma t_aside {A} (m : M A) B : aside m -> triple ∅ B m (fun _ => ∅) (fun _ => B).
Proof.
  intros Hm k s Hs. specialize (Hm s k s (same_objects_refl s)). destruct (m k s) as [a k' s'|e s'|]; [by eapply inv_same| |done].
  eapply inv_forget; [done|]. by eapply inv_same.
Qed.
Lemma t_push v T B : triple T B (lua_push v) (fun _ => T) (fun _ => B).
Proof. intros k s Hs. exact Hs. Qed.

(** A userdata is put back with the memory it had. *)
Lemma stable_meta s0 u meta : stable (same_objects s0) (luaL_setmetatable u meta).
Proof.
  intros k s Hs. unfold luaL_setmetatable. rewrite bindE. unfold get_ud. destruct (ls_uds s !! u) as [d|] eqn:E; [|exact I].
  eapply same_objects_trans; [exact Hs|]. by apply (same_objects_ud _ _ _ _ E).
Qed.
Lemma stable_setuservalue s0 i : stable (same_objects s0) (lua_setuservalue i).
Proof.
  unfold lua_setuservalue. apply stable_bind; [auto with stable|intros [[]|]]; auto with stable.
  apply stable_bind; [auto with stable|intros v]. intros k s Hs. rewrite bindE. unfold get_ud.
  destruct (ls_uds s !! u) as [d|] eqn:E; [|exact I]. eapply same_objects_trans; [exact Hs|]. by apply (same_objects_ud _ _ _ _ E).
Qed.
#[local] Hint Resolve stable_meta stable_setuservalue : stable.
Ltac a_any := intros ?;
  unfold opt_ulong, opt_size, luaL_optstring, check_timeout, wait_engine, socket_fd; stable_go.

(** ** Calls of the system *)
Lemma owns_kind s u h : owns s u h -> h.1 = KCtx \/ h.1 = KSsl.
Proof. intros (d & _ & E). destruct (ud_mem d) as [| | |[]|[]|]; simplify_eq/=; auto. Qed.

(** The handles that are used are known to be allocated. *)
Lemma sound_uses {A} T B s hs (f : @nos o -> @nos o * A) : sound T B s -> Forall (fun h => h ∈ T ∪ B) hs ->
  sound T B (set_ls_os s ((uses hs f (watch_of s)).1 : @nos wnet)) /\ live (set_ls_os s ((uses hs f (watch_of s)).1 : @nos wnet)) = live s.
Proof.
  intros [] Hh. unfold uses. destruct (f _) as [x a]. split; [|done]. unfold live in *. split; try done. cbn.
  rewrite s_misuse0, bool_decide_eq_true_2; [done|]. eapply Forall_impl; [exact Hh|]. set_solver.
Qed.
Lemma t_uses {A} T B hs (f : @nos o -> @nos o * A) : Forall (fun h => h ∈ T ∪ B) hs ->
  triple T B (sys (uses hs f : @nos wnet -> @nos wnet * A)) (fun _ => T) (fun _ => B).
Proof.
  intros Hh k s [Hr|Hs]; unfold sys.
  - change (ls_os s) with (watch_of s). unfold uses. destruct (f _) as [x a]. by left.
  - pose proof (sound_uses T B s hs f Hs Hh) as [H1 _]. change (ls_os s) with (watch_of s). destruct (uses hs f (watch_of s)) as [w a]. by right.
Qed.

(** A handle that was not allocated is nobody's; it is either to be freed, or of a
    kind that is not always freed. *)
Definition gained (k : kind) (T : gset handle) (r : option Z) : gset handle :=
  match r with Some h => {[(k, h)]} ∪ T | None => T end.
Lemma t_alloc k T B hs (f : @nos o -> @nos o * option Z) : Forall (fun h => h ∈ T ∪ B) hs ->
  triple T B (sys (allocates k (uses hs f) : @nos wnet -> @nos wnet * option Z)) (gained k T) (fun _ => B).
Proof.
  intros Hh q s Hi. pose proof (t_uses T B hs f Hh q s Hi) as Hu. unfold sys, allocates in *. change (ls_os s) with (watch_of s) in *.
  destruct (uses hs f (watch_of s)) as [w [h|]]; [|exact Hu]. cbn. destruct Hu as [Hr|Hs]; [left; cbn in *; by rewrite Hr|].
  destruct (decide ((k, h) ∈ w_live w)) as [Hin|Hin]; [left; cbn; rewrite (bool_decide_eq_true_2 _ Hin); apply orb_true_r|right].
  destruct Hs. unfold live, watch_of, owns in *. cbn in *. split; unfold live, watch_of, owns; cbn.
  - done.
  - done.
  - intros u x Hx. destruct (s_owned0 u x Hx). set_solver.
  - done.
  - intros x [?|Hx]%elem_of_union; [set_solver|]. destruct (s_live0 x Hx) as [?|[?|?]]; set_solver.
  - set_solver.
  - set_solver.
Qed.
Lemma t_alloc_leaky k T B hs (f : @nos o -> @nos o * option Z) : k = KDh \/ k = KRsa \/ k = KLost -> Forall (fun h => h ∈ T ∪ B) hs ->
  triple T B (sys (allocates k (uses hs f) : @nos wnet -> @nos wnet * option Z)) (fun _ => T) (gained k B).
Proof.
  intros Hk Hh q s Hi. pose proof (t_alloc k T B hs f Hh q s Hi) as Hu. destruct (sys _ q s) as [r q' s'|e s'|]; [|done|done].
  destruct Hu as [Hr|[]]; [by left|right]. destruct r as [h|]; [|by split]. cbn in *. split; try done.
  - intros u x Hx. destruct (s_owned0 u x Hx). set_solver.
  - intros x Hx. destruct (s_live0 x Hx) as [?|[[->%elem_of_singleton|?]%elem_of_union|?]]; auto.
  - set_solver.
  - set_solver.
Qed.
(** Freed are handles that are nobody's. *)
Lemma t_free_gen {A} T B (h : handle) (f : @nos o -> @nos o * A) : h ∈ T \/ leaky h /\ h ∈ B ->
  triple T B (sys (frees h f : @nos wnet -> @nos wnet * A)) (fun _ => T ∖ {[h]}) (fun _ => B ∖ {[h]}).
Proof.
  intros Hh q s Hi. pose proof (t_uses T B [h] f ltac:(apply Forall_singleton; set_solver) q s Hi) as Hu. unfold sys, frees in *.
  change (ls_os s) with (watch_of s) in *. destruct (uses [h] f (watch_of s)) as [w a]. cbn. destruct Hu as [Hr|[]]; [by left|right].
  assert (forall u, ~ owns s u h) as Hno.
  { intros u Hu. destruct (owns_kind _ _ _ Hu) as [E|E]; destruct Hh as [Hh|[[E'|[E'|E']] _]]; try congruence; by destruct (s_owned0 u h Hu). }
  unfold live, watch_of in *. cbn in *. split; unfold live, watch_of; cbn; try done.
  - intros u x Hx. destruct (s_owned0 u x Hx). assert (x <> h) by (intros ->; by apply (Hno u)). set_solver.
  - intros x [Hx Hne]%elem_of_difference. destruct (s_live0 x Hx) as [?|[?|?]]; auto. right. left. set_solver.
  - set_solver.
  - set_solver.
Qed.
Lemma t_free {A} T B (h : handle) (f : @nos o -> @nos o * A) : h ∉ T -> h ∉ B ->
  triple ({[h]} ∪ T) B (sys (frees h f : @nos wnet -> @nos wnet * A)) (fun _ => T) (fun _ => B).
Proof.
  intros HT HB. pose proof (t_free_gen ({[h]} ∪ T) B h f ltac:(set_solver)) as Ht. replace (B ∖ {[h]}) with B in Ht by set_solver.
  by replace (({[h]} ∪ T) ∖ {[h]}) with T in Ht by set_solver.
Qed.
Lemma t_free_leaky {A} B (h : handle) (f : @nos o -> @nos o * A) : leaky h -> h ∈ B ->
  triple ∅ B (sys (frees h f : @nos wnet -> @nos wnet * A)) (fun _ => ∅) (fun _ => ∅).
Proof.
  intros Hl HB q s Hs. pose proof (t_free_gen ∅ B h f ltac:(auto) q s Hs) as Ht. destruct (sys _ q s); [|done|done].
  eapply inv_forget; [|exact Ht]. set_solver.
Qed.

(** A new object takes the handle. *)
Lemma t_newuserdata B h m : handle_of m = Some h -> triple ({[h]} ∪ ∅) B (lua_newuserdata m) (fun _ => ∅) (fun _ => B).
Proof.
  intros Hm k s [Hr|[]]; [by left|right]. unfold live, watch_of in *.
  assert (ls_uds s !! ls_next s = None) as Hn by (apply eq_None_not_Some; intros Hs; specialize (s_next0 _ Hs); lia).
  assert (forall u x, owns (set_ls_next (set_ls_uds s (<[ls_next s := UData None m VNil]> (ls_uds s))) (S (ls_next s))) u x <->
    (u = ls_next s /\ x = h) \/ owns s u x) as Ho.
  { intros u x. unfold owns. cbn [ls_uds set_ls_uds set_ls_next]. destruct (decide (u = ls_next s)) as [->|Hne].
    - rewrite lookup_insert_eq, Hn. split; [intros (d & [= <-] & E); left; split; [done|cbn in E; congruence]|].
      intros [[_ ->]|(d & [=] & _)]. by eexists.
    - rewrite lookup_insert_ne by done. naive_solver. }
  split; unfold live, watch_of; cbn [ls_os ls_uds ls_next set_ls_next set_ls_uds].
  - done.
  - intros u [d Hd]. destruct (decide (u = ls_next s)); [lia|]. rewrite lookup_insert_ne in Hd by done. specialize (s_next0 u ltac:(by eexists)). lia.
  - intros u x [[-> ->]|Hx]%Ho; [set_solver|]. destruct (s_owned0 u x Hx). set_solver.
  - intros u u' x [[-> ->]|Hx]%Ho [[-> E]|Hx']%Ho; [done| | |by eapply s_once0].
    + destruct (s_owned0 _ _ Hx'). set_solver.
    + subst x. destruct (s_owned0 _ _ Hx). set_solver.
  - intros x Hx. rewrite union_empty_r_L in s_live0. destruct (s_live0 x Hx) as [?|[->%elem_of_singleton|[u Hu]]]; [auto| |]; right; right; [exists (ls_next s)|exists u]; apply Ho; auto.
  - set_solver.
  - done.
Qed.

(** The handles behind arguments are allocated. *)
Lemma checkudata_inv i meta k s u k' s' : luaL_checkudata i meta k s = CVal u k' s' -> s' = s /\ exists d, ls_uds s !! u = Some d.
Proof.
  unfold luaL_checkudata, get_ud, lua_value, mbind, C_bind. repeat case_goal; try done; intros [= <- <- <-]; eauto.
Qed.
Lemma sound_known T B s u h : sound T B s -> owns s u h -> sound T ({[h]} ∪ B) s.
Proof. intros [] Hu. destruct (s_owned0 u h Hu). split; [done..|]. set_solver. Qed.
Lemma t_object {A} i meta (pick : nat -> nmem -> option A) (hs : A -> option handle) B :
  (forall u m a, pick u m = Some a -> hs a = handle_of m) ->
  triple ∅ B (u ← luaL_checkudata i meta; m ← mem_of u; match pick u m with Some a => mret a | None => cub end) (fun _ => ∅)
    (fun a => match hs a with Some h => {[h]} ∪ B | None => B end).
Proof.
  intros Hp k s Hs. unfold mbind at 1, C_bind at 1. pose proof (stable_checkudata _ i meta k s (same_objects_refl s)) as Ha.
  destruct (luaL_checkudata i meta k s) as [u k' s'|e s'|] eqn:E; [|by eapply inv_forget, inv_same|done].
  apply checkudata_inv in E as (-> & d & Hd). unfold mem_of, get_ud, mbind, C_bind. rewrite Hd. cbn. destruct (pick u (ud_mem d)) as [a|] eqn:Ea; [|done]. unfold mret, C_ret.
  rewrite (Hp _ _ _ Ea). destruct (handle_of (ud_mem d)) as [h|] eqn:Eh; [|done]. destruct Hs as [Hr|Hs]; [by left|right].
  apply (sound_known _ _ _ u); [done|]. by exists d.
Qed.
Lemma t_session_of i B : triple ∅ B (session_of i) (fun _ => ∅) (fun x => {[(KSsl, x)]} ∪ B).
Proof.
  pose proof (t_object i SSL_META (fun _ m => match m with MSsl (Some x) => Some x | _ => None end) (fun x => Some (KSsl, x)) B) as Ht.
  intros k s Hs. specialize (Ht ltac:(intros u m a; destruct m as [| | |[x|]|[x|]|]; intros [=]; by subst) k s Hs). unfold session_of.
  unfold mbind, C_bind in *. repeat case_goal; cbn in *; repeat case_match; simplify_eq; done.
Qed.
Lemma t_ctx_of i B : triple ∅ B (ctx_of i) (fun _ => ∅) (fun x => match x.2 with Some y => {[(KCtx, y)]} ∪ B | None => B end).
Proof.
  pose proof (t_object i SSL_CTX_META (fun u m => match m with MCtx x => Some (u, x) | _ => None end) (fun x => (fun y => (KCtx, y)) <$> x.2) B) as Ht.
  intros k s Hs. specialize (Ht ltac:(intros u m a; destruct m as [| | |[x|]|[x|]|]; intros [=]; by subst) k s Hs). unfold ctx_of.
  unfold mbind, C_bind in *. repeat case_goal; cbn in *; repeat case_match; simplify_eq/=; done.
Qed.

(** An object gives up its handle: it is freed and the pointer cleared. *)
Lemma close_inv {A} B s u d h m (f : @nos o -> @nos o * A) : inv ∅ B s -> ls_uds s !! u = Some d -> handle_of (ud_mem d) = Some h ->
  handle_of m = None -> inv ∅ ∅ (set_ls_uds (set_ls_os s ((frees h f (watch_of s)).1 : @nos wnet)) (<[u := UData (ud_meta d) m (ud_uv d)]> (ls_uds s))).
Proof.
  intros Hi Hd Hh Hm. assert (owns s u h) as Hu by by exists d. unfold frees, uses. destruct (f _) as [x a]. cbn.
  destruct Hi as [Hr|[]]; [by left|right]. destruct (s_owned0 u h Hu) as [Hl _].
  set (s' := set_ls_uds _ _). assert (forall v y, owns s' v y <-> v <> u /\ owns s v y) as Ho.
  { intros v y. unfold owns, s'. cbn [ls_uds set_ls_uds set_ls_os]. destruct (decide (v = u)) as [->|Hne].
    - rewrite lookup_insert_eq. split; [intros (e & [= <-] & E); cbn in E; congruence|by intros []].
    - rewrite lookup_insert_ne by done. naive_solver. }
  assert (live s' = live s ∖ {[h]}) as El by done. split; rewrite ?El.
  - change (w_misuse (watch_of s) || negb (bool_decide (Forall (fun y => y ∈ w_live (watch_of s)) [h])) = false). rewrite s_misuse0, bool_decide_eq_true_2; [done|]. by apply Forall_singleton.
  - intros v. unfold s'. cbn [ls_uds set_ls_uds ls_next set_ls_os]. destruct (decide (v = u)) as [->|Hne]; [intros _; apply s_next0; by rewrite Hd|].
    rewrite lookup_insert_ne by done. apply s_next0.
  - intros v y [Hne Hy]%Ho. destruct (s_owned0 v y Hy). assert (y <> h) by (intros ->; apply Hne; by eapply s_once0). set_solver.
  - intros v v' y [_ Hy]%Ho [_ Hy']%Ho. by eapply s_once0.
  - intros y [Hy Hne]%elem_of_difference. destruct (s_live0 y Hy) as [?|[?|[v Hv]]]; auto. right. right. exists v. apply Ho. split; [|done].
    intros ->. apply Hne, elem_of_singleton. destruct Hv as (e & He & Eh). congruence.
  - set_solver.
  - set_solver.
Qed.
Lemma t_ctx_gc : triple ∅ ∅ rssl_ctx_gc (fun _ => ∅) (fun _ => ∅).
Proof.
  intros k s Hs. unfold rssl_ctx_gc, ctx_of, mbind, C_bind. pose proof (stable_checkudata _ 1 SSL_CTX_META k s (same_objects_refl s)) as Ha.
  destruct (luaL_checkudata 1 SSL_CTX_META k s) as [u k' s'|e s'|] eqn:E; [|by eapply inv_forget, inv_same|done].
  apply checkudata_inv in E as (-> & d & Hd). unfold mem_of, put_mem, get_ud, put_ud, mbind, C_bind. rewrite Hd. unfold mret, C_ret.
  destruct (ud_mem d) as [| | |[x|]| |] eqn:Em; try done.
  - unfold sys. pose proof (close_inv ∅ s u d (KCtx, x) (MCtx None) (SSL_CTX_free x) Hs Hd ltac:(by rewrite Em) eq_refl) as Hc.
    change (SSL_CTX_free x (ls_os s)) with (frees (KCtx, x) (SSL_CTX_free x) (watch_of s)).
    destruct (frees (KCtx, x) (SSL_CTX_free x) (watch_of s)) as [w a]. cbn [ls_uds set_ls_os]. by rewrite Hd.
  - rewrite Hd. eapply inv_same; [|exact Hs]. by apply (same_objects_ud _ _ _ _ Hd).
Qed.
Lemma t_session_gc : triple ∅ ∅ rssl_session_gc (fun _ => ∅) (fun _ => ∅).
Proof.
  intros k s Hs. unfold rssl_session_gc, mbind, C_bind. pose proof (stable_checkudata _ 1 SSL_META k s (same_objects_refl s)) as Ha.
  destruct (luaL_checkudata 1 SSL_META k s) as [u k' s'|e s'|] eqn:E; [|by eapply inv_forget, inv_same|done].
  apply checkudata_inv in E as (-> & d & Hd). unfold mem_of, put_mem, get_ud, put_ud, mbind, C_bind. rewrite Hd. unfold mret, C_ret.
  destruct (ud_mem d) as [| | | |[x|]|] eqn:Em; try done.
  unfold sys. pose proof (close_inv ∅ s u d (KSsl, x) (MSsl None) (ssl_free x) Hs Hd ltac:(by rewrite Em) eq_refl) as Hc.
  change (ssl_free x (ls_os s)) with (frees (KSsl, x) (ssl_free x) (watch_of s)).
  destruct (frees (KSsl, x) (ssl_free x) (watch_of s)) as [w a]. cbn [ls_uds set_ls_os]. by rewrite Hd.
Qed.

(** ** The functions *)
Lemma t_call_c f nargs nres : triple ∅ ∅ f (fun _ => ∅) (fun _ => ∅) -> triple ∅ ∅ (lua_call_c f nargs nres) (fun _ => ∅) (fun _ => ∅).
Proof.
  intros Hf k s Hs. unfold lua_call_c. case_goal; [done|]. specialize (Hf (drop (length k - nargs) k) s Hs).
  repeat case_goal; simplify_eq; done.
Qed.
Lemma t_weaken {A} B (m : M A) (T' B' : A -> gset handle) : triple ∅ ∅ m T' B' -> triple ∅ B m T' B'.
Proof. intros Hm k s Hs. apply (Hm k s). by eapply inv_forget. Qed.

Lemma t_bind_ret {A R} (a : A) (f : A -> M R) T B (T' B' : R -> gset handle) : triple T B (f a) T' B' -> triple T B (mret a ≫= f) T' B'.
Proof. done. Qed.
Lemma t_bind_ub {A R} (f : A -> M R) T B (T' B' : R -> gset handle) : triple T B (cub ≫= f) T' B'.
Proof. done. Qed.
Lemma t_optional {A R} (x : option A) (f : A -> M R) (r : R) T B : (forall a, triple T B (f a) (fun _ => T) (fun _ => B)) ->
  triple T B (match x with Some a => f a | None => mret r end) (fun _ => T) (fun _ => B).
Proof. intros Hf. destruct x; [apply Hf|by apply t_ret]. Qed.

Ltac t_side := unfold gained; repeat case_match; cbn; first [done | set_solver | repeat constructor; set_solver].
Ltac t_bound := first
  [ apply t_session_of | apply t_ctx_of | solve [apply t_aside; a_any] | apply t_optional; intros ? | idtac ].
Ltac t_step := cbv beta; lazymatch goal with
  | |- triple _ _ (match ?x with _ => _ end) _ _ => destruct x; cbn [gained snd]
  | |- triple _ _ (mret _) _ _ => apply t_ret; [reflexivity|first [reflexivity|set_solver]]
  | |- triple _ _ cub _ _ => apply t_ub
  | |- triple _ _ (craise _) _ _ => apply t_raise
  | |- triple _ _ (handle_ssl_error _ _ _ _) _ _ => unfold handle_ssl_error
  | |- triple _ _ (lua_push _) _ _ => apply t_push
  | |- triple _ _ (sys _) _ _ => first [ apply t_uses; t_side | apply t_alloc_leaky; [by auto|t_side] | apply t_alloc; t_side
      | apply t_free; t_side | eapply t_free_leaky; [unfold leaky; cbn; auto|t_side] ]
  | |- triple _ _ (lua_newuserdata _) _ _ => apply t_newuserdata; reflexivity
  | |- triple _ _ (lua_call_c _ _ _) _ _ => apply t_call_c
  | |- triple _ _ (use_ctx ?x ≫= _) _ _ => destruct x; [apply t_bind_ret|apply t_bind_ub]
  | |- triple _ _ (_ ≫= _) _ _ => eapply t_bind; [t_bound|intros ?]
  | |- triple _ _ _ _ _ => first [solve [apply t_aside; a_any] | solve [apply t_weaken, t_aside; a_any]]
  end.
Ltac t_go := repeat t_step.
(** [SSL_new] with the BIO of a socket, which nobody else has. *)
Lemma t_new_session cx b B : Forall (fun h => h ∈ B) (of_ctx cx) ->
  triple ({[(KSock, b)]} ∪ ∅) B (sys (ssl_new cx b b : @nos wnet -> @nos wnet * option Z)) (gained KSsl ∅) (fun _ => ∅).
Proof.
  intros Hc k s Hi. set (T := ({[(KSock, b)]} ∪ ∅ : gset handle)) in *.
  pose proof (t_uses T B (of_ctx cx ++ [(KSock, b); (KSock, b)]) (@ssl_new o cx b b)) as Hu.
  specialize (Hu ltac:(apply Forall_app; split; [eapply Forall_impl; [exact Hc|set_solver]|repeat constructor; set_solver]) k s Hi).
  unfold sys in *. change (ls_os s) with (watch_of s) in Hu.
  change (ssl_new cx b b (ls_os s)) with (allocates KSsl (takes b (takes b (uses (of_ctx cx ++ [(KSock, b); (KSock, b)]) (@ssl_new o cx b b)))) (watch_of s)).
  unfold allocates, takes. destruct (uses _ _ (watch_of s)) as [w r]. cbn [w_live w_os w_misuse w_reused]. destruct Hu as [Hr|Hs].
  { destruct r; left; cbn in *; by rewrite Hr. }
  assert (forall u x, owns s u x -> x <> (KSock, b) /\ x <> (KLost, b)) as Hk by (intros u x Hx; destruct (owns_kind _ _ _ Hx) as [E|E]; split; intros ->; done).
  destruct r as [h|]; cbn [gained].
  - set (L := w_live w ∖ {[(KSock, b)]} ∖ {[(KSock, b)]}). destruct (decide ((KSsl, h) ∈ L)) as [Hin|Hin].
    { left. cbn. rewrite (bool_decide_eq_true_2 _ Hin). apply orb_true_r. }
    right. destruct Hs. unfold live, watch_of, owns in *. cbn in *. split; unfold live, watch_of, owns; cbn; try done; [intros u x Hx; destruct (s_owned0 u x Hx), (Hk u x Hx); set_solver| |set_solver..].
    intros x [?|Hx]%elem_of_union; [set_solver|]. destruct (s_live0 x ltac:(set_solver)) as [?|[?|?]]; set_solver.
  - right. destruct Hs. unfold live, watch_of, owns in *. cbn in *. split; unfold live, watch_of, owns; cbn; try done; [intros u x Hx; destruct (s_owned0 u x Hx), (Hk u x Hx); set_solver| |set_solver..].
    intros x Hx. destruct (decide (x = (KLost, b))) as [->|]; [left; unfold leaky; auto|]. destruct (s_live0 x ltac:(set_solver)) as [?|[?|?]]; set_solver.
Qed.
Definition bios_end cx b : M next :=
  r ← sys (ssl_new cx b b);
  match r with
  | None => craise (VStr "Could not create SSL object")
  | Some ssl =>
      n ← lua_newuserdata (MSsl (Some ssl));
      luaL_setmetatable n SSL_META;; lua_createtable;; lua_pushvalue 2;; lua_setfield (-2) "engine";; lua_setuservalue (-2);; mret (NRet 1)
  end.
Lemma t_bios_end cx b B : Forall (fun h => h ∈ B) (of_ctx cx) -> triple ({[(KSock, b)]} ∪ ∅) B (bios_end cx b) (fun _ => ∅) (fun _ => ∅).
Proof. intros Hc. unfold bios_end. eapply t_bind; [by apply t_new_session|]. intros r. t_go. Qed.

(** A session is made for the context [u] with the BIO of a socket. *)
Lemma create_on u d v b s : ls_uds s !! u = Some d -> ud_meta d = Some SSL_CTX_META -> inv ({[(KSock, b)]} ∪ ∅) ∅ s ->
  match rssl_ctx_create_session [VUd u; v; VLight b] s with CVal _ _ s' | CErr _ s' => inv ∅ ∅ s' | CUB => True end.
Proof.
  intros Hd Hm Hi. destruct d as [meta m uvv]. cbn in Hm. subst meta. unfold rssl_ctx_create_session, ctx_of, mem_of. destruct m as [| | |cx| |]; lrun; try done.
  change (match bios_end cx b [VUd u; v; VLight b] s with CVal _ _ s' | CErr _ s' => inv ∅ ∅ s' | CUB => True end).
  destruct cx as [x|].
  - apply (t_bios_end (Some x) b ({[(KCtx, x)]} ∪ ∅)); [repeat constructor; set_solver|]. destruct Hi as [Hr|Hs]; [by left|right].
    apply (sound_known _ _ _ u); [done|]. by eexists.
  - by apply (t_bios_end None b ∅).
Qed.
Lemma checkudata_spec i meta k s u k' s' : luaL_checkudata i meta k s = CVal u k' s' -> s' = s /\ k' = k /\
  exists p d, pos k i = Some p /\ k !! p = Some (VUd u) /\ ls_uds s !! u = Some d /\ ud_meta d = Some meta.
Proof.
  unfold luaL_checkudata, get_ud, lua_value, mbind, C_bind. destruct (pos k i) as [p|] eqn:Ep; [|done].
  destruct (k !! p) as [[]|] eqn:Ek; try done. destruct (ls_uds s !! u0) as [d|] eqn:Ed; [|done]. case_match eqn:E; try done.
  intros [= <- <- <-]. split_and!; [done|done|]. exists p, d. split_and!; try done. by apply bool_decide_eq_true in E.
Qed.
Lemma socket_fd_same i k s a k' s' : socket_fd i k s = CVal a k' s' -> s' = s /\ k' = k.
Proof.
  unfold socket_fd, mem_of, get_ud, mbind, C_bind. destruct (luaL_checkudata i SOCKET_META k s) as [u k1 s1|e s1|] eqn:E; [|done|done].
  apply checkudata_spec in E as (-> & -> & p & d & _ & _ & Hd & _). rewrite Hd. unfold mret, C_ret. destruct (ud_mem d); try done. by intros [= _ <- <-].
Qed.
(** The call of [create_session] in [rsock_encrypt]. *)
Lemma call_create u d b k s p (rest : M next) : triple ∅ ∅ rest (fun _ => ∅) (fun _ => ∅) -> pos k 2 = Some p -> k !! p = Some (VUd u) ->
  ls_uds s !! u = Some d -> ud_meta d = Some SSL_CTX_META -> inv ({[(KSock, b)]} ∪ ∅) ∅ s ->
  match (lua_pushvalue 2;; lua_pushvalue 1;; lua_push (VLight b);; lua_call_c rssl_ctx_create_session 3 1;; rest) k s with
  | CVal _ _ s' | CErr _ s' => inv ∅ ∅ s'
  | CUB => True
  end.
Proof.
  intros Hrest Hp Hk Hd Hm Hi. unfold mbind, C_bind. unfold lua_pushvalue at 1. rewrite Hp, Hk.
  unfold lua_pushvalue at 1. assert (exists v, (match pos (k ++ [VUd u]) 1 with
    | Some p0 => match (k ++ [VUd u]) !! p0 with Some v => CVal tt ((k ++ [VUd u]) ++ [v]) s | None => CUB end
    | None => if 0 <? 1 then CVal tt ((k ++ [VUd u]) ++ [VNil]) s else CUB end : cres nmem (@nos wnet) unit) = CVal tt ((k ++ [VUd u]) ++ [v]) s) as [v ->].
  { unfold pos. rewrite length_app. cbn [length]. rewrite (proj2 (Z.leb_le 1 _)) by lia. cbn [Z.ltb Z.compare andb]. change (Z.to_nat (1 - 1)) with 0%nat.
    destruct k as [|x k']; [by exists (VUd u)|by exists x]. }
  unfold lua_push, lua_call_c. rewrite !length_app. cbn [length]. rewrite (proj2 (Nat.ltb_ge _ _)) by lia.
  rewrite <- !app_assoc. replace (length k + 1 + 1 + 1 - 3)%nat with (length k) by lia. rewrite drop_app_length. cbn [app].
  pose proof (create_on u d v b s Hd Hm Hi) as Hc. destruct (rssl_ctx_create_session _ s) as [[] k' s'|e s'|]; try done.
  destruct (_ <? _)%nat; [done|]. by apply Hrest.
Qed.
Lemma t_encrypt : triple ∅ ∅ rsock_encrypt (fun _ => ∅) (fun _ => ∅).
Proof.
  intros k s Hs. unfold rsock_encrypt. unfold mbind at 1, C_bind at 1.
  assert (triple ∅ ∅ (socket_fd 1) (fun _ => ∅) (fun _ => ∅)) as Hfd by (apply t_aside; a_any). specialize (Hfd k s Hs).
  destruct (socket_fd 1 k s) as [[u1 fd] k1 s1|e s1|] eqn:E1; [|done|done]. apply socket_fd_same in E1 as [-> ->].
  unfold mbind at 1, C_bind at 1.
  assert (triple ∅ ∅ (luaL_checkudata 2 SSL_CTX_META) (fun _ => ∅) (fun _ => ∅)) as Hck by (apply t_aside; a_any). specialize (Hck k s Hs).
  destruct (luaL_checkudata 2 SSL_CTX_META k s) as [u k1 s1|e s1|] eqn:E2; [|done|done].
  apply checkudata_spec in E2 as (-> & -> & p & d & Hp & Hk & Hd & Hm). unfold mbind at 1, C_bind at 1.
  pose proof (t_alloc KSock ∅ ∅ [] (@ssl_bio o fd) ltac:(constructor) k s Hs) as Ha.
  change (sys (ssl_bio fd) k s) with (sys (allocates KSock (uses [] (@ssl_bio o fd)) : @nos wnet -> @nos wnet * option Z) k s).
  unfold sys in *. destruct (allocates _ _ _) as [w [b|]]; [|by apply (inv_forget _ _ _ eq_refl Ha)]. cbn [gained] in Ha.
  eapply (call_create u d b k _ p); [|done|done|done|done|exact Ha]. apply t_aside. a_any.
Qed.
(** Every function of the module. *)
Lemma ssl_code_sound f ctx : f <> FCreateSession -> triple ∅ ∅ (ssl_code_of f ctx) (fun _ => ∅) (fun _ => ∅).
Proof.
  intros Hf. destruct f; try done; cbn [ssl_code_of]; first [apply t_encrypt | apply t_ctx_gc | apply t_session_gc | idtac];
  unfold rssl_ctx_new, rssl_ctx_set_verify_mode, rssl_ctx_load_certs, rssl_ctx_load_cas, rssl_ctx_load_randomness, rssl_ctx_load_dh_params,
    rssl_ctx_generate_tmp_rsa, rssl_session_get_engine, rssl_session_verify_certificate, rssl_session_get_rfc2253, rssl_session_get_cipher,
    rsock_get_encryption, rsock_encrypt, rssl_session_read, rssl_session_write, rssl_session_shutdown, rssl_session_connect,
    rssl_session_accept, handshake; t_go.
  all: by apply t_ret.
Qed.
(** Lua code has no BIO to pass to [create_session]; without one it raises. *)
Definition no_pointer (f : ssl_fn) (k : list value) : Prop :=
  f = FCreateSession -> match pos k 3 with Some p => match k !! p with Some (VLight _) => False | _ => True end | None => True end.
Lemma create_refused k s : no_pointer FCreateSession k -> inv ∅ ∅ s ->
  match rssl_ctx_create_session k s with CVal _ _ s' | CErr _ s' => inv ∅ ∅ s' | CUB => True end.
Proof.
  intros Hk Hs. specialize (Hk eq_refl). unfold rssl_ctx_create_session, ctx_of, mem_of, get_ud, lua_value, mbind, C_bind.
  assert (triple ∅ ∅ (luaL_checkudata 1 SSL_CTX_META) (fun _ => ∅) (fun _ => ∅)) as Hck by (apply t_aside; a_any). specialize (Hck k s Hs).
  destruct (luaL_checkudata 1 SSL_CTX_META k s) as [u k1 s1|e s1|] eqn:E; [|done|done]. apply checkudata_spec in E as (-> & -> & p & d & _ & _ & -> & _).
  unfold mret, C_ret. destruct (ud_mem d); try done. destruct (match pos k 2 with Some _ => _ | None => _ end); [|done].
  destruct (pos k 3) as [q|]; [|done]. by destruct (k !! q) as [[]|].
Qed.
Lemma call_sound f ctx k s : no_pointer f k -> inv ∅ ∅ s ->
  match ssl_code_of f ctx k s with CVal _ _ s' | CErr _ s' => inv ∅ ∅ s' | CUB => True end.
Proof.
  intros Hk Hs. assert (f = FCreateSession \/ f <> FCreateSession) as [->|Hf] by (destruct f; auto); [by apply create_refused|]. pose proof (ssl_code_sound f ctx Hf k s Hs) as Hc.
  by destruct (ssl_code_of f ctx k s).
Qed.

(** ** Programs

    Lua code calls the functions and resumes them, in any order and with any values
    on the stack; finalisers are among them. The BIOs of sockets are not Lua values:
    [create_session] gets one from [encrypt] only. Code of other modules, the Lua code
    itself and the collector do not touch the handles. *)
Inductive lua_run (s0 : St) : St -> Prop :=
  | run_start : lua_run s0 s0
  | run_call s f ctx k n k' s' : lua_run s0 s -> no_pointer f k -> ssl_code_of f ctx k s = CVal n k' s' -> lua_run s0 s'
  | run_error s f ctx k e s' : lua_run s0 s -> no_pointer f k -> ssl_code_of f ctx k s = CErr e s' -> lua_run s0 s'
  | run_other s s' : lua_run s0 s -> same_objects s s' -> lua_run s0 s'.
Lemma lua_run_inv s0 s : inv ∅ ∅ s0 -> lua_run s0 s -> inv ∅ ∅ s.
Proof.
  intros H0. induction 1 as [|s f ctx k n k' s' _ IH Hk E|s f ctx k e s' _ IH Hk E|s s' _ IH E]; [done| | |by eapply inv_same].
  - pose proof (call_sound f ctx k s Hk IH) as Hs. by rewrite E in Hs.
  - pose proof (call_sound f ctx k s Hk IH) as Hs. by rewrite E in Hs.
Qed.

(** No object has been made yet, and nothing is allocated. *)
Record fresh_start s : Prop := {
  fs_objects u d : ls_uds s !! u = Some d -> handle_of (ud_mem d) = None /\ (u < ls_next s)%nat;
  fs_watch : w_live (watch_of s) = ∅ /\ w_misuse (watch_of s) = false;
}.
Lemma fresh_inv s : fresh_start s -> inv ∅ ∅ s.
Proof.
  intros [Ho [Hl Hm]]. right. assert (forall u h, ~ owns s u h) as Hno by (intros u h (d & Hd & E); destruct (Ho u d Hd); congruence).
  unfold live. split; unfold live; rewrite ?Hl; [done| | | | |done|done].
  - intros u [d Hd]. by destruct (Ho u d Hd).
  - intros u h Hu. by destruct (Hno u h).
  - intros u u' h Hu. by destruct (Hno u h).
  - set_solver.
Qed.
End Life.


(** The password is copied with its NUL when the buffer takes both, and not at all
    otherwise; nothing outside of the buffer is written. *)
Theorem password_in_buffer buf password : Z.of_nat (length password) < 2 ^ 31 - 1 ->
  exists buf' r, password_cb buf (Z.of_nat (length buf)) password = Some (buf', r) /\ length buf' = length buf /\
    if decide (length password < length buf)%nat
    then r = Z.of_nat (length password) /\ take (length password + 1) buf' = password ++ [0]
    else r = 0 /\ buf' = buf.
Proof.
  intros Hp. unfold password_cb. rewrite to_int_id by lia. destruct (Z.ltb_spec (Z.of_nat (length buf)) (Z.of_nat (length password) + 1)) as [Hl|Hl].
  - exists buf, 0. rewrite decide_False by lia. done.
  - rewrite (proj2 (Nat.ltb_ge _ _)) by lia. eexists _, _. split; [done|]. rewrite decide_True by lia. split_and!; [|done|].
    + rewrite length_app. cbn [length]. rewrite length_drop. lia.
    + rewrite take_app_ge by lia. replace (length password + 1 - length password)%nat with 1%nat by lia. cbn. by rewrite take_0.
Qed.

(** [ratchet.ssl.ctx.new (method)] has no second argument; the index 2 is then that of
    the new object, which becomes its own password. *)
Lemma ctx_is_its_password `{LuaConv, CtxOS} p x o' (s : lstate nmem nos) : SSL_CTX_new p (ls_os s) = (o', Some x) ->
  exists s' t, rssl_ctx_new [VLight p] s = CVal (NRet 1) [VLight p; VUd (ls_next s)] s' /\
    ls_uds s' !! ls_next s = Some (UData (Some SSL_CTX_META) (MCtx (Some x)) (VTab (S (ls_next s)))) /\
    ls_tabs s' !! S (ls_next s) = Some t /\ field t "password" = VUd (ls_next s).
Proof.
  intros Hn. unfold rssl_ctx_new, sys. lrun. rewrite Hn. lrun. eexists _, _. split; [reflexivity|]. lst. cbn. split; [by rewrite !lookup_insert_eq|].
  split; [by rewrite lookup_insert_eq|]. unfold field. cbn. by rewrite lookup_insert_eq.
Qed.

(** ** A witness *)
Module CtxWitnesses.
Import SocketWitnesses.
#[export] Instance simctx : @CtxOS simnet := @Build_CtxOS simnet (fun _ => 7) true
  (fun _ s => (s, Some 1)) (fun _ s => (s, tt)) (fun _ _ s => (s, tt)) (fun _ _ s => (s, 1)) (fun _ _ s => (s, tt)) (fun _ _ s => (s, 1))
  (fun _ _ _ s => (s, 1)) (fun _ _ s => (s, tt)) (fun s => (s, None)) (fun _ _ s => (s, 1)) (fun _ s => (s, Some 1)) (fun _ s => (s, tt))
  (fun _ s => (s, Some 1)) (fun _ _ s => (s, 1)) (fun _ _ s => (s, Some 1)) (fun _ _ s => (s, 1)) (fun _ s => (s, tt)) (fun s => (s, Some 1))
  (fun _ _ s => (s, tt)) (fun _ _ s => (s, inr ""%string)) (fun _ s => (s, ""%string)).

Definition wn : NetOS := watch_net simnet.
Definition wc : @CtxOS wn := watch_ctx simctx.
(** A socket and its uservalue. *)
Definition s0 : lstate nmem (@nos wn) :=
  LState (<[1%nat := Tab ∅ ∅]> ∅) (<[0%nat := UData (Some SOCKET_META) (MSock 5) (VTab 1)]> ∅) 2 (Watched false ∅ false false : @nos wn).
Definition call (f : ssl_fn) (k : list value) (s : lstate nmem (@nos wn)) : lstate nmem (@nos wn) :=
  match @ssl_code_of conv wn wc f 0 k s with CVal _ _ s' | CErr _ s' => s' | CUB => s end.
Lemma call_run f k s : f <> FCreateSession -> lua_run simnet simctx s0 s -> lua_run simnet simctx s0 (call f k s).
Proof.
  intros Hf Hs. assert (no_pointer f k) by (by intros ->). unfold call. destruct (@ssl_code_of conv wn wc f 0 k s) as [n k' s'|e s'|] eqn:E; [by eapply run_call|by eapply run_error|done].
Qed.
(** A context reads its parameters, makes a session, and is collected. *)
Definition s1 := call FCtxNew [] s0.
Definition s2 := call FLoadDhParams [VUd 2; VStr "dh.pem"%string] s1.
Definition s3 := call FEncrypt [VUd 0; VUd 2] s2.
Definition s4 := call FCtxGc [VUd 2] s3.
End CtxWitnesses.
