(* ===== verification/Zmq.v ===== *)
(** zmq.c: ZeroMQ sockets as objects that pause the thread.

    libzmq is the class [ZmqOS]. A socket object is a userdata with the socket
    and a timeout; [send], [recv] and [recv_all] run on the machine of LuaC.v,
    where the context 0 is a fresh call ([lua_getctx] returns LUA_OK). *)

From stdpp Require Import prelude gmap strings.
From Stdlib Require Import ZArith Lia SpecFloat Ascii.
From S2P Require Import Prelude Double Lua Misc Error LuaC.
Local Open Scope Z_scope.

(** The memory of the userdata of the module: the context that
    [push_new_zmq_context] makes, and [struct socket_data]. *)
Inductive zmem :=
  | MContext (ctx : Z)
  | MZmq (socket : Z) (timeout : number).

Definition ZMQ_META : string := "ratchet_zmqsocket_meta".
Definition ZMQ_CONTEXT_META : string := "ratchet_zmq_context".

Definition ZMQ_IO_THREADS : Z := 10.
Definition ZMQ_NOBLOCK : Z := 1.
Definition ZMQ_SNDMORE : Z := 2.
Definition ZMQ_POLLIN : Z := 1.
Definition ZMQ_POLLOUT : Z := 2.

(** ** libzmq

    The calls on an abstract state, with the number of [zmq_errno] where a call
    fails. Messages are handles that are opened and closed. *)
Class ZmqOS := {
  zos : Type;
  zmsg : Type;
  (** The header defines ZMQ_UPSTREAM. *)
  zmq_has_upstream : bool;
  zmq_init : Z -> zos -> zos * (Z + Z);
  zmq_term : Z -> zos -> zos * unit;
  zmq_socket : Z -> Z -> zos -> zos * (Z + Z);
  zmq_close : Z -> zos -> zos * unit;
  zmq_bind : Z -> string -> zos -> zos * (Z + unit);
  zmq_connect : Z -> string -> zos -> zos * (Z + unit);
  (** [zmq_getsockopt] for ZMQ_FD, ZMQ_EVENTS and ZMQ_RCVMORE. *)
  zmq_fd : Z -> zos -> zos * (Z + Z);
  zmq_events : Z -> zos -> zos * (Z + Z);
  zmq_rcvmore : Z -> zos -> zos * (Z + Z);
  (** [zmq_msg_init_size] and the copy of the data into the message; [None] when
      there is no memory for it, which the code does not check. *)
  zmq_msg_of : string -> zos -> zos * option zmsg;
  zmq_msg_data : zmsg -> string;
  zmq_msg_close : zmsg -> zos -> zos * unit;
  zmq_send : Z -> zmsg -> Z -> zos -> zos * (Z + unit);
  zmq_recv : Z -> Z -> zos -> zos * (Z + zmsg);
  zmq_strerror : Z -> string;
}.

(** The methods that the class registers: [meths] of [luaopen_ratchet_zmqsocket]. *)
Definition ZF_send : nat := 1.
Definition ZF_recv : nat := 2.
Definition ZF_recv_all : nat := 3.
Definition ZF_is_readable : nat := 4.
Definition ZF_is_writable : nat := 5.
Definition ZF_is_rcvmore : nat := 6.
Definition ZF_rawsend : nat := 7.
Definition ZF_rawrecv : nat := 8.
Definition ZF_get_fd : nat := 9.
Definition ZF_get_timeout : nat := 10.
Definition ZF_set_timeout : nat := 11.
Definition ZF_bind : nat := 12.
Definition ZF_connect : nat := 13.
Definition zmq_meths : list (string * nat) :=
  [("get_fd", ZF_get_fd); ("get_timeout", ZF_get_timeout); ("set_timeout", ZF_set_timeout); ("bind", ZF_bind);
   ("connect", ZF_connect); ("send", ZF_send); ("recv", ZF_recv); ("recv_all", ZF_recv_all);
   ("is_readable", ZF_is_readable); ("is_writable", ZF_is_writable); ("is_rcvmore", ZF_is_rcvmore);
   ("rawsend", ZF_rawsend); ("rawrecv", ZF_rawrecv)]%string.
Fixpoint method_in (meths : list (string * nat)) (name : string) : option nat :=
  match meths with
  | [] => None
  | (n, f) :: meths' => if String.eqb n name then Some f else method_in meths' name
  end.
Definition zmq_methods (meta name : string) : option nat :=
  if String.eqb meta ZMQ_META then method_in zmq_meths name else None.

(** [string.upper] in the C locale. *)
Definition ascii_upper (c : ascii) : ascii :=
  let n := nat_of_ascii c in if (97 <=? n)%nat && (n <=? 122)%nat then ascii_of_nat (n - 32) else c.
Fixpoint string_upper (s : string) : string :=
  match s with EmptyString => EmptyString | String c s' => String (ascii_upper c) (string_upper s') end.

(** [strmatch] with the pattern of [rzmq_prepare_uri]: its captures are what
    precedes the first colon and what follows it. *)
Fixpoint match_colon (s : string) : option (string * string) :=
  match s with
  | EmptyString => None
  | String c s' =>
      if Ascii.eqb c ":" then Some (EmptyString, s')
      else '(a, b) ← match_colon s'; Some (String c a, b)
  end.

Section Zmq.
Context `{LuaConv, ZmqOS}.
Abbreviation M := (C zmem zos).
Abbreviation getfield := (lua_getfield zmq_methods).

(** [raise_zmq_error_ln] with the number of [zmq_errno]. *)
Definition raise_zmq_error {A} (func : option string) (e : Z) : M A :=
  craise (VErr (RError (zmq_strerror e) (ratchet_error_push_code e) func None (Some e))).

(** The macros [socket_ptr] and [socket_timeout]. *)
Definition socket_data (i : Z) : M (nat * Z * number) :=
  u ← luaL_checkudata i ZMQ_META;
  m ← mem_of u;
  match m with MZmq socket timeout => mret (u, socket, timeout) | _ => cub end.

(** *** Contexts *)
Definition gc_zmq_context : M next :=
  v ← lua_value 1;
  match v with
  | Some (VUd u) =>
      m ← mem_of u;
      match m with MContext ctx => _ ← sys (zmq_term ctx); mret (NRet 0) | _ => cub end
  | _ => cub
  end.

Definition push_new_zmq_context : M unit :=
  r ← sys (zmq_init ZMQ_IO_THREADS);
  match r with
  | inr ctx => u ← lua_newuserdata (MContext ctx); luaL_setmetatable u ZMQ_CONTEXT_META
  | inl e => raise_zmq_error None e
  end.

(** *** Functions of the namespace *)
Definition zmq_types : list (string * Z) :=
  [("PAIR", 0); ("PUB", 1); ("SUB", 2); ("REQ", 3); ("REP", 4); ("XREQ", 5); ("XREP", 6); ("PULL", 7); ("PUSH", 8)]%string ++
  (if zmq_has_upstream then [("UPSTREAM", 7); ("DOWNSTREAM", 8)]%string else []).

(** [context] is the userdata in the upvalue of the function. *)
Definition rzmq_new (context : nat) : M next :=
  m ← mem_of context;
  match m with
  | MContext ctx =>
      n ← luaL_checkoption 1 "PAIR" (fst <$> zmq_types);
      match zmq_types !! n with
      | Some (_, type) =>
          r ← sys (zmq_socket ctx type);
          match r with
          | inr socket =>
              u ← lua_newuserdata (MZmq socket (of_Z (-1)));
              luaL_setmetatable u ZMQ_META;;
              mret (NRet 1)
          | inl e => raise_zmq_error (Some "ratchet.zmqsocket.new()"%string) e
          end
      | None => cub
      end
  | _ => cub
  end.

Definition rzmq_prepare_uri : M next :=
  uri ← luaL_checklstring 1;
  lua_settop 1;;
  lua_createtable;;
  match match_colon uri with
  | Some (type, endpoint) =>
      lua_push (VStr type);;
      lua_push (VStr endpoint);;
      lua_push (VStr (string_upper type));;
      lua_pushvalue 4
  | None => lua_push VNil;; lua_pushvalue 1
  end;;
  lua_setfield 2 "endpoint";;
  lua_setfield 2 "type";;
  lua_settop 2;;
  mret (NRet 1).

(** *** Methods *)
Definition rzmq_gc : M next :=
  '(_, socket, _) ← socket_data 1;
  (if socket =? 0 then mret tt else _ ← sys (zmq_close socket); mret tt);;
  mret (NRet 0).

Definition rzmq_get_fd : M next :=
  '(_, socket, _) ← socket_data 1;
  r ← sys (zmq_fd socket);
  match r with
  | inl e => raise_zmq_error (Some "ratchet.zmqsocket.get_fd()"%string) e
  | inr fd => lua_push (VNum (of_Z fd));; mret (NRet 1)
  end.

Definition rzmq_get_timeout : M next :=
  '(_, _, timeout) ← socket_data 1;
  lua_push (VNum timeout);;
  mret (NRet 1).

Definition rzmq_set_timeout : M next :=
  v ← lua_value 2;
  match tonumberx v with
  | None => craise (VStr "number expected")
  | Some new_timeout =>
      '(u, socket, _) ← socket_data 1;
      put_mem u (MZmq socket new_timeout);;
      mret (NRet 0)
  end.

Definition rzmq_is_readable : M next :=
  '(_, socket, _) ← socket_data 1;
  r ← sys (zmq_events socket);
  match r with
  | inl e => raise_zmq_error (Some "ratchet.zmqsocket.is_readable()"%string) e
  | inr events => lua_push (VBool (negb (Z.land events ZMQ_POLLIN =? 0)));; mret (NRet 1)
  end.

Definition rzmq_is_writable : M next :=
  '(_, socket, _) ← socket_data 1;
  r ← sys (zmq_events socket);
  match r with
  | inl e => raise_zmq_error (Some "ratchet.zmqsocket.is_writable()"%string) e
  | inr events => lua_push (VBool (negb (Z.land events ZMQ_POLLOUT =? 0)));; mret (NRet 1)
  end.

(** The 64-bit value goes through the [int] of [lua_pushboolean]. *)
Definition rzmq_is_rcvmore : M next :=
  '(_, socket, _) ← socket_data 1;
  r ← sys (zmq_rcvmore socket);
  match r with
  | inl e => raise_zmq_error (Some "ratchet.zmqsocket.is_rcvmore()"%string) e
  | inr rcvmore => lua_push (VBool (negb (to_int rcvmore =? 0)));; mret (NRet 1)
  end.

Definition rzmq_bind : M next :=
  '(_, socket, _) ← socket_data 1;
  endpoint ← luaL_checklstring 2;
  r ← sys (zmq_bind socket (c_str endpoint));
  match r with
  | inl e => raise_zmq_error (Some "ratchet.zmqsocket.bind()"%string) e
  | inr _ => lua_push (VBool true);; mret (NRet 1)
  end.

Definition rzmq_connect : M next :=
  '(_, socket, _) ← socket_data 1;
  endpoint ← luaL_checklstring 2;
  r ← sys (zmq_connect socket (c_str endpoint));
  match r with
  | inl e => raise_zmq_error (Some "ratchet.zmqsocket.connect()"%string) e
  | inr _ => lua_push (VBool true);; mret (NRet 1)
  end.

(** A method of the object at the index 1 that only tests the socket. *)
Definition test_fns (f : nat) : option (M next) :=
  if (f =? ZF_is_readable)%nat then Some rzmq_is_readable
  else if (f =? ZF_is_writable)%nat then Some rzmq_is_writable
  else if (f =? ZF_is_rcvmore)%nat then Some rzmq_is_rcvmore
  else None.
Definition call_test (name : string) : M unit :=
  getfield 1 name;;
  lua_pushvalue 1;;
  lua_call_fn test_fns 1 (Some 1%nat).

Definition rzmq_rawsend : M next :=
  '(_, socket, _) ← socket_data 1;
  data ← luaL_checklstring 2;
  more ← lua_value 3;
  let flags := Z.lor ZMQ_NOBLOCK (if toboolean more then ZMQ_SNDMORE else 0) in
  msg ← sys (zmq_msg_of data);
  match msg with
  | None => cub
  | Some msg =>
      r ← sys (zmq_send socket msg flags);
      match r with
      | inl e => raise_zmq_error (Some "ratchet.zmqsocket.send()"%string) e
      | inr _ =>
          _ ← sys (zmq_msg_close msg);
          lua_push (VBool true);;
          mret (NRet 1)
      end
  end.

Definition rzmq_rawrecv : M next :=
  '(_, socket, _) ← socket_data 1;
  r ← sys (zmq_recv socket ZMQ_NOBLOCK);
  match r with
  | inl e => raise_zmq_error (Some "ratchet.zmqsocket.recv()"%string) e
  | inr msg =>
      lua_push (VStr (zmq_msg_data msg));;
      _ ← sys (zmq_msg_close msg);
      call_test "is_rcvmore";;
      mret (NRet 2)
  end.

Definition raw_fns (f : nat) : option (M next) :=
  if (f =? ZF_rawsend)%nat then Some rzmq_rawsend
  else if (f =? ZF_rawrecv)%nat then Some rzmq_rawrecv
  else None.

(** The body that [send] and [recv] share: test the socket, make the raw call on
    all arguments, or yield. [nargs] is the context of the continuation. *)
Definition rzmq_transfer (test raw : string) (yield : Z) (ctx : Z) : M next :=
  k ← gstack;
  let nargs := if ctx =? 0 then Z.of_nat (length k) else ctx in
  timed_out ← (if ctx =? 0 then mret false
               else v ← lua_value (nargs + 1);
                    if toboolean v then lua_settop (Z.to_nat nargs);; mret false else mret true);
  if timed_out : bool then mret (NRet 0)
  else
    call_test test;;
    v ← lua_value (-1);
    lua_pop 1;;
    if toboolean v then
      k ← gstack;
      getfield 1 raw;;
      lua_insert 1;;
      lua_call_fn raw_fns (length k) None;;
      r ← gstack;
      mret (NRet (length r))
    else
      lua_push (VLight yield);;
      lua_pushvalue 1;;
      mret (NYield 2 nargs).

Definition rzmq_send : Z -> M next := rzmq_transfer "is_writable" "rawsend" YIELD_WRITE.
Definition rzmq_recv : Z -> M next := rzmq_transfer "is_readable" "rawrecv" YIELD_READ.

(** The values 1 to [i] of the table at [idx], appended to a buffer; a value that
    is not a string adds nothing. *)
Fixpoint add_values (idx j : Z) (n : nat) (buff : string) : M string :=
  match n with
  | O => mret buff
  | S n' =>
      lua_rawgeti idx j;;
      v ← lua_value (-1);
      lua_pop 1;;
      add_values idx (j + 1) n' (buff ++ default EmptyString (tostring v))
  end.

(** [ctx] is 1 in the continuation and at the label [received]. *)
Definition rzmq_recv_all (ctx : Z) : M next :=
  let again :=
    getfield 1 "recv";;
    lua_pushvalue 1;;
    mret (NCall 1 2 1) in
  if ctx =? 0 then lua_settop 1;; lua_createtable;; again
  else
    v ← lua_value (-1);
    lua_pop 1;;
    t ← lua_value 2;
    match t with
    | Some (VTab l) =>
        t ← get_tab l;
        let i := rawlen t + 1 in
        lua_rawseti 2 i;;
        if toboolean v then again
        else
          buff ← add_values 2 1 (Z.to_nat i) EmptyString;
          lua_push (VStr buff);;
          mret (NRet 1)
    | _ => cub
    end.

(** The functions by address. *)
Definition zmq_code (f : nat) : option (Z -> M next) :=
  nth f [None; Some rzmq_send; Some rzmq_recv; Some rzmq_recv_all; Some (fun _ => rzmq_is_readable);
         Some (fun _ => rzmq_is_writable); Some (fun _ => rzmq_is_rcvmore); Some (fun _ => rzmq_rawsend);
         Some (fun _ => rzmq_rawrecv); Some (fun _ => rzmq_get_fd); Some (fun _ => rzmq_get_timeout);
         Some (fun _ => rzmq_set_timeout); Some (fun _ => rzmq_bind); Some (fun _ => rzmq_connect)] None.
End Zmq.
