(* ===== verification/ZmqSpec.v ===== *)
(** Sends and receives of a ZeroMQ socket along every run. *)

From stdpp Require Import prelude gmap strings.
From Stdlib Require Import ZArith Lia SpecFloat.
From S2P Require Import Prelude Double Lua Misc Error LuaC Zmq.
Local Open Scope Z_scope.

(** ** Evaluation of calls *)
Section Calls.
Context `{LuaConv} {o : ZmqOS}.
Implicit Types s : lstate zmem zos.

(** A socket object. *)
Definition is_zmq s (u : nat) (sock : Z) : Prop :=
  exists t uv, ls_uds s !! u = Some (UData (Some ZMQ_META) (MZmq sock t) uv).

Lemma is_zmq_os s u sock y : is_zmq s u sock -> is_zmq (set_ls_os s y) u sock.
Proof. done. Qed.

Lemma socket_dataE k s u sock t uv : ls_uds s !! u = Some (UData (Some ZMQ_META) (MZmq sock t) uv) ->
  socket_data 1 (VUd u :: k) s = CVal (u, sock, t) (VUd u :: k) s.
Proof.
  intros Hu. unfold socket_data, mem_of. rewrite bindE, (checkudataE 1 ZMQ_META _ s 0 u _ (pos_head _ _) eq_refl Hu eq_refl).
  rewrite !bindE, (get_udE _ _ _ _ Hu). done.
Qed.

Lemma methodE k s u sock name f : is_zmq s u sock -> method_in zmq_meths name = Some f ->
  lua_getfield zmq_methods 1 name (VUd u :: k) s = CVal tt (VUd u :: k ++ [VFun f]) s.
Proof.
  intros (t & uv & Hu) Hf. by rewrite (getfield_udE zmq_methods 1 name _ s 0 u _ ZMQ_META f (pos_head _ _) eq_refl Hu eq_refl Hf).
Qed.

Lemma call_testE k s u sock name f body : is_zmq s u sock -> method_in zmq_meths name = Some f -> test_fns f = Some body ->
  call_test name (VUd u :: k) s =
  match body [VUd u] s with
  | CVal (NRet n) k' s' =>
      if (length k' <? n)%nat then CUB else CVal tt (VUd u :: k ++ adjust (drop (length k' - n) k') 1) s'
  | CVal _ _ s' => CErr (VStr "attempt to yield across a C-call boundary") s'
  | CErr e s' => CErr e s'
  | CUB => CUB
  end.
Proof.
  intros Hu Hf Hb. unfold call_test. rewrite bindE, (methodE k s u sock name f Hu Hf), bindE.
  rewrite (pushvalueE 1 _ s 0 (VUd u) (pos_head _ _) eq_refl).
  change ((VUd u :: k ++ [VFun f]) ++ [VUd u]) with (VUd u :: (k ++ [VFun f]) ++ [VUd u]).
  rewrite <- app_assoc. exact (call_fnE test_fns (VUd u :: k) f body [VUd u] (Some 1%nat) s Hb).
Qed.
End Calls.

(** ** One attempt to send or to receive

    What a pass through [rzmq_send] or [rzmq_recv] does to libzmq: an error, a
    wait, or the results. *)
Section Attempts.
Context `{LuaConv} {o : ZmqOS}.
Implicit Types s : lstate zmem zos.

Definition zmq_error (func : string) (e : Z) : value :=
  VErr (RError (zmq_strerror e) (ratchet_error_push_code e) (Some func) None (Some e)).

Definition recv_once (sock : Z) (x : zos) : zos * (value + option (string * bool)) :=
  let '(x1, r1) := zmq_events sock x in
  match r1 with
  | inl e => (x1, inl (zmq_error "ratchet.zmqsocket.is_readable()" e))
  | inr events =>
      if Z.land events ZMQ_POLLIN =? 0 then (x1, inr None)
      else let '(x2, r2) := zmq_recv sock ZMQ_NOBLOCK x1 in
        match r2 with
        | inl e => (x2, inl (zmq_error "ratchet.zmqsocket.recv()" e))
        | inr msg =>
            let '(x4, r4) := zmq_rcvmore sock (zmq_msg_close msg x2).1 in
            match r4 with
            | inl e => (x4, inl (zmq_error "ratchet.zmqsocket.is_rcvmore()" e))
            | inr m => (x4, inr (Some (zmq_msg_data msg, negb (to_int m =? 0))))
            end
        end
  end.

(** [None] inside the results: there was no memory for the message. *)
Definition send_once (sock : Z) (data : string) (more : bool) (x : zos) : zos * (value + option (option unit)) :=
  let '(x1, r1) := zmq_events sock x in
  match r1 with
  | inl e => (x1, inl (zmq_error "ratchet.zmqsocket.is_writable()" e))
  | inr events =>
      if Z.land events ZMQ_POLLOUT =? 0 then (x1, inr None)
      else let '(x2, msg) := zmq_msg_of data x1 in
        match msg with
        | None => (x2, inr (Some None))
        | Some msg =>
            let '(x3, r3) := zmq_send sock msg (if more then 3 else 1) x2 in
            match r3 with
            | inl e => (x3, inl (zmq_error "ratchet.zmqsocket.send()" e))
            | inr _ => ((zmq_msg_close msg x3).1, inr (Some (Some tt)))
            end
        end
  end.

(** The test functions. *)
Lemma readableE s u sock : is_zmq s u sock ->
  rzmq_is_readable [VUd u] s =
  let '(x, r) := zmq_events sock (ls_os s) in
  match r with
  | inl e => CErr (zmq_error "ratchet.zmqsocket.is_readable()" e) (set_ls_os s x)
  | inr ev => CVal (NRet 1) [VUd u; VBool (negb (Z.land ev ZMQ_POLLIN =? 0))] (set_ls_os s x)
  end.
Proof.
  intros (t & uv & Hu). unfold rzmq_is_readable. rewrite bindE, (socket_dataE [] s u sock t uv Hu).
  rewrite bindE. unfold sys. destruct (zmq_events sock (ls_os s)) as [x [e|ev]]; reflexivity.
Qed.
Lemma writableE s u sock : is_zmq s u sock ->
  rzmq_is_writable [VUd u] s =
  let '(x, r) := zmq_events sock (ls_os s) in
  match r with
  | inl e => CErr (zmq_error "ratchet.zmqsocket.is_writable()" e) (set_ls_os s x)
  | inr ev => CVal (NRet 1) [VUd u; VBool (negb (Z.land ev ZMQ_POLLOUT =? 0))] (set_ls_os s x)
  end.
Proof.
  intros (t & uv & Hu). unfold rzmq_is_writable. rewrite bindE, (socket_dataE [] s u sock t uv Hu).
  rewrite bindE. unfold sys. destruct (zmq_events sock (ls_os s)) as [x [e|ev]]; reflexivity.
Qed.
Lemma rcvmoreE s u sock : is_zmq s u sock ->
  rzmq_is_rcvmore [VUd u] s =
  let '(x, r) := zmq_rcvmore sock (ls_os s) in
  match r with
  | inl e => CErr (zmq_error "ratchet.zmqsocket.is_rcvmore()" e) (set_ls_os s x)
  | inr m => CVal (NRet 1) [VUd u; VBool (negb (to_int m =? 0))] (set_ls_os s x)
  end.
Proof.
  intros (t & uv & Hu). unfold rzmq_is_rcvmore. rewrite bindE, (socket_dataE [] s u sock t uv Hu).
  rewrite bindE. unfold sys. destruct (zmq_rcvmore sock (ls_os s)) as [x [e|ev]]; reflexivity.
Qed.

(** What the raw functions do. *)
Lemma rawrecvE s u sock k : is_zmq s u sock ->
  rzmq_rawrecv (VUd u :: k) s =
  let '(x2, r2) := zmq_recv sock ZMQ_NOBLOCK (ls_os s) in
  match r2 with
  | inl e => CErr (zmq_error "ratchet.zmqsocket.recv()" e) (set_ls_os s x2)
  | inr msg =>
      let '(x4, r4) := zmq_rcvmore sock (zmq_msg_close msg x2).1 in
      match r4 with
      | inl e => CErr (zmq_error "ratchet.zmqsocket.is_rcvmore()" e) (set_ls_os s x4)
      | inr m => CVal (NRet 2) (VUd u :: k ++ [VStr (zmq_msg_data msg); VBool (negb (to_int m =? 0))]) (set_ls_os s x4)
      end
  end.
Proof.
  intros Hz. pose proof Hz as (t & uv & Hu). unfold rzmq_rawrecv. rewrite bindE, (socket_dataE k s u sock t uv Hu), bindE.
  unfold sys at 1. destruct (zmq_recv sock ZMQ_NOBLOCK (ls_os s)) as [x2 [e|msg]]; [reflexivity|].
  rewrite bindE. change (lua_push ?v ?k ?s) with (CVal tt (k ++ [v]) s). cbv beta iota. rewrite bindE. unfold sys at 1.
  cbn [ls_os set_ls_os]. destruct (zmq_msg_close msg x2) as [x3 []]. cbv beta iota. cbn [fst]. rewrite bindE.
  change ((VUd u :: k) ++ ?l) with (VUd u :: k ++ l).
  rewrite (call_testE _ _ u sock "is_rcvmore" ZF_is_rcvmore rzmq_is_rcvmore) by (done || by apply is_zmq_os).
  rewrite (rcvmoreE _ u sock) by done. cbn [ls_os set_ls_os].
  destruct (zmq_rcvmore sock x3) as [x4 [e|m]]; [reflexivity|]. cbn. by rewrite <- app_assoc.
Qed.
Lemma rawsendE s u sock dv data k : is_zmq s u sock -> tostring (Some dv) = Some data ->
  rzmq_rawsend (VUd u :: dv :: k) s =
  let '(x2, msg) := zmq_msg_of data (ls_os s) in
  match msg with
  | None => CUB
  | Some msg =>
      let '(x3, r3) := zmq_send sock msg (if toboolean (k !! 0%nat) then 3 else 1) x2 in
      match r3 with
      | inl e => CErr (zmq_error "ratchet.zmqsocket.send()" e) (set_ls_os s x3)
      | inr _ => CVal (NRet 1) (VUd u :: dv :: k ++ [VBool true]) (set_ls_os s (zmq_msg_close msg x3).1)
      end
  end.
Proof.
  intros (t & uv & Hu) Hd. unfold rzmq_rawsend. rewrite bindE, (socket_dataE _ s u sock t uv Hu), bindE.
  assert (luaL_checklstring 2 (VUd u :: dv :: k) s = CVal data (VUd u :: dv :: k) s) as ->.
  { unfold luaL_checklstring. rewrite bindE, (valueE 2 _ s 1); [change ((VUd u :: dv :: k) !! 1%nat) with (Some dv); cbv beta iota; by rewrite Hd|].
    unfold pos. cbn [length]. by rewrite (proj2 (Z.leb_le _ _)) by lia. }
  rewrite bindE. assert (lua_value 3 (VUd u :: dv :: k) s = CVal (k !! 0%nat) (VUd u :: dv :: k) s) as ->.
  { destruct k; [reflexivity|]. rewrite (valueE 3 _ s 2); [done|]. unfold pos. cbn [length]. by rewrite (proj2 (Z.leb_le _ _)) by lia. }
  rewrite bindE. unfold sys at 1. destruct (zmq_msg_of data (ls_os s)) as [x2 [msg|]]; [|done].
  replace (Z.lor ZMQ_NOBLOCK (if toboolean (k !! 0%nat) then ZMQ_SNDMORE else 0)) with (if toboolean (k !! 0%nat) then 3 else 1)
    by by destruct (toboolean _).
  rewrite bindE. unfold sys at 1. cbn [ls_os set_ls_os].
  destruct (zmq_send sock msg _ x2) as [x3 [e|[]]]; [reflexivity|]. rewrite bindE. unfold sys. cbn [ls_os set_ls_os].
  by destruct (zmq_msg_close msg x3) as [x4 []].
Qed.

(** A pass through the body, on the arguments after the context was handled. *)
Definition pass (test raw : string) (yield : Z) (nargs : Z) : C zmem zos next :=
  call_test test;;
  v ← lua_value (-1);
  lua_pop 1;;
  if toboolean v then
    k ← gstack;
    lua_getfield zmq_methods 1 raw;;
    lua_insert 1;;
    lua_call_fn raw_fns (length k) None;;
    r ← gstack;
    mret (NRet (length r))
  else
    lua_push (VLight yield);;
    lua_pushvalue 1;;
    mret (NYield 2 nargs).

Lemma transfer_fresh test raw yield k s : rzmq_transfer test raw yield 0 k s = pass test raw yield (Z.of_nat (length k)) k s.
Proof. reflexivity. Qed.
Lemma transfer_again test raw yield k b s : k <> [] ->
  rzmq_transfer test raw yield (Z.of_nat (length k)) (k ++ [VBool b]) s =
  if b then pass test raw yield (Z.of_nat (length k)) k s else CVal (NRet 0) (k ++ [VBool false]) s.
Proof.
  intros Hk. assert (0 < Z.of_nat (length k)) as Hn by (destruct k; [done|cbn; lia]).
  unfold rzmq_transfer. rewrite bindE. change (gstack ?k ?s) with (CVal k k s). cbv beta iota.
  rewrite (proj2 (Z.eqb_neq (Z.of_nat (length k)) 0)) by lia. rewrite !bindE.
  rewrite (valueE _ _ s (length k)). 2:{ unfold pos. rewrite length_app. cbn [length].
    rewrite (proj2 (Z.ltb_lt _ _)), (proj2 (Z.leb_le _ _)) by lia. cbn. f_equal. lia. }
  rewrite lookup_app_r, Nat.sub_diag by lia. cbn [lookup list_lookup].
  destruct b; cbn [toboolean]; [|reflexivity]. rewrite bindE. unfold lua_settop. rewrite Nat2Z.id.
  replace (Stk.settop VNil (k ++ [VBool true]) (length k)) with k; [reflexivity|].
  unfold Stk.settop. rewrite take_app_length, length_app. cbn [length].
  replace (length k - (length k + 1))%nat with 0%nat by lia. by rewrite app_nil_r.
Qed.

(** The head of a pass: the test, and the branch it selects. *)
Lemma pass_test test f body raw yield n u sock k s x b : is_zmq s u sock ->
  method_in zmq_meths test = Some f -> test_fns f = Some body ->
  body [VUd u] s = CVal (NRet 1) [VUd u; VBool b] (set_ls_os s x) ->
  pass test raw yield n (VUd u :: k) s =
  if b then
    (lua_getfield zmq_methods 1 raw;; lua_insert 1;; lua_call_fn raw_fns (S (length k)) None;; r ← gstack; mret (NRet (length r)))
      (VUd u :: k) (set_ls_os s x)
  else CVal (NYield 2 n) (VUd u :: k ++ [VLight yield; VUd u]) (set_ls_os s x).
Proof.
  intros Hz Hf Ht Hb. unfold pass. rewrite bindE, (call_testE k s u sock test f body Hz Hf Ht), Hb. cbn [length Nat.ltb Nat.leb Nat.sub drop].
  change (adjust [VBool b] 1) with [VBool b]. rewrite bindE.
  change (VUd u :: k ++ [VBool b]) with ((VUd u :: k) ++ [VBool b]).
  rewrite (valueE (-1) _ _ (length (VUd u :: k))). 2:{ unfold pos. rewrite length_app. cbn [length].
    rewrite (proj2 (Z.ltb_ge 0 (-1))) by lia. cbn. rewrite (proj2 (Z.leb_le _ _)) by lia. f_equal. lia. }
  rewrite lookup_app_r, Nat.sub_diag by lia. cbn [lookup list_lookup]. rewrite bindE.
  rewrite popE by (rewrite length_app; cbn [length]; apply Nat.leb_le; lia).
  rewrite length_app. replace (length (VUd u :: k) + length [VBool b] - 1)%nat with (length (VUd u :: k)) by (cbn [length]; lia).
  rewrite take_app_length. destruct b; cbn [toboolean]; [reflexivity|].
  rewrite bindE. change (lua_push ?v ?k ?s) with (CVal tt (k ++ [v]) s). cbv beta iota. rewrite bindE.
  change ((VUd u :: k) ++ ?l) with (VUd u :: k ++ l). rewrite (pushvalueE 1 _ _ 0 (VUd u) (pos_head _ _) eq_refl). cbn. by rewrite <- app_assoc.
Qed.

(** The raw call on all arguments: its results are the results of the function. *)
Lemma raw_callE raw f body u sock k s : is_zmq s u sock -> method_in zmq_meths raw = Some f -> raw_fns f = Some body ->
  (lua_getfield zmq_methods 1 raw;; lua_insert 1;; lua_call_fn raw_fns (S (length k)) None;; r ← gstack; mret (NRet (length r)))
    (VUd u :: k) s =
  match body (VUd u :: k) s with
  | CVal (NRet n) k' s' =>
      if (length k' <? n)%nat then CUB else CVal (NRet (length (drop (length k' - n) k'))) (drop (length k' - n) k') s'
  | CVal _ _ s' => CErr (VStr "attempt to yield across a C-call boundary") s'
  | CErr e s' => CErr e s'
  | CUB => CUB
  end.
Proof.
  intros Hz Hf Hb. rewrite bindE, (methodE k s u sock raw f Hz Hf), bindE.
  rewrite (insertE 1 _ s 0 (VFun f) (pos_head _ _)) by exact (last_snoc (VFun f) (VUd u :: k)).
  cbn [take app drop]. rewrite bindE. replace (length (VUd u :: k ++ [VFun f]) - 1)%nat with (length (VUd u :: k))
    by (cbn [length]; rewrite length_app; cbn [length]; lia).
  change (VUd u :: k ++ [VFun f]) with ((VUd u :: k) ++ [VFun f]). rewrite take_app_length.
  rewrite drop_0. cbn [app]. change (lua_call_fn raw_fns (S (length k)) None ?l s) with (lua_call_fn raw_fns (length (VUd u :: k)) None ([] ++ l) s).
  rewrite (call_fnE raw_fns [] f body (VUd u :: k) None s Hb).
  destruct (body (VUd u :: k) s) as [[n| | |] k' s'|e s'|]; try reflexivity. by destruct (length k' <? n)%nat.
Qed.

(** A pass of [recv] is an attempt. *)
Lemma recv_passE s u sock n k : is_zmq s u sock ->
  pass "is_readable" "rawrecv" YIELD_READ n (VUd u :: k) s =
  let '(x, r) := recv_once sock (ls_os s) in
  match r with
  | inl e => CErr e (set_ls_os s x)
  | inr None => CVal (NYield 2 n) (VUd u :: k ++ [VLight YIELD_READ; VUd u]) (set_ls_os s x)
  | inr (Some (d, more)) => CVal (NRet 2) [VStr d; VBool more] (set_ls_os s x)
  end.
Proof.
  intros Hz. unfold recv_once. pose proof (readableE s u sock Hz) as Hr.
  destruct (zmq_events sock (ls_os s)) as [x1 [e|ev]].
  { unfold pass. by rewrite bindE, (call_testE k s u sock "is_readable" ZF_is_readable rzmq_is_readable Hz eq_refl eq_refl), Hr. }
  rewrite (pass_test "is_readable" ZF_is_readable rzmq_is_readable _ _ _ u sock k s x1 _ Hz eq_refl eq_refl Hr).
  destruct (Z.land ev ZMQ_POLLIN =? 0); cbn [negb]; [reflexivity|].
  rewrite (raw_callE "rawrecv" ZF_rawrecv rzmq_rawrecv u sock) by done. rewrite (rawrecvE _ u sock) by done. cbn [ls_os set_ls_os].
  destruct (zmq_recv sock ZMQ_NOBLOCK x1) as [x2 [e|msg]]; [reflexivity|].
  destruct (zmq_rcvmore sock (zmq_msg_close msg x2).1) as [x4 [e|m]]; [reflexivity|].
  rewrite app_comm_cons, length_app. cbn [length]. rewrite (proj2 (Nat.ltb_ge _ _)) by lia.
  replace (S (length k) + 2 - 2)%nat with (length (VUd u :: k)) by (cbn [length]; lia). by rewrite drop_app_length.
Qed.

(** A pass of [send] is an attempt. *)
Lemma send_passE s u sock n dv data k : is_zmq s u sock -> tostring (Some dv) = Some data ->
  pass "is_writable" "rawsend" YIELD_WRITE n (VUd u :: dv :: k) s =
  let '(x, r) := send_once sock data (toboolean (k !! 0%nat)) (ls_os s) in
  match r with
  | inl e => CErr e (set_ls_os s x)
  | inr None => CVal (NYield 2 n) (VUd u :: dv :: k ++ [VLight YIELD_WRITE; VUd u]) (set_ls_os s x)
  | inr (Some None) => CUB
  | inr (Some (Some _)) => CVal (NRet 1) [VBool true] (set_ls_os s x)
  end.
Proof.
  intros Hz Hd. unfold send_once. pose proof (writableE s u sock Hz) as Hr.
  destruct (zmq_events sock (ls_os s)) as [x1 [e|ev]].
  { unfold pass. by rewrite bindE, (call_testE _ s u sock "is_writable" ZF_is_writable rzmq_is_writable Hz eq_refl eq_refl), Hr. }
  rewrite (pass_test "is_writable" ZF_is_writable rzmq_is_writable _ _ _ u sock _ s x1 _ Hz eq_refl eq_refl Hr).
  destruct (Z.land ev ZMQ_POLLOUT =? 0); cbn [negb]; [reflexivity|].
  rewrite (raw_callE "rawsend" ZF_rawsend rzmq_rawsend u sock) by done. rewrite (rawsendE _ u sock dv data) by done. cbn [ls_os set_ls_os].
  destruct (zmq_msg_of data x1) as [x2 [msg|]]; [|reflexivity].
  destruct (zmq_send sock msg _ x2) as [x3 [e|[]]]; [reflexivity|].
  rewrite !app_comm_cons, length_app. cbn [length]. rewrite (proj2 (Nat.ltb_ge _ _)) by lia.
  replace (S (S (length k)) + 1 - 1)%nat with (length (VUd u :: dv :: k)) by (cbn [length]; lia). by rewrite drop_app_length.
Qed.
End Attempts.

(** ** The table of message parts

    The table that [recv_all] fills, by the parts from the last to the first, and
    the string that its buffer makes of it. *)
Definition str_concat (l : list string) : string := fold_right String.append ""%string l.
Lemma str_concat_snoc l d : str_concat (l ++ [d]) = (str_concat l ++ d)%string.
Proof.
  induction l as [|x l IH]; [apply append_nil_r|]. change (str_concat ((x :: l) ++ [d])) with (x ++ str_concat (l ++ [d]))%string.
  by rewrite IH, <- append_assoc.
Qed.

Fixpoint part_arr (rparts : list string) : gmap Z value :=
  match rparts with [] => ∅ | d :: ps => <[Z.of_nat (S (length ps)) := VStr d]> (part_arr ps) end.
Abbreviation part_tab rparts := (Tab ∅ (part_arr rparts)).

Lemma part_arr_above ps i : Z.of_nat (length ps) < i -> part_arr ps !! i = None.
Proof.
  induction ps as [|d ps IH]; intros Hi; [apply lookup_empty|]. cbn [part_arr length] in *.
  rewrite lookup_insert_ne by lia. apply IH. lia.
Qed.
Lemma size_part_arr ps : size (part_arr ps) = length ps.
Proof.
  induction ps as [|d ps IH]; [apply map_size_empty|]. cbn [part_arr length].
  rewrite map_size_insert_None by (apply part_arr_above; lia). by rewrite IH.
Qed.
Lemma part_arr_in ps i : 1 <= i <= Z.of_nat (length ps) -> exists d, part_arr ps !! i = Some (VStr d).
Proof.
  induction ps as [|d ps IH]; cbn [part_arr length]; intros Hi; [lia|].
  destruct (decide (i = Z.of_nat (S (length ps)))) as [->|]; [rewrite lookup_insert_eq; eauto|].
  rewrite lookup_insert_ne by lia. apply IH. lia.
Qed.

Lemma border_parts ps n fuel : 0 <= n <= Z.of_nat (length ps) -> Z.of_nat (length ps) <= n + Z.of_nat fuel ->
  border_from (part_tab ps) n fuel = Z.of_nat (length ps).
Proof.
  revert n. induction fuel as [|fuel IH]; intros n Hn Hf; cbn [border_from]; [lia|]. unfold rawget. cbn [t_arr].
  destruct (decide (n = Z.of_nat (length ps))) as [->|]; [by rewrite part_arr_above by lia|].
  destruct (part_arr_in ps (n + 1)) as [d ->]; [lia|]. cbn. apply IH; lia.
Qed.
Lemma rawlen_parts ps : rawlen (part_tab ps) = Z.of_nat (length ps).
Proof. unfold rawlen. apply border_parts; cbn; [lia|]. rewrite size_part_arr. lia. Qed.

Lemma rawset_part ps d : rawset (part_tab ps) (rawlen (part_tab ps) + 1) (VStr d) = part_tab (d :: ps).
Proof. rewrite rawlen_parts. unfold rawset. cbn [t_fields t_arr part_arr]. do 2 f_equal. lia. Qed.
Lemma rawset_nil ps : rawset (part_tab ps) (rawlen (part_tab ps) + 1) VNil = part_tab ps.
Proof. rewrite rawlen_parts. unfold rawset. cbn [t_fields t_arr]. f_equal. apply delete_id, part_arr_above. lia. Qed.

Section Buffers.
Context `{LuaConv}.
Fixpoint values_of (t : tab) (j : Z) (n : nat) (buff : string) : string :=
  match n with
  | O => buff
  | S n' => values_of t (j + 1) n' (buff ++ default EmptyString (tostring (Some (rawget t j))))
  end.

Lemma values_of_S t n : forall j b, values_of t j (S n) b =
  (values_of t j n b ++ default EmptyString (tostring (Some (rawget t (j + Z.of_nat n)))))%string.
Proof.
  induction n as [|n IH]; intros j b; [cbn; by rewrite Z.add_0_r|].
  change (values_of t j (S (S n)) b) with (values_of t (j + 1) (S n) (b ++ default EmptyString (tostring (Some (rawget t j))))).
  rewrite IH. cbn [values_of]. do 5 f_equal. lia.
Qed.
Lemma values_of_ext t t' n : forall j b, (forall i, j <= i < j + Z.of_nat n -> rawget t i = rawget t' i) ->
  values_of t j n b = values_of t' j n b.
Proof.
  induction n as [|n IH]; intros j b Ht; [done|]. cbn. rewrite Ht by lia. apply IH. intros. apply Ht. lia.
Qed.
Lemma values_of_parts ps : values_of (part_tab ps) 1 (length ps) "" = str_concat (rev ps).
Proof.
  induction ps as [|d ps IH]; [done|]. cbn [length rev]. rewrite str_concat_snoc, <- IH, values_of_S. f_equal.
  - apply values_of_ext. intros i Hi. unfold rawget. cbn [t_arr part_arr]. by rewrite lookup_insert_ne by lia.
  - unfold rawget. cbn [t_arr part_arr]. replace (1 + Z.of_nat (length ps)) with (Z.of_nat (S (length ps))) by lia.
    by rewrite lookup_insert_eq.
Qed.
(** With the nil of a timeout after the parts. *)
Lemma values_of_parts_nil ps : values_of (part_tab ps) 1 (S (length ps)) "" = str_concat (rev ps).
Proof.
  rewrite values_of_S, values_of_parts. unfold rawget. cbn [t_arr]. rewrite part_arr_above by lia. apply append_nil_r.
Qed.

Context {o : ZmqOS}.
Lemma add_valuesE n : forall j b v l t (s : lstate zmem zos), ls_tabs s !! l = Some t ->
  add_values 2 j n b [v; VTab l] s = CVal (values_of t j n b) [v; VTab l] s.
Proof.
  induction n as [|n IH]; intros j b v l t s Ht; [done|]. cbn [add_values values_of].
  rewrite bindE, (rawgetiE 2 j _ s 1 l t); [|done..]. cbn [app]. rewrite bindE, (valueE (-1) _ s 2) by done.
  rewrite bindE, popE by done. cbn. by apply IH.
Qed.

(** The continuation of [recv_all]: the value is stored after the parts. *)
Lemma store_partE u sock l rps v vmore t (s : lstate zmem zos) : is_zmq s u sock -> ls_tabs s !! l = Some (part_tab rps) ->
  rawset (part_tab rps) (rawlen (part_tab rps) + 1) v = t ->
  rzmq_recv_all 1 [VUd u; VTab l; v; vmore] s =
  let s' := set_ls_tabs s (<[l := t]> (ls_tabs s)) in
  if toboolean (Some vmore) then CVal (NCall 1 2 1) [VUd u; VTab l; VFun ZF_recv; VUd u] s'
  else CVal (NRet 1) [VUd u; VTab l; VStr (values_of t 1 (S (length rps)) "")] s'.
Proof.
  intros (tm & uv & Hu) Ht <-. unfold rzmq_recv_all. cbn [Z.eqb]. lrun.
  match goal with |- context [if ?b then _ else _] => destruct b end; lrun; [done|].
  rewrite (add_valuesE _ _ _ _ _ (rawset (part_tab rps) (rawlen (part_tab rps) + 1) v)) by lk. lrun.
  rewrite rawlen_parts. do 5 f_equal. by rewrite Z2Nat.inj_add, Nat2Z.id, Nat.add_comm by lia.
Qed.

(** The first pass of [recv_all] makes the table and calls [recv]. *)
Lemma recv_all_startE u sock (s : lstate zmem zos) : is_zmq s u sock ->
  rzmq_recv_all 0 [VUd u] s = CVal (NCall 1 2 1) [VUd u; VTab (ls_next s); VFun ZF_recv; VUd u]
    (set_ls_next (set_ls_tabs s (<[ls_next s := part_tab []]> (ls_tabs s))) (S (ls_next s))).
Proof. intros (t & uv & Hu). unfold rzmq_recv_all. cbn [Z.eqb]. lrun. done. Qed.
End Buffers.

(** ** The record of a run

    libzmq with a record of what was sent and received, as it is seen at the
    interface. *)
Inductive zevent :=
  | ZSent (sock : Z) (data : string) (more : bool)
  | ZGot (sock : Z) (data : string)
  | ZMore (sock : Z) (more : bool).

Definition zkept {A} (o : ZmqOS) (f : @zos o -> @zos o * A) (ev : A -> list zevent)
    (s : @zos o * list zevent) : (@zos o * list zevent) * A :=
  let '(x, a) := f s.1 in ((x, s.2 ++ ev a), a).
Definition z_none {A} (_ : A) : list zevent := [].
Definition z_more (sock : Z) (r : Z + Z) : list zevent :=
  match r with inr m => [ZMore sock (negb (to_int m =? 0))] | inl _ => [] end.
Definition z_send {msg} (data : msg -> string) (sock : Z) (m : msg) (flags : Z) (r : Z + unit) : list zevent :=
  match r with inr _ => [ZSent sock (data m) (Z.testbit flags 1)] | inl _ => [] end.
Definition z_recv {msg} (data : msg -> string) (sock : Z) (r : Z + msg) : list zevent :=
  match r with inr m => [ZGot sock (data m)] | inl _ => [] end.

Definition zlogged (o : ZmqOS) : ZmqOS := {|
  zos := @zos o * list zevent;
  zmsg := @zmsg o;
  zmq_has_upstream := zmq_has_upstream;
  zmq_init n := zkept o (zmq_init n) z_none;
  zmq_term c := zkept o (zmq_term c) z_none;
  zmq_socket c t := zkept o (zmq_socket c t) z_none;
  zmq_close k := zkept o (zmq_close k) z_none;
  zmq_bind k e := zkept o (zmq_bind k e) z_none;
  zmq_connect k e := zkept o (zmq_connect k e) z_none;
  zmq_fd k := zkept o (zmq_fd k) z_none;
  zmq_events k := zkept o (zmq_events k) z_none;
  zmq_rcvmore k := zkept o (zmq_rcvmore k) (z_more k);
  zmq_msg_of d := zkept o (zmq_msg_of d) z_none;
  zmq_msg_data := zmq_msg_data;
  zmq_msg_close m := zkept o (zmq_msg_close m) z_none;
  zmq_send k m fl := zkept o (zmq_send k m fl) (z_send zmq_msg_data k m fl);
  zmq_recv k fl := zkept o (zmq_recv k fl) (z_recv zmq_msg_data k);
  zmq_strerror := zmq_strerror |}.

(** A message holds the data that was copied into it. *)
Class MsgOk (o : ZmqOS) : Prop := {
  msg_ok d x x' m : zmq_msg_of d x = (x', Some m) -> zmq_msg_data m = d;
}.
(** [zmq_msg_init_size] may fail for [data]. *)
Definition msg_fails (o : ZmqOS) (data : string) : Prop := exists x x', zmq_msg_of data x = (x', None).

Section Runs.
Context `{LuaConv} (o : ZmqOS).
#[local] Instance zlos : ZmqOS := zlogged o.
Abbreviation St := (lstate zmem (@zos zlos)).
Implicit Types s : St.
Definition record (s : St) : list zevent := @snd (@zos o) (list zevent) (ls_os s).

Lemma zkeptE {A} (f : @zos o -> @zos o * A) ev (x : @zos o) (l : list zevent) :
  zkept o f ev (x, l) = let '(x', a) := f x in ((x', l ++ ev a), a).
Proof. done. Qed.

(** What an attempt to receive adds to the record. *)
Definition recv_adds (sock : Z) (r : value + option (string * bool)) (l : list zevent) : Prop :=
  match r with
  | inl _ => l = [] \/ exists d, l = [ZGot sock d]
  | inr None => l = []
  | inr (Some (d, more)) => l = [ZGot sock d; ZMore sock more]
  end.
Lemma recv_once_record sock x l : exists x' r l', @recv_once zlos sock (x, l) = ((x', l ++ l'), r) /\ recv_adds sock r l'.
Proof.
  unfold recv_once. cbn [zlos zlogged zmq_events zmq_recv zmq_rcvmore zmq_msg_close zmq_msg_data]. rewrite zkeptE.
  destruct (zmq_events sock x) as [x1 [e|ev]]; [exists (x1 : @zos o), (inl (zmq_error "ratchet.zmqsocket.is_readable()" e)), []; split; [done|by left]|].
  destruct (Z.land ev ZMQ_POLLIN =? 0); [by eexists _, _, []|]. rewrite zkeptE.
  destruct (zmq_recv sock ZMQ_NOBLOCK x1) as [x2 [e|m]]; unfold z_none; rewrite app_nil_r.
  { eexists _, _, []. split; [by rewrite app_nil_r|by left]. }
  rewrite zkeptE. destruct (zmq_msg_close m x2) as [x3 []]. cbn [fst]. rewrite zkeptE, app_nil_r.
  destruct (zmq_rcvmore sock x3) as [x4 [e|n]].
  - eexists _, _, [_]. split; [cbn; by rewrite app_nil_r|right; by eexists].
  - eexists _, _, [_; _]. split; [cbn; by rewrite <- app_assoc|done].
Qed.

(** What an attempt to send adds. *)
Definition send_adds (sock : Z) (data : string) (more : bool) (r : value + option (option unit)) (l : list zevent) : Prop :=
  match r with
  | inl _ | inr None => l = []
  | inr (Some None) => l = [] /\ msg_fails o data
  | inr (Some (Some _)) => l = [ZSent sock data more]
  end.
Lemma send_once_record (Hok : MsgOk o) sock data more x l :
  exists x' r l', @send_once zlos sock data more (x, l) = ((x', l ++ l'), r) /\ send_adds sock data more r l'.
Proof.
  unfold send_once. cbn [zlos zlogged zmq_events zmq_send zmq_msg_of zmq_msg_close zmq_msg_data]. rewrite zkeptE.
  destruct (zmq_events sock x) as [x1 [e|ev]]; [by eexists _, _, []|].
  destruct (Z.land ev ZMQ_POLLOUT =? 0); [by eexists _, _, []|]. rewrite zkeptE.
  destruct (zmq_msg_of data x1) as [x2 [m|]] eqn:Em; unfold z_none; rewrite !app_nil_r.
  2: { eexists _, _, []. split; [by rewrite app_nil_r|]. split; [done|]. by exists x1, x2. }
  apply msg_ok in Em as Hm. rewrite zkeptE.
  destruct (zmq_send sock m _ x2) as [x3 [e|[]]]; [by eexists _, _, []|].
  rewrite zkeptE. destruct (zmq_msg_close m x3) as [x4 []]. eexists _, _, [_]. split; [cbn; by rewrite app_nil_r|].
  cbn. rewrite Hm. by destruct more.
Qed.

(** The value with which the scheduler resumes a thread that waits for an event:
    false after a timeout, which [timeouts] allows. *)
Definition event_bool (timeouts : bool) (_ : St) (_ rs : list value) : Prop :=
  exists b, rs = [VBool b] /\ (b = false -> timeouts = true).
(** What the other threads leave alone: the object, its socket and the table at
    [l], which is local to the call. *)
Definition spares (u : nat) (sock : Z) (l : nat) (s s' : St) : Prop :=
  (is_zmq s u sock -> is_zmq s' u sock) /\ ls_tabs s' !! l = ls_tabs s !! l /\ record s' = record s.

Abbreviation zstep := (step (@zmq_code _ zlos)).
Ltac zbody f g := unfold step; cbn [c_fun c_ctx c_stk c_frames c_st]; change (zmq_code f) with (Some g); cbv beta iota.

(** *** [recv_all] *)
Section RecvAll.
Context (u : nat) (sock : Z) (l : nat) (t0 : list zevent) (timeouts : bool).

(** The record of parts that more parts follow. *)
Definition parts_record (ps : list string) : list zevent := concat ((fun d => [ZGot sock d; ZMore sock true]) <$> ps).
Lemma parts_record_snoc ps d : parts_record (ps ++ [d]) = parts_record ps ++ [ZGot sock d; ZMore sock true].
Proof. unfold parts_record. rewrite fmap_app, concat_app. cbn. done. Qed.

(** The socket with the parts that were stored, from the last to the first. *)
Definition holding s (rps : list string) : Prop := is_zmq s u sock /\ ls_tabs s !! l = Some (part_tab rps).
Abbreviation frame_all := (Frame ZF_recv_all 1 [VUd u; VTab l] 2).

Inductive collecting : conf zmem (@zos zlos) -> Prop :=
  | cl_start s : is_zmq s u sock -> ls_next s = l -> record s = t0 -> collecting (start ZF_recv_all [VUd u] s)
  | cl_recv s rps : holding s rps -> record s = t0 ++ parts_record (rev rps) ->
      collecting (Conf ZF_recv 0 [VUd u] [frame_all] s)
  | cl_resumed s rps b : holding s rps -> record s = t0 ++ parts_record (rev rps) -> (b = false -> timeouts = true) ->
      collecting (Conf ZF_recv 1 [VUd u; VBool b] [frame_all] s)
  | cl_got s rps d more : holding s rps -> record s = t0 ++ parts_record (rev rps) ++ [ZGot sock d; ZMore sock more] ->
      collecting (Conf ZF_recv_all 1 [VUd u; VTab l; VStr d; VBool more] [] s)
  | cl_timeout s rps : holding s rps -> record s = t0 ++ parts_record (rev rps) -> timeouts = true ->
      collecting (Conf ZF_recv_all 1 [VUd u; VTab l; VNil; VNil] [] s).

(** The result: the parts up to the last one, or up to a timeout. *)
Definition collected (ps : list string) s : Prop :=
  (exists qs d, ps = qs ++ [d] /\ record s = t0 ++ parts_record qs ++ [ZGot sock d; ZMore sock false]) \/
  (timeouts = true /\ record s = t0 ++ parts_record ps).

Definition collect_good (a : after zmem (@zos zlos)) : Prop :=
  match a with
  | Running c => collecting c
  | Suspended vs w s => vs = [VLight YIELD_READ; VUd u] /\ w = Susp ZF_recv 1 [VUd u] [frame_all] /\
      exists rps, holding s rps /\ record s = t0 ++ parts_record (rev rps)
  | Finished vs s => exists ps, vs = [VStr (str_concat ps)] /\ collected ps s
  | Raised _ s => exists ps g, record s = t0 ++ parts_record ps ++ g /\ (length g <= 1)%nat
  | Broken => False
  end.

Lemma holding_os s y rps : holding s rps -> holding (set_ls_os s y) rps.
Proof. done. Qed.

(** A pass of [recv] on the object. *)
Lemma recv_pass_good s rps : holding s rps -> record s = t0 ++ parts_record (rev rps) ->
  collect_good
    match @pass _ zlos "is_readable" "rawrecv" YIELD_READ 1 [VUd u] s with
    | CUB => Broken
    | CErr e s => Raised e s
    | CVal n k s =>
        match n with
        | NRet n =>
            if (length k <? n)%nat then Broken
            else Running (Conf ZF_recv_all 1 ([VUd u; VTab l] ++ adjust (top k n) 2) [] s)
        | NYield n ctx =>
            if (length k <? n)%nat then Broken else Suspended (top k n) (Susp ZF_recv ctx (below k n) [frame_all]) s
        | _ => Broken
        end
    end.
Proof.
  intros Hh Hr. rewrite (recv_passE s u sock) by apply Hh. unfold record in Hr. destruct (ls_os s) as [x lg] eqn:Eos. cbn in Hr. subst lg.
  destruct (recv_once_record sock x (t0 ++ parts_record (rev rps))) as (x' & r & lg' & -> & Hadd).
  destruct r as [e|[[d more]|]]; cbn [recv_adds] in Hadd.
  - exists (rev rps), lg'. split; [unfold record; cbn; by rewrite app_assoc|]. destruct Hadd as [->|[d ->]]; cbn; lia.
  - subst lg'. cbn. apply (cl_got _ rps); [done|]. unfold record. cbn. by rewrite app_assoc.
  - subst lg'. cbn. split; [done|split; [done|]]. exists rps. split; [done|]. unfold record. cbn. by rewrite app_nil_r.
Qed.

Lemma collect_start s : is_zmq s u sock -> ls_next s = l -> record s = t0 -> collect_good (zstep (start ZF_recv_all [VUd u] s)).
Proof.
  intros Hz Hl Hr. unfold start. zbody ZF_recv_all (@rzmq_recv_all _ zlos). rewrite (recv_all_startE u sock s Hz).
  rewrite !Hl. cbn. apply (cl_recv _ []); [|cbn; by rewrite app_nil_r]. split; [done|]. cbn. by rewrite lookup_insert_eq.
Qed.

Lemma collect_step c : collecting c -> collect_good (zstep c).
Proof.
  destruct 1 as [s Hz Hl Hr|s rps Hh Hr|s rps b Hh Hr Hb|s rps d more Hh Hr|s rps Hh Hr Ht]; [by apply collect_start|..].
  - zbody ZF_recv (@rzmq_recv _ zlos). unfold rzmq_recv. rewrite transfer_fresh. pose proof (recv_pass_good s rps Hh Hr) as Hp.
    by destruct (pass _ _ _ _ _ _) as [[] ? ?| |].
  - zbody ZF_recv (@rzmq_recv _ zlos). unfold rzmq_recv. rewrite (transfer_again _ _ _ [VUd u] b s) by done.
    destruct b; [|cbn; by apply (cl_timeout _ rps); auto].
    pose proof (recv_pass_good s rps Hh Hr) as Hp. by destruct (pass _ _ _ _ _ _) as [[] ? ?| |].
  - zbody ZF_recv_all (@rzmq_recv_all _ zlos). rewrite (store_partE u sock l rps _ _ _ s (proj1 Hh) (proj2 Hh) (rawset_part rps d)). destruct more; cbn.
    + apply (cl_recv _ (d :: rps)); [split; [apply Hh|cbn; by rewrite lookup_insert_eq]|]. cbn [rev].
      by rewrite parts_record_snoc.
    + exists (rev (d :: rps)). split; [by rewrite <- values_of_parts|]. left. by exists (rev rps), d.
  - zbody ZF_recv_all (@rzmq_recv_all _ zlos). rewrite (store_partE u sock l rps _ _ _ s (proj1 Hh) (proj2 Hh) (rawset_nil rps)). cbn [toboolean].
    exists (rev rps). split; [cbn [top length Nat.sub drop]; by rewrite values_of_parts_nil|]. right. done.
Qed.

Lemma collect_run s a : is_zmq s u sock -> ls_next s = l -> record s = t0 ->
  reach (@zmq_code _ zlos) (event_bool timeouts) (spares u sock l) (start ZF_recv_all [VUd u] s) a -> collect_good a.
Proof.
  intros Hz Hl Hr. apply reach_inv; [by apply cl_start|exact collect_step|].
  intros vs w s1 s2 rs (-> & -> & rps & [Hz1 Ht1] & Hr1) (b & -> & Hb) (Hz2 & Ht2 & Hr2).
  apply (cl_resumed _ rps); [split; [auto|congruence]|congruence|done].
Qed.
End RecvAll.

(** *** [send] *)
Section SendRun.
Context (u : nat) (sock : Z) (dv : value) (data : string) (rest : list value) (t0 : list zevent) (timeouts : bool).
Abbreviation args := (VUd u :: dv :: rest).
Abbreviation nargs := (Z.of_nat (S (S (length rest)))).
Definition untouched s : Prop := is_zmq s u sock /\ record s = t0.

Definition zsend_good (a : after zmem (@zos zlos)) : Prop :=
  match a with
  | Running c => untouched (c_st c) /\ c_fun c = ZF_send /\ c_frames c = [] /\
      (c_ctx c = 0 /\ c_stk c = args \/
       c_ctx c = nargs /\ exists b, c_stk c = args ++ [VBool b] /\ (b = false -> timeouts = true))
  | Suspended vs w s => untouched s /\ vs = [VLight YIELD_WRITE; VUd u] /\ w = Susp ZF_send nargs args []
  | Finished vs s => (vs = [VBool true] /\ record s = t0 ++ [ZSent sock data (toboolean (rest !! 0%nat))]) \/
      (vs = [] /\ timeouts = true /\ record s = t0)
  | Raised _ s => record s = t0
  | Broken => msg_fails o data
  end.

Lemma send_pass_good (Hok : MsgOk o) s : tostring (Some dv) = Some data -> untouched s ->
  match @pass _ zlos "is_writable" "rawsend" YIELD_WRITE nargs args s with
  | CUB => zsend_good Broken
  | CErr e s => zsend_good (Raised e s)
  | CVal n k s =>
      match n with
      | NRet n => zsend_good (if (length k <? n)%nat then Broken else Finished (top k n) s)
      | NYield n ctx => zsend_good (if (length k <? n)%nat then Broken else Suspended (top k n) (Susp ZF_send ctx (below k n) []) s)
      | _ => False
      end
  end.
Proof.
  intros Hd [Hz Hr]. rewrite (send_passE s u sock _ dv data rest Hz Hd). unfold record in Hr.
  destruct (ls_os s) as [x lg] eqn:Eos. cbn in Hr. subst lg.
  destruct (send_once_record Hok sock data (toboolean (rest !! 0%nat)) x t0) as (x' & r & lg' & -> & Hadd).
  destruct r as [e|[[[]|]|]]; cbn [send_adds] in Hadd; [subst|subst|by destruct Hadd|subst].
  - unfold zsend_good, record. cbn. by rewrite app_nil_r.
  - by left.
  - rewrite !app_comm_cons, length_app. cbn [length]. rewrite (proj2 (Nat.ltb_ge _ _)) by lia. unfold top, below.
    rewrite length_app. cbn [length]. replace (S (S (length rest)) + 2 - 2)%nat with (length args) by (cbn [length]; lia).
    rewrite drop_app_length, take_app_length. split; [|done]. split; [done|]. unfold record. cbn. by rewrite app_nil_r.
Qed.

Lemma send_step (Hok : MsgOk o) c : tostring (Some dv) = Some data -> zsend_good (Running c) -> zsend_good (zstep c).
Proof.
  intros Hd (Hu & Hf & Hfr & Hc). pose proof (send_pass_good Hok (c_st c) Hd Hu) as Hp. unfold step. rewrite Hf, Hfr.
  change (zmq_code ZF_send) with (Some (@rzmq_send _ zlos)). cbv beta iota. unfold rzmq_send.
  destruct Hc as [[-> ->]|[-> (b & -> & Hb)]].
  - rewrite transfer_fresh. by destruct (pass _ _ _ _ _ _) as [[] ? ?| |].
  - rewrite (transfer_again _ _ _ args b (c_st c)) by done. destruct b; [by destruct (pass _ _ _ _ _ _) as [[] ? ?| |]|].
    cbn [Nat.ltb Nat.leb]. unfold top. rewrite Nat.sub_0_r, drop_all. right. destruct Hu. auto.
Qed.

Lemma send_run (Hok : MsgOk o) l s a : tostring (Some dv) = Some data -> is_zmq s u sock -> record s = t0 ->
  reach (@zmq_code _ zlos) (event_bool timeouts) (spares u sock l) (start ZF_send args s) a -> zsend_good a.
Proof.
  intros Hd Hz Hr. apply reach_inv; [split; [done|]; split; [done|]; split; [done|]; by left|intros c; by apply send_step|].
  intros vs w s1 s2 rs ([Hz1 Hr1] & -> & ->) (b & -> & Hb) (Hz2 & Ht2 & Hr2).
  split; [split; [auto|cbn; congruence]|]. split; [done|]. split; [done|]. right. eauto.
Qed.
End SendRun.
End Runs.
