(* ===== verification/ZmqThm.v ===== *)
(** zmq.c: the properties and their witnesses. *)

From stdpp Require Import prelude gmap strings.
From Stdlib Require Import ZArith Lia SpecFloat Ascii.
From S2P Require Import Prelude Double Lua Misc Error LuaC Zmq ZmqSpec.
Local Open Scope Z_scope.

(** ** Receiving *)

(** C5: A call of [recv_all], in every order of events and whatever the other
    threads do that does not touch the socket: it is always defined, and the
    string it returns is the concatenation, in order, of the parts that libzmq
    delivered during the call, which are exactly one message up to its last part,
    or, if the wait for a part timed out, the parts received until then. *)
Theorem recv_all_message `{LuaConv} (o : ZmqOS) timeouts u sock s a : is_zmq (o := zlogged o) s u sock ->
  reach (@zmq_code _ (zlogged o)) (event_bool o timeouts) (spares o u sock (ls_next s)) (start ZF_recv_all [VUd u] s) a ->
  match a with
  | Finished vs s' => exists ps, vs = [VStr (str_concat ps)] /\ collected o sock (record o s) timeouts ps s'
  | Suspended vs _ s' => vs = [VLight YIELD_READ; VUd u] /\ exists ps, record o s' = record o s ++ parts_record sock ps
  | Raised _ s' => exists ps g, record o s' = record o s ++ parts_record sock ps ++ g /\ (length g <= 1)%nat
  | Running _ => True
  | Broken => False
  end.
Proof.
  intros Hz Ha. pose proof (collect_run o u sock (ls_next s) (record o s) timeouts s a Hz eq_refl eq_refl Ha) as Hg.
  destruct a as [c|vs s'|vs w s'|e s'|]; [done|exact Hg| |exact Hg|done].
  destruct Hg as (-> & _ & rps & _ & Hr). split; [done|]. by exists (rev rps).
Qed.

(** A socket with parts waiting: each with the flag for more parts after it. *)
Class ZmqQueue (o : ZmqOS) (sock : Z) (queue : zos -> list (string * bool)) (last_more : zos -> bool) : Prop := {
  q_events x : exists x' ev, zmq_events sock x = (x', inr ev) /\ (Z.land ev ZMQ_POLLIN =? 0) = bool_decide (queue x = []) /\
    queue x' = queue x;
  q_recv x d m q : queue x = (d, m) :: q -> exists x' msg, zmq_recv sock ZMQ_NOBLOCK x = (x', inr msg) /\
    zmq_msg_data msg = d /\ queue x' = q /\ last_more x' = m;
  q_close x msg : queue (zmq_msg_close msg x).1 = queue x /\ last_more (zmq_msg_close msg x).1 = last_more x;
  q_more x : exists x' n, zmq_rcvmore sock x = (x', inr n) /\ negb (to_int n =? 0) = last_more x /\ queue x' = queue x;
}.

Section Queued.
Context `{LuaConv} {o : ZmqOS} (sock : Z) (queue : zos -> list (string * bool)) (last_more : zos -> bool).
Context `{!ZmqQueue o sock queue last_more}.

Lemma recv_once_queue x d m q : queue x = (d, m) :: q -> exists x', recv_once sock x = (x', inr (Some (d, m))) /\ queue x' = q.
Proof.
  intros Hq. unfold recv_once. destruct (q_events x) as (x1 & ev & -> & Hev & Hq1). rewrite Hev, bool_decide_eq_false_2 by by rewrite Hq.
  rewrite Hq in Hq1. destruct (q_recv _ _ _ _ Hq1) as (x2 & msg & -> & Hd & Hq2 & Hm2).
  destruct (q_close x2 msg) as [Hq3 Hm3]. destruct (q_more (zmq_msg_close msg x2).1) as (x4 & n & -> & Hn & Hq4).
  exists x4. split; [by rewrite Hd, Hn, Hm3, Hm2|congruence].
Qed.

Abbreviation zrun := (run (@zmq_code _ o)).

(** From the call of [recv] for the next part to the end. *)
Lemma recv_all_rest u l qs : forall rps d rest s, is_zmq s u sock -> ls_tabs s !! l = Some (part_tab rps) ->
  queue (ls_os s) = ((fun p => (p, true)) <$> qs) ++ (d, false) :: rest ->
  exists s', zrun (2 * S (length qs)) (Conf ZF_recv 0 [VUd u] [Frame ZF_recv_all 1 [VUd u; VTab l] 2] s) =
    Finished [VStr (str_concat (rev rps ++ qs ++ [d]))] s' /\ queue (ls_os s') = rest.
Proof.
  assert (Hstep : forall rps p m q fuel s, is_zmq s u sock -> ls_tabs s !! l = Some (part_tab rps) -> queue (ls_os s) = (p, m) :: q ->
    exists x, queue x = q /\ zrun (S fuel) (Conf ZF_recv 0 [VUd u] [Frame ZF_recv_all 1 [VUd u; VTab l] 2] s) =
      zrun fuel (Conf ZF_recv_all 1 [VUd u; VTab l; VStr p; VBool m] [] (set_ls_os s x))).
  { intros rps p m q fuel s Hz Ht Hq. destruct (recv_once_queue _ _ _ _ Hq) as (x & Hr & Hx). exists x. split; [done|].
    cbn [run]. unfold step. cbn [c_fun c_ctx c_stk c_frames c_st]. change (zmq_code ZF_recv) with (Some rzmq_recv). cbv beta iota.
    unfold rzmq_recv. rewrite transfer_fresh, (recv_passE s u sock) by done. by rewrite Hr. }
  induction qs as [|p qs IH]; intros rps d rest s Hz Ht Hq.
  - destruct (Hstep rps d false rest 1%nat s Hz Ht Hq) as (x & Hx & Hrun).
    change (2 * S (length []))%nat with 2%nat. rewrite Hrun. eexists. cbn [run]. unfold step.
    cbn [c_fun c_ctx c_stk c_frames c_st]. change (zmq_code ZF_recv_all) with (Some rzmq_recv_all). cbv beta iota.
    rewrite (store_partE u sock l rps _ _ _ (set_ls_os s x) Hz Ht (rawset_part rps d)). cbn [toboolean].
    split; [change (rev rps ++ [] ++ [d]) with (rev (d :: rps)); by rewrite <- (values_of_parts (d :: rps))|exact Hx].
  - destruct (Hstep rps p true _ (S (2 * S (length qs))) s Hz Ht Hq) as (x & Hx & Hrun).
    replace (2 * S (length (p :: qs)))%nat with (S (S (2 * S (length qs)))) by (cbn [length]; lia). rewrite Hrun. clear Hrun.
    edestruct (IH (p :: rps) d rest (set_ls_tabs (set_ls_os s x) (<[l := part_tab (p :: rps)]> (ls_tabs s)))) as (s' & Hs' & Hq'); [done|..].
    { cbn. apply lookup_insert_eq. } { exact Hx. }
    exists s'. split; [|exact Hq']. cbn [run]. unfold step at 1.
    cbn [c_fun c_ctx c_stk c_frames c_st]. change (zmq_code ZF_recv_all) with (Some rzmq_recv_all). cbv beta iota.
    rewrite (store_partE u sock l rps _ _ _ (set_ls_os s x) Hz Ht (rawset_part rps p)). cbn [toboolean].
    rewrite <- app_comm_cons, <- (app_assoc (rev rps) [p]) in *. exact Hs'.
Qed.
End Queued.

(** C33: When all parts of a message are waiting at the socket, [recv_all] does not
    pause: after [2 * n + 1] steps for [n] parts it has returned the whole
    message, and the next messages are still at the socket. *)
Theorem recv_all_returns `{LuaConv} (o : ZmqOS) sock queue last_more u qs d rest s :
  ZmqQueue o sock queue last_more -> is_zmq s u sock ->
  queue (ls_os s) = ((fun p => (p, true)) <$> qs) ++ (d, false) :: rest ->
  exists s', run zmq_code (2 * S (length qs) + 1) (start ZF_recv_all [VUd u] s) = Finished [VStr (str_concat (qs ++ [d]))] s' /\
    queue (ls_os s') = rest.
Proof.
  intros Hq Hz Hs. rewrite Nat.add_1_r. cbn [run]. unfold step, start. cbn [c_fun c_ctx c_stk c_frames c_st].
  change (zmq_code ZF_recv_all) with (Some rzmq_recv_all). cbv beta iota. rewrite (recv_all_startE u sock s Hz).
  apply (recv_all_rest sock queue last_more u (ls_next s) qs [] d rest); [done| |done]. cbn. apply lookup_insert_eq.
Qed.

(** ** Sending *)

(** C31: A call of [send] in every order of events: while it waits nothing has been
    sent; when it returns true the data was handed to libzmq exactly once, marked
    as having more parts after it exactly when the third argument says so; when
    it returns nothing (after a timeout) or raises, nothing was sent. The call is
    undefined only if [zmq_msg_init_size] can fail for the data: the code does not look at
    its result and copies into the message all the same. *)
Theorem zmq_send_once `{LuaConv} (o : ZmqOS) timeouts u sock dv data rest l s a : MsgOk o ->
  tostring (Some dv) = Some data -> is_zmq (o := zlogged o) s u sock ->
  reach (@zmq_code _ (zlogged o)) (event_bool o timeouts) (spares o u sock l) (start ZF_send (VUd u :: dv :: rest) s) a ->
  match a with
  | Finished vs s' => (vs = [VBool true] /\ record o s' = record o s ++ [ZSent sock data (toboolean (rest !! 0%nat))]) \/
      (vs = [] /\ timeouts = true /\ record o s' = record o s)
  | Suspended vs _ s' => vs = [VLight YIELD_WRITE; VUd u] /\ record o s' = record o s
  | Raised _ s' => record o s' = record o s
  | Running _ => True
  | Broken => msg_fails o data
  end.
Proof.
  intros Hok Hd Hz Ha. pose proof (send_run o u sock dv data rest (record o s) timeouts Hok l s a Hd Hz eq_refl Ha) as Hg.
  destruct a as [c|vs s'|vs w s'|e s'|]; [done|exact Hg| |exact Hg|exact Hg]. by destruct Hg as ([_ Hr] & -> & _).
Qed.

(** ** Connection strings *)
Lemma match_colon_split a b : forall c, match_colon c = Some (a, b) -> c = (a ++ ":" ++ b)%string.
Proof.
  revert a. induction a as [|x a IH]; intros [|y c]; cbn [match_colon]; try done.
  - destruct (Ascii.eqb_spec y ":"%char) as [->|]; [by intros [= ->]|]. by destruct (match_colon c) as [[]|].
  - destruct (Ascii.eqb_spec y ":"%char) as [->|]; [done|]. destruct (match_colon c) as [[a' b']|] eqn:E; [|done].
    cbn. intros [= -> -> ->]. by rewrite (IH c E).
Qed.

(** The object [prepare_uri] makes of a string with a colon: the type is the text
    before the first colon in capitals, and the endpoint the rest. *)
Lemma prepare_uri_splits `{LuaConv} {o : ZmqOS} uri type endpoint (s : lstate zmem zos) : match_colon uri = Some (type, endpoint) ->
  rzmq_prepare_uri [VStr uri] s = CVal (NRet 1) [VStr uri; VTab (ls_next s)]
    (set_ls_next (set_ls_tabs s (<[ls_next s := Tab (<["type"%string := VStr (string_upper type)]> (<["endpoint"%string := VStr endpoint]> ∅)) ∅]>
      (ls_tabs s))) (S (ls_next s))).
Proof.
  intros Hm. unfold rzmq_prepare_uri, luaL_checklstring. lrun. rewrite Hm. lrun. unfold set_field. cbn [t_fields t_arr]. by lst.
Qed.

(** ** Witnesses *)
Module ZmqWitnesses.
#[export] Instance conv : LuaConv := {| str2number _ := None; number2str _ := ""%string |}.

(** A socket with parts waiting, always ready for writing. *)
Definition simzmq : ZmqOS := {|
  zos := list (string * bool) * bool;
  zmsg := string;
  zmq_has_upstream := true;
  zmq_init _ x := (x, inr 1);
  zmq_term _ x := (x, tt);
  zmq_socket _ _ x := (x, inr 1);
  zmq_close _ x := (x, tt);
  zmq_bind _ _ x := (x, inr tt);
  zmq_connect _ _ x := (x, inr tt);
  zmq_fd _ x := (x, inr 5);
  zmq_events _ x := (x, inr (match x.1 with [] => 2 | _ => 3 end));
  zmq_rcvmore _ x := (x, inr (if x.2 : bool then 1 else 0));
  zmq_msg_of d x := (x, Some d);
  zmq_msg_data d := d;
  zmq_msg_close _ x := (x, tt);
  zmq_send _ _ _ x := (x, inr tt);
  zmq_recv _ _ x := match x.1 with [] => (x, inl 11) | (d, m) :: q => ((q, m), inr d) end;
  zmq_strerror _ := "error"%string |}.

#[export] Instance sim_msg : MsgOk simzmq.
Proof. split. by intros d x x' m [= _ <-]. Qed.
#[export] Instance sim_queue : ZmqQueue simzmq 1 fst snd.
Proof.
  split.
  - intros [q m]. eexists _, _. split; [reflexivity|]. by destruct q.
  - intros [q m] d m' q'. cbn. intros ->. by eexists _, _.
  - done.
  - intros [q []]; by eexists _, _.
Qed.

Definition zstate {os} (x : os) : lstate zmem os :=
  LState ∅ (<[1%nat := UData (Some ZMQ_META) (MZmq 1 (of_Z (-1))) VNil]> ∅) 2 x.
Lemma zstate_zmq (o : ZmqOS) x : is_zmq (o := o) (zstate x) 1 1.
Proof. by eexists _, _. Qed.

Definition hello : list (string * bool) := [("wo"%string, true); ("rld"%string, false); ("next"%string, false)].
Abbreviation simlog := (zlogged simzmq).
Definition logged0 (q : list (string * bool)) : lstate zmem (@zos simlog) := zstate ((q, false), []).
Abbreviation call_run n f args s := (run (@zmq_code _ simlog) n (start f args s)).
Definition recv_end := Eval vm_compute in call_run 5 ZF_recv_all [VUd 1] (logged0 hello).
Definition send_end := Eval vm_compute in call_run 5 ZF_send [VUd 1; VStr "hi"; VBool true] (logged0 []).

Lemma recv_all_message_witness : exists s', recv_end = Finished [VStr "world"] s' /\
  match recv_end with
  | Finished vs s' => exists ps, vs = [VStr (str_concat ps)] /\ collected simzmq 1 [] false ps s'
  | _ => False
  end.
Proof.
  eexists. split; [reflexivity|].
  apply (recv_all_message simzmq false 1 1 (logged0 hello) recv_end (zstate_zmq simlog _)).
  change recv_end with (call_run 5 ZF_recv_all [VUd 1] (logged0 hello)). apply run_reach, reach_start.
Defined.

Lemma recv_all_returns_witness : exists s', run (@zmq_code _ simzmq) 5 (start ZF_recv_all [VUd 1] (zstate (hello, false))) =
  Finished [VStr "world"] s' /\ fst (ls_os s') = [("next"%string, false)].
Proof.
  apply (recv_all_returns simzmq 1 fst snd 1 ["wo"%string] "rld" [("next"%string, false)]); [exact sim_queue|apply zstate_zmq|reflexivity].
Defined.

Lemma zmq_send_once_witness : exists s', send_end = Finished [VBool true] s' /\
  match send_end with
  | Finished vs s' => (vs = [VBool true] /\ record simzmq s' = [] ++ [ZSent 1 "hi" true]) \/ (vs = [] /\ false = true /\ record simzmq s' = [])
  | _ => False
  end.
Proof.
  eexists. split; [reflexivity|].
  apply (zmq_send_once simzmq false 1 1 (VStr "hi") "hi" [VBool true] 2 (logged0 []) send_end sim_msg eq_refl (zstate_zmq simlog _)).
  change send_end with (call_run 5 ZF_send [VUd 1; VStr "hi"; VBool true] (logged0 [])). apply run_reach, reach_start.
Defined.

(** A wait that times out after the first part: the part comes back as if it were
    the message, and what is left of the message is the result of the next call. *)
Lemma timeout_truncates :
  match call_run 5 ZF_recv_all [VUd 1] (logged0 [("wo"%string, true)]) with
  | Suspended vs w s1 => vs = [VLight YIELD_READ; VUd 1] /\
      match run (@zmq_code _ simlog) 5 (resume w [VBool false] s1) with
      | Finished r s2 => r = [VStr "wo"] /\
          match call_run 5 ZF_recv_all [VUd 1] (set_ls_os s2 ((([("rld"%string, false)], false), record simzmq s2) : @zos simlog)) with
          | Finished r' _ => r' = [VStr "rld"]
          | _ => False
          end
      | _ => False
      end
  | _ => False
  end.
Proof. vm_compute. by repeat split. Qed.

(** The string that the comment in [rzmq_prepare_uri] gives as an example. *)
Lemma documented_uri : exists (s' : lstate zmem (@zos simzmq)) t, 
  @rzmq_prepare_uri _ simzmq [VStr "zmq:PAIR:tcp://localhost:10025"] (zstate ([], false)) = CVal (NRet 1) [VStr "zmq:PAIR:tcp://localhost:10025"; VTab 2] s' /\
  ls_tabs s' !! 2%nat = Some t /\ field t "type" = VStr "ZMQ" /\ field t "endpoint" = VStr "PAIR:tcp://localhost:10025".
Proof. do 2 eexists. split; [rewrite (prepare_uri_splits _ "zmq" "PAIR:tcp://localhost:10025") by reflexivity; reflexivity|]. by repeat split. Qed.
End ZmqWitnesses.
