(* ===== verification/DnsBase.v ===== *)
(** libdns: results, memory and the packet buffer (dns.h, dns.c).

    A C function of libdns returns a value, reads or writes outside the memory
    it was given ([UB]), or is still in a loop when the fuel given to the model
    is used up ([Loop]). Error codes are ordinary results. Buffers are lists of
    bytes; integers are [Z] with the width of their C type applied where the C
    code can wrap. *)

From stdpp Require Import prelude.
From Stdlib Require Import ZArith Lia.
From S2P Require Import Prelude.
Local Open Scope Z_scope.

Inductive out (A : Type) :=
  | Val (a : A)
  | UB
  | Loop.
Arguments Val {A} a.
Arguments UB {A}.
Arguments Loop {A}.

#[export] Instance out_ret : MRet out := fun A a => Val a.
#[export] Instance out_bind : MBind out := fun A B f m =>
  match m with Val a => f a | UB => UB | Loop => Loop end.

Lemma bind_Val {A B} (m : out A) (f : A -> out B) b :
  m ≫= f = Val b <-> exists a, m = Val a /\ f a = Val b.
Proof. destruct m; cbn; naive_solver. Qed.

(** [m] returns: it neither leaves its memory nor loops. *)
Definition returns {A} (m : out A) : Prop := exists a, m = Val a.

(** ** Machine integers *)
Definition w16 (z : Z) : Z := z mod 2 ^ 16.
Definition w32 (z : Z) : Z := z mod 2 ^ 32.
Definition sub64 (a b : Z) : Z := (a - b) mod 2 ^ 64.

Lemma w16_id z : 0 <= z < 2 ^ 16 -> w16 z = z.
Proof. intros. unfold w16. by apply Z.mod_small. Qed.
Lemma sub64_id a b : 0 <= b <= a -> a < 2 ^ 64 -> sub64 a b = a - b.
Proof. intros. unfold sub64. apply Z.mod_small. lia. Qed.

Definition byte (b : Z) : Prop := 0 <= b < 256.

(** ** Buffers *)
Definition len (l : list Z) : Z := Z.of_nat (length l).

Definition rd (l : list Z) (i : Z) : out Z :=
  if i <? 0 then UB else match l !! Z.to_nat i with Some b => Val b | None => UB end.

Definition wr (l : list Z) (i v : Z) : out (list Z) :=
  if (0 <=? i) && (i <? len l) then Val (<[Z.to_nat i := v]> l) else UB.

(** [memcpy] of [n] bytes from offset [i]; nothing is read when [n] is 0. *)
Definition rdn (l : list Z) (i n : Z) : out (list Z) :=
  if n =? 0 then Val []
  else if (0 <=? i) && (i + n <=? len l) then Val (take (Z.to_nat n) (drop (Z.to_nat i) l)) else UB.

(** [memcpy] of [src] to offset [i]. *)
Definition wrn (l : list Z) (i : Z) (src : list Z) : out (list Z) :=
  if len src =? 0 then Val l
  else if (0 <=? i) && (i + len src <=? len l)
  then Val (take (Z.to_nat i) l ++ src ++ drop (Z.to_nat (i + len src)) l) else UB.

(** A byte at a valid offset. *)
Definition nthz (l : list Z) (i : Z) : Z := nth (Z.to_nat i) l 0.

Lemma rd_in l i : 0 <= i < len l -> rd l i = Val (nthz l i).
Proof.
  unfold rd, len, nthz. intros Hi. destruct (Z.ltb_spec i 0); [lia|].
  destruct (lookup_lt_is_Some_2 l (Z.to_nat i)) as [b Hb]; [lia|].
  rewrite Hb. f_equal. symmetry. by apply nth_lookup_Some.
Qed.

Lemma rd_Val l i b : rd l i = Val b -> 0 <= i < len l /\ nthz l i = b.
Proof.
  unfold rd, len, nthz. destruct (Z.ltb_spec i 0); [done|].
  destruct (l !! Z.to_nat i) eqn:E; [|done]. intros [= ->].
  pose proof (lookup_lt_Some _ _ _ E). split; [lia|]. by apply nth_lookup_Some.
Qed.

Lemma rdn_in l i n : 0 <= i -> 0 <= n -> i + n <= len l ->
  rdn l i n = Val (take (Z.to_nat n) (drop (Z.to_nat i) l)).
Proof.
  intros. unfold rdn. destruct (Z.eqb_spec n 0) as [->|]; [done|].
  destruct (Z.leb_spec 0 i); [|lia]. destruct (Z.leb_spec (i + n) (len l)); [done|lia].
Qed.

Lemma wr_in l i v : 0 <= i < len l -> wr l i v = Val (<[Z.to_nat i := v]> l).
Proof.
  intros. unfold wr. destruct (Z.leb_spec 0 i); [|lia]. by destruct (Z.ltb_spec i (len l)); [|lia].
Qed.

Lemma len_insert l i v : len (<[i := v]> l) = len l.
Proof. unfold len. by rewrite length_insert. Qed.
Lemma len_nonneg l : 0 <= len l.
Proof. unfold len. lia. Qed.
Lemma len_app l l' : len (l ++ l') = len l + len l'.
Proof. unfold len. rewrite length_app. lia. Qed.
Lemma len_cons x l : len (x :: l) = 1 + len l.
Proof. unfold len. cbn. lia. Qed.
Lemma len_nil : len [] = 0.
Proof. done. Qed.
Create HintDb len.
#[export] Hint Rewrite len_app len_cons len_nil len_insert : len.

Lemma nthz_app_l l l' i : 0 <= i < len l -> nthz (l ++ l') i = nthz l i.
Proof. unfold nthz, len. intros. by rewrite app_nth1 by lia. Qed.
Lemma nthz_app_r l l' i : len l <= i -> nthz (l ++ l') i = nthz l' (i - len l).
Proof. unfold nthz, len. intros. rewrite app_nth2 by lia. f_equal. lia. Qed.
Lemma nthz_cons_0 x l : nthz (x :: l) 0 = x.
Proof. done. Qed.
Lemma nthz_cons_S x l i : 0 < i -> nthz (x :: l) i = nthz l (i - 1).
Proof.
  intros. unfold nthz. replace (Z.to_nat i) with (S (Z.to_nat (i - 1))) by lia. done.
Qed.

(** Two buffers agree below [e]. *)
Definition same_below (e : Z) (l l' : list Z) : Prop :=
  e <= len l /\ e <= len l' /\ take (Z.to_nat e) l = take (Z.to_nat e) l'.

Lemma same_below_nthz e l l' i : same_below e l l' -> 0 <= i < e -> nthz l i = nthz l' i.
Proof.
  intros (Hl & Hl' & Heq) Hi. unfold nthz, len in *.
  rewrite <- (take_drop (Z.to_nat e) l), <- (take_drop (Z.to_nat e) l'), Heq.
  rewrite !app_nth1 by (rewrite length_take; lia). done.
Qed.

Lemma same_below_slice e l l' i n : same_below e l l' -> 0 <= i -> 0 <= n -> i + n <= e ->
  take (Z.to_nat n) (drop (Z.to_nat i) l) = take (Z.to_nat n) (drop (Z.to_nat i) l').
Proof.
  intros (Hl & Hl' & Heq) Hi Hn Hin.
  assert (forall l : list Z, take (Z.to_nat n) (drop (Z.to_nat i) l)
    = take (Z.to_nat n) (drop (Z.to_nat i) (take (Z.to_nat e) l))) as Hx.
  { intros l0. rewrite skipn_firstn_comm, take_take. f_equal. lia. }
  rewrite (Hx l), (Hx l'), Heq. done.
Qed.

Lemma same_below_refl e l : e <= len l -> same_below e l l.
Proof. done. Qed.
Lemma same_below_trans e l1 l2 l3 : same_below e l1 l2 -> same_below e l2 l3 -> same_below e l1 l3.
Proof. intros (? & ? & H1) (? & ? & H2). split_and!; [done..|congruence]. Qed.
Lemma same_below_le e e' l l' : e' <= e -> same_below e l l' -> same_below e' l l'.
Proof.
  intros He (? & ? & H1). split_and!; [lia..|].
  replace (Z.to_nat e') with (Nat.min (Z.to_nat e') (Z.to_nat e)) by lia.
  by rewrite <- !take_take, H1.
Qed.

(** ** C strings *)

(** The bytes before the first NUL. *)
Fixpoint cstr (l : list Z) : list Z :=
  match l with
  | [] => []
  | b :: l' => if b =? 0 then [] else b :: cstr l'
  end.

Definition tolower (b : Z) : Z := if (65 <=? b) && (b <=? 90) then b + 32 else b.

(** [strcasecmp (a, b)] on NUL-terminated strings: the difference of the first
    two bytes that differ. *)
Fixpoint strcasecmp_ (a b : list Z) : Z :=
  match a, b with
  | [], [] => 0
  | [], y :: _ => 0 - tolower y
  | x :: _, [] => tolower x
  | x :: a', y :: b' => if tolower x =? tolower y then strcasecmp_ a' b' else tolower x - tolower y
  end.
Definition strcasecmp (a b : list Z) : Z := strcasecmp_ (cstr a) (cstr b).

Definition lower (l : list Z) : list Z := tolower <$> l.
Definition nulfree (l : list Z) : Prop := Forall (fun b => b <> 0) l.

Lemma cstr_nulfree l : nulfree l -> cstr l = l.
Proof.
  induction 1 as [|b l Hb _ IH]; [done|]. cbn. destruct (Z.eqb_spec b 0); [done|by rewrite IH].
Qed.

Lemma tolower_pos b : 0 < b -> 0 < tolower b.
Proof. unfold tolower. case_match; lia. Qed.

Lemma strcasecmp_eq a b :
  Forall byte a -> Forall byte b -> nulfree a -> nulfree b ->
  strcasecmp a b = 0 <-> lower a = lower b.
Proof.
  intros Ha Hb Na Nb. unfold strcasecmp. rewrite !cstr_nulfree by done.
  revert b Hb Nb. induction a as [|x a IH]; intros [|y b] Hb Nb; cbn; [done| | |].
  1,2: split; [|done]; intros Heq; exfalso;
    first [inversion Hb as [|? ? By ?]; subst; inversion Nb as [|? ? Ny ?]; subst; pose proof (tolower_pos y)
          |inversion Ha as [|? ? By ?]; subst; inversion Na as [|? ? Ny ?]; subst; pose proof (tolower_pos x)];
    unfold byte in *; lia.
  inversion Ha; inversion Hb; inversion Na; inversion Nb; subst.
  destruct (Z.eqb_spec (tolower x) (tolower y)) as [E|E].
  - rewrite IH by done. unfold lower. cbn. rewrite E. split; [by intros ->|congruence].
  - split; [lia|]. unfold lower. cbn. intros [=]. congruence.
Qed.

(** The string a caller finds in a buffer of [lim] bytes after [bytes] were
    stored up to the limit and a NUL was put at [MIN (len, lim - 1)]. *)
Definition cbuf (lim : Z) (bytes : list Z) : list Z := take (Z.to_nat (lim - 1)) bytes.

Lemma cbuf_fits lim bytes : len bytes < lim -> cbuf lim bytes = bytes.
Proof. unfold cbuf, len. intros. apply take_ge. lia. Qed.

(** ** Error codes (dns.h); DNS_ESYSTEM stands for the value of errno *)
Inductive dns_error := DNS_ENOBUFS | DNS_EILLEGAL | DNS_EORDER | DNS_ESECTION | DNS_ESYSTEM | DNS_EADDRESS
  | DNS_ENAMETOOLONG.
#[export] Instance dns_error_eq_dec : EqDecision dns_error.
Proof. solve_decision. Defined.

(** ** The packet *)
Record memo := Memo { m_base : Z; m_end : Z }.
Record packet := Packet {
  p_dict : list Z;
  p_qd : memo; p_an : memo; p_ns : memo; p_ar : memo;
  p_size : Z; p_end : Z;
  p_data : list Z;
}.
Definition DNS_P_DICTSIZE : Z := 16.

Definition set_data (P : packet) d := Packet (p_dict P) (p_qd P) (p_an P) (p_ns P) (p_ar P) (p_size P) (p_end P) d.
Definition set_end (P : packet) e := Packet (p_dict P) (p_qd P) (p_an P) (p_ns P) (p_ar P) (p_size P) e (p_data P).
Definition set_dict (P : packet) d := Packet d (p_qd P) (p_an P) (p_ns P) (p_ar P) (p_size P) (p_end P) (p_data P).
Definition set_memos (P : packet) qd an ns ar := Packet (p_dict P) qd an ns ar (p_size P) (p_end P) (p_data P).

(** A packet whose buffer holds [p_size] bytes, of which [p_end] are in use. *)
Record wf (P : packet) : Prop := {
  wf_len : len (p_data P) = p_size P;
  wf_end : 12 <= p_end P <= p_size P;
  wf_short : p_end P < 2 ^ 16;
  wf_size : p_size P < 2 ^ 32;
  wf_bytes : Forall byte (p_data P);
  wf_dict : length (p_dict P) = 16%nat;
}.

(** Sixteen bits in network order. *)
Definition be16 (hi lo : Z) : Z := Z.lor (Z.shiftl (Z.land 255 hi) 8) (Z.shiftl (Z.land 255 lo) 0).

Lemma nthz_byte l i : Forall byte l -> byte (nthz l i).
Proof.
  intros Hl. unfold nthz. destruct (nth_in_or_default (Z.to_nat i) l 0) as [Hin| ->]; [|unfold byte; lia].
  rewrite Forall_forall in Hl. apply Hl. by apply list_elem_of_In.
Qed.

Lemma land_255_byte b : byte b -> Z.land 255 b = b.
Proof.
  intros Hb. unfold byte in Hb. rewrite Z.land_comm. change 255 with (Z.ones 8).
  rewrite Z.land_ones by lia. by apply Z.mod_small.
Qed.

Lemma be16_eq hi lo : byte hi -> byte lo -> be16 hi lo = hi * 256 + lo.
Proof.
  intros Hh Hl. unfold be16. rewrite !land_255_byte by done. rewrite Z.shiftl_0_r.
  rewrite Z.shiftl_mul_pow2 by lia. change (2 ^ 8) with 256.
  unfold byte in *. rewrite <- Z.lxor_lor, <- Z.add_nocarry_lxor; [done|..].
  all: apply Z.bits_inj'; intros n Hn; rewrite Z.land_spec, Z.bits_0;
    destruct (Z.lt_ge_cases n 8);
    [change 256 with (2 ^ 8); rewrite Z.mul_pow2_bits_low by lia; done
    |rewrite (Z.bits_above_log2 lo); [by rewrite andb_false_r|lia|]];
    destruct (Z.eq_dec lo 0) as [->|]; [cbn; lia|]; apply Z.log2_lt_pow2; [lia|];
    apply Z.lt_le_trans with (2 ^ 8); [lia|apply Z.pow_le_mono_r; lia].
Qed.
