(* ===== verification/StackDump.v ===== *)
(** misc.c: the dump of the Lua stack ([fprintf_index] and [fstackdump_ln]) that is
    [ratchet.stackdump].

    A table is printed with what it holds, down to tables that are already being
    printed; the values are those of a heap in which error objects are tables. The
    order of [lua_next] and the texts of [%g] and [%p] are parameters. *)

From stdpp Require Import prelude gmap strings pretty.
From Stdlib Require Import ZArith Lia Ascii.
From S2P Require Import Prelude Double Lua LuaC DnsBase.
Local Open Scope Z_scope.

Section StackDump.
Context {mem os : Type} (s : lstate mem os).
Context (next_order : tab -> list (value * value)) (fmt_g : number -> string) (fmt_p : value -> string).

Definition lua_typename (v : value) : string :=
  match v with
  | VNil => "nil" | VBool _ => "boolean" | VNum _ => "number" | VStr _ => "string" | VLight _ | VUd _ => "userdata"
  | VFun _ => "function" | VThread _ => "thread" | VTab _ | VErr _ => "table"
  end.
(** [lua_compare (L, j, top, LUA_OPEQ)] for some [j] of the stack [k] and the table [l]. *)
Definition on_stack (k : list value) (l : nat) : bool := existsb (fun w => match w with VTab l' => (l' =? l)%nat | _ => false end) k.

(** The entries of a table, with [print] for a value on a stack; a table that is below on
    the stack is only named. *)
Fixpoint print_fields (print : list value -> value -> out string) (k : list value) (kvs : list (value * value)) : out string :=
  match kvs with
  | [] => Val ""
  | (key, w) :: kvs' =>
      a ← print (k ++ [key; w]) key;
      b ← match w with
          | VTab l => if on_stack k l then Val ("<table:" +:+ fmt_p w +:+ ">") else print (k ++ [key; w]) w
          | _ => print (k ++ [key; w]) w
          end;
      rest ← print_fields print k kvs';
      Val (a +:+ "=" +:+ b +:+ "," +:+ rest)
  end.
(** The value [v] of the stack [k]; [n] bounds how deep the calls are nested. *)
Fixpoint fprintf_index (n : nat) (k : list value) (v : value) : out string :=
  match n with
  | O => Loop
  | S n' =>
      match v with
      | VStr t => Val ("'" +:+ c_str t +:+ "'")
      | VBool b => Val (if b then "true" else "false")
      | VNum x => Val (fmt_g x)
      | VTab l =>
          match ls_tabs s !! l with
          | None => UB
          | Some t =>
              inner ← print_fields (fprintf_index n') k (next_order t);
              Val ("<" +:+ pretty (length (next_order t)) +:+ ":{" +:+ inner +:+ "}:" +:+ fmt_p v +:+ ">")
          end
      | VThread _ | VLight _ => Val ("<" +:+ lua_typename v +:+ ":" +:+ fmt_p v +:+ ">")
      | VUd u =>
          match ls_uds s !! u with
          | None => UB
          | Some d =>
              inner ← match ud_uv d with VNil => Val "" | w => t ← fprintf_index n' (k ++ [w]) w; Val (t +:+ ":") end;
              Val ("<userdata:" +:+ inner +:+ fmt_p v +:+ ">")
          end
      | VNil | VFun _ => Val (lua_typename v)
      | VErr _ => UB
      end
  end.
(** The lines from index [i] on. *)
Definition newline_text : string := String "010"%char EmptyString.
Fixpoint dump_from (n : nat) (k : list value) (i : nat) (vs : list value) : out string :=
  match vs with
  | [] => Val ""
  | v :: vs' => t ← fprintf_index n k v; rest ← dump_from n k (S i) vs'; Val (pretty i +:+ ": " +:+ t +:+ newline_text +:+ rest)
  end.
Definition fstackdump_ln (n : nat) (k : list value) (file : string) (line : Z) : out string :=
  t ← dump_from n k 1 k;
  Val ("------ stackdump " +:+ file +:+ ":" +:+ pretty line +:+ " -------" +:+ newline_text +:+ t).
(** [ratchet.stackdump]; [line] is where it is in ratchet.c. *)
Definition ratchet_stackdump (n : nat) (k : list value) (line : Z) : out string := fstackdump_ln n k "ratchet.c" line.

(** ** It ends *)

(** A heap that can be printed: every reference is to an object, the keys of tables are
    not objects themselves, and no userdata is to be found from its own uservalue:
    [rank] counts how many userdata are on a path from a value. *)
Context (rank : value -> nat).
Definition leaf (v : value) : bool := match v with VTab _ | VUd _ | VErr _ => false | _ => true end.
Definition sound (v : value) : Prop :=
  match v with VTab l => is_Some (ls_tabs s !! l) | VUd u => is_Some (ls_uds s !! u) | VErr _ => False | _ => True end.
Definition printable : Prop :=
  (forall l t key w, ls_tabs s !! l = Some t -> (key, w) ∈ next_order t -> leaf key = true /\ sound w /\ (rank w <= rank (VTab l))%nat) /\
  (forall u d, ls_uds s !! u = Some d -> sound (ud_uv d) /\ (ud_uv d = VNil \/ (rank (ud_uv d) < rank (VUd u))%nat)).

(** The tables that are not on the stack. *)
Definition tab_of (v : value) : option nat := match v with VTab l => Some l | _ => None end.
Definition fresh (k : list value) : gset nat := dom (ls_tabs s) ∖ list_to_set (omap tab_of k).
Definition room : nat := size (ls_tabs s) + 2.
Definition depth (k : list value) (v : value) : nat :=
  match v with VTab _ => rank v * room + size (fresh k) + 1 | VUd _ => rank v * room | _ => 0 end.

Lemma fresh_le k : (size (fresh k) <= size (ls_tabs s))%nat.
Proof. rewrite <- size_dom. apply subseteq_size. unfold fresh. set_solver. Qed.
Lemma on_stack_spec k l : on_stack k l = false -> l ∉ (list_to_set (omap tab_of k) : gset nat).
Proof.
  intros Hk. rewrite elem_of_list_to_set, list_elem_of_omap. intros (w & Hw & E). destruct w; try done. injection E as ->.
  assert (on_stack k l = true) as Ht; [|congruence]. apply existsb_exists. exists (VTab l). split; [by apply list_elem_of_In|by apply Nat.eqb_eq].
Qed.
Lemma fresh_push k key l : leaf key = true -> is_Some (ls_tabs s !! l) -> on_stack k l = false -> (size (fresh (k ++ [key; VTab l])) < size (fresh k))%nat.
Proof.
  intros Hkey Hl Hk%on_stack_spec. apply subset_size. apply elem_of_dom in Hl. unfold fresh. rewrite omap_app, list_to_set_app_L.
  replace (omap tab_of [key; VTab l]) with [l] by by destruct key. set_solver.
Qed.
Lemma fprintf_leaf n k v : leaf v = true -> (0 < n)%nat -> returns (fprintf_index n k v).
Proof. intros Hv Hn. destruct n; [lia|]. destruct v; try done; by eexists. Qed.

Lemma print_fields_returns print k kvs :
  (forall key w, (key, w) ∈ kvs -> returns (print (k ++ [key; w]) key) /\
    (match w with VTab l => on_stack k l = true \/ returns (print (k ++ [key; w]) w) | _ => returns (print (k ++ [key; w]) w) end)) ->
  returns (print_fields print k kvs).
Proof.
  induction kvs as [|[key w] kvs IH]; intros H; [by eexists|]. destruct (H key w ltac:(set_solver)) as [[a Ha] Hw].
  destruct IH as [rest Hrest]; [intros; apply H; set_solver|]. cbn [print_fields]. rewrite Ha, Hrest. cbn [mbind out_bind].
  destruct w as [| | | | | | |l| |]; try (destruct Hw as [tx Hb]; rewrite Hb; by eexists). destruct (on_stack k l); [by eexists|]. destruct Hw as [|[b Hb]]; [done|]. rewrite Hb. by eexists.
Qed.

Lemma fprintf_returns (Hp : printable) n : forall k v, sound v -> (depth k v < n)%nat -> returns (fprintf_index n k v).
Proof.
  destruct Hp as [Htab Hud]. induction n as [|n IH]; intros k v Hv Hd; [lia|]. destruct v as [| | | | | | |l|u|]; [by eexists..| | |done].
  - destruct Hv as [t Ht]. cbn [fprintf_index]. rewrite Ht. cbn [depth] in Hd.
    destruct (print_fields_returns (fprintf_index n) k (next_order t)) as [inner ->]; [|by eexists].
    intros key w Hin. destruct (Htab l t key w Ht Hin) as (Hkey & Hw & Hr). split; [apply fprintf_leaf; [done|lia]|].
    pose proof (Nat.mul_le_mono_r _ _ room Hr). destruct w as [| | | | | | |l'|u'|]; try (apply fprintf_leaf; [done|lia]).
    + destruct (on_stack k l') eqn:E; [by left|]. right. apply IH; [done|]. pose proof (fresh_push k key l' Hkey Hw E). cbn [depth]. lia.
    + apply IH; [done|]. cbn [depth]. lia.
  - destruct Hv as [d Hdu]. cbn [fprintf_index]. rewrite Hdu. destruct (Hud u d Hdu) as [Hs Hr]. cbn [depth] in Hd.
    destruct Hr as [-> |Hr]; [by eexists|]. destruct (IH (k ++ [ud_uv d]) (ud_uv d) Hs) as [t Ht].
    + pose proof (fresh_le (k ++ [ud_uv d])). pose proof (Nat.mul_le_mono_r _ _ room (proj2 (Nat.le_succ_l _ _) Hr)). unfold room in *. destruct (ud_uv d); cbn [depth]; unfold room; lia.
    + destruct (ud_uv d); try (rewrite Ht; by eexists). by eexists.
Qed.

(** The dump of any stack over such a heap is written, with calls nested no deeper than
    the deepest of its values needs. *)
Lemma max_list_ge (f : value -> nat) k v : v ∈ k -> (f v <= max_list (f <$> k))%nat.
Proof. induction 1 as [v k|v w k _ IH]; cbn; lia. Qed.
Lemma stackdump_returns k file line : printable -> Forall sound k ->
  returns (fstackdump_ln (S (max_list (depth k <$> k))) k file line).
Proof.
  intros Hp Hk. set (n := S _). assert (forall vs i, vs ⊆ k -> returns (dump_from n k i vs)) as H.
  { induction vs as [|v vs IH]; intros i Hin; [by eexists|]. cbn [dump_from]. destruct (IH (S i)) as [rest Hrest]; [set_solver|].
    assert (v ∈ k) as Hv by set_solver. destruct (fprintf_returns Hp n k v) as [t ->].
    - rewrite Forall_forall in Hk. by apply Hk.
    - subst n. apply Nat.lt_succ_r. by apply max_list_ge.
    - cbn [mbind out_bind]. rewrite Hrest. by eexists. }
  destruct (H k 1%nat) as [t Ht]; [done|]. unfold fstackdump_ln. rewrite Ht. by eexists.
Qed.
End StackDump.

(** A userdata that its own uservalue refers to is printed without end: only tables are
    looked for on the stack. *)
Lemma own_uservalue_loops {mem os} (s : lstate mem os) next_order fmt_g fmt_p u d l t key rest :
  ls_uds s !! u = Some d -> ud_uv d = VTab l -> ls_tabs s !! l = Some t -> next_order t = (VStr key, VUd u) :: rest ->
  forall n, (forall k, fprintf_index s next_order fmt_g fmt_p n k (VUd u) = Loop) /\ (forall k, fprintf_index s next_order fmt_g fmt_p n k (VTab l) = Loop).
Proof.
  intros Hu Huv Ht Ho n. induction n as [|n [IHu IHt]]; [done|]. split; intros k; cbn [fprintf_index].
  - by rewrite Hu, Huv, IHt.
  - rewrite Ht, Ho. cbn [print_fields]. rewrite IHu. by destruct n.
Qed.

(** A table that holds itself is named where it is met again. *)
Module DumpExamples.
Definition fields_in_order (t : tab) : list (value * value) := prod_map VStr id <$> map_to_list (t_fields t).
Definition heap : lstate unit unit := LState {[1%nat := Tab {["self"%string := VTab 1]} ∅]} {[2%nat := UData None tt (VTab 1)]} 3 tt.
Abbreviation demo_dump := (fstackdump_ln heap fields_in_order (fun _ => ""%string) (fun _ => "0x1"%string)).
Example dump_cycle : demo_dump 5 [VBool true; VUd 2; VTab 1] "t.c" 7 = Val (
  "------ stackdump t.c:7 -------" +:+ newline_text +:+ "1: true" +:+ newline_text +:+
  "2: <userdata:<1:{'self'=<table:0x1>,}:0x1>:0x1>" +:+ newline_text +:+ "3: <1:{'self'=<table:0x1>,}:0x1>" +:+ newline_text).
Proof. vm_compute. reflexivity. Qed.
(** The general statement at this heap. *)
Example dump_cycle_returns : returns (demo_dump 4 [VUd 2; VTab 1] "t.c" 7).
Proof.
  pose (rank v := match v with VUd _ => 1 | _ => 0 end%nat).
  change 4%nat with (S (max_list (depth heap rank [VUd 2; VTab 1] <$> [VUd 2; VTab 1]))).
  apply (stackdump_returns heap fields_in_order _ _ rank); [|repeat constructor; by eexists]. split.
  - intros l t key w Ht. unfold heap in Ht. cbn [ls_tabs] in Ht. apply lookup_singleton_Some in Ht as [<- <-].
    change (fields_in_order _) with [(VStr "self", VTab 1)]. intros [-> ->]%list_elem_of_singleton%pair_equal_spec. split; [done|]. split; [by eexists|]. cbn. lia.
  - intros u d Hd. unfold heap in Hd. cbn [ls_uds] in Hd. apply lookup_singleton_Some in Hd as [<- <-]. cbn. split; [by eexists|right; lia].
Qed.
End DumpExamples.
