(* ===== verification/DnsName.v ===== *)
(** libdns: domain names, as text and in packets (dns.c, "D O M A I N  N A M E
    R O U T I N E S").

    Text is a list of bytes. The functions that fill a [dst]/[lim] buffer return
    the bytes they offered, of which the caller finds [cbuf lim] in the buffer;
    the C result is their number. *)

From stdpp Require Import prelude.
From Stdlib Require Import ZArith Lia.
From S2P Require Import Prelude DnsBase.
Local Open Scope Z_scope.

Definition DNS_D_MAXPTRS : Z := 127.
Definition DNS_D_MAXLABEL : Z := 63.
Definition DNS_D_MAXNAME : Z := 255.
Definition DNS_D_ANCHOR : Z := 1.
Definition DNS_D_TRIM : Z := 4.

(** The byte '.'. *)
Definition dot : Z := 46.

(** The two high bits of a length byte. *)
Definition tag (b : Z) : Z := Z.land 3 (Z.shiftr b 6).
(** A length, and a pointer, in a name. *)
Definition low6 (b : Z) : Z := Z.land 63 b.
Definition ptr (b0 b1 : Z) : Z :=
  Z.lor (Z.shiftl (Z.land 63 b0) 8) (Z.shiftl (Z.land 255 b1) 0).

(** ** Text *)

(** [dns_d_trim]: the source bytes [src] with [lc] the last byte seen. As in the
    C code, [lc] is read again after the dots that follow it were skipped, so
    it is the first byte of the next round, or the byte past the end. *)
Fixpoint skip_dots (src : list Z) : list Z :=
  match src with
  | b :: src' => if b =? dot then skip_dots src' else src
  | [] => []
  end.

(** The loop of [dns_d_trim] over the rest of the source, each byte followed by
    the dots it skips. *)
Fixpoint trim_loop (n : nat) (src : list Z) : list Z :=
  match n, src with
  | S n', b :: src' => b :: trim_loop n' (skip_dots src')
  | _, _ => []
  end.

(** [past] is the byte after the source, which the loop reads at its end. *)
Definition dns_d_trim (src : list Z) (past : Z) (flags : Z) : list Z :=
  let src' := skip_dots src in
  let text := trim_loop (length src') src' in
  let lc := match src' with [] => 0 | _ => past end in
  if negb (Z.land flags DNS_D_ANCHOR =? 0) && negb (lc =? dot) then text ++ [dot] else text.

Definition dns_d_anchor (src : list Z) : list Z :=
  match last src with
  | None => []
  | Some b => if b =? dot then src else src ++ [dot]
  end.

(** [dns_d_init]: the string left in [dst]. Trimming is overwritten by the
    branch that follows it. An empty source leaves [dns_d_anchor] without
    having written anything: [old] is what was there. *)
Definition dns_d_init (lim : Z) (old src : list Z) (past flags : Z) : list Z :=
  let old := if Z.land flags DNS_D_TRIM =? 0 then old else cbuf lim (dns_d_trim src past flags) in
  if negb (Z.land flags DNS_D_ANCHOR =? 0) then
    match src with [] => old | _ => cbuf lim (dns_d_anchor src) end
  else cbuf lim src.

(** [memchr (src, '.', len)]: what follows and includes the first dot. *)
Fixpoint from_dot (src : list Z) : option (list Z) :=
  match src with
  | [] => None
  | b :: src' => if b =? dot then Some src else from_dot src'
  end.

Definition dns_d_cleave (src : list Z) : list Z :=
  match src with
  | [] => []
  | _ :: src' =>
      match from_dot src' with
      | None => []
      | Some rest => if 1 <? len rest then drop 1 rest else rest
      end
  end.

(** ** Labels in a packet *)

(** [dns_l_expand]: the label at [src] of the buffer [data], of which [e] bytes
    are in use, and where the next one starts. An invalid label reads as an
    empty one. *)
Fixpoint l_expand (fuel : nat) (nptrs src : Z) (data : list Z) (e : Z) : out (list Z * Z) :=
  match fuel with
  | O => Loop
  | S fuel' =>
      let invalid := Val ([], w16 e) in
      if e <=? src then invalid
      else
        b ← rd data src;
        if tag b =? 0 then
          let n := low6 b in
          let src := w16 (src + 1) in
          if sub64 e src <? n then invalid
          else l ← rdn data src n; Val (l, w16 (src + n))
        else if tag b =? 3 then
          let nptrs := nptrs + 1 in
          if DNS_D_MAXPTRS <? nptrs then invalid
          else if sub64 e src <? 2 then invalid
          else b1 ← rd data (src + 1); l_expand fuel' nptrs (ptr b b1) data e
        else invalid
  end.

(** The pointer limit bounds the retries. *)
Definition dns_l_expand (src : Z) (data : list Z) (e : Z) : out (list Z * Z) :=
  l_expand 128 0 src data e.

Definition dns_l_skip (src : Z) (data : list Z) (e : Z) : out Z :=
  if e <=? src then Val (w16 e)
  else
    b ← rd data src;
    if tag b =? 0 then
      let n := low6 b in
      let src := w16 (src + 1) in
      if sub64 e src <? n then Val (w16 e)
      else Val (if n =? 0 then w16 e else w16 (src + n))
    else Val (w16 e).

(** [dns_d_skip]: the offset after the name at [src]. *)
Fixpoint d_skip (fuel : nat) (src : Z) (P : packet) : out Z :=
  match fuel with
  | O => Loop
  | S fuel' =>
      if src <? p_end P then
        b ← rd (p_data P) src;
        if tag b =? 0 then
          let n := low6 b in
          let src := w16 (src + 1) in
          if n =? 0 then Val src
          else if n <? sub64 (p_end P) src then d_skip fuel' (w16 (src + n)) P
          else Val (w16 (p_end P))
        else if tag b =? 3 then
          if sub64 (p_end P) src <? 2 then Val (w16 (p_end P)) else Val (w16 (src + 2))
        else Val (w16 (p_end P))
      else Val (w16 (p_end P))
  end.

(** Every round of the loop moves forward. *)
Definition dns_d_skip (src : Z) (P : packet) : out Z := d_skip (S (Z.to_nat (p_end P))) src P.

(** [dns_d_expand]: the name at [src] as text; [inl] is the error stored in
    [*error] when the C function returns 0. *)
Fixpoint d_expand (fuel : nat) (nptrs src : Z) (dst : list Z) (P : packet) : out (dns_error + list Z) :=
  match fuel with
  | O => Loop
  | S fuel' =>
      if src <? p_end P then
        b ← rd (p_data P) src;
        if tag b =? 0 then
          let n := low6 b in
          if n =? 0 then Val (inr (match dst with [] => [dot] | _ => dst end))
          else
            let src := w16 (src + 1) in
            if sub64 (p_end P) src <? n then Val (inl DNS_EILLEGAL)
            else
              l ← rdn (p_data P) src n;
              d_expand fuel' 0 (w16 (src + n)) (dst ++ l ++ [dot]) P
        else if tag b =? 3 then
          let nptrs := nptrs + 1 in
          if DNS_D_MAXPTRS <? nptrs then Val (inl DNS_EILLEGAL)
          else if sub64 (p_end P) src <? 2 then Val (inl DNS_EILLEGAL)
          else b1 ← rd (p_data P) (src + 1); d_expand fuel' nptrs (ptr b b1) dst P
        else Val (inl DNS_EILLEGAL)
      else Val (inl DNS_EILLEGAL)
  end.

Definition dns_d_expand (fuel : nat) (src : Z) (P : packet) : out (dns_error + list Z) :=
  d_expand fuel 0 src [] P.

(** ** Encoding a name: [dns_d_comp]

    The text is copied to the buffer [dst] of [lim] bytes label by label: [dp]
    is where the length of the current label goes, [dx] where its next byte
    goes; [n] is the number of bytes of the label so far. *)
Definition put (dst : list Z) (lim i v : Z) : out (list Z) :=
  if i <? lim then wr dst i v else Val dst.

Fixpoint comp_loop (src dst : list Z) (lim dp dx n : Z) : out (list Z * Z) :=
  match src with
  | [] =>
      if 0 <? n then dst' ← put dst lim dp (Z.land 63 n); Val (dst', dx)
      else Val (dst, dp)
  | ch :: src' =>
      if ch =? dot then
        dst' ← put dst lim dp (Z.land 63 n);
        comp_loop src' dst' lim dx (dx + 1) 0
      else
        dst' ← put dst lim dx ch;
        comp_loop src' dst' lim dp (dx + 1) (n + 1)
  end.

(** The encoding proper: the buffer and the length of the name in it. *)
Definition comp_encode (src dst : list Z) (lim : Z) : out (list Z * Z) :=
  '(dst, dp) ← comp_loop src dst lim 0 1 0;
  if 1 <? dp then dst' ← put dst lim dp 0; Val (dst', dp + 1) else Val (dst, dp).

(** Compression compares the labels of the new name with those of the names in
    the dictionary. A cursor: a label, and where the next one starts. *)
Definition cursor : Type := list Z * Z.

(** The innermost loop of the comparison. It advances both cursors; the cursor
    of the new name is not set back when the comparison fails. *)
Fixpoint comp_match (fuel : nat) (a b : cursor) (dst : list Z) (lim : Z) (P : packet) : out (cursor * cursor) :=
  match fuel with
  | O => Loop
  | S fuel' =>
      if negb (len a.1 =? 0) && negb (len b.1 =? 0) && (strcasecmp a.1 b.1 =? 0) then
        a' ← dns_l_expand a.2 dst lim;
        b' ← dns_l_expand b.2 (p_data P) (p_end P);
        comp_match fuel' a' b' dst lim P
      else Val (a, b)
  end.

(** The loop over the suffixes of one name of the dictionary, from [bp]. [al] is
    the label the cursor of the new name holds, [ax] where the label after
    [a.p] starts. It returns the offset of the match, or the label now held. *)
Fixpoint comp_suffixes (fuel : nat) (al : list Z) (ax bp : Z) (dst : list Z) (lim : Z) (P : packet) :
    out (Z + list Z) :=
  match fuel with
  | O => Loop
  | S fuel' =>
      '(bl, bx) ← dns_l_expand bp (p_data P) (p_end P);
      if len bl =? 0 then Val (inr al)
      else
        '(a, b) ← comp_match fuel (al, ax) (bl, bx) dst lim P;
        if (len a.1 =? 0) && (len b.1 =? 0) && (bp <=? 16383) then Val (inl bp)
        else comp_suffixes fuel' a.1 ax bx dst lim P
  end.

(** The loop over the dictionary, up to its first free slot. *)
Fixpoint comp_dict (fuel : nat) (dict : list Z) (al : list Z) (ax : Z) (dst : list Z) (lim : Z) (P : packet) :
    out (option Z) :=
  match dict with
  | [] => Val None
  | d :: dict' =>
      if d =? 0 then Val None
      else
        r ← comp_suffixes fuel al ax d dst lim P;
        match r with
        | inl bp => Val (Some bp)
        | inr al' => comp_dict fuel dict' al' ax dst lim P
        end
  end.

(** The loop over the labels of the new name, from [ap]; [None]: no match. *)
Fixpoint comp_labels (fuel : nat) (ap : Z) (dst : list Z) (lim : Z) (P : packet) : out (option (Z * Z)) :=
  match fuel with
  | O => Loop
  | S fuel' =>
      '(al, ax) ← dns_l_expand ap dst lim;
      if len al =? 0 then Val None
      else
        r ← comp_dict fuel (p_dict P) al ax dst lim P;
        match r with
        | Some bp => Val (Some (ap, bp))
        | None => comp_labels fuel' ax dst lim P
        end
  end.

Definition dns_d_comp (fuel : nat) (dst : list Z) (lim : Z) (src : list Z) (P : packet) : out (list Z * Z) :=
  '(dst, dp) ← comp_encode src dst lim;
  if dp <? lim then
    r ← comp_labels fuel 0 dst lim P;
    match r with
    | Some (ap, bp) =>
        dst ← wr dst ap (Z.lor 192 (Z.land 63 (Z.shiftr bp 8)));
        dst ← wr dst (ap + 1) (Z.land 255 (Z.shiftr bp 0));
        Val (dst, ap + 2)
    | None => Val (dst, dp)
    end
  else Val (dst, dp).

(** ** The dictionary *)

(** Replace the first entry equal to [lptr]; [None] if there is none before the
    first free slot. *)
Fixpoint dict_replace (dict : list Z) (lptr dn : Z) : option (list Z) :=
  match dict with
  | [] => None
  | d :: dict' =>
      if d =? 0 then None
      else if d =? lptr then Some (dn :: dict')
      else match dict_replace dict' lptr dn with Some r => Some (d :: r) | None => None end
  end.

(** Put [dn] in the first free slot. *)
Fixpoint dict_put (dict : list Z) (dn : Z) : list Z :=
  match dict with
  | [] => []
  | d :: dict' => if d =? 0 then dn :: dict' else d :: dict_put dict' dn
  end.

(** The loop of [dns_p_dictadd]: the dictionary with an entry replaced. *)
Fixpoint dictadd_loop (fuel : nat) (lp dn : Z) (P : packet) : out (option (list Z)) :=
  match fuel with
  | O => Loop
  | S fuel' =>
      if lp <? p_end P then
        b ← rd (p_data P) lp;
        r ← (if (Z.land 192 b =? 192) && (2 <=? sub64 (p_end P) lp) && negb (lp =? dn) then
               b1 ← rd (p_data P) (lp + 1); Val (dict_replace (p_dict P) (ptr b b1) dn)
             else Val None);
        match r with
        | Some dict => Val (Some dict)
        | None => lp' ← dns_l_skip lp (p_data P) (p_end P); dictadd_loop fuel' lp' dn P
        end
      else Val None
  end.

Definition dns_p_dictadd (fuel : nat) (P : packet) (dn : Z) : out packet :=
  r ← dictadd_loop fuel dn dn P;
  match r with
  | Some dict => Val (set_dict P dict)
  | None => Val (set_dict P (dict_put (p_dict P) dn))
  end.

(** [dns_d_push]: append a name. When nothing was encoded the result is an
    uninitialised variable. *)
Definition dns_d_push (fuel : nat) (P : packet) (dn : list Z) : out (packet * option dns_error) :=
  let lim := sub64 (p_size P) (p_end P) in
  let dp := p_end P in
  '(dst, n) ← dns_d_comp fuel (drop (Z.to_nat dp) (p_data P)) lim dn P;
  let P1 := set_data P (take (Z.to_nat dp) (p_data P) ++ dst) in
  if n =? 0 then UB
  else if lim <? n then Val (P1, Some DNS_ENOBUFS)
  else
    P2 ← dns_p_dictadd fuel (set_end P1 (dp + n)) (w16 dp);
    Val (P2, None).
