(* ===== verification/DnsNameSpec.v ===== *)
(** Names in packets: what the bytes at an offset mean, and that
    [dns_d_expand], [dns_l_expand] and [dns_d_skip] compute it. *)

From stdpp Require Import prelude.
From Stdlib Require Import ZArith Lia.
From S2P Require Import Prelude DnsBase DnsName.
Local Open Scope Z_scope.

(** ** Bits *)
Lemma low6_mod b : low6 b = b mod 64.
Proof. unfold low6. rewrite Z.land_comm. change 63 with (Z.ones 6). by rewrite Z.land_ones. Qed.

Lemma tag_div b : byte b -> tag b = b / 64.
Proof.
  intros [? ?]. unfold tag. rewrite Z.land_comm. change 3 with (Z.ones 2).
  rewrite Z.land_ones, Z.shiftr_div_pow2 by lia. change (2 ^ 6) with 64.
  apply Z.mod_small. split; [apply Z.div_pos; lia|apply Z.div_lt_upper_bound; lia].
Qed.

Lemma low6_range b : 0 <= low6 b < 64.
Proof. rewrite low6_mod. apply Z.mod_pos_bound. lia. Qed.

Lemma ptr_eq b0 b1 : byte b1 -> ptr b0 b1 = b0 mod 64 * 256 + b1.
Proof.
  intros H1. pose proof (Z.mod_pos_bound b0 64 ltac:(lia)) as H0.
  rewrite <- (be16_eq (b0 mod 64) b1) by (unfold byte in *; lia).
  unfold ptr, be16. f_equal. f_equal.
  rewrite (land_255_byte (b0 mod 64)) by (unfold byte; lia).
  rewrite Z.land_comm. change 63 with (Z.ones 6). by rewrite Z.land_ones by lia.
Qed.

Lemma ptr_range b0 b1 : byte b1 -> 0 <= ptr b0 b1 < 2 ^ 14.
Proof.
  intros H1. rewrite ptr_eq by done. pose proof (Z.mod_pos_bound b0 64 ltac:(lia)).
  unfold byte in *. lia.
Qed.

(** Case analysis on the two tag bits. *)
Lemma tag_cases b : byte b -> tag b = 0 \/ tag b = 1 \/ tag b = 2 \/ tag b = 3.
Proof.
  intros Hb. rewrite tag_div by done. unfold byte in Hb.
  pose proof (Z.div_pos b 64 ltac:(lia) ltac:(lia)).
  pose proof (Z.div_lt_upper_bound b 64 4 ltac:(lia) ltac:(lia)). lia.
Qed.

(** ** The meaning of the bytes at an offset

    [name_at d e p k ls]: in the first [e] bytes of [d], the name at offset [p]
    has the labels [ls], and [k] pointers are followed before the first of
    them. Labels and pointers alternate freely; only runs of pointers are
    bounded, by DNS_D_MAXPTRS. *)
Definition slice (d : list Z) (i n : Z) : list Z := take (Z.to_nat n) (drop (Z.to_nat i) d).

Inductive name_at (d : list Z) (e : Z) : Z -> Z -> list (list Z) -> Prop :=
  | na_root p : 0 <= p < e -> tag (nthz d p) = 0 -> low6 (nthz d p) = 0 -> name_at d e p 0 []
  | na_label p k ls :
      0 <= p < e -> tag (nthz d p) = 0 -> 0 < low6 (nthz d p) -> p + 1 + low6 (nthz d p) <= e ->
      name_at d e (p + 1 + low6 (nthz d p)) k ls ->
      name_at d e p 0 (slice d (p + 1) (low6 (nthz d p)) :: ls)
  | na_ptr p k ls :
      0 <= p -> p + 2 <= e -> tag (nthz d p) = 3 -> k < DNS_D_MAXPTRS ->
      name_at d e (ptr (nthz d p) (nthz d (p + 1))) k ls -> name_at d e p (k + 1) ls.

(** The text of a name: each label followed by a dot; the root is one dot. *)
Definition text (ls : list (list Z)) : list Z := concat ((fun l => l ++ [dot]) <$> ls).
Definition or_root (t : list Z) : list Z := match t with [] => [dot] | _ => t end.

Lemma name_at_depth d e p k ls : name_at d e p k ls -> 0 <= k <= DNS_D_MAXPTRS.
Proof. unfold DNS_D_MAXPTRS. induction 1; unfold DNS_D_MAXPTRS in *; lia. Qed.

Lemma name_at_in d e p k ls : name_at d e p k ls -> 0 <= p < e.
Proof. destruct 1; lia. Qed.

(** Bytes past [e] do not matter, and a name stays where it is when [e] grows. *)
Lemma name_at_mono d d' e e' p k ls :
  Forall byte d -> same_below e d d' -> e <= e' -> name_at d e p k ls -> name_at d' e' p k ls.
Proof.
  intros Hb Hs He. induction 1 as [p Hp Ht Hl|p k ls Hp Ht Hl Hle _ IH|p k ls Hp Hle Ht Hk _ IH].
  - rewrite (same_below_nthz _ _ _ p Hs) in Ht, Hl by lia. constructor; [lia|done|done].
  - rewrite (same_below_nthz _ _ _ p Hs) in * by lia.
    unfold slice. rewrite (same_below_slice _ _ _ _ _ Hs) by (pose proof (low6_range (nthz d' p)); lia).
    apply na_label with k; [lia|done|done|lia|done].
  - rewrite !(same_below_nthz _ _ _ _ Hs) in IH by lia.
    rewrite (same_below_nthz _ _ _ _ Hs) in Ht by lia.
    econstructor; [done|lia|done|done|done].
Qed.

Section Packet.
Context (P : packet) (HP : wf P).
Local Abbreviation d := (p_data P).
Local Abbreviation e := (p_end P).

Lemma rd_ok i : 0 <= i < e -> rd d i = Val (nthz d i).
Proof. intros Hi. apply rd_in. pose proof (wf_len _ HP). pose proof (wf_end _ HP). lia. Qed.

Lemma rdn_ok i n : 0 <= i -> 0 <= n -> i + n <= e -> rdn d i n = Val (slice d i n).
Proof.
  intros. apply rdn_in; try lia. pose proof (wf_len _ HP). pose proof (wf_end _ HP). lia.
Qed.

Lemma e_small : 0 <= e < 2 ^ 16.
Proof. pose proof (wf_end _ HP). pose proof (wf_short _ HP). lia. Qed.

Lemma d_byte i : byte (nthz d i).
Proof. apply nthz_byte, (wf_bytes _ HP). Qed.

(** [dns_d_expand] finds every name. *)
Lemma d_expand_complete p k ls : name_at d e p k ls ->
  exists n, forall fuel nptrs dst, (n <= fuel)%nat -> 0 <= nptrs -> nptrs + k <= DNS_D_MAXPTRS ->
    d_expand fuel nptrs p dst P = Val (inr (or_root (dst ++ text ls))).
Proof.
  pose proof e_small as He.
  induction 1 as [p Hp Ht Hl|p k ls Hp Ht Hl Hle Hna (n & IH)|p k ls Hp Hle Ht Hk Hna (n & IH)].
  - exists 1%nat. intros [|fuel] nptrs dst Hf Hn Hk; [lia|]. cbn [d_expand].
    destruct (Z.ltb_spec p e); [|lia]. rewrite (rd_ok p) by lia. cbn. rewrite Ht, Hl. cbn.
    unfold text. cbn. by rewrite app_nil_r.
  - exists (S n). intros [|fuel] nptrs dst Hf Hn Hk; [lia|]. cbn [d_expand].
    destruct (Z.ltb_spec p e); [|lia]. rewrite (rd_ok p) by lia. cbn. rewrite Ht. cbn.
    destruct (Z.eqb_spec (low6 (nthz d p)) 0); [lia|].
    rewrite (w16_id (p + 1)) by lia. rewrite sub64_id by lia.
    destruct (Z.ltb_spec (e - (p + 1)) (low6 (nthz d p))); [lia|].
    rewrite rdn_ok by lia. cbn. rewrite w16_id by lia.
    pose proof (name_at_depth _ _ _ _ _ Hna). rewrite IH by lia.
    unfold text. cbn. by rewrite !app_assoc.
  - exists (S n). intros [|fuel] nptrs dst Hf Hn Hk'; [lia|]. cbn [d_expand].
    destruct (Z.ltb_spec p e); [|lia]. rewrite (rd_ok p) by lia. cbn. rewrite Ht. cbn.
    destruct (Z.ltb_spec DNS_D_MAXPTRS (nptrs + 1)); [pose proof (name_at_depth _ _ _ _ _ Hna); lia|].
    rewrite sub64_id by lia. destruct (Z.ltb_spec (e - p) 2); [lia|].
    rewrite rd_ok by lia. cbn. apply IH; lia.
Qed.

(** What [dns_d_expand] returns is a name of the packet. *)
Lemma d_expand_sound fuel : forall nptrs p dst t,
  d_expand fuel nptrs p dst P = Val (inr t) -> 0 <= p -> 0 <= nptrs <= DNS_D_MAXPTRS ->
  exists k ls, name_at d e p k ls /\ nptrs + k <= DNS_D_MAXPTRS /\ t = or_root (dst ++ text ls).
Proof.
  pose proof e_small as He.
  induction fuel as [|fuel IH]; intros nptrs p dst t; [done|]. cbn [d_expand].
  intros Hx Hp Hn. destruct (Z.ltb_spec p e); [|done]. rewrite (rd_ok p) in Hx by lia. cbn in Hx.
  pose proof (low6_range (nthz d p)) as Hlow.
  destruct (Z.eqb_spec (tag (nthz d p)) 0) as [Ht|Ht].
  - destruct (Z.eqb_spec (low6 (nthz d p)) 0) as [Hl|Hl].
    + injection Hx as <-. exists 0, []. split; [by constructor|]. split; [lia|].
      unfold text. cbn. by rewrite app_nil_r.
    + rewrite (w16_id (p + 1)), sub64_id in Hx by lia.
      destruct (Z.ltb_spec (e - (p + 1)) (low6 (nthz d p))); [done|].
      rewrite rdn_ok in Hx by lia. cbn in Hx. rewrite w16_id in Hx by lia.
      apply IH in Hx as (k & ls & Hna & _ & ->); [|lia|unfold DNS_D_MAXPTRS; lia].
      exists 0, (slice d (p + 1) (low6 (nthz d p)) :: ls). split.
      * apply na_label with k; lia || done.
      * split; [lia|]. unfold text. cbn. by rewrite !app_assoc.
  - destruct (Z.eqb_spec (tag (nthz d p)) 3) as [Ht3|]; [|done].
    destruct (Z.ltb_spec DNS_D_MAXPTRS (nptrs + 1)); [done|].
    rewrite sub64_id in Hx by lia. destruct (Z.ltb_spec (e - p) 2); [done|].
    rewrite rd_ok in Hx by lia. cbn in Hx.
    apply IH in Hx as (k & ls & Hna & Hk & ->); [|apply ptr_range, d_byte|lia].
    exists (k + 1), ls. split; [|split; [lia|done]].
    constructor; lia || done.
Qed.

(** No input makes [dns_d_expand] leave the packet. *)
Lemma d_expand_safe fuel : forall nptrs p dst, 0 <= p -> d_expand fuel nptrs p dst P <> UB.
Proof.
  pose proof e_small as He.
  induction fuel as [|fuel IH]; intros nptrs p dst Hp; [done|]. cbn [d_expand].
  destruct (Z.ltb_spec p e); [|done]. rewrite (rd_ok p) by lia. cbn.
  pose proof (low6_range (nthz d p)) as Hlow.
  destruct (tag (nthz d p) =? 0).
  - destruct (Z.eqb_spec (low6 (nthz d p)) 0) as [Hl|Hl]; [done|].
    rewrite (w16_id (p + 1)), sub64_id by lia.
    destruct (Z.ltb_spec (e - (p + 1)) (low6 (nthz d p))); [done|].
    rewrite rdn_ok by lia. cbn. rewrite w16_id by lia. apply IH. lia.
  - destruct (tag (nthz d p) =? 3); [|done].
    destruct (DNS_D_MAXPTRS <? nptrs + 1); [done|].
    rewrite sub64_id by lia. destruct (Z.ltb_spec (e - p) 2); [done|].
    rewrite rd_ok by lia. cbn. apply IH. apply ptr_range, d_byte.
Qed.

(** [dns_d_skip] returns, and moves forward within the packet. *)
Lemma d_skip_ok fuel : forall p, 0 <= p < 2 ^ 16 -> 0 <= e - p < Z.of_nat fuel \/ (e < p /\ (0 < fuel)%nat) ->
  exists q, d_skip fuel p P = Val q /\ q <= e /\ (p < e -> p < q) /\ (e <= p -> q = e).
Proof.
  pose proof e_small as He.
  induction fuel as [|fuel IH]; intros p Hp Hf; [lia|]. cbn [d_skip].
  rewrite (w16_id e) by lia.
  destruct (Z.ltb_spec p e); [|exists e; repeat split; lia].
  rewrite (rd_ok p) by lia. cbn. pose proof (low6_range (nthz d p)) as Hlow.
  destruct (tag (nthz d p) =? 0).
  - rewrite (w16_id (p + 1)) by lia. destruct (Z.eqb_spec (low6 (nthz d p)) 0).
    + exists (p + 1). repeat split; lia.
    + rewrite sub64_id by lia. destruct (Z.ltb_spec (low6 (nthz d p)) (e - (p + 1))).
      * rewrite w16_id by lia.
        destruct (IH (p + 1 + low6 (nthz d p))) as (q & Hq & ? & ? & ?); [lia|lia|].
        exists q. rewrite Hq. repeat split; lia.
      * exists e. repeat split; lia.
  - destruct (tag (nthz d p) =? 3); [|exists e; repeat split; lia].
    rewrite sub64_id by lia. destruct (Z.ltb_spec (e - p) 2); [exists e; repeat split; lia|].
    rewrite w16_id by lia. exists (p + 2). repeat split; lia.
Qed.

Lemma dns_d_skip_ok p : 0 <= p < 2 ^ 16 ->
  exists q, dns_d_skip p P = Val q /\ 0 <= q <= e /\ (p < e -> p < q) /\ (e <= p -> q = e).
Proof.
  intros Hp. pose proof e_small as He.
  destruct (d_skip_ok (S (Z.to_nat e)) p Hp) as (q & Hq & ? & ? & ?); [lia|].
  exists q. split; [exact Hq|]. destruct (Z.lt_ge_cases p e); lia.
Qed.
End Packet.

(** [dns_l_expand] returns the first label of a name and where the rest is. *)
Lemma l_expand_name d e p k ls : e <= len d -> e < 2 ^ 16 ->
  name_at d e p k ls -> forall fuel nptrs, k < Z.of_nat fuel -> 0 <= nptrs -> nptrs + k <= DNS_D_MAXPTRS ->
  exists nxt, l_expand fuel nptrs p d e = Val (default [] (head ls), nxt) /\
    (forall l ls', ls = l :: ls' -> exists k', name_at d e nxt k' ls').
Proof.
  intros Hd He.
  induction 1 as [p Hp Ht Hl|p k ls Hp Ht Hl Hle Hna _|p k ls Hp Hle Ht Hk Hna IH];
    intros [|fuel] nptrs Hf Hn Hb; try (pose proof (name_at_depth _ _ _ _ _ Hna); lia); try lia;
    cbn [l_expand]; (destruct (Z.leb_spec e p); [lia|]); rewrite (rd_in d p) by lia; cbn; rewrite Ht; cbn.
  - rewrite (w16_id (p + 1)), sub64_id, Hl by lia.
    destruct (Z.ltb_spec (e - (p + 1)) 0); [lia|]. unfold rdn. cbn. eexists. split; [done|]. done.
  - rewrite (w16_id (p + 1)), sub64_id by lia.
    destruct (Z.ltb_spec (e - (p + 1)) (low6 (nthz d p))); [lia|].
    rewrite rdn_in by lia. cbn. rewrite w16_id by lia. eexists. split; [done|].
    intros l ls' [= _ <-]. by exists k.
  - destruct (Z.ltb_spec DNS_D_MAXPTRS (nptrs + 1)); [pose proof (name_at_depth _ _ _ _ _ Hna); lia|].
    rewrite sub64_id by lia. destruct (Z.ltb_spec (e - p) 2); [lia|].
    rewrite (rd_in d (p + 1)) by lia. cbn. apply IH; lia.
Qed.

Lemma dns_l_expand_name d e p k ls : e <= len d -> e < 2 ^ 16 -> name_at d e p k ls ->
  exists nxt, dns_l_expand p d e = Val (default [] (head ls), nxt) /\
    (forall l ls', ls = l :: ls' -> exists k', name_at d e nxt k' ls').
Proof.
  intros Hd He Hna. pose proof (name_at_depth _ _ _ _ _ Hna) as Hk. unfold DNS_D_MAXPTRS in Hk.
  apply (l_expand_name d e p k ls Hd He Hna); unfold DNS_D_MAXPTRS; lia.
Qed.

(** ** The encoding of a name *)

(** A label as the text of a name has it. *)
Definition label_ok (l : list Z) : Prop := 0 < len l < 64 /\ Forall (fun b => b <> dot) l.

(** The wire format without pointers. *)
Definition wire1 (l : list Z) : list Z := len l :: l.
Definition wires (ls : list (list Z)) : list Z := concat (wire1 <$> ls).
Definition wire (ls : list (list Z)) : list Z := wires ls ++ [0].

Lemma wr_mid l1 x l2 v : wr (l1 ++ x :: l2) (len l1) v = Val (l1 ++ v :: l2).
Proof.
  rewrite wr_in by (autorewrite with len; pose proof (len_nonneg l1); pose proof (len_nonneg l2); lia).
  f_equal. unfold len. rewrite Nat2Z.id. rewrite insert_app_r_alt by lia.
  by rewrite Nat.sub_diag.
Qed.

Lemma put_mid l1 x l2 v lim : len l1 < lim -> put (l1 ++ x :: l2) lim (len l1) v = Val (l1 ++ v :: l2).
Proof. intros. unfold put. destruct (Z.ltb_spec (len l1) lim); [apply wr_mid|lia]. Qed.

(** Copying the bytes [l] of a label whose first bytes are already there. *)
Lemma comp_chars l : forall rest pre x lab post lim,
  Forall (fun b => b <> dot) l -> len l <= len post -> len (pre ++ x :: lab ++ post) <= lim ->
  comp_loop (l ++ rest) (pre ++ x :: lab ++ post) lim (len pre) (len pre + 1 + len lab) (len lab)
  = comp_loop rest (pre ++ x :: (lab ++ l) ++ drop (length l) post) lim
      (len pre) (len pre + 1 + len (lab ++ l)) (len (lab ++ l)).
Proof.
  induction l as [|ch l IH]; intros rest pre x lab post lim Hl Hp Hlim.
  - cbn [app length drop]. by rewrite app_nil_r.
  - inversion Hl as [|? ? Hch Hl']; subst. destruct post as [|y post].
    { autorewrite with len in Hp. pose proof (len_nonneg l). lia. }
    cbn [app comp_loop]. destruct (Z.eqb_spec ch dot); [done|].
    autorewrite with len in Hp, Hlim. pose proof (len_nonneg lab). pose proof (len_nonneg post).
    pose proof (len_nonneg pre).
    replace (pre ++ x :: lab ++ y :: post) with ((pre ++ x :: lab) ++ y :: post) by (by rewrite <- app_assoc).
    replace (len pre + 1 + len lab) with (len (pre ++ x :: lab)) by (autorewrite with len; lia).
    rewrite put_mid by (autorewrite with len; lia). cbn.
    replace (len (pre ++ x :: lab) + 1) with (len pre + 1 + len (lab ++ [ch])) by (autorewrite with len; lia).
    replace (len lab + 1) with (len (lab ++ [ch])) by (autorewrite with len; lia).
    replace ((pre ++ x :: lab) ++ ch :: post) with (pre ++ x :: (lab ++ [ch]) ++ post)
      by (rewrite <- !app_assoc; done).
    rewrite IH; [|done|lia|autorewrite with len; lia].
    by rewrite <- !(app_assoc lab).
Qed.

(** One label with its dot. *)
Lemma comp_one l rest pre x post lim : label_ok l -> len l <= len post -> len (pre ++ x :: post) <= lim ->
  comp_loop ((l ++ [dot]) ++ rest) (pre ++ x :: post) lim (len pre) (len pre + 1) 0
  = comp_loop rest ((pre ++ wire1 l) ++ drop (length l) post) lim
      (len (pre ++ wire1 l)) (len (pre ++ wire1 l) + 1) 0.
Proof.
  intros [Hlen Hdot] Hp Hlim. rewrite <- app_assoc.
  pose proof (comp_chars l ([dot] ++ rest) pre x [] post lim Hdot Hp Hlim) as Hc.
  cbn [app] in Hc. autorewrite with len in Hc. rewrite Z.add_0_r in Hc. cbn [app]. rewrite Hc.
  cbn [app comp_loop]. change (dot =? dot) with true. cbn match.
  pose proof (len_nonneg pre). autorewrite with len in Hlim. pose proof (len_nonneg post).
  rewrite put_mid by lia. cbn.
  replace (Z.land 63 (len l)) with (len l).
  2: { fold (low6 (len l)). rewrite low6_mod, Z.mod_small; lia. }
  unfold wire1. rewrite <- app_assoc. f_equal; autorewrite with len; lia.
Qed.

Lemma comp_text ls : forall pre post lim, Forall label_ok ls -> len (wires ls) <= len post ->
  len (pre ++ post) <= lim -> ls <> [] ->
  comp_loop (text ls) (pre ++ post) lim (len pre) (len pre + 1) 0
  = Val (pre ++ wires ls ++ drop (length (wires ls)) post, len pre + len (wires ls)).
Proof.
  induction ls as [|l ls IH]; intros pre post lim Hok Hp Hlim Hne; [done|]. clear Hne.
  inversion Hok as [|? ? Hl Hls]; subst. unfold text, wires in *. cbn [fmap list_fmap concat] in *.
  destruct post as [|x post].
  { unfold wire1 in Hp. autorewrite with len in Hp. pose proof (len_nonneg l).
    match type of Hp with context [len (concat ?c)] => pose proof (len_nonneg (concat c)) end. lia. }
  unfold wire1 at 1 in Hp. autorewrite with len in Hp.
  match type of Hp with context [len (concat ?c)] => pose proof (len_nonneg (concat c)) end.
  rewrite comp_one; [|done|lia|done]. destruct ls as [|l2 ls].
  - cbn. unfold wire1. rewrite !app_nil_r, <- !app_assoc. autorewrite with len. done.
  - rewrite IH; [|done| |autorewrite with len in *|done].
    + rewrite <- !app_assoc. autorewrite with len. f_equal. f_equal; [|lia].
      f_equal. f_equal. f_equal. rewrite length_app. unfold wire1. cbn [length]. rewrite drop_drop. done.
    + unfold len. rewrite length_drop. unfold len in *. lia.
    + unfold wire1, len in *. cbn [length]. rewrite length_drop. lia.
Qed.

(** A name may be given with or without its last dot. *)
Lemma comp_loop_anchor src : forall dst lim dp dx n,
  (src = [] -> 0 < n) -> (forall b, last src = Some b -> b <> dot) -> 0 <= n ->
  comp_loop (src ++ [dot]) dst lim dp dx n = comp_loop src dst lim dp dx n.
Proof.
  induction src as [|ch src IH]; intros dst lim dp dx n Hn Hlast H0; cbn [app comp_loop].
  - change (dot =? dot) with true. cbn match. destruct (Z.ltb_spec 0 n); [done|]. specialize (Hn eq_refl). lia.
  - destruct (Z.eqb_spec ch dot) as [->|Hch].
    + destruct src as [|b src]; [by destruct (Hlast dot)|].
      destruct (put dst lim dp (Z.land 63 n)); cbn; try done. apply IH; [done|exact Hlast|lia].
    + destruct (put dst lim dx ch); cbn; try done.
      apply IH; [lia| |lia]. intros b Hb. apply Hlast. destruct src; [done|exact Hb].
Qed.

Lemma comp_encode_anchor src dst lim : src <> [] ->
  comp_encode (dns_d_anchor src) dst lim = comp_encode src dst lim.
Proof.
  intros Hne. unfold dns_d_anchor. destruct (last src) as [b|] eqn:E; [|by apply last_None in E].
  destruct (Z.eqb_spec b dot); [done|]. unfold comp_encode. rewrite comp_loop_anchor; [done|done|congruence|lia].
Qed.

Lemma len_wires_pos ls : ls <> [] -> Forall label_ok ls -> 2 <= len (wires ls).
Proof.
  destruct ls as [|l ls]; [done|]. intros _ H. inversion H as [|? ? [Hl _] _]; subst.
  unfold wires. cbn. unfold wire1. autorewrite with len.
  match goal with |- context [len (concat ?c)] => pose proof (len_nonneg (concat c)) end. lia.
Qed.

Lemma comp_encode_text ls post : Forall label_ok ls -> ls <> [] -> len (wire ls) <= len post ->
  comp_encode (text ls) post (len post) = Val (wire ls ++ drop (length (wire ls)) post, len (wire ls)).
Proof.
  intros Hok Hne Hp. unfold comp_encode. pose proof (len_wires_pos ls Hne Hok) as H2.
  unfold wire in *. autorewrite with len in Hp.
  pose proof (comp_text ls [] post (len post) Hok ltac:(lia) ltac:(by cbn) Hne) as Hc.
  cbn [app] in Hc. change (len [] + 1) with 1 in Hc. change (len []) with 0 in Hc. rewrite Z.add_0_l in Hc. rewrite Hc. cbn.
  destruct (Z.ltb_spec 1 (len (wires ls))); [|lia].
  destruct (drop (length (wires ls)) post) as [|y rest] eqn:Ed.
  { apply (f_equal length) in Ed. rewrite length_drop in Ed. unfold len in *. cbn in Ed. lia. }
  rewrite put_mid by lia. cbn. rewrite <- app_assoc. autorewrite with len.
  rewrite Z.add_0_r. do 2 f_equal. cbn. do 2 f_equal.
  rewrite length_app. cbn. by rewrite <- drop_drop, Ed.
Qed.

(** Reading back what was written. *)
Lemma slice_mid pre l post : slice (pre ++ l ++ post) (len pre) (len l) = l.
Proof. unfold slice, len. rewrite !Nat2Z.id, drop_app_length, take_app_length. done. Qed.

Lemma tag_small n : 0 <= n < 64 -> tag n = 0 /\ low6 n = n.
Proof.
  intros. rewrite tag_div, low6_mod by (unfold byte; lia). split; [by apply Z.div_small|by apply Z.mod_small].
Qed.

Lemma name_prefix ls : forall d e pre post q k ls',
  Forall label_ok ls -> d = pre ++ wires ls ++ post -> q = len pre + len (wires ls) ->
  name_at d e q k ls' ->
  name_at d e (len pre) (match ls with [] => k | _ => 0 end) (ls ++ ls').
Proof.
  induction ls as [|l ls IH]; intros d e pre post q k ls' Hok Hd Hq Hna.
  { cbn in *. autorewrite with len in Hq. replace (len pre) with q by lia. done. }
  inversion Hok as [|? ? Hl Hls]; subst. unfold wires in *. cbn in *. unfold wire1 in *. fold wire1 in *.
  pose proof (name_at_in _ _ _ _ _ Hna) as Hin. autorewrite with len in Hin.
  set (w := concat (wire1 <$> ls)) in *. pose proof (len_nonneg w). pose proof (len_nonneg pre).
  destruct Hl as [Hl Hdot].
  assert (nthz (pre ++ (len l :: l ++ w) ++ post) (len pre) = len l) as Hn.
  { rewrite nthz_app_r by lia. by rewrite Z.sub_diag. }
  destruct (tag_small (len l) ltac:(lia)) as [Ht Hlo].
  assert (slice (pre ++ (len l :: l ++ w) ++ post) (len pre + 1) (len l) = l) as Hsl.
  { replace (pre ++ (len l :: l ++ w) ++ post) with ((pre ++ [len l]) ++ l ++ (w ++ post))
      by (rewrite <- !app_assoc; cbn; by rewrite <- app_assoc).
    replace (len pre + 1) with (len (pre ++ [len l])) by (autorewrite with len; lia). apply slice_mid. }
  set (D := pre ++ (len l :: l ++ w) ++ post) in *.
  assert (name_at D e (len pre) 0 (slice D (len pre + 1) (low6 (nthz D (len pre))) :: ls ++ ls')) as Hx.
  { apply na_label with (match ls with [] => k | _ => 0 end); rewrite ?Hn, ?Ht, ?Hlo; try lia.
    replace (len pre + 1 + len l) with (len (pre ++ len l :: l)) by (autorewrite with len; lia).
    eapply (IH _ _ (pre ++ len l :: l) post _ k ls' Hls); [|reflexivity|].
    - unfold D. rewrite <- !app_assoc. cbn. by rewrite <- app_assoc.
    - autorewrite with len in *.
      replace (len pre + (1 + len l) + len w) with (len pre + (1 + (len l + len w))) by lia. exact Hna. }
  by rewrite Hn, Hlo, Hsl in Hx.
Qed.

Lemma name_wire ls d e pre post : Forall label_ok ls -> d = pre ++ wire ls ++ post ->
  len pre + len (wire ls) <= e -> name_at d e (len pre) 0 ls.
Proof.
  intros Hok Hd He. unfold wire in *. autorewrite with len in He.
  pose proof (len_nonneg pre). pose proof (len_nonneg (wires ls)).
  enough (name_at d e (len pre) (match ls with [] => 0 | _ => 0 end) (ls ++ [])) as Hx
    by (rewrite app_nil_r in Hx; by destruct ls).
  apply (name_prefix ls d e pre ([0] ++ post) (len pre + len (wires ls)) 0 []); [done| |done|].
  - rewrite Hd. by rewrite <- app_assoc.
  - assert (nthz d (len pre + len (wires ls)) = 0) as Hn.
    { rewrite Hd, <- app_assoc, nthz_app_r by lia. rewrite nthz_app_r by lia.
      replace (len pre + len (wires ls) - len pre - len (wires ls)) with 0 by lia. done. }
    constructor; rewrite ?Hn; [lia|done|done].
Qed.

Lemma name_at_labels d e p k ls : e <= len d -> name_at d e p k ls -> Forall (fun l => 0 < len l < 64) ls.
Proof.
  intros He. induction 1 as [|p k ls Hp Ht Hl Hle _ IH|]; [constructor| |done].
  constructor; [|done]. pose proof (low6_range (nthz d p)). unfold slice, len in *.
  rewrite length_take, length_drop. lia.
Qed.
