(* ===== verification/DnsNamePush.v ===== *)
(** Appending names to a packet: [dns_d_comp], [dns_p_dictadd], [dns_d_push]. *)

From stdpp Require Import prelude.
From Stdlib Require Import ZArith Lia.
From S2P Require Import Prelude DnsBase DnsName DnsNameSpec.
Local Open Scope Z_scope.

(** ** Compression finds nothing in an empty dictionary *)

Lemma comp_labels_empty d lim P p k ls :
  lim <= len d -> lim < 2 ^ 16 -> hd 0 (p_dict P) = 0 -> name_at d lim p k ls ->
  forall fuel, (length ls < fuel)%nat -> comp_labels fuel p d lim P = Val None.
Proof.
  intros Hd Hl Hdict Hna fuel. revert p k Hna fuel.
  induction ls as [|l ls IH]; intros p k Hna [|fuel] Hf; try (cbn in Hf; lia); cbn [comp_labels].
  all: destruct (dns_l_expand_name _ _ _ _ _ Hd Hl Hna) as (nxt & -> & Hnxt); cbn.
  - done.
  - pose proof (name_at_labels _ _ _ _ _ Hd Hna) as Hlab. inversion Hlab as [|? ? Hl1 _]; subst.
    destruct (Z.eqb_spec (len l) 0); [lia|].
    assert (forall m dict, hd 0 dict = 0 -> comp_dict m dict l nxt d lim P = Val None) as Hc.
    { intros m [|x dict]; cbn; [done|]. intros ->. done. }
    rewrite Hc by done. cbn. destruct (Hnxt l ls eq_refl) as [k' Hna']. eapply IH; [done|]. cbn in Hf. lia.
Qed.

(** ** Compression of a name equal to the first one of the dictionary *)

Definition ascii_label (l : list Z) : Prop := Forall byte l /\ nulfree l.

(** A run of equal labels brings both cursors to the root. *)
Lemma comp_match_all d lim P : lim <= len d -> lim < 2 ^ 16 -> p_end P <= len (p_data P) -> p_end P < 2 ^ 16 ->
  forall lsa lsb la lb pa pb ka kb fuel,
  name_at d lim pa ka lsa -> name_at (p_data P) (p_end P) pb kb lsb ->
  lower la = lower lb -> lower <$> lsa = lower <$> lsb ->
  Forall ascii_label (la :: lsa) -> Forall ascii_label (lb :: lsb) -> 0 < len la ->
  (length lsa + 1 < fuel)%nat ->
  exists xa xb, comp_match fuel (la, pa) (lb, pb) d lim P = Val (([], xa), ([], xb)).
Proof.
  intros Hd Hl Hd' Hl'. induction lsa as [|l lsa IH]; intros lsb la lb pa pb ka kb fuel Hna Hnb Heq Heqs Ha Hb Hpos Hf.
  all: destruct fuel as [|fuel]; [cbn in Hf; lia|]; cbn [comp_match fst snd].
  all: assert (len la = len lb) as Hlen by
    (apply (f_equal length) in Heq; unfold lower in Heq; rewrite !length_fmap in Heq; unfold len; lia).
  all: inversion Ha as [|? ? [Ha1 Ha2] Has]; subst; inversion Hb as [|? ? [Hb1 Hb2] Hbs]; subst.
  all: assert (strcasecmp la lb = 0) as -> by (by apply strcasecmp_eq).
  all: rewrite <- Hlen; (destruct (Z.eqb_spec (len la) 0); [lia|]); cbn [negb andb Z.eqb].
  all: destruct (dns_l_expand_name _ _ _ _ _ Hd Hl Hna) as (na & -> & Hna').
  all: destruct (dns_l_expand_name _ _ _ _ _ Hd' Hl' Hnb) as (nb & -> & Hnb'); cbn [mbind out_bind].
  - destruct lsb; [|done]. destruct fuel; [cbn in Hf; lia|]. cbn. eauto.
  - destruct lsb as [|lb' lsb]; [done|]. cbn in Heqs. injection Heqs as Heq1 Heqs.
    cbn [head default from_option id].
    destruct (Hna' l lsa eq_refl) as [ka' ?]. destruct (Hnb' lb' lsb eq_refl) as [kb' ?].
    pose proof (name_at_labels _ _ _ _ _ Hd Hna) as Hlab. inversion Hlab as [|? ? Hl1 _]; subst.
    eapply IH; [done..|lia|]. cbn in Hf. lia.
Qed.

Lemma comp_labels_same d lim P p k k0 d0 dict ls ls0 :
  lim <= len d -> lim < 2 ^ 16 -> p_end P <= len (p_data P) -> p_end P < 2 ^ 16 ->
  name_at d lim p k ls -> ls <> [] -> p_dict P = d0 :: dict -> d0 <> 0 -> d0 <= 16383 ->
  name_at (p_data P) (p_end P) d0 k0 ls0 -> lower <$> ls = lower <$> ls0 ->
  Forall ascii_label ls -> Forall ascii_label ls0 ->
  forall fuel, (length ls < fuel)%nat -> comp_labels fuel p d lim P = Val (Some (p, d0)).
Proof.
  intros Hd Hl Hd' Hl' Hna Hne Hdict Hd0 H14 Hn0 Heq Ha Hb fuel Hf.
  destruct fuel as [|fuel]; [lia|]. cbn [comp_labels].
  destruct ls as [|l ls]; [done|]. destruct ls0 as [|l0 ls0]; [done|]. cbn in Heq. injection Heq as Heq1 Heqs.
  destruct (dns_l_expand_name _ _ _ _ _ Hd Hl Hna) as (nxt & -> & Hnxt). cbn [mbind out_bind head default from_option id].
  pose proof (name_at_labels _ _ _ _ _ Hd Hna) as Hlab. inversion Hlab as [|? ? Hl1 _]; subst.
  pose proof (name_at_labels _ _ _ _ _ Hd' Hn0) as Hlab0. inversion Hlab0 as [|? ? Hl01 _]; subst.
  destruct (Z.eqb_spec (len l) 0); [lia|]. rewrite Hdict. cbn [comp_dict].
  destruct (Z.eqb_spec d0 0); [done|]. cbn [comp_suffixes].
  destruct (dns_l_expand_name _ _ _ _ _ Hd' Hl' Hn0) as (nxt0 & -> & Hnxt0). cbn [mbind out_bind head default from_option id].
  destruct (Z.eqb_spec (len l0) 0); [lia|].
  destruct (Hnxt l ls eq_refl) as [k' ?]. destruct (Hnxt0 l0 ls0 eq_refl) as [k0' ?].
  edestruct (comp_match_all d lim P Hd Hl Hd' Hl' ls ls0 l l0 nxt nxt0 k' k0' (S fuel)) as (xa & xb & ->);
    [done..|lia|cbn in Hf; lia|]. cbn.
  by destruct (Z.leb_spec d0 16383); [|lia].
Qed.

(** ** The dictionary after a push *)

Lemma not_ptr n : 0 <= n < 64 -> (Z.land 192 n =? 192) = false.
Proof.
  intros Hn. assert (forall n, (n < 64)%nat -> (Z.land 192 (Z.of_nat n) =? 192) = false) as Hc.
  { intros m Hm. do 64 (destruct m as [|m]; [done|]). lia. }
  rewrite <- (Z2Nat.id n) by lia. apply Hc. lia.
Qed.

Lemma l_skip_label P p n : wf P -> 0 <= p -> nthz (p_data P) p = n -> 0 <= n < 64 -> p + 1 + n <= p_end P ->
  dns_l_skip p (p_data P) (p_end P) = Val (if n =? 0 then p_end P else p + 1 + n).
Proof.
  intros HP Hp Hb Hn He. pose proof (e_small P HP). unfold dns_l_skip.
  destruct (Z.leb_spec (p_end P) p); [lia|]. rewrite (rd_ok P HP) by lia. cbn [mbind out_bind].
  rewrite Hb. destruct (tag_small n Hn) as [-> ->]. change (0 =? 0) with true. cbn match.
  rewrite (w16_id (p + 1)), sub64_id by lia. destruct (Z.ltb_spec (p_end P - (p + 1)) n); [lia|].
  rewrite !w16_id by lia. done.
Qed.

(** A name without pointers leaves the entries of the dictionary alone. *)
Lemma dictadd_wire P ls pre post : wf P -> p_data P = pre ++ wire ls ++ post -> p_end P = len (pre ++ wire ls) ->
  Forall label_ok ls -> forall fuel dn, (S (length ls) < fuel)%nat ->
  dictadd_loop fuel (len pre) dn P = Val None.
Proof.
  intros HP. revert pre. induction ls as [|l ls IH]; intros pre Hdata He Hok [|fuel] dn Hf; try lia.
  all: cbn [dictadd_loop]; pose proof (len_nonneg pre); pose proof (len_nonneg post); pose proof (e_small P HP).
  - change (wire []) with [0] in *. autorewrite with len in He.
    assert (nthz (p_data P) (len pre) = 0) as Hn by (rewrite Hdata, nthz_app_r by lia; by rewrite Z.sub_diag).
    destruct (Z.ltb_spec (len pre) (p_end P)); [|lia].
    rewrite (rd_ok P HP (len pre)) by lia. cbn [mbind out_bind].
    rewrite Hn, not_ptr by lia. cbn [andb mbind out_bind].
    rewrite (l_skip_label P _ 0) by (done || lia). cbn [mbind out_bind Z.eqb].
    destruct fuel; [cbn in Hf; lia|]. cbn [dictadd_loop]. by rewrite Z.ltb_irrefl.
  - inversion Hok as [|? ? [Hl Hdot] Hls]; subst.
    assert (wire (l :: ls) = len l :: l ++ wire ls) as Hw by (unfold wire, wires; cbn; by rewrite <- app_assoc).
    rewrite Hw in *. autorewrite with len in He. pose proof (len_nonneg (wire ls)).
    assert (nthz (p_data P) (len pre) = len l) as Hn by (rewrite Hdata, nthz_app_r by lia; by rewrite Z.sub_diag).
    destruct (Z.ltb_spec (len pre) (p_end P)); [|lia].
    rewrite (rd_ok P HP (len pre)) by lia. cbn [mbind out_bind].
    rewrite Hn, not_ptr by lia. cbn [andb mbind out_bind].
    rewrite (l_skip_label P _ (len l)) by (done || lia). destruct (Z.eqb_spec (len l) 0); [lia|]. cbn [mbind out_bind].
    replace (len pre + 1 + len l) with (len (pre ++ len l :: l)) by (autorewrite with len; lia).
    apply IH; [|autorewrite with len; lia|done|cbn in Hf; lia].
    rewrite Hdata, <- !app_assoc. cbn. by rewrite <- app_assoc.
Qed.

(** A name that is one pointer is added to the dictionary as it is. *)
Lemma dictadd_ptr P p fuel : wf P -> p = p_end P - 2 -> tag (nthz (p_data P) p) = 3 -> (1 < fuel)%nat ->
  dictadd_loop fuel p p P = Val None.
Proof.
  intros HP Hp Ht Hf. destruct fuel as [|[|fuel]]; [lia|lia|].
  pose proof (e_small P HP). pose proof (wf_end P HP). cbn [dictadd_loop].
  destruct (Z.ltb_spec p (p_end P)); [|lia]. rewrite (rd_ok P HP p) by lia. cbn [mbind out_bind].
  rewrite Z.eqb_refl, andb_false_r. cbn [mbind out_bind]. unfold dns_l_skip.
  destruct (Z.leb_spec (p_end P) p); [lia|]. rewrite (rd_ok P HP p) by lia. cbn [mbind out_bind].
  rewrite Ht. cbn [mbind out_bind Z.eqb]. rewrite w16_id by lia. by rewrite Z.ltb_irrefl.
Qed.

(** ** Pushing a name *)

(** What a successful push of a name at the end of the packet leaves. *)
Record pushed (P P' : packet) (bytes : list Z) : Prop := {
  pu_data : exists tail, p_data P' = take (Z.to_nat (p_end P)) (p_data P) ++ bytes ++ tail;
  pu_len : len (p_data P') = p_size P;
  pu_bytes : Forall byte (p_data P');
  pu_end : p_end P' = p_end P + len bytes;
  pu_size : p_size P' = p_size P;
}.

Lemma len_take_end P : wf P -> len (take (Z.to_nat (p_end P)) (p_data P)) = p_end P.
Proof. intros HP. pose proof (wf_len P HP). pose proof (wf_end P HP). unfold len in *. rewrite length_take. lia. Qed.

Lemma pushed_data_pre P P' bs : wf P -> pushed P P' bs ->
  exists pre post, p_data P' = pre ++ bs ++ post /\ len pre = p_end P.
Proof. intros HP [[tail Hd] _ _ _ _]. do 2 eexists. split; [exact Hd|by apply len_take_end]. Qed.

Lemma pushed_fits P P' bs : wf P -> pushed P P' bs -> p_end P + len bs <= p_size P.
Proof.
  intros HP Hpu. destruct (pushed_data_pre P P' bs HP Hpu) as (pre & post & Hd & Hpre).
  pose proof (pu_len _ _ _ Hpu) as Hl. rewrite Hd in Hl. rewrite !len_app in Hl. pose proof (len_nonneg post). lia.
Qed.

Lemma pushed_same P P' bs : wf P -> pushed P P' bs -> same_below (p_end P) (p_data P) (p_data P').
Proof.
  intros HP Hpu. pose proof (wf_len P HP). pose proof (wf_end P HP). pose proof (len_take_end P HP).
  destruct Hpu as [[tail Hd] Hl _ _ _]. unfold same_below. split_and!; [lia|lia|].
  rewrite Hd, take_app_length' by (unfold len in *; lia). done.
Qed.

Lemma pushed_wf P P' bs : wf P -> pushed P P' bs -> length (p_dict P') = 16%nat ->
  p_end P + len bs < 2 ^ 16 -> wf P'.
Proof.
  intros HP Hpu Hdict Hsh. pose proof (wf_end P HP). pose proof (pushed_fits _ _ _ HP Hpu). pose proof (len_nonneg bs).
  pose proof (wf_size P HP). destruct Hpu as [_ Hl Hb He Hs]. split; try lia; done.
Qed.

Lemma pushed_name P P' bs k ls p : wf P -> pushed P P' bs ->
  name_at (p_data P) (p_end P) p k ls -> name_at (p_data P') (p_end P') p k ls.
Proof.
  intros HP Hpu. apply name_at_mono; [apply (wf_bytes P HP)|by apply (pushed_same P P' bs)|].
  rewrite (pu_end _ _ _ Hpu). pose proof (len_nonneg bs). lia.
Qed.

Lemma length_dict_put dict dn : length (dict_put dict dn) = length dict.
Proof. induction dict as [|d dict IH]; cbn; [done|]. destruct (d =? 0); cbn; by rewrite ?IH. Qed.

Lemma set_bytes_data P dst n : set_end (set_data P dst) n =
  Packet (p_dict P) (p_qd P) (p_an P) (p_ns P) (p_ar P) (p_size P) n dst.
Proof. done. Qed.

Lemma Forall_byte_wire ls : Forall label_ok ls -> Forall (Forall byte) ls -> Forall byte (wire ls).
Proof.
  intros Hok Hb. unfold wire. apply Forall_app. split; [|repeat constructor; unfold byte; lia].
  unfold wires. induction ls as [|l ls IH]; cbn; [constructor|].
  inversion Hok as [|? ? [Hl _] ?]; inversion Hb; subst.
  constructor; [unfold byte; lia|]. apply Forall_app. auto.
Qed.

(** The first name of a packet is written out in full. *)
Lemma d_push_first P ls src fuel :
  wf P -> p_size P < 2 ^ 16 -> hd 0 (p_dict P) = 0 ->
  Forall label_ok ls -> Forall (Forall byte) ls -> ls <> [] -> dns_d_anchor src = text ls ->
  len (wire ls) <= p_size P - p_end P -> (S (length ls) < fuel)%nat ->
  exists P', dns_d_push fuel P src = Val (P', None) /\ pushed P P' (wire ls) /\
    p_dict P' = dict_put (p_dict P) (p_end P) /\ p_qd P' = p_qd P /\ p_an P' = p_an P /\
    p_ns P' = p_ns P /\ p_ar P' = p_ar P.
Proof.
  intros HP Hsz Hdict Hok Hb Hne Hsrc Hfit Hf.
  pose proof (wf_len P HP). pose proof (wf_end P HP). pose proof (len_wires_pos ls Hne Hok) as H2.
  assert (len (wire ls) = len (wires ls) + 1) as Hw by (unfold wire; by autorewrite with len).
  assert (src <> []) as Hsrc0.
  { intros ->. cbn in Hsrc. destruct ls as [|l ls]; [done|]. unfold text in Hsrc. cbn in Hsrc. by destruct l. }
  set (post := drop (Z.to_nat (p_end P)) (p_data P)).
  assert (len post = p_size P - p_end P) as Hpost by (unfold post, len in *; rewrite length_drop; lia).
  set (dst := wire ls ++ drop (length (wire ls)) post).
  assert (len dst = len post) as Hdst
    by (unfold dst, len in *; rewrite length_app, length_drop; lia).
  assert (comp_encode src post (len post) = Val (dst, len (wire ls))) as Henc.
  { rewrite <- comp_encode_anchor, Hsrc by done. apply comp_encode_text; [done|done|lia]. }
  assert (dns_d_comp fuel post (len post) src P = Val (dst, len (wire ls))) as Hcomp.
  { unfold dns_d_comp. rewrite Henc. cbn [mbind out_bind]. destruct (Z.ltb_spec (len (wire ls)) (len post)); [|done].
    rewrite (comp_labels_empty dst (len post) P 0 0 ls); [done|lia|lia|done| |lia].
    apply (name_wire ls dst (len post) [] (drop (length (wire ls)) post)); [done|done|].
    change (len []) with 0. lia. }
  set (P1 := set_end (set_data P (take (Z.to_nat (p_end P)) (p_data P) ++ dst)) (p_end P + len (wire ls))).
  assert (pushed P P1 (wire ls)) as Hpu.
  { pose proof (len_take_end P HP). split; cbn; [by eexists|rewrite len_app; lia| |done|done].
    apply Forall_app. split; [apply Forall_take, (wf_bytes P HP)|].
    unfold dst, post. apply Forall_app. split; [by apply Forall_byte_wire|do 2 apply Forall_drop; apply (wf_bytes P HP)]. }
  assert (wf P1) as HP1.
  { eapply pushed_wf; [done|exact Hpu|apply (wf_dict P HP)|lia]. }
  assert (dictadd_loop fuel (p_end P) (p_end P) P1 = Val None) as Hadd.
  { destruct (pushed_data_pre P P1 (wire ls) HP Hpu) as (pre & post' & Hd & Hpre). rewrite <- Hpre.
    apply (dictadd_wire P1 ls pre post'); [done|done| |done|done].
    autorewrite with len. cbn. lia. }
  exists (set_dict P1 (dict_put (p_dict P) (p_end P))). split; [|split; [by destruct Hpu|done]].
  unfold dns_d_push. rewrite sub64_id by (pose proof (wf_size P HP); lia). rewrite <- Hpost. fold post.
  rewrite Hcomp. cbn [mbind out_bind]. destruct (Z.eqb_spec (len (wire ls)) 0); [lia|].
  destruct (Z.ltb_spec (len post) (len (wire ls))); [lia|].
  unfold dns_p_dictadd. rewrite w16_id by (pose proof (e_small P HP); lia).
  fold P1. rewrite Hadd. done.
Qed.

(** The two bytes of a pointer. *)
Definition pointer (p : Z) : list Z :=
  [Z.lor 192 (Z.land 63 (Z.shiftr p 8)); Z.land 255 (Z.shiftr p 0)].

Lemma lor_192 n : 0 <= n < 64 -> Z.lor 192 n = 192 + n.
Proof.
  intros Hn. assert (forall m, (m < 64)%nat -> Z.lor 192 (Z.of_nat m) = 192 + Z.of_nat m) as Hc.
  { intros m Hm. do 64 (destruct m as [|m]; [done|]). lia. }
  rewrite <- (Z2Nat.id n) by lia. apply Hc. lia.
Qed.

Lemma pointer_eq p : 0 <= p < 2 ^ 14 -> pointer p = [192 + p / 256; p mod 256].
Proof.
  intros Hp. unfold pointer. rewrite Z.shiftr_0_r, Z.shiftr_div_pow2 by lia. change (2 ^ 8) with 256.
  assert (0 <= p / 256 < 64) by (split; [apply Z.div_pos; lia|apply Z.div_lt_upper_bound; lia]).
  rewrite !(Z.land_comm _ (p / 256)), !(Z.land_comm 255). change 63 with (Z.ones 6). change 255 with (Z.ones 8).
  rewrite !Z.land_ones by lia. rewrite (Z.mod_small (p / 256)) by (change (2 ^ 6) with 64; lia). by rewrite lor_192 by lia.
Qed.

Lemma pointer_ok p : 0 <= p < 2 ^ 14 ->
  tag (nthz (pointer p) 0) = 3 /\ ptr (nthz (pointer p) 0) (nthz (pointer p) 1) = p /\ Forall byte (pointer p).
Proof.
  intros Hp. rewrite pointer_eq by done.
  assert (0 <= p / 256 < 64) by (split; [apply Z.div_pos; lia|apply Z.div_lt_upper_bound; lia]).
  pose proof (Z.mod_pos_bound p 256 ltac:(lia)). cbn [nthz]. change (nthz [192 + p / 256; p mod 256] 0) with (192 + p / 256).
  change (nthz [192 + p / 256; p mod 256] 1) with (p mod 256). split_and!.
  - rewrite tag_div by (unfold byte; lia). symmetry. apply (Z.div_unique _ _ _ (p / 256)); lia.
  - rewrite ptr_eq by (unfold byte; lia).
    rewrite <- (Z.mod_unique (192 + p / 256) 64 3 (p / 256)) by lia. pose proof (Z.div_mod p 256). lia.
  - repeat constructor; unfold byte; lia.
Qed.

Lemma pointer_name d e pre p post k ls : d = pre ++ pointer p ++ post -> len pre + 2 <= e -> 0 <= p < 2 ^ 14 ->
  name_at d e p k ls -> k < DNS_D_MAXPTRS -> name_at d e (len pre) (k + 1) ls.
Proof.
  intros Hd He Hp Hna Hk. destruct (pointer_ok p Hp) as (Ht & Hpt & _). pose proof (len_nonneg pre).
  assert (nthz d (len pre) = nthz (pointer p) 0) as H0
    by (rewrite Hd, nthz_app_r by lia; by rewrite Z.sub_diag).
  assert (nthz d (len pre + 1) = nthz (pointer p) 1) as H1.
  { rewrite Hd, nthz_app_r by lia. replace (len pre + 1 - len pre) with 1 by lia. done. }
  constructor; [lia|lia| |done|]; rewrite H0; [done|]. by rewrite H1, Hpt.
Qed.

(** A name equal, up to case, to the first one of the dictionary becomes a
    pointer to it. *)
Lemma d_push_same P ls ls0 src d0 dict k0 fuel :
  wf P -> p_size P < 2 ^ 16 -> p_dict P = d0 :: dict -> 0 < d0 < 2 ^ 14 ->
  name_at (p_data P) (p_end P) d0 k0 ls0 -> k0 < DNS_D_MAXPTRS ->
  Forall label_ok ls -> Forall ascii_label ls -> Forall ascii_label ls0 -> ls <> [] ->
  lower <$> ls = lower <$> ls0 -> dns_d_anchor src = text ls ->
  len (wire ls) < p_size P - p_end P -> (S (length ls) < fuel)%nat ->
  exists P', dns_d_push fuel P src = Val (P', None) /\ p_end P' = p_end P + 2 /\ wf P' /\
    same_below (p_end P) (p_data P) (p_data P') /\
    name_at (p_data P') (p_end P') (p_end P) (k0 + 1) ls0 /\ p_dict P' = dict_put (p_dict P) (p_end P) /\
    exists rest, p_data P' = take (Z.to_nat (p_end P)) (p_data P) ++ pointer d0 ++ rest.
Proof.
  intros HP Hsz Hdict Hd0 Hn0 Hk0 Hok Ha Ha0 Hne Heq Hsrc Hfit Hf.
  pose proof (wf_len P HP). pose proof (wf_end P HP). pose proof (len_wires_pos ls Hne Hok) as H2.
  assert (len (wire ls) = len (wires ls) + 1) as Hw by (unfold wire; by autorewrite with len).
  assert (src <> []) as Hsrc0.
  { intros ->. cbn in Hsrc. destruct ls as [|l ls]; [done|]. unfold text in Hsrc. cbn in Hsrc. by destruct l. }
  set (post := drop (Z.to_nat (p_end P)) (p_data P)).
  assert (len post = p_size P - p_end P) as Hpost by (unfold post, len in *; rewrite length_drop; lia).
  set (dst := wire ls ++ drop (length (wire ls)) post).
  assert (len dst = len post) as Hdst by (unfold dst, len in *; rewrite length_app, length_drop; lia).
  assert (comp_encode src post (len post) = Val (dst, len (wire ls))) as Henc.
  { rewrite <- comp_encode_anchor, Hsrc by done. apply comp_encode_text; [done|done|lia]. }
  assert (exists rest, dns_d_comp fuel post (len post) src P = Val (pointer d0 ++ rest, 2) /\ len rest = len post - 2
            /\ Forall byte rest) as (rest & Hcomp & Hrest & Hbrest).
  { unfold dns_d_comp. rewrite Henc. cbn [mbind out_bind]. destruct (Z.ltb_spec (len (wire ls)) (len post)); [|lia].
    assert (name_at dst (len post) 0 0 ls) as Hnd.
    { apply (name_wire ls dst (len post) [] (drop (length (wire ls)) post)); [done|done|].
      change (len []) with 0. lia. }
    rewrite (comp_labels_same dst (len post) P 0 0 k0 d0 dict ls ls0); try done; try (pose proof (e_small P HP); lia).
    cbn [mbind out_bind]. assert (Forall byte dst) as Hbd.
      { unfold dst. apply Forall_app. split; [|unfold post; do 2 apply Forall_drop; apply (wf_bytes P HP)].
        apply Forall_byte_wire; [done|]. eapply Forall_impl; [exact Ha|]. by intros l [? _]. }
      clearbody dst. destruct dst as [|x [|y dst']]; autorewrite with len in Hdst; [lia|lia|].
      exists dst'. split_and!; [|lia|by inversion Hbd as [|? ? ? Hb2]; inversion Hb2].
      rewrite wr_in by (autorewrite with len; pose proof (len_nonneg dst'); lia). cbn [mbind out_bind].
      rewrite wr_in by (autorewrite with len; pose proof (len_nonneg dst'); lia). done. }
  destruct (pointer_ok d0 ltac:(lia)) as (Ht & Hpt & Hbp).
  set (data1 := take (Z.to_nat (p_end P)) (p_data P) ++ pointer d0 ++ rest).
  set (P1 := set_end (set_data P data1) (p_end P + 2)).
  assert (len (take (Z.to_nat (p_end P)) (p_data P)) = p_end P) as Hpre by (unfold len in *; rewrite length_take; lia).
  assert (wf P1) as HP1.
  { split; cbn; try lia.
    - unfold data1. rewrite !len_app, Hpre, Hrest. change (len (pointer d0)) with 2. lia.
    - unfold data1. repeat (apply Forall_app; split); [apply Forall_take, (wf_bytes P HP)|done|done].
    - apply (wf_dict P HP). }
  assert (dictadd_loop fuel (p_end P) (p_end P) P1 = Val None) as Hadd.
  { apply dictadd_ptr; [done|cbn; lia| |lia].
    change (p_data P1) with data1. unfold data1. rewrite nthz_app_r by lia. rewrite Hpre, Z.sub_diag. exact Ht. }
  assert (same_below (p_end P) (p_data P) data1) as Hsame.
  { split_and!; [lia| |].
    - unfold data1. rewrite len_app, Hpre. pose proof (len_nonneg (pointer d0 ++ rest)). lia.
    - unfold data1. rewrite take_app_length' by (unfold len in *; lia). done. }
  exists (set_dict P1 (dict_put (p_dict P) (p_end P))). split_and!; [|done| |done| |done|by exists rest].
  - unfold dns_d_push. rewrite sub64_id by (pose proof (wf_size P HP); lia). rewrite <- Hpost. fold post.
    rewrite Hcomp. cbn [mbind out_bind Z.eqb]. destruct (Z.ltb_spec (len post) 2); [lia|].
    unfold dns_p_dictadd. rewrite w16_id by (pose proof (e_small P HP); lia).
    fold data1. fold P1. rewrite Hadd. done.
  - destruct HP1. split; cbn in *; try done. by rewrite length_dict_put.
  - cbn. rewrite <- Hpre at 2. eapply (pointer_name data1 (p_end P + 2) _ d0 rest k0 ls0); [done|lia|lia| |done].
    eapply name_at_mono; [apply (wf_bytes P HP)|exact Hsame|lia|done].
Qed.
