(* ===== verification/DnsNameThm.v ===== *)
(** Properties of the domain-name routines of libdns. *)

From stdpp Require Import prelude.
From Stdlib Require Import ZArith Lia.
From S2P Require Import Prelude DnsBase DnsName DnsNameSpec DnsNamePush.
Local Open Scope Z_scope.

(** C16: [dns_d_expand] computes the meaning of the bytes. It returns a text for
    some amount of iterations exactly when the labels and pointers at the offset
    form a finite name (with at most DNS_D_MAXPTRS pointers in a row), and the
    text is the one of that name. *)
Theorem expand_refines_name P p t :
  wf P -> 0 <= p ->
  (exists fuel, dns_d_expand fuel p P = Val (inr t)) <->
  (exists k ls, name_at (p_data P) (p_end P) p k ls /\ t = or_root (text ls)).
Proof.
  intros HP Hp. split.
  - intros [fuel Hx]. apply (d_expand_sound P HP) in Hx as (k & ls & Hna & _ & ->);
      [|done|unfold DNS_D_MAXPTRS; lia]. eauto.
  - intros (k & ls & Hna & ->). destruct (d_expand_complete P HP p k ls Hna) as [n Hn].
    exists n. apply (Hn n 0 []); [lia|lia|]. pose proof (name_at_depth _ _ _ _ _ Hna). lia.
Qed.

(** C36: no packet, however malformed, makes [dns_d_expand] read outside the
    packet buffer, from any offset and for any number of iterations. *)
Theorem expand_memory_safe P p fuel : wf P -> 0 <= p -> dns_d_expand fuel p P <> UB.
Proof. intros HP Hp. by apply d_expand_safe. Qed.

(** [dns_d_skip] terminates on every packet, stays inside it, and moves
    forward unless it is at the end; the loops over records rely on it. *)
Theorem skip_makes_progress P p : wf P -> 0 <= p < 2 ^ 16 ->
  exists q, dns_d_skip p P = Val q /\ 0 <= q <= p_end P /\ (p < p_end P -> p < q).
Proof. intros HP Hp. destruct (dns_d_skip_ok P HP p Hp) as (q & ? & ? & ? & _). eauto. Qed.

(** C25: encode and decode. A name of proper labels pushed as the first name of a
    packet that has room for it, given with or without its final dot, is read
    back by [dns_d_expand] byte for byte; the bytes before it are untouched, the
    packet stays well formed and the name enters the dictionary. *)
Theorem push_expand_roundtrip P ls src fuel :
  wf P -> p_size P < 2 ^ 16 -> hd 0 (p_dict P) = 0 ->
  Forall label_ok ls -> Forall (Forall byte) ls -> ls <> [] -> dns_d_anchor src = text ls ->
  len (wire ls) <= p_size P - p_end P -> (S (length ls) < fuel)%nat ->
  exists P', dns_d_push fuel P src = Val (P', None) /\ wf P' /\
    p_end P' = p_end P + len (wire ls) /\ p_dict P' = dict_put (p_dict P) (p_end P) /\
    same_below (p_end P) (p_data P) (p_data P') /\
    exists n, forall m, (n <= m)%nat -> dns_d_expand m (p_end P) P' = Val (inr (text ls)).
Proof.
  intros HP Hsz Hdict Hok Hb Hne Hsrc Hfit Hf.
  destruct (d_push_first P ls src fuel) as (P' & Hpush & Hpu & Hd & _); [done..|].
  pose proof (wf_end P HP).
  assert (wf P') as HP'.
  { eapply pushed_wf; [done|exact Hpu| |lia].
    rewrite Hd, length_dict_put. apply (wf_dict P HP). }
  exists P'. split_and!; [done|done|by destruct Hpu|done|by eapply pushed_same|].
  destruct (pushed_data_pre P P' _ HP Hpu) as (pre & post & Hdata & Hpre).
  assert (name_at (p_data P') (p_end P') (p_end P) 0 ls) as Hna.
  { rewrite <- Hpre. apply (name_wire ls _ _ pre post); [done|done|]. rewrite (pu_end _ _ _ Hpu). lia. }
  destruct (d_expand_complete P' HP' _ _ _ Hna) as [n Hn]. exists n. intros m Hm.
  unfold dns_d_expand. rewrite (Hn m 0 []); [|done|lia|unfold DNS_D_MAXPTRS; lia]. cbn.
  unfold or_root. destruct ls as [|l ls]; [done|]. unfold text. cbn. by destruct l.
Qed.

(** a name that equals the first name of the dictionary, up to case, takes
    two bytes, and reads back as that name. *)
Theorem repeated_name_is_pointer P ls ls0 src d0 dict k0 fuel :
  wf P -> p_size P < 2 ^ 16 -> p_dict P = d0 :: dict -> 0 < d0 < 2 ^ 14 ->
  name_at (p_data P) (p_end P) d0 k0 ls0 -> k0 < DNS_D_MAXPTRS ->
  Forall label_ok ls -> Forall ascii_label ls -> Forall ascii_label ls0 -> ls <> [] ->
  lower <$> ls = lower <$> ls0 -> dns_d_anchor src = text ls ->
  len (wire ls) < p_size P - p_end P -> (S (length ls) < fuel)%nat ->
  exists P', dns_d_push fuel P src = Val (P', None) /\ wf P' /\ p_end P' = p_end P + 2 /\
    exists n, forall m, (n <= m)%nat -> dns_d_expand m (p_end P) P' = Val (inr (or_root (text ls0))).
Proof.
  intros HP Hsz Hdict Hd0 Hn0 Hk0 Hok Ha Ha0 Hne Heq Hsrc Hfit Hf.
  destruct (d_push_same P ls ls0 src d0 dict k0 fuel) as (P' & Hpush & He & HP' & _ & Hna & _ & _); [done..|].
  exists P'. split_and!; [done..|]. destruct (d_expand_complete P' HP' _ _ _ Hna) as [n Hn].
  exists n. intros m Hm. apply (Hn m 0 []); [done|lia|unfold DNS_D_MAXPTRS in *; lia].
Qed.

(** ** Defects *)

(** A packet of [size] bytes whose payload starts with [body]. *)
Definition packet_of (size : nat) (body : list Z) : packet :=
  Packet (replicate 16 0) (Memo 0 0) (Memo 0 0) (Memo 0 0) (Memo 0 0)
    (Z.of_nat size) (12 + len body) (replicate 12 0 ++ body ++ replicate (size - 12 - length body) 0).

(** A packet whose name is the label "a" followed by a pointer to itself. *)
Definition cyclic : packet := packet_of 16 [1; 97; 192; 12].

Lemma cyclic_loops fuel : forall n dst, 0 <= n < DNS_D_MAXPTRS ->
  d_expand fuel n 12 dst cyclic = Loop /\ d_expand fuel 0 14 dst cyclic = Loop.
Proof.
  induction fuel as [|fuel IH]; intros n dst Hn; [done|]. split.
  - transitivity (d_expand fuel 0 14 (dst ++ [97; dot]) cyclic); [reflexivity|]. by apply (IH 0).
  - transitivity (d_expand fuel 1 12 dst cyclic); [reflexivity|]. apply IH. unfold DNS_D_MAXPTRS. lia.
Qed.

(** [dns_d_expand] does not terminate on a name that points back to one of
    its own labels. The count of pointers that should stop it is reset after
    every label, so a four-byte name in a received packet hangs the resolver. *)
Theorem expand_loops_on_cycle : forall fuel, dns_d_expand fuel 12 cyclic = Loop.
Proof. intros fuel. apply (cyclic_loops fuel 0 []). unfold DNS_D_MAXPTRS. lia. Qed.

(** Push names one after another. *)
Fixpoint push_all (fuel : nat) (P : packet) (names : list (list Z)) : out packet :=
  match names with
  | [] => Val P
  | n :: names' =>
      '(P', err) ← dns_d_push fuel P n;
      match err with None => push_all fuel P' names' | Some _ => UB end
  end.

(** compression can encode a different name. After a partial match the
    cursor of the new name keeps the label where the comparison stopped instead
    of the one it started from. With "x.q." and "y.y.z." in the packet, pushing
    "x.y.z." (120 46 121 46 122 46) reports success and writes a pointer that
    reads back as "y.y.z.". *)
Theorem compression_writes_other_name :
  (P ← push_all 40 (packet_of 100 [])
         [[120; 46; 113; 46]; [121; 46; 121; 46; 122; 46]; [120; 46; 121; 46; 122; 46]];
   dns_d_expand 40 24 P) = Val (inr [121; 46; 121; 46; 122; 46]).
Proof. vm_compute. reflexivity. Qed.

(** a label of 64 bytes is not refused: its length is masked to 0, and the
    name that was pushed reads back as the root. *)
Theorem long_label_becomes_root :
  (P ← push_all 99 (packet_of 200 []) [replicate 64 97 ++ [46]]; dns_d_expand 99 12 P) = Val (inr [dot]).
Proof. vm_compute. reflexivity. Qed.

(** [dns_d_trim] removes every dot, not only superfluous ones: after each
    byte it skips all dots that follow. The text it leaves has no dot but the
    anchor it may add. *)
Theorem trim_drops_all_dots src past flags t :
  dns_d_trim src past flags = t -> exists body, (t = body \/ t = body ++ [dot]) /\ Forall (fun b => b <> dot) body.
Proof.
  intros <-. exists (trim_loop (length (skip_dots src)) (skip_dots src)). split.
  { unfold dns_d_trim. case_match; auto. }
  assert (forall l b l', skip_dots l = b :: l' -> b <> dot) as Hskip.
  { induction l as [|x l IH]; intros b l'; cbn; [done|]. destruct (Z.eqb_spec x dot); [apply IH|by intros [= <- _]]. }
  assert (forall n l, Forall (fun b => b <> dot) (trim_loop n (skip_dots l))) as Hloop.
  { induction n as [|n IH]; intros l; [constructor|]. cbn. destruct (skip_dots l) as [|b l'] eqn:E; [constructor|].
    constructor; [by eapply Hskip|apply IH]. }
  apply Hloop.
Qed.

(** ** Witnesses *)
Module Witnesses.
Ltac num := vm_compute; first [reflexivity | discriminate | split; first [reflexivity | discriminate]].
(** "ab." twice: once in full at 12, once as a pointer at 16. *)
Definition sample : packet :=
  set_dict (packet_of 64 [2; 97; 98; 0; 192; 12]) (12 :: replicate 15 0).

Lemma sample_wf : wf sample.
Proof. split; [reflexivity|num|num|num| |reflexivity]. cbn. repeat constructor; unfold byte; lia. Qed.

Lemma name_sample : name_at (p_data sample) (p_end sample) 12 0 [[97; 98]].
Proof.
  apply (na_label (p_data sample) (p_end sample) 12 0 []); try (vm_compute; done).
  apply na_root; vm_compute; done.
Qed.

Lemma expand_refines_name_witness :
  (exists fuel, dns_d_expand fuel 16 sample = Val (inr [97; 98; 46])) <->
  (exists k ls, name_at (p_data sample) (p_end sample) 16 k ls /\ [97; 98; 46] = or_root (text ls)).
Proof. apply (expand_refines_name sample 16 [97; 98; 46]); [exact sample_wf|lia]. Defined.

Lemma expand_memory_safe_witness : dns_d_expand 9 12 sample <> UB.
Proof. apply (expand_memory_safe sample 12 9); [exact sample_wf|lia]. Defined.

Lemma skip_makes_progress_witness :
  exists q, dns_d_skip 12 sample = Val q /\ 0 <= q <= p_end sample /\ (12 < p_end sample -> 12 < q).
Proof. apply (skip_makes_progress sample 12); [exact sample_wf|lia]. Defined.

Definition empty : packet := packet_of 64 [].
Lemma empty_wf : wf empty.
Proof. split; [reflexivity|num|num|num| |reflexivity]. cbn. repeat constructor; unfold byte; lia. Qed.

Ltac labels := repeat constructor; unfold byte, dot; cbn; lia || discriminate.

Lemma push_expand_roundtrip_witness :
  exists P', dns_d_push 9 empty [97; 98; 46; 99] = Val (P', None) /\ wf P' /\
    p_end P' = 12 + len (wire [[97; 98]; [99]]) /\ p_dict P' = dict_put (p_dict empty) 12 /\
    same_below 12 (p_data empty) (p_data P') /\
    exists n, forall m, (n <= m)%nat -> dns_d_expand m 12 P' = Val (inr (text [[97; 98]; [99]])).
Proof.
  apply (push_expand_roundtrip empty [[97; 98]; [99]] [97; 98; 46; 99] 9);
    [exact empty_wf|cbn; lia|reflexivity|labels|labels|discriminate|reflexivity|vm_compute; discriminate|cbn; lia].
Defined.

Lemma repeated_name_is_pointer_witness :
  exists P', dns_d_push 9 sample [65; 98] = Val (P', None) /\ wf P' /\ p_end P' = p_end sample + 2 /\
    exists n, forall m, (n <= m)%nat -> dns_d_expand m (p_end sample) P' = Val (inr (or_root (text [[97; 98]]))).
Proof.
  apply (repeated_name_is_pointer sample [[65; 98]] [[97; 98]] [65; 98] 12 (replicate 15 0) 0 9);
    [exact sample_wf|cbn; lia|reflexivity|lia|exact name_sample|reflexivity|labels|labels|labels
    |discriminate|reflexivity|reflexivity|vm_compute; reflexivity|cbn; lia].
Defined.

Lemma trim_drops_all_dots_witness :
  exists body, ([97; 98; 46] = body \/ [97; 98; 46] = body ++ [dot]) /\ Forall (fun b => b <> dot) body.
Proof. apply (trim_drops_all_dots [97; 46; 98] 0 1). reflexivity. Defined.
End Witnesses.
