(* ===== verification/DnsRr.v ===== *)
(** libdns: the packet header, sections and resource records (dns.c, "P A C K E T
    R O U T I N E S" and "R E S O U R C E  R E C O R D  R O U T I N E S"): the
    functions that find records in a packet. *)

From stdpp Require Import prelude.
From Stdlib Require Import ZArith Lia.
From S2P Require Import Prelude DnsBase DnsName.
Local Open Scope Z_scope.

(** enum dns_section, dns_class, dns_type (dns.h). *)
Definition DNS_S_QD : Z := 1.
Definition DNS_S_AN : Z := 2.
Definition DNS_S_NS : Z := 4.
Definition DNS_S_AR : Z := 8.
Definition DNS_S_ALL : Z := 15.
Definition DNS_C_IN : Z := 1.
Definition DNS_C_ANY : Z := 255.
Definition DNS_T_ALL : Z := 255.

(** Sixteen bits at an offset, in network order. *)
Definition rd16 (P : packet) (i : Z) : out Z :=
  hi ← rd (p_data P) i; lo ← rd (p_data P) (i + 1); Val (be16 hi lo).

(** The header is the first twelve bytes of the data; its four counts start at
    offset 4. *)
Definition dns_p_count (P : packet) (section : Z) : out Z :=
  if section =? DNS_S_QD then rd16 P 4
  else if section =? DNS_S_AN then rd16 P 6
  else if section =? DNS_S_NS then rd16 P 8
  else if section =? DNS_S_AR then rd16 P 10
  else
    let bit s i := if Z.land section s =? 0 then Val 0 else rd16 P i in
    qd ← bit DNS_S_QD 4; an ← bit DNS_S_AN 6; ns ← bit DNS_S_NS 8; ar ← bit DNS_S_AR 10;
    Val (w32 (qd + an + ns + ar)).

(** [dns_p_init] on memory [mem] for the data; [None] is a null pointer. *)
Definition dns_p_init (mem : option (list Z)) : option packet :=
  match mem with
  | None => None
  | Some mem => Some (Packet (replicate 16 0) (Memo 0 0) (Memo 0 0) (Memo 0 0) (Memo 0 0)
                        (len mem) 12 (replicate 12 0 ++ drop 12 mem))
  end.

(** [dns_p_make]: [malloc n] is the memory returned for [n] bytes of data. *)
Definition dns_p_make (malloc : Z -> option (list Z)) (n : Z) : option packet :=
  dns_p_init (malloc (Z.max 12 n)).

(** offsetof (struct dns_packet, data) on the x86-64 ABI, and the macros built on
    it. *)
Definition DNS_P_DATAOFF : Z := 84.
Definition dns_p_calcsize (n : Z) : Z := DNS_P_DATAOFF + Z.max 12 n.
Definition dns_p_sizeof (P : packet) : Z := dns_p_calcsize (p_end P).
Definition DNS_P_QBUFSIZ : Z := dns_p_calcsize (256 + 4).

(** [dns_p_grow]: the new size is the next power of two above the size of the
    structure in use; [realloc P n] is the packet's data in a buffer of [n]. *)
Definition grow_size (size : Z) : Z :=
  let size := Z.lor size (Z.shiftr size 1) in
  let size := Z.lor size (Z.shiftr size 2) in
  let size := Z.lor size (Z.shiftr size 4) in
  let size := Z.lor size (Z.shiftr size 8) in
  size + 1.

Definition dns_p_grow (malloc : Z -> option (list Z)) (realloc : list Z -> Z -> option (list Z))
    (P : option packet) : option packet * option dns_error :=
  match P with
  | None =>
      match dns_p_make malloc DNS_P_QBUFSIZ with
      | None => (None, Some DNS_ESYSTEM)
      | Some P => (Some P, None)
      end
  | Some P =>
      let size := grow_size (dns_p_sizeof P) in
      if 65536 <? size then (Some P, Some DNS_ENOBUFS)
      else match realloc (p_data P) (Z.max 12 size) with
           | None => (Some P, Some DNS_ESYSTEM)
           | Some d => (Some (Packet (p_dict P) (p_qd P) (p_an P) (p_ns P) (p_ar P) size (p_end P) d), None)
           end
  end.

Definition dns_p_copy (P P0 : packet) : out packet :=
  let n := Z.min (p_size P) (p_end P0) in
  src ← rdn (p_data P0) 0 n;
  d ← wrn (p_data P) 0 src;
  Val (set_end (set_data P d) n).

(** The end of the question section. *)
Fixpoint qend_loop (count : nat) (qend : Z) (P : packet) : out Z :=
  match count with
  | O => Val (Z.min qend (p_end P))
  | S count' =>
      if qend <? p_end P then
        q ← dns_d_skip qend P;
        if p_end P =? q then Val (w16 (p_end P))
        else if sub64 (p_end P) q <? 4 then Val (w16 (p_end P))
        else qend_loop count' (w16 (q + 4)) P
      else Val (Z.min qend (p_end P))
  end.

Definition dns_p_qend (P : packet) : out Z :=
  count ← dns_p_count P DNS_S_QD; qend_loop (Z.to_nat count) 12 P.

(** struct dns_rr. *)
Record rr := RR {
  rr_section : Z;
  rr_dn_p : Z; rr_dn_len : Z;
  rr_type : Z; rr_class : Z; rr_ttl : Z;
  rr_rd_p : Z; rr_rd_len : Z;
}.
Definition set_section (r : rr) (s : Z) : rr :=
  RR s (rr_dn_p r) (rr_dn_len r) (rr_type r) (rr_class r) (rr_ttl r) (rr_rd_p r) (rr_rd_len r).

(** [dns_rr_parse]. The section of a record that is not a question is not set
    here: [section] is what the structure held. *)
Definition dns_rr_parse (section : Z) (src : Z) (P : packet) : out (dns_error + rr) :=
  if p_end P <=? src then Val (inl DNS_EILLEGAL)
  else
    p ← dns_d_skip src P;
    let dn_len := w16 (p - src) in
    if sub64 (p_end P) p <? 4 then Val (inl DNS_EILLEGAL)
    else
      type ← rd16 P p;
      class ← rd16 P (p + 2);
      let p := w16 (p + 4) in
      qend ← dns_p_qend P;
      if src <? qend then Val (inr (RR DNS_S_QD src dn_len type class 0 0 0))
      else if sub64 (p_end P) p <? 4 then Val (inl DNS_EILLEGAL)
      else
        t0 ← rd (p_data P) p; t1 ← rd (p_data P) (p + 1);
        t2 ← rd (p_data P) (p + 2); t3 ← rd (p_data P) (p + 3);
        let ttl := Z.lor (Z.lor (Z.lor (Z.shiftl (Z.land 127 t0) 24) (Z.shiftl (Z.land 255 t1) 16))
                     (Z.shiftl (Z.land 255 t2) 8)) (Z.shiftl (Z.land 255 t3) 0) in
        let p := w16 (p + 4) in
        if sub64 (p_end P) p <? 2 then Val (inl DNS_EILLEGAL)
        else
          rdlen ← rd16 P p;
          let rd_p := w16 (p + 2) in
          let p := w16 (p + 2) in
          if sub64 (p_end P) p <? rdlen then Val (inl DNS_EILLEGAL)
          else Val (inr (RR section src dn_len type class ttl rd_p rdlen)).

Definition dns_rr_len (src : Z) (P : packet) : out Z :=
  let rest := w16 (p_end P - src) in
  rp ← dns_d_skip src P;
  if sub64 (p_end P) rp <? 4 then Val rest
  else
    let rp := w16 (rp + 4) in
    qend ← dns_p_qend P;
    if rp <=? qend then Val (w16 (rp - src))
    else if sub64 (p_end P) rp <? 6 then Val rest
    else
      let rp := w16 (rp + 6) in
      rdlen ← rd16 P (rp - 2);
      if sub64 (p_end P) rp <? rdlen then Val rest
      else Val (w16 (w16 (rp + rdlen) - src)).

Definition dns_rr_skip (src : Z) (P : packet) : out Z :=
  n ← dns_rr_len src P; Val (w16 (src + n)).

(** [dns_s_study]: the extent of a section, from its count. *)
Fixpoint study_loop (count : nat) (rp : Z) (P : packet) : out Z :=
  match count with
  | O => Val rp
  | S count' => if rp <? p_end P then rp' ← dns_rr_skip rp P; study_loop count' rp' P else Val rp
  end.

Definition dns_s_study (section base : Z) (P : packet) : out memo :=
  count ← dns_p_count P section;
  e ← study_loop (Z.to_nat count) (w16 base) P;
  Val (Memo (w16 base) e).

Definition dns_p_study (P : packet) : out packet :=
  qd ← dns_s_study DNS_S_QD 12 P;
  an ← dns_s_study DNS_S_AN (m_end qd) P;
  ns ← dns_s_study DNS_S_NS (m_end an) P;
  ar ← dns_s_study DNS_S_AR (m_end ns) P;
  Val (set_memos P qd an ns ar).

(** [dns_rr_section]: from the memos, or by counting the records before [src]. *)
Fixpoint index_loop (fuel : nat) (rp src index : Z) (P : packet) : out Z :=
  match fuel with
  | O => Loop
  | S fuel' =>
      if (rp <? src) && (rp <? p_end P)
      then rp' ← dns_rr_skip rp P; index_loop fuel' rp' src (index + 1) P
      else Val index
  end.

Fixpoint section_loop (fuel : nat) (section count index : Z) (P : packet) : out Z :=
  match fuel with
  | O => Loop
  | S fuel' =>
      if (count <=? index) && (section <=? DNS_S_AR) then
        let section := Z.shiftl section 1 in
        n ← dns_p_count P section;
        section_loop fuel' section (w32 (count + n)) index P
      else Val (Z.land DNS_S_ALL section)
  end.

Definition in_memo (m : memo) (p : Z) : bool := (m_base m <=? p) && (p <? m_end m).

Definition dns_rr_section (src : Z) (P : packet) : out Z :=
  if in_memo (p_qd P) src then Val DNS_S_QD
  else if in_memo (p_an P) src then Val DNS_S_AN
  else if in_memo (p_ns P) src then Val DNS_S_NS
  else if in_memo (p_ar P) src then Val DNS_S_AR
  else
    index ← index_loop (S (Z.to_nat (p_end P))) 12 src 0 P;
    count ← dns_p_count P DNS_S_QD;
    section_loop 6 DNS_S_QD count index P.

Definition dns_rr_type (src : Z) (P : packet) : out Z :=
  r ← dns_rr_parse 0 src P;
  match r with inl _ => Val 0 | inr r => Val (rr_type r) end.
