(* ===== verification/DnsRrSpec.v ===== *)
(** Finding records in a packet: the routines of [DnsRr.v] return on every
    well-formed buffer, whatever its bytes, and stay inside it. *)

From stdpp Require Import prelude.
From Stdlib Require Import ZArith Lia.
From S2P Require Import Prelude DnsBase DnsName DnsNameSpec DnsRr.
Local Open Scope Z_scope.

Section Safe.
Context (P : packet) (HP : wf P).
Local Abbreviation d := (p_data P).
Local Abbreviation e := (p_end P).

Lemma wf_bounds : 12 <= e < 2 ^ 16 /\ e <= len d.
Proof. pose proof (wf_len _ HP). pose proof (wf_end _ HP). pose proof (wf_short _ HP). lia. Qed.

Lemma rd16_ok i : 0 <= i -> i + 2 <= e -> exists v, rd16 P i = Val v /\ 0 <= v < 2 ^ 16.
Proof.
  intros Hi Hie. pose proof wf_bounds. unfold rd16. rewrite !(rd_ok P HP) by lia. cbn.
  eexists. split; [done|]. rewrite be16_eq by apply (d_byte P HP).
  pose proof (d_byte P HP i). pose proof (d_byte P HP (i + 1)). unfold byte in *. lia.
Qed.

Lemma rd16_val i : 0 <= i -> i + 2 <= e -> rd16 P i = Val (nthz d i * 256 + nthz d (i + 1)).
Proof.
  intros Hi Hie. unfold rd16. rewrite !(rd_ok P HP) by lia. cbn. by rewrite be16_eq by apply (d_byte P HP).
Qed.

Lemma count_ok s : exists c, dns_p_count P s = Val c /\ 0 <= c < 2 ^ 32.
Proof.
  pose proof wf_bounds.
  destruct (rd16_ok 4) as (q & Hq & ?); [lia..|]. destruct (rd16_ok 6) as (a & Ha & ?); [lia..|].
  destruct (rd16_ok 8) as (n & Hn & ?); [lia..|]. destruct (rd16_ok 10) as (r & Hr & ?); [lia..|].
  unfold dns_p_count. rewrite Hq, Ha, Hn, Hr.
  repeat case_match; cbn; eexists; (split; [done|]); try lia; unfold w32; apply Z.mod_pos_bound; lia.
Qed.

Lemma qend_loop_ok n : forall q, 0 <= q < 2 ^ 16 -> exists q', qend_loop n q P = Val q' /\ 0 <= q' <= e.
Proof.
  pose proof wf_bounds. induction n as [|n IH]; intros q Hq; cbn [qend_loop]; [eexists; split; [done|lia]|].
  destruct (Z.ltb_spec q e); [|eexists; split; [done|lia]].
  destruct (dns_d_skip_ok P HP q Hq) as (q1 & -> & ? & ? & ?). cbn.
  rewrite w16_id by lia. destruct (Z.eqb_spec e q1); [eexists; split; [done|lia]|].
  rewrite sub64_id by lia. destruct (Z.ltb_spec (e - q1) 4); [eexists; split; [done|lia]|].
  rewrite w16_id by lia. apply IH. lia.
Qed.

Lemma qend_ok : exists q, dns_p_qend P = Val q /\ 0 <= q <= e.
Proof.
  unfold dns_p_qend. destruct (count_ok DNS_S_QD) as (c & -> & ?). cbn. apply qend_loop_ok. lia.
Qed.

(** What a parsed record promises to the functions that read its data. *)
Definition rr_bounds (src : Z) (r : rr) : Prop :=
  rr_dn_p r = src /\ 0 <= rr_type r < 2 ^ 16 /\ 0 <= rr_class r < 2 ^ 16 /\ 0 <= rr_ttl r < 2 ^ 31 /\
  0 <= rr_rd_p r /\ 0 <= rr_rd_len r /\ rr_rd_p r + rr_rd_len r <= e.

Lemma lor_bound a b n : 0 <= a < 2 ^ n -> 0 <= b < 2 ^ n -> 0 <= n -> 0 <= Z.lor a b < 2 ^ n.
Proof.
  intros Ha Hb Hn. split; [apply Z.lor_nonneg; lia|].
  destruct (Z.eq_dec (Z.lor a b) 0) as [->|]; [lia|].
  apply Z.log2_lt_pow2; [pose proof (proj2 (Z.lor_nonneg a b)); lia|].
  rewrite Z.log2_lor by lia. apply Z.max_lub_lt.
  - destruct (Z.eq_dec a 0) as [->|]; [|apply Z.log2_lt_pow2; lia].
    cbn. destruct (Z.eq_dec n 0) as [->|]; [|lia]. change (2 ^ 0) with 1 in *. assert (b = 0) by lia. subst. done.
  - destruct (Z.eq_dec b 0) as [->|]; [|apply Z.log2_lt_pow2; lia].
    cbn. destruct (Z.eq_dec n 0) as [->|]; [|lia]. change (2 ^ 0) with 1 in *. assert (a = 0) by lia. subst. done.
Qed.

Lemma land_127 b : 0 <= Z.land 127 b < 128.
Proof. rewrite Z.land_comm. change 127 with (Z.ones 7). rewrite Z.land_ones by lia. apply Z.mod_pos_bound. lia. Qed.
Lemma land_255 b : 0 <= Z.land 255 b < 256.
Proof. rewrite Z.land_comm. change 255 with (Z.ones 8). rewrite Z.land_ones by lia. apply Z.mod_pos_bound. lia. Qed.

Lemma ttl_bound a b c x :
  0 <= Z.lor (Z.lor (Z.lor (Z.shiftl (Z.land 127 a) 24) (Z.shiftl (Z.land 255 b) 16))
     (Z.shiftl (Z.land 255 c) 8)) (Z.shiftl (Z.land 255 x) 0) < 2 ^ 31.
Proof.
  pose proof (land_127 a). pose proof (land_255 b). pose proof (land_255 c). pose proof (land_255 x).
  rewrite !Z.shiftl_mul_pow2 by lia. repeat apply lor_bound; lia.
Qed.

Lemma rr_parse_ok s src : 0 <= src < 2 ^ 16 ->
  exists res, dns_rr_parse s src P = Val res /\ forall r, res = inr r -> rr_bounds src r /\ src < e.
Proof.
  intros Hsrc. pose proof wf_bounds. unfold dns_rr_parse.
  assert (forall x, exists res, (Val (inl x) : out (dns_error + rr)) = Val res /\
    forall r, res = inr r -> rr_bounds src r /\ src < e) as Herr by (intros x; by eexists).
  destruct (Z.leb_spec e src); [apply Herr|].
  destruct (dns_d_skip_ok P HP src Hsrc) as (p & -> & ? & ? & ?). cbn [mbind out_bind].
  rewrite (sub64_id e p) by lia. destruct (Z.ltb_spec (e - p) 4); [apply Herr|].
  destruct (rd16_ok p) as (t & -> & ?); [lia..|]. cbn [mbind out_bind].
  destruct (rd16_ok (p + 2)) as (c & -> & ?); [lia..|]. cbn [mbind out_bind].
  rewrite (w16_id (p + 4)) by lia. destruct qend_ok as (q & -> & ?). cbn [mbind out_bind].
  destruct (Z.ltb_spec src q).
  { eexists. split; [done|]. intros r [= <-]. split; [|lia]. unfold rr_bounds. cbn. lia. }
  rewrite (sub64_id e (p + 4)) by lia. destruct (Z.ltb_spec (e - (p + 4)) 4); [apply Herr|].
  rewrite !(rd_ok P HP) by lia. cbn [mbind out_bind].
  rewrite (w16_id (p + 4 + 4)), sub64_id by lia. destruct (Z.ltb_spec (e - (p + 4 + 4)) 2); [apply Herr|].
  destruct (rd16_ok (p + 4 + 4)) as (l & -> & ?); [lia..|]. cbn [mbind out_bind].
  rewrite (w16_id (p + 4 + 4 + 2)), sub64_id by lia.
  destruct (Z.ltb_spec (e - (p + 4 + 4 + 2)) l); [apply Herr|].
  eexists. split; [done|]. intros r [= <-]. split; [|lia]. unfold rr_bounds. cbn [rr_dn_p rr_type rr_class rr_ttl rr_rd_p rr_rd_len].
  pose proof (ttl_bound (nthz d (p + 4)) (nthz d (p + 4 + 1)) (nthz d (p + 4 + 2)) (nthz d (p + 4 + 3))).
  split_and!; lia || done.
Qed.

Lemma rr_len_ok src : 0 <= src < 2 ^ 16 ->
  exists n, dns_rr_len src P = Val n /\ (src < e -> 0 < n /\ src + n <= e) /\ (e <= src -> n = w16 (e - src)).
Proof.
  intros Hsrc. pose proof wf_bounds. unfold dns_rr_len.
  destruct (dns_d_skip_ok P HP src Hsrc) as (p & -> & ? & ? & ?). cbn [mbind out_bind].
  assert (forall P : Prop, P -> P) as Hid by auto.
  assert (exists n, Val (w16 (e - src)) = Val n /\ (src < e -> 0 < n /\ src + n <= e) /\ (e <= src -> n = w16 (e - src))) as Hrest.
  { eexists. split; [done|]. split; [|done]. intros ?. rewrite w16_id by lia. lia. }
  rewrite (sub64_id e p) by lia. destruct (Z.ltb_spec (e - p) 4); [done|].
  rewrite (w16_id (p + 4)) by lia. destruct qend_ok as (q & -> & ?). cbn [mbind out_bind].
  destruct (Z.leb_spec (p + 4) q).
  { eexists. split; [done|]. destruct (Z.lt_ge_cases src e); [|lia]. rewrite w16_id by lia. lia. }
  rewrite (sub64_id e (p + 4)) by lia. destruct (Z.ltb_spec (e - (p + 4)) 6); [done|].
  rewrite (w16_id (p + 4 + 6)) by lia.
  destruct (rd16_ok (p + 4 + 6 - 2)) as (l & -> & ?); [lia..|]. cbn [mbind out_bind].
  rewrite sub64_id by lia. destruct (Z.ltb_spec (e - (p + 4 + 6)) l); [done|].
  destruct (Z.lt_ge_cases src e); [|lia].
  eexists. split; [done|]. rewrite !w16_id by (rewrite ?w16_id; lia). lia.
Qed.

Lemma rr_skip_ok src : 0 <= src < 2 ^ 16 ->
  exists q, dns_rr_skip src P = Val q /\ 0 <= q <= e /\ (src < e -> src < q).
Proof.
  intros Hsrc. pose proof wf_bounds. unfold dns_rr_skip. destruct (rr_len_ok src Hsrc) as (n & -> & Hlt & Hge). cbn [mbind out_bind].
  eexists. split; [done|]. destruct (Z.lt_ge_cases src e) as [Hs|Hs].
  - destruct (Hlt Hs). rewrite w16_id by lia. lia.
  - rewrite (Hge Hs). unfold w16. rewrite Z.add_mod_idemp_r by lia.
    replace (src + (e - src)) with e by lia. rewrite Z.mod_small by lia. lia.
Qed.

(** Skipping a record that is not a question lands after its data. *)
Lemma skip_parsed s src q r : 0 <= src < 2 ^ 16 -> dns_p_qend P = Val q -> q <= src ->
  dns_rr_parse s src P = Val (inr r) -> dns_rr_skip src P = Val (rr_rd_p r + rr_rd_len r).
Proof.
  intros Hsrc Hq Hqs. pose proof wf_bounds. unfold dns_rr_parse, dns_rr_skip, dns_rr_len.
  destruct (Z.leb_spec e src); [done|].
  destruct (dns_d_skip_ok P HP src Hsrc) as (p & -> & ? & ? & ?). cbn [mbind out_bind].
  rewrite !(sub64_id e p) by lia. destruct (Z.ltb_spec (e - p) 4); [done|].
  destruct (rd16_ok p) as (t & -> & ?); [lia..|]. cbn [mbind out_bind].
  destruct (rd16_ok (p + 2)) as (c & -> & ?); [lia..|]. cbn [mbind out_bind].
  rewrite !(w16_id (p + 4)) by lia. rewrite Hq. cbn [mbind out_bind].
  destruct (Z.ltb_spec src q); [lia|]. destruct (Z.leb_spec (p + 4) q); [lia|].
  rewrite !(sub64_id e (p + 4)) by lia. destruct (Z.ltb_spec (e - (p + 4)) 4); [done|].
  rewrite !(rd_ok P HP) by lia. cbn [mbind out_bind].
  rewrite (w16_id (p + 4 + 4)), (sub64_id e (p + 4 + 4)) by lia. destruct (Z.ltb_spec (e - (p + 4 + 4)) 2); [done|].
  destruct (Z.ltb_spec (e - (p + 4)) 6); [lia|].
  rewrite (w16_id (p + 4 + 6)) by lia. replace (p + 4 + 6 - 2) with (p + 4 + 4) by lia.
  destruct (rd16_ok (p + 4 + 4)) as (l & -> & ?); [lia..|]. cbn [mbind out_bind].
  replace (p + 4 + 6) with (p + 4 + 4 + 2) by lia. rewrite (w16_id (p + 4 + 4 + 2)), sub64_id by lia.
  destruct (Z.ltb_spec (e - (p + 4 + 4 + 2)) l); [done|]. cbn [mbind out_bind].
  intros [= <-]. cbn [rr_rd_p rr_rd_len]. f_equal. unfold w16.
  rewrite (Z.mod_small (p + 4 + 4 + 2 + l)) by lia. rewrite Z.add_mod_idemp_r by lia.
  rewrite Z.mod_small; lia.
Qed.

Lemma study_loop_ok n : forall rp, 0 <= rp < 2 ^ 16 -> exists q, study_loop n rp P = Val q /\ 0 <= q < 2 ^ 16.
Proof.
  pose proof wf_bounds. induction n as [|n IH]; intros rp Hrp; cbn [study_loop]; [eauto|].
  destruct (rp <? e); [|eauto]. destruct (rr_skip_ok rp Hrp) as (q & -> & ? & ?). cbn [mbind out_bind]. apply IH. lia.
Qed.

Lemma s_study_ok s b : 0 <= b < 2 ^ 16 -> exists m, dns_s_study s b P = Val m /\ m_base m = b /\ 0 <= m_end m < 2 ^ 16.
Proof.
  intros Hb. unfold dns_s_study. destruct (count_ok s) as (c & -> & ?). cbn [mbind out_bind]. rewrite w16_id by lia.
  destruct (study_loop_ok (Z.to_nat c) b Hb) as (q & -> & ?). cbn [mbind out_bind]. eexists. split; [done|]. done.
Qed.

Lemma p_study_ok : exists P', dns_p_study P = Val P' /\ p_data P' = d /\ p_end P' = e /\ p_size P' = p_size P /\ p_dict P' = p_dict P.
Proof.
  unfold dns_p_study. destruct (s_study_ok DNS_S_QD 12 ltac:(lia)) as (qd & -> & ? & ?). cbn [mbind out_bind].
  destruct (s_study_ok DNS_S_AN (m_end qd)) as (an & -> & ? & ?); [lia|]. cbn [mbind out_bind].
  destruct (s_study_ok DNS_S_NS (m_end an)) as (ns & -> & ? & ?); [lia|]. cbn [mbind out_bind].
  destruct (s_study_ok DNS_S_AR (m_end ns)) as (ar & -> & ? & ?); [lia|]. cbn [mbind out_bind].
  eexists. split; [done|]. done.
Qed.

Lemma index_loop_ok n : forall rp src i, 0 <= rp < 2 ^ 16 -> e - rp < Z.of_nat n -> (0 < n)%nat ->
  exists i', index_loop n rp src i P = Val i'.
Proof.
  pose proof wf_bounds. induction n as [|n IH]; intros rp src i Hrp Hf H0; [lia|]. cbn [index_loop].
  destruct (rp <? src); cbn [andb]; [|eauto]. destruct (Z.ltb_spec rp e); [|eauto].
  destruct (rr_skip_ok rp Hrp) as (q & -> & ? & ?). cbn [mbind out_bind]. apply IH; lia.
Qed.

Lemma rr_section_ok src : exists s, dns_rr_section src P = Val s.
Proof.
  pose proof wf_bounds. unfold dns_rr_section. do 4 (case_match; [eauto|]).
  destruct (index_loop_ok (S (Z.to_nat e)) 12 src 0) as (i & ->); [lia..|]. cbn [mbind out_bind].
  destruct (count_ok DNS_S_QD) as (c & -> & ?). cbn [mbind out_bind].
  assert (forall n s c, 0 < s -> DNS_S_AR < s * 2 ^ Z.of_nat n -> exists s', section_loop (S n) s c i P = Val s') as Hl.
  { induction n as [|n IH]; intros s0 c0 Hs Hn; cbn [section_loop].
    - destruct (Z.leb_spec s0 DNS_S_AR); [cbn in Hn; lia|]. rewrite andb_false_r. eauto.
    - case_match; [|eauto]. destruct (count_ok (Z.shiftl s0 1)) as (c1 & -> & ?). cbn [mbind out_bind].
      apply IH; rewrite Z.shiftl_mul_pow2 by lia; [lia|].
      rewrite Nat2Z.inj_succ, Z.pow_succ_r in Hn by lia. change (2 ^ 1) with 2. lia. }
  apply Hl; unfold DNS_S_QD, DNS_S_AR; cbn; lia.
Qed.
End Safe.
