(* ===== verification/DnsLayout.v ===== *)
(** The layout of a packet: header counts, questions and records, and that the
    routines of [DnsRr.v] agree with it. *)

From stdpp Require Import prelude.
From Stdlib Require Import ZArith Lia.
From S2P Require Import Prelude DnsBase DnsName DnsNameSpec DnsRr DnsRrSpec.
Local Open Scope Z_scope.

(** Two buffers agree on the bytes from [lo] to [hi]. *)
Definition agree (lo hi : Z) (d d' : list Z) : Prop := forall i, lo <= i < hi -> nthz d i = nthz d' i.

Lemma agree_sym lo hi d d' : agree lo hi d d' -> agree lo hi d' d.
Proof. intros Ha i Hi. symmetry. by apply Ha. Qed.
Lemma agree_trans lo hi d1 d2 d3 : agree lo hi d1 d2 -> agree lo hi d2 d3 -> agree lo hi d1 d3.
Proof. intros Ha Hb i Hi. by rewrite Ha, Hb. Qed.
Lemma agree_sub lo hi lo' hi' d d' : lo <= lo' -> hi' <= hi -> agree lo hi d d' -> agree lo' hi' d d'.
Proof. intros ? ? Ha i Hi. apply Ha. lia. Qed.

(** Where a name ends: after its root or after its first pointer. *)
Inductive extent (d : list Z) (e : Z) : Z -> Z -> Prop :=
  | ex_root p : 0 <= p < e -> tag (nthz d p) = 0 -> low6 (nthz d p) = 0 -> extent d e p (p + 1)
  | ex_label p q : 0 <= p < e -> tag (nthz d p) = 0 -> 0 < low6 (nthz d p) -> p + 1 + low6 (nthz d p) < e ->
      extent d e (p + 1 + low6 (nthz d p)) q -> extent d e p q
  | ex_ptr p : 0 <= p -> p + 2 <= e -> tag (nthz d p) = 3 -> extent d e p (p + 2).

Lemma extent_bounds d e p q : extent d e p q -> 0 <= p < q /\ q <= e.
Proof. induction 1; lia. Qed.

Lemma extent_mono d d' e e' p q lo : agree lo e d d' -> lo <= p -> e <= e' -> extent d e p q -> extent d' e' p q.
Proof.
  intros Ha Hlo He Hx. revert Hlo.
  induction Hx as [p Hp Ht Hl|p q Hp Ht Hl Hle _ IH|p Hp Hle Ht]; intros Hlo; rewrite (Ha p) in * by lia.
  - constructor; [lia|done..].
  - apply ex_label; [lia|done|done|lia|apply IH; lia].
  - constructor; [lia..|done].
Qed.

Lemma extent_skip P p q : wf P -> extent (p_data P) (p_end P) p q -> dns_d_skip p P = Val q.
Proof.
  intros HP Hx. unfold dns_d_skip. pose proof (wf_bounds P HP).
  assert (forall fuel, p_end P - p < Z.of_nat fuel -> d_skip fuel p P = Val q) as Hf;
    [|apply Hf; pose proof (extent_bounds _ _ _ _ Hx); lia].
  induction Hx as [p Hp Ht Hl|p q Hp Ht Hl Hle Hx IH|p Hp Hle Ht]; intros [|fuel] Hf; try lia;
    cbn [d_skip]; (destruct (Z.ltb_spec p (p_end P)); [|lia]); rewrite (rd_ok P HP p) by lia; cbn [mbind out_bind].
  - rewrite Ht, Hl. cbn. by rewrite w16_id by lia.
  - rewrite Ht. change (0 =? 0) with true. cbn match. destruct (Z.eqb_spec (low6 (nthz (p_data P) p)) 0); [lia|].
    rewrite (w16_id (p + 1)), sub64_id by lia.
    destruct (Z.ltb_spec (low6 (nthz (p_data P) p)) (p_end P - (p + 1))); [|lia].
    rewrite w16_id by lia. apply IH. lia.
  - rewrite Ht. change (3 =? 0) with false. change (3 =? 3) with true. cbn match.
    rewrite sub64_id by lia. destruct (Z.ltb_spec (p_end P - p) 2); [lia|]. by rewrite w16_id by lia.
Qed.

(** Sixteen bits in network order. *)
Definition u16 (d : list Z) (i : Z) : Z := nthz d i * 256 + nthz d (i + 1).

(** [n] questions, and [n] records, from [p] to [q]. *)
Inductive questions (d : list Z) (e : Z) : nat -> Z -> Z -> Prop :=
  | qs_nil p : questions d e 0 p p
  | qs_cons n p p1 q : extent d e p p1 -> p1 + 4 <= e -> questions d e n (p1 + 4) q -> questions d e (S n) p q.

Inductive records (d : list Z) (e : Z) : nat -> Z -> Z -> Prop :=
  | rs_nil p : records d e 0 p p
  | rs_cons n p p1 q : extent d e p p1 -> p1 + 10 + u16 d (p1 + 8) <= e -> p1 + 10 <= e -> 0 <= u16 d (p1 + 8) ->
      records d e n (p1 + 10 + u16 d (p1 + 8)) q -> records d e (S n) p q.

Lemma questions_bounds d e n p q : questions d e n p q -> p + 5 * Z.of_nat n <= q /\ (p <= e -> q <= e).
Proof. induction 1 as [|n p p1 q Hx ? ? IH]; [lia|]. pose proof (extent_bounds _ _ _ _ Hx). lia. Qed.

Lemma records_bounds d e n p q : records d e n p q -> p + 11 * Z.of_nat n <= q /\ (p <= e -> q <= e).
Proof. induction 1 as [|n p p1 q Hx ? ? ? ? IH]; [lia|]. pose proof (extent_bounds _ _ _ _ Hx). lia. Qed.

Lemma questions_mono d d' e e' n p q lo : agree lo e d d' -> lo <= p -> e <= e' ->
  questions d e n p q -> questions d' e' n p q.
Proof.
  intros Ha Hlo He Hq. revert Hlo. induction Hq as [|n p p1 q Hx Hle Hq IH]; intros Hlo; [constructor|].
  pose proof (extent_bounds _ _ _ _ Hx). econstructor; [by eapply extent_mono|lia|apply IH; lia].
Qed.

Lemma records_mono d d' e e' n p q lo : agree lo e d d' -> lo <= p -> e <= e' ->
  records d e n p q -> records d' e' n p q.
Proof.
  intros Ha Hlo He Hq. revert Hlo. induction Hq as [|n p p1 q Hx Hle Hle' H0 Hq IH]; intros Hlo; [constructor|].
  pose proof (extent_bounds _ _ _ _ Hx).
  assert (u16 d (p1 + 8) = u16 d' (p1 + 8)) as Hu by (unfold u16; rewrite !Ha by lia; done).
  rewrite Hu in *. econstructor; [by eapply extent_mono|lia|lia|done|apply IH; lia].
Qed.

Lemma questions_snoc d e n p q p1 : questions d e n p q -> extent d e q p1 -> p1 + 4 <= e -> questions d e (S n) p (p1 + 4).
Proof.
  intros Hq Hx Hle. induction Hq as [p|n p p2 q Hx2 Hle2 Hq IH].
  - econstructor; [done|done|constructor].
  - econstructor; [done|done|]. by apply IH.
Qed.

Lemma records_snoc d e n p q p1 : records d e n p q -> extent d e q p1 -> p1 + 10 <= e -> 0 <= u16 d (p1 + 8) ->
  p1 + 10 + u16 d (p1 + 8) <= e -> records d e (S n) p (p1 + 10 + u16 d (p1 + 8)).
Proof.
  intros Hq Hx Hle H0 Hle'. induction Hq as [p|n p p2 q Hx2 ? ? ? Hq IH].
  - econstructor; [done..|constructor].
  - econstructor; [done..|]. by apply IH.
Qed.

(** The counts of the header. *)
Definition cnt (d : list Z) (i : Z) : nat := Z.to_nat (u16 d i).

(** [a], [b], [c] and [f] are where the four sections end. *)
Record layout (d : list Z) (e a b c f : Z) : Prop := {
  lay_qd : questions d e (cnt d 4) 12 a;
  lay_an : records d e (cnt d 6) a b;
  lay_ns : records d e (cnt d 8) b c;
  lay_ar : records d e (cnt d 10) c f;
}.

Lemma layout_bounds d e a b c f : layout d e a b c f -> 12 <= e -> 12 <= a /\ a <= b /\ b <= c /\ c <= f /\ f <= e.
Proof.
  intros [Hq Ha Hn Hr] He. apply questions_bounds in Hq. apply records_bounds in Ha, Hn, Hr. lia.
Qed.

Lemma layout_mono d d' e e' a b c f : agree 4 e d d' -> 12 <= e <= e' -> layout d e a b c f -> layout d' e' a b c f.
Proof.
  intros Hag He Hl. pose proof (layout_bounds _ _ _ _ _ _ Hl ltac:(lia)). destruct Hl as [Hq Ha Hn Hr].
  assert (forall i, 4 <= i -> i + 2 <= 12 -> cnt d i = cnt d' i) as Hc
    by (intros i ? ?; unfold cnt, u16; rewrite !Hag by lia; done).
  assert (agree 12 e d d') by (eapply agree_sub; [| |done]; lia).
  split; rewrite <- Hc by lia; [eapply questions_mono|eapply records_mono..]; eauto; lia.
Qed.

Section Layout.
Context (P : packet) (HP : wf P).
Local Abbreviation d := (p_data P).
Local Abbreviation e := (p_end P).

Lemma u16_range i : 0 <= u16 d i < 2 ^ 16.
Proof. unfold u16. pose proof (d_byte P HP i). pose proof (d_byte P HP (i + 1)). unfold byte in *. lia. Qed.

Lemma count_layout s i : dns_p_count P s = rd16 P i -> 0 <= i -> i + 2 <= e ->
  exists c, dns_p_count P s = Val c /\ Z.to_nat c = cnt d i.
Proof. intros -> Hi Hie. rewrite (rd16_val P HP) by done. eexists. done. Qed.

Lemma qend_questions n : forall p q, questions d e n p q -> 12 <= p <= e -> qend_loop n p P = Val q.
Proof.
  pose proof (wf_bounds P HP). induction n as [|n IH]; intros p q Hq Hp; inversion Hq as [|? ? p1 ? Hx Hle Hq']; subst; cbn [qend_loop].
  - f_equal. lia.
  - pose proof (extent_bounds _ _ _ _ Hx). destruct (Z.ltb_spec p e); [|lia].
    rewrite (extent_skip P p p1) by done. cbn [mbind out_bind]. destruct (Z.eqb_spec e p1); [lia|].
    rewrite sub64_id by lia. destruct (Z.ltb_spec (e - p1) 4); [lia|]. rewrite w16_id by (split; [lia|]; 
      pose proof (questions_bounds _ _ _ _ _ Hq'); lia). apply IH; [done|lia].
Qed.

Lemma qend_layout a b c f : layout d e a b c f -> dns_p_qend P = Val a.
Proof.
  intros Hl. pose proof (wf_bounds P HP). unfold dns_p_qend.
  destruct (count_layout DNS_S_QD 4) as (k & -> & Hk); [done|lia|lia|]. cbn [mbind out_bind]. rewrite Hk.
  apply qend_questions; [apply Hl|lia].
Qed.

Lemma skip_question a p p1 : dns_p_qend P = Val a -> extent d e p p1 -> p1 + 4 <= a -> a <= e -> p < 2 ^ 16 ->
  dns_rr_skip p P = Val (p1 + 4).
Proof.
  intros Hq Hx Hle Ha Hp. pose proof (wf_bounds P HP). pose proof (extent_bounds _ _ _ _ Hx).
  unfold dns_rr_skip, dns_rr_len. rewrite (extent_skip P p p1) by done. cbn [mbind out_bind].
  rewrite sub64_id by lia. destruct (Z.ltb_spec (e - p1) 4); [lia|]. rewrite Hq. cbn [mbind out_bind].
  rewrite (w16_id (p1 + 4)) by lia. destruct (Z.leb_spec (p1 + 4) a); [|lia]. cbn [mbind out_bind].
  rewrite (w16_id (p1 + 4 - p)) by lia. rewrite w16_id by lia. f_equal. lia.
Qed.

Lemma skip_record a p p1 : dns_p_qend P = Val a -> a <= p -> extent d e p p1 -> p1 + 10 <= e ->
  p1 + 10 + u16 d (p1 + 8) <= e -> dns_rr_skip p P = Val (p1 + 10 + u16 d (p1 + 8)).
Proof.
  intros Hq Ha Hx Hle Hle'. pose proof (wf_bounds P HP). pose proof (extent_bounds _ _ _ _ Hx).
  pose proof (u16_range (p1 + 8)).
  unfold dns_rr_skip, dns_rr_len. rewrite (extent_skip P p p1) by done. cbn [mbind out_bind].
  rewrite sub64_id by lia. destruct (Z.ltb_spec (e - p1) 4); [lia|]. rewrite Hq. cbn [mbind out_bind].
  rewrite (w16_id (p1 + 4)) by lia. destruct (Z.leb_spec (p1 + 4) a); [lia|].
  rewrite sub64_id by lia. destruct (Z.ltb_spec (e - (p1 + 4)) 6); [lia|].
  rewrite (w16_id (p1 + 4 + 6)) by lia. rewrite (rd16_val P HP) by lia. cbn [mbind out_bind].
  replace (p1 + 4 + 6 - 2) with (p1 + 8) by lia. fold (u16 d (p1 + 8)).
  rewrite sub64_id by lia. destruct (Z.ltb_spec (e - (p1 + 4 + 6)) (u16 d (p1 + 8))); [lia|]. cbn [mbind out_bind].
  rewrite (w16_id (p1 + 4 + 6 + u16 d (p1 + 8))) by lia. rewrite (w16_id (_ - p)) by lia.
  rewrite w16_id by lia. f_equal. lia.
Qed.

Lemma study_questions a n : forall p q, dns_p_qend P = Val a -> questions d e n p q -> 12 <= p -> p <= e -> q <= a -> a <= e ->
  study_loop n p P = Val q.
Proof.
  pose proof (wf_bounds P HP). induction n as [|n IH]; intros p q Ha Hq Hp Hpe Hqa Hae;
    inversion Hq as [|? ? p1 ? Hx Hle Hq']; subst; cbn [study_loop]; [done|].
  pose proof (extent_bounds _ _ _ _ Hx). pose proof (questions_bounds _ _ _ _ _ Hq').
  destruct (Z.ltb_spec p e); [|lia]. rewrite (skip_question a p p1) by (done || lia). cbn [mbind out_bind].
  apply IH; done || lia.
Qed.

Lemma study_records a n : forall p q, dns_p_qend P = Val a -> records d e n p q -> 12 <= p -> p <= e -> a <= p ->
  study_loop n p P = Val q.
Proof.
  pose proof (wf_bounds P HP). induction n as [|n IH]; intros p q Ha Hq Hp Hpe Hap;
    inversion Hq as [|? ? p1 ? Hx Hle Hle' H0 Hq']; subst; cbn [study_loop]; [done|].
  pose proof (extent_bounds _ _ _ _ Hx). pose proof (records_bounds _ _ _ _ _ Hq').
  destruct (Z.ltb_spec p e); [|lia]. rewrite (skip_record a p p1) by (done || lia). cbn [mbind out_bind].
  apply IH; done || lia.
Qed.

(** [dns_p_study] finds the sections. *)
Lemma p_study_layout a b c f : layout d e a b c f ->
  dns_p_study P = Val (set_memos P (Memo 12 a) (Memo a b) (Memo b c) (Memo c f)).
Proof.
  intros Hl. pose proof (wf_bounds P HP). pose proof (layout_bounds _ _ _ _ _ _ Hl ltac:(lia)).
  pose proof (qend_layout _ _ _ _ Hl) as Hq. destruct Hl as [Hqd Han Hns Har].
  assert (forall s i p q, dns_p_count P s = rd16 P i -> 0 <= i -> i + 2 <= e -> 0 <= p < 2 ^ 16 ->
    study_loop (cnt d i) p P = Val q -> dns_s_study s p P = Val (Memo p q)) as Hs.
  { intros s i p q Hc Hi Hie Hp Hst. unfold dns_s_study.
    destruct (count_layout s i) as (k & -> & Hk); [done..|]. cbn [mbind out_bind]. rewrite w16_id, Hk, Hst by lia. done. }
  unfold dns_p_study.
  rewrite (Hs DNS_S_QD 4 12 a); [|done|lia..|by apply (study_questions a); done || lia]. cbn [mbind out_bind m_end].
  rewrite (Hs DNS_S_AN 6 a b); [|done|lia..|by apply (study_records a); done || lia]. cbn [mbind out_bind m_end].
  rewrite (Hs DNS_S_NS 8 b c); [|done|lia..|by apply (study_records a); done || lia]. cbn [mbind out_bind m_end].
  rewrite (Hs DNS_S_AR 10 c f); [|done|lia..|by apply (study_records a); done || lia]. done.
Qed.

(** The record at the start of a non-empty run of records is parsed. *)
Lemma parse_record s a p p1 : dns_p_qend P = Val a -> a <= p -> extent d e p p1 -> p1 + 10 <= e ->
  p1 + 10 + u16 d (p1 + 8) <= e ->
  exists ttl, dns_rr_parse s p P = Val (inr (RR s p (p1 - p) (u16 d p1) (u16 d (p1 + 2)) ttl (p1 + 10) (u16 d (p1 + 8)))) /\
    ttl = Z.lor (Z.lor (Z.lor (Z.shiftl (Z.land 127 (nthz d (p1 + 4))) 24) (Z.shiftl (Z.land 255 (nthz d (p1 + 5))) 16))
     (Z.shiftl (Z.land 255 (nthz d (p1 + 6))) 8)) (Z.shiftl (Z.land 255 (nthz d (p1 + 7))) 0).
Proof.
  intros Hq Ha Hx Hle Hle'. pose proof (wf_bounds P HP). pose proof (extent_bounds _ _ _ _ Hx). pose proof (u16_range (p1 + 8)).
  eexists. split; [|reflexivity]. unfold dns_rr_parse. destruct (Z.leb_spec e p); [lia|].
  rewrite (extent_skip P p p1) by done. cbn [mbind out_bind].
  rewrite sub64_id by lia. destruct (Z.ltb_spec (e - p1) 4); [lia|].
  rewrite !(rd16_val P HP p1), !(rd16_val P HP (p1 + 2)) by lia. cbn [mbind out_bind]. rewrite Hq. cbn [mbind out_bind].
  destruct (Z.ltb_spec p a); [lia|]. rewrite (w16_id (p1 + 4)) by lia. rewrite sub64_id by lia.
  destruct (Z.ltb_spec (e - (p1 + 4)) 4); [lia|]. rewrite !(rd_ok P HP) by lia. cbn [mbind out_bind].
  rewrite (w16_id (p1 + 4 + 4)), sub64_id by lia. destruct (Z.ltb_spec (e - (p1 + 4 + 4)) 2); [lia|].
  replace (p1 + 4 + 4) with (p1 + 8) by lia. rewrite (rd16_val P HP) by lia. cbn [mbind out_bind].
  rewrite (w16_id (p1 + 8 + 2)) by lia. fold (u16 d (p1 + 8)). rewrite sub64_id by lia.
  destruct (Z.ltb_spec (e - (p1 + 8 + 2)) (u16 d (p1 + 8))); [lia|].
  rewrite (w16_id (p1 - p)) by lia. unfold u16.
  replace (p1 + 4 + 1) with (p1 + 5) by lia. replace (p1 + 4 + 2) with (p1 + 6) by lia.
  replace (p1 + 4 + 3) with (p1 + 7) by lia. replace (p1 + 8 + 2) with (p1 + 10) by lia. done.
Qed.
End Layout.
