(* ===== verification/DnsRdata.v ===== *)
(** libdns: the data of resource records (dns.c, the functions [dns_a_*],
    [dns_aaaa_*], [dns_mx_*], ..., [dns_txt_*] and [dns_any_*]).

    A [union dns_any] is a value of the type [any]; a function that is given
    another member of the union than the one it reads is [UB]. The print
    functions return the bytes they offer to the buffer. *)

From stdpp Require Import prelude strings.
From Stdlib Require Import ZArith Lia Ascii.
From S2P Require Import Prelude DnsBase DnsName DnsRr.
Local Open Scope Z_scope.

(** enum dns_type (dns.h). *)
Definition DNS_T_A : Z := 1.
Definition DNS_T_NS : Z := 2.
Definition DNS_T_CNAME : Z := 5.
Definition DNS_T_SOA : Z := 6.
Definition DNS_T_PTR : Z := 12.
Definition DNS_T_MX : Z := 15.
Definition DNS_T_TXT : Z := 16.
Definition DNS_T_AAAA : Z := 28.
Definition DNS_T_SRV : Z := 33.
Definition DNS_T_SSHFP : Z := 44.
Definition DNS_T_SPF : Z := 99.
Definition DNS_SSHFP_SHA1 : Z := 1.

(** struct dns_soa, dns_srv, dns_sshfp; hosts are NUL-terminated arrays of
    DNS_D_MAXNAME + 1 bytes, given by the bytes before the end of the name. *)
Record soa := Soa {
  soa_mname : list Z; soa_rname : list Z;
  soa_serial : Z; soa_refresh : Z; soa_retry : Z; soa_expire : Z; soa_minimum : Z }.
Record srv := Srv { srv_priority : Z; srv_weight : Z; srv_port : Z; srv_target : list Z }.
Record sshfp := Sshfp { fp_algo : Z; fp_type : Z; fp_digest : list Z }.

(** union dns_any. The address of an A record is in host order; NS, CNAME and PTR
    share one layout, as do TXT, SPF and the types without a parser. *)
Inductive any :=
  | AnyA (addr : Z)
  | AnyAAAA (addr : list Z)
  | AnyMX (preference : Z) (host : list Z)
  | AnyNS (host : list Z)
  | AnySOA (s : soa)
  | AnySRV (s : srv)
  | AnySSHFP (s : sshfp)
  | AnyTXT (data : list Z).

(** ** Appending bytes *)

(** [P->data[P->end++] = b] for each byte, when the caller has checked the room. *)
Definition put_bytes (P : packet) (bs : list Z) : out packet :=
  d ← wrn (p_data P) (p_end P) bs; Val (set_end (set_data P d) (p_end P + len bs)).

Definition room (P : packet) : Z := sub64 (p_size P) (p_end P).

(** The 16 bits [0xff & (n >> 8)], [0xff & (n >> 0)]. *)
Definition two (n : Z) : list Z := [Z.land 255 (Z.shiftr n 8); Z.land 255 (Z.shiftr n 0)].
Definition four (n : Z) : list Z :=
  [Z.land 255 (Z.shiftr n 24); Z.land 255 (Z.shiftr n 16); Z.land 255 (Z.shiftr n 8); Z.land 255 (Z.shiftr n 0)].

(** The result of a push: the packet, and the error if it failed. *)
Definition pushed_res : Type := packet * option dns_error.
Definition fail (P : packet) (e : dns_error) : out pushed_res := Val (P, Some e).
Definition ok (P : packet) : out pushed_res := Val (P, None).

(** ** Addresses *)
Definition dns_a_parse (r : rr) (P : packet) : out (dns_error + any) :=
  if negb (rr_rd_len r =? 4) then Val (inl DNS_EILLEGAL)
  else
    b0 ← rd (p_data P) (rr_rd_p r + 0); b1 ← rd (p_data P) (rr_rd_p r + 1);
    b2 ← rd (p_data P) (rr_rd_p r + 2); b3 ← rd (p_data P) (rr_rd_p r + 3);
    Val (inr (AnyA (Z.lor (Z.lor (Z.lor (Z.shiftl (Z.land 255 b0) 24) (Z.shiftl (Z.land 255 b1) 16))
      (Z.shiftl (Z.land 255 b2) 8)) (Z.shiftl (Z.land 255 b3) 0)))).

Definition dns_a_push (P : packet) (addr : Z) : out pushed_res :=
  if room P <? 6 then fail P DNS_ENOBUFS
  else P ← put_bytes P ([0; 4] ++ four addr); ok P.

Definition dns_a_cmp (a b : Z) : Z := if a <? b then -1 else if b <? a then 1 else 0.

Definition dns_aaaa_parse (r : rr) (P : packet) : out (dns_error + any) :=
  if negb (rr_rd_len r =? 16) then Val (inl DNS_EILLEGAL)
  else a ← rdn (p_data P) (rr_rd_p r) 16; Val (inr (AnyAAAA a)).

Definition dns_aaaa_push (P : packet) (addr : list Z) : out pushed_res :=
  if room P <? 18 then fail P DNS_ENOBUFS
  else P ← put_bytes P ([0; 16] ++ addr); ok P.

Fixpoint dns_aaaa_cmp (a b : list Z) : Z :=
  match a, b with
  | x :: a', y :: b' => if x - y =? 0 then dns_aaaa_cmp a' b' else x - y
  | _, _ => 0
  end.

Section Fuel.
(** Iterations allowed to the name routines. *)
Context (fuel : nat).

(** A name copied to a host array. *)
Definition expand_host (p : Z) (P : packet) : out (dns_error + list Z) :=
  t ← dns_d_expand fuel p P;
  match t with
  | inl e => Val (inl e)
  | inr t => if DNS_D_MAXNAME + 1 <=? len t then Val (inl DNS_EILLEGAL) else Val (inr t)
  end.

(** ** Records with a name *)
Definition dns_mx_parse (r : rr) (P : packet) : out (dns_error + any) :=
  if rr_rd_len r <? 3 then Val (inl DNS_EILLEGAL)
  else
    b0 ← rd (p_data P) (rr_rd_p r + 0); b1 ← rd (p_data P) (rr_rd_p r + 1);
    let preference := Z.lor (Z.land 65280 (Z.shiftl b0 8)) (Z.land 255 (Z.shiftl b1 0)) in
    h ← expand_host (w16 (rr_rd_p r + 2)) P;
    match h with inl e => Val (inl e) | inr h => Val (inr (AnyMX preference h)) end.

(** Store the length of the data between [start + 2] and the end at [start]. *)
Definition put_rdlen (P : packet) (start : Z) : out packet :=
  d ← wrn (p_data P) start (two (p_end P - start - 2)); Val (set_data P d).

Definition dns_mx_push (P : packet) (preference : Z) (host : list Z) : out pushed_res :=
  if room P <? 5 then fail P DNS_ENOBUFS
  else
    let start := p_end P in
    P1 ← put_bytes (set_end P (start + 2)) (two preference);
    '(P2, err) ← dns_d_push fuel P1 (cstr host);
    match err with
    | Some e => fail (set_end P2 start) e
    | None => P3 ← put_rdlen P2 start; ok P3
    end.

Definition dns_mx_cmp (ap : Z) (ah : list Z) (bp : Z) (bh : list Z) : Z :=
  if ap - bp =? 0 then strcasecmp ah bh else ap - bp.

Definition dns_ns_parse (r : rr) (P : packet) : out (dns_error + any) :=
  h ← expand_host (rr_rd_p r) P;
  match h with inl e => Val (inl e) | inr h => Val (inr (AnyNS h)) end.

Definition dns_ns_push (P : packet) (host : list Z) : out pushed_res :=
  if room P <? 3 then fail P DNS_ENOBUFS
  else
    let start := p_end P in
    '(P2, err) ← dns_d_push fuel (set_end P (start + 2)) (cstr host);
    match err with
    | Some e => fail (set_end P2 start) e
    | None => P3 ← put_rdlen P2 start; ok P3
    end.

(** The five 32-bit fields of an SOA record, byte by byte. *)
Fixpoint soa_u32 (n : nat) (acc rp : Z) (P : packet) : out (dns_error + Z * Z) :=
  match n with
  | O => Val (inr (acc, rp))
  | S n' =>
      if p_end P <=? rp then Val (inl DNS_EILLEGAL)
      else b ← rd (p_data P) rp;
           soa_u32 n' (Z.lor (w32 (Z.shiftl acc 8)) (Z.land 255 b)) (w16 (rp + 1)) P
  end.

Fixpoint soa_fields (n : nat) (rp : Z) (P : packet) : out (dns_error + list Z) :=
  match n with
  | O => Val (inr [])
  | S n' =>
      v ← soa_u32 4 0 rp P;
      match v with
      | inl e => Val (inl e)
      | inr (v, rp) =>
          r ← soa_fields n' rp P;
          match r with inl e => Val (inl e) | inr vs => Val (inr (v :: vs)) end
      end
  end.

Definition dns_soa_parse (r : rr) (P : packet) : out (dns_error + any) :=
  let rp := rr_rd_p r in
  if p_end P <=? rp then Val (inl DNS_EILLEGAL)
  else
    m ← expand_host rp P;
    match m with
    | inl e => Val (inl e)
    | inr m =>
        rp ← dns_d_skip rp P;
        if p_end P <=? rp then Val (inl DNS_EILLEGAL)
        else
          n ← expand_host rp P;
          match n with
          | inl e => Val (inl e)
          | inr n =>
              rp ← dns_d_skip rp P;
              if p_end P <=? rp then Val (inl DNS_EILLEGAL)
              else
                ts ← soa_fields 5 rp P;
                match ts with
                | inr [a; b; c; d; e] => Val (inr (AnySOA (Soa m n a b c d e)))
                | inl e => Val (inl e)
                | inr _ => UB
                end
          end
    end.

(** Append 32-bit fields; an error leaves the packet for the caller to reset. *)
Fixpoint put_fields (P : packet) (ts : list Z) : out pushed_res :=
  match ts with
  | [] => ok P
  | t :: ts' =>
      if p_size P <=? p_end P + 4 then fail P DNS_ENOBUFS
      else P1 ← put_bytes P (four t); put_fields P1 ts'
  end.

Definition dns_soa_push (P : packet) (s : soa) : out pushed_res :=
  let start := p_end P in
  if p_size P <=? start + 2 then fail P DNS_ENOBUFS
  else
    '(P1, err) ← dns_d_push fuel (set_end P (start + 2)) (cstr (soa_mname s));
    match err with
    | Some e => fail (set_end P1 start) e
    | None =>
        '(P2, err) ← dns_d_push fuel P1 (cstr (soa_rname s));
        match err with
        | Some e => fail (set_end P2 start) e
        | None =>
            '(P3, err) ← put_fields P2
              [Z.land 4294967295 (soa_serial s); Z.land 2147483647 (soa_refresh s);
               Z.land 2147483647 (soa_retry s); Z.land 2147483647 (soa_expire s);
               Z.land 4294967295 (soa_minimum s)];
            match err with
            | Some e => fail (set_end P3 start) e
            | None => P4 ← put_rdlen P3 start; ok P4
            end
        end
    end.

Definition soa_cmp_fields (a b : list Z) : Z :=
  (fix go a b := match a, b with
   | x :: a', y :: b' => if y <? x then -1 else if x <? y then 1 else go a' b'
   | _, _ => 0 end) a b.

Definition dns_soa_cmp (a b : soa) : Z :=
  let c := strcasecmp (soa_mname a) (soa_mname b) in
  if negb (c =? 0) then c
  else
    let c := strcasecmp (soa_rname a) (soa_rname b) in
    if negb (c =? 0) then c
    else soa_cmp_fields [soa_serial a; soa_refresh a; soa_retry a; soa_expire a; soa_minimum a]
                        [soa_serial b; soa_refresh b; soa_retry b; soa_expire b; soa_minimum b].

(** The bounds check looks at the free space of the packet, not at the data. *)
Definition dns_srv_parse (r : rr) (P : packet) : out (dns_error + any) :=
  if room P <? 6 then Val (inl DNS_EILLEGAL)
  else
    let rp := rr_rd_p r in
    let field i :=
      b0 ← rd (p_data P) (w16 (rp + i)); b1 ← rd (p_data P) (w16 (rp + i + 1));
      Val (Z.lor (Z.shiftl (Z.land 255 b0) 8) (Z.land 255 b1)) in
    priority ← field 0; weight ← field 2; port ← field 4;
    h ← expand_host (w16 (rp + 6)) P;
    match h with inl e => Val (inl e) | inr h => Val (inr (AnySRV (Srv priority weight port h))) end.

Definition dns_srv_push (P : packet) (s : srv) : out pushed_res :=
  let start := p_end P in
  if room P <? 2 then fail P DNS_ENOBUFS
  else if room (set_end P (start + 2)) <? 6 then fail P DNS_ENOBUFS
  else
    P1 ← put_bytes (set_end P (start + 2)) (two (srv_priority s) ++ two (srv_weight s) ++ two (srv_port s));
    let dp := p_end P1 in
    '(dst, n) ← dns_d_comp fuel (drop (Z.to_nat dp) (p_data P1)) (room P1) (cstr (srv_target s)) P1;
    let P2 := set_data P1 (take (Z.to_nat dp) (p_data P1) ++ dst) in
    if n =? 0 then UB
    else if room P1 <? n then fail (set_end P2 start) DNS_ENOBUFS
    else
      let P3 := set_end P2 (dp + n) in
      if 65535 <? p_end P3 then fail (set_end P3 start) DNS_ENOBUFS
      else P4 ← put_rdlen P3 start; ok P4.

Definition dns_srv_cmp (a b : srv) : Z :=
  if negb (srv_priority a - srv_priority b =? 0) then srv_priority a - srv_priority b
  else if negb (srv_weight a - srv_weight b =? 0) then srv_weight a - srv_weight b
  else if negb (srv_port a - srv_port b =? 0) then srv_port a - srv_port b
  else strcasecmp (srv_target a) (srv_target b).

(** ** SSHFP *)
Definition dns_sshfp_parse (old : list Z) (r : rr) (P : packet) : out (dns_error + any) :=
  let p := rr_rd_p r in
  let pe := rr_rd_p r + rr_rd_len r in
  if pe - p <? 2 then Val (inl DNS_EILLEGAL)
  else
    algo ← rd (p_data P) p; type ← rd (p_data P) (p + 1);
    if type =? DNS_SSHFP_SHA1 then
      if pe - (p + 2) <? 20 then Val (inl DNS_EILLEGAL)
      else digest ← rdn (p_data P) (p + 2) 20; Val (inr (AnySSHFP (Sshfp algo type digest)))
    else Val (inr (AnySSHFP (Sshfp algo type old))).

Definition dns_sshfp_push (P : packet) (s : sshfp) : out pushed_res :=
  if w32 (p_size P - p_end P) <? 4 then fail P DNS_ENOBUFS
  else
    d ← wrn (p_data P) (p_end P + 2) [Z.land 255 (fp_algo s); Z.land 255 (fp_type s)];
    let P1 := set_data P d in
    let p := p_end P + 4 in
    if fp_type s =? DNS_SSHFP_SHA1 then
      if w32 (p_size P - p) <? 20 then fail P1 DNS_ENOBUFS
      else
        d ← wrn d p (fp_digest s);
        let p := p + 20 in
        d ← wrn d (p_end P) (two (p - p_end P - 2));
        ok (set_end (set_data P d) p)
    else fail P1 DNS_EILLEGAL.

(** The second comparison subtracts where it should assign. *)
Definition dns_sshfp_cmp (a b : sshfp) : Z :=
  let cmp := fp_algo a - fp_algo b in
  if negb (cmp =? 0) || negb (w32 (cmp - fp_type a - fp_type b) =? 0) then cmp
  else if fp_type a =? DNS_SSHFP_SHA1 then dns_aaaa_cmp (fp_digest a) (fp_digest b)
  else 0.

(** ** TXT: a sequence of strings of at most 255 bytes, read as one text *)
Fixpoint txt_loop (n : nat) (p e cap : Z) (acc : list Z) (P : packet) : out (dns_error + list Z) :=
  match n with
  | O => Loop
  | S n' =>
      if p <? e then
        k ← rd (p_data P) p;
        let k := Z.land 255 k in
        let p := p + 1 in
        if (sub64 e p <? k) || (sub64 cap (len acc) <? k) then Val (inl DNS_EILLEGAL)
        else s ← rdn (p_data P) p k; txt_loop n' (p + k) e cap (acc ++ s) P
      else Val (inr acc)
  end.

(** [cap] is [txt->size]. *)
Definition dns_txt_parse (cap : Z) (r : rr) (P : packet) : out (dns_error + any) :=
  t ← txt_loop (S (Z.to_nat (rr_rd_len r))) (rr_rd_p r) (rr_rd_p r + rr_rd_len r) cap [] P;
  match t with inl e => Val (inl e) | inr t => Val (inr (AnyTXT t)) end.

(** The strings of at most 255 bytes with their lengths. *)
Fixpoint txt_push_loop (n : nat) (src d : list Z) (p e : Z) : out (dns_error + (list Z * Z)) :=
  match n with
  | O => Loop
  | S n' =>
      match src with
      | [] => Val (inr (d, p))
      | _ =>
          let k := Z.min 255 (len src) in
          if e <=? p then Val (inl DNS_ENOBUFS)
          else
            d ← wr d p k;
            let p := p + 1 in
            if sub64 e p <? k then Val (inl DNS_ENOBUFS)
            else
              d ← wrn d p (take (Z.to_nat k) src);
              txt_push_loop n' (drop (Z.to_nat k) src) d (p + k) e
      end
  end.

Definition dns_txt_push (P : packet) (data : list Z) : out pushed_res :=
  if room P <? 2 then fail P DNS_ENOBUFS
  else
    let n := len data + (len data + 254) / 255 in
    d ← wrn (p_data P) (p_end P) (two n);
    r ← txt_push_loop (S (length data)) data d (p_end P + 2) (p_size P);
    match r with
    | inl e => fail (set_data P d) e
    | inr (d, p) => ok (set_end (set_data P d) p)
    end.

Definition dns_txt_cmp (a b : list Z) : Z := -1.

(** ** dns_any: dispatch on the type (the table [dns_rrtypes]) *)
Definition dns_any_parse (cap : Z) (r : rr) (P : packet) : out (dns_error + any) :=
  let t := rr_type r in
  if t =? DNS_T_A then dns_a_parse r P
  else if t =? DNS_T_AAAA then dns_aaaa_parse r P
  else if t =? DNS_T_MX then dns_mx_parse r P
  else if (t =? DNS_T_NS) || (t =? DNS_T_CNAME) || (t =? DNS_T_PTR) then dns_ns_parse r P
  else if t =? DNS_T_SOA then dns_soa_parse r P
  else if t =? DNS_T_SRV then dns_srv_parse r P
  else if (t =? DNS_T_TXT) || (t =? DNS_T_SPF) then dns_txt_parse cap r P
  else if t =? DNS_T_SSHFP then dns_sshfp_parse [] r P
  else if cap <? rr_rd_len r then Val (inl DNS_EILLEGAL)
  else d ← rdn (p_data P) (rr_rd_p r) (rr_rd_len r); Val (inr (AnyTXT d)).

Definition dns_any_push (P : packet) (a : any) (t : Z) : out pushed_res :=
  if t =? DNS_T_A then match a with AnyA x => dns_a_push P x | _ => UB end
  else if t =? DNS_T_AAAA then match a with AnyAAAA x => dns_aaaa_push P x | _ => UB end
  else if t =? DNS_T_MX then match a with AnyMX p h => dns_mx_push P p h | _ => UB end
  else if (t =? DNS_T_NS) || (t =? DNS_T_CNAME) || (t =? DNS_T_PTR) then
    match a with AnyNS h => dns_ns_push P h | _ => UB end
  else if t =? DNS_T_SOA then match a with AnySOA s => dns_soa_push P s | _ => UB end
  else if t =? DNS_T_SRV then match a with AnySRV s => dns_srv_push P s | _ => UB end
  else if (t =? DNS_T_TXT) || (t =? DNS_T_SPF) then match a with AnyTXT d => dns_txt_push P d | _ => UB end
  else if t =? DNS_T_SSHFP then match a with AnySSHFP s => dns_sshfp_push P s | _ => UB end
  else
    match a with
    | AnyTXT d =>
        if room P <? len d + 2 then fail P DNS_ENOBUFS
        else P ← put_bytes P (two (len d) ++ d); ok P
    | _ => UB
    end.

Definition dns_any_cmp (a : any) (x : Z) (b : any) (y : Z) : out Z :=
  if negb (x - y =? 0) then Val (x - y)
  else if x =? DNS_T_A then match a, b with AnyA p, AnyA q => Val (dns_a_cmp p q) | _, _ => UB end
  else if x =? DNS_T_AAAA then match a, b with AnyAAAA p, AnyAAAA q => Val (dns_aaaa_cmp p q) | _, _ => UB end
  else if x =? DNS_T_MX then match a, b with AnyMX p h, AnyMX q k => Val (dns_mx_cmp p h q k) | _, _ => UB end
  else if (x =? DNS_T_NS) || (x =? DNS_T_CNAME) || (x =? DNS_T_PTR) then
    match a, b with AnyNS h, AnyNS k => Val (strcasecmp h k) | _, _ => UB end
  else if x =? DNS_T_SOA then match a, b with AnySOA p, AnySOA q => Val (dns_soa_cmp p q) | _, _ => UB end
  else if x =? DNS_T_SRV then match a, b with AnySRV p, AnySRV q => Val (dns_srv_cmp p q) | _, _ => UB end
  else if (x =? DNS_T_TXT) || (x =? DNS_T_SPF) then
    match a, b with AnyTXT p, AnyTXT q => Val (dns_txt_cmp p q) | _, _ => UB end
  else if x =? DNS_T_SSHFP then match a, b with AnySSHFP p, AnySSHFP q => Val (dns_sshfp_cmp p q) | _, _ => UB end
  else Val (-1).
End Fuel.

(** ** Printing

    The functions return the bytes they offer; a caller with a buffer of [lim]
    bytes finds [cbuf lim] of them. *)

(** The bytes of a string literal. *)
Fixpoint bytes (s : string) : list Z :=
  match s with
  | EmptyString => []
  | String c s' => Z.of_nat (nat_of_ascii c) :: bytes s'
  end.

(** The digits of [n] from the divisor [d = 10^k] down, leading zeros dropped
    while none was printed ([some]). *)
Fixpoint print10_loop (k : nat) (n : Z) (some : bool) : list Z :=
  match k with
  | O => []
  | S k' =>
      let d := 10 ^ Z.of_nat k' in
      let ch := n / d in
      if negb (ch =? 0) || some then (48 + ch) :: print10_loop k' (n - ch * d) true
      else print10_loop k' n some
  end.

Definition dns__print10 (n pad : Z) : list Z :=
  let digits := print10_loop 10 n false in
  let pad := Z.max 1 pad in
  replicate (Z.to_nat (pad - len digits)) 48 ++ digits.

Definition hex (n : Z) : Z := nthz (bytes "0123456789abcdef") (Z.land 15 n).

Fixpoint a_arpa_loop (n : nat) (a : Z) : list Z :=
  match n with
  | O => []
  | S n' => dns__print10 (Z.land 255 a) 0 ++ [dot] ++ a_arpa_loop n' (Z.shiftr a 8)
  end.
Definition dns_a_arpa (addr : Z) : list Z := a_arpa_loop 4 addr ++ bytes "in-addr.arpa.".

(** The address bytes from the last to the first, low nibble first. *)
Definition dns_aaaa_arpa (addr : list Z) : list Z :=
  concat ((fun b => [hex b; dot; hex (Z.shiftr b 4); dot]) <$> reverse addr) ++ bytes "ip6.arpa.".

Definition dns_ptr_qname (v6 : bool) (a4 : Z) (a6 : list Z) : list Z :=
  if v6 then dns_aaaa_arpa a6 else dns_a_arpa a4.

Definition space : list Z := [32].

Definition dns_mx_print (preference : Z) (host : list Z) : list Z :=
  dns__print10 preference 0 ++ space ++ cstr host.
Definition dns_ns_print (host : list Z) : list Z := cstr host.
Definition dns_soa_print (s : soa) : list Z :=
  cstr (soa_mname s) ++ space ++ cstr (soa_rname s) ++ space ++
  dns__print10 (soa_serial s) 0 ++ space ++ dns__print10 (soa_refresh s) 0 ++ space ++
  dns__print10 (soa_retry s) 0 ++ space ++ dns__print10 (soa_expire s) 0 ++ space ++
  dns__print10 (soa_minimum s) 0.
Definition dns_srv_print (s : srv) : list Z :=
  dns__print10 (srv_priority s) 0 ++ space ++ dns__print10 (srv_weight s) 0 ++ space ++
  dns__print10 (srv_port s) 0 ++ space ++ cstr (srv_target s).
Definition dns_sshfp_print (s : sshfp) : list Z :=
  dns__print10 (fp_algo s) 0 ++ space ++ dns__print10 (fp_type s) 0 ++ space ++
  (if fp_type s =? DNS_SSHFP_SHA1
   then concat ((fun b => [hex (Z.shiftr b 4); hex b]) <$> fp_digest s)
   else [48]).

(** A byte of a quoted text. *)
Definition txt_char (ch : Z) : list Z :=
  if (ch <? 32) || (126 <? ch) || (ch =? 34) || (ch =? 92) then [92] ++ dns__print10 ch 3 else [ch].

(** The text in strings of 255 bytes; [p] is the offset of the next byte. *)
Fixpoint txt_print_loop (p : Z) (src : list Z) : list Z :=
  match src with
  | [] => []
  | ch :: src' =>
      (if (p mod 255 =? 0) && negb (p + 1 =? 1) then [34; 32; 34] else []) ++
      txt_char ch ++ txt_print_loop (p + 1) src'
  end.
Definition dns_txt_print (data : list Z) : list Z := [34] ++ txt_print_loop 0 data ++ [34].

(** [inet_ntop] is the C library's. *)
Section Print.
Context (inet_ntop4 : Z -> list Z) (inet_ntop6 : list Z -> list Z).

Definition dns_a_print (addr : Z) : list Z := inet_ntop4 addr.
Definition dns_aaaa_print (addr : list Z) : list Z := inet_ntop6 addr.

Definition dns_any_print (a : any) (t : Z) : out (list Z) :=
  if t =? DNS_T_A then match a with AnyA x => Val (dns_a_print x) | _ => UB end
  else if t =? DNS_T_AAAA then match a with AnyAAAA x => Val (dns_aaaa_print x) | _ => UB end
  else if t =? DNS_T_MX then match a with AnyMX p h => Val (dns_mx_print p h) | _ => UB end
  else if (t =? DNS_T_NS) || (t =? DNS_T_CNAME) || (t =? DNS_T_PTR) then
    match a with AnyNS h => Val (dns_ns_print h) | _ => UB end
  else if t =? DNS_T_SOA then match a with AnySOA s => Val (dns_soa_print s) | _ => UB end
  else if t =? DNS_T_SRV then match a with AnySRV s => Val (dns_srv_print s) | _ => UB end
  else if (t =? DNS_T_TXT) || (t =? DNS_T_SPF) then match a with AnyTXT d => Val (dns_txt_print d) | _ => UB end
  else if t =? DNS_T_SSHFP then match a with AnySSHFP s => Val (dns_sshfp_print s) | _ => UB end
  else
    match a with
    | AnyTXT d => Val ([34] ++ concat ((fun ch => [92] ++ dns__print10 ch 3) <$> d) ++ [34])
    | _ => UB
    end.
End Print.

(** [dns_any_cname]: the host a record refers to. *)
Definition dns_any_cname (a : any) (t : Z) : out (list Z) :=
  if t =? DNS_T_MX then match a with AnyMX _ h => Val (cstr h) | _ => UB end
  else if (t =? DNS_T_NS) || (t =? DNS_T_CNAME) || (t =? DNS_T_PTR) then
    match a with AnyNS h => Val (cstr h) | _ => UB end
  else if t =? DNS_T_SRV then match a with AnySRV s => Val (cstr (srv_target s)) | _ => UB end
  else Val [].
