(* ===== verification/DnsPush.v ===== *)
(** Appending to a packet: what the push functions of names and of record data
    do to the bytes before and after the end of the packet, for every outcome. *)

From stdpp Require Import prelude.
From Stdlib Require Import ZArith Lia.
From S2P Require Import Prelude DnsBase DnsName DnsNameSpec DnsNamePush DnsRr DnsRrSpec DnsRdata DnsLayout.
Local Open Scope Z_scope.

(** The parts of a packet that appending leaves alone. *)
Record framed (P P' : packet) : Prop := {
  fr_qd : p_qd P' = p_qd P; fr_an : p_an P' = p_an P; fr_ns : p_ns P' = p_ns P; fr_ar : p_ar P' = p_ar P;
  fr_dict : length (p_dict P') = 16%nat;
}.

(** [m] appended [bs], or failed with nothing appended. *)
Definition appends (P P' : packet) (bs : list Z) : Prop := pushed P P' bs /\ framed P P'.

Lemma appends_trans P P1 P2 b1 b2 : wf P -> appends P P1 b1 -> appends P1 P2 b2 -> appends P P2 (b1 ++ b2).
Proof.
  intros HP [[[t1 D1] L1 B1 E1 S1] [? ? ? ? ?]] [[[t2 D2] L2 B2 E2 S2] [? ? ? ? ?]]. split; split; try congruence.
  - exists t2. rewrite D2, D1, E1. pose proof (len_take_end P HP). pose proof (wf_end P HP).
    rewrite (app_assoc (take _ _) b1 t1), (take_app_length' (take _ _ ++ b1))
      by (unfold len in *; rewrite length_app; lia).
    by rewrite <- !app_assoc.
  - rewrite E2, E1, len_app. lia.
Qed.

Lemma appends_wf P P' bs : wf P -> p_size P < 2 ^ 16 -> appends P P' bs -> wf P'.
Proof.
  intros HP Hsz [Hpu Hfr]. pose proof (pushed_fits _ _ _ HP Hpu).
  destruct (decide (p_end P + len bs < 2 ^ 16)); [|lia]. eapply pushed_wf; [done|done|apply Hfr|done].
Qed.

Lemma appends_reset P P' bs : wf P -> appends P P' bs -> appends P (set_end P' (p_end P)) [].
Proof.
  intros HP [[[t D] L B E S] [? ? ? ? ?]]. split; split; cbn; try done.
  - by eexists.
  - unfold len. cbn. lia.
Qed.

Lemma appends_refl P : wf P -> appends P P [].
Proof.
  intros HP. split; split; try done; try apply HP.
  - exists (drop (Z.to_nat (p_end P)) (p_data P)). cbn. by rewrite take_drop.
  - autorewrite with len. lia.
Qed.

(** ** Writes *)
Lemma wrn_Val l i src l' : wrn l i src = Val l' -> 0 <= i -> i + len src <= len l ->
  l' = take (Z.to_nat i) l ++ src ++ drop (Z.to_nat (i + len src)) l.
Proof.
  unfold wrn. destruct (Z.eqb_spec (len src) 0) as [E|E].
  - intros [= <-] _ _. destruct src; [|autorewrite with len in E; pose proof (len_nonneg src); lia].
    cbn. rewrite Z.add_0_r. by rewrite take_drop.
  - intros Hw Hi Hl. destruct (Z.leb_spec 0 i); [|lia]. destruct (Z.leb_spec (i + len src) (len l)); [|lia].
    cbn in Hw. congruence.
Qed.

Lemma wrn_ok l i src : 0 <= i -> i + len src <= len l ->
  wrn l i src = Val (take (Z.to_nat i) l ++ src ++ drop (Z.to_nat (i + len src)) l).
Proof.
  intros Hi Hl. destruct (wrn l i src) as [l'| |] eqn:E.
  - f_equal. by apply wrn_Val.
  - exfalso. unfold wrn in E. destruct (len src =? 0); [done|].
    destruct (Z.leb_spec 0 i); [|lia]. destruct (Z.leb_spec (i + len src) (len l)); [done|lia].
  - exfalso. unfold wrn in E. repeat case_match; done.
Qed.

Lemma len_wrn l i src : 0 <= i -> i + len src <= len l ->
  len (take (Z.to_nat i) l ++ src ++ drop (Z.to_nat (i + len src)) l) = len l.
Proof. intros. pose proof (len_nonneg src). rewrite !len_app. unfold len in *. rewrite length_take, length_drop. lia. Qed.

Lemma Forall_wrn l i src : Forall byte l -> Forall byte src ->
  Forall byte (take i l ++ src ++ drop (Z.to_nat (Z.of_nat i + len src)) l).
Proof. intros. repeat (apply Forall_app; split); auto using Forall_take, Forall_drop. Qed.

Lemma room_eq P : wf P -> room P = p_size P - p_end P.
Proof. intros HP. pose proof (wf_end P HP). pose proof (wf_size P HP). unfold room. rewrite sub64_id; lia. Qed.

Lemma put_bytes_ok P bs : wf P -> len bs <= room P -> Forall byte bs ->
  exists P', put_bytes P bs = Val P' /\ appends P P' bs.
Proof.
  intros HP Hr Hb. rewrite room_eq in Hr by done. pose proof (wf_len P HP). pose proof (wf_end P HP).
  unfold put_bytes. rewrite wrn_ok by lia. cbn [mbind out_bind]. eexists. split; [done|].
  split; split; cbn; try done; try apply HP.
  - by eexists.
  - rewrite len_wrn; lia.
  - pose proof (Forall_wrn (p_data P) (Z.to_nat (p_end P)) bs (wf_bytes P HP) Hb) as Hf.
    rewrite Z2Nat.id in Hf by lia. exact Hf.
Qed.

Lemma byte_land255 n : byte (Z.land 255 n).
Proof. pose proof (land_255 n). unfold byte. lia. Qed.
Lemma Forall_two n : Forall byte (two n).
Proof. repeat constructor; apply byte_land255. Qed.
Lemma Forall_four n : Forall byte (four n).
Proof. repeat constructor; apply byte_land255. Qed.
#[export] Hint Resolve byte_land255 Forall_two Forall_four : core.

Lemma two_u16 n : 0 <= n < 2 ^ 16 -> nthz (two n) 0 * 256 + nthz (two n) 1 = n.
Proof.
  intros Hn. unfold two. change (nthz [Z.land 255 (Z.shiftr n 8); Z.land 255 (Z.shiftr n 0)] 0) with (Z.land 255 (Z.shiftr n 8)).
  change (nthz [Z.land 255 (Z.shiftr n 8); Z.land 255 (Z.shiftr n 0)] 1) with (Z.land 255 (Z.shiftr n 0)).
  rewrite Z.shiftr_0_r, Z.shiftr_div_pow2, !(Z.land_comm 255) by lia. change 255 with (Z.ones 8). change (2 ^ 8) with 256.
  rewrite !Z.land_ones by lia. change (2 ^ 8) with 256.
  rewrite (Z.mod_small (n / 256)); [pose proof (Z.div_mod n 256); lia|].
  split; [apply Z.div_pos; lia|apply Z.div_lt_upper_bound; lia].
Qed.

(** ** Names: the bytes of any successful push *)
Lemma put_inv dst lim i v d' : put dst lim i v = Val d' -> Forall byte dst -> byte v -> len d' = len dst /\ Forall byte d'.
Proof.
  unfold put, wr. repeat case_match; try done; intros [= <-] Hd Hv; [|done].
  rewrite len_insert. split; [done|]. by apply Forall_insert.
Qed.

Lemma byte_land63 n : byte (Z.land 63 n).
Proof. pose proof (low6_range n). unfold low6, byte in *. lia. Qed.

Lemma comp_loop_inv src : forall dst lim dp dx n d' r, comp_loop src dst lim dp dx n = Val (d', r) ->
  Forall byte src -> Forall byte dst -> 0 <= dp -> 0 <= dx -> len d' = len dst /\ Forall byte d' /\ 0 <= r.
Proof.
  induction src as [|ch src IH]; intros dst lim dp dx n d' r; cbn [comp_loop]; intros Hc Hs Hd Hdp Hdx.
  - destruct (0 <? n); [|by injection Hc as <- <-].
    apply bind_Val in Hc as (d1 & Hp & [= <- <-]). apply put_inv in Hp as []; auto using byte_land63.
  - inversion Hs as [|? ? Hch Hs']; subst. destruct (ch =? dot);
      apply bind_Val in Hc as (d1 & Hp & Hc); apply put_inv in Hp as [Hl Hb]; auto using byte_land63;
      apply IH in Hc; try done; try lia; naive_solver congruence.
Qed.

Lemma comp_encode_inv src dst lim d' r : comp_encode src dst lim = Val (d', r) -> Forall byte src -> Forall byte dst ->
  len d' = len dst /\ Forall byte d' /\ 0 <= r.
Proof.
  unfold comp_encode. intros Hc Hs Hd. apply bind_Val in Hc as ([d1 r1] & Hl & Hc).
  apply comp_loop_inv in Hl as (Hlen & Hb & Hr); [|done|done|lia|lia].
  destruct (1 <? r1); [|by injection Hc as <- <-].
  apply bind_Val in Hc as (d2 & Hp & [= <- <-]). apply put_inv in Hp as []; [|done|unfold byte; lia].
  split_and!; [congruence|done|lia].
Qed.

Lemma l_expand_nonneg fuel : forall n p d e l x, l_expand fuel n p d e = Val (l, x) -> 0 <= x.
Proof.
  assert (forall z, 0 <= w16 z) as Hw by (intros; unfold w16; apply Z.mod_pos_bound; lia).
  induction fuel as [|fuel IH]; intros n p d e l x; cbn [l_expand]; [done|].
  destruct (e <=? p); [by intros [= _ <-]|]. intros (b & _ & Hc)%bind_Val.
  destruct (tag b =? 0).
  - destruct (_ <? _); [by injection Hc as _ <-|]. apply bind_Val in Hc as (? & _ & [= _ <-]). done.
  - destruct (tag b =? 3); [|by injection Hc as _ <-]. destruct (DNS_D_MAXPTRS <? n + 1); [by injection Hc as _ <-|].
    destruct (_ <? 2); [by injection Hc as _ <-|]. apply bind_Val in Hc as (b1 & _ & Hc). by eapply IH.
Qed.

Lemma comp_labels_nonneg fuel : forall p dst lim P ap bp, comp_labels fuel p dst lim P = Val (Some (ap, bp)) -> 0 <= p -> 0 <= ap.
Proof.
  induction fuel as [|fuel IH]; intros p dst lim P ap bp; cbn [comp_labels]; [done|].
  intros ([al ax] & Hl & Hc)%bind_Val Hp. destruct (len al =? 0); [done|].
  apply bind_Val in Hc as ([b|] & _ & Hc); [by injection Hc as <- _|].
  eapply IH; [done|]. by eapply l_expand_nonneg.
Qed.

Lemma wr_inv l i v l' : wr l i v = Val l' -> Forall byte l -> byte v -> len l' = len l /\ Forall byte l'.
Proof. unfold wr. case_match; [|done]. intros [= <-] ? ?. rewrite len_insert. split; [done|by apply Forall_insert]. Qed.

Lemma lor192_byte n : byte (Z.lor 192 (Z.land 63 n)).
Proof. pose proof (low6_range n). unfold low6, byte in *. rewrite lor_192 by done. lia. Qed.

Lemma d_comp_inv fuel dst lim src P d' n : dns_d_comp fuel dst lim src P = Val (d', n) -> Forall byte src -> Forall byte dst ->
  len d' = len dst /\ Forall byte d' /\ 0 <= n.
Proof.
  unfold dns_d_comp. intros Hc Hs Hd. apply bind_Val in Hc as ([d1 r1] & He & Hc).
  apply comp_encode_inv in He as (Hl & Hb & Hr); [|done..].
  destruct (r1 <? lim); [|by injection Hc as <- <-].
  apply bind_Val in Hc as ([[ap bp]|] & Hlab & Hc); [|by injection Hc as <- <-].
  apply comp_labels_nonneg in Hlab; [|lia].
  apply bind_Val in Hc as (d2 & H2 & Hc). apply bind_Val in Hc as (d3 & H3 & [= <- <-]).
  apply wr_inv in H2 as [? ?]; [|done|apply lor192_byte]. apply wr_inv in H3 as [? ?]; [|done|apply byte_land255].
  split_and!; [congruence|done|lia].
Qed.

Lemma length_dict_replace dict x y r : dict_replace dict x y = Some r -> length r = length dict.
Proof.
  revert r. induction dict as [|z dict IH]; intros r; cbn; [done|].
  destruct (z =? 0); [done|]. destruct (z =? x); [by intros [= <-]|].
  destruct (dict_replace dict x y); [|done]. intros [= <-]. cbn. by rewrite IH.
Qed.

Lemma dictadd_loop_len fuel : forall lp dn P r, dictadd_loop fuel lp dn P = Val (Some r) -> length r = length (p_dict P).
Proof.
  induction fuel as [|fuel IH]; intros lp dn P r; cbn [dictadd_loop]; [done|].
  destruct (lp <? p_end P); [|done]. intros (b & _ & Hc)%bind_Val. apply bind_Val in Hc as (o & Ho & Hc).
  destruct o as [dict|].
  - injection Hc as <-. destruct (_ && _); [|done]. apply bind_Val in Ho as (b1 & _ & [= Ho]).
    by eapply length_dict_replace.
  - apply bind_Val in Hc as (lp' & _ & Hc). by eapply IH.
Qed.

Lemma dictadd_framed fuel P dn P' : dns_p_dictadd fuel P dn = Val P' ->
  exists dict, P' = set_dict P dict /\ length dict = length (p_dict P).
Proof.
  unfold dns_p_dictadd. intros (r & Hr & Hc)%bind_Val. destruct r as [dict|]; injection Hc as <-.
  - eexists. split; [done|]. by eapply dictadd_loop_len.
  - eexists. split; [done|]. apply length_dict_put.
Qed.

(** Copying an encoded name to the end of the packet. *)
Lemma comp_appends P dst n : wf P -> len dst = len (drop (Z.to_nat (p_end P)) (p_data P)) -> Forall byte dst ->
  0 <= n <= len dst -> appends P (set_end (set_data P (take (Z.to_nat (p_end P)) (p_data P) ++ dst)) (p_end P + n))
    (take (Z.to_nat n) dst).
Proof.
  intros HP Hl Hb Hn. pose proof (len_take_end P HP). pose proof (wf_len P HP). pose proof (wf_end P HP).
  split; split; cbn; try done; try apply HP.
  - exists (drop (Z.to_nat n) dst). by rewrite take_drop.
  - rewrite len_app. unfold len in *. rewrite length_drop in Hl. lia.
  - apply Forall_app. split; [apply Forall_take, (wf_bytes P HP)|done].
  - unfold len in *. rewrite length_take. lia.
Qed.

Lemma d_push_inv fuel P dn P' err : wf P -> Forall byte dn -> dns_d_push fuel P dn = Val (P', err) ->
  match err with
  | None => exists bs, appends P P' bs /\ 0 < len bs
  | Some _ => appends P P' []
  end.
Proof.
  intros HP Hdn. unfold dns_d_push. pose proof (room_eq P HP) as Hroom. unfold room in Hroom. rewrite Hroom.
  pose proof (wf_len P HP). pose proof (wf_end P HP).
  set (post := drop (Z.to_nat (p_end P)) (p_data P)).
  assert (len post = p_size P - p_end P) as Hpost by (unfold post, len in *; rewrite length_drop; lia).
  intros ([dst n] & Hc & Hx)%bind_Val.
  apply d_comp_inv in Hc as (Hl & Hb & Hn); [|done|apply Forall_drop, (wf_bytes P HP)].
  destruct (Z.eqb_spec n 0); [done|]. destruct (Z.ltb_spec (p_size P - p_end P) n).
  - injection Hx as <- <-. pose proof (comp_appends P dst 0 HP Hl Hb ltac:(lia)) as [[Hd ? ? He ?] ?].
    cbn in *. split; [|by destruct H2 as [? ? ? ? ?]]. split; cbn; try done; autorewrite with len; lia.
  - apply bind_Val in Hx as (P2 & Hadd & [= <- <-]). apply dictadd_framed in Hadd as (dict & -> & Hdict).
    pose proof (comp_appends P dst n HP Hl Hb ltac:(lia)) as [[Hd ? ? ? ?] [? ? ? ? ?]].
    exists (take (Z.to_nat n) dst). split.
    + split; split; try done. cbn in *. rewrite Hdict. apply HP.
    + unfold len in *. rewrite length_take. lia.
Qed.

(** ** Record data *)

(** Contents of the right shape for their C arrays. *)
Definition any_ok (a : any) : Prop :=
  match a with
  | AnyA _ => True
  | AnyAAAA x => length x = 16%nat /\ Forall byte x
  | AnyMX _ h | AnyNS h => Forall byte h
  | AnySOA s => Forall byte (soa_mname s) /\ Forall byte (soa_rname s)
  | AnySRV s => Forall byte (srv_target s)
  | AnySSHFP s => length (fp_digest s) = 20%nat /\ Forall byte (fp_digest s)
  | AnyTXT x => Forall byte x
  end.

(** The result of appending record data: the length in two bytes and the data,
    or nothing once the end is reset. *)
Definition rdata_res (P P' : packet) (err : option dns_error) : Prop :=
  match err with
  | None => exists payload, appends P P' (two (len payload) ++ payload) /\ len payload < 2 ^ 16
  | Some _ => appends P (set_end P' (p_end P)) []
  end.

(** The same with the data given. *)
Definition rdata_is (P P' : packet) (err : option dns_error) (payload : list Z) : Prop :=
  match err with
  | None => appends P P' (two (len payload) ++ payload) /\ len payload < 2 ^ 16
  | Some _ => appends P (set_end P' (p_end P)) []
  end.

Lemma is_res P P' err payload : rdata_is P P' err payload -> rdata_res P P' err.
Proof. destruct err; cbn; [done|by exists payload]. Qed.

Lemma Forall_cstr h : Forall byte h -> Forall byte (cstr h).
Proof. induction 1 as [|b h Hb _ IH]; cbn; [constructor|]. destruct (b =? 0); [constructor|by constructor]. Qed.

Lemma set_end_same P : set_end P (p_end P) = P.
Proof. by destruct P. Qed.

Lemma set_end_twice P x y : set_end (set_end P x) y = set_end P y.
Proof. done. Qed.

Lemma nil_res P P' e : wf P -> appends P P' [] -> rdata_res P P' (Some e).
Proof.
  intros HP Ha. unfold rdata_res. pose proof (pu_end _ _ _ (proj1 Ha)) as He. autorewrite with len in He.
  rewrite Z.add_0_r in He. rewrite <- He at 1. by rewrite set_end_same.
Qed.

Lemma nil_is P P' e payload : wf P -> appends P P' [] -> rdata_is P P' (Some e) payload.
Proof. apply (nil_res P P' e). Qed.

Section RdataPush.
Context (P : packet) (HP : wf P) (Hsz : p_size P < 2 ^ 16).

Lemma payload_short P' bs payload : appends P P' bs -> len payload <= len bs -> len payload < 2 ^ 16.
Proof. intros [Hpu _] Hl. pose proof (pushed_fits _ _ _ HP Hpu). pose proof (wf_end P HP). lia. Qed.

(** Leaving two bytes for the length. *)
Lemma gap_appends : 2 <= room P -> exists g, len g = 2 /\ appends P (set_end P (p_end P + 2)) g.
Proof.
  intros Hr. rewrite room_eq in Hr by done. pose proof (wf_len P HP). pose proof (wf_end P HP).
  exists (take 2 (drop (Z.to_nat (p_end P)) (p_data P))).
  assert (len (take 2 (drop (Z.to_nat (p_end P)) (p_data P))) = 2) as Hg
    by (unfold len in *; rewrite length_take, length_drop; lia).
  split; [done|]. split; split; cbn -[take drop]; try done; try apply HP; [|lia].
  exists (drop 2 (drop (Z.to_nat (p_end P)) (p_data P))). by rewrite !take_drop.
Qed.

Lemma put_rdlen_ok P3 g payload : appends P P3 (g ++ payload) -> len g = 2 ->
  exists P4, put_rdlen P3 (p_end P) = Val P4 /\ appends P P4 (two (len payload) ++ payload).
Proof.
  intros [[[t D] L B E S] [? ? ? ? ?]] Hg. pose proof (len_take_end P HP) as Ht. pose proof (wf_end P HP).
  unfold put_rdlen. rewrite len_app, Hg in E.
  replace (p_end P3 - p_end P - 2) with (len payload) by lia.
  assert (p_data P3 = take (Z.to_nat (p_end P)) (p_data P) ++ g ++ (payload ++ t)) as D' by (by rewrite D, <- app_assoc).
  set (w := two (len payload)). assert (len w = 2) as Hw by done.
  assert (p_end P + len w <= len (p_data P3)) as Hfit.
  { rewrite D', !len_app, Ht. pose proof (len_nonneg payload). pose proof (len_nonneg t). lia. }
  rewrite wrn_ok by lia. cbn [mbind out_bind]. eexists. split; [done|].
  assert (take (Z.to_nat (p_end P)) (p_data P3) = take (Z.to_nat (p_end P)) (p_data P)) as Htk
    by (rewrite D', take_app_length' by (unfold len in *; lia); done).
  assert (drop (Z.to_nat (p_end P + len w)) (p_data P3) = payload ++ t) as Hdr.
  { rewrite D', app_assoc, drop_app_length'; [done|]. unfold len in *. rewrite length_app. lia. }
  rewrite Htk, Hdr. split; split; cbn -[take drop w]; try done.
  - exists t. by rewrite <- !app_assoc.
  - rewrite !len_app, Ht. rewrite D', !len_app, Ht in L. lia.
  - rewrite D', !Forall_app in B. destruct B as (? & ? & ? & ?). apply Forall_app. split; [done|].
    apply Forall_app. split; [apply Forall_two|by apply Forall_app].
  - rewrite len_app. lia.
Qed.

(** Appending a block with its length. *)
Lemma block_res bs payload : bs = two (len payload) ++ payload -> Forall byte payload -> len bs <= room P ->
  exists P', put_bytes P bs = Val P' /\ rdata_is P P' None payload.
Proof.
  intros -> Hb Hr. destruct (put_bytes_ok P (two (len payload) ++ payload)) as (P' & Hp & Ha); [done|done|apply Forall_app; auto|].
  exists P'. split; [done|]. split; [done|]. eapply payload_short; [done|].
  rewrite len_app. pose proof (len_nonneg (two (len payload))). lia.
Qed.

Lemma a_push_is addr P' err : dns_a_push P addr = Val (P', err) -> rdata_is P P' err (four addr).
Proof.
  unfold dns_a_push. destruct (Z.ltb_spec (room P) 6); [intros [= <- <-]; by apply nil_is, appends_refl|].
  destruct (block_res ([0; 4] ++ four addr) (four addr)) as (P1 & Hp & Hr); [done|auto|done|].
  rewrite Hp. by intros [= <- <-].
Qed.

Lemma aaaa_push_is addr P' err : length addr = 16%nat -> Forall byte addr ->
  dns_aaaa_push P addr = Val (P', err) -> rdata_is P P' err (addr).
Proof.
  intros Hl Hb. unfold dns_aaaa_push. destruct (Z.ltb_spec (room P) 18); [intros [= <- <-]; by apply nil_is, appends_refl|].
  assert (len addr = 16) as Hl' by (unfold len; lia).
  destruct (block_res ([0; 16] ++ addr) addr) as (P1 & Hp & Hr);
    [by rewrite Hl'|done|rewrite len_app, Hl'; change (len [0; 16]) with 2; lia|]. rewrite Hp. by intros [= <- <-].
Qed.

(** A gap, fixed bytes, and then [m]: names and fields. *)
Lemma after_gap P1 bs : appends P P1 bs -> wf P1.
Proof. intros Ha. by eapply appends_wf. Qed.

Lemma close_gap g P1 bs P3 : appends P P1 g -> len g = 2 -> appends P1 P3 bs ->
  exists P4, put_rdlen P3 (p_end P) = Val P4 /\ rdata_res P P4 None.
Proof.
  intros Ha Hg Hb. pose proof (appends_trans P P1 P3 g bs HP Ha Hb) as Hc.
  destruct (put_rdlen_ok P3 g bs Hc Hg) as (P4 & Hp & Hr). exists P4. split; [done|]. exists bs. split; [done|].
  eapply payload_short; [exact Hc|]. rewrite len_app. lia.
Qed.

Lemma fail_gap g P1 P2 bs e : appends P P1 g -> appends P1 P2 bs -> rdata_res P (set_end P2 (p_end P)) (Some e).
Proof.
  intros Ha Hb. unfold rdata_res. rewrite set_end_twice. eapply appends_reset; [done|].
  eapply appends_trans; done.
Qed.

Lemma ns_push_res fuel h P' err : Forall byte h -> dns_ns_push fuel P h = Val (P', err) -> rdata_res P P' err.
Proof.
  intros Hh. unfold dns_ns_push. destruct (Z.ltb_spec (room P) 3); [intros [= <- <-]; by apply nil_res, appends_refl|].
  destruct gap_appends as (g & Hg & Hga); [lia|]. pose proof (after_gap _ _ Hga) as HP1.
  intros ([P2 err2] & Hd & Hx)%bind_Val. apply d_push_inv in Hd; [|done|by apply Forall_cstr].
  destruct err2 as [e|].
  - injection Hx as <- <-. by eapply fail_gap.
  - destruct Hd as (bs & Hb & _). destruct (close_gap g _ bs P2 Hga Hg Hb) as (P4 & Hp & Hr).
    rewrite Hp in Hx. cbn in Hx. by injection Hx as <- <-.
Qed.

Lemma mx_push_res fuel p h P' err : Forall byte h -> dns_mx_push fuel P p h = Val (P', err) -> rdata_res P P' err.
Proof.
  intros Hh. unfold dns_mx_push. destruct (Z.ltb_spec (room P) 5); [intros [= <- <-]; by apply nil_res, appends_refl|].
  destruct gap_appends as (g & Hg & Hga); [lia|]. pose proof (after_gap _ _ Hga) as HP1.
  destruct (put_bytes_ok (set_end P (p_end P + 2)) (two p)) as (P1 & Hp1 & Ha1); [done| |auto|].
  { rewrite room_eq by done. rewrite room_eq in * by done. change (len (two p)) with 2. cbn [set_end p_size p_end]. lia. }
  rewrite Hp1. cbn [mbind out_bind].
  assert (wf P1) as HP1' by (eapply appends_wf; [exact HP1|done|done]).
  intros ([P2 err2] & Hd & Hx)%bind_Val. apply d_push_inv in Hd; [|done|by apply Forall_cstr].
  destruct err2 as [e|].
  - injection Hx as <- <-. eapply fail_gap; [done|]. by eapply appends_trans.
  - destruct Hd as (bs & Hb & _). destruct (close_gap g _ (two p ++ bs) P2 Hga Hg) as (P4 & Hp & Hr);
      [by eapply appends_trans|]. rewrite Hp in Hx. cbn in Hx. by injection Hx as <- <-.
Qed.

Lemma put_fields_inv ts : forall P1 P2 err, wf P1 -> p_size P1 < 2 ^ 16 -> put_fields P1 ts = Val (P2, err) ->
  exists bs, appends P1 P2 bs.
Proof.
  induction ts as [|t ts IH]; intros P1 P2 err H1 Hs1; cbn [put_fields].
  - intros [= <- <-]. exists []. by apply appends_refl.
  - destruct (Z.leb_spec (p_size P1) (p_end P1 + 4)); [intros [= <- <-]; exists []; by apply appends_refl|].
    destruct (put_bytes_ok P1 (four t)) as (P3 & Hp & Ha); [done| |auto|].
    { rewrite room_eq by done. change (len (four t)) with 4. lia. }
    rewrite Hp. cbn [mbind out_bind]. intros Hx. pose proof (pu_size _ _ _ (proj1 Ha)).
    apply IH in Hx as [bs Hb]; [|by eapply appends_wf|lia]. eexists. by eapply appends_trans.
Qed.

Lemma soa_push_res fuel s P' err : Forall byte (soa_mname s) -> Forall byte (soa_rname s) ->
  dns_soa_push fuel P s = Val (P', err) -> rdata_res P P' err.
Proof.
  intros Hm Hn. unfold dns_soa_push. pose proof (room_eq P HP) as Hroom.
  destruct (Z.leb_spec (p_size P) (p_end P + 2)); [intros [= <- <-]; by apply nil_res, appends_refl|].
  destruct gap_appends as (g & Hg & Hga); [lia|]. pose proof (after_gap _ _ Hga) as HP0.
  intros ([P1 err1] & Q1 & Hx)%bind_Val. apply d_push_inv in Q1; [|done|by apply Forall_cstr].
  destruct err1 as [e|]; [injection Hx as <- <-; by eapply fail_gap|]. destruct Q1 as (b1 & Q1 & _).
  assert (wf P1) as HP1 by (eapply appends_wf; [exact HP0|done|done]).
  assert (p_size P1 = p_size P) as S1 by apply (pu_size _ _ _ (proj1 Q1)).
  apply bind_Val in Hx as ([P2 err2] & Q2 & Hx). apply d_push_inv in Q2; [|done|by apply Forall_cstr].
  destruct err2 as [e|]; [injection Hx as <- <-; eapply fail_gap; [done|by eapply appends_trans]|]. destruct Q2 as (b2 & Q2 & _).
  assert (p_size P2 = p_size P) as S2 by (rewrite <- S1; apply (pu_size _ _ _ (proj1 Q2))).
  assert (wf P2) as HP2 by (eapply appends_wf; [exact HP1|lia|done]).
  apply bind_Val in Hx as ([P3 err3] & Q3 & Hx). apply put_fields_inv in Q3 as [b3 Q3]; [|done|lia].
  pose proof (appends_trans _ _ _ _ _ HP1 Q2 Q3) as Q23. pose proof (appends_trans _ _ _ _ _ HP0 Q1 Q23) as Q123.
  destruct err3 as [e|]; [injection Hx as <- <-; by eapply fail_gap|].
  destruct (close_gap g _ _ P3 Hga Hg Q123) as (P4 & Hp & Hr). rewrite Hp in Hx. cbn in Hx. by injection Hx as <- <-.
Qed.

Lemma srv_push_res fuel s P' err : Forall byte (srv_target s) -> dns_srv_push fuel P s = Val (P', err) -> rdata_res P P' err.
Proof.
  intros Ht. unfold dns_srv_push. pose proof (room_eq P HP) as Hroom.
  destruct (Z.ltb_spec (room P) 2); [intros [= <- <-]; by apply nil_res, appends_refl|].
  destruct gap_appends as (g & Hg & Hga); [lia|]. pose proof (after_gap _ _ Hga) as HP0.
  destruct (Z.ltb_spec (room (set_end P (p_end P + 2))) 6); [intros [= <- <-]; by apply nil_res, appends_refl|].
  destruct (put_bytes_ok (set_end P (p_end P + 2)) (two (srv_priority s) ++ two (srv_weight s) ++ two (srv_port s)))
    as (P1 & Hp & Q1); [done|done|repeat (apply Forall_app; split); auto|]. rewrite Hp. cbn [mbind out_bind].
  assert (wf P1) as HP1 by (eapply appends_wf; [exact HP0|done|done]).
  assert (p_size P1 = p_size P) as S1 by apply (pu_size _ _ _ (proj1 Q1)).
  pose proof (wf_len P1 HP1). pose proof (wf_end P1 HP1). pose proof (room_eq P1 HP1) as Hr1.
  intros ([dst n] & Hc & Hx)%bind_Val.
  apply d_comp_inv in Hc as (Hl & Hb & Hn); [|by apply Forall_cstr|apply Forall_drop, (wf_bytes P1 HP1)].
  assert (len dst = p_size P1 - p_end P1) as Hdst by (rewrite Hl; unfold len in *; rewrite length_drop; lia).
  destruct (n =? 0); [done|]. destruct (Z.ltb_spec (room P1) n).
  - injection Hx as <- <-. eapply (fail_gap _ _ (set_end (set_data P1 (take (Z.to_nat (p_end P1)) (p_data P1) ++ dst)) (p_end P1 + 0))); [done|].
    eapply appends_trans; [exact HP0|exact Q1|]. eapply comp_appends; [done|done|done|lia].
  - pose proof (comp_appends P1 dst n HP1 Hl Hb ltac:(lia)) as Q2.
    pose proof (appends_trans _ _ _ _ _ HP0 Q1 Q2) as Q12.
    destruct (65535 <? _); [injection Hx as <- <-; by eapply fail_gap|].
    destruct (close_gap g _ _ _ Hga Hg Q12) as (P4 & Hp4 & Hr4). rewrite Hp4 in Hx. cbn in Hx. by injection Hx as <- <-.
Qed.

(** Overwriting bytes past the end appends nothing. *)
Lemma wrn_past i src d : wrn (p_data P) i src = Val d -> p_end P <= i -> Forall byte src -> appends P (set_data P d) [].
Proof.
  intros Hw Hi Hs. pose proof (wf_len P HP). pose proof (wf_end P HP). pose proof (wf_bytes P HP).
  unfold wrn in Hw. destruct (Z.eqb_spec (len src) 0); [injection Hw as <-; by destruct (appends_refl P HP) as [[] []]|].
  destruct (Z.leb_spec 0 i); [|done]. destruct (Z.leb_spec (i + len src) (len (p_data P))); [|done]. cbn in Hw.
  injection Hw as <-. split; split; cbn -[take drop]; try done; try apply HP.
  - eexists. cbn [app]. rewrite <- (take_drop (Z.to_nat (p_end P)) (take (Z.to_nat i) (p_data P))).
    rewrite take_take, <- app_assoc. f_equal. f_equal. lia.
  - rewrite len_wrn; lia.
  - pose proof (Forall_wrn (p_data P) (Z.to_nat i) src (wf_bytes P HP) Hs) as Hf. rewrite Z2Nat.id in Hf by lia. exact Hf.
  - autorewrite with len. lia.
Qed.

(** The list of strings of a text. *)
Fixpoint chunks (n : nat) (src : list Z) : list Z :=
  match n, src with
  | S n', _ :: _ => Z.min 255 (len src) :: take 255 src ++ chunks n' (drop 255 src)
  | _, _ => []
  end.

Lemma chunks_nil n : chunks n [] = [].
Proof. by destruct n. Qed.

Lemma len_chunks n : forall src, (length src <= n)%nat -> len (chunks n src) = len src + (len src + 254) / 255.
Proof.
  induction n as [|n IH]; intros src Hn; [destruct src; [done|cbn in Hn; lia]|].
  destruct src as [|x src]; [done|]. cbn [chunks]. rewrite len_cons, len_app, IH by (rewrite length_drop; cbn [length] in *; lia).
  set (l := x :: src) in *. assert (0 < len l) as Hl by (unfold l; rewrite len_cons; pose proof (len_nonneg src); lia).
  assert (len (take 255 l) = Z.min 255 (len l)) as -> by (unfold len; rewrite length_take; lia).
  assert (len (drop 255 l) = Z.max 0 (len l - 255)) as -> by (unfold len; rewrite length_drop; lia).
  destruct (Z.le_gt_cases (len l) 255).
  - rewrite Z.max_l by lia. rewrite <- (Z.div_unique (len l + 254) 255 1 (len l - 1)) by lia. change ((0 + 254) / 255) with 0. lia.
  - rewrite Z.max_r by lia. replace (len l + 254) with (1 * 255 + (len l - 255 + 254)) by lia. rewrite Z.div_add_l by lia. lia.
Qed.

Lemma Forall_chunks n : forall src, Forall byte src -> Forall byte (chunks n src).
Proof.
  induction n as [|n IH]; intros [|x src] Hs; try by constructor. cbn [chunks].
  constructor; [unfold byte; pose proof (len_nonneg (x :: src)); lia|].
  apply Forall_app. split; [by apply Forall_take|]. apply IH. by apply Forall_drop.
Qed.

Lemma txt_push_loop_ok n : forall src d p e, (length src < n)%nat -> 0 <= p <= e -> len d = e -> e < 2 ^ 64 ->
  if p + len (chunks n src) <=? e
  then txt_push_loop n src d p e = Val (inr (take (Z.to_nat p) d ++ chunks n src ++ drop (Z.to_nat (p + len (chunks n src))) d, p + len (chunks n src)))
  else txt_push_loop n src d p e = Val (inl DNS_ENOBUFS).
Proof.
  induction n as [|n IH]; intros src d p e Hn Hp Hd He; [lia|]. destruct src as [|x src]; cbn [txt_push_loop].
  - cbn [chunks]. autorewrite with len. destruct (Z.leb_spec (p + 0) e); [|lia]. rewrite Z.add_0_r. cbn. by rewrite take_drop.
  - cbn [chunks]. set (l := x :: src) in *. set (k := Z.min 255 (len l)).
    assert (0 < len l) as Hl by (unfold l; rewrite len_cons; pose proof (len_nonneg src); lia).
    assert (take (Z.to_nat k) l = take 255 l /\ drop (Z.to_nat k) l = drop 255 l) as [Htk Hdk].
    { unfold k, len. destruct (Z.le_gt_cases 255 (Z.of_nat (length l))).
      - rewrite Z.min_l by lia. done.
      - rewrite Z.min_r by lia. rewrite Nat2Z.id. split; [rewrite !take_ge by lia; done|rewrite !drop_ge by lia; done]. }
    assert (len (take 255 l) = k) as Hlk by (unfold k, len; rewrite length_take; lia).
    pose proof (len_nonneg (chunks n (drop 255 l))). rewrite len_cons, len_app, Hlk.
    destruct (Z.leb_spec e p).
    { destruct (Z.leb_spec (p + (1 + (k + len (chunks n (drop 255 l))))) e); [unfold k in *; lia|done]. }
    rewrite wr_in by lia. cbn [mbind out_bind]. rewrite sub64_id by lia. destruct (Z.ltb_spec (e - (p + 1)) k).
    { destruct (Z.leb_spec (p + (1 + (k + len (chunks n (drop 255 l))))) e); [lia|done]. }
    rewrite Htk, Hdk, wrn_ok by (rewrite ?len_insert, ?Hlk; unfold k in *; lia). cbn [mbind out_bind].
    assert (length (drop 255 l) < n)%nat as Hdn by (rewrite length_drop; unfold l in *; cbn [length] in *; lia).
    set (d2 := take (Z.to_nat (p + 1)) (<[Z.to_nat p:=k]> d) ++ take 255 l ++ drop (Z.to_nat (p + 1 + len (take 255 l))) (<[Z.to_nat p:=k]> d)).
    assert (d2 = (take (Z.to_nat p) d ++ [k] ++ take 255 l) ++ drop (Z.to_nat (p + 1 + k)) d) as Hd2.
    { unfold d2. rewrite Hlk. rewrite drop_insert_lt by (unfold k in *; lia).
      replace (Z.to_nat (p + 1)) with (S (Z.to_nat p)) by lia.
      rewrite (take_S_r _ _ k) by (apply list_lookup_insert_eq; unfold len in *; lia).
      rewrite take_insert_ge by lia. by rewrite <- !app_assoc. }
    assert (len (take (Z.to_nat p) d ++ [k] ++ take 255 l) = p + 1 + k) as Hpre.
    { rewrite !len_app, Hlk. change (len [k]) with 1. assert (len (take (Z.to_nat p) d) = p) by (unfold len in *; rewrite length_take; lia). lia. }
    specialize (IH (drop 255 l) d2 (p + 1 + k) e Hdn ltac:(unfold k in *; lia)).
    assert (len d2 = e) as Hl2.
    { rewrite Hd2, len_app, Hpre. unfold len in *. rewrite length_drop. unfold k in *. lia. }
    specialize (IH Hl2 He).
    replace (p + (1 + (k + len (chunks n (drop 255 l))))) with (p + 1 + k + len (chunks n (drop 255 l))) by lia.
    destruct (_ <=? e); rewrite IH; [|done]. do 2 f_equal. f_equal.
    rewrite Hd2. rewrite take_app_length' by (unfold len in *; lia).
    rewrite drop_app_ge by (unfold len in *; lia). rewrite drop_drop, <- !app_assoc. cbn [app].
    rewrite <- app_assoc. do 5 f_equal. cbn [app] in Hpre. unfold len in *. lia.
Qed.

Lemma txt_push_is data P' err : Forall byte data -> dns_txt_push P data = Val (P', err) -> rdata_is P P' err (chunks (S (length data)) data).
Proof.
  intros Hb. unfold dns_txt_push. pose proof (room_eq P HP) as Hroom. pose proof (wf_len P HP). pose proof (wf_end P HP).
  destruct (Z.ltb_spec (room P) 2); [intros [= <- <-]; by apply nil_is, appends_refl|].
  set (n := len data + (len data + 254) / 255). change (len (two n)) with 2 in *.
  destruct (wrn (p_data P) (p_end P) (two n)) as [d| |] eqn:Ew; try done. cbn [mbind out_bind].
  pose proof (wrn_past (p_end P) (two n) d Ew ltac:(lia) ltac:(auto)) as Hpast.
  apply wrn_Val in Ew as Ed; [|lia|change (len (two n)) with 2; lia].
  assert (len d = p_size P) as Hld by apply (pu_len _ _ _ (proj1 Hpast)).
  pose proof (txt_push_loop_ok (S (length data)) data d (p_end P + 2) (p_size P) ltac:(lia) ltac:(lia) Hld ltac:(lia)) as Hloop.
  set (body := chunks (S (length data)) data) in *.
  assert (len body = n) as Hn by (apply len_chunks; lia).
  destruct (Z.leb_spec (p_end P + 2 + len body) (p_size P)); rewrite Hloop; cbn [mbind out_bind]; intros [= <- <-]; [|by apply nil_is].
  split; [|lia]. pose proof (len_take_end P HP) as Htk.
  assert (take (Z.to_nat (p_end P + 2)) d = take (Z.to_nat (p_end P)) (p_data P) ++ two n) as Htd.
  { rewrite Ed, (app_assoc _ (two n)), take_app_length'; [done|]. unfold len in *. rewrite length_app. cbn [length two]. lia. }
  assert (Forall byte body) as Hbb by by apply Forall_chunks. clear Hloop. clearbody body.
  split; split; cbn -[take drop two]; try done; try apply HP; rewrite ?Htd, ?Hn.
  - exists (drop (Z.to_nat (p_end P + 2 + n)) d). by rewrite <- !app_assoc.
  - rewrite !len_app, Htk. change (len (two n)) with 2. unfold len in *. rewrite length_drop. lia.
  - repeat (apply Forall_app; split); auto.
    + apply Forall_take, (wf_bytes P HP).
    + apply Forall_drop, (pu_bytes _ _ _ (proj1 Hpast)).
  - rewrite len_app. change (len (two n)) with 2. lia.
Qed.

Lemma sshfp_push_is x P' err : length (fp_digest x) = 20%nat -> Forall byte (fp_digest x) ->
  dns_sshfp_push P x = Val (P', err) -> rdata_is P P' err ([Z.land 255 (fp_algo x); Z.land 255 (fp_type x)] ++ fp_digest x).
Proof.
  intros Hl Hb. unfold dns_sshfp_push. pose proof (room_eq P HP) as Hroom. pose proof (wf_len P HP). pose proof (wf_end P HP).
  assert (len (fp_digest x) = 20) as Hl' by (unfold len; lia).
  assert (forall a, 0 <= a -> a <= p_size P -> w32 (p_size P - a) = p_size P - a) as Hw32
    by (intros; unfold w32; apply Z.mod_small; lia).
  rewrite Hw32 by lia. destruct (Z.ltb_spec (p_size P - p_end P) 4); [intros [= <- <-]; by apply nil_is, appends_refl|].
  set (w := [Z.land 255 (fp_algo x); Z.land 255 (fp_type x)]).
  assert (len w = 2 /\ Forall byte w) as [Hw Hbw] by (split; [done|repeat constructor; apply byte_land255]).
  destruct (wrn (p_data P) (p_end P + 2) w) as [d1| |] eqn:E1; try done. cbn [mbind out_bind].
  pose proof (wrn_past _ _ _ E1 ltac:(lia) Hbw) as Hpast1.
  apply wrn_Val in E1 as D1; [|lia|lia]. rewrite Hw in D1.
  destruct (fp_type x =? DNS_SSHFP_SHA1); [|intros [= <- <-]; by apply nil_is].
  rewrite Hw32 by lia. destruct (Z.ltb_spec (p_size P - (p_end P + 4)) 20); [intros [= <- <-]; by apply nil_is|].
  assert (len d1 = p_size P) as Ld1 by apply (pu_len _ _ _ (proj1 Hpast1)).
  rewrite (wrn_ok d1) by lia. rewrite Hl'. cbn [mbind out_bind].
  set (d2 := take (Z.to_nat (p_end P + 4)) d1 ++ fp_digest x ++ drop (Z.to_nat (p_end P + 4 + 20)) d1).
  assert (len d2 = p_size P) as Ld2 by (unfold d2; rewrite <- Hl'; rewrite len_wrn; lia).
  replace (p_end P + 4 + 20 - p_end P - 2) with 22 by lia.
  rewrite (wrn_ok d2) by (change (len (two 22)) with 2; lia). cbn [mbind out_bind]. change (len (two 22)) with 2.
  pose proof (Forall_two 22) as Bt. assert (len (two 22) = 2) as Ht2 by done.
  set (tw := two 22) in *. assert (two 22 = tw) as Etw by done. clearbody w tw.
  intros [= <- <-].
  assert (len (w ++ fp_digest x) = 22) as Hp22 by (rewrite len_app; lia). split; [|lia].
  rewrite Hp22, Etw.
  assert (Forall byte d1) as Bd1 by apply (pu_bytes _ _ _ (proj1 Hpast1)).
  pose proof (len_take_end P HP) as Htk.
  (* the bytes of [d2] up to its digest *)
  set (A := take (Z.to_nat (p_end P)) (p_data P)) in *.
  set (g := take 2 (drop (Z.to_nat (p_end P)) (p_data P))).
  assert (len g = 2) as Hg by (unfold g, len in *; rewrite length_take, length_drop; lia).
  assert (take (Z.to_nat (p_end P + 2)) (p_data P) = A ++ g) as HAg.
  { unfold A, g. rewrite take_take_drop. f_equal. lia. }
  assert (take (Z.to_nat (p_end P + 4)) d1 = A ++ g ++ w) as H4.
  { rewrite D1, HAg, app_assoc, take_app_length' by (unfold len in *; rewrite !length_app; lia). by rewrite <- app_assoc. }
  set (T := drop (Z.to_nat (p_end P + 4 + 20)) d1) in *.
  assert (take (Z.to_nat (p_end P)) d2 = A) as HA2
    by (unfold d2; rewrite H4, <- !app_assoc, take_app_length' by (unfold len in *; lia); done).
  assert (drop (Z.to_nat (p_end P + 2)) d2 = w ++ fp_digest x ++ T) as HT2.
  { unfold d2. rewrite H4. replace ((A ++ g ++ w) ++ fp_digest x ++ T) with ((A ++ g) ++ w ++ fp_digest x ++ T) by (by rewrite <- !app_assoc).
    rewrite drop_app_length'; [done|]. unfold len in *. rewrite length_app. lia. }
  rewrite HA2, HT2. split; split; cbn -[take drop A T d2]; try done; try apply HP; rewrite ?Hp22.
  - exists T. by rewrite <- !app_assoc.
  - rewrite !len_app, Htk, Hw, Hl'.
    assert (len T = p_size P - p_end P - 24) by (unfold T, len in *; rewrite length_drop; lia). lia.
  - repeat (apply Forall_app; split); auto; [apply Forall_take, (wf_bytes P HP)|apply Forall_drop; done].
  - rewrite len_app, Hp22. lia.
Qed.

Lemma any_push_res fuel a t P' err : any_ok a -> dns_any_push fuel P a t = Val (P', err) -> rdata_res P P' err.
Proof.
  intros Ha. unfold dns_any_push.
  destruct (t =? DNS_T_A); [destruct a; try done; intros; by eapply is_res, a_push_is|].
  destruct (t =? DNS_T_AAAA); [destruct a; try done; destruct Ha; intros; by eapply is_res, aaaa_push_is|].
  destruct (t =? DNS_T_MX); [destruct a; try done; by apply mx_push_res|].
  destruct (_ || _); [destruct a; try done; by apply ns_push_res|].
  destruct (t =? DNS_T_SOA); [destruct a; try done; destruct Ha; by apply soa_push_res|].
  destruct (t =? DNS_T_SRV); [destruct a; try done; by apply srv_push_res|].
  destruct (_ || _); [destruct a; try done; intros; by eapply is_res, txt_push_is|].
  destruct (t =? DNS_T_SSHFP); [destruct a; try done; destruct Ha; intros; by eapply is_res, sshfp_push_is|].
  destruct a; try done. destruct (Z.ltb_spec (room P) (len data + 2)); [intros [= <- <-]; by apply nil_res, appends_refl|].
  destruct (block_res (two (len data) ++ data) data) as (P1 & Hp & Hr); [done|done| |].
  { rewrite len_app. change (len (two (len data))) with 2. lia. }
  rewrite Hp. intros [= <- <-]. by eapply is_res.
Qed.
End RdataPush.
