(* ===== verification/DnsPacket.v ===== *)
(** libdns: building packets and iterating over their records (dns.c:
    [dns_p_push], [dns_rr_copy], [dns_rr_cmp], the iterators [dns_rr_i_*],
    [dns_rr_grep], [dns_d_cname], [dns_p_merge]) and the shuffle of record sets. *)

From stdpp Require Import prelude strings.
From Stdlib Require Import ZArith Lia.
From S2P Require Import Prelude DnsBase DnsName DnsRr DnsRdata.
Local Open Scope Z_scope.

(** ** dns_k_shuffle16 *)
Definition sbox : list Z :=
  [99; 124; 119; 123; 242; 107; 111; 197; 48; 1; 103; 43; 254; 215; 171; 118;
   202; 130; 201; 125; 250; 89; 71; 240; 173; 212; 162; 175; 156; 164; 114; 192;
   183; 253; 147; 38; 54; 63; 247; 204; 52; 165; 229; 241; 113; 216; 49; 21;
   4; 199; 35; 195; 24; 150; 5; 154; 7; 18; 128; 226; 235; 39; 178; 117;
   9; 131; 44; 26; 27; 110; 90; 160; 82; 59; 214; 179; 41; 227; 47; 132;
   83; 209; 0; 237; 32; 252; 177; 91; 106; 203; 190; 57; 74; 76; 88; 207;
   208; 239; 170; 251; 67; 77; 51; 133; 69; 249; 2; 127; 80; 60; 159; 168;
   81; 163; 64; 143; 146; 157; 56; 245; 188; 182; 218; 33; 16; 255; 243; 210;
   205; 12; 19; 236; 95; 151; 68; 23; 196; 167; 126; 61; 100; 93; 25; 115;
   96; 129; 79; 220; 34; 42; 144; 136; 70; 238; 184; 20; 222; 94; 11; 219;
   224; 50; 58; 10; 73; 6; 36; 92; 194; 211; 172; 98; 145; 149; 228; 121;
   231; 200; 55; 109; 141; 213; 78; 169; 108; 86; 244; 234; 101; 122; 174; 8;
   186; 120; 37; 46; 28; 166; 180; 198; 232; 221; 116; 31; 75; 189; 139; 138;
   112; 62; 181; 102; 72; 3; 246; 14; 97; 53; 87; 185; 134; 193; 29; 158;
   225; 248; 152; 17; 105; 217; 142; 148; 155; 30; 135; 233; 206; 85; 40; 223;
   140; 161; 137; 13; 191; 230; 66; 104; 65; 153; 45; 15; 176; 84; 187; 22].

Fixpoint shuffle_loop (n : nat) (a b s : Z) : Z * Z :=
  match n with
  | O => (a, b)
  | S n' =>
      let a := Z.lxor a (Z.land 255 s) in
      let a := Z.lxor (nthz sbox a) b in
      let b := Z.lxor (nthz sbox b) a in
      shuffle_loop n' a b (Z.shiftr s 8)
  end.

Definition dns_k_shuffle16 (n s : Z) : Z :=
  let '(a, b) := shuffle_loop 4 (Z.land 255 (Z.shiftr n 0)) (Z.land 255 (Z.shiftr n 8)) s in
  Z.lor (Z.land 65280 (Z.shiftl a 8)) (Z.land 255 (Z.shiftl b 0)).

Section Packet.
(** Iterations allowed to the name routines. *)
Context (fuel : nat).

(** ** dns_p_push *)

(** Increment the count of a section in the header ([htons (ntohs (c) + 1)]). *)
Definition bump (P : packet) (i : Z) : out packet :=
  c ← rd16 P i; d ← wrn (p_data P) i (two (c + 1)); Val (set_data P d).

(** The [update:] part: [P] holds the new record, [start] is the end to restore. *)
Definition p_update (P : packet) (start section : Z) : out pushed_res :=
  let studied (m : packet -> memo) P := if m_base (m P) =? 0 then dns_p_study P else Val P in
  let e := w16 (p_end P) in
  if section =? DNS_S_QD then
    c ← dns_p_count P (Z.lor DNS_S_AN (Z.lor DNS_S_NS DNS_S_AR));
    if negb (c =? 0) then fail (set_end P start) DNS_EORDER
    else
      P ← studied p_qd P; P ← bump P 4;
      ok (set_memos P (Memo (m_base (p_qd P)) e) (Memo e e) (Memo e e) (Memo e e))
  else if section =? DNS_S_AN then
    c ← dns_p_count P (Z.lor DNS_S_NS DNS_S_AR);
    if negb (c =? 0) then fail (set_end P start) DNS_EORDER
    else
      P ← studied p_an P; P ← bump P 6;
      ok (set_memos P (p_qd P) (Memo (m_base (p_an P)) e) (Memo e e) (Memo e e))
  else if section =? DNS_S_NS then
    c ← dns_p_count P DNS_S_AR;
    if negb (c =? 0) then fail (set_end P start) DNS_EORDER
    else
      P ← studied p_ns P; P ← bump P 8;
      ok (set_memos P (p_qd P) (p_an P) (Memo (m_base (p_ns P)) e) (Memo e e))
  else if section =? DNS_S_AR then
    P ← studied p_ar P; P ← bump P 10;
    ok (set_memos P (p_qd P) (p_an P) (p_ns P) (Memo (m_base (p_ar P)) e))
  else fail (set_end P start) DNS_ESECTION.

Definition dns_p_push (P : packet) (section : Z) (dn : list Z) (type class ttl : Z) (a : any) : out pushed_res :=
  let start := p_end P in
  '(P1, err) ← dns_d_push fuel P dn;
  match err with
  | Some e => fail (set_end P1 start) e
  | None =>
      if room P1 <? 4 then fail (set_end P1 start) DNS_ENOBUFS
      else
        P2 ← put_bytes P1 (two type ++ two class);
        if section =? DNS_S_QD then p_update P2 start section
        else if room P2 <? 6 then fail (set_end P2 start) DNS_ENOBUFS
        else
          P3 ← put_bytes P2 (Z.land 127 (Z.shiftr ttl 24) :: drop 1 (four ttl));
          '(P4, err) ← dns_any_push fuel P3 a type;
          match err with
          | Some e => fail (set_end P4 start) e
          | None => p_update P4 start section
          end
  end.

(** [txt->size] of a [union dns_any] set up by [dns_any_init], and that of one
    that was not. *)
Definition ANY_CAP : Z := 1024.
Context (junk : Z).

Definition dns_rr_copy (P : packet) (r : rr) (Q : packet) : out pushed_res :=
  t ← dns_d_expand fuel (rr_dn_p r) Q;
  match t with
  | inl e => fail P e
  | inr dn =>
      if DNS_D_MAXNAME + 1 <=? len dn then fail P DNS_EILLEGAL
      else if rr_section r =? DNS_S_QD
      then dns_p_push P (rr_section r) dn (rr_type r) (rr_class r) (rr_ttl r) (AnyTXT [])
      else
        a ← dns_any_parse fuel ANY_CAP r Q;
        match a with
        | inl e => fail P e
        | inr a => dns_p_push P (rr_section r) dn (rr_type r) (rr_class r) (rr_ttl r) a
        end
  end.

Definition dns_rr_cmp (r0 : rr) (P0 : packet) (r1 : rr) (P1 : packet) : out Z :=
  if negb (rr_type r0 - rr_type r1 =? 0) then Val (rr_type r0 - rr_type r1)
  else if negb (rr_class r0 - rr_class r1 =? 0) then Val (rr_class r0 - rr_class r1)
  else
    h0 ← expand_host fuel (rr_dn_p r0) P0;
    match h0 with
    | inl _ => Val (-1)
    | inr h0 =>
        h1 ← expand_host fuel (rr_dn_p r1) P1;
        match h1 with
        | inl _ => Val 1
        | inr h1 =>
            let cmp := strcasecmp h0 h1 in
            if negb (cmp =? 0) then Val cmp
            else if negb (Z.land DNS_S_QD (Z.lor (rr_section r0) (rr_section r1)) =? 0) then
              if rr_section r0 =? rr_section r1 then Val 0
              else Val (if rr_section r0 =? DNS_S_QD then -1 else 1)
            else
              a0 ← dns_any_parse fuel junk r0 P0;
              match a0 with
              | inl _ => Val (-1)
              | inr a0 =>
                  a1 ← dns_any_parse fuel junk r1 P1;
                  match a1 with
                  | inl _ => Val 1
                  | inr a1 => dns_any_cmp a0 (rr_type r0) a1 (rr_type r1)
                  end
              end
        end
    end.

(** ** Iterators *)
(** [i->sort]; another function is [SortBy], on the records, the seed [regs[0]] and
    the packet. *)
Inductive sort_fn := SortNone | SortPacket | SortOrder | SortShuffle | SortBy (f : rr -> rr -> Z -> packet -> out Z).

(** struct dns_rr_i: what to look for, and the state. *)
Record rr_i := RrI {
  i_section : Z; i_name : option (list Z); i_type : Z; i_class : Z; i_data : option any;
  i_sort : sort_fn;
  st_next : Z; st_count : Z; st_exec : Z; st_reg0 : Z }.
Definition set_sort (i : rr_i) s := RrI (i_section i) (i_name i) (i_type i) (i_class i) (i_data i) s
  (st_next i) (st_count i) (st_exec i) (st_reg0 i).
Definition set_state (i : rr_i) n c x r := RrI (i_section i) (i_name i) (i_type i) (i_class i) (i_data i)
  (i_sort i) n c x r.

Definition dns_rr_i_match (r : rr) (i : rr_i) (P : packet) : out bool :=
  if negb (i_section i =? 0) && (Z.land (rr_section r) (i_section i) =? 0) then Val false
  else if negb (i_type i =? 0) && negb (rr_type r =? i_type i) && negb (i_type i =? DNS_T_ALL) then Val false
  else if negb (i_class i =? 0) && negb (rr_class r =? i_class i) && negb (i_class i =? DNS_C_ANY) then Val false
  else
    named ← (match i_name i with
             | None => Val true
             | Some name =>
                 h ← expand_host fuel (rr_dn_p r) P;
                 match h with inl _ => Val false | inr h => Val (strcasecmp h name =? 0) end
             end);
    if negb named then Val false
    else
      match i_data i with
      | Some d =>
          if negb (i_type i =? 0) && (DNS_S_QD <? rr_section r) then
            a ← dns_any_parse fuel junk r P;
            match a with
            | inl _ => Val false
            | inr a => c ← dns_any_cmp a (rr_type r) d (i_type i); Val (c =? 0)
            end
          else Val true
      | None => Val true
      end.

(** The sort functions. *)
Definition dns_rr_i_packet (a b : rr) : Z := rr_dn_p a - rr_dn_p b.

Definition dns_rr_i_order (a b : rr) (P : packet) : out Z :=
  if negb (rr_section a - rr_section b =? 0) then Val (rr_section a - rr_section b)
  else if negb (rr_type a =? rr_type b) then Val (rr_dn_p a - rr_dn_p b)
  else dns_rr_cmp a P b P.

Definition dns_rr_i_shuffle (a b : rr) (seed : Z) : Z :=
  if negb (rr_section a - rr_section b =? 0) then rr_section a - rr_section b
  else dns_k_shuffle16 (rr_dn_p a) seed - dns_k_shuffle16 (rr_dn_p b) seed.

Definition sort (i : rr_i) (a b : rr) (P : packet) : out Z :=
  match i_sort i with
  | SortNone | SortPacket => Val (dns_rr_i_packet a b)
  | SortOrder => dns_rr_i_order a b P
  | SortShuffle => Val (dns_rr_i_shuffle a b (st_reg0 i))
  | SortBy f => f a b (st_reg0 i) P
  end.

(** The record at [rp], if it can be parsed and matches. *)
Definition rr_at (rp : Z) (P : packet) : out (dns_error + rr) :=
  r ← dns_rr_parse 0 rp P;
  match r with
  | inl e => Val (inl e)
  | inr r => s ← dns_rr_section rp P; Val (inr (set_section r s))
  end.

Definition candidate (i : rr_i) (rp : Z) (P : packet) : out (option rr) :=
  r ← rr_at rp P;
  match r with
  | inl _ => Val None
  | inr r => m ← dns_rr_i_match r i P; Val (if (m : bool) then Some r else None)
  end.

(** A candidate that does not come after [r0] is passed over. *)
Definition after_r0 (i : rr_i) (r0 : option rr) (c : option rr) (P : packet) : out (option rr) :=
  match c, r0 with
  | Some r, Some r1 => s ← sort i r r1 P; Val (if Z.leb s 0 then None else Some r)
  | _, _ => Val c
  end.

(** The first record from [rp] on that matches and, if [r0] is given, comes
    after it in the order of the iterator. *)
Fixpoint find_from (n : nat) (i : rr_i) (r0 : option rr) (rp : Z) (P : packet) : out (option (Z * rr)) :=
  match n with
  | O => Loop
  | S n' =>
      if rp <? p_end P then
        c ← candidate i rp P;
        c ← after_r0 i r0 c P;
        match c with
        | Some r => Val (Some (rp, r))
        | None => rp' ← dns_rr_skip rp P; find_from n' i r0 rp' P
        end
      else Val None
  end.

(** The least record after [rp] that matches, comes after [r0] and before the
    best one so far. *)
Fixpoint find_least (n : nat) (i : rr_i) (r0 : option rr) (best : rr) (rp : Z) (P : packet) : out rr :=
  match n with
  | O => Loop
  | S n' =>
      rp ← dns_rr_skip rp P;
      if rp <? p_end P then
        c ← candidate i rp P;
        c ← after_r0 i r0 c P;
        match c with
        | Some r => s ← sort i r best P; find_least n' i r0 (if s <? 0 then r else best) rp P
        | None => find_least n' i r0 best rp P
        end
      else Val best
  end.

Definition steps (P : packet) : nat := S (Z.to_nat (p_end P)).
Definition by_packet (i : rr_i) : bool := match i_sort i with SortPacket => true | _ => false end.

(** [dns_rr_i_start]: the section memos are looked up but the scan starts at 12
    all the same. *)
Definition dns_rr_i_start (i : rr_i) (P : packet) : out Z :=
  f ← find_from (steps P) i None 12 P;
  match f with
  | None => Val (w16 (p_end P))
  | Some (rp, r0) =>
      if by_packet i then Val (rr_dn_p r0)
      else r ← find_least (steps P) i None r0 rp P; Val (rr_dn_p r)
  end.

Definition dns_rr_i_skip (rp : Z) (i : rr_i) (P : packet) : out Z :=
  r0 ← rr_at rp P;
  match r0 with
  | inl _ => Val (w16 (p_end P))
  | inr r0 =>
      rp ← (if by_packet i then dns_rr_skip rp P else Val 12);
      f ← find_from (steps P) i (Some r0) rp P;
      match f with
      | None => Val (w16 (p_end P))
      | Some (rp, r1) =>
          if by_packet i then Val (rr_dn_p r1)
          else r ← find_least (steps P) i (Some r0) r1 rp P; Val (rr_dn_p r)
      end
  end.

Definition dns_rr_i_init (i : rr_i) : rr_i := set_state i 0 0 0 0.

(** [dns_rr_grep]: at most [lim] records, and the iterator. [rnd] is the first
    number other than 0 that [dns_random] returns: the seed of a shuffle. *)
Context (rnd : Z).

Fixpoint grep_loop (lim : nat) (i : rr_i) (P : packet) : out (list rr * rr_i * option dns_error) :=
  match lim with
  | O => Val ([], i, None)
  | S lim' =>
      if st_next i <? p_end P then
        r ← rr_at (st_next i) P;
        match r with
        | inl e => Val ([], i, Some e)
        | inr r =>
            next ← dns_rr_i_skip (st_next i) i P;
            let i' := set_state i next (w16 (st_count i + 1)) (st_exec i) (st_reg0 i) in
            '(rs, i'', e) ← grep_loop lim' i' P;
            Val (r :: rs, i'', e)
        end
      else Val ([], i, None)
  end.

Definition dns_rr_grep (lim : nat) (i : rr_i) (P : packet) : out (list rr * rr_i * option dns_error) :=
  if st_exec i =? 0 then
    let i := match i_sort i with SortNone => set_sort i SortPacket | _ => i end in
    let i := if st_reg0 i =? 0 then set_state i (st_next i) (st_count i) (st_exec i) rnd else i in
    next ← dns_rr_i_start i P;
    grep_loop lim (set_state i next (st_count i) 1 (st_reg0 i)) P
  else if st_exec i =? 1 then grep_loop lim i P
  else Val ([], i, None).

(** [dns_rr_foreach]: one record at a time until there is none. *)
Fixpoint foreach (n : nat) (i : rr_i) (P : packet) : out (list rr) :=
  match n with
  | O => Loop
  | S n' =>
      '(rs, i', _) ← dns_rr_grep 1 i P;
      match rs with
      | [] => Val []
      | r :: _ => rest ← foreach n' i' P; Val (r :: rest)
      end
  end.

(** [dns_d_cname]: follow at most seven CNAME records of the packet. *)
Fixpoint cname_loop (depth : nat) (host : list Z) (P : packet) : out (dns_error + list Z) :=
  match depth with
  | O => Val (inr (cstr host))
  | S depth' =>
      let i := dns_rr_i_init (RrI (Z.land DNS_S_ALL (Z.lnot DNS_S_QD)) (Some host) DNS_T_CNAME 0 None SortNone 0 0 0 0) in
      '(rs, _, _) ← dns_rr_grep 1 i P;
      match rs with
      | [] => Val (inr (cstr host))
      | r :: _ =>
          a ← dns_ns_parse fuel r P;
          match a with
          | inl e => Val (inl e)
          | inr (AnyNS h) => cname_loop depth' h P
          | inr _ => UB
          end
      end
  end.

Definition dns_d_cname (dn : list Z) (P : packet) : out (dns_error + list Z) :=
  let host := dns_d_anchor dn in
  if DNS_D_MAXNAME + 1 <=? len host then Val (inl DNS_ENAMETOOLONG)
  else cname_loop 7 host P.

(** ** dns_p_merge *)
Definition sections : list Z := [DNS_S_QD; DNS_S_AN; DNS_S_NS; DNS_S_AR].
Definition of_section (s : Z) : rr_i := RrI s None 0 0 None SortNone 0 0 0 0.
Definition of_type (t : Z) : rr_i := RrI DNS_S_ALL None t 0 None SortNone 0 0 0 0.

Fixpoint copy_all (M : packet) (rs : list rr) (A : packet) : out pushed_res :=
  match rs with
  | [] => ok M
  | r :: rs' =>
      '(M', e) ← dns_rr_copy M r A;
      match e with None => copy_all M' rs' A | Some e => fail M' e end
  end.

(** Is a record equal to [r] among [ms]? *)
Fixpoint known (r : rr) (B : packet) (ms : list rr) (M : packet) : out bool :=
  match ms with
  | [] => Val false
  | m :: ms' => c ← dns_rr_cmp r B m M; if c =? 0 then Val true else known r B ms' M
  end.

Fixpoint copy_new (M : packet) (rs : list rr) (B : packet) : out pushed_res :=
  match rs with
  | [] => ok M
  | r :: rs' =>
      ms ← foreach (steps M) (of_type (rr_type r)) M;
      k ← known r B ms M;
      if (k : bool) then copy_new M rs' B
      else
        '(M', e) ← dns_rr_copy M r B;
        match e with None => copy_new M' rs' B | Some e => fail M' e end
  end.

Definition merge_one (M : packet) (s : Z) (AB : option (packet * Z)) (new : bool) : out pushed_res :=
  match AB with
  | Some (A, mask) =>
      if Z.land s mask =? 0 then ok M
      else
        rs ← foreach (steps A) (of_section s) A;
        if new then copy_new M rs A else copy_all M rs A
  | None => ok M
  end.

Fixpoint merge_sections (M : packet) (ss : list Z) (A B : option (packet * Z)) : out pushed_res :=
  match ss with
  | [] => ok M
  | s :: ss' =>
      '(M1, e) ← merge_one M s A false;
      match e with
      | Some e => fail M1 e
      | None =>
          '(M2, e) ← merge_one M1 s B true;
          match e with Some e => fail M2 e | None => merge_sections M2 ss' A B end
      end
  end.

(** The buffer is doubled until the result fits or 65535 is reached. *)
Fixpoint merge_loop (n : nat) (malloc : Z -> option (list Z)) (bufsiz : Z) (A B : option (packet * Z)) :
    out (dns_error + packet) :=
  match n with
  | O => Loop
  | S n' =>
      match dns_p_make malloc bufsiz with
      | None => Val (inl DNS_ESYSTEM)
      | Some M =>
          '(M', e) ← merge_sections M sections A B;
          match e with
          | None => Val (inr M')
          | Some e =>
              if bool_decide (e = DNS_ENOBUFS) && (bufsiz <? 65535)
              then merge_loop n' malloc (Z.min 65535 (bufsiz * 2)) A B
              else Val (inl e)
          end
      end
  end.

Definition dns_p_merge (malloc : Z -> option (list Z)) (A B : option (packet * Z)) : out (dns_error + packet) :=
  let end_of X := match X with Some (P, _) => p_end P | None => 0 end in
  let bufsiz := Z.min 65535 (end_of A + end_of B) in
  let '(A, B) := match A, B with None, Some _ => (B, None) | _, _ => (A, B) end in
  merge_loop 17 malloc bufsiz A B.
End Packet.
