(* ===== verification/DnsPacketSpec.v ===== *)
(** Building packets: [dns_p_push] keeps the header counts, the section memos and
    the bytes of a packet in agreement. *)

From stdpp Require Import prelude.
From Stdlib Require Import ZArith Lia.
From S2P Require Import Prelude DnsBase DnsName DnsNameSpec DnsNamePush DnsRr DnsRrSpec DnsRdata DnsLayout DnsPush DnsPacket.
Local Open Scope Z_scope.

(** ** The owner name *)

(** The length of an encoding does not depend on the buffer. *)
Lemma comp_loop_same src : forall d1 d2 l1 l2 dp dx n e1 e2 r1 r2,
  comp_loop src d1 l1 dp dx n = Val (e1, r1) -> comp_loop src d2 l2 dp dx n = Val (e2, r2) -> r1 = r2.
Proof.
  induction src as [|ch src IH]; intros d1 d2 l1 l2 dp dx n e1 e2 r1 r2; cbn [comp_loop].
  - destruct (0 <? n); [|congruence]. intros (? & _ & [= _ <-])%bind_Val (? & _ & [= _ <-])%bind_Val. done.
  - destruct (ch =? dot); intros (? & _ & H1)%bind_Val (? & _ & H2)%bind_Val; eapply IH; done.
Qed.

Lemma comp_encode_len ls dst lim d' r : Forall label_ok ls -> ls <> [] ->
  comp_encode (text ls) dst lim = Val (d', r) -> r = len (wire ls).
Proof.
  intros Hok Hne Hc. pose proof (comp_encode_text ls (wire ls) Hok Hne ltac:(lia)) as Hw.
  unfold comp_encode in *. apply bind_Val in Hc as ([d1 r1] & H1 & Hc). apply bind_Val in Hw as ([d2 r2] & H2 & Hw).
  pose proof (comp_loop_same _ _ _ _ _ _ _ _ _ _ _ _ H1 H2) as <-. destruct (1 <? r1).
  - apply bind_Val in Hc as (? & _ & [= _ <-]). apply bind_Val in Hw as (? & _ & [= _ <-]). done.
  - injection Hc as _ <-. injection Hw as _ <-. done.
Qed.

Lemma wires_app l1 l2 : wires (l1 ++ l2) = wires l1 ++ wires l2.
Proof. unfold wires. by rewrite fmap_app, concat_app. Qed.

Lemma l_expand_at d lim p n : 0 <= p -> nthz d p = n -> 0 <= n < 64 -> p + 1 + n <= lim -> lim <= len d -> lim < 2 ^ 16 ->
  dns_l_expand p d lim = Val (slice d (p + 1) n, p + 1 + n).
Proof.
  intros Hp Hn Hn64 Hle Hl Hs. unfold dns_l_expand. cbn [l_expand].
  destruct (Z.leb_spec lim p); [lia|]. rewrite (rd_in d p) by lia. cbn [mbind out_bind]. rewrite Hn.
  destruct (tag_small n Hn64) as [-> ->]. change (0 =? 0) with true. cbn match.
  rewrite (w16_id (p + 1)), sub64_id by lia. destruct (Z.ltb_spec (lim - (p + 1)) n); [lia|].
  rewrite rdn_in by lia. cbn [mbind out_bind]. by rewrite w16_id by lia.
Qed.

(** The first byte of a suffix of an encoded name. *)
Lemma wire_suffix l1 l ls rest : Forall label_ok (l1 ++ l :: ls) ->
  let d := wire (l1 ++ l :: ls) ++ rest in
  nthz d (len (wires l1)) = len l /\ len (wires l1) + 1 + len l < len d /\
  len (wires (l1 ++ [l])) = len (wires l1) + 1 + len l.
Proof.
  intros Hok d. unfold d, wire. rewrite wires_app. pose proof (len_nonneg rest). pose proof (len_nonneg (wires ls)).
  assert (wires (l :: ls) = len l :: l ++ wires ls) as Hw by (unfold wires; cbn; done). rewrite Hw. split_and!.
  - rewrite <- !app_assoc. rewrite nthz_app_r by lia. by rewrite Z.sub_diag.
  - autorewrite with len. lia.
  - rewrite wires_app. unfold wires at 2. cbn. unfold wire1. rewrite app_nil_r. autorewrite with len. lia.
Qed.

Lemma comp_labels_shape ls rest lim P : Forall label_ok ls -> lim = len (wire ls ++ rest) -> lim < 2 ^ 16 ->
  forall fuel l1 l2 ap bp, ls = l1 ++ l2 -> comp_labels fuel (len (wires l1)) (wire ls ++ rest) lim P = Val (Some (ap, bp)) ->
  exists l3 l4, ls = l3 ++ l4 /\ l4 <> [] /\ ap = len (wires l3).
Proof.
  intros Hok Hlim Hs. induction fuel as [|fuel IH]; intros l1 l2 ap bp Hls; cbn [comp_labels]; [done|].
  pose proof (len_nonneg (wires l1)). destruct l2 as [|l l2].
  - rewrite app_nil_r in Hls. subst l1. pose proof (len_nonneg rest). unfold wire in *. autorewrite with len in Hlim.
    rewrite (l_expand_at _ _ _ 0); [done|lia| |lia|lia|autorewrite with len; lia|lia].
    rewrite <- app_assoc, nthz_app_r by lia. by rewrite Z.sub_diag.
  - destruct (wire_suffix l1 l l2 rest) as (Hn & Hlt & Hlen); [by rewrite <- Hls|]. rewrite <- Hls in Hn, Hlt.
    assert (0 < len l < 64) as Hl64.
    { rewrite Hls in Hok. apply Forall_app in Hok as [_ Hok]. by inversion Hok as [|? ? [? _] _]; subst. }
    rewrite (l_expand_at _ _ _ (len l)) by (done || lia). cbn [mbind out_bind].
    destruct (len (slice _ _ _) =? 0); [done|]. intros (r & _ & Hx)%bind_Val. destruct r as [b|].
    + injection Hx as <- _. by exists l1, (l :: l2).
    + rewrite <- Hlen in Hx. eapply (IH (l1 ++ [l]) l2); [by rewrite <- app_assoc|done].
Qed.

(** A run of labels followed by a name that has an extent. *)
Lemma extent_prefix ls : forall d e pre post q q',
  Forall label_ok ls -> d = pre ++ wires ls ++ post -> q = len pre + len (wires ls) -> extent d e q q' ->
  extent d e (len pre) q'.
Proof.
  induction ls as [|l ls IH]; intros d e pre post q q' Hok Hd Hq Hx.
  { cbn in Hq. unfold wires in Hq. cbn in Hq. autorewrite with len in Hq. by replace (len pre) with q by lia. }
  inversion Hok as [|? ? Hl Hls]; subst. assert (wires (l :: ls) = len l :: l ++ wires ls) as Hw by done.
  rewrite Hw in *. autorewrite with len in *. pose proof (extent_bounds _ _ _ _ Hx). pose proof (len_nonneg pre).
  pose proof (len_nonneg (wires ls)). destruct Hl as [Hl _]. set (D := pre ++ (len l :: l ++ wires ls) ++ post) in *.
  assert (nthz D (len pre) = len l) as Hn by (unfold D; rewrite nthz_app_r by lia; by rewrite Z.sub_diag).
  destruct (tag_small (len l) ltac:(lia)) as [Ht Hlo].
  apply ex_label; rewrite ?Hn, ?Ht, ?Hlo; try lia.
  replace (len pre + 1 + len l) with (len (pre ++ len l :: l)) by (autorewrite with len; lia).
  eapply (IH D e (pre ++ len l :: l) post _ q' Hls); [|reflexivity|].
  - unfold D. rewrite <- !app_assoc. cbn. by rewrite <- app_assoc.
  - autorewrite with len. by replace (len pre + (1 + len l) + len (wires ls)) with (len pre + (1 + (len l + len (wires ls)))) by lia.
Qed.

Lemma d_comp_shape fuel post ls P dst n : Forall label_ok ls -> ls <> [] -> len post < 2 ^ 16 ->
  dns_d_comp fuel post (len post) (text ls) P = Val (dst, n) -> n <= len post ->
  exists l3 t, take (Z.to_nat n) dst = wires l3 ++ t /\ Forall label_ok l3 /\ len (take (Z.to_nat n) dst) = n /\
    (t = [0] \/ exists b0 b1, t = [b0; b1] /\ 192 <= b0 < 256).
Proof.
  intros Hok Hne Hs. unfold dns_d_comp. intros ([d1 r1] & He & Hc)%bind_Val Hn.
  pose proof (comp_encode_len _ _ _ _ _ Hok Hne He) as ->.
  assert (len (wire ls) <= len post -> d1 = wire ls ++ drop (length (wire ls)) post) as Hd1.
  { intros Hle. rewrite (comp_encode_text ls post Hok Hne Hle) in He. by injection He as <-. }
  assert (len (wire ls) <= len post -> take (Z.to_nat (len (wire ls))) d1 = wires ls ++ [0]) as Htk.
  { intros Hle. rewrite Hd1 by done. rewrite take_app_length' by (unfold len; lia). done. }
  destruct (Z.ltb_spec (len (wire ls)) (len post)).
  2: { injection Hc as <- <-. rewrite Htk by lia. exists ls, [0]. split_and!; auto. }
  apply bind_Val in Hc as ([[ap bp]|] & Hlab & Hc).
  2: { injection Hc as <- <-. rewrite Htk by lia. exists ls, [0]. split_and!; auto. }
  rewrite Hd1 in Hlab, Hc by lia. set (rest := drop (length (wire ls)) post) in *.
  assert (len post = len (wire ls ++ rest)) as Hlp.
  { unfold rest, len in *. rewrite length_app, length_drop. lia. }
  rewrite Hlp in Hlab. destruct (comp_labels_shape ls rest _ P Hok eq_refl ltac:(lia) fuel [] ls ap bp eq_refl Hlab)
    as (l3 & l4 & Hls & Hl4 & ->).
  assert (Forall label_ok l3 /\ Forall label_ok l4) as [Hok3 Hok4] by (rewrite Hls in Hok; by apply Forall_app in Hok).
  pose proof (len_wires_pos l4 Hl4 Hok4) as H4. destruct (wires l4) as [|x [|y w4]] eqn:Ew4; autorewrite with len in H4; [lia|lia|].
  assert (wire ls ++ rest = wires l3 ++ x :: y :: (w4 ++ [0] ++ rest)) as Hsplit.
  { unfold wire. rewrite Hls, wires_app, Ew4, <- !app_assoc. done. }
  rewrite Hsplit in Hc. apply bind_Val in Hc as (d2 & H2 & Hc). rewrite wr_mid in H2. injection H2 as <-.
  apply bind_Val in Hc as (d3 & H3 & [= <- <-]).
  set (b0 := Z.lor 192 (Z.land 63 (Z.shiftr bp 8))) in *. set (b1 := Z.land 255 (Z.shiftr bp 0)) in *.
  pose proof (wr_mid (wires l3 ++ [b0]) y (w4 ++ [0] ++ rest) b1) as Hw. rewrite <- !app_assoc in Hw. cbn [app] in Hw, H3.
  rewrite len_app in Hw. change (len [b0]) with 1 in Hw. rewrite Hw in H3. injection H3 as <-. exists l3, [b0; b1].
  replace (wires l3 ++ b0 :: b1 :: w4 ++ 0 :: rest) with ((wires l3 ++ [b0; b1]) ++ (w4 ++ 0 :: rest)) by (by rewrite <- !app_assoc).
  rewrite take_app_length' by (unfold len; rewrite length_app; cbn [length]; lia). split_and!; [done|done|autorewrite with len; lia|].
  right. exists b0, b1. split; [done|]. pose proof (low6_range (Z.shiftr bp 8)) as Hr. unfold low6 in Hr.
  unfold b0. rewrite lor_192 by done. lia.
Qed.

Lemma d_push_extent fuel P P' ls src : wf P -> p_size P < 2 ^ 16 -> Forall label_ok ls -> Forall (Forall byte) ls -> ls <> [] ->
  dns_d_anchor src = text ls -> Forall byte src -> dns_d_push fuel P src = Val (P', None) ->
  exists bs, appends P P' bs /\ extent (p_data P') (p_end P') (p_end P) (p_end P').
Proof.
  intros HP Hsz Hok Hb Hne Hsrc Hbs Hpush. pose proof (wf_len P HP). pose proof (wf_end P HP).
  pose proof Hpush as Hinv. apply d_push_inv in Hinv as (bs & Ha & Hpos); [|done|done].
  exists bs. split; [done|]. revert Hpush. unfold dns_d_push. rewrite sub64_id by (pose proof (wf_size P HP); lia).
  set (post := drop (Z.to_nat (p_end P)) (p_data P)).
  assert (p_size P - p_end P = len post) as Hpost by (unfold post, len in *; rewrite length_drop; lia). rewrite Hpost.
  intros ([dst n] & Hc & Hx)%bind_Val. destruct (Z.eqb_spec n 0); [done|]. destruct (Z.ltb_spec (len post) n); [done|].
  apply bind_Val in Hx as (P2 & Hadd & [= <-]). apply dictadd_framed in Hadd as (dict & -> & _). cbn [set_dict p_data p_end set_end set_data].
  assert (src <> []) as Hsrc0.
  { intros ->. cbn in Hsrc. destruct ls as [|l ls]; [done|]. unfold text in Hsrc. cbn in Hsrc. by destruct l. }
  assert (dns_d_comp fuel post (len post) (text ls) P = Val (dst, n)) as Hc'.
  { rewrite <- Hc. unfold dns_d_comp. by rewrite <- Hsrc, comp_encode_anchor. }
  destruct (d_comp_shape fuel post ls P dst n Hok Hne ltac:(lia) Hc' ltac:(lia)) as (l3 & t & Htk & Hok3 & Hlen & Ht).
  pose proof (len_take_end P HP) as Hpre. set (pre := take (Z.to_nat (p_end P)) (p_data P)) in *.
  rewrite <- (take_drop (Z.to_nat n) dst), Htk. rewrite Htk in Hlen. rewrite len_app in Hlen.
  rewrite <- Hpre at 2. pose proof (len_nonneg (wires l3)).
  eapply (extent_prefix l3 _ _ pre (t ++ drop (Z.to_nat n) dst)); [done|by rewrite <- app_assoc|reflexivity|].
  assert (forall i, 0 <= i < len t -> nthz (pre ++ (wires l3 ++ t) ++ drop (Z.to_nat n) dst) (len pre + len (wires l3) + i) = nthz t i) as Hn.
  { intros i Hi. rewrite nthz_app_r by lia. rewrite <- app_assoc, nthz_app_r by lia.
    replace (len pre + len (wires l3) + i - len pre - len (wires l3)) with i by lia. by rewrite nthz_app_l. }
  destruct Ht as [->|(b0 & b1 & -> & Hb0)].
  - specialize (Hn 0 ltac:(done)). rewrite Z.add_0_r in Hn. change (len [0]) with 1 in Hlen.
    replace (p_end P + n) with (len pre + len (wires l3) + 1) by lia.
    apply ex_root; [lia|by rewrite Hn|by rewrite Hn].
  - specialize (Hn 0 ltac:(done)). rewrite Z.add_0_r in Hn. change (len [b0; b1]) with 2 in Hlen.
    replace (p_end P + n) with (len pre + len (wires l3) + 2) by lia.
    apply ex_ptr; [lia|lia|]. rewrite Hn. change (nthz [b0; b1] 0) with b0. rewrite tag_div by (unfold byte; lia).
    symmetry. apply (Z.div_unique _ _ _ (b0 - 192)); lia.
Qed.

(** ** Counts, memos and sections *)

(** The memos either were never set or describe the sections. *)
Definition memos_ok (P : packet) (a b c f : Z) : Prop :=
  (m_base (p_qd P) = 0 /\ m_base (p_an P) = 0 /\ m_base (p_ns P) = 0 /\ m_base (p_ar P) = 0) \/
  (p_qd P = Memo 12 a /\ p_an P = Memo a b /\ p_ns P = Memo b c /\ p_ar P = Memo c f).

(** A packet whose counts, memos and bytes agree: the four sections fill it. *)
Definition valid (P : packet) : Prop :=
  wf P /\ exists a b c, layout (p_data P) (p_end P) a b c (p_end P) /\ memos_ok P a b c (p_end P).

Lemma studied_ok P a b c f (m : packet -> memo) : wf P -> layout (p_data P) (p_end P) a b c f -> memos_ok P a b c f ->
  m = p_qd \/ m = p_an \/ m = p_ns \/ m = p_ar ->
  (if m_base (m P) =? 0 then dns_p_study P else Val P) = Val (set_memos P (Memo 12 a) (Memo a b) (Memo b c) (Memo c f)).
Proof.
  intros HP Hl [(H1 & H2 & H3 & H4)|(H1 & H2 & H3 & H4)] Hm.
  - assert (m_base (m P) = 0) as -> by (by destruct Hm as [->|[->|[->| ->]]]).
    cbn [Z.eqb]. by apply p_study_layout.
  - pose proof (layout_bounds _ _ _ _ _ _ Hl ltac:(pose proof (wf_end P HP); lia)).
    assert ((m_base (m P) =? 0) = false) as ->.
    { apply Z.eqb_neq. destruct Hm as [->|[->|[->| ->]]]; rewrite ?H1, ?H2, ?H3, ?H4; cbn; lia. }
    unfold set_memos. destruct P; cbn in *. by subst.
Qed.

(** Incrementing a count changes two bytes of the header. *)
Lemma bump_ok P i : wf P -> 4 <= i -> i + 2 <= 12 -> u16 (p_data P) i + 1 < 2 ^ 16 ->
  exists d, bump P i = Val (set_data P d) /\ len d = len (p_data P) /\ Forall byte d /\
    agree 12 (p_end P) (p_data P) d /\ u16 d i = u16 (p_data P) i + 1 /\
    (forall j, j + 2 <= i \/ i + 2 <= j -> 0 <= j -> u16 d j = u16 (p_data P) j).
Proof.
  intros HP Hi Hi12 Hc. pose proof (wf_bounds P HP) as [? ?]. unfold bump. rewrite (rd16_val P HP) by lia.
  cbn [mbind out_bind]. fold (u16 (p_data P) i). set (c := u16 (p_data P) i) in *.
  pose proof (u16_range P HP i) as Hcr. fold c in Hcr.
  assert (len (two (c + 1)) = 2) as H2 by done. rewrite wrn_ok by lia. cbn [mbind out_bind].
  eexists. split; [done|]. rewrite H2. pose proof (two_u16 (c + 1) ltac:(lia)) as Htwo. pose proof (Forall_two (c + 1)) as Bt.
  set (tw := two (c + 1)) in *. clearbody tw.
  assert (len (take (Z.to_nat i) (p_data P)) = i) as Hpre by (unfold len in *; rewrite length_take; lia).
  set (A := take (Z.to_nat i) (p_data P)) in *. set (T := drop (Z.to_nat (i + 2)) (p_data P)).
  assert (forall j, i + 2 <= j -> nthz (A ++ tw ++ T) j = nthz (p_data P) j) as Hhigh.
  { intros j Hj. rewrite app_assoc, nthz_app_r by (rewrite len_app; lia). rewrite len_app, Hpre, H2.
    unfold T, nthz. rewrite nth_skipn. f_equal. lia. }
  assert (forall j, 0 <= j < i -> nthz (A ++ tw ++ T) j = nthz (p_data P) j) as Hlow.
  { intros j Hj. rewrite nthz_app_l by lia. rewrite <- (take_drop (Z.to_nat i) (p_data P)) at 1. fold A. by rewrite nthz_app_l by lia. }
  split_and!.
  - rewrite !len_app, Hpre, H2. unfold T, len in *. rewrite length_drop. lia.
  - repeat (apply Forall_app; split); [apply Forall_take, (wf_bytes P HP)|done|apply Forall_drop, (wf_bytes P HP)].
  - intros j Hj. symmetry. apply Hhigh. lia.
  - assert (forall j, 0 <= j < 2 -> nthz (A ++ tw ++ T) (i + j) = nthz tw j) as Hmid.
    { intros j Hj. rewrite nthz_app_r by lia. rewrite Hpre. replace (i + j - i) with j by lia. by rewrite nthz_app_l by lia. }
    unfold u16. rewrite <- (Z.add_0_r i) at 1. rewrite !Hmid by lia. exact Htwo.
  - intros j Hj Hj0. unfold u16. destruct Hj; [rewrite !Hlow by lia|rewrite !Hhigh by lia]; done.
Qed.

Lemma cnt_zero P i : wf P -> u16 (p_data P) i = 0 -> cnt (p_data P) i = 0%nat.
Proof. intros HP Hu. unfold cnt. by rewrite Hu. Qed.

Lemma records_zero d e p q : records d e 0 p q -> q = p.
Proof. by inversion 1. Qed.

(** The number of items of a section is far below the range of its count. *)
Lemma layout_counts P a b c f : wf P -> layout (p_data P) (p_end P) a b c f ->
  u16 (p_data P) 4 + 1 < 2 ^ 16 /\ u16 (p_data P) 6 + 1 < 2 ^ 16 /\ u16 (p_data P) 8 + 1 < 2 ^ 16 /\ u16 (p_data P) 10 + 1 < 2 ^ 16.
Proof.
  intros HP Hl. pose proof (wf_bounds P HP) as [? ?]. pose proof (layout_bounds _ _ _ _ _ _ Hl ltac:(lia)).
  destruct Hl as [Hq Ha Hn Hr]. apply questions_bounds in Hq as [Hq _]. apply records_bounds in Ha as [Ha _], Hn as [Hn _], Hr as [Hr _].
  unfold cnt in *. pose proof (u16_range P HP 4). pose proof (u16_range P HP 6). pose proof (u16_range P HP 8).
  pose proof (u16_range P HP 10). lia.
Qed.

Lemma count_tail P : wf P -> dns_p_count P (Z.lor DNS_S_AN (Z.lor DNS_S_NS DNS_S_AR))
    = Val (u16 (p_data P) 6 + u16 (p_data P) 8 + u16 (p_data P) 10) /\
  dns_p_count P (Z.lor DNS_S_NS DNS_S_AR) = Val (u16 (p_data P) 8 + u16 (p_data P) 10) /\
  dns_p_count P DNS_S_AR = Val (u16 (p_data P) 10).
Proof.
  intros HP. pose proof (wf_bounds P HP) as [? ?].
  pose proof (u16_range P HP 6). pose proof (u16_range P HP 8). pose proof (u16_range P HP 10).
  assert (dns_p_count P (Z.lor DNS_S_AN (Z.lor DNS_S_NS DNS_S_AR))
    = (a ← rd16 P 6; n ← rd16 P 8; r ← rd16 P 10; Val (w32 (0 + a + n + r)))) as -> by reflexivity.
  assert (dns_p_count P (Z.lor DNS_S_NS DNS_S_AR) = (n ← rd16 P 8; r ← rd16 P 10; Val (w32 (0 + 0 + n + r)))) as -> by reflexivity.
  assert (dns_p_count P DNS_S_AR = rd16 P 10) as -> by reflexivity.
  rewrite (rd16_val P HP 6), (rd16_val P HP 8), (rd16_val P HP 10) by lia. cbn [mbind out_bind].
  fold (u16 (p_data P) 6) (u16 (p_data P) 8) (u16 (p_data P) 10). unfold w32. rewrite !Z.mod_small by lia.
  split_and!; f_equal; lia.
Qed.

(** A new item between [start] and the end of the packet. *)
Definition item (P : packet) (start section : Z) : Prop :=
  exists p1, extent (p_data P) (p_end P) start p1 /\
    if section =? DNS_S_QD then p1 + 4 = p_end P
    else p1 + 10 <= p_end P /\ p1 + 10 + u16 (p_data P) (p1 + 8) = p_end P.

Lemma agree_u16 lo hi d d' i : agree lo hi d d' -> lo <= i -> i + 2 <= hi -> u16 d i = u16 d' i.
Proof. intros Ha ? ?. unfold u16. by rewrite !Ha by lia. Qed.

(** The section counts of two packets, one item apart. *)
Definition one_more (P P' : packet) (section : Z) : Prop :=
  forall s i, (s, i) ∈ [(DNS_S_QD, 4); (DNS_S_AN, 6); (DNS_S_NS, 8); (DNS_S_AR, 10)] ->
    u16 (p_data P') i = u16 (p_data P) i + (if section =? s then 1 else 0).

Lemma wf_set_data P d : wf P -> len d = len (p_data P) -> Forall byte d -> wf (set_data P d).
Proof. intros HP Hl Hb. destruct HP. split; cbn; try done. congruence. Qed.

(** [d'] is [d] with one more item counted at offset [i] of the header. *)
Record counted (d d' : list Z) (e i : Z) : Prop := {
  ct_len : len d' = len d;
  ct_bytes : Forall byte d';
  ct_agree : agree 12 e d d';
  ct_inc : u16 d' i = u16 d i + 1;
  ct_other : forall j, j + 2 <= i \/ i + 2 <= j -> 0 <= j -> u16 d' j = u16 d j;
}.

Lemma study_bump P a b c f m i (F : packet -> out pushed_res) : wf P -> layout (p_data P) (p_end P) a b c f -> memos_ok P a b c f ->
  m = p_qd \/ m = p_an \/ m = p_ns \/ m = p_ar -> 4 <= i -> i + 2 <= 12 -> u16 (p_data P) i + 1 < 2 ^ 16 ->
  exists d, (P0 ← (if m_base (m P) =? 0 then dns_p_study P else Val P); P1 ← bump P0 i; F P1)
      = F (set_data (set_memos P (Memo 12 a) (Memo a b) (Memo b c) (Memo c f)) d) /\ counted (p_data P) d (p_end P) i.
Proof.
  intros HP Hl Hm Hm' Hi Hi12 Hc. rewrite (studied_ok P a b c f m) by done. cbn [mbind out_bind].
  destruct (bump_ok (set_memos P (Memo 12 a) (Memo a b) (Memo b c) (Memo c f)) i) as (d & -> & ? & ? & ? & ? & ?);
    [by destruct HP; split|done..|]. cbn [mbind out_bind]. exists d. split; [done|]. by split.
Qed.

Section Add.
Context (d d' : list Z) (e i a b c f : Z).
Context (Hl : layout d e a b c f) (H12 : 12 <= e) (Hct : counted d d' e i) (Hbytes : Forall byte d).

Lemma cnt_inc : 0 <= u16 d i -> cnt d' i = S (cnt d i).
Proof. intros Hu. unfold cnt. rewrite (ct_inc _ _ _ _ Hct). lia. Qed.
Lemma cnt_other j : j + 2 <= i \/ i + 2 <= j -> 0 <= j -> cnt d' j = cnt d j.
Proof. intros Hj Hj0. unfold cnt. by rewrite (ct_other _ _ _ _ Hct). Qed.

Lemma u16_nonneg j : 0 <= u16 d j.
Proof. unfold u16. pose proof (nthz_byte d j Hbytes). pose proof (nthz_byte d (j + 1) Hbytes). unfold byte in *. lia. Qed.

(** The four ways to extend the layout by an item at its end. *)
Lemma add_question p1 : i = 4 -> cnt d 6 = 0%nat -> cnt d 8 = 0%nat -> cnt d 10 = 0%nat ->
  extent d e f p1 -> p1 + 4 = e -> layout d' e e e e e.
Proof.
  intros Hi C6 C8 C10 Hx Hp. pose proof (layout_bounds _ _ _ _ _ _ Hl H12). destruct Hl as [Lq La Ln Lr].
  rewrite C6 in La. rewrite C8 in Ln. rewrite C10 in Lr. apply records_zero in La, Ln, Lr. subst b c f.
  pose proof (ct_agree _ _ _ _ Hct). pose proof (cnt_inc (u16_nonneg i)) as Ci. pose proof cnt_other as Co. rewrite Hi in Ci, Co.
  split; rewrite ?Ci, ?Co by lia; rewrite ?C6, ?C8, ?C10; try constructor.
  rewrite <- Hp at 2. apply (questions_snoc _ _ _ _ a).
  - eapply questions_mono; [done|lia|lia|done].
  - eapply extent_mono; [done|lia|lia|done].
  - lia.
Qed.

Lemma add_record p q n p1 : records d e n p q -> 12 <= p -> p <= q -> extent d e q p1 -> p1 + 10 <= e -> p1 + 10 + u16 d (p1 + 8) = e ->
  records d' e (S n) p e.
Proof.
  intros Hr Hp Hq Hx H10 Hp1. pose proof (ct_agree _ _ _ _ Hct) as Hag. pose proof (extent_bounds _ _ _ _ Hx).
  assert (u16 d' (p1 + 8) = u16 d (p1 + 8)) as Hu by (symmetry; eapply agree_u16; [done|lia|lia]).
  pose proof (u16_nonneg (p1 + 8)). rewrite <- Hp1 at 2. rewrite <- Hu.
  apply (records_snoc _ _ _ _ q); rewrite ?Hu; try lia.
  - eapply records_mono; [done|lia|lia|done].
  - eapply extent_mono; [done|lia|lia|done].
Qed.

Lemma keep_questions n p q : questions d e n p q -> 12 <= p -> questions d' e n p q.
Proof. intros Hq Hp. eapply questions_mono; [apply (ct_agree _ _ _ _ Hct)|lia|lia|done]. Qed.
Lemma keep_records n p q : records d e n p q -> 12 <= p -> records d' e n p q.
Proof. intros Hq Hp. eapply records_mono; [apply (ct_agree _ _ _ _ Hct)|lia|lia|done]. Qed.

Lemma add_answer p1 : i = 6 -> cnt d 8 = 0%nat -> cnt d 10 = 0%nat ->
  extent d e f p1 -> p1 + 10 <= e -> p1 + 10 + u16 d (p1 + 8) = e -> layout d' e a e e e.
Proof.
  intros Hi C8 C10 Hx H10 Hp. pose proof (layout_bounds _ _ _ _ _ _ Hl H12). destruct Hl as [Lq La Ln Lr].
  rewrite C8 in Ln. rewrite C10 in Lr. apply records_zero in Ln, Lr. subst c f.
  pose proof (cnt_inc (u16_nonneg i)) as Ci. pose proof cnt_other as Co. rewrite Hi in Ci, Co.
  split; rewrite ?Ci, ?Co by lia; rewrite ?C8, ?C10; try constructor.
  - by apply keep_questions.
  - eapply add_record; [done|lia|lia|done..].
Qed.

Lemma add_authority p1 : i = 8 -> cnt d 10 = 0%nat ->
  extent d e f p1 -> p1 + 10 <= e -> p1 + 10 + u16 d (p1 + 8) = e -> layout d' e a b e e.
Proof.
  intros Hi C10 Hx H10 Hp. pose proof (layout_bounds _ _ _ _ _ _ Hl H12). destruct Hl as [Lq La Ln Lr].
  rewrite C10 in Lr. apply records_zero in Lr. subst f.
  pose proof (cnt_inc (u16_nonneg i)) as Ci. pose proof cnt_other as Co. rewrite Hi in Ci, Co.
  split; rewrite ?Ci, ?Co by lia; rewrite ?C10; try constructor.
  - by apply keep_questions.
  - apply keep_records; [done|lia].
  - eapply add_record; [done|lia|lia|done..].
Qed.

Lemma add_additional p1 : i = 10 ->
  extent d e f p1 -> p1 + 10 <= e -> p1 + 10 + u16 d (p1 + 8) = e -> layout d' e a b c e.
Proof.
  intros Hi Hx H10 Hp. pose proof (layout_bounds _ _ _ _ _ _ Hl H12). destruct Hl as [Lq La Ln Lr].
  pose proof (cnt_inc (u16_nonneg i)) as Ci. pose proof cnt_other as Co. rewrite Hi in Ci, Co.
  split; rewrite ?Ci, ?Co by lia.
  - by apply keep_questions.
  - apply keep_records; [done|lia].
  - apply keep_records; [done|lia].
  - eapply add_record; [done|lia|lia|done..].
Qed.
End Add.

(** What a push promises: the result is valid, one item longer, with the bytes
    that were there still in place. *)
Record grown_by_one (P P' : packet) (section : Z) : Prop := {
  gr_valid : valid P';
  gr_end : p_end P' = p_end P;
  gr_agree : agree 12 (p_end P) (p_data P) (p_data P');
  gr_counts : one_more P P' section;
  gr_size : p_size P' = p_size P;
}.

Lemma grown_ok P d section i a b c qd an ns ar : wf P -> counted (p_data P) d (p_end P) i ->
  layout d (p_end P) a b c (p_end P) -> memos_ok (set_memos (set_data P d) qd an ns ar) a b c (p_end P) ->
  (section, i) ∈ [(DNS_S_QD, 4); (DNS_S_AN, 6); (DNS_S_NS, 8); (DNS_S_AR, 10)] ->
  grown_by_one P (set_memos (set_data P d) qd an ns ar) section.
Proof.
  intros HP [Hl Hb Ha Hi Ho] Hlay Hm Hs. split; cbn; try done.
  - split; [|by exists a, b, c]. destruct HP. split; cbn; try done. congruence.
  - intros s j Hj. cbn. rewrite !elem_of_cons, elem_of_nil in Hs, Hj.
    destruct_or! Hs; destruct_or! Hj; try done; simplify_eq;
      cbn [Z.eqb Pos.eqb DNS_S_QD DNS_S_AN DNS_S_NS DNS_S_AR]; rewrite ?Hi, ?Ho by lia; lia.
Qed.

Lemma p_update_ok P P' start section a b c : wf P -> layout (p_data P) (p_end P) a b c start -> memos_ok P a b c start ->
  item P start section -> p_update P start section = Val (P', None) -> grown_by_one P P' section.
Proof.
  intros HP Hl Hm (p1 & Hx & Hitem). pose proof (wf_bounds P HP) as [He He'].
  pose proof (layout_counts _ _ _ _ _ HP Hl) as (C4 & C6 & C8 & C10). pose proof (wf_bytes P HP) as HB.
  pose proof (count_tail P HP) as (Hc14 & Hc12 & Hc8).
  pose proof (u16_range P HP 6). pose proof (u16_range P HP 8). pose proof (u16_range P HP 10).
  unfold p_update. rewrite (w16_id (p_end P)) by lia.
  destruct (Z.eqb_spec section DNS_S_QD) as [->|]; [|destruct (Z.eqb_spec section DNS_S_AN) as [->|];
    [|destruct (Z.eqb_spec section DNS_S_NS) as [->|]; [|destruct (Z.eqb_spec section DNS_S_AR) as [->|]; [|done]]]].
  - rewrite Hc14. cbn [mbind out_bind]. destruct (Z.eqb_spec (u16 (p_data P) 6 + u16 (p_data P) 8 + u16 (p_data P) 10) 0); [|done].
    cbn [negb].
    match goal with |- (P0 ← _; P1 ← bump P0 _; @?F P1) = _ -> _ =>
      destruct (study_bump P a b c start p_qd 4 F HP Hl Hm) as (d & -> & Hct); [tauto|lia..|] end.
    cbn -[Z.add]. intros [= <-].
    apply (grown_ok P d DNS_S_QD 4 (p_end P) (p_end P) (p_end P)); [done|done| |by right|set_solver].
    eapply add_question; try done; [lia|apply cnt_zero; [done|lia]..].
  - rewrite Hc12. cbn [mbind out_bind]. destruct (Z.eqb_spec (u16 (p_data P) 8 + u16 (p_data P) 10) 0); [|done].
    cbn [negb].
    match goal with |- (P0 ← _; P1 ← bump P0 _; @?F P1) = _ -> _ =>
      destruct (study_bump P a b c start p_an 6 F HP Hl Hm) as (d & -> & Hct); [tauto|lia..|] end.
    cbn -[Z.add]. intros [= <-]. destruct Hitem.
    apply (grown_ok P d DNS_S_AN 6 a (p_end P) (p_end P)); [done|done| |by right|set_solver].
    eapply add_answer; try done; [lia|apply cnt_zero; [done|lia]..].
  - rewrite Hc8. cbn [mbind out_bind]. destruct (Z.eqb_spec (u16 (p_data P) 10) 0); [|done].
    cbn [negb].
    match goal with |- (P0 ← _; P1 ← bump P0 _; @?F P1) = _ -> _ =>
      destruct (study_bump P a b c start p_ns 8 F HP Hl Hm) as (d & -> & Hct); [tauto|lia..|] end.
    cbn -[Z.add]. intros [= <-]. destruct Hitem.
    apply (grown_ok P d DNS_S_NS 8 a b (p_end P)); [done|done| |by right|set_solver].
    eapply add_authority; try done; [lia|apply cnt_zero; [done|lia]].
  - match goal with |- (P0 ← _; P1 ← bump P0 _; @?F P1) = _ -> _ =>
      destruct (study_bump P a b c start p_ar 10 F HP Hl Hm) as (d & -> & Hct); [tauto|lia..|] end.
    cbn -[Z.add]. intros [= <-]. destruct Hitem.
    apply (grown_ok P d DNS_S_AR 10 a b c); [done|done| |by right|set_solver].
    eapply add_additional; try done. lia.
Qed.

(** ** Pushing a record *)

Lemma appends_agree P P' bs : wf P -> appends P P' bs -> agree 0 (p_end P) (p_data P) (p_data P').
Proof. intros HP [Hpu _] i Hi. eapply same_below_nthz; [by eapply pushed_same|lia]. Qed.

Lemma appends_byte P P' bs j : wf P -> appends P P' bs -> 0 <= j < len bs -> nthz (p_data P') (p_end P + j) = nthz bs j.
Proof.
  intros HP [Hpu _] Hj. destruct (pushed_data_pre _ _ _ HP Hpu) as (pre & post & -> & <-). pose proof (len_nonneg pre).
  rewrite nthz_app_r by lia. rewrite nthz_app_l by lia. f_equal. lia.
Qed.

Lemma lor_shift x y n : 0 <= n -> 0 <= y < 2 ^ n -> Z.lor (Z.shiftl x n) y = x * 2 ^ n + y.
Proof.
  intros Hn Hy. rewrite Z.shiftl_mul_pow2 by lia. rewrite <- Z.lxor_lor, <- Z.add_nocarry_lxor; [done|..].
  all: apply Z.bits_inj'; intros i Hi; rewrite Z.land_spec, Z.bits_0;
    destruct (Z.lt_ge_cases i n); [rewrite Z.mul_pow2_bits_low by lia; done|];
    rewrite <- (Z.mod_small y (2 ^ n)) by lia; rewrite Z.mod_pow2_bits_high by lia; apply andb_false_r.
Qed.

(** Four bytes in network order. *)
Lemma be32 a b c x : 0 <= b < 256 -> 0 <= c < 256 -> 0 <= x < 256 ->
  Z.lor (Z.lor (Z.lor (Z.shiftl a 24) (Z.shiftl b 16)) (Z.shiftl c 8)) (Z.shiftl x 0)
  = ((a * 256 + b) * 256 + c) * 256 + x.
Proof.
  intros Hb Hc Hx. rewrite Z.shiftl_0_r. change 24 with (8 + (8 + 8)). change 16 with (8 + 8).
  rewrite <- !(Z.shiftl_shiftl _ 8) by lia. rewrite <- !Z.shiftl_lor. rewrite !lor_shift by (change (2 ^ 8) with 256; lia). done.
Qed.

Lemma land_shift n k : 0 <= k -> Z.land 255 (Z.shiftr n k) = (n / 2 ^ k) mod 256.
Proof. intros Hk. rewrite Z.land_comm, Z.shiftr_div_pow2 by lia. change 255 with (Z.ones 8). by rewrite Z.land_ones by lia. Qed.
Lemma land127_shift n k : 0 <= k -> Z.land 127 (Z.shiftr n k) = (n / 2 ^ k) mod 128.
Proof. intros Hk. rewrite Z.land_comm, Z.shiftr_div_pow2 by lia. change 127 with (Z.ones 7). by rewrite Z.land_ones by lia. Qed.

(** The four bytes written for [n] and read back. *)
Lemma four_bytes n : 0 <= n ->
  (((n / 2 ^ 24) mod 256 * 256 + (n / 2 ^ 16) mod 256) * 256 + (n / 2 ^ 8) mod 256) * 256 + (n / 2 ^ 0) mod 256 = n mod 2 ^ 32 /\
  (((n / 2 ^ 24) mod 128 * 256 + (n / 2 ^ 16) mod 256) * 256 + (n / 2 ^ 8) mod 256) * 256 + (n / 2 ^ 0) mod 256 = n mod 2 ^ 31.
Proof.
  intros Hn. change (2 ^ 0) with 1. rewrite Z.div_1_r. change (2 ^ 24) with 16777216. change (2 ^ 16) with 65536.
  change (2 ^ 8) with 256. change (2 ^ 32) with 4294967296. change (2 ^ 31) with 2147483648.
  split; Z.div_mod_to_equations; lia.
Qed.

(** The record that a push adds. *)
Record added (P P' : packet) (type class ttl : Z) (payload : list Z) (r : rr) : Prop := {
  ad_dn : rr_dn_p r = p_end P; ad_type : rr_type r = type; ad_class : rr_class r = class;
  ad_ttl : rr_ttl r = ttl mod 2 ^ 31;
  ad_len : rr_rd_len r = len payload; ad_end : rr_rd_p r + len payload = p_end P';
  ad_data : forall j, 0 <= j < len payload -> nthz (p_data P') (rr_rd_p r + j) = nthz payload j;
}.

(** From the appended bytes to the item and its fields. *)
Lemma added_item P P1 P4 P' type class ttl payload b0 bs section s :
  wf P -> wf P1 -> valid P' -> appends P P1 b0 -> extent (p_data P1) (p_end P1) (p_end P) (p_end P1) ->
  bs = (two type ++ two class) ++ (Z.land 127 (Z.shiftr ttl 24) :: drop 1 (four ttl)) ++ two (len payload) ++ payload ->
  appends P1 P4 bs -> wf P4 -> 0 <= type < 2 ^ 16 -> 0 <= class < 2 ^ 16 -> 0 <= ttl -> len payload < 2 ^ 16 ->
  grown_by_one P4 P' section -> section <> DNS_S_QD -> (exists a, dns_p_qend P' = Val a /\ a <= p_end P) ->
  exists r, dns_rr_parse s (p_end P) P' = Val (inr r) /\ added P P' type class ttl payload r.
Proof.
  intros HP HP1 HV Ha0 Hx -> Ha HP4 Ht Hc Httl Hpl [_ Ge Gag _ _] Hs (a & Hq & Hqa).
  assert (wf P') as HP' by apply HV. pose proof (wf_bounds P1 HP1) as [? ?]. pose proof (wf_bounds P HP) as [? ?].
  pose proof (extent_bounds _ _ _ _ Hx) as Hxb. pose proof (pu_end _ _ _ (proj1 Ha)) as He4.
  pose proof (len_nonneg payload) as Hpos. set (p1 := p_end P1) in *.
  set (bs := (two type ++ two class) ++ (Z.land 127 (Z.shiftr ttl 24) :: drop 1 (four ttl)) ++ two (len payload) ++ payload) in *.
  assert (len bs = 10 + len payload) as Hlb by (unfold bs; rewrite !len_app; unfold two, four; cbn [drop]; autorewrite with len; lia).
  assert (forall j, 0 <= j < len bs -> nthz (p_data P') (p1 + j) = nthz bs j) as Hb.
  { intros j Hj. rewrite <- Gag by (unfold p1 in *; lia). by apply appends_byte. }
  assert (extent (p_data P') (p_end P') (p_end P) p1) as Hx'.
  { apply (extent_mono (p_data P1) _ p1 _ _ _ 12); [|lia|lia|done].
    eapply agree_trans; [eapply agree_sub; [| |by apply (appends_agree P1 P4 bs)]; unfold p1; lia|].
    eapply agree_sub; [| |exact Gag]; lia. }
  assert (u16 (p_data P') p1 = type) as Ut.
  { unfold u16. rewrite <- (Z.add_0_r p1) at 1. rewrite !Hb by lia. apply (two_u16 type Ht). }
  assert (u16 (p_data P') (p1 + 2) = class) as Uc.
  { unfold u16. rewrite <- Z.add_assoc, !Hb by lia. apply (two_u16 class Hc). }
  assert (u16 (p_data P') (p1 + 8) = len payload) as Ul.
  { unfold u16. rewrite <- Z.add_assoc, !Hb by lia. apply (two_u16 (len payload)). lia. }
  destruct (parse_record P' HP' s a (p_end P) p1 Hq Hqa Hx') as (t & Hparse & Htt); [lia|rewrite Ul; lia|].
  eexists. split; [exact Hparse|]. split; cbn; try done; try lia.
  - rewrite Htt, !Hb by lia. change (nthz bs 4) with (Z.land 127 (Z.shiftr ttl 24)). change (nthz bs 5) with (Z.land 255 (Z.shiftr ttl 16)).
    change (nthz bs 6) with (Z.land 255 (Z.shiftr ttl 8)). change (nthz bs 7) with (Z.land 255 (Z.shiftr ttl 0)).
    rewrite be32 by apply land_255.
    assert (forall x, Z.land 255 (Z.land 255 x) = Z.land 255 x) as Hid by (intros; by rewrite Z.land_assoc). rewrite !Hid.
    assert (Z.land 127 (Z.land 127 (Z.shiftr ttl 24)) = Z.land 127 (Z.shiftr ttl 24)) as -> by (rewrite Z.land_assoc; done).
    rewrite land127_shift, !land_shift by lia. apply four_bytes. lia.
  - intros j Hj. rewrite <- Z.add_assoc, Hb by lia. unfold bs.
    assert (forall l, len l = 10 -> nthz (l ++ payload) (10 + j) = nthz payload j) as Hskip.
    { intros l Hl. rewrite nthz_app_r by lia. f_equal. lia. }
    rewrite <- (Hskip ((two type ++ two class) ++ (Z.land 127 (Z.shiftr ttl 24) :: drop 1 (four ttl)) ++ two (len payload))) by done.
    by rewrite <- !app_assoc.
Qed.

(** The fixed fields of a record. *)
Definition ttl4 (ttl : Z) : list Z := Z.land 127 (Z.shiftr ttl 24) :: drop 1 (four ttl).

Lemma Forall_fields type class : Forall byte (two type ++ two class).
Proof. apply Forall_app; auto. Qed.
Lemma Forall_ttl4 ttl : Forall byte (ttl4 ttl).
Proof. constructor; [|apply Forall_drop; auto]. pose proof (land_127 (Z.shiftr ttl 24)). unfold byte. lia. Qed.

Lemma memos_frame P P' a b c f : framed P P' -> memos_ok P a b c f -> memos_ok P' a b c f.
Proof. intros [Q A N R _]. unfold memos_ok. by rewrite Q, A, N, R. Qed.

Lemma layout_frame P P' bs a b c f : wf P -> appends P P' bs -> layout (p_data P) (p_end P) a b c f ->
  layout (p_data P') (p_end P') a b c f.
Proof.
  intros HP Ha. pose proof (wf_end P HP). pose proof (len_nonneg bs). eapply layout_mono.
  - eapply agree_sub; [| |by eapply appends_agree]; lia.
  - rewrite (pu_end _ _ _ (proj1 Ha)). lia.
Qed.

Lemma appends_valid P P' : appends P P' [] -> p_size P < 2 ^ 16 -> valid P -> valid P'.
Proof.
  intros Ha Hsz (HP & a & b & c & Hl & Hm). split; [by eapply appends_wf|]. exists a, b, c.
  assert (p_end P' = p_end P) as He by (rewrite (pu_end _ _ _ (proj1 Ha)); apply Z.add_0_r).
  split; rewrite He; [rewrite <- He at 1; by eapply layout_frame|by eapply memos_frame; [apply Ha|]].
Qed.

Section Push.
Context (fuel : nat) (P : packet) (dn : list Z) (ls : list (list Z)) (type class ttl section : Z).
Context (HP : wf P) (Hsz : p_size P < 2 ^ 16) (Hdn : Forall byte dn).

(** A refused update only resets the end. *)
Lemma p_update_fail P1 bs P' e : appends P P1 bs -> p_update P1 (p_end P) section = Val (P', Some e) -> appends P P' [].
Proof.
  intros Ha. pose proof (appends_reset P P1 bs HP Ha) as Hr. unfold p_update.
  repeat case_match; intros Hx; repeat (apply bind_Val in Hx as (? & _ & Hx)); try done; try by injection Hx as <- _.
  all: case_match; [by injection Hx as <- _|]; repeat (apply bind_Val in Hx as (? & _ & Hx)); done.
Qed.

(** A failed push leaves nothing behind but an unused entry of the dictionary. *)
Lemma p_push_fail a P' e : any_ok a -> dns_p_push fuel P section dn type class ttl a = Val (P', Some e) -> appends P P' [].
Proof.
  intros Hany. unfold dns_p_push. intros ([P1 err] & Hd & Hx)%bind_Val.
  pose proof (d_push_inv fuel P dn P1 err HP Hdn Hd) as Hinv. destruct err as [err|].
  { injection Hx as <- _. by eapply appends_reset. }
  destruct Hinv as (b0 & Ha & _). pose proof (appends_wf _ _ _ HP Hsz Ha) as HP1.
  assert (p_size P1 < 2 ^ 16) as Hs1 by (by rewrite (pu_size _ _ _ (proj1 Ha))).
  destruct (Z.ltb_spec (room P1) 4). { injection Hx as <- _. by eapply appends_reset. }
  destruct (put_bytes_ok P1 (two type ++ two class) HP1 ltac:(done) (Forall_fields _ _)) as (P2 & Hp2 & Ha2).
  rewrite Hp2 in Hx. cbn [mbind out_bind] in Hx. pose proof (appends_trans _ _ _ _ _ HP Ha Ha2) as Ha02.
  pose proof (appends_wf _ _ _ HP Hsz Ha02) as HP2. destruct (section =? DNS_S_QD); [by eapply p_update_fail|].
  destruct (Z.ltb_spec (room P2) 6). { injection Hx as <- _. by eapply appends_reset. }
  destruct (put_bytes_ok P2 (ttl4 ttl) HP2) as (P3 & Hp3 & Ha3); [change (len (ttl4 ttl)) with 4; lia|apply Forall_ttl4|].
  fold (ttl4 ttl) in Hx. rewrite Hp3 in Hx. cbn [mbind out_bind] in Hx. pose proof (appends_trans _ _ _ _ _ HP Ha02 Ha3) as Ha03.
  pose proof (appends_wf _ _ _ HP Hsz Ha03) as HP3. apply bind_Val in Hx as ([P4 err] & Hany' & Hx).
  apply (any_push_res P3 HP3) in Hany'; [|by rewrite (pu_size _ _ _ (proj1 Ha03))|done]. destruct err as [err|].
  - injection Hx as <- _. pose proof (appends_trans _ _ _ _ _ HP Ha03 Hany') as Hr.
    apply (appends_reset _ _ _ HP) in Hr. by rewrite set_end_twice in Hr.
  - destruct Hany' as (payload & Ha4 & _). eapply p_update_fail; [|done]. by eapply appends_trans.
Qed.

Context (Hls : Forall label_ok ls) (Hlb : Forall (Forall byte) ls) (Hne : ls <> []) (Htext : dns_d_anchor dn = text ls).

(** The steps of a push that succeeds. *)
Record steps_to (a : any) (P' P1 P3 P4 : packet) : Prop := {
  sp_push : dns_d_push fuel P dn = Val (P1, None);
  sp_name : exists b0, appends P P1 b0;
  sp_extent : extent (p_data P1) (p_end P1) (p_end P) (p_end P1);
  sp_fields : appends P1 P3 ((two type ++ two class) ++ ttl4 ttl);
  sp_data : dns_any_push fuel P3 a type = Val (P4, None);
  sp_update : p_update P4 (p_end P) section = Val (P', None);
}.

Lemma p_push_steps a P' : section <> DNS_S_QD -> dns_p_push fuel P section dn type class ttl a = Val (P', None) ->
  exists P1 P3 P4, steps_to a P' P1 P3 P4.
Proof.
  intros Hs. unfold dns_p_push. intros ([P1 err] & Hd & Hx)%bind_Val. destruct err as [err|]; [done|].
  destruct (d_push_extent fuel P P1 ls dn HP Hsz Hls Hlb Hne Htext Hdn Hd) as (b0 & Ha & Hext).
  pose proof (appends_wf _ _ _ HP Hsz Ha) as HP1. destruct (Z.ltb_spec (room P1) 4); [done|].
  destruct (put_bytes_ok P1 (two type ++ two class) HP1 ltac:(done) (Forall_fields _ _)) as (P2 & Hp2 & Ha2).
  rewrite Hp2 in Hx. cbn [mbind out_bind] in Hx. pose proof (appends_trans _ _ _ _ _ HP Ha Ha2) as Ha02.
  pose proof (appends_wf _ _ _ HP Hsz Ha02) as HP2. apply Z.eqb_neq in Hs. rewrite Hs in Hx.
  destruct (Z.ltb_spec (room P2) 6); [done|].
  destruct (put_bytes_ok P2 (ttl4 ttl) HP2) as (P3 & Hp3 & Ha3); [change (len (ttl4 ttl)) with 4; lia|apply Forall_ttl4|].
  fold (ttl4 ttl) in Hx. rewrite Hp3 in Hx. cbn [mbind out_bind] in Hx.
  apply bind_Val in Hx as ([P4 err] & Hany' & Hx). destruct err as [err|]; [done|].
  exists P1, P3, P4. split; try done; [by exists b0|by eapply appends_trans].
Qed.
End Push.

(** What a successful push promises of the packet. *)
Record pushed_one (P P' : packet) (section : Z) : Prop := {
  po_valid : valid P';
  po_end : p_end P < p_end P';
  po_size : p_size P' = p_size P;
  po_agree : agree 12 (p_end P) (p_data P) (p_data P');
  po_counts : one_more P P' section;
}.

Lemma pushed_one_ok P P4 P' bs section : valid P -> p_size P < 2 ^ 16 -> appends P P4 bs -> 0 < len bs ->
  item P4 (p_end P) section -> p_update P4 (p_end P) section = Val (P', None) ->
  grown_by_one P4 P' section /\ pushed_one P P' section.
Proof.
  intros (HP & a & b & c & Hl & Hm) Hsz Ha Hpos Hit Hup. pose proof (appends_wf _ _ _ HP Hsz Ha) as HP4.
  pose proof (wf_end P HP). pose proof (pu_end _ _ _ (proj1 Ha)) as He. pose proof (appends_agree _ _ _ HP Ha) as Hag.
  assert (grown_by_one P4 P' section) as Hg.
  { eapply (p_update_ok P4 P' (p_end P) section a b c); [done|by eapply (layout_frame P)|by eapply (memos_frame P); [apply Ha|]|done|done]. }
  split; [done|]. destruct Hg as [Gv Ge Ga Gc Gs]. split; [done|lia| | |].
  - rewrite Gs. apply (pu_size _ _ _ (proj1 Ha)).
  - eapply agree_trans; [eapply agree_sub; [| |exact Hag]; lia|]. eapply agree_sub; [| |exact Ga]; lia.
  - intros s i Hi. rewrite (Gc s i Hi). f_equal. symmetry. eapply agree_u16; [exact Hag|..];
      rewrite !elem_of_cons, elem_of_nil in Hi; destruct_or! Hi; simplify_eq; lia.
Qed.

(** The questions of a packet stay where they are while records are added. *)
Lemma qend_kept P P' section a b c f : wf P -> layout (p_data P) (p_end P) a b c f -> pushed_one P P' section ->
  section <> DNS_S_QD -> dns_p_qend P' = Val a /\ a <= p_end P.
Proof.
  intros HP Hl [HV He _ Hag Hcnt] Hs. assert (wf P') as HP' by apply HV. pose proof (wf_bounds P HP) as [? ?]. pose proof (wf_bounds P' HP') as [? ?].
  pose proof (layout_bounds _ _ _ _ _ _ Hl ltac:(lia)). split; [|lia]. unfold dns_p_qend.
  destruct (count_layout P' HP' DNS_S_QD 4) as (k & -> & Hk); [done|lia|lia|]. cbn [mbind out_bind].
  assert (cnt (p_data P') 4 = cnt (p_data P) 4) as Hc.
  { unfold cnt. rewrite (Hcnt DNS_S_QD 4) by set_solver. apply Z.eqb_neq in Hs. rewrite Hs. f_equal. lia. }
  rewrite Hk, Hc. apply (qend_questions P' HP'); [|lia]. eapply questions_mono; [exact Hag|lia|lia|apply Hl].
Qed.

Section PushOk.
Context (fuel : nat) (P : packet) (dn : list Z) (ls : list (list Z)) (type class ttl section : Z).
Context (HV : valid P) (Hsz : p_size P < 2 ^ 16) (Hdn : Forall byte dn).
Context (Hls : Forall label_ok ls) (Hlb : Forall (Forall byte) ls) (Hne : ls <> []) (Htext : dns_d_anchor dn = text ls).
Context (Htype : 0 <= type < 2 ^ 16) (Hclass : 0 <= class < 2 ^ 16).

(** The bytes of the record that a push adds: the name from the old end to [p_end P1],
    then the fixed fields, the length of the data and the data. *)
Definition record_bytes (payload : list Z) : list Z := (two type ++ two class) ++ ttl4 ttl ++ two (len payload) ++ payload.
Lemma len_record_bytes payload : len (record_bytes payload) = 10 + len payload.
Proof. unfold record_bytes. rewrite !len_app. unfold two, ttl4, four. cbn [drop]. autorewrite with len. lia. Qed.
Record written (P' P1 P4 : packet) (payload : list Z) : Prop := {
  wr_name : exists b0, appends P P1 b0;
  wr_ext : extent (p_data P1) (p_end P1) (p_end P) (p_end P1);
  wr_rest : appends P1 P4 (record_bytes payload);
  wr_wf1 : wf P1; wr_wf4 : wf P4;
  wr_grown : grown_by_one P4 P' section;
  wr_one : pushed_one P P' section;
}.
Lemma p_push_written a P' P1 P3 P4 payload : section <> DNS_S_QD ->
  steps_to fuel P dn type class ttl section a P' P1 P3 P4 -> appends P3 P4 (two (len payload) ++ payload) -> len payload < 2 ^ 16 ->
  written P' P1 P4 payload.
Proof.
  intros Hs [_ (b0 & Ha0) Hext Hf _ Hup] Hd Hpl. pose proof HV as (HP & qa & qb & qc & Hl & Hm).
  pose proof (appends_wf _ _ _ HP Hsz Ha0) as HP1. pose proof (wf_end P HP). pose proof (wf_end P1 HP1).
  pose proof (appends_trans _ _ _ _ _ HP1 Hf Hd) as H14. rewrite <- app_assoc in H14.
  pose proof (appends_trans _ _ _ _ _ HP Ha0 H14) as H04. pose proof (appends_wf _ _ _ HP Hsz H04) as HP4.
  fold (record_bytes payload) in H14, H04. pose proof (len_nonneg payload). pose proof (len_record_bytes payload) as Hlb'.
  pose proof (extent_bounds _ _ _ _ Hext). pose proof (pu_end _ _ _ (proj1 H14)) as He4.
  assert (item P4 (p_end P) section) as Hit.
  { exists (p_end P1). split.
    - eapply extent_mono; [eapply appends_agree; [exact HP1|exact H14]|lia|lia|done].
    - apply Z.eqb_neq in Hs. rewrite Hs. assert (u16 (p_data P4) (p_end P1 + 8) = len payload) as ->; [|lia].
      unfold u16. rewrite <- Z.add_assoc, !(appends_byte P1 P4 (record_bytes payload)) by (done || lia). apply (two_u16 (len payload)). lia. }
  destruct (pushed_one_ok P P4 P' _ section HV Hsz H04 ltac:(rewrite len_app; pose proof (len_nonneg b0); lia) Hit Hup) as [Hg Hone].
  split; [by exists b0|done..].
Qed.
Lemma p_push_record a P' P1 P3 P4 payload : 0 <= ttl -> section <> DNS_S_QD ->
  steps_to fuel P dn type class ttl section a P' P1 P3 P4 -> appends P3 P4 (two (len payload) ++ payload) -> len payload < 2 ^ 16 ->
  pushed_one P P' section /\
  forall s, exists r, dns_rr_parse s (p_end P) P' = Val (inr r) /\ added P P' type class ttl payload r.
Proof.
  intros Httl Hs Hst Hd Hpl. pose proof HV as (HP & qa & qb & qc & Hl & Hm).
  destruct (p_push_written a P' P1 P3 P4 payload Hs Hst Hd Hpl) as [(b0 & Ha0) Hext H14 HP1 HP4 Hg Hone].
  split; [done|]. intros s. eapply (added_item P P1 P4 P' type class ttl payload b0 (record_bytes payload) section s); try done; [apply Hone|].
  exists qa. by eapply qend_kept.
Qed.

(** A question has no data. *)
Lemma p_push_question_bytes a P' : dns_p_push fuel P DNS_S_QD dn type class ttl a = Val (P', None) ->
  exists P1 P2, dns_d_push fuel P dn = Val (P1, None) /\ put_bytes P1 (two type ++ two class) = Val P2 /\ appends P1 P2 (two type ++ two class) /\ wf P1 /\
    p_update P2 (p_end P) DNS_S_QD = Val (P', None) /\ grown_by_one P2 P' DNS_S_QD /\ pushed_one P P' DNS_S_QD.
Proof.
  pose proof HV as (HP & _). unfold dns_p_push. intros ([P1 err] & Hd & Hx)%bind_Val. destruct err as [err|]; [done|].
  destruct (d_push_extent fuel P P1 ls dn HP Hsz Hls Hlb Hne Htext Hdn Hd) as (b0 & Ha & Hext).
  pose proof (appends_wf _ _ _ HP Hsz Ha) as HP1. destruct (Z.ltb_spec (room P1) 4); [done|].
  destruct (put_bytes_ok P1 (two type ++ two class) HP1 ltac:(done) (Forall_fields _ _)) as (P2 & Hp2 & Ha2).
  rewrite Hp2 in Hx. cbn [mbind out_bind] in Hx. pose proof (appends_trans _ _ _ _ _ HP Ha Ha2) as Ha02.
  pose proof (extent_bounds _ _ _ _ Hext). pose proof (wf_end P HP). pose proof (pu_end _ _ _ (proj1 Ha2)) as He2.
  change (len (two type ++ two class)) with 4 in He2. cbn [Z.eqb DNS_S_QD Pos.eqb] in Hx.
  exists P1, P2. do 5 (split; [done|]). eapply (pushed_one_ok P P2); [done|done|exact Ha02| | |exact Hx].
  - rewrite len_app. change (len (two type ++ two class)) with 4. pose proof (len_nonneg b0). lia.
  - exists (p_end P1). split; [|cbn; lia]. eapply extent_mono; [eapply appends_agree; [exact HP1|exact Ha2]|lia|lia|done].
Qed.
Lemma p_push_question a P' : dns_p_push fuel P DNS_S_QD dn type class ttl a = Val (P', None) -> pushed_one P P' DNS_S_QD.
Proof. by intros (? & ? & _ & _ & _ & _ & _ & _ & ?)%p_push_question_bytes. Qed.

(** A push of data whose bytes are known. *)
Lemma p_push_payload a P' payload : 0 <= ttl -> section <> DNS_S_QD ->
  dns_p_push fuel P section dn type class ttl a = Val (P', None) ->
  (forall P3 P4, wf P3 -> p_size P3 < 2 ^ 16 -> dns_any_push fuel P3 a type = Val (P4, None) -> rdata_is P3 P4 None payload) ->
  pushed_one P P' section /\
  forall s, exists r, dns_rr_parse s (p_end P) P' = Val (inr r) /\ added P P' type class ttl payload r.
Proof.
  intros Httl Hs Hpush Hpay. destruct (p_push_steps fuel P dn ls type class ttl section (proj1 HV) Hsz Hdn Hls Hlb Hne Htext a P' Hs Hpush)
    as (P1 & P3 & P4 & Hst). pose proof Hst as [_ (b0 & Ha0) _ Hf Hd _]. pose proof (appends_trans _ _ _ _ _ (proj1 HV) Ha0 Hf) as H03.
  destruct (Hpay P3 P4) as [? ?]; [by eapply appends_wf; [apply HV|..]|by rewrite (pu_size _ _ _ (proj1 H03))|done|].
  by eapply p_push_record.
Qed.
End PushOk.

(** ** When a push succeeds *)

(** No record of a later section is there yet. *)
Definition in_order (P : packet) (section : Z) : bool :=
  if section =? DNS_S_QD then u16 (p_data P) 6 + u16 (p_data P) 8 + u16 (p_data P) 10 =? 0
  else if section =? DNS_S_AN then u16 (p_data P) 8 + u16 (p_data P) 10 =? 0
  else if section =? DNS_S_NS then u16 (p_data P) 10 =? 0
  else true.

Lemma p_update_total P start section a b c : wf P -> layout (p_data P) (p_end P) a b c start -> memos_ok P a b c start ->
  section ∈ [DNS_S_QD; DNS_S_AN; DNS_S_NS; DNS_S_AR] ->
  exists P', p_update P start section = Val (P', if in_order P section then None else Some DNS_EORDER).
Proof.
  intros HP Hl Hm Hs. pose proof (layout_counts _ _ _ _ _ HP Hl) as (C4 & C6 & C8 & C10).
  pose proof (count_tail P HP) as (Hc14 & Hc12 & Hc8). unfold p_update, in_order.
  rewrite !elem_of_cons, elem_of_nil in Hs. destruct_or! Hs; subst; try done; cbn [Z.eqb Pos.eqb DNS_S_QD DNS_S_AN DNS_S_NS DNS_S_AR];
    rewrite ?Hc14, ?Hc12, ?Hc8; cbn [mbind out_bind];
    try (match goal with |- context [negb (?x =? 0)] => destruct (Z.eqb_spec x 0) end; cbn [negb]; [|by eexists]).
  all: match goal with |- exists P', (P0 ← (if m_base (?m _) =? _ then _ else _); P1 ← bump P0 ?i; @?F P1) = _ =>
      destruct (study_bump P a b c start m i F HP Hl Hm) as (d & -> & _); [tauto|lia..|] end; by eexists.
Qed.

(** Writing no more bytes than there is room for. *)
Lemma put_bytes_room P bs : wf P -> len bs <= room P -> Forall byte bs ->
  exists P', put_bytes P bs = Val P' /\ appends P P' bs /\ room P' = room P - len bs.
Proof.
  intros HP Hr Hb. destruct (put_bytes_ok P bs HP Hr Hb) as (P' & Hp & Ha). exists P'. split_and!; [done..|].
  pose proof (pushed_fits _ _ _ HP (proj1 Ha)). pose proof (wf_end P HP). pose proof (wf_size P HP). pose proof (len_nonneg bs).
  unfold room. rewrite (pu_end _ _ _ (proj1 Ha)), (pu_size _ _ _ (proj1 Ha)), !sub64_id by lia. lia.
Qed.
