(* ===== verification/DnsFlat.v ===== *)
(** Record data without names: the bytes it is written as, and that the parse
    functions of libdns read the same value back. *)

From stdpp Require Import prelude.
From Stdlib Require Import ZArith Lia.
From S2P Require Import Prelude DnsBase DnsName DnsNameSpec DnsNamePush DnsRr DnsRrSpec DnsRdata DnsLayout DnsPush DnsPacket DnsPacketSpec.
Local Open Scope Z_scope.

(** ** Reading back what a push wrote *)

(** Bytes found at an offset. *)
Definition holds_at (d : list Z) (p : Z) (bs : list Z) : Prop :=
  0 <= p /\ p + len bs <= len d /\ forall j, 0 <= j < len bs -> nthz d (p + j) = nthz bs j.

Lemma holds_slice d p bs : holds_at d p bs -> take (length bs) (drop (Z.to_nat p) d) = bs.
Proof.
  intros (Hp & Hl & Hn). unfold len in *. apply (nth_ext _ _ 0 0); [rewrite length_take, length_drop; lia|].
  intros n Hx. rewrite length_take, length_drop in Hx. specialize (Hn (Z.of_nat n) ltac:(lia)). unfold nthz in Hn.
  rewrite <- (Nat2Z.id n) in Hx |- *. rewrite nth_firstn. destruct (Nat.ltb_spec (Z.to_nat (Z.of_nat n)) (length bs)); [|lia]. rewrite nth_skipn.
  rewrite <- Hn. f_equal. lia.
Qed.

Lemma holds_rdn d p bs : holds_at d p bs -> rdn d p (len bs) = Val bs.
Proof.
  intros H. pose proof H as (? & ? & _). rewrite rdn_in by (auto using len_nonneg). f_equal.
  unfold len. rewrite Nat2Z.id. by apply holds_slice.
Qed.

Lemma holds_rd d p bs j : holds_at d p bs -> 0 <= j < len bs -> rd d (p + j) = Val (nthz bs j).
Proof. intros (? & ? & Hn) Hj. rewrite rd_in by lia. by rewrite Hn. Qed.

Lemma holds_app d p b1 b2 : holds_at d p (b1 ++ b2) -> holds_at d p b1 /\ holds_at d (p + len b1) b2.
Proof.
  intros (Hp & Hl & Hn). rewrite len_app in *. pose proof (len_nonneg b1). pose proof (len_nonneg b2).
  split; split_and!; try lia; intros j Hj.
  - rewrite Hn by lia. by apply nthz_app_l.
  - rewrite <- Z.add_assoc, Hn by lia. rewrite nthz_app_r by lia. f_equal. lia.
Qed.

Lemma added_holds P P' type class ttl payload r s : wf P' -> 0 <= p_end P < 2 ^ 16 -> dns_rr_parse s (p_end P) P' = Val (inr r) ->
  added P P' type class ttl payload r -> holds_at (p_data P') (rr_rd_p r) payload.
Proof.
  intros HP' Hp Hparse Had. destruct (rr_parse_ok P' HP' s (p_end P) Hp) as (res & Hres & Hb). rewrite Hparse in Hres. injection Hres as <-.
  destruct (Hb r eq_refl) as [(_ & _ & _ & _ & H0 & _ & _) _]. pose proof (wf_bounds P' HP') as [? ?].
  split_and!; [done| |apply Had]. rewrite (ad_end _ _ _ _ _ _ _ Had). lia.
Qed.

(** The strings of a text, read one after another. *)
Lemma txt_loop_chunks P : forall n m src p acc cap, Forall byte src -> (length src <= n)%nat -> (length src < m)%nat ->
  holds_at (p_data P) p (chunks n src) -> len acc + len src <= cap -> cap < 2 ^ 64 -> len (p_data P) < 2 ^ 64 ->
  txt_loop m p (p + len (chunks n src)) cap acc P = Val (inr (acc ++ src)).
Proof.
  induction n as [|n IH]; intros m src p acc cap Hb Hn Hm Hh Hcap Hc64 Hd; (destruct m as [|m]; [lia|]); (destruct src as [|x src];
    [rewrite chunks_nil; cbn; rewrite Z.add_0_r, Z.ltb_irrefl; by rewrite app_nil_r|]); [cbn in Hn; lia|].
  set (s := x :: src) in *. set (k := Z.min 255 (len s)) in *.
  assert (chunks (S n) s = [k] ++ take 255 s ++ chunks n (drop 255 s)) as Hch by done.
  assert (len (take 255 s) = k) as Hk by (unfold k, len; rewrite length_take; lia).
  assert (0 < k <= 255) as Hk255 by (unfold k, s; rewrite len_cons; pose proof (len_nonneg src); lia).
  assert (len s = k + len (drop 255 s)) as Hs by (rewrite <- Hk, <- len_app; by rewrite take_drop).
  rewrite Hch in *. rewrite !len_app, Hk. change (len [k]) with 1. set (tail := chunks n (drop 255 s)) in *.
  pose proof (len_nonneg tail). pose proof (len_nonneg (drop 255 s)). pose proof (len_nonneg acc).
  pose proof Hh as (Hp & Hle & _). rewrite !len_app, Hk in Hle. change (len [k]) with 1 in Hle.
  apply holds_app in Hh as [G1 G23]. apply holds_app in G23 as [G2 G3]. rewrite Hk in G3. change (len [k]) with 1 in G2, G3.
  cbn [txt_loop]. destruct (Z.ltb_spec p (p + (1 + (k + len tail)))); [|lia].
  pose proof (holds_rd _ _ _ 0 G1 ltac:(done)) as Hr. rewrite Z.add_0_r in Hr. rewrite Hr. change (nthz [k] 0) with k. cbn [mbind out_bind].
  rewrite (land_255_byte k) by (unfold byte; lia). rewrite !sub64_id by lia.
  destruct (Z.ltb_spec (p + (1 + (k + len tail)) - (p + 1)) k); [lia|].
  destruct (Z.ltb_spec (cap - len acc) k); [lia|]. cbn [orb]. rewrite <- Hk at 1. rewrite (holds_rdn _ _ _ G2). cbn [mbind out_bind].
  replace (p + (1 + (k + len tail))) with (p + 1 + k + len tail) by lia.
  assert (length (drop 255 s) < length s)%nat by (rewrite length_drop; unfold s; cbn; lia).
  unfold tail. rewrite IH; [by rewrite <- app_assoc, take_drop|by apply Forall_drop|lia|lia|done| |done|done].
  rewrite len_app, Hk. lia.
Qed.

(** The types of data that hold no names, each with its contents: an address of
    32 bits, one of 16 bytes, a SHA-1 fingerprint, a text of at most [cap] bytes,
    and the bytes of a type libdns has no parser for. *)
Definition no_parser (t : Z) : bool :=
  negb (existsb (Z.eqb t) [DNS_T_A; DNS_T_AAAA; DNS_T_MX; DNS_T_NS; DNS_T_CNAME; DNS_T_PTR; DNS_T_SOA; DNS_T_SRV; DNS_T_TXT; DNS_T_SPF; DNS_T_SSHFP]).

Inductive flat (cap : Z) : any -> Z -> Prop :=
  | flat_a x : 0 <= x < 2 ^ 32 -> flat cap (AnyA x) DNS_T_A
  | flat_aaaa x : length x = 16%nat -> Forall byte x -> flat cap (AnyAAAA x) DNS_T_AAAA
  | flat_sshfp algo x : byte algo -> length x = 20%nat -> Forall byte x -> flat cap (AnySSHFP (Sshfp algo DNS_SSHFP_SHA1 x)) DNS_T_SSHFP
  | flat_txt x t : t = DNS_T_TXT \/ t = DNS_T_SPF -> Forall byte x -> len x <= cap -> flat cap (AnyTXT x) t
  | flat_other x t : no_parser t = true -> Forall byte x -> len x <= cap -> flat cap (AnyTXT x) t.

Lemma flat_any_ok cap a t : flat cap a t -> any_ok a.
Proof. by destruct 1. Qed.

(** The bytes of such data. *)
Definition flat_bytes (a : any) (t : Z) : list Z :=
  match a with
  | AnyA x => four x
  | AnyAAAA x => x
  | AnySSHFP s => [Z.land 255 (fp_algo s); Z.land 255 (fp_type s)] ++ fp_digest s
  | AnyTXT x => if (t =? DNS_T_TXT) || (t =? DNS_T_SPF) then chunks (S (length x)) x else x
  | _ => []
  end.

Lemma no_parser_push fuel cap t P r d : no_parser t = true -> rr_type r = t ->
  dns_any_push fuel P (AnyTXT d) t = (if room P <? len d + 2 then fail P DNS_ENOBUFS else P ← put_bytes P (two (len d) ++ d); ok P) /\
  dns_any_parse fuel cap r P = (if cap <? rr_rd_len r then Val (inl DNS_EILLEGAL)
                                else x ← rdn (p_data P) (rr_rd_p r) (rr_rd_len r); Val (inr (AnyTXT x))).
Proof.
  unfold no_parser. cbn [existsb]. rewrite negb_true_iff, !orb_false_iff.
  intros (H1 & H2 & H3 & H4 & H5 & H6 & H7 & H8 & H9 & H10 & H11 & _) Ht. unfold dns_any_push, dns_any_parse.
  by rewrite !Ht, H1, H2, H3, H4, H5, H6, H7, H8, H9, H10, H11.
Qed.

Lemma no_parser_bytes x t : no_parser t = true -> flat_bytes (AnyTXT x) t = x.
Proof.
  cbn [flat_bytes]. unfold no_parser. cbn [existsb]. rewrite negb_true_iff, !orb_false_iff.
  by intros (_ & _ & _ & _ & _ & _ & _ & _ & -> & -> & _).
Qed.

Lemma flat_push_is cap fuel a t P P' : wf P -> p_size P < 2 ^ 16 -> flat cap a t ->
  dns_any_push fuel P a t = Val (P', None) -> rdata_is P P' None (flat_bytes a t).
Proof.
  intros HP Hsz [x Hx|x Hl Hb|algo x Ha Hl Hb|x t' Ht Hb Hc|x t' Ht Hb Hc].
  - apply (a_push_is P HP Hsz).
  - by apply (aaaa_push_is P HP Hsz).
  - by apply (sshfp_push_is P HP Hsz (Sshfp algo DNS_SSHFP_SHA1 x)).
  - destruct Ht as [-> | ->]; by apply (txt_push_is P HP Hsz).
  - destruct (no_parser_push fuel cap t' P (RR 0 0 0 t' 0 0 0 0) x Ht eq_refl) as [-> _].
    destruct (Z.ltb_spec (room P) (len x + 2)); [done|].
    destruct (block_res P HP Hsz (two (len x) ++ x) x) as (P1 & -> & Hr); [done|done|rewrite len_app; change (len (two (len x))) with 2; lia|].
    intros [= <-]. by rewrite (no_parser_bytes x t' Ht).
Qed.

Lemma flat_parse cap fuel a t P r : wf P -> cap < 2 ^ 64 -> flat cap a t -> rr_type r = t -> rr_rd_len r = len (flat_bytes a t) ->
  holds_at (p_data P) (rr_rd_p r) (flat_bytes a t) -> dns_any_parse fuel cap r P = Val (inr a).
Proof.
  intros HP Hc64 Hf. pose proof (wf_len P HP). pose proof (wf_size P HP).
  destruct Hf as [x Hx|x Hl Hb|algo x Ha Hl Hb|x t' Ht Hb Hc|x t' Ht Hb Hc]; intros Hty Hrl Hh.
  - unfold dns_any_parse. rewrite Hty. cbn [Z.eqb DNS_T_A Pos.eqb]. unfold dns_a_parse. rewrite Hrl. cbn [negb flat_bytes].
    change (len (flat_bytes (AnyA x) DNS_T_A) =? 4) with true. cbn [negb].
    rewrite !(holds_rd _ _ _ _ Hh) by done. cbn [mbind out_bind].
    change (nthz (flat_bytes (AnyA x) DNS_T_A) 0) with (Z.land 255 (Z.shiftr x 24)). change (nthz (flat_bytes (AnyA x) DNS_T_A) 1) with (Z.land 255 (Z.shiftr x 16)).
    change (nthz (flat_bytes (AnyA x) DNS_T_A) 2) with (Z.land 255 (Z.shiftr x 8)). change (nthz (flat_bytes (AnyA x) DNS_T_A) 3) with (Z.land 255 (Z.shiftr x 0)).
    rewrite be32 by apply land_255.
    assert (forall y, Z.land 255 (Z.land 255 y) = Z.land 255 y) as Hid by (intros; by rewrite Z.land_assoc). rewrite !Hid, !land_shift by lia.
    pose proof (proj1 (four_bytes x ltac:(lia))) as ->. by rewrite Z.mod_small.
  - assert (len x = 16) as Hlx by (unfold len; lia). unfold dns_any_parse. rewrite Hty. change (dns_aaaa_parse r P = Val (inr (AnyAAAA x))). unfold dns_aaaa_parse. cbn [flat_bytes] in *.
    rewrite Hrl, Hlx. cbn [Z.eqb Pos.eqb negb]. rewrite <- Hlx, (holds_rdn _ _ _ Hh). done.
  - assert (len x = 20) as Hlx by (unfold len; lia). unfold dns_any_parse. rewrite Hty. change (dns_sshfp_parse [] r P = Val (inr (AnySSHFP (Sshfp algo DNS_SSHFP_SHA1 x)))).
    cbn [flat_bytes fp_algo fp_type fp_digest] in *. rewrite (land_255_byte algo Ha) in *. unfold dns_sshfp_parse. rewrite Hrl.
    apply holds_app in Hh as [G1 G2]. rewrite len_app, Hlx. change (len [algo; _]) with 2 in *. set (p := rr_rd_p r) in *.
    destruct (Z.ltb_spec (p + (2 + 20) - p) 2); [lia|]. pose proof (holds_rd _ _ _ 0 G1 ltac:(done)) as R0. rewrite Z.add_0_r in R0.
    rewrite R0, (holds_rd _ _ _ 1 G1) by done. cbn [mbind out_bind]. change (nthz [algo; _] 0) with algo.
    change (nthz [algo; Z.land 255 DNS_SSHFP_SHA1] 1) with DNS_SSHFP_SHA1. rewrite Z.eqb_refl.
    destruct (Z.ltb_spec (p + (2 + 20) - (p + 2)) 20); [lia|]. rewrite <- Hlx at 1. by rewrite (holds_rdn _ _ _ G2).
  - assert (dns_any_parse fuel cap r P = dns_txt_parse cap r P) as -> by (unfold dns_any_parse; rewrite Hty; by destruct Ht as [-> | ->]).
    assert (flat_bytes (AnyTXT x) t' = chunks (S (length x)) x) as Hfb by (cbn [flat_bytes]; by destruct Ht as [-> | ->]).
    rewrite Hfb in *. unfold dns_txt_parse. rewrite Hrl. rewrite txt_loop_chunks; [done|done|lia| |done|done|done|lia].
    rewrite len_chunks by lia. unfold len. assert (0 <= (Z.of_nat (length x) + 254) / 255) by (apply Z.div_pos; lia). lia.
  - destruct (no_parser_push fuel cap t' P r x Ht Hty) as [_ ->].
    rewrite (no_parser_bytes x t' Ht) in *. rewrite Hrl. destruct (Z.ltb_spec cap (len x)); [lia|]. by rewrite (holds_rdn _ _ _ Hh).
Qed.

(** Such data is appended whenever there is room for it. *)
Lemma flat_push_room cap fuel a t P : wf P -> p_size P < 2 ^ 16 -> flat cap a t -> 2 + len (flat_bytes a t) <= room P ->
  exists P', dns_any_push fuel P a t = Val (P', None).
Proof.
  intros HP Hsz Hf. pose proof (room_eq P HP) as Hroom. pose proof (wf_len P HP) as Hlen. pose proof (wf_end P HP).
  destruct Hf as [x Hx|x Hl Hb|algo x Ha Hl Hb|x t' Ht Hb Hc|x t' Ht Hb Hc]; intros Hr.
  - change (len (flat_bytes (AnyA x) DNS_T_A)) with 4 in Hr. change (exists P', dns_a_push P x = Val (P', None)).
    unfold dns_a_push. destruct (Z.ltb_spec (room P) 6); [lia|].
    destruct (put_bytes_ok P ([0; 4] ++ four x) HP) as (P' & -> & _); [done|apply Forall_app; split; [repeat constructor; lia|auto]|]. by exists P'.
  - cbn [flat_bytes] in Hr. assert (len x = 16) as Hlx by (unfold len; lia). change (exists P', dns_aaaa_push P x = Val (P', None)).
    unfold dns_aaaa_push. destruct (Z.ltb_spec (room P) 18); [lia|].
    destruct (put_bytes_ok P ([0; 16] ++ x) HP) as (P' & -> & _); [rewrite len_app; change (len [0; 16]) with 2; lia|apply Forall_app; split; [repeat constructor; lia|auto]|]. by exists P'.
  - cbn [flat_bytes fp_digest fp_algo fp_type] in Hr. assert (len x = 20) as Hlx by (unfold len; lia). rewrite len_app, Hlx in Hr. change (len [_; _]) with 2 in Hr.
    set (s := Sshfp algo DNS_SSHFP_SHA1 x). change (exists P', dns_sshfp_push P s = Val (P', None)). unfold dns_sshfp_push.
    assert (forall z, 0 <= z <= p_size P -> w32 (p_size P - z) = p_size P - z) as Hw by (intros; unfold w32; apply Z.mod_small; lia).
    rewrite Hw by lia. destruct (Z.ltb_spec (p_size P - p_end P) 4); [lia|].
    rewrite wrn_ok by (change (len [_; _]) with 2; lia). cbn [mbind out_bind]. change (fp_type s =? DNS_SSHFP_SHA1) with true. cbn match.
    rewrite Hw by lia. destruct (Z.ltb_spec (p_size P - (p_end P + 4)) 20); [lia|]. change (fp_digest s) with x.
    set (w := [Z.land 255 (fp_algo s); Z.land 255 (fp_type s)]). assert (len w = 2) as Hlw by done.
    rewrite wrn_ok by (rewrite ?len_wrn; lia). cbn [mbind out_bind].
    rewrite wrn_ok by (rewrite ?len_wrn; change (len (two _)) with 2; rewrite ?len_wrn; lia). by eexists.
  - assert (flat_bytes (AnyTXT x) t' = chunks (S (length x)) x) as Hfb by (cbn [flat_bytes]; by destruct Ht as [-> | ->]).
    assert (dns_any_push fuel P (AnyTXT x) t' = dns_txt_push P x) as -> by (by destruct Ht as [-> | ->]).
    rewrite Hfb in Hr. pose proof (len_nonneg (chunks (S (length x)) x)). unfold dns_txt_push. destruct (Z.ltb_spec (room P) 2); [lia|].
    rewrite wrn_ok by (change (len (two _)) with 2; lia). cbn [mbind out_bind]. set (d := take _ _ ++ _).
    assert (len d = p_size P) as Hd by (unfold d; rewrite len_wrn; change (len (two _)) with 2; lia).
    pose proof (txt_push_loop_ok (S (length x)) x d (p_end P + 2) (p_size P) ltac:(lia) ltac:(lia) Hd ltac:(lia)) as Hloop.
    destruct (Z.leb_spec (p_end P + 2 + len (chunks (S (length x)) x)) (p_size P)); [|lia]. rewrite Hloop. by eexists.
  - rewrite (no_parser_bytes x t' Ht) in Hr. destruct (no_parser_push fuel cap t' P (RR 0 0 0 t' 0 0 0 0) x Ht eq_refl) as [-> _].
    destruct (Z.ltb_spec (room P) (len x + 2)); [lia|].
    destruct (put_bytes_ok P (two (len x) ++ x) HP) as (P' & -> & _); [rewrite len_app; change (len (two _)) with 2; lia|apply Forall_app; auto|]. by exists P'.
Qed.
