(* ===== verification/DnsIter.v ===== *)
(** The record iterators of libdns against a reference: one pass over the packet. *)

From stdpp Require Import prelude.
From Stdlib Require Import ZArith Lia.
From S2P Require Import Prelude DnsBase DnsName DnsRr DnsRrSpec DnsRdata DnsPacket.
Local Open Scope Z_scope.

Section Iter.
Context (fuel : nat) (junk rnd : Z) (P : packet) (HP : wf P).
Abbreviation e := (p_end P).
Abbreviation cand := (candidate fuel junk).
Abbreviation grep := (dns_rr_grep fuel junk rnd).

(** The records from [rp] on that match, in one pass. *)
Fixpoint scan (n : nat) (i : rr_i) (rp : Z) : out (list rr) :=
  match n with
  | O => Loop
  | S n' =>
      if rp <? e then
        c ← cand i rp P;
        rp' ← dns_rr_skip rp P;
        rest ← scan n' i rp';
        Val (match c with Some r => r :: rest | None => rest end)
      else Val []
  end.

Lemma candidate_state i n c x r rp : cand (set_state i n c x r) rp P = cand i rp P.
Proof. done. Qed.
Lemma candidate_sort i s rp : cand (set_sort i s) rp P = cand i rp P.
Proof. done. Qed.

Lemma scan_ext i j : (forall rp, cand i rp P = cand j rp P) -> forall n rp, scan n i rp = scan n j rp.
Proof.
  intros Hij. induction n as [|n IH]; intros rp; [done|]. cbn [scan]. rewrite Hij. case_match; [|done].
  destruct (cand j rp P) as [c| |]; [|done..]. cbn [mbind out_bind]. destruct (dns_rr_skip rp P) as [q| |]; [|done..]. cbn [mbind out_bind]. by rewrite IH.
Qed.

Lemma scan_fuel i : forall n m rp, 0 <= rp < 2 ^ 16 -> e - rp < Z.of_nat n -> e - rp < Z.of_nat m -> (0 < n)%nat -> (0 < m)%nat ->
  scan n i rp = scan m i rp.
Proof.
  induction n as [|n IH]; intros [|m] rp Hrp Hn Hm ? ?; try lia. cbn [scan]. destruct (Z.ltb_spec rp e); [|done].
  destruct (cand i rp P) as [c| |]; [|done..]. cbn [mbind out_bind]. destruct (rr_skip_ok P HP rp Hrp) as (q & -> & Hq & Hlt). cbn [mbind out_bind].
  pose proof (wf_bounds P HP). rewrite (IH m q); [done|lia..].
Qed.

Lemma candidate_Some i rp r : 0 <= rp < 2 ^ 16 -> cand i rp P = Val (Some r) ->
  rr_dn_p r = rp /\ rp < e /\ rr_at rp P = Val (inr r).
Proof.
  intros Hrp. unfold candidate. intros ([er|r'] & Hat & Hc)%bind_Val; [done|].
  apply bind_Val in Hc as (m & _ & Hm). destruct m; [|done]. injection Hm as ->. split_and!; [| |done].
  all: unfold rr_at in Hat; apply bind_Val in Hat as ([er|r0] & Hp & Hs); [done|]; apply bind_Val in Hs as (s & _ & [= <-]);
    destruct (rr_parse_ok P HP 0 rp Hrp) as (res & Hres & Hb); rewrite Hp in Hres; injection Hres as <-; destruct (Hb r0 eq_refl) as [[? _] ?]; done.
Qed.

(** The position [rp] of an iterator that has [rs] left to deliver. *)
Definition left_at (i : rr_i) (rp : Z) (rs : list rr) : Prop :=
  match rs with
  | [] => rp = e
  | r :: rs' => rp = rr_dn_p r /\ 0 <= rp < e /\ cand i rp P = Val (Some r) /\
                exists q, dns_rr_skip rp P = Val q /\ scan (steps P) i q = Val rs'
  end.

Lemma left_at_ext i j p rs : (forall rp, cand i rp P = cand j rp P) -> left_at i p rs -> left_at j p rs.
Proof.
  intros Hij. destruct rs as [|r rs]; [done|]. unfold left_at. rewrite (Hij p).
  intros (? & ? & ? & q & ? & Hs). do 3 (split; [done|]). exists q. by rewrite <- (scan_ext i j).
Qed.

Lemma find_scan i r0 : by_packet i = true -> forall n rp rs, 0 <= rp < 2 ^ 16 -> (forall r1, r0 = Some r1 -> rr_dn_p r1 < rp) ->
  e - rp < Z.of_nat n -> scan n i rp = Val rs ->
  exists f, find_from fuel junk n i r0 rp P = Val f /\
    match f with
    | None => rs = []
    | Some (p, r) => exists rs', rs = r :: rs' /\ p = rr_dn_p r /\ left_at i p rs /\ rp <= p
    end.
Proof.
  intros Hby. induction n as [|n IH]; intros rp rs Hrp Hr0 Hn Hs; [done|]. cbn [scan find_from] in Hs |- *. pose proof (wf_bounds P HP).
  destruct (Z.ltb_spec rp e); [|injection Hs as <-; by exists None].
  apply bind_Val in Hs as (c & Hc & Hs). apply bind_Val in Hs as (q & Hq & Hs). apply bind_Val in Hs as (rest & Hrest & [= <-]).
  destruct (rr_skip_ok P HP rp Hrp) as (q' & Hq' & Hqe & Hlt). rewrite Hq in Hq'. injection Hq' as <-.
  rewrite Hc. cbn [mbind out_bind]. destruct c as [r|].
  - destruct (candidate_Some i rp r Hrp Hc) as (Hdn & _ & Hat).
    assert (after_r0 fuel junk i r0 (Some r) P = Val (Some r)) as ->.
    { destruct r0 as [r1|]; [|done]. cbn. unfold sort. unfold by_packet in Hby. destruct (i_sort i); try done. cbn. unfold dns_rr_i_packet.
      specialize (Hr0 r1 eq_refl). destruct (Z.leb_spec (rr_dn_p r - rr_dn_p r1) 0); [lia|done]. }
    cbn [mbind out_bind]. exists (Some (rp, r)). split; [done|]. exists rest. split_and!; [done|done| |lia].
    split_and!; [done|lia|lia|done|]. exists q. split; [done|]. destruct n as [|n]; [done|].
    rewrite (scan_fuel i _ (S n)); [done|unfold steps; lia..].
  - assert (after_r0 fuel junk i r0 None P = Val None) as -> by (by destruct r0). cbn [mbind out_bind]. rewrite Hq. cbn [mbind out_bind].
    destruct (IH q rest) as (f & -> & Hf); [lia|intros r1 ->; specialize (Hr0 r1 eq_refl); lia|lia|done|].
    exists f. split; [done|]. destruct f as [[p r]|]; [|done]. destruct Hf as (rs' & -> & -> & ? & ?). exists rs'. split_and!; [done..|lia].
Qed.

Lemma i_skip_left i r rs : by_packet i = true -> left_at i (rr_dn_p r) (r :: rs) ->
  exists p, dns_rr_i_skip fuel junk (rr_dn_p r) i P = Val p /\ left_at i p rs.
Proof.
  intros Hby (_ & Hp & Hc & q & Hq & Hs). pose proof (wf_bounds P HP). unfold dns_rr_i_skip.
  destruct (candidate_Some i (rr_dn_p r) r ltac:(lia) Hc) as (_ & _ & Hat). rewrite Hat. cbn [mbind out_bind]. rewrite Hby, Hq. cbn [mbind out_bind].
  destruct (rr_skip_ok P HP (rr_dn_p r)) as (q' & Hq' & Hqe & Hlt); [lia|]. rewrite Hq in Hq'. injection Hq' as <-.
  destruct (find_scan i (Some r) Hby (steps P) q rs) as (f & -> & Hf); [lia|intros ? [= <-]; lia|unfold steps; lia|done|].
  cbn [mbind out_bind]. destruct f as [[p r']|].
  - destruct Hf as (rs' & -> & -> & Hl & _). by eexists.
  - subst rs. eexists. split; [done|]. cbn. apply w16_id. lia.
Qed.

Lemma foreach_left : forall rs k i, st_exec i = 1 -> by_packet i = true -> left_at i (st_next i) rs -> (length rs < k)%nat ->
  foreach fuel junk rnd k i P = Val rs.
Proof.
  pose proof (wf_bounds P HP). induction rs as [|r rs IH]; intros [|k] i Hx Hby Hl Hk; cbn in Hk; try lia; cbn [foreach]; unfold dns_rr_grep; rewrite Hx; cbn [Z.eqb Pos.eqb grep_loop].
  - cbn in Hl. rewrite Hl, Z.ltb_irrefl. done.
  - pose proof Hl as (Hn & Hp & Hc & _). destruct (Z.ltb_spec (st_next i) e); [|lia].
    destruct (candidate_Some i (st_next i) r ltac:(lia) Hc) as (_ & _ & Hat). rewrite Hat. cbn [mbind out_bind].
    rewrite Hn in Hl |- *. destruct (i_skip_left i r rs Hby Hl) as (p & -> & Hl'). cbn [mbind out_bind].
    set (i' := set_state i p (w16 (st_count i + 1)) (st_exec i) (st_reg0 i)).
    rewrite (IH k i'); [done|done|done|by apply (left_at_ext i)|lia].
Qed.

Lemma scan_length i : forall n rp rs, scan n i rp = Val rs -> (length rs < n)%nat.
Proof.
  induction n as [|n IH]; intros rp rs; [done|]. cbn [scan]. case_match; [|intros [= <-]; cbn; lia].
  intros (c & _ & Hs)%bind_Val. apply bind_Val in Hs as (q & _ & Hs). apply bind_Val in Hs as (rest & Hrest & [= <-]).
  apply IH in Hrest. destruct c; cbn; lia.
Qed.

(** A fresh iterator in packet order. *)
Definition started (i : rr_i) : rr_i :=
  set_state (set_sort i SortPacket) (st_next i) (st_count i) 0 (if st_reg0 i =? 0 then rnd else st_reg0 i).

Lemma grep_first i lim : st_exec i = 0 -> i_sort i = SortNone \/ i_sort i = SortPacket ->
  grep lim i P = (let j := started i in next ← dns_rr_i_start fuel junk j P; grep_loop fuel junk lim (set_state j next (st_count j) 1 (st_reg0 j)) P).
Proof.
  intros Hx Hs. unfold dns_rr_grep, started. rewrite Hx. cbn [Z.eqb]. destruct i as [? ? ? ? ? so ? ? x r0]; cbn in Hx, Hs. subst x.
  destruct Hs as [-> | ->]; cbn [i_sort set_sort st_reg0 set_state]; by case_match.
Qed.

Lemma foreach_scan i rs : st_exec i = 0 -> i_sort i = SortNone \/ i_sort i = SortPacket ->
  scan (steps P) i 12 = Val rs -> forall k, (length rs < k)%nat -> foreach fuel junk rnd k i P = Val rs.
Proof.
  intros Hx Hsort Hs [|k] Hk; [lia|]. pose proof (wf_bounds P HP).
  set (j := started i).
  assert (scan (steps P) j 12 = Val rs) as Hj by (by rewrite <- Hs; apply scan_ext).
  destruct (find_scan j None eq_refl (steps P) 12 rs) as (f & Hf & Hr); [lia|done|unfold steps; lia|done|].
  assert (exists p, dns_rr_i_start fuel junk j P = Val p /\ left_at j p rs) as (p & Hstart & Hl).
  { unfold dns_rr_i_start. rewrite Hf. cbn [mbind out_bind]. destruct f as [[p r]|].
    - destruct Hr as (rs' & -> & -> & Hl & _). by eexists.
    - subst rs. eexists. split; [done|]. cbn. apply w16_id. lia. }
  set (j1 := set_state j p (st_count j) 1 (st_reg0 j)).
  assert (left_at j1 (st_next j1) rs) as Hl1 by (by apply (left_at_ext j)).
  pose proof (foreach_left rs (S k) j1 eq_refl eq_refl Hl1 ltac:(lia)) as Hfe.
  cbn [foreach] in Hfe |- *. rewrite (grep_first i 1 Hx Hsort). cbv zeta. fold j. rewrite Hstart. cbn [mbind out_bind].
  exact Hfe.
Qed.
End Iter.
