(* ===== verification/DnsPacketThm.v ===== *)
(** Properties of the packet builder and of the record routines of libdns. *)

From stdpp Require Import prelude.
From Stdlib Require Import ZArith Lia.
From S2P Require Import Prelude DnsBase DnsName DnsNameSpec DnsNamePush DnsRr DnsRrSpec DnsRdata DnsLayout DnsPush DnsPacket DnsPacketSpec DnsFlat DnsIter.
Local Open Scope Z_scope.

Lemma push_valid fuel P P' section dn ls type class ttl a :
  valid P -> p_size P < 2 ^ 16 -> Forall byte dn -> Forall label_ok ls -> Forall (Forall byte) ls -> ls <> [] ->
  dns_d_anchor dn = text ls -> 0 <= type < 2 ^ 16 -> 0 <= class < 2 ^ 16 -> 0 <= ttl -> any_ok a ->
  dns_p_push fuel P section dn type class ttl a = Val (P', None) -> pushed_one P P' section.
Proof.
  intros HV Hsz Hdn Hok Hb Hne Htext Ht Hc Httl Ha Hpush. destruct (Z.eq_dec section DNS_S_QD) as [->|Hs].
  - by eapply (p_push_question fuel P dn ls type class ttl).
  - destruct (p_push_steps fuel P dn ls type class ttl section (proj1 HV) Hsz Hdn Hok Hb Hne Htext a P' Hs Hpush) as (P1 & P3 & P4 & Hst).
    pose proof Hst as [_ (b0 & Ha0) _ Hf Hd _]. pose proof (appends_trans _ _ _ _ _ (proj1 HV) Ha0 Hf) as H03.
    apply any_push_res in Hd as (payload & Hp & Hl); [|by eapply appends_wf; [apply HV|..]|by rewrite (pu_size _ _ _ (proj1 H03))|done].
    eapply (p_push_record fuel P dn type class ttl section HV Hsz Ht Hc a P' P1 P3 P4 payload); done.
Qed.

(** C8: pushing keeps a packet in order. When a packet's header counts, its section
    memos and its bytes agree, and [dns_p_push] reports success for a record
    whose owner is a name of proper labels, they agree again: the count of the
    section is one higher and the others are unchanged, every byte after the
    header is still in place, and the memos describe the new sections. *)
Theorem push_keeps_packet_valid fuel P P' section dn ls type class ttl a :
  valid P -> p_size P < 2 ^ 16 -> Forall byte dn -> Forall label_ok ls -> Forall (Forall byte) ls -> ls <> [] ->
  dns_d_anchor dn = text ls -> 0 <= type < 2 ^ 16 -> 0 <= class < 2 ^ 16 -> 0 <= ttl -> any_ok a ->
  dns_p_push fuel P section dn type class ttl a = Val (P', None) -> pushed_one P P' section.
Proof. apply push_valid. Qed.

(** C24: a push that fails, for whatever reason, leaves the packet as it was: the
    end, the bytes before it, the section memos and the validity of the whole
    are those before the call. *)
Theorem failed_push_restores fuel P P' section dn type class ttl a e :
  valid P -> p_size P < 2 ^ 16 -> Forall byte dn -> any_ok a ->
  dns_p_push fuel P section dn type class ttl a = Val (P', Some e) ->
  valid P' /\ p_end P' = p_end P /\ p_size P' = p_size P /\ same_below (p_end P) (p_data P) (p_data P') /\
  p_qd P' = p_qd P /\ p_an P' = p_an P /\ p_ns P' = p_ns P /\ p_ar P' = p_ar P.
Proof.
  intros HV Hsz Hdn Ha Hpush. pose proof HV as (HP & _).
  apply p_push_fail in Hpush; [|done..]. split; [by eapply appends_valid|]. destruct Hpush as [Hpu []].
  split_and!; try done; [rewrite (pu_end _ _ _ Hpu); apply Z.add_0_r|apply Hpu|by eapply pushed_same].
Qed.

(** C11: build and parse. A record of a type whose data holds no name (A, AAAA,
    SSHFP, TXT, SPF or a type without a parser), pushed with any owner name and
    section, is found by [dns_rr_parse] where the packet ended before, with its
    type, class and TTL, and [dns_any_parse] returns the value that was pushed. *)
Theorem pushed_record_roundtrip fuel fuel' P P' section dn ls type class ttl cap a s :
  valid P -> p_size P < 2 ^ 16 -> Forall byte dn -> Forall label_ok ls -> Forall (Forall byte) ls -> ls <> [] ->
  dns_d_anchor dn = text ls -> 0 <= type < 2 ^ 16 -> 0 <= class < 2 ^ 16 -> 0 <= ttl < 2 ^ 31 ->
  section <> DNS_S_QD -> flat cap a type -> cap < 2 ^ 64 ->
  dns_p_push fuel P section dn type class ttl a = Val (P', None) ->
  exists r, dns_rr_parse s (p_end P) P' = Val (inr r) /\ rr_type r = type /\ rr_class r = class /\ rr_ttl r = ttl /\
    dns_any_parse fuel' cap r P' = Val (inr a).
Proof.
  intros HV Hsz Hdn Hok Hb Hne Htext Ht Hc Httl Hs Hf Hcap Hpush.
  destruct (p_push_payload fuel P dn ls type class ttl section HV Hsz Hdn Hok Hb Hne Htext Ht Hc a P' (flat_bytes a type) ltac:(lia) Hs Hpush) as [Hone Hr].
  { intros P3 P4 ? ? ?. by eapply flat_push_is. }
  destruct (Hr s) as (r & Hparse & Had). assert (wf P') as HP' by apply Hone.
  pose proof (wf_end P (proj1 HV)). pose proof (wf_short P (proj1 HV)).
  exists r. split_and!; try apply Had; [done|rewrite (ad_ttl _ _ _ _ _ _ _ Had), Z.mod_small by lia; done|].
  eapply flat_parse; [done|done|done|apply Had|apply Had|]. eapply (added_holds P P' type class ttl _ r s); [done|lia|done|done].
Qed.

(** total correctness of the push of such a record when its owner is the first
    name of the packet: with room for the name, the ten bytes of fixed fields
    and the data, [dns_p_push] succeeds exactly when no record of a later
    section is there already, and returns DNS_EORDER otherwise. *)
Theorem first_push_succeeds fuel P section dn ls type class ttl cap a :
  valid P -> p_size P < 2 ^ 16 -> hd 0 (p_dict P) = 0 -> Forall byte dn -> Forall label_ok ls -> Forall (Forall byte) ls -> ls <> [] ->
  dns_d_anchor dn = text ls -> (S (length ls) < fuel)%nat ->
  0 <= type < 2 ^ 16 -> 0 <= class < 2 ^ 16 -> 0 <= ttl -> flat cap a type -> section ∈ [DNS_S_AN; DNS_S_NS; DNS_S_AR] ->
  p_end P + len (wire ls) + 10 + len (flat_bytes a type) <= p_size P ->
  exists P', dns_p_push fuel P section dn type class ttl a = Val (P', if in_order P section then None else Some DNS_EORDER).
Proof.
  intros HV Hsz Hd Hdn Hok Hb Hne Htext Hf Ht Hc Httl Hflat Hs Hfit. pose proof HV as (HP & qa & qb & qc & Hl & Hm). pose proof (len_nonneg (flat_bytes a type)).
  destruct (d_push_first P ls dn fuel HP Hsz Hd Hok Hb Hne Htext ltac:(lia) Hf) as (P1 & Hpush & Hpu & _).
  unfold dns_p_push. rewrite Hpush. cbn [mbind out_bind].
  destruct (d_push_inv fuel P dn P1 None HP Hdn Hpush) as (b0 & Ha0 & _).
  assert (p_end P1 = p_end P + len (wire ls)) as He1 by apply Hpu. pose proof (appends_wf _ _ _ HP Hsz Ha0) as HP1.
  assert (room P1 = p_size P - p_end P - len (wire ls)) as Hr1 by (rewrite room_eq, (pu_size _ _ _ Hpu) by done; lia).
  destruct (Z.ltb_spec (room P1) 4); [lia|].
  destruct (put_bytes_room P1 (two type ++ two class) HP1 ltac:(done) (Forall_fields _ _)) as (P2 & -> & Ha2 & Hr2). cbn [mbind out_bind].
  change (len (two type ++ two class)) with 4 in Hr2. pose proof (appends_trans _ _ _ _ _ HP Ha0 Ha2) as Ha02.
  pose proof (appends_wf _ _ _ HP Hsz Ha02) as HP2.
  assert ((section =? DNS_S_QD) = false) as -> by (rewrite !elem_of_cons, elem_of_nil in Hs; by destruct_or! Hs; subst).
  destruct (Z.ltb_spec (room P2) 6); [lia|]. fold (ttl4 ttl).
  destruct (put_bytes_room P2 (ttl4 ttl) HP2) as (P3 & -> & Ha3 & Hr3); [change (len (ttl4 ttl)) with 4; lia|apply Forall_ttl4|]. cbn [mbind out_bind].
  change (len (ttl4 ttl)) with 4 in Hr3. pose proof (appends_trans _ _ _ _ _ HP Ha02 Ha3) as Ha03. pose proof (appends_wf _ _ _ HP Hsz Ha03) as HP3.
  assert (p_size P3 < 2 ^ 16) as Hsz3 by (by rewrite (pu_size _ _ _ (proj1 Ha03))).
  destruct (flat_push_room cap fuel a type P3 HP3 Hsz3 Hflat ltac:(lia)) as (P4 & Hany). rewrite Hany. cbn [mbind out_bind].
  destruct (flat_push_is cap fuel a type P3 P4 HP3 Hsz3 Hflat Hany) as [Ha4 _]. pose proof (appends_trans _ _ _ _ _ HP Ha03 Ha4) as Ha04.
  pose proof (appends_wf _ _ _ HP Hsz Ha04) as HP4. pose proof (wf_end P HP).
  destruct (p_update_total P4 (p_end P) section qa qb qc HP4) as (P' & ->);
    [by eapply (layout_frame P)|by eapply (memos_frame P); [apply Ha04|]|rewrite !elem_of_cons in *; tauto|].
  exists P'. do 2 f_equal. pose proof (appends_agree _ _ _ HP Ha04) as Hag. unfold in_order.
  by rewrite !(agree_u16 _ _ _ _ _ Hag) by lia.
Qed.

(** C35: whatever the bytes of a packet are, [dns_rr_parse] and [dns_rr_skip] return
    from every offset without leaving the buffer; a record that is returned has
    its data inside the packet and its fields in range, and skipping goes
    forward, so that walks over the records end. *)
Theorem record_access_safe P s p : wf P -> 0 <= p < 2 ^ 16 ->
  (exists res, dns_rr_parse s p P = Val res /\ forall r, res = inr r -> rr_bounds P p r /\ p < p_end P) /\
  (exists q, dns_rr_skip p P = Val q /\ 0 <= q <= p_end P /\ (p < p_end P -> p < q)).
Proof. intros HP Hp. split; [by apply rr_parse_ok|by apply rr_skip_ok]. Qed.

(** [dns_p_study] finds the sections: when the counts of the header describe
    questions and records that follow each other, the four memos are the extents
    of the four sections. *)
Theorem study_finds_sections P a b c f : wf P -> layout (p_data P) (p_end P) a b c f ->
  dns_p_study P = Val (set_memos P (Memo 12 a) (Memo a b) (Memo b c) (Memo c f)).
Proof. intros HP. by apply p_study_layout. Qed.

(** C34: [dns_rr_foreach] in packet order delivers exactly the records that match,
    each once and in the order of the packet: the same list as one pass that
    tests every record. *)
Theorem foreach_is_scan fuel junk rnd P i rs : wf P -> st_exec i = 0 -> i_sort i = SortNone \/ i_sort i = SortPacket ->
  scan fuel junk P (steps P) i 12 = Val rs -> foreach fuel junk rnd (steps P) i P = Val rs.
Proof. intros HP Hx Hs Hr. eapply foreach_scan; [done..|by eapply scan_length]. Qed.

(** ** Growing *)

Lemma grow_size_pow n : 0 < n < 2 ^ 16 -> grow_size n = 2 ^ (Z.log2 n + 1).
Proof.
  intros Hn. apply Z.eqb_eq, (all_from_ok (fun n => grow_size n =? 2 ^ (Z.log2 n + 1)) (Z.to_nat 65535) 1); [vm_compute; reflexivity|lia].
Qed.

Lemma grow_size_over n : 0 < n < 2 ^ 16 -> n < grow_size n <= 2 ^ 16.
Proof.
  intros Hn. rewrite grow_size_pow by done. pose proof (Z.log2_spec n ltac:(lia)) as [_ Hlt]. rewrite Z.add_1_r. split; [done|].
  apply Z.pow_le_mono_r; [lia|]. pose proof (proj1 (Z.log2_lt_pow2 n 16 ltac:(lia)) ltac:(lia)). lia.
Qed.

Section Grow.
(** What [realloc] promises: a buffer of the new size that starts with the old
    contents. *)
Context (malloc : Z -> option (list Z)) (realloc : list Z -> Z -> option (list Z)).
Context (realloc_spec : forall d n d', Forall byte d -> 0 <= n -> realloc d n = Some d' ->
  len d' = n /\ Forall byte d' /\ forall k, k <= len d -> k <= n -> same_below k d d').

(** [dns_p_grow] doubles. While the packet in use is below the limit, the new
    packet is well formed, holds the same bytes, memos and dictionary, and its
    size is the power of two above the size of the structure in use, so that
    there is room for at least 85 more bytes; it never fails but for memory. *)
Theorem grow_makes_room P P' : wf P -> p_end P + DNS_P_DATAOFF < 2 ^ 16 ->
  dns_p_grow malloc realloc (Some P) = (Some P', None) ->
  wf P' /\ p_end P' = p_end P /\ same_below (p_end P) (p_data P) (p_data P') /\ p_dict P' = p_dict P /\
  p_size P' = 2 ^ (Z.log2 (dns_p_sizeof P) + 1) /\ p_end P + 85 <= p_size P'.
Proof.
  intros HP Hlim. pose proof (wf_end P HP). unfold dns_p_grow.
  assert (dns_p_sizeof P = 84 + p_end P) as Hso by (unfold dns_p_sizeof, dns_p_calcsize, DNS_P_DATAOFF; lia). rewrite Hso.
  unfold DNS_P_DATAOFF in Hlim. pose proof (grow_size_over (84 + p_end P) ltac:(lia)) as Hg. rewrite <- grow_size_pow by lia.
  set (g := grow_size (84 + p_end P)) in *. destruct (65536 <? g); [done|]. rewrite Z.max_r by lia.
  destruct (realloc (p_data P) g) as [d|] eqn:Er; [|done]. intros [= <-]. apply realloc_spec in Er as (Hl & Hb & Hs); [|apply (wf_bytes P HP)|lia].
  pose proof (wf_len P HP). cbn. split_and!; try done; [|apply Hs; lia|lia]. destruct HP. split; cbn; try done; lia.
Qed.
End Grow.

(** ** The shuffle *)

Lemma lxor_byte a b : byte a -> byte b -> byte (Z.lxor a b).
Proof.
  unfold byte. intros Ha Hb. split; [apply Z.lxor_nonneg; lia|].
  destruct (Z.eq_dec (Z.lxor a b) 0) as [->|]; [lia|]. pose proof (Z.log2_lxor a b ltac:(lia) ltac:(lia)).
  assert (0 < Z.lxor a b) by (assert (0 <= Z.lxor a b) by (apply Z.lxor_nonneg; lia); lia).
  apply (Z.log2_lt_pow2 _ 8); [done|].
  assert (forall x, 0 <= x < 256 -> Z.log2 x < 8) as Hl by (intros x Hx; destruct (Z.eq_dec x 0) as [->|]; [done|apply Z.log2_lt_pow2; lia]).
  pose proof (Hl a Ha). pose proof (Hl b Hb). lia.
Qed.

Lemma sbox_byte a : byte a -> byte (nthz sbox a).
Proof. intros _. apply nthz_byte. apply Forall_forall. intros x Hx. assert (forallb (fun x => (0 <=? x) && (x <? 256)) sbox = true) as H by done.
  rewrite forallb_forall in H. apply list_elem_of_In, H in Hx. unfold byte. lia. Qed.

Lemma sbox_inj a b : byte a -> byte b -> nthz sbox a = nthz sbox b -> a = b.
Proof.
  unfold byte, nthz. intros Ha Hb He. assert (NoDup sbox) as Hn by (apply (bool_decide_unpack _); vm_compute; exact I).
  assert (Z.to_nat a = Z.to_nat b); [|lia]. assert (length sbox = 256%nat) as Hl by done.
  apply NoDup_ListNoDup in Hn. rewrite (NoDup_nth sbox 0) in Hn. apply Hn; [lia|lia|done].
Qed.

Lemma lxor_cancel a b c : Z.lxor a c = Z.lxor b c -> a = b.
Proof. intros H. assert (Z.lxor (Z.lxor a c) c = Z.lxor (Z.lxor b c) c) as H2 by (by rewrite H). by rewrite !Z.lxor_assoc, Z.lxor_nilpotent, !Z.lxor_0_r in H2. Qed.

Lemma shuffle_loop_inj n : forall a b a' b' s, byte a -> byte b -> byte a' -> byte b' ->
  byte (fst (shuffle_loop n a b s)) /\ byte (snd (shuffle_loop n a b s)) /\
  (shuffle_loop n a b s = shuffle_loop n a' b' s -> a = a' /\ b = b').
Proof.
  induction n as [|n IH]; intros a b a' b' s Ha Hb Ha' Hb'; [split_and!; [done|done|by intros [= -> ->]]|]. cbn [shuffle_loop].
  assert (byte (Z.land 255 s)) as Hs by (pose proof (land_255 s); unfold byte; lia).
  set (x := Z.lxor a (Z.land 255 s)). set (x' := Z.lxor a' (Z.land 255 s)).
  assert (byte x /\ byte x') as [Hx Hx'] by (split; by apply lxor_byte).
  set (y := Z.lxor (nthz sbox x) b). set (y' := Z.lxor (nthz sbox x') b').
  assert (byte y /\ byte y') as [Hy Hy'] by (split; apply lxor_byte; auto using sbox_byte).
  destruct (IH y (Z.lxor (nthz sbox b) y) y' (Z.lxor (nthz sbox b') y') (Z.shiftr s 8)) as (H1 & H2 & H3); auto using lxor_byte, sbox_byte.
  split_and!; [done..|]. intros [Ey Eb]%H3. rewrite Ey in Eb. apply lxor_cancel, sbox_inj in Eb; [|done..]. subst b'. split; [|done].
  unfold y, y' in Ey. apply lxor_cancel, sbox_inj in Ey; [|done..]. by apply lxor_cancel in Ey.
Qed.

Lemma shuffle16_inj s n m : 0 <= n < 2 ^ 16 -> 0 <= m < 2 ^ 16 -> dns_k_shuffle16 n s = dns_k_shuffle16 m s -> n = m.
Proof.
  intros Hn Hm. unfold dns_k_shuffle16. rewrite !land_shift by lia. change (2 ^ 0) with 1. change (2 ^ 8) with 256. rewrite !Z.div_1_r.
  assert (forall x, byte (x mod 256)) as Hb by (intros; apply Z.mod_pos_bound; lia).
  assert (forall a b, byte a -> byte b -> Z.lor (Z.land 65280 (Z.shiftl a 8)) (Z.land 255 (Z.shiftl b 0)) = a * 256 + b) as Hlor.
  { intros a b Ha Hb'. change 65280 with (Z.shiftl 255 8). rewrite <- Z.shiftl_land, Z.shiftl_0_r, !land_255_byte by done. by rewrite lor_shift by (unfold byte in Hb'; lia). }
  destruct (shuffle_loop_inj 4 (n mod 256) (n / 256 mod 256) (m mod 256) (m / 256 mod 256) s) as (B1 & B2 & Hinj); [done..|].
  destruct (shuffle_loop_inj 4 (m mod 256) (m / 256 mod 256) (n mod 256) (n / 256 mod 256) s) as (B3 & B4 & _); [done..|].
  destruct (shuffle_loop 4 (n mod 256) (n / 256 mod 256) s) as [a b]. destruct (shuffle_loop 4 (m mod 256) (m / 256 mod 256) s) as [a' b'].
  cbn in B1, B2, B3, B4. rewrite !Hlor by done. unfold byte in *. intros He. assert (a = a' /\ b = b') as [-> ->] by lia.
  destruct (Hinj eq_refl). Z.div_mod_to_equations. lia.
Qed.

(** for every seed [dns_k_shuffle16] maps different offsets to different
    numbers, so that a shuffled iteration never takes two records for one. *)
Theorem shuffle16_injective s n m : 0 <= n < 2 ^ 16 -> 0 <= m < 2 ^ 16 -> dns_k_shuffle16 n s = dns_k_shuffle16 m s -> n = m.
Proof. apply shuffle16_inj. Qed.

(** ** Decimal numbers *)

(** The number that digits denote. *)
Definition decimal (acc : Z) (l : list Z) : Z := foldl (fun acc c => acc * 10 + (c - 48)) acc l.
Definition digit (c : Z) : Prop := 48 <= c <= 57.

Lemma print10_loop_ok k : forall n, 0 <= n < 10 ^ Z.of_nat k ->
  (forall acc, decimal acc (print10_loop k n true) = acc * 10 ^ Z.of_nat k + n) /\ decimal 0 (print10_loop k n false) = n /\
  Forall digit (print10_loop k n true) /\ Forall digit (print10_loop k n false) /\ hd 49 (print10_loop k n false) <> 48.
Proof.
  induction k as [|k IH]; intros n Hn; [change (10 ^ Z.of_nat 0) with 1 in *; cbn; split_and!; [intros; lia|lia|constructor|constructor|lia]|]. cbn [print10_loop].
  rewrite Nat2Z.inj_succ, Z.pow_succ_r in Hn |- * by lia. set (d := 10 ^ Z.of_nat k) in *. assert (0 < d) as Hd by (unfold d; apply Z.pow_pos_nonneg; lia).
  assert (0 <= n / d < 10) as Hch by (split; [apply Z.div_pos; lia|apply Z.div_lt_upper_bound; lia]).
  assert (n - n / d * d = n mod d) as -> by (pose proof (Z.div_mod n d); lia). pose proof (Z.mod_pos_bound n d Hd) as Hm.
  destruct (IH (n mod d) Hm) as (I1 & _ & I3 & _). rewrite orb_true_r, orb_false_r. unfold decimal in *. cbn [foldl].
  assert (forall acc, foldl (fun acc c => acc * 10 + (c - 48)) (acc * 10 + (48 + n / d - 48)) (print10_loop k (n mod d) true) = acc * (10 * d) + n) as Hacc
    by (intros acc; rewrite I1; pose proof (Z.div_mod n d); lia).
  destruct (Z.eqb_spec (n / d) 0) as [H0|H0]; cbn [negb].
  - assert (n mod d = n) as Hnd by (pose proof (Z.div_mod n d); lia). rewrite Hnd in *. destruct (IH n Hm) as (_ & J2 & _ & J4 & J5).
    split_and!; [done|done|constructor; [unfold digit; lia|done]|done|done].
  - split_and!; [done|exact (Hacc 0)|constructor; [unfold digit; lia|done]..|cbn; lia].
Qed.

(** [dns__print10] prints decimal numbers: for every 32-bit number the output
    consists of digits, denotes the number, is at least as long as the padding
    asked for (and never empty), and starts with a zero only as padding. *)
Theorem print10_decimal n pad : 0 <= n < 2 ^ 32 ->
  Forall digit (dns__print10 n pad) /\ decimal 0 (dns__print10 n pad) = n /\ Z.max 1 pad <= len (dns__print10 n pad) /\
  (Z.max 1 pad < len (dns__print10 n pad) -> hd 49 (dns__print10 n pad) <> 48).
Proof.
  intros Hn. unfold dns__print10. assert (0 <= n < 10 ^ Z.of_nat 10) as Hn10 by (change (10 ^ Z.of_nat 10) with 10000000000; lia).
  destruct (print10_loop_ok 10 n Hn10) as (_ & Hv & _ & Hd & Hh). set (ds := print10_loop 10 n false) in *. set (k := Z.to_nat (Z.max 1 pad - len ds)).
  pose proof (len_nonneg ds). assert (len (replicate k 48 ++ ds) = Z.of_nat k + len ds) as Hl by (rewrite len_app; unfold len; by rewrite length_replicate).
  split_and!.
  - apply Forall_app. split; [apply Forall_replicate; unfold digit; lia|done].
  - unfold decimal in *. rewrite foldl_app. assert (foldl (fun acc c => acc * 10 + (c - 48)) 0 (replicate k 48) = 0) as -> by (clear; induction k; [done|cbn; done]). done.
  - rewrite Hl. unfold k. lia.
  - rewrite Hl. intros Hlt. assert (k = 0%nat) as -> by (unfold k in *; lia). done.
Qed.

(** ** Defects *)

(** [dns_srv_parse] compares the size of an SRV record with the free space of
    the packet instead of with the record. In a packet that is full, as one
    read from the network is, every SRV record is refused as illegal. *)
Theorem srv_refused_in_full_packet fuel r P : wf P -> p_size P - p_end P < 6 -> dns_srv_parse fuel r P = Val (inl DNS_EILLEGAL).
Proof. intros HP Hroom. unfold dns_srv_parse. rewrite room_eq by done. by destruct (Z.ltb_spec (p_size P - p_end P) 6); [|lia]. Qed.

(** [dns_sshfp_cmp] takes any two SHA-1 fingerprints for equal, whatever their
    digests, when the algorithms are the same: the test of the types subtracts
    both types from the difference of the algorithms, is never zero, and the
    comparison of the digests is not reached. *)
Theorem sshfp_cmp_ignores_digest a b : fp_type a = DNS_SSHFP_SHA1 -> fp_type b = DNS_SSHFP_SHA1 -> fp_algo a = fp_algo b ->
  dns_sshfp_cmp a b = 0.
Proof. intros Ha Hb Halgo. unfold dns_sshfp_cmp. by rewrite Ha, Hb, Halgo, Z.sub_diag. Qed.

(** ** Witnesses *)

(** [wf] by evaluation. *)
Definition wfb (P : packet) : bool :=
  (len (p_data P) =? p_size P) && (12 <=? p_end P) && (p_end P <=? p_size P) && (p_end P <? 2 ^ 16) && (p_size P <? 2 ^ 32) &&
  forallb (fun b => (0 <=? b) && (b <? 256)) (p_data P) && (length (p_dict P) =? 16)%nat.
Lemma wfb_wf P : wfb P = true -> wf P.
Proof.
  unfold wfb. rewrite !andb_true_iff, forallb_forall. intros ((((((? & ?) & ?) & ?) & ?) & Hb) & ?%Nat.eqb_eq).
  split; try lia. apply Forall_forall. intros b Hin. apply list_elem_of_In, Hb in Hin. unfold byte. lia.
Qed.

Module PacketWitnesses.
Ltac num := vm_compute; first [reflexivity | discriminate | split; first [reflexivity | discriminate]].
Local Definition none : memo := Memo 0 0.
(** An empty packet of 96 bytes, the name "ab." and packets built from them. *)
Definition base : packet := Packet (replicate 16 0) none none none none 96 12 (replicate 96 0).
Definition owner : list Z := [97; 98; 46].
Definition result (m : out pushed_res) : packet := match m with Val (P, _) => P | _ => base end.
Definition address : any := AnyA 2130706433.
Definition with_a : packet := result (dns_p_push 9 base DNS_S_AN owner DNS_T_A DNS_C_IN 300 address).
Definition refused : packet := result (dns_p_push 9 base 3 owner DNS_T_A DNS_C_IN 300 address).

Lemma base_valid : valid base.
Proof.
  split; [by apply wfb_wf|]. exists 12, 12, 12. split; [split; constructor|by left].
Qed.

Lemma with_a_wf : wf with_a.
Proof. apply wfb_wf. vm_compute. reflexivity. Qed.

Lemma owner_labels : Forall byte owner /\ Forall label_ok [[97; 98]] /\ Forall (Forall byte) [[97; 98]] /\ [[97; 98]] <> [].
Proof. unfold owner. split_and!; [| | |done]; repeat constructor; unfold byte, dot; cbn; lia || discriminate. Qed.

Lemma push_keeps_packet_valid_witness : pushed_one base with_a DNS_S_AN.
Proof.
  destruct owner_labels as (? & ? & ? & ?).
  apply (push_keeps_packet_valid 9 base with_a DNS_S_AN owner [[97; 98]] DNS_T_A DNS_C_IN 300 address);
    [exact base_valid|cbn; lia|done|done|done|done|reflexivity|done|done|done|done|vm_compute; reflexivity].
Defined.

Lemma failed_push_restores_witness : valid refused /\ p_end refused = p_end base /\ p_size refused = p_size base /\
  same_below (p_end base) (p_data base) (p_data refused) /\
  p_qd refused = p_qd base /\ p_an refused = p_an base /\ p_ns refused = p_ns base /\ p_ar refused = p_ar base.
Proof.
  destruct owner_labels as (? & _). apply (failed_push_restores 9 base refused 3 owner DNS_T_A DNS_C_IN 300 address DNS_ESECTION);
    [exact base_valid|cbn; lia|done|done|vm_compute; reflexivity].
Defined.

Lemma pushed_record_roundtrip_witness :
  exists r, dns_rr_parse 0 (p_end base) with_a = Val (inr r) /\ rr_type r = DNS_T_A /\ rr_class r = DNS_C_IN /\ rr_ttl r = 300 /\
    dns_any_parse 9 1024 r with_a = Val (inr address).
Proof.
  destruct owner_labels as (? & ? & ? & ?).
  apply (pushed_record_roundtrip 9 9 base with_a DNS_S_AN owner [[97; 98]] DNS_T_A DNS_C_IN 300 1024 address 0);
    [exact base_valid|cbn; lia|done|done|done|done|reflexivity|done|done|done|done|by constructor|done|vm_compute; reflexivity].
Defined.

Lemma first_push_succeeds_witness :
  exists P', dns_p_push 9 base DNS_S_NS owner DNS_T_TXT DNS_C_IN 300 (AnyTXT [104; 105]) =
    Val (P', if in_order base DNS_S_NS then None else Some DNS_EORDER).
Proof.
  destruct owner_labels as (? & ? & ? & ?).
  apply (first_push_succeeds 9 base DNS_S_NS owner [[97; 98]] DNS_T_TXT DNS_C_IN 300 1024 (AnyTXT [104; 105]));
    [exact base_valid|cbn; lia|done|done|done|done|done|reflexivity|cbn; lia|done|done|done
    |apply flat_txt; [by left|repeat constructor; unfold byte; cbn; lia || discriminate|done]|set_solver|vm_compute; discriminate].
Defined.

Lemma record_access_safe_witness :
  (exists res, dns_rr_parse 0 12 with_a = Val res /\ forall r, res = inr r -> rr_bounds with_a 12 r /\ 12 < p_end with_a) /\
  (exists q, dns_rr_skip 12 with_a = Val q /\ 0 <= q <= p_end with_a /\ (12 < p_end with_a -> 12 < q)).
Proof. apply (record_access_safe with_a 0 12); [exact with_a_wf|lia]. Defined.

Lemma with_a_layout : layout (p_data with_a) (p_end with_a) 12 30 30 30.
Proof.
  assert (extent (p_data with_a) (p_end with_a) 12 16) as Hx.
  { apply ex_label; [num|num|num|num|]. apply (ex_root (p_data with_a) (p_end with_a) 15); num. }
  split; try (vm_compute; constructor). change (cnt (p_data with_a) 6) with 1%nat.
  eapply rs_cons; [exact Hx|num|num|num|vm_compute; constructor].
Qed.

Lemma study_finds_sections_witness :
  dns_p_study with_a = Val (set_memos with_a (Memo 12 12) (Memo 12 30) (Memo 30 30) (Memo 30 30)).
Proof. apply (study_finds_sections with_a 12 30 30 30); [exact with_a_wf|exact with_a_layout]. Defined.

Definition answers : list rr := match foreach 9 0 1 9 (of_section DNS_S_AN) with_a with Val rs => rs | _ => [] end.
Lemma foreach_is_scan_witness : foreach 9 0 1 (steps with_a) (of_section DNS_S_AN) with_a = Val answers.
Proof. apply (foreach_is_scan 9 0 1 with_a (of_section DNS_S_AN) answers); [exact with_a_wf|done|by left|vm_compute; reflexivity]. Defined.

(** A [realloc] that always finds memory. *)
Definition enlarge (d : list Z) (n : Z) : option (list Z) := Some (take (Z.to_nat n) (d ++ replicate (Z.to_nat n) 0)).
Lemma enlarge_spec d n d' : Forall byte d -> 0 <= n -> enlarge d n = Some d' ->
  len d' = n /\ Forall byte d' /\ forall k, k <= len d -> k <= n -> same_below k d d'.
Proof.
  intros Hb Hn [= <-]. unfold same_below, len. rewrite length_take, length_app, length_replicate. split_and!; [lia| |].
  - apply Forall_take, Forall_app. split; [done|]. apply Forall_replicate. unfold byte. lia.
  - intros k Hk Hkn. split_and!; [done|lia|]. rewrite take_take, Nat.min_l by lia. rewrite take_app_le by (unfold len in Hk; lia). done.
Qed.

Definition grown : packet := match dns_p_grow (fun n => Some (replicate (Z.to_nat n) 0)) enlarge (Some with_a) with (Some P, _) => P | _ => base end.
Lemma grow_makes_room_witness : wf grown /\ p_end grown = p_end with_a /\ same_below (p_end with_a) (p_data with_a) (p_data grown) /\
  p_dict grown = p_dict with_a /\ p_size grown = 2 ^ (Z.log2 (dns_p_sizeof with_a) + 1) /\ p_end with_a + 85 <= p_size grown.
Proof.
  apply (grow_makes_room (fun n => Some (replicate (Z.to_nat n) 0)) enlarge enlarge_spec with_a grown);
    [exact with_a_wf|vm_compute; reflexivity|vm_compute; reflexivity].
Defined.

Lemma shuffle16_injective_witness : dns_k_shuffle16 (6 + 6) 77 = dns_k_shuffle16 12 77 /\ 6 + 6 = 12.
Proof. split; [reflexivity|]. apply (shuffle16_injective 77 (6 + 6) 12); [lia|lia|reflexivity]. Defined.

Lemma print10_decimal_witness :
  Forall digit (dns__print10 42 3) /\ decimal 0 (dns__print10 42 3) = 42 /\ Z.max 1 3 <= len (dns__print10 42 3) /\
  (Z.max 1 3 < len (dns__print10 42 3) -> hd 49 (dns__print10 42 3) <> 48).
Proof. apply (print10_decimal 42 3). lia. Defined.

(** The packet with its buffer cut to what is in use. *)
Definition full : packet :=
  Packet (p_dict with_a) (p_qd with_a) (p_an with_a) (p_ns with_a) (p_ar with_a) 30 30 (take 30 (p_data with_a)).
Lemma srv_refused_witness : dns_srv_parse 9 (RR DNS_S_AN 12 4 DNS_T_SRV 1 300 26 4) full = Val (inl DNS_EILLEGAL).
Proof. apply (srv_refused_in_full_packet 9 (RR DNS_S_AN 12 4 DNS_T_SRV 1 300 26 4) full); [apply wfb_wf; vm_compute; reflexivity|vm_compute; reflexivity]. Defined.

Lemma sshfp_cmp_witness : dns_sshfp_cmp (Sshfp 1 DNS_SSHFP_SHA1 (replicate 20 0)) (Sshfp 1 DNS_SSHFP_SHA1 (replicate 20 7)) = 0.
Proof. by apply (sshfp_cmp_ignores_digest (Sshfp 1 DNS_SSHFP_SHA1 (replicate 20 0)) (Sshfp 1 DNS_SSHFP_SHA1 (replicate 20 7))). Defined.
End PacketWitnesses.
