(* ===== verification/DnsText.v ===== *)
(** libdns: the names of sections, classes, types, opcodes and response codes, and
    records and packets in their text form (dns.c: [dns_strsection], [dns_isection], ...,
    [dns_rr_print], [dns_p_dump]).

    As in DnsRdata.v a routine that prints returns the bytes it offers, of which a
    caller with a buffer of [lim] bytes finds [cbuf lim]. The routines for opcodes and
    response codes write the names they are missing into their static table, which
    is passed along. *)

From stdpp Require Import prelude strings.
From Stdlib Require Import ZArith Lia.
From S2P Require Import Prelude DnsBase DnsName DnsRr DnsRrSpec DnsRdata DnsPacket.
Local Open Scope Z_scope.

Definition DNS_STRMAXLEN : Z := 47.

Definition dns_sections : list (list Z * Z) :=
  [(bytes "QUESTION", DNS_S_QD); (bytes "QD", DNS_S_QD); (bytes "ANSWER", DNS_S_AN); (bytes "AN", DNS_S_AN);
   (bytes "AUTHORITY", DNS_S_NS); (bytes "NS", DNS_S_NS); (bytes "ADDITIONAL", DNS_S_AR); (bytes "AR", DNS_S_AR)].

(** The names printed, and the section without their bits. *)
Fixpoint strsection_loop (l : list (list Z * Z)) (section : Z) (p : list Z) : Z * list Z :=
  match l with
  | [] => (section, p)
  | (name, type) :: l' =>
      if negb (Z.land type section =? 0)
      then strsection_loop l' (Z.land section (Z.lnot type)) (p ++ (if 0 <? len p then [124] else []) ++ name)
      else strsection_loop l' section p
  end.
Definition dns_strsection (section : Z) : list Z :=
  let '(section, p) := strsection_loop dns_sections section [] in
  if len p =? 0 then dns__print10 (Z.land 65535 section) 0 else p.

(** [strsep] until it returns NULL: what lies between the delimiters. *)
Fixpoint strsep_all (delim : list Z) (cur src : list Z) : list (list Z) :=
  match src with
  | [] => [cur]
  | c :: src' => if existsb (Z.eqb c) delim then cur :: strsep_all delim [] src' else strsep_all delim (cur ++ [c]) src'
  end.
(** The first entry with a name, whatever its case. *)
Fixpoint by_name (l : list (list Z * Z)) (name : list Z) : option Z :=
  match l with
  | [] => None
  | (n, t) :: l' => if strcasecmp n name =? 0 then Some t else by_name l' name
  end.
Definition dns_isection (src : list Z) : Z :=
  foldl (fun section name => match by_name dns_sections name with Some t => Z.lor section t | None => section end) 0
    (strsep_all (bytes "|+, " ++ [9]) [] (cbuf 128 (cstr src))).

(** The name of a number, or the number. *)
Fixpoint by_type (l : list (list Z * Z)) (type : Z) : option (list Z) :=
  match l with
  | [] => None
  | (n, t) :: l' => if t =? type then Some n else by_type l' type
  end.
Definition str_of (l : list (list Z * Z)) (type : Z) : list Z :=
  match by_type l type with Some n => n | None => dns__print10 (Z.land 65535 type) 0 end.

Definition dns_classes : list (list Z * Z) := [(bytes "IN", DNS_C_IN)].
Definition dns_strclass (type : Z) : list Z := str_of dns_classes type.
Definition dns_iclass (name : list Z) : Z := default 0 (by_name dns_classes name).

(** The names of [dns_rrtypes]; its routines are dispatched on in DnsRdata.v. *)
Definition dns_rrtypes : list (list Z * Z) :=
  [(bytes "A", DNS_T_A); (bytes "AAAA", DNS_T_AAAA); (bytes "MX", DNS_T_MX); (bytes "NS", DNS_T_NS); (bytes "CNAME", DNS_T_CNAME);
   (bytes "SOA", DNS_T_SOA); (bytes "SRV", DNS_T_SRV); (bytes "PTR", DNS_T_PTR); (bytes "TXT", DNS_T_TXT); (bytes "SPF", DNS_T_SPF);
   (bytes "SSHFP", DNS_T_SSHFP)].
Definition dns_strtype (type : Z) : list Z := str_of dns_rrtypes type.
Definition dns_itype (name : list Z) : Z := default 0 (by_name dns_rrtypes name).

(** ** Opcodes and response codes *)
Abbreviation code_table := (list (list Z)).
Definition dns_opcodes : code_table :=
  [bytes "QUERY"; bytes "IQUERY"; bytes "STATUS"; []; bytes "NOTIFY"; bytes "UPDATE"] ++ replicate 10 [].
Definition dns_rcodes : code_table :=
  [bytes "NOERROR"; bytes "FORMERR"; bytes "SERVFAIL"; bytes "NXDOMAIN"; bytes "NOTIMP"; bytes "REFUSED"; bytes "YXDOMAIN"; bytes "YXRRSET";
   bytes "NXRRSET"; bytes "NOTAUTH"; bytes "NOTZONE"] ++ replicate 5 [].

(** The name at a code, printed into the table when it has none. *)
Definition strcode (code : Z) (t : code_table) : code_table * list Z :=
  let i := Z.to_nat (Z.land code 15) in
  let t := if len (nth i t []) =? 0 then <[i := cbuf 16 (dns__print10 (Z.land code 15) 0)]> t else t in
  (t, nth i t []).
Fixpoint icode (t : code_table) (i : Z) (name : list Z) : Z :=
  match t with
  | [] => 15
  | n :: t' => if strcasecmp name n =? 0 then i else icode t' (i + 1) name
  end.
Definition dns_stropcode (opcode : Z) (t : code_table) : code_table * list Z := strcode opcode t.
Definition dns_iopcode (name : list Z) (t : code_table) : Z := icode t 0 name.
Definition dns_strrcode (rcode : Z) (t : code_table) : code_table * list Z := strcode rcode t.
Definition dns_ircode (name : list Z) (t : code_table) : Z := icode t 0 name.

(** ** Records *)
Section RrPrint.
Context (fuel : nat) (inet_ntop4 : Z -> list Z) (inet_ntop6 : list Z -> list Z).

Definition dns_rr_print (r : rr) (P : packet) : out (dns_error + list Z) :=
  n ← dns_d_expand fuel (rr_dn_p r) P;
  match n with
  | inl e => Val (inl e)
  | inr [] => UB
  | inr name =>
      let qd := rr_section r =? DNS_S_QD in
      let head := (if qd then [59] else []) ++ name ++ (if qd then [] else [32] ++ dns__print10 (rr_ttl r) 0) ++
        [32] ++ cbuf (DNS_STRMAXLEN + 1) (dns_strclass (rr_class r)) ++ [32] ++ cbuf (DNS_STRMAXLEN + 1) (dns_strtype (rr_type r)) in
      if qd then Val (inr head)
      else
        a ← dns_any_parse fuel ANY_CAP r P;
        match a with
        | inl e => Val (inl e)
        | inr a => rd ← dns_any_print inet_ntop4 inet_ntop6 a (rr_type r); Val (inr (head ++ [32] ++ rd))
        end
  end.
End RrPrint.

(** ** Whole packets

    [dns_p_dump3] and [dns_p_dump]: what is written to [fp]. *)
Section Dump.
Context (fuel : nat) (junk rnd : Z) (inet_ntop4 : Z -> list Z) (inet_ntop6 : list Z -> list Z).

(** The header as a little endian machine has it; the two tables of names are
    returned with the text. *)
Definition bits (b at_ n : Z) : Z := Z.land (Z.shiftr b at_) (Z.ones n).
Definition header_line (what name : list Z) (n : Z) : list Z := bytes ";; " ++ what ++ bytes " : " ++ name ++ bytes "(" ++ dns__print10 n 0 ++ bytes ")" ++ [10].
Definition flag_line (what yes no : string) (n : Z) : list Z := header_line (bytes what) (bytes (if n =? 0 then no else yes)) n.
Definition dump_header (P : packet) (ops rcs : code_table) : out (list Z * code_table * code_table) :=
  a ← rd (p_data P) 2;
  b ← rd (p_data P) 3;
  let '(ops, op) := dns_stropcode (bits a 3 4) ops in
  let '(rcs, rc) := dns_strrcode (bits b 0 4) rcs in
  Val (bytes ";; [HEADER]" ++ [10] ++
    flag_line "    qr" "RESPONSE" "QUERY" (bits a 7 1) ++
    header_line (bytes "opcode") op (bits a 3 4) ++
    flag_line "    aa" "AUTHORITATIVE" "NON-AUTHORITATIVE" (bits a 2 1) ++
    flag_line "    tc" "TRUNCATED" "NOT-TRUNCATED" (bits a 1 1) ++
    flag_line "    rd" "RECURSION-DESIRED" "RECURSION-NOT-DESIRED" (bits a 0 1) ++
    flag_line "    ra" "RECURSION-ALLOWED" "RECURSION-NOT-ALLOWED" (bits b 7 1) ++
    header_line (bytes " rcode") rc (bits b 0 4), ops, rcs).

(** One record, after a line for its section where that is not [section]; a record that
    cannot be printed is left out. [pretty] has twice the size of [union dns_any]. *)
Definition PRETTY_SIZE : Z := 2 * (ANY_CAP + 16).
Definition dump_record (section : Z) (r : rr) (P : packet) : out (list Z) :=
  head ← (if section =? rr_section r then Val []
          else c ← dns_p_count P (rr_section r);
               Val ([10] ++ bytes ";; [" ++ cbuf (DNS_STRMAXLEN + 1) (dns_strsection (rr_section r)) ++ bytes ":" ++ dns__print10 c 0 ++ bytes "]" ++ [10]));
  t ← dns_rr_print fuel inet_ntop4 inet_ntop6 r P;
  Val (head ++ match t with inr t => if len t =? 0 then [] else cstr (cbuf PRETTY_SIZE t) ++ [10] | inl _ => [] end).
Fixpoint dump_records (n : nat) (section : Z) (i : rr_i) (P : packet) : out (list Z) :=
  match n with
  | O => Loop
  | S n' =>
      '(rs, i', _) ← dns_rr_grep fuel junk rnd 1 i P;
      match rs with
      | [] => Val []
      | r :: _ => line ← dump_record section r P; rest ← dump_records n' (rr_section r) i' P; Val (line ++ rest)
      end
  end.
Definition dns_p_dump3 (P : packet) (i : rr_i) (ops rcs : code_table) : out (list Z * code_table * code_table) :=
  '(head, ops, rcs) ← dump_header P ops rcs;
  text ← dump_records (steps P) 0 i P;
  Val (head ++ text, ops, rcs).
Definition dns_p_dump (P : packet) (ops rcs : code_table) : out (list Z * code_table * code_table) :=
  dns_p_dump3 P (dns_rr_i_init (RrI 0 None 0 0 None SortNone 0 0 0 0)) ops rcs.
End Dump.
