(* ===== verification/DnsTextThm.v ===== *)
(** libdns: the text forms of numbers are read back. *)

From stdpp Require Import prelude strings.
From Stdlib Require Import ZArith Lia.
From S2P Require Import Prelude DnsBase DnsName DnsRr DnsRrSpec DnsRdata DnsPacket DnsIter DnsPacketThm DnsText.
Local Open Scope Z_scope.

(** ** Sections *)

(** Only the four bits of the table matter. *)
Lemma strsection_low l : Forall (fun x => Z.land x.2 15 = x.2) l -> forall s s' p, Z.land s 15 = Z.land s' 15 ->
  (strsection_loop l s p).2 = (strsection_loop l s' p).2.
Proof.
  induction 1 as [|[name t] l Ht _ IH]; intros s s' p Hs; [done|]. cbn [strsection_loop].
  assert (forall s, Z.land t s = Z.land t (Z.land s 15)) as Hl.
  { intros x. cbn in Ht. rewrite (Z.land_comm x), Z.land_assoc, Ht. done. }
  rewrite (Hl s), (Hl s'), Hs. destruct (negb _); [|by apply IH]. apply IH.
  rewrite <- !Z.land_assoc, !(Z.land_comm (Z.lnot t)), !Z.land_assoc. by rewrite Hs.
Qed.
Lemma strsection_none l s p : Forall (fun x => Z.land x.2 15 = x.2) l -> Z.land s 15 = 0 -> strsection_loop l s p = (s, p).
Proof.
  intros Hl Hs. induction Hl as [|[name t] l Ht _ IH]; [done|]. cbn [strsection_loop]. cbn in Ht.
  assert (Z.land t s = 0) as ->; [|exact IH]. rewrite <- Ht, <- Z.land_assoc, (Z.land_comm 15), Hs. apply Z.land_0_r.
Qed.

(** A number is no name. *)
Lemma strsep_digits delim src : Forall digit src -> Forall (fun d => d < 48 \/ 57 < d) delim -> forall cur, strsep_all delim cur src = [cur ++ src].
Proof.
  intros Hs Hd. induction Hs as [|c src Hc _ IH]; intros cur; [by rewrite app_nil_r|]. cbn [strsep_all].
  replace (existsb (Z.eqb c) delim) with false; [by rewrite IH, <- app_assoc|].
  symmetry. apply not_true_is_false. intros (d & Hin & ->%Z.eqb_eq)%existsb_exists. rewrite Forall_forall in Hd.
  specialize (Hd d). rewrite list_elem_of_In in Hd. unfold digit in Hc. specialize (Hd Hin). lia.
Qed.

Definition letters (l : list (list Z * Z)) : Prop := Forall (fun x => exists c n, x.1 = c :: n /\ 65 <= c <= 90) l.
Ltac letters_tac := unfold letters, dns_sections, dns_rrtypes, dns_classes; repeat (apply Forall_cons; split; [eexists _, _; split; [vm_compute; reflexivity|lia]|]); by apply Forall_nil.
Lemma by_name_digits l d ds : letters l -> digit d -> by_name l (d :: ds) = None.
Proof.
  unfold digit. induction 1 as [|[n t] l (c & n' & E & Hc) _ IH]; intros Hd; [done|]. cbn in E. subst n. cbn [by_name].
  unfold strcasecmp. cbn [cstr]. destruct (Z.eqb_spec c 0), (Z.eqb_spec d 0); try lia. cbn [strcasecmp_]. unfold tolower.
  destruct (Z.leb_spec 65 c), (Z.leb_spec c 90), (Z.leb_spec 65 d); try lia. cbn [andb].
  destruct (Z.eqb_spec (c + 32) d); [lia|]. destruct (Z.eqb_spec (c + 32 - d) 0); [lia|]. by apply IH.
Qed.
Lemma print10_loop_len k : forall n b, (length (print10_loop k n b) <= k)%nat.
Proof.
  induction k as [|k IH]; intros n b; [done|]. cbn [print10_loop].
  case_match; cbn [length]; match goal with |- context [print10_loop k ?m ?c] => pose proof (IH m c) end; lia.
Qed.
Lemma land_65535 n : 0 <= Z.land 65535 n < 2 ^ 16.
Proof. rewrite Z.land_comm. change 65535 with (Z.ones 16). rewrite Z.land_ones by lia. apply Z.mod_pos_bound. lia. Qed.

(** A number in its text form. *)
Lemma print10_text n : exists d ds, dns__print10 (Z.land 65535 n) 0 = d :: ds /\ Forall digit (d :: ds) /\ len (d :: ds) <= 10.
Proof.
  pose proof (land_65535 n) as Hn. destruct (print10_decimal (Z.land 65535 n) 0) as (Hd & _ & Hl & _); [lia|].
  assert (len (dns__print10 (Z.land 65535 n) 0) <= 10) as H10.
  { unfold dns__print10, len. rewrite length_app, length_replicate. pose proof (print10_loop_len 10 (Z.land 65535 n) false). lia. }
  destruct (dns__print10 (Z.land 65535 n) 0) as [|d ds]; [unfold len in Hl; cbn in Hl; lia|]. by exists d, ds.
Qed.
Lemma digits_nulfree ds : Forall digit ds -> cstr ds = ds.
Proof. intros Hd. apply cstr_nulfree. eapply Forall_impl; [exact Hd|]. unfold digit. cbn. lia. Qed.

Lemma sections_low : Forall (fun x => Z.land x.2 15 = x.2) dns_sections.
Proof. repeat constructor. Qed.
Lemma sections_letters : letters dns_sections.
Proof. letters_tac. Qed.

(** The four bits, by evaluation. *)
Lemma section_low_names x : 0 <= x < 16 -> x <> 0 ->
  (strsection_loop dns_sections x []).2 <> [] /\ dns_isection (cbuf (DNS_STRMAXLEN + 1) (dns_strsection x)) = x.
Proof.
  intros Hx H0.
  assert (all_from (fun x => negb (len (strsection_loop dns_sections x []).2 =? 0) && (dns_isection (cbuf (DNS_STRMAXLEN + 1) (dns_strsection x)) =? x)) 15 1 = true)
    as Hall by (vm_compute; reflexivity).
  pose proof (all_from_ok _ _ _ Hall x ltac:(lia)) as [H1 H2%Z.eqb_eq]%andb_prop. split; [|done]. intros E. rewrite E in H1. done.
Qed.
Lemma section_read_back s : dns_isection (cbuf (DNS_STRMAXLEN + 1) (dns_strsection s)) = Z.land s 15.
Proof.
  assert (0 <= Z.land s 15 < 16) as Hb by (change 15 with (Z.ones 4); rewrite Z.land_ones by lia; apply Z.mod_pos_bound; lia).
  destruct (Z.eq_dec (Z.land s 15) 0) as [H0|H0].
  - unfold dns_strsection. rewrite (strsection_none _ _ _ sections_low H0). change (len [] =? 0) with true. cbv iota.
    destruct (print10_text s) as (d & ds & -> & Hd & Hl). rewrite cbuf_fits by (unfold DNS_STRMAXLEN; lia).
    unfold dns_isection. rewrite digits_nulfree, cbuf_fits by (done || lia).
    rewrite strsep_digits; [|done|repeat constructor; cbn; lia]. cbn [foldl app].
    rewrite by_name_digits; [by rewrite H0|apply sections_letters|by inversion Hd].
  - destruct (section_low_names _ Hb H0) as [Hne Hrb]. rewrite <- Hrb. f_equal. f_equal.
    unfold dns_strsection. pose proof (strsection_low _ sections_low s (Z.land s 15) []) as E. rewrite <- Z.land_assoc in E. specialize (E eq_refl).
    destruct (strsection_loop _ s _) as [u p], (strsection_loop _ (Z.land s 15) _) as [u' p']. cbn in E, Hne. subst p'.
    destruct (Z.eqb_spec (len p) 0) as [Hp|]; [|done]. by destruct p; [|pose proof (len_nonneg p); rewrite len_cons in Hp; lia].
Qed.

(** ** Classes and types *)
Definition named (l : list (list Z * Z)) (t : Z) : Prop := t ∈ l.*2.

(** A table whose names are read back. *)
Definition read_back_ok (l : list (list Z * Z)) : Prop :=
  Forall (fun t => exists n, by_type l t = Some n /\ by_name l n = Some t /\ len n <= DNS_STRMAXLEN) l.*2.
Ltac read_back_tac := unfold read_back_ok; cbn [dns_rrtypes dns_classes fmap list_fmap snd]; repeat (apply Forall_cons; split; [eexists; split; [vm_compute; reflexivity|split; [vm_compute; reflexivity|vm_compute; discriminate]]|]); by apply Forall_nil.
Lemma str_read_back l t : letters l -> read_back_ok l ->
  by_name l (cbuf (DNS_STRMAXLEN + 1) (str_of l t)) = if decide (t ∈ l.*2) then Some t else None.
Proof.
  intros Hl Hok. unfold str_of. case_decide as Ht.
  - unfold read_back_ok in Hok. rewrite Forall_forall in Hok. destruct (Hok t Ht) as (n & -> & Hn & Hlen). by rewrite cbuf_fits by lia.
  - assert (by_type l t = None) as ->.
    { clear -Ht. induction l as [|[n u] l IH]; [done|]. cbn [by_type]. destruct (Z.eqb_spec u t) as [->|]; [set_solver|]. apply IH. set_solver. }
    destruct (print10_text t) as (d & ds & -> & Hd & Hlen). rewrite cbuf_fits by (unfold DNS_STRMAXLEN; lia). apply by_name_digits; [done|by inversion Hd].
Qed.
Lemma rrtypes_letters : letters dns_rrtypes.
Proof. letters_tac. Qed.
Lemma rrtypes_ok : read_back_ok dns_rrtypes.
Proof. read_back_tac. Qed.
Lemma classes_letters : letters dns_classes.
Proof. letters_tac. Qed.
Lemma classes_ok : read_back_ok dns_classes.
Proof. read_back_tac. Qed.

(** ** Codes *)

(** What calls of [dns_stropcode] or [dns_strrcode] make of the table [t0]. *)
Inductive codes (t0 : code_table) : code_table -> Prop :=
  | codes_start : codes t0 t0
  | codes_call t c : codes t0 t -> codes t0 (strcode c t).1.

(** Each entry is the one of [t0] or, when that was empty, empty or the number. *)
Definition entry_ok (t0 : code_table) (i : nat) (n : list Z) : Prop :=
  n = nth i t0 [] \/ nth i t0 [] = [] /\ n = dns__print10 (Z.of_nat i) 0.
Definition table_ok (t0 t : code_table) : Prop := length t = 16%nat /\ forall i, (i < 16)%nat -> entry_ok t0 i (nth i t []).

Lemma strcode_ok t0 t c : table_ok t0 t -> table_ok t0 (strcode c t).1.
Proof.
  intros [Hl Ht]. unfold strcode. cbn [fst]. destruct (len (nth _ t []) =? 0) eqn:H; [|done]. split; [by rewrite length_insert|]. intros i Hi.
  assert (0 <= Z.land c 15 < 16) as Hb by (change 15 with (Z.ones 4); rewrite Z.land_ones by lia; apply Z.mod_pos_bound; lia).
  destruct (decide (i = Z.to_nat (Z.land c 15))) as [->|Hne].
  - rewrite (nth_lookup_Some _ _ _ (cbuf 16 (dns__print10 (Z.land c 15) 0))) by (apply list_lookup_insert_eq; lia).
    specialize (Ht _ Hi). destruct (print10_text (Z.land c 15)) as (d & ds & E & _ & Hlen).
    assert (Z.land 65535 (Z.land c 15) = Z.land c 15) as Hid by (rewrite Z.land_comm, <- Z.land_assoc; done). rewrite Hid in E.
    right. rewrite E, cbuf_fits by lia. rewrite Z2Nat.id by lia. split; [|done].
    destruct Ht as [Ht|[Ht _]]; [|done]. rewrite Ht in H. destruct (nth _ t0 []) as [|x l]; [done|]. rewrite len_cons in H. pose proof (len_nonneg l). apply Z.eqb_eq in H. lia.
  - rewrite nth_lookup, list_lookup_insert_ne, <- nth_lookup by done. by apply Ht.
Qed.
Lemma codes_ok t0 t : length t0 = 16%nat -> codes t0 t -> table_ok t0 t.
Proof. intros Hl. induction 1 as [|t c _ IH]; [|by apply strcode_ok]. split; [done|]. intros i _. by left. Qed.

(** The name that a code has once it was asked for. *)
Definition full (t0 : code_table) (i : Z) : list Z :=
  match nth (Z.to_nat i) t0 [] with [] => dns__print10 i 0 | n => n end.
(** No name is taken for another, or for one that is missing. *)
Definition names_distinct (t0 : code_table) : bool :=
  all_from (fun i => all_from (fun j => (i =? j) || negb (strcasecmp (full t0 i) (full t0 j) =? 0)) 16 0 &&
    negb (strcasecmp (full t0 i) [] =? 0)) 16 0.

Lemma strcasecmp_refl n : strcasecmp n n = 0.
Proof. unfold strcasecmp. induction (cstr n) as [|c l IH]; [done|]. cbn [strcasecmp_]. by rewrite Z.eqb_refl. Qed.

Lemma entry_full t0 j n : entry_ok t0 j n -> n = full t0 (Z.of_nat j) \/ n = [].
Proof.
  unfold entry_ok, full. rewrite Nat2Z.id. intros [->|[-> ->]]; [|by left]. destruct (nth j t0 []); [by right|by left].
Qed.
Lemma called_full t0 t c : table_ok t0 t -> (strcode c t).2 = full t0 (Z.land c 15) /\ nth (Z.to_nat (Z.land c 15)) (strcode c t).1 [] = (strcode c t).2.
Proof.
  intros Ht. split; [|done].
  assert (0 <= Z.land c 15 < 16) as Hb by (change 15 with (Z.ones 4); rewrite Z.land_ones by lia; apply Z.mod_pos_bound; lia).
  pose proof (strcode_ok _ _ c Ht) as [_ Hs]. specialize (Hs (Z.to_nat (Z.land c 15)) ltac:(lia)). apply entry_full in Hs.
  rewrite Z2Nat.id in Hs by lia. change (nth _ (strcode c t).1 []) with (strcode c t).2 in Hs. destruct Hs as [Hs|Hs]; [done|exfalso].
  revert Hs. unfold strcode. cbn [snd]. destruct (len (nth _ t []) =? 0) eqn:E.
  - rewrite (nth_lookup_Some _ _ _ (cbuf 16 (dns__print10 (Z.land c 15) 0))) by (apply list_lookup_insert_eq; destruct Ht; lia).
    destruct (print10_text (Z.land c 15)) as (d & ds & Ep & _ & Hlen).
    assert (Z.land 65535 (Z.land c 15) = Z.land c 15) as Hid by (rewrite Z.land_comm, <- Z.land_assoc; done). rewrite Hid in Ep. by rewrite Ep, cbuf_fits by lia.
  - intros Hn. by rewrite Hn in E.
Qed.

Lemma icode_first t name k : forall i, nth k t [] = name -> (k < length t)%nat ->
  (forall j, (j < k)%nat -> strcasecmp name (nth j t []) <> 0) -> icode t i name = i + Z.of_nat k.
Proof.
  revert k. induction t as [|n t IH]; intros k i Hk Hl Hj; [cbn in Hl; lia|]. cbn [icode]. destruct k as [|k].
  - cbn in Hk. subst n. rewrite strcasecmp_refl. cbn. lia.
  - pose proof (Hj 0%nat ltac:(lia)) as H0. cbn in H0. rewrite (proj2 (Z.eqb_neq _ _)) by done.
    rewrite (IH k); [lia|done|cbn in Hl; lia|]. intros j Hlt. apply (Hj (S j)). lia.
Qed.

(** The code of a name that was printed is read back, whichever names were asked for
    before. *)
Lemma code_read_back t0 t c : length t0 = 16%nat -> names_distinct t0 = true -> codes t0 t ->
  icode (strcode c t).1 0 (strcode c t).2 = Z.land c 15.
Proof.
  intros Hl Hd Hc. pose proof (codes_ok _ _ Hl Hc) as Ht. pose proof (strcode_ok _ _ c Ht) as [Hl' Hs]. destruct (called_full _ _ c Ht) as [Hf Hn].
  assert (0 <= Z.land c 15 < 16) as Hb by (change 15 with (Z.ones 4); rewrite Z.land_ones by lia; apply Z.mod_pos_bound; lia).
  rewrite (icode_first _ _ (Z.to_nat (Z.land c 15))); [lia|done|lia|]. intros j Hj. rewrite Hf.
  pose proof (all_from_ok _ _ _ Hd (Z.land c 15) ltac:(lia)) as [H1 H2]%andb_prop. destruct (entry_full _ _ _ (Hs j ltac:(lia))) as [->| ->].
  - pose proof (all_from_ok _ _ _ H1 (Z.of_nat j) ltac:(lia)) as [E|E]%orb_prop; [apply Z.eqb_eq in E; lia|]. by apply negb_true_iff, Z.eqb_neq in E.
  - by apply negb_true_iff, Z.eqb_neq in H2.
Qed.

(** C32: What the routines print is read back as the number it was printed for:
    the bits of sections, the classes and types that have names (other numbers are
    read as 0), and the opcodes and response codes, whichever were printed before. *)
Theorem names_read_back section class type opcode rcode ops rcs : codes dns_opcodes ops -> codes dns_rcodes rcs ->
  dns_isection (cbuf (DNS_STRMAXLEN + 1) (dns_strsection section)) = Z.land section 15 /\
  dns_iclass (cbuf (DNS_STRMAXLEN + 1) (dns_strclass class)) = (if decide (class ∈ dns_classes.*2) then class else 0) /\
  dns_itype (cbuf (DNS_STRMAXLEN + 1) (dns_strtype type)) = (if decide (type ∈ dns_rrtypes.*2) then type else 0) /\
  dns_iopcode (dns_stropcode opcode ops).2 (dns_stropcode opcode ops).1 = Z.land opcode 15 /\
  dns_ircode (dns_strrcode rcode rcs).2 (dns_strrcode rcode rcs).1 = Z.land rcode 15.
Proof.
  intros Ho Hr. split_and!.
  - apply section_read_back.
  - unfold dns_iclass, dns_strclass. rewrite str_read_back by (apply classes_letters || apply classes_ok). by case_decide.
  - unfold dns_itype, dns_strtype. rewrite str_read_back by (apply rrtypes_letters || apply rrtypes_ok). by case_decide.
  - by apply (code_read_back dns_opcodes).
  - by apply (code_read_back dns_rcodes).
Qed.

(** After opcode 3 was printed. *)
Lemma names_read_back_witness :
  codes dns_opcodes (dns_stropcode 3 dns_opcodes).1 /\ dns_iopcode (dns_stropcode 19 (dns_stropcode 3 dns_opcodes).1).2 (dns_stropcode 19 (dns_stropcode 3 dns_opcodes).1).1 = 3.
Proof.
  assert (codes dns_opcodes (dns_stropcode 3 dns_opcodes).1) as Hc by (apply codes_call, codes_start). split; [exact Hc|].
  destruct (names_read_back 5 1 15 19 0 _ dns_rcodes Hc (codes_start _)) as (_ & _ & _ & H & _). exact H.
Defined.

(** ** Packets *)
Section DumpThm.
Context (fuel : nat) (junk rnd : Z) (inet_ntop4 : Z -> list Z) (inet_ntop6 : list Z -> list Z) (P : packet).
Abbreviation record_text := (dump_record fuel inet_ntop4 inet_ntop6).

(** The text of a list of records: one after the other, with a line between records of
    different sections. *)
Fixpoint records_text (section : Z) (rs : list rr) : out (list Z) :=
  match rs with
  | [] => Val []
  | r :: rs' => line ← record_text section r P; rest ← records_text (rr_section r) rs'; Val (line ++ rest)
  end.
Lemma dump_foreach n : forall section i rs, foreach fuel junk rnd n i P = Val rs ->
  dump_records fuel junk rnd inet_ntop4 inet_ntop6 n section i P = records_text section rs.
Proof.
  induction n as [|n IH]; intros section i rs; [done|]. cbn [foreach dump_records]. destruct (dns_rr_grep fuel junk rnd 1 i P) as [[[[|r l] i'] e]| |]; cbn; try done.
  - by intros [= <-].
  - destruct (foreach fuel junk rnd n i' P) as [rest| |] eqn:E; cbn; try done. intros [= <-]. cbn [records_text]. by rewrite (IH _ _ _ E).
Qed.
(** [dns_p_dump] ends, and writes every record of the packet once, in the order of the
    packet. *)
Lemma dump_is_scan rs ops rcs : wf P -> scan fuel junk P (steps P) (RrI 0 None 0 0 None SortNone 0 0 0 0) 12 = Val rs ->
  dns_p_dump fuel junk rnd inet_ntop4 inet_ntop6 P ops rcs =
    ('(head, ops, rcs) ← dump_header P ops rcs; text ← records_text 0 rs; Val (head ++ text, ops, rcs)).
Proof.
  intros HP Hs. unfold dns_p_dump, dns_p_dump3. rewrite (dump_foreach (steps P) 0 _ rs); [done|].
  apply foreach_scan; [done|done|by left|exact Hs|by eapply scan_length].
Qed.
End DumpThm.

(** An answer to a question about an address. *)
Example dump_demo :
  let P := Packet (replicate 16 0) (Memo 12 19) (Memo 19 35) (Memo 35 35) (Memo 35 35) 35 35
    ([0; 1; 129; 128; 0; 1; 0; 1; 0; 0; 0; 0] ++ [1; 97; 0; 0; 1; 0; 1] ++ [192; 12; 0; 1; 0; 1; 0; 0; 0; 60; 0; 4; 1; 2; 3; 4]) in
  let line s := bytes s ++ [10] in
  dns_p_dump 60 0 1 (fun _ => bytes "1.2.3.4") (fun _ => []) P dns_opcodes dns_rcodes = Val (
    line ";; [HEADER]" ++ line ";;     qr : RESPONSE(1)" ++ line ";; opcode : QUERY(0)" ++ line ";;     aa : NON-AUTHORITATIVE(0)" ++
    line ";;     tc : NOT-TRUNCATED(0)" ++ line ";;     rd : RECURSION-DESIRED(1)" ++ line ";;     ra : RECURSION-ALLOWED(1)" ++ line ";;  rcode : NOERROR(0)" ++
    line EmptyString ++ line ";; [QUESTION:1]" ++ line ";a. IN A" ++
    line EmptyString ++ line ";; [ANSWER:1]" ++ line "a. 60 IN A 1.2.3.4", dns_opcodes, dns_rcodes).
Proof. vm_compute. reflexivity. Qed.
