(* ===== verification/DnsResconf.v ===== *)
(** libdns: resolv.conf (dns.c, "R E S O L V . C O N F  R O U T I N E S").

    The parser works on the array [words[6][DNS_D_MAXNAME + 1]], here one list
    of bytes in which the strings of the array lie next to each other, so that a
    word without its NUL runs into the next one as it does in the C code. The
    text of a FILE is the list of its bytes. [inet_pton], [inet_ntop] and
    [gethostname] are the C library's. *)

From stdpp Require Import prelude strings.
From Stdlib Require Import ZArith Lia.
From S2P Require Import Prelude DnsBase DnsName DnsRdata.
Local Open Scope Z_scope.

(** ** Output buffers

    The functions of [DnsName] describe what is written; these write it. [dst]
    is the memory of the destination. A source that is the destination is given
    as its content: both start at the same byte, so [memmove] leaves it as it
    is. *)
Definition dns__printchar (dst : list Z) (lim cp ch : Z) : out (list Z) :=
  if cp <? lim then wr dst cp ch else Val dst.

Definition dns__printstring (dst : list Z) (lim cp : Z) (src : list Z) (n : Z) : out (list Z * Z) :=
  if cp <? lim then
    bs ← rdn src 0 (Z.min n (lim - cp)); dst ← wrn dst cp bs; Val (dst, n)
  else Val (dst, n).

Definition dns__printnul (dst : list Z) (lim off : Z) : out (list Z) :=
  if 0 <? lim then wr dst (Z.min off (lim - 1)) 0 else Val dst.

Definition d_anchor (dst : list Z) (lim : Z) (src : list Z) (n : Z) : out (list Z * Z) :=
  if n =? 0 then Val (dst, 0)
  else
    bs ← rdn src 0 (Z.min lim n); dst ← wrn dst 0 bs;
    b ← rd src (n - 1);
    '(dst, n) ← (if b =? dot then Val (dst, n)
                 else dst ← (if n <? lim then wr dst n dot else Val dst); Val (dst, n + 1));
    dst ← (if 0 <? lim then wr dst (Z.min (lim - 1) n) 0 else Val dst);
    Val (dst, n).

(** [dns_d_cleave (dst, lim, dst, len)], the only way it is called here. *)
Definition d_cleave (dst : list Z) (lim n : Z) : out (list Z * Z) :=
  if n =? 0 then Val (dst, 0)
  else
    src ← rdn dst 0 n;
    match from_dot (drop 1 src) with
    | None => Val (dst, 0)
    | Some rest =>
        let src := if 1 <? len rest then drop 1 rest else rest in
        let n := len src in
        bs ← rdn src 0 (Z.min lim n); dst ← wrn dst 0 bs;
        dst ← (if 0 <? lim then wr dst (Z.min (lim - 1) n) 0 else Val dst);
        Val (dst, n)
    end.

(** The C string in the memory [l]. *)
Fixpoint cstring (l : list Z) : out (list Z) :=
  match l with
  | [] => UB
  | b :: l' => if b =? 0 then Val [] else s ← cstring l'; Val (b :: s)
  end.

(** ** Characters, in the C locale *)
Definition isspace (ch : Z) : bool := ((9 <=? ch) && (ch <=? 13)) || (ch =? 32).
Definition isdigit (ch : Z) : bool := (48 <=? ch) && (ch <=? 57).
Definition newline : Z := 10.

Definition resconf_issep (ch : Z) : bool := isspace ch || (ch =? 44).
Definition resconf_iscom (ch : Z) : bool := (ch =? 35) || (ch =? 59).

(** The decimal number at the start of [l], as an unsigned of [bits] bits. *)
Fixpoint digits (bits n : Z) (l : list Z) : out Z :=
  match l with
  | [] => UB
  | ch :: l' => if isdigit ch then digits bits ((n * 10 + (ch - 48)) mod 2 ^ bits) l' else Val n
  end.

(** ** Addresses *)
Definition AF_UNSPEC : Z := 0.
Definition AF_INET : Z := 2.
Definition AF_INET6 : Z := 10.

(** [struct sockaddr_storage]: the family, the port as the number its two bytes
    denote in network order, the four bytes [sin_addr] is at, and the sixteen
    [sin6_addr] is at. *)
Record sockaddr_storage := SS { ss_family : Z; ss_port : Z; ss_a4 : list Z; ss_a6 : list Z }.
#[export] Instance sockaddr_storage_eq_dec : EqDecision sockaddr_storage.
Proof. solve_decision. Defined.

Definition ss_zero : sockaddr_storage := SS 0 0 (replicate 4 0) (replicate 16 0).

(** The results of [inet_pton]: the address, 0 and -1. *)
Inductive pton_res := PtonOk (addr : list Z) | PtonBad | PtonErr.

Definition dns_sa_addr (af : Z) (ss : sockaddr_storage) : list Z :=
  if af =? AF_INET6 then ss_a6 ss else ss_a4 ss.

(** What a write through [dns_sa_addr], of a port and of the family leave. *)
Definition set_addr (af : Z) (ss : sockaddr_storage) (a : list Z) : sockaddr_storage :=
  if af =? AF_INET6 then SS (ss_family ss) (ss_port ss) (ss_a4 ss) a else SS (ss_family ss) (ss_port ss) a (ss_a6 ss).
Definition set_port_family (af port : Z) (ss : sockaddr_storage) : sockaddr_storage :=
  SS af port (ss_a4 ss) (ss_a6 ss).

(** ** The configuration *)
Inductive tcp_mode := TCP_ENABLE | TCP_ONLY | TCP_DISABLE.
#[export] Instance tcp_mode_eq_dec : EqDecision tcp_mode.
Proof. solve_decision. Defined.

Record options := Options {
  edns0 : bool; ndots : Z; timeout : Z; attempts : Z; rotate : bool; recurse : bool; smart : bool; tcp : tcp_mode }.

Record resolv_conf := Resconf {
  nameserver : list sockaddr_storage;
  search : list (list Z);
  lookup : list Z;
  opts : options;
  iface : sockaddr_storage;
  rc_refcount : Z }.

Definition set_nameserver rc v := Resconf v (search rc) (lookup rc) (opts rc) (iface rc) (rc_refcount rc).
Definition set_search rc v := Resconf (nameserver rc) v (lookup rc) (opts rc) (iface rc) (rc_refcount rc).
Definition set_lookup rc v := Resconf (nameserver rc) (search rc) v (opts rc) (iface rc) (rc_refcount rc).
Definition set_opts rc v := Resconf (nameserver rc) (search rc) (lookup rc) v (iface rc) (rc_refcount rc).
Definition set_iface rc v := Resconf (nameserver rc) (search rc) (lookup rc) (opts rc) v (rc_refcount rc).
Definition set_refcount rc v := Resconf (nameserver rc) (search rc) (lookup rc) (opts rc) (iface rc) v.

Definition set_edns0 o v := Options v (ndots o) (timeout o) (attempts o) (rotate o) (recurse o) (smart o) (tcp o).
Definition set_ndots o v := Options (edns0 o) v (timeout o) (attempts o) (rotate o) (recurse o) (smart o) (tcp o).
Definition set_timeout o v := Options (edns0 o) (ndots o) v (attempts o) (rotate o) (recurse o) (smart o) (tcp o).
Definition set_attempts o v := Options (edns0 o) (ndots o) (timeout o) v (rotate o) (recurse o) (smart o) (tcp o).
Definition set_rotate o v := Options (edns0 o) (ndots o) (timeout o) (attempts o) v (recurse o) (smart o) (tcp o).
Definition set_recurse o v := Options (edns0 o) (ndots o) (timeout o) (attempts o) (rotate o) v (smart o) (tcp o).
Definition set_smart o v := Options (edns0 o) (ndots o) (timeout o) (attempts o) (rotate o) (recurse o) v (tcp o).
Definition set_tcp o v := Options (edns0 o) (ndots o) (timeout o) (attempts o) (rotate o) (recurse o) (smart o) v.

(** [char search[4][256]], all NUL. *)
Definition MAXNAME1 : Z := DNS_D_MAXNAME + 1.
Definition no_search : list (list Z) := replicate 4 (replicate 256 0).

Definition char_f : Z := 102.
Definition char_b : Z := 98.
Definition char_c : Z := 99.

(** ** Keywords *)
Inductive keyword :=
  | KW_NAMESERVER | KW_DOMAIN | KW_SEARCH | KW_LOOKUP | KW_FILE | KW_BIND | KW_CACHE | KW_OPTIONS | KW_EDNS0
  | KW_NDOTS | KW_TIMEOUT | KW_ATTEMPTS | KW_ROTATE | KW_RECURSE | KW_SMART | KW_TCP | KW_TCPx | KW_INTERFACE
  | KW_ZERO | KW_ONE | KW_ENABLE | KW_ONLY | KW_DISABLE.

Definition keyword_words : list (keyword * string) :=
  [(KW_NAMESERVER, "nameserver"); (KW_DOMAIN, "domain"); (KW_SEARCH, "search"); (KW_LOOKUP, "lookup");
   (KW_FILE, "file"); (KW_BIND, "bind"); (KW_CACHE, "cache"); (KW_OPTIONS, "options"); (KW_EDNS0, "edns0");
   (KW_ROTATE, "rotate"); (KW_RECURSE, "recurse"); (KW_SMART, "smart"); (KW_TCP, "tcp");
   (KW_INTERFACE, "interface"); (KW_ZERO, "0"); (KW_ONE, "1"); (KW_ENABLE, "enable"); (KW_ONLY, "only");
   (KW_DISABLE, "disable")]%string.

Fixpoint keyword_find (l : list (keyword * string)) (word : list Z) : option keyword :=
  match l with
  | [] => None
  | (k, w) :: l' => if strcasecmp (bytes w) word =? 0 then Some k else keyword_find l' word
  end.

(** [strncasecmp (word, prefix, strlen (prefix)) == 0]. *)
Definition has_prefix (prefix : string) (word : list Z) : bool :=
  strcasecmp_ (take (length (bytes prefix)) (cstr word)) (bytes prefix) =? 0.

(** [None] stands for -1. *)
Definition dns_resconf_keyword (word : list Z) : option keyword :=
  match keyword_find keyword_words word with
  | Some k => Some k
  | None =>
      if has_prefix "ndots:" word then Some KW_NDOTS
      else if has_prefix "timeout:" word then Some KW_TIMEOUT
      else if has_prefix "attempts:" word then Some KW_ATTEMPTS
      else if has_prefix "tcp:" word then Some KW_TCPx
      else None
  end.

Section Inet.
Context (inet_pton : Z -> list Z -> pton_res) (inet_ntop : Z -> list Z -> option (list Z)).

Definition dns_pton (af : Z) (src : list Z) : dns_error + list Z :=
  match inet_pton af src with
  | PtonOk a => inr a
  | PtonErr => inl DNS_ESYSTEM
  | PtonBad => inl DNS_EADDRESS
  end.

(** The loop of [dns_resconf_pton] over the string: the text put in
    [addr.buf[128]], the family, and the port after a ']'. *)
Fixpoint pton_port (port : Z) (src : list Z) : Z :=
  match src with
  | [] => port
  | ch :: src' => pton_port (if isdigit ch then w16 (w16 (port * 10) + (ch - 48)) else port) src'
  end.

Fixpoint pton_loop (buf : list Z) (af : Z) (src : list Z) : list Z * Z * Z :=
  match src with
  | [] => (buf, af, 0)
  | ch :: src' =>
      if (ch =? 32) || (ch =? 9) || (ch =? 91) then pton_loop buf af src'
      else if ch =? 93 then (buf, af, pton_port 0 src')
      else pton_loop (if len buf <? 127 then buf ++ [ch] else buf) (if ch =? 58 then AF_INET6 else af) src'
  end.

Definition dns_resconf_pton (ss : sockaddr_storage) (src : list Z) : dns_error + sockaddr_storage :=
  let '(buf, af, port) := pton_loop [] AF_INET src in
  match dns_pton af buf with
  | inl e => inl e
  | inr a => inr (set_port_family af (if port =? 0 then 53 else port) (set_addr af ss a))
  end.

(** [strchr (addr, ':')]. *)
Definition has_colon (s : list Z) : bool := existsb (fun b => b =? 58) s.

Definition dns_resconf_setiface (rc : resolv_conf) (addr : list Z) (port : Z) : resolv_conf * option dns_error :=
  let af := if has_colon addr then AF_INET6 else AF_INET in
  match dns_pton af addr with
  | inl e => (rc, Some e)
  | inr a => (set_iface rc (set_port_family af port (set_addr af (iface rc) a)), None)
  end.

(** ** The lines of the file *)

(** [words[i]] and what follows it. *)
Definition word_at (words : list Z) (i : Z) : list Z := drop (Z.to_nat (i * MAXNAME1)) words.

Record lexer := Lexer { lx_words : list Z; lx_wp : Z; lx_wc : Z; lx_skip : bool }.
Definition lex0 : lexer := Lexer (replicate 1536 0) 0 0 false.

(** One turn of the [while] over the characters of a line; [lx_skip] is set in
    the loop at [skip], which reads the rest of the line. *)
Definition lex_char (ch : Z) (l : lexer) : out lexer :=
  if lx_skip l then Val l
  else if resconf_issep ch then
    if 0 <? lx_wp l then Val (Lexer (lx_words l) 0 (lx_wc l + 1) (6 <=? lx_wc l + 1)) else Val l
  else if resconf_iscom ch then Val (Lexer (lx_words l) (lx_wp l) (lx_wc l) true)
  else
    words ← (if lx_wp l <? MAXNAME1 then wr (lx_words l) (lx_wc l * MAXNAME1 + lx_wp l) ch else Val (lx_words l));
    Val (Lexer words (w32 (lx_wp l + 1)) (lx_wc l) false).

(** [search] lines: words [i] to [wc - 1] into the slots from [j]. *)
Fixpoint load_search (slots : list (list Z)) (words : list Z) (i wc : Z) : out (list (list Z)) :=
  match slots with
  | [] => Val []
  | slot :: slots' =>
      if i <? wc then
        w ← cstring (word_at words i);
        '(slot, _) ← d_anchor slot MAXNAME1 (word_at words i) (len w);
        rest ← load_search slots' words (i + 1) wc;
        Val (slot :: rest)
      else Val slots
  end.

Definition lookup_char (word : list Z) : option Z :=
  match dns_resconf_keyword word with
  | Some KW_FILE => Some char_f
  | Some KW_BIND => Some char_b
  | Some KW_CACHE => Some char_c
  | _ => None
  end.

(** [n] words of a lookup line from word [i], into [lookup] from [j]. *)
Fixpoint load_lookup (n : nat) (lk : list Z) (words : list Z) (i j : Z) : out (list Z) :=
  match n with
  | O => Val lk
  | S n' =>
      if j <? 3 then
        w ← cstring (word_at words i);
        match lookup_char w with
        | Some c => lk ← wr lk j c; load_lookup n' lk words (i + 1) (j + 1)
        | None => load_lookup n' lk words (i + 1) j
        end
      else Val lk
  end.

(** One word of an options line. *)
Definition load_option (o : options) (words : list Z) (i : Z) : out options :=
  w ← cstring (word_at words i);
  let number (k : nat) := digits 32 0 (drop k (word_at words i)) in
  match dns_resconf_keyword w with
  | Some KW_EDNS0 => Val (set_edns0 o true)
  | Some KW_NDOTS => n ← number 6%nat; Val (set_ndots o n)
  | Some KW_TIMEOUT => n ← number 8%nat; Val (set_timeout o n)
  | Some KW_ATTEMPTS => n ← number 9%nat; Val (set_attempts o n)
  | Some KW_ROTATE => Val (set_rotate o true)
  | Some KW_RECURSE => Val (set_recurse o true)
  | Some KW_SMART => Val (set_smart o true)
  | Some KW_TCP => Val (set_tcp o TCP_ONLY)
  | Some KW_TCPx =>
      v ← cstring (drop 4 (word_at words i));
      Val match dns_resconf_keyword v with
          | Some KW_ENABLE => set_tcp o TCP_ENABLE
          | Some KW_ONE | Some KW_ONLY => set_tcp o TCP_ONLY
          | Some KW_ZERO | Some KW_DISABLE => set_tcp o TCP_DISABLE
          | _ => o
          end
  | _ => Val o
  end.

Fixpoint load_options (n : nat) (o : options) (words : list Z) (i : Z) : out options :=
  match n with
  | O => Val o
  | S n' => o ← load_option o words i; load_options n' o words (i + 1)
  end.

(** The [switch] over the first word of a line of [wc] words; [sa] is
    [sa_count]. *)
Definition load_directive (words : list Z) (wc sa : Z) (rc : resolv_conf) : out (resolv_conf * Z) :=
  w0 ← cstring (word_at words 0);
  match dns_resconf_keyword w0 with
  | Some KW_NAMESERVER =>
      match nameserver rc !! Z.to_nat sa with
      | None => Val (rc, sa)
      | Some ss =>
          w1 ← cstring (word_at words 1);
          match dns_resconf_pton ss w1 with
          | inl _ => Val (rc, sa)
          | inr ss => Val (set_nameserver rc (<[Z.to_nat sa := ss]> (nameserver rc)), sa + 1)
          end
      end
  | Some KW_DOMAIN | Some KW_SEARCH =>
      s ← load_search no_search words 1 wc; Val (set_search rc s, sa)
  | Some KW_LOOKUP =>
      lk ← load_lookup (Z.to_nat (wc - 1)) (lookup rc) words 1 0; Val (set_lookup rc lk, sa)
  | Some KW_OPTIONS =>
      o ← load_options (Z.to_nat (wc - 1)) (opts rc) words 1; Val (set_opts rc o, sa)
  | Some KW_INTERFACE =>
      n ← digits 32 0 (word_at words 2);
      w1 ← cstring (word_at words 1);
      Val ((dns_resconf_setiface rc w1 (w16 n)).1, sa)
  | _ => Val (rc, sa)
  end.

(** The end of a line, reached at a newline or at the end of the file. *)
Definition load_line (l : lexer) (sa : Z) (rc : resolv_conf) : out (resolv_conf * Z) :=
  let wc := if 0 <? lx_wp l then lx_wc l + 1 else lx_wc l in
  if wc <? 2 then Val (rc, sa) else load_directive (lx_words l) wc sa rc.

Fixpoint load_chars (fp : list Z) (l : lexer) (sa : Z) (rc : resolv_conf) : out resolv_conf :=
  match fp with
  | [] => '(rc, _) ← load_line l sa rc; Val rc
  | ch :: fp' =>
      if ch =? newline then '(rc, sa) ← load_line l sa rc; load_chars fp' lex0 sa rc
      else l ← lex_char ch l; load_chars fp' l sa rc
  end.

(** Its result is always 0. *)
Definition dns_resconf_loadfile (rc : resolv_conf) (fp : list Z) : out resolv_conf := load_chars fp lex0 0 rc.

(** ** Opening and closing *)
Context (malloc_ok : bool) (gethostname : Z -> option (list Z)) (fopen : string -> option (list Z)).

Definition resconf_initializer : resolv_conf :=
  Resconf (replicate 3 ss_zero) no_search [char_b; char_f; 0]
    (Options false 1 5 2 false false false TCP_ENABLE) (SS AF_INET 0 (replicate 4 0) (replicate 16 0)) 0.

(** [gethostname n] is what the call leaves in a buffer of [n] bytes. *)
Definition dns_resconf_acquire (rc : resolv_conf) : resolv_conf * Z :=
  (set_refcount rc (w32 (rc_refcount rc + 1)), rc_refcount rc).
Definition dns_resconf_release (rc : resolv_conf) : resolv_conf * Z :=
  (set_refcount rc (w32 (rc_refcount rc - 1)), rc_refcount rc).

Definition dns_resconf_open : out (dns_error + resolv_conf) :=
  if negb malloc_ok then Val (inl DNS_ESYSTEM)
  else
    let rc := set_nameserver resconf_initializer
                (<[0%nat := SS AF_INET 53 (replicate 4 0) (replicate 16 0)]> (nameserver resconf_initializer)) in
    match gethostname MAXNAME1 with
    | None => Val (inl DNS_ESYSTEM)
    | Some s0 =>
        n ← cstring s0; '(s0, _) ← d_anchor s0 MAXNAME1 s0 (len n);
        n ← cstring s0; '(s0, _) ← d_cleave s0 MAXNAME1 (len n);
        Val (inr (dns_resconf_acquire (set_search rc (<[0%nat := s0]> (search rc)))).1)
    end.

(** [None] after the memory was released. *)
Definition dns_resconf_close (rc : resolv_conf) : option resolv_conf :=
  let '(rc, n) := dns_resconf_release rc in if n =? 1 then None else Some rc.

Definition dns_resconf_mortal (rc : option resolv_conf) : option resolv_conf :=
  match rc with Some rc => Some (dns_resconf_release rc).1 | None => None end.

Definition dns_resconf_loadpath (rc : resolv_conf) (path : string) : out (resolv_conf * option dns_error) :=
  match fopen path with
  | None => Val (rc, Some DNS_ESYSTEM)
  | Some fp => rc ← dns_resconf_loadfile rc fp; Val (rc, None)
  end.

Definition dns_resconf_local : out (dns_error + resolv_conf) :=
  r ← dns_resconf_open;
  match r with
  | inl e => Val (inl e)
  | inr rc =>
      '(rc, e) ← dns_resconf_loadpath rc "/etc/resolv.conf";
      match e with Some e => Val (inl e) | None => Val (inr rc) end
  end.

Definition dns_resconf_root : out (dns_error + resolv_conf) :=
  r ← dns_resconf_local;
  match r with
  | inl e => Val (inl e)
  | inr rc => Val (inr (set_opts rc (set_recurse (opts rc) true)))
  end.

(** ** The search list *)

(** The dots in [qname]. *)
Definition dots (q : list Z) : Z := Z.of_nat (length (filter (fun b => b = dot) q)).

(** [state] holds the case to go on with in its low byte, then [srchi], then
    [ndots]. The result is the buffer, the length of the name in it (0 when
    there is none) and the next state. *)
Definition search_state (st srchi nd : Z) : Z :=
  Z.lor (Z.lor (Z.shiftl (Z.land 255 st) 0) (Z.shiftl (Z.land 255 srchi) 8)) (Z.shiftl (Z.land 255 nd) 16).

Definition search_end (dst : list Z) (lim n st srchi nd : Z) : out (list Z * Z * Z) :=
  dst ← dns__printnul dst lim n; Val (dst, n, search_state st srchi nd).

Definition search_case2 (dst : list Z) (lim : Z) (q : list Z) (rc : resolv_conf) (st srchi nd : Z) :=
  let st := st + 1 in
  if nd <? ndots (opts rc) then '(dst, n) ← d_anchor dst lim q (len q); search_end dst lim n st srchi nd
  else search_end dst lim 0 st srchi nd.

Definition search_case1 (dst : list Z) (lim : Z) (q : list Z) (rc : resolv_conf) (st srchi nd : Z) :=
  let next := search_case2 dst lim q rc (st + 1) srchi nd in
  match search rc !! Z.to_nat srchi with
  | None => next
  | Some domain =>
      d ← cstring domain;
      if len d =? 0 then next
      else
        '(dst, n) ← dns__printstring dst lim 0 q (len q);
        '(dst, n) ← d_anchor dst lim dst n;
        '(dst, k) ← dns__printstring dst lim n domain (len d);
        search_end dst lim (n + k) st (srchi + 1) nd
  end.

Definition dns_resconf_search (dst : list Z) (lim : Z) (q : list Z) (rc : resolv_conf) (st : Z) : out (list Z * Z * Z) :=
  let srchi := Z.land 255 (Z.shiftr st 8) in
  let nd := Z.land 255 (Z.shiftr st 16) in
  let case := Z.land 255 st in
  if case =? 0 then
    let nd := nd + dots q in
    let st := st + 1 in
    if ndots (opts rc) <=? nd then '(dst, n) ← d_anchor dst lim q (len q); search_end dst lim n st srchi nd
    else search_case1 dst lim q rc st srchi nd
  else if case =? 1 then search_case1 dst lim q rc st srchi nd
  else if case =? 2 then search_case2 dst lim q rc st srchi nd
  else search_end dst lim 0 st srchi nd.

(** ** Writing the configuration *)

(** [%u] and [%hu]. *)
Definition pct_u (n : Z) : list Z := dns__print10 n 0.

(** [addr] before [inet_ntop] fills it: "[INVALID]" stays when that fails. *)
Definition ntop_text (af : Z) (a : list Z) : list Z :=
  match inet_ntop af a with Some t => t | None => bytes "[INVALID]" end.

(** The addresses up to the first that is not set. *)
Fixpoint dump_nameservers (l : list sockaddr_storage) : list Z :=
  match l with
  | [] => []
  | ss :: l' =>
      let af := ss_family ss in
      if af =? AF_UNSPEC then []
      else
        let addr := ntop_text af (dns_sa_addr af ss) in
        (if ss_port ss =? 53 then bytes "nameserver " ++ addr ++ [newline]
         else bytes "nameserver [" ++ addr ++ bytes "]:" ++ pct_u (ss_port ss) ++ [newline])
        ++ dump_nameservers l'
  end.

Fixpoint dump_search (l : list (list Z)) : list Z :=
  match l with
  | [] => []
  | s :: l' => match cstr s with [] => [] | t => [32] ++ t ++ dump_search l' end
  end.

Definition dump_lookup_char (c : Z) : list Z :=
  if c =? char_b then bytes " bind" else if c =? char_f then bytes " file" else if c =? char_c then bytes " cache" else [].
Fixpoint dump_lookup (l : list Z) : list Z :=
  match l with
  | [] => []
  | c :: l' => if c =? 0 then [] else dump_lookup_char c ++ dump_lookup l'
  end.

Definition flag (b : bool) (s : string) : list Z := if b then bytes s else [].

Definition dump_options (o : options) : list Z :=
  bytes "options ndots:" ++ pct_u (ndots o) ++ bytes " timeout:" ++ pct_u (timeout o) ++ bytes " attempts:" ++ pct_u (attempts o)
  ++ flag (edns0 o) " edns0" ++ flag (rotate o) " rotate" ++ flag (recurse o) " recurse" ++ flag (smart o) " smart"
  ++ match tcp o with TCP_ENABLE => [] | TCP_ONLY => bytes " tcp" | TCP_DISABLE => bytes " tcp:disable" end
  ++ [newline].

Definition dump_iface (ss : sockaddr_storage) : list Z :=
  let af := ss_family ss in
  if af =? AF_UNSPEC then []
  else bytes "interface " ++ ntop_text af (dns_sa_addr af ss) ++ [32] ++ pct_u (ss_port ss) ++ [newline].

Definition dns_resconf_dump (rc : resolv_conf) : list Z :=
  dump_nameservers (nameserver rc)
  ++ bytes "search" ++ dump_search (search rc) ++ [newline]
  ++ bytes "lookup" ++ dump_lookup (lookup rc) ++ [newline]
  ++ dump_options (opts rc)
  ++ dump_iface (iface rc).
End Inet.
