(* ===== verification/DnsResconfSpec.v ===== *)
(** libdns: what reading resolv.conf means, on lists of words.

    The buffer functions of [DnsResconf] are related to the names of [DnsName];
    the parser that works in [words[6][256]] is shown to implement
    [spec_loadfile], which splits the text into lines and lines into words. *)

From stdpp Require Import prelude strings.
From Stdlib Require Import ZArith Lia.
From S2P Require Import Prelude DnsBase DnsName DnsRdata DnsResconf.
Local Open Scope Z_scope.

(** ** Buffers *)
Lemma to_nat_len l : Z.to_nat (len l) = length l.
Proof. unfold len. lia. Qed.

(** The buffer [dst] of [lim] bytes after the text [t] was put at its start and
    a NUL behind it, cut to the buffer. *)
Definition store (lim : Z) (dst t : list Z) : list Z :=
  let k := Z.to_nat (Z.min (len t) (lim - 1)) in take k t ++ 0 :: drop (S k) dst.

Lemma wr_app a x b v : wr (a ++ x :: b) (len a) v = Val (a ++ v :: b).
Proof.
  rewrite wr_in by (rewrite len_app, len_cons; pose proof (len_nonneg a); pose proof (len_nonneg b); lia).
  unfold len. rewrite Nat2Z.id, insert_app_r_alt by lia. by rewrite Nat.sub_diag.
Qed.

Lemma wr_at l i v : 0 <= i < len l -> wr l i v = Val (take (Z.to_nat i) l ++ v :: drop (S (Z.to_nat i)) l).
Proof.
  intros Hi. unfold len in Hi. rewrite wr_in by done. rewrite insert_take_drop by lia. done.
Qed.

Lemma wrn_start dst bs : len bs <= len dst -> wrn dst 0 bs = Val (bs ++ drop (length bs) dst).
Proof.
  intros Hl. unfold wrn. destruct (Z.eqb_spec (len bs) 0) as [E|E].
  - unfold len in E. by destruct bs.
  - destruct (Z.leb_spec (0 + len bs) (len dst)); [|lia]. cbn [andb Z.leb Z.compare]. change (take (Z.to_nat 0) dst) with (@nil Z). cbn [app]. do 3 f_equal.
    unfold len. lia.
Qed.

(** Writing the byte behind a text that was put at the start of [dst]. *)
Lemma wr_tail a dst v i : i = len a -> i < len dst ->
  wr (a ++ drop (length a) dst) i v = Val ((a ++ [v]) ++ drop (length (a ++ [v])) dst).
Proof.
  intros -> Hl. unfold len in Hl. destruct (drop (length a) dst) as [|x r] eqn:E.
  { apply (f_equal length) in E. rewrite length_drop in E. cbn in E. lia. }
  rewrite wr_app, <- app_assoc, length_app. cbn. do 3 f_equal.
  by rewrite <- drop_drop, E.
Qed.

Lemma wr_last a x i v : i = len a -> wr (a ++ [x]) i v = Val (a ++ [v]).
Proof. intros ->. apply wr_app. Qed.

Lemma len_store lim dst t : 0 < lim -> len dst = lim -> len (store lim dst t) = lim.
Proof.
  intros Hl Hd. unfold store. rewrite len_app, len_cons. unfold len in *.
  rewrite length_take, length_drop. lia.
Qed.

Lemma store_fits lim dst t : len t < lim -> store lim dst t = t ++ 0 :: drop (S (length t)) dst.
Proof.
  intros Hl. unfold store. rewrite Z.min_l by lia. unfold len. rewrite Nat2Z.id. by rewrite firstn_all.
Qed.

Lemma last_take_rd src n b : 0 < n <= len src -> rd src (n - 1) = Val b <-> last (take (Z.to_nat n) src) = Some b.
Proof.
  intros Hn. unfold rd. destruct (Z.ltb_spec (n - 1) 0); [lia|]. unfold len in Hn.
  rewrite last_lookup, length_take, lookup_take_lt by lia.
  replace (pred (Z.to_nat n `min` length src)) with (Z.to_nat (n - 1)) by lia.
  destruct (src !! _); split; congruence.
Qed.

Lemma store_eq lim dst t : 0 < lim -> len t < lim -> store lim dst t = (t ++ [0]) ++ drop (length (t ++ [0])) dst.
Proof. intros. rewrite store_fits by done. rewrite <- app_assoc, length_app, Nat.add_comm. done. Qed.

Lemma store_cut lim dst t : 0 < lim -> len dst = lim -> lim <= len t -> store lim dst t = take (Z.to_nat (lim - 1)) t ++ [0].
Proof.
  intros. unfold store. rewrite Z.min_r by lia. rewrite drop_ge; [done|]. unfold len in *. lia.
Qed.

(** [dns_d_anchor] leaves the anchored name in its buffer and returns its
    length. *)
Lemma d_anchor_store dst lim src n : 0 < lim -> len dst = lim -> 0 < n <= len src ->
  let name := DnsName.dns_d_anchor (take (Z.to_nat n) src) in
  d_anchor dst lim src n = Val (store lim dst name, len name).
Proof.
  intros Hl Hd Hn. cbn zeta. unfold d_anchor. destruct (Z.eqb_spec n 0); [lia|].
  rewrite rdn_in by lia. cbn [mbind out_bind]. change (Z.to_nat 0) with 0%nat. rewrite drop_0. set (T := take (Z.to_nat n) src).
  assert (length T = Z.to_nat n) as HT by (unfold T, len in *; rewrite length_take; lia).
  assert (len T = n) as HlT by (unfold len; lia).
  assert (take (Z.to_nat (lim `min` n)) src = take (Z.to_nat (lim `min` n)) T) as ->
    by (unfold T; rewrite take_take; f_equal; lia).
  rewrite wrn_start by (unfold len in *; rewrite length_take; lia). cbn [mbind out_bind].
  destruct (last T) as [b|] eqn:EL; cycle 1.
  { apply last_None in EL. rewrite EL in HT. cbn in HT. lia. }
  rewrite (proj2 (last_take_rd src n b Hn) EL). cbn [mbind out_bind].
  unfold DnsName.dns_d_anchor. rewrite EL. destruct (Z.ltb_spec 0 lim); [|lia].
  destruct (Z.ltb_spec n lim) as [Hlt|Hge].
  - rewrite Z.min_r, firstn_all2 by lia. destruct (Z.eqb_spec b dot); cbn [mbind out_bind].
    + rewrite Z.min_r, wr_tail by lia. cbn. rewrite store_eq, HlT by lia. done.
    + rewrite wr_tail by lia. cbn [mbind out_bind]. assert (len (T ++ [dot]) = n + 1) as HlT' by (rewrite len_app, HlT; done).
      destruct (Z.eq_dec (n + 1) lim) as [E|E].
      * rewrite Z.min_l by lia. rewrite drop_ge, app_nil_r by (unfold len in *; lia). rewrite wr_last by lia. cbn. rewrite store_cut by lia.
        rewrite HlT', take_app_length' by lia. done.
      * rewrite Z.min_r, wr_tail by lia. cbn [mbind out_bind]. rewrite store_eq, HlT' by lia. done.
  - rewrite Z.min_l by lia. rewrite drop_ge, app_nil_r by (unfold len in *; rewrite length_take; lia).
    assert (exists x, take (Z.to_nat lim) T = take (Z.to_nat (lim - 1)) T ++ [x]) as (x & ->).
    { destruct (lookup_lt_is_Some_2 T (Z.to_nat (lim - 1))) as [x Hx]; [lia|]. exists x. rewrite <- (take_S_r _ _ x Hx). f_equal. lia. }
    assert (lim - 1 = len (take (Z.to_nat (lim - 1)) T)) as Hk by (unfold len; rewrite length_take; lia).
    destruct (Z.eqb_spec b dot); cbn [mbind out_bind]; rewrite Z.min_l by lia; rewrite wr_last by done; cbn [mbind out_bind].
    + rewrite store_cut, HlT by lia. done.
    + rewrite store_cut, len_app, HlT by (rewrite ?len_app, ?len_cons, ?len_nil; lia). rewrite take_app_le by lia. done.
Qed.

Lemma wrn_app a r bs : len bs <= len r -> wrn (a ++ r) (len a) bs = Val (a ++ bs ++ drop (length bs) r).
Proof.
  intros Hl. unfold wrn. destruct (Z.eqb_spec (len bs) 0) as [E|E].
  - unfold len in E. by destruct bs.
  - pose proof (len_nonneg a). rewrite len_app. destruct (Z.leb_spec 0 (len a)); [|lia].
    destruct (Z.leb_spec (len a + len bs) (len a + len r)); [|lia]. cbn [andb]. do 2 f_equal.
    + unfold len. rewrite Nat2Z.id. apply take_app_length.
    + f_equal. unfold len. replace (Z.to_nat _) with (length a + length bs)%nat by lia.
      by rewrite drop_app_add.
Qed.

Lemma printstring_start dst lim q r : 0 < lim -> len dst = lim -> len q <= lim ->
  dns__printstring dst lim 0 (q ++ r) (len q) = Val (q ++ drop (length q) dst, len q).
Proof.
  intros Hl Hd Hq. unfold dns__printstring. destruct (Z.ltb_spec 0 lim); [|lia]. rewrite Z.sub_0_r, Z.min_l by lia.
  rewrite rdn_in by (rewrite ?len_app; pose proof (len_nonneg q); pose proof (len_nonneg r); lia).
  cbn [mbind out_bind]. change (Z.to_nat 0) with 0%nat. rewrite drop_0. rewrite to_nat_len, take_app_length.
  by rewrite wrn_start by lia.
Qed.

Lemma printstring_app a rest lim d r : len (a ++ rest) = lim -> len a + len d < lim ->
  dns__printstring (a ++ rest) lim (len a) (d ++ r) (len d) = Val ((a ++ d) ++ drop (length d) rest, len d).
Proof.
  intros Hl Hd. rewrite len_app in Hl. pose proof (len_nonneg a). pose proof (len_nonneg d). pose proof (len_nonneg r).
  unfold dns__printstring. destruct (Z.ltb_spec (len a) lim); [|lia]. rewrite Z.min_l by lia.
  rewrite rdn_in by (rewrite ?len_app; lia). cbn [mbind out_bind]. change (Z.to_nat 0) with 0%nat. rewrite drop_0.
  rewrite to_nat_len, take_app_length. rewrite wrn_app by lia. cbn. by rewrite app_assoc.
Qed.

Lemma printnul_in a rest lim : len (a ++ rest) = lim -> len a < lim ->
  dns__printnul (a ++ rest) lim (len a) = Val (a ++ 0 :: drop 1 rest).
Proof.
  intros Hl Ha. rewrite len_app in Hl. pose proof (len_nonneg a). unfold dns__printnul. destruct (Z.ltb_spec 0 lim); [|lia].
  rewrite Z.min_l by lia. destruct rest; [rewrite len_nil in Hl; lia|]. by rewrite wr_app.
Qed.

Lemma cstring_cstr w r : cstring (w ++ 0 :: r) = Val (cstr w).
Proof. induction w as [|b w IH]; [done|]. cbn. destruct (Z.eqb_spec b 0); [done|]. by rewrite IH. Qed.

Lemma cstring_split l s : cstring l = Val s -> exists r, l = s ++ 0 :: r.
Proof.
  revert s. induction l as [|b l IH]; intros s; [done|]. cbn. destruct (Z.eqb_spec b 0) as [->|].
  - intros [= <-]. by exists l.
  - rewrite bind_Val. intros (s' & Hs & [= <-]). destruct (IH s' Hs) as (r & ->). by exists r.
Qed.

(** ** The search list *)

(** The domains before the first empty one. *)
Fixpoint domains (slots : list (list Z)) : list (list Z) :=
  match slots with
  | [] => []
  | s :: slots' => match cstr s with [] => [] | d => d :: domains slots' end
  end.

(** The names to try for [q], in order: the name itself first when it has at
    least [ndots] dots, and last otherwise. *)
Definition candidates (q : list Z) (rc : resolv_conf) : list (list Z) :=
  let name := DnsName.dns_d_anchor q in
  let searched := (fun d => name ++ d) <$> domains (search rc) in
  if ndots (opts rc) <=? dots q then name :: searched else searched ++ [name].

(** Calling [dns_resconf_search] until it returns 0, as the resolver does. *)
Fixpoint search_all (n : nat) (dst : list Z) (lim : Z) (q : list Z) (rc : resolv_conf) (st : Z) : out (list (list Z)) :=
  match n with
  | O => Loop
  | S n' =>
      '(dst, k, st) ← dns_resconf_search dst lim q rc st;
      if k =? 0 then Val [] else rest ← search_all n' dst lim q rc st; Val (cstr dst :: rest)
  end.

Lemma land255 x : Z.land 255 x = x mod 256.
Proof. rewrite Z.land_comm. change 255 with (Z.ones 8). by rewrite Z.land_ones. Qed.

Lemma lor_add a b k : 0 <= a < 2 ^ k -> 0 <= k -> Z.lor a (Z.shiftl b k) = a + b * 2 ^ k.
Proof.
  intros Ha Hk. rewrite Z.shiftl_mul_pow2 by done.
  assert (Z.land a (b * 2 ^ k) = 0) as H0; [|by rewrite <- Z.lxor_lor, <- Z.add_nocarry_lxor].
  apply Z.bits_inj'. intros n Hn. rewrite Z.land_spec, Z.bits_0.
  destruct (Z.lt_ge_cases n k); [rewrite (Z.mul_pow2_bits_low b k n) by lia; apply andb_false_r|].
  destruct (Z.eq_dec a 0) as [->|]; [by rewrite Z.bits_0|]. rewrite (Z.bits_above_log2 a n); [done|lia|].
  apply Z.log2_lt_pow2; [lia|]. apply Z.lt_le_trans with (2 ^ k); [lia|apply Z.pow_le_mono_r; lia].
Qed.

Lemma search_state_eq c s n : search_state c s n = c mod 256 + (s mod 256) * 256 + (n mod 256) * 65536.
Proof.
  unfold search_state. rewrite !land255, Z.shiftl_0_r.
  pose proof (Z.mod_pos_bound c 256 eq_refl). pose proof (Z.mod_pos_bound s 256 eq_refl).
  rewrite (lor_add (c mod 256)) by lia. rewrite lor_add by lia. lia.
Qed.

Lemma search_state_fields c s n : 0 <= c < 256 -> 0 <= s < 256 -> 0 <= n < 256 ->
  let st := search_state c s n in
  Z.land 255 st = c /\ Z.land 255 (Z.shiftr st 8) = s /\ Z.land 255 (Z.shiftr st 16) = n.
Proof.
  intros Hc Hs Hn. cbn zeta. rewrite search_state_eq, (Z.mod_small c), (Z.mod_small s), (Z.mod_small n) by lia.
  rewrite !land255, !Z.shiftr_div_pow2 by lia.
  change (2 ^ 8) with 256. change (2 ^ 16) with 65536. split_and!.
  - replace (c + s * 256 + n * 65536) with (c + (s + n * 256) * 256) by lia. rewrite Z.mod_add by lia. by apply Z.mod_small.
  - replace (c + s * 256 + n * 65536) with (c + (s + n * 256) * 256) by lia. rewrite Z.div_add, (Z.div_small c) by lia.
    rewrite Z.add_0_l, Z.mod_add by lia. by apply Z.mod_small.
  - rewrite Z.div_add, Z.div_small by lia.
    rewrite Z.add_0_l. by apply Z.mod_small.
Qed.

(** Only the low byte of the case counts. *)
Lemma search_state_low c c' s n : c mod 256 = c' mod 256 -> search_state c s n = search_state c' s n.
Proof. intros E. by rewrite !search_state_eq, E. Qed.
Lemma search_state_step c k s n : search_state (search_state c s n + k) s n = search_state (c + k) s n.
Proof.
  apply search_state_low. rewrite search_state_eq.
  replace (c mod 256 + s mod 256 * 256 + n mod 256 * 65536 + k) with (c mod 256 + k + (s mod 256 + n mod 256 * 256) * 256) by lia.
  by rewrite Z.mod_add, Zplus_mod_idemp_l by lia.
Qed.

Lemma cstr_app0 t r : nulfree t -> cstr (t ++ 0 :: r) = t.
Proof. induction 1 as [|b t Hb _ IH]; [done|]. cbn. destruct (Z.eqb_spec b 0); [done|]. by rewrite IH. Qed.
Lemma nulfree_cstr l : nulfree (cstr l).
Proof. induction l as [|b l IH]; [constructor|]. cbn. destruct (Z.eqb_spec b 0); constructor; done. Qed.
Lemma nulfree_anchor q : nulfree q -> nulfree (DnsName.dns_d_anchor q).
Proof.
  intros Hq. unfold DnsName.dns_d_anchor. destruct (last q) as [b|]; [|constructor]. destruct (b =? dot); [done|].
  apply Forall_app. split; [done|]. by repeat constructor.
Qed.
Lemma anchor_len q : q <> [] -> len q <= len (DnsName.dns_d_anchor q).
Proof.
  intros Hq. unfold DnsName.dns_d_anchor. destruct (last q) eqn:E; [|by apply last_None in E].
  destruct (_ =? dot); rewrite ?len_app, ?len_cons, ?len_nil; lia.
Qed.
Lemma anchor_anchor q : DnsName.dns_d_anchor (DnsName.dns_d_anchor q) = DnsName.dns_d_anchor q.
Proof.
  unfold DnsName.dns_d_anchor at 2 3. destruct (last q) as [b|] eqn:E; [|done]. destruct (Z.eqb_spec b dot) as [->|].
  - unfold DnsName.dns_d_anchor. by rewrite E.
  - unfold DnsName.dns_d_anchor. by rewrite last_snoc.
Qed.
Lemma dots_bound q : 0 <= dots q <= len q.
Proof. unfold dots, len. pose proof (length_filter (fun b => b = dot) q). lia. Qed.

(** A slot of the search list: a buffer with a NUL in it. *)
Definition slot_ok (s : list Z) : Prop := exists d r, s = d ++ 0 :: r.

Section Search.
Context (lim : Z) (q : list Z) (rc : resolv_conf).
Context (Hq : q <> []) (Nq : nulfree q) (Lq : len q <= 255) (Hslots : Forall slot_ok (search rc)) (H4 : (length (search rc) <= 4)%nat).
Let name := DnsName.dns_d_anchor q.
Context (Hname : len name < lim) (Hfit : Forall (fun d => len name + len d < lim) (domains (search rc))).

Lemma name_pos : 0 < len name.
Proof. pose proof (anchor_len q Hq). unfold name. assert (0 < len q); [|lia]. unfold len. destruct q; [done|cbn; lia]. Qed.

Lemma anchor_end dst st i nd : len dst = lim ->
  exists dst', ('(dst, n) ← d_anchor dst lim q (len q); search_end dst lim n st i nd) = Val (dst', len name, search_state st i nd)
    /\ len dst' = lim /\ cstr dst' = name.
Proof.
  intros Hd. pose proof name_pos. pose proof (anchor_len q Hq). assert (0 < len q) by (unfold len; destruct q; [done|cbn; lia]).
  rewrite d_anchor_store by (unfold name in *; lia). rewrite to_nat_len, firstn_all. fold name. cbn [mbind out_bind].
  assert (len (store lim dst name) = lim) as Hs by (apply len_store; lia). rewrite store_fits in * by lia. unfold search_end.
  rewrite printnul_in by done. cbn. eexists. split; [done|]. split; [|apply cstr_app0, nulfree_anchor; done].
  rewrite <- Hs. autorewrite with len. done.
Qed.

Lemma search_none dst st i nd : len dst = lim ->
  exists dst', search_end dst lim 0 st i nd = Val (dst', 0, search_state st i nd) /\ len dst' = lim.
Proof.
  intros Hd. pose proof name_pos. unfold search_end. rewrite (printnul_in [] dst) by (cbn; rewrite ?len_nil; lia). cbn. eexists. split; [done|].
  unfold len in *. cbn [length]. rewrite length_drop. lia.
Qed.

Lemma case1_domain dst st i nd s d : len dst = lim -> search rc !! Z.to_nat i = Some s -> cstr s = d -> d <> [] ->
  len name + len d < lim ->
  exists dst', search_case1 dst lim q rc st i nd = Val (dst', len (name ++ d), search_state st (i + 1) nd)
    /\ len dst' = lim /\ cstr dst' = name ++ d.
Proof.
  intros Hd Hs Hc Hne Hf. pose proof name_pos. unfold search_case1. rewrite Hs.
  pose proof (proj1 (Forall_lookup _ _) Hslots _ _ Hs) as (s0 & r0 & ->).
  pose proof (cstring_cstr s0 r0) as Ecs. destruct (cstring_split _ _ Ecs) as (r & Er).
  rewrite Ecs. cbn [mbind out_bind]. rewrite Er in Hc |- *. rewrite cstr_app0 in Hc by apply nulfree_cstr. rewrite Hc.
  destruct (Z.eqb_spec (len d) 0) as [E|]; [by destruct d|].
  pose proof (anchor_len q Hq) as Hal. fold name in Hal.
  pose proof (printstring_start dst lim q [] ltac:(lia) Hd ltac:(lia)) as Hp. rewrite app_nil_r in Hp. rewrite Hp. cbn [mbind out_bind].
  assert (0 < len q) by (unfold len; destruct q; [done|cbn; lia]).
  rewrite d_anchor_store by (rewrite ?len_app; unfold len in *; rewrite ?length_drop; lia).
  rewrite to_nat_len, take_app_length. fold name. cbn [mbind out_bind]. rewrite store_fits by lia.
  set (rest := 0 :: drop _ _). assert (len (name ++ rest) = lim) as Hrest.
  { unfold rest. rewrite len_app, len_cons. unfold len in *. rewrite length_drop, length_app, length_drop. lia. }
  rewrite printstring_app by done. cbn [mbind out_bind]. rewrite <- len_app. unfold search_end.
  rewrite len_app in Hrest. assert (len (drop (length d) rest) = len rest - len d) as Hdr by (unfold len in *; rewrite length_drop; lia).
  rewrite printnul_in by (rewrite ?len_app in *; lia).
  cbn [mbind out_bind]. eexists. split; [done|].
  split; [|apply cstr_app0, Forall_app; split; [by apply nulfree_anchor|rewrite <- Hc; apply nulfree_cstr]].
  rewrite !len_app, len_cons in *. assert (len (drop 1 (drop (length d) rest)) = len (drop (length d) rest) - 1) by (unfold len in *; rewrite (length_drop _ 1); lia). lia.
Qed.

Lemma case1_end dst st i nd : (forall s, search rc !! Z.to_nat i = Some s -> cstr s = []) ->
  search_case1 dst lim q rc st i nd = search_case2 dst lim q rc (st + 1) i nd.
Proof.
  intros He. unfold search_case1. destruct (search rc !! Z.to_nat i) as [s|] eqn:E; [|done].
  pose proof (proj1 (Forall_lookup _ _) Hslots _ _ E) as (s0 & r0 & Hs). specialize (He s eq_refl). rewrite Hs in *.
  rewrite cstring_cstr. cbn [mbind out_bind]. assert (cstr s0 = []) as ->; [|done].
  clear -He. destruct s0 as [|b s0]; [done|]. cbn in *. by destruct (b =? 0).
Qed.

(** A call in the case [c] with [i] domains used. *)
Lemma search_at1 dst i nd : 0 <= i < 256 -> 0 <= nd < 256 ->
  dns_resconf_search dst lim q rc (search_state 1 i nd) = search_case1 dst lim q rc (search_state 1 i nd) i nd.
Proof.
  intros Hi Hnd. unfold dns_resconf_search. destruct (search_state_fields 1 i nd) as (-> & -> & ->); [lia..|]. done.
Qed.
Lemma search_at3 dst i nd : len dst = lim -> 0 <= i < 256 -> 0 <= nd < 256 ->
  exists dst', dns_resconf_search dst lim q rc (search_state 3 i nd) = Val (dst', 0, search_state 3 i nd) /\ len dst' = lim.
Proof.
  intros Hd Hi Hnd. unfold dns_resconf_search. destruct (search_state_fields 3 i nd) as (-> & -> & ->); [lia..|]. cbn [Z.eqb Pos.eqb].
  destruct (search_none dst (search_state 3 i nd) i nd Hd) as (dst' & E & Hd'). exists dst'. rewrite E. split; [|done].
  pose proof (search_state_step 3 0 i nd) as Hst. rewrite Z.add_0_r in Hst. by rewrite Hst.
Qed.

(** The calls when the search names are used up. *)
Lemma search_tail m dst i nd : (2 <= m)%nat -> len dst = lim -> 0 <= i < 256 -> 0 <= nd < 256 ->
  (forall s, search rc !! Z.to_nat i = Some s -> cstr s = []) ->
  search_all m dst lim q rc (search_state 1 i nd) = Val (if nd <? ndots (opts rc) then [name] else []).
Proof.
  destruct m as [|[|m]]; [lia..|]. intros _ Hd Hi Hnd He. cbn [search_all]. rewrite search_at1, case1_end by done. unfold search_case2. rewrite <- Z.add_assoc. change (1 + 1) with 2.
  destruct (Z.ltb_spec nd (ndots (opts rc))).
  - destruct (anchor_end dst (search_state 1 i nd + 2) i nd Hd) as (dst' & -> & Hd' & Hc). cbn [mbind out_bind].
    pose proof name_pos. destruct (Z.eqb_spec (len name) 0); [lia|]. rewrite (search_state_step 1 2 i nd).
    change (1 + 2) with 3. destruct (search_at3 dst' i nd) as (dst'' & -> & _); [done..|]. cbn [mbind out_bind Z.eqb]. by rewrite Hc.
  - by destruct (search_none dst (search_state 1 i nd + 2) i nd Hd) as (dst' & -> & _).
Qed.

(** The calls from the search names on. *)
Lemma search_from1 n : forall m i dst nd, (n + 2 <= m)%nat -> len dst = lim -> 0 <= nd < 256 -> (i + n = length (search rc))%nat ->
  Forall (fun d => len name + len d < lim) (domains (drop i (search rc))) ->
  search_all m dst lim q rc (search_state 1 (Z.of_nat i) nd)
  = Val (((fun d => name ++ d) <$> domains (drop i (search rc))) ++ if nd <? ndots (opts rc) then [name] else []).
Proof.
  induction n as [|n IH]; intros m i dst nd Hm Hd Hnd Hi Hf.
  { rewrite drop_ge by lia. apply search_tail; try lia. intros s Hs. apply lookup_lt_Some in Hs. lia. }
  destruct (search rc !! i) as [s|] eqn:Es; [|apply lookup_ge_None in Es; lia].
  rewrite (drop_S _ _ _ Es) in Hf |- *. cbn [domains] in *. destruct (cstr s) as [|b d] eqn:Ec.
  { apply search_tail; try lia. intros s'. rewrite Nat2Z.id, Es. congruence. }
  apply Forall_cons in Hf as [Hf0 Hf1]. destruct m as [|m]; [lia|]. cbn [search_all].
  rewrite search_at1 by lia.
  destruct (case1_domain dst (search_state 1 (Z.of_nat i) nd) (Z.of_nat i) nd s (b :: d)) as (dst' & -> & Hd' & Hc); [done|by rewrite Nat2Z.id|done..|].
  cbn [mbind out_bind]. pose proof name_pos. destruct (Z.eqb_spec (len (name ++ b :: d)) 0) as [E|_].
  { rewrite len_app in E. pose proof (len_nonneg (b :: d)). lia. }
  assert (search_state (search_state 1 (Z.of_nat i) nd) (Z.of_nat i + 1) nd = search_state 1 (Z.of_nat (S i)) nd) as ->.
  { rewrite (search_state_low _ 1) by (rewrite search_state_eq; Z.div_mod_to_equations; lia). f_equal; lia. }
  rewrite IH by (done || lia). cbn. by rewrite Hc.
Qed.

(** Only the low byte of the state is used once its case is known. *)
Lemma case1_low dst c c' i nd : c mod 256 = c' mod 256 -> search_case1 dst lim q rc c i nd = search_case1 dst lim q rc c' i nd.
Proof.
  intros E. assert (forall k, (c + k) mod 256 = (c' + k) mod 256) as Ek
    by (intros k; rewrite <- (Zplus_mod_idemp_l c), <- (Zplus_mod_idemp_l c'), E; done).
  unfold search_case1, search_case2, search_end. rewrite <- !Z.add_assoc.
  assert (forall k i, search_state (c + k) i nd = search_state (c' + k) i nd) as Es by (intros; by apply search_state_low).
  assert (search_state c (i + 1) nd = search_state c' (i + 1) nd) as -> by (by apply search_state_low).
  by rewrite !Es.
Qed.

Lemma search_all_S n dst st : search_all (S n) dst lim q rc st =
  ('(dst, k, st) ← dns_resconf_search dst lim q rc st;
   if k =? 0 then Val [] else rest ← search_all n dst lim q rc st; Val (cstr dst :: rest)).
Proof. done. Qed.
Lemma search_at0 dst : dns_resconf_search dst lim q rc 0 =
  if ndots (opts rc) <=? dots q then '(dst, n) ← d_anchor dst lim q (len q); search_end dst lim n 1 0 (dots q)
  else search_case1 dst lim q rc 1 0 (dots q).
Proof. done. Qed.

Lemma search_all_from0 dst : len dst = lim -> search_all 7 dst lim q rc 0 = Val (candidates q rc).
Proof.
  intros Hd. pose proof (dots_bound q) as Hdots. unfold candidates. fold name.
  assert (forall n dst, len dst = lim -> (length (search rc) + 2 <= n)%nat ->
    search_all n dst lim q rc (search_state 1 0 (dots q))
    = Val (((fun d => name ++ d) <$> domains (search rc)) ++ if dots q <? ndots (opts rc) then [name] else [])) as Hfrom.
  { intros n dst1 Hd1 Hn. apply (search_from1 (length (search rc)) n 0 dst1 (dots q)); [done..|lia|lia|done]. }
  destruct (Z.leb_spec (ndots (opts rc)) (dots q)) as [Hle|Hgt].
  - rewrite search_all_S. rewrite search_at0. destruct (Z.leb_spec (ndots (opts rc)) (dots q)); [|lia].
    destruct (anchor_end dst 1 0 (dots q) Hd) as (dst' & -> & Hd' & Hc).
    cbn [mbind out_bind]. pose proof name_pos. destruct (Z.eqb_spec (len name) 0); [lia|].
    rewrite Hfrom by (done || lia). destruct (Z.ltb_spec (dots q) (ndots (opts rc))); [lia|]. rewrite app_nil_r. cbn. by rewrite Hc.
  - specialize (Hfrom 7%nat dst Hd ltac:(lia)). destruct (Z.ltb_spec (dots q) (ndots (opts rc))); [|lia].
    rewrite <- Hfrom, !search_all_S, search_at1, search_at0 by lia.
    destruct (Z.leb_spec (ndots (opts rc)) (dots q)); [lia|]. rewrite (case1_low dst 1 (search_state 1 0 (dots q))); [done|].
    rewrite search_state_eq. Z.div_mod_to_equations. lia.
Qed.
End Search.

(** ** Lines and words *)
Fixpoint file_lines (fp : list Z) : list (list Z) :=
  match fp with
  | [] => [[]]
  | ch :: fp' =>
      if ch =? newline then [] :: file_lines fp'
      else match file_lines fp' with l :: ls => (ch :: l) :: ls | [] => [[ch]] end
  end.

Lemma file_lines_nonempty fp : file_lines fp <> [].
Proof. destruct fp; cbn; [done|]. destruct (_ =? newline); [done|]. by destruct (file_lines fp). Qed.

Definition flush (cur : list Z) : list (list Z) := match cur with [] => [] | _ => [cur] end.

(** The words of a line before its comment; [cur] is the word being read. *)
Fixpoint split_words (issep iscom : Z -> bool) (cur l : list Z) : list (list Z) :=
  match l with
  | [] => flush cur
  | ch :: l' =>
      if issep ch then flush cur ++ split_words issep iscom [] l'
      else if iscom ch then flush cur
      else split_words issep iscom (cur ++ [ch]) l'
  end.
Notation tokens := (split_words resconf_issep resconf_iscom).

(** The words the parser keeps. *)
Definition line_words (l : list Z) : list (list Z) := take 6 (tokens [] l).

(** ** What a line does *)
Section Spec.
Context (inet_pton : Z -> list Z -> pton_res).

(** The number at the start of a text. *)
Fixpoint leading (n : Z) (l : list Z) : Z :=
  match l with
  | [] => n
  | ch :: l' => if isdigit ch then leading ((n * 10 + (ch - 48)) mod 2 ^ 32) l' else n
  end.

Definition spec_slot (w : list Z) : list Z := store 256 (replicate 256 0) (DnsName.dns_d_anchor w).

Definition spec_option (o : options) (w : list Z) : options :=
  match dns_resconf_keyword w with
  | Some KW_EDNS0 => set_edns0 o true
  | Some KW_NDOTS => set_ndots o (leading 0 (drop 6 w))
  | Some KW_TIMEOUT => set_timeout o (leading 0 (drop 8 w))
  | Some KW_ATTEMPTS => set_attempts o (leading 0 (drop 9 w))
  | Some KW_ROTATE => set_rotate o true
  | Some KW_RECURSE => set_recurse o true
  | Some KW_SMART => set_smart o true
  | Some KW_TCP => set_tcp o TCP_ONLY
  | Some KW_TCPx =>
      match dns_resconf_keyword (drop 4 w) with
      | Some KW_ENABLE => set_tcp o TCP_ENABLE
      | Some KW_ONE | Some KW_ONLY => set_tcp o TCP_ONLY
      | Some KW_ZERO | Some KW_DISABLE => set_tcp o TCP_DISABLE
      | _ => o
      end
  | _ => o
  end.

(** The letters of a lookup line replace the first ones of the list. *)
Definition spec_lookup (lk : list Z) (ws : list (list Z)) : list Z :=
  let cs := take 3 (omap lookup_char ws) in cs ++ drop (length cs) lk.

Definition spec_directive (ws : list (list Z)) (rc : resolv_conf) (sa : Z) : resolv_conf * Z :=
  let w i := nth i ws [] in
  match dns_resconf_keyword (w 0%nat) with
  | Some KW_NAMESERVER =>
      match nameserver rc !! Z.to_nat sa with
      | None => (rc, sa)
      | Some ss =>
          match dns_resconf_pton inet_pton ss (w 1%nat) with
          | inl _ => (rc, sa)
          | inr ss => (set_nameserver rc (<[Z.to_nat sa := ss]> (nameserver rc)), sa + 1)
          end
      end
  | Some KW_DOMAIN | Some KW_SEARCH =>
      let names := take 4 (drop 1 ws) in
      (set_search rc ((spec_slot <$> names) ++ drop (length names) no_search), sa)
  | Some KW_LOOKUP => (set_lookup rc (spec_lookup (lookup rc) (drop 1 ws)), sa)
  | Some KW_OPTIONS => (set_opts rc (foldl spec_option (opts rc) (drop 1 ws)), sa)
  | Some KW_INTERFACE => ((dns_resconf_setiface inet_pton rc (w 1%nat) (w16 (leading 0 (w 2%nat)))).1, sa)
  | _ => (rc, sa)
  end.

(** A line of fewer than two words says nothing; a word ends at a NUL. *)
Definition spec_line (st : resolv_conf * Z) (ws : list (list Z)) : resolv_conf * Z :=
  if (length ws <? 2)%nat then st else spec_directive (cstr <$> ws) st.1 st.2.

Definition spec_loadfile (rc : resolv_conf) (fp : list Z) : resolv_conf :=
  (foldl spec_line (rc, 0) (line_words <$> file_lines fp)).1.

End Spec.

(** ** The array of words *)
Definition pad (w : list Z) : list Z := w ++ replicate (256 - length w) 0.
Definition layout (ws : list (list Z)) : list Z := concat (pad <$> ws ++ replicate (6 - length ws) []).

Definition short (w : list Z) : Prop := (length w < 256)%nat.

Lemma length_pad w : short w -> length (pad w) = 256%nat.
Proof. unfold short, pad. intros. rewrite length_app, length_replicate. lia. Qed.

Lemma length_pads ws : Forall short ws -> length (concat (pad <$> ws)) = (length ws * 256)%nat.
Proof. induction 1 as [|w ws Hw _ IH]; [done|]. cbn. rewrite length_app, length_pad, IH by done. lia. Qed.

Lemma drop_pads ws i : Forall short ws -> drop (i * 256) (concat (pad <$> ws)) = concat (pad <$> drop i ws).
Proof.
  intros Hs. revert i. induction Hs as [|w ws Hw Hs IH]; intros [|i]; [done|by rewrite drop_nil|done|].
  cbn [fmap list_fmap concat drop]. change (S i * 256)%nat with (256 + i * 256)%nat. rewrite <- (length_pad w Hw) at 1. by rewrite drop_app_add, IH.
Qed.

Lemma short_fill ws n : Forall short ws -> Forall short (ws ++ replicate n []).
Proof. intros. apply Forall_app. split; [done|]. apply Forall_replicate. unfold short. cbn. lia. Qed.

(** [words[i]] is the word [i], or empty, and a NUL. *)
Lemma word_at_layout ws i : Forall short ws -> (length ws <= 6)%nat -> 0 <= i < 6 ->
  exists r, word_at (layout ws) i = nth (Z.to_nat i) ws [] ++ 0 :: r.
Proof.
  intros Hs H6 Hi. unfold word_at, MAXNAME1, DNS_D_MAXNAME. replace (Z.to_nat (i * (255 + 1))) with (Z.to_nat i * 256)%nat by lia.
  unfold layout. rewrite drop_pads by (by apply short_fill). set (l := ws ++ _).
  assert (Forall short l) as Hsl by (by apply short_fill).
  assert (nth (Z.to_nat i) ws [] = nth (Z.to_nat i) l []) as ->.
  { unfold l. destruct (decide (Z.to_nat i < length ws)%nat); [by rewrite app_nth1|]. rewrite app_nth2, (nth_overflow ws) by lia. rewrite nth_lookup.
    destruct (replicate _ _ !! _) as [x|] eqn:E; [|done]. apply lookup_replicate in E as [-> _]. done. }
  destruct (lookup_lt_is_Some_2 l (Z.to_nat i)) as [w Hw]; [unfold l; rewrite length_app, length_replicate; lia|].
  rewrite (drop_S _ _ _ Hw). rewrite (nth_lookup_Some _ _ _ _ Hw). cbn.
  pose proof (proj1 (Forall_lookup _ _) Hsl _ _ Hw) as Hsw. unfold short in Hsw. unfold pad.
  destruct (256 - length w)%nat eqn:E; [lia|]. cbn. rewrite <- app_assoc. cbn. eexists. done.
Qed.

Lemma layout_nil ws : (length ws < 6)%nat -> layout (ws ++ [[]]) = layout ws.
Proof.
  intros Hl. unfold layout. do 2 f_equal. rewrite <- app_assoc, length_app. cbn. f_equal.
  replace (6 - length ws)%nat with (S (6 - (length ws + 1))) by lia. done.
Qed.

(** Adding a character to the word that is being read. *)
Lemma wr_layout ws cur ch : Forall short ws -> (length ws < 6)%nat -> short (cur ++ [ch]) ->
  wr (layout (ws ++ [cur])) (Z.of_nat (length ws) * MAXNAME1 + len cur) ch = Val (layout (ws ++ [cur ++ [ch]])).
Proof.
  intros Hs H6 Hc. unfold short in Hc. rewrite length_app in Hc. cbn in Hc.
  unfold layout. rewrite !length_app, !fmap_app, !concat_app. cbn [fmap list_fmap concat length]. rewrite !app_nil_r. set (z := concat (pad <$> replicate _ _)).
  set (a := concat (pad <$> ws)). assert (len a = Z.of_nat (length ws) * 256) as Ha by (unfold a, len; rewrite length_pads by done; lia).
  unfold pad. rewrite length_app. cbn [length]. replace (256 - length cur)%nat with (S (256 - (length cur + 1))) by lia. cbn [replicate].
  rewrite <- !app_assoc. cbn [app]. unfold MAXNAME1, DNS_D_MAXNAME. change (255 + 1) with 256. rewrite <- Ha, <- len_app.
  rewrite !(app_assoc a). apply wr_app.
Qed.

(** ** Reading a line *)

(** The words in the array, and how many there are, when the line ends here. *)
Definition lex_count (l : lexer) : Z := if 0 <? lx_wp l then lx_wc l + 1 else lx_wc l.

(** [final] are the words of the line when [l] is what is left of it. *)
Inductive reads (L : lexer) (l : list Z) (final : list (list Z)) : Prop :=
  | ReadSkip : lx_skip L = true -> lx_words L = layout final -> lex_count L = Z.of_nat (length final) -> reads L l final
  | ReadWord ws cur : L = Lexer (layout (ws ++ [cur])) (len cur) (Z.of_nat (length ws)) false ->
      (length ws < 6)%nat -> final = take 6 (ws ++ tokens cur l) -> reads L l final.

Lemma split_cur issep iscom cur l : cur <> [] -> exists t ts, split_words issep iscom cur l = (cur ++ t) :: ts.
Proof.
  revert cur. induction l as [|ch l IH]; intros cur Hc; cbn.
  - exists [], []. rewrite app_nil_r. by destruct cur.
  - destruct (issep ch); [exists [], (split_words issep iscom [] l); rewrite app_nil_r; by destruct cur|].
    destruct (iscom ch); [exists [], []; rewrite app_nil_r; by destruct cur|].
    destruct (IH (cur ++ [ch])) as (t & ts & ->); [by destruct cur|]. exists (ch :: t), ts. by rewrite <- app_assoc.
Qed.

Lemma lex_count_word ws cur : lex_count (Lexer (layout (ws ++ [cur])) (len cur) (Z.of_nat (length ws)) false)
  = Z.of_nat (length (ws ++ flush cur)).
Proof.
  unfold lex_count. cbn. destruct cur as [|b cur]; [by rewrite app_nil_r|]. rewrite len_cons, length_app. cbn [flush length].
  pose proof (len_nonneg cur). destruct (Z.ltb_spec 0 (1 + len cur)); lia.
Qed.
Lemma layout_flush ws cur : (length ws < 6)%nat -> layout (ws ++ [cur]) = layout (ws ++ flush cur).
Proof. intros. destruct cur; [|done]. rewrite layout_nil by done. by rewrite app_nil_r. Qed.
Lemma take_flush ws cur : (length ws < 6)%nat -> take 6 (ws ++ flush cur) = ws ++ flush cur.
Proof. intros. apply take_ge. rewrite length_app. destruct cur; cbn; lia. Qed.

Lemma reads_char ch L l final : reads L (ch :: l) final -> Forall short final ->
  exists L', lex_char ch L = Val L' /\ reads L' l final.
Proof.
  intros [Hk Hw Hc|ws cur -> H6 ->] Hs; unfold lex_char.
  { rewrite Hk. exists L. split; [done|]. by apply ReadSkip. }
  cbn [lx_skip lx_words lx_wp lx_wc]. cbn [split_words] in *. destruct (resconf_issep ch).
  - destruct cur as [|b cur]; [cbn; eexists; split; [done|]; by eapply ReadWord|].
    pose proof (len_nonneg cur). destruct (Z.ltb_spec 0 (len (b :: cur))); [|rewrite len_cons in *; lia].
    eexists. split; [done|]. cbn [flush]. rewrite app_assoc. destruct (Z.leb_spec 6 (Z.of_nat (length ws) + 1)).
    + apply ReadSkip; [done|cbn; f_equal|cbn]; rewrite take_app_length' by (rewrite length_app; cbn; lia); [done|]. rewrite length_app. cbn. lia.
    + apply (ReadWord _ _ _ (ws ++ [b :: cur]) []); [|rewrite length_app; cbn; lia|done]. rewrite layout_nil by (rewrite length_app; cbn; lia).
      rewrite length_app. cbn. f_equal. lia.
  - destruct (resconf_iscom ch).
    + eexists. split; [done|]. rewrite take_flush by done. apply ReadSkip; [done| |].
      * cbn. by apply layout_flush.
      * pose proof (lex_count_word ws cur) as Hc. unfold lex_count in *. exact Hc.
    + assert (short (cur ++ [ch])) as Hsc.
      { destruct (split_cur resconf_issep resconf_iscom (cur ++ [ch]) l) as (t & ts & E); [by destruct cur|]. rewrite E in Hs. rewrite take_app_ge in Hs by lia.
        apply Forall_app in Hs as [_ Hs]. destruct (6 - length ws)%nat eqn:E6; [lia|]. cbn in Hs. apply Forall_cons in Hs as [Hs _].
        unfold short in *. rewrite !length_app in *. lia. }
      assert (Forall short ws) as Hsw.
      { rewrite take_app_ge in Hs by lia. by apply Forall_app in Hs as [Hs _]. }
      unfold short in Hsc. rewrite length_app in Hsc. cbn in Hsc. destruct (Z.ltb_spec (len cur) MAXNAME1) as [|Hge];
        [|unfold MAXNAME1, DNS_D_MAXNAME, len in Hge; lia].
      rewrite wr_layout by (done || (unfold short; rewrite length_app; cbn; lia)). cbn. eexists. split; [done|].
      apply (ReadWord _ _ _ ws (cur ++ [ch])); [|done|done]. f_equal. rewrite len_app, len_cons, len_nil. unfold w32.
      rewrite Z.mod_small by (unfold len; lia). lia.
Qed.

Lemma reads_end L final : reads L [] final -> lx_words L = layout final /\ lex_count L = Z.of_nat (length final).
Proof.
  intros [Hk Hw Hc|ws cur -> H6 ->]; [done|]. cbn [split_words lx_words]. rewrite take_flush by done.
  split; [by apply layout_flush|apply lex_count_word].
Qed.

Lemma reads_start l : reads lex0 l (line_words l).
Proof. apply (ReadWord _ _ _ [] []); [|cbn; lia|done]. unfold lex0. f_equal. Qed.

(** ** The directives *)
Lemma digits_leading w r n : digits 32 n (w ++ 0 :: r) = Val (leading n (cstr w)).
Proof.
  revert n. induction w as [|ch w IH]; intros n; [done|]. cbn. destruct (Z.eqb_spec ch 0) as [->|]; [done|]. cbn.
  destruct (isdigit ch); [|done]. apply IH.
Qed.

Lemma cstr_prefix w : exists r, w ++ [0] = cstr w ++ 0 :: r.
Proof. apply (cstring_split (w ++ [0])). by rewrite (cstring_cstr w []). Qed.

Lemma drop_word k w r : (k <= length (cstr w))%nat -> exists r', drop k (w ++ 0 :: r) = drop k (cstr w) ++ 0 :: r'.
Proof.
  intros Hk. destruct (cstring_split (w ++ 0 :: r) (cstr w)) as (r' & E); [by apply cstring_cstr|]. rewrite E.
  exists r'. by rewrite drop_app_le.
Qed.

Lemma cstr_idem w : cstr (cstr w) = cstr w.
Proof. apply cstr_nulfree, nulfree_cstr. Qed.
Lemma cstr_drop k w : cstr (drop k (cstr w)) = drop k (cstr w).
Proof. apply cstr_nulfree. pose proof (nulfree_cstr w) as H. unfold nulfree in *. by apply Forall_drop. Qed.

Lemma strcasecmp_len a b : strcasecmp_ a b = 0 -> Forall (fun x => 0 < x) b -> (length b <= length a)%nat.
Proof.
  revert b. induction a as [|x a IH]; intros [|y b] E Hb; cbn in *; [lia| |lia|].
  - apply Forall_cons in Hb as [Hy _]. pose proof (tolower_pos y Hy). lia.
  - apply Forall_cons in Hb as [Hy Hb]. destruct (Z.eqb_spec (tolower x) (tolower y)); [|lia].
    specialize (IH b E Hb). lia.
Qed.

Lemma has_prefix_len p w : has_prefix p w = true -> Forall (fun x => 0 < x) (bytes p) -> (length (bytes p) <= length (cstr w))%nat.
Proof.
  unfold has_prefix. intros E%Z.eqb_eq Hp. apply strcasecmp_len in E; [|done]. rewrite length_take in E. lia.
Qed.

(** A keyword with an argument is followed by it. *)
Definition prefix_of (k : keyword) : string :=
  match k with KW_NDOTS => "ndots:" | KW_TIMEOUT => "timeout:" | KW_ATTEMPTS => "attempts:" | KW_TCPx => "tcp:" | _ => "" end.

Lemma keyword_find_prefix l w k : keyword_find l w = Some k -> Forall (fun p => prefix_of p.1 = ""%string) l -> prefix_of k = ""%string.
Proof.
  induction l as [|[k' x] l IH]; cbn; [done|]. intros Hf [Hp Hl]%Forall_cons. destruct (_ =? 0); [by injection Hf as <-|by apply IH].
Qed.

Lemma keyword_prefix w k : dns_resconf_keyword w = Some k -> (length (bytes (prefix_of k)) <= length (cstr w))%nat.
Proof.
  unfold dns_resconf_keyword. destruct (keyword_find _ _) eqn:E.
  { intros [= ->]. rewrite (keyword_find_prefix _ _ _ E); [cbn; lia|]. by repeat constructor. }
  destruct (has_prefix "ndots:" w) eqn:E1; [intros [= <-]; by apply has_prefix_len; [|repeat constructor]|].
  destruct (has_prefix "timeout:" w) eqn:E2; [intros [= <-]; by apply has_prefix_len; [|repeat constructor]|].
  destruct (has_prefix "attempts:" w) eqn:E3; [intros [= <-]; by apply has_prefix_len; [|repeat constructor]|].
  destruct (has_prefix "tcp:" w) eqn:E4; [intros [= <-]; by apply has_prefix_len; [|repeat constructor]|done].
Qed.

Lemma load_option_spec ws i o : Forall short ws -> (length ws <= 6)%nat -> 0 <= i < 6 ->
  load_option o (layout ws) i = Val (spec_option o (cstr (nth (Z.to_nat i) ws []))).
Proof.
  intros Hs H6 Hi. destruct (word_at_layout ws i Hs H6 Hi) as (r & E). unfold load_option. rewrite E, cstring_cstr. cbn [mbind out_bind].
  set (w := nth _ _ _). unfold spec_option. destruct (dns_resconf_keyword (cstr w)) as [k|] eqn:Ek; [|done].
  pose proof (keyword_prefix _ _ Ek) as Hp. rewrite cstr_idem in Hp.
  destruct k; try done; cbn in Hp; destruct (drop_word _ w r Hp) as (r' & ->).
  4: { rewrite cstring_cstr. cbn [mbind out_bind]. rewrite cstr_drop. done. }
  all: rewrite digits_leading; cbn [mbind out_bind]; by rewrite cstr_drop.
Qed.

Lemma load_options_spec n : forall ws i o, Forall short ws -> (length ws <= 6)%nat -> 0 <= i -> (Z.to_nat i + n = length ws)%nat ->
  load_options n o (layout ws) i = Val (foldl spec_option o (cstr <$> drop (Z.to_nat i) ws)).
Proof.
  induction n as [|n IH]; intros ws i o Hs H6 Hi Hn; [by rewrite drop_ge by lia|]. cbn [load_options].
  rewrite load_option_spec by (done || lia). cbn [mbind out_bind]. rewrite IH by (done || lia).
  destruct (lookup_lt_is_Some_2 ws (Z.to_nat i)) as [w Hw]; [lia|]. rewrite (drop_S _ _ _ Hw), (nth_lookup_Some _ _ _ _ Hw).
  cbn. by replace (Z.to_nat (i + 1)) with (S (Z.to_nat i)) by lia.
Qed.

Lemma load_lookup_spec n : forall ws i j lk, Forall short ws -> (length ws <= 6)%nat -> 0 <= i -> (Z.to_nat i + n = length ws)%nat ->
  length lk = 3%nat -> 0 <= j <= 3 ->
  load_lookup n lk (layout ws) i j
  = let cs := take (3 - Z.to_nat j) (omap lookup_char (cstr <$> drop (Z.to_nat i) ws)) in
    Val (take (Z.to_nat j) lk ++ cs ++ drop (Z.to_nat j + length cs) lk).
Proof.
  induction n as [|n IH]; intros ws i j lk Hs H6 Hi Hn Hlk Hj; cbn [load_lookup]; cbn zeta.
  { rewrite (drop_ge ws) by lia. cbn [fmap list_fmap omap list_omap]. rewrite take_nil. cbn [app length]. by rewrite Nat.add_0_r, take_drop. }
  destruct (Z.ltb_spec j 3) as [Hj3|]; cycle 1.
  { replace (3 - Z.to_nat j)%nat with 0%nat by lia. rewrite take_0. cbn [app length]. by rewrite Nat.add_0_r, take_drop. }
  destruct (word_at_layout ws i) as (r & ->); [done..|lia|]. rewrite cstring_cstr. cbn [mbind out_bind].
  destruct (lookup_lt_is_Some_2 ws (Z.to_nat i)) as [w Hw]; [lia|]. rewrite (drop_S _ _ _ Hw), (nth_lookup_Some _ _ _ _ Hw).
  cbn [fmap list_fmap omap list_omap]. destruct (lookup_char (cstr w)) as [c|].
  - rewrite wr_in by (unfold len; lia). cbn [mbind out_bind]. rewrite IH by (rewrite ?length_insert; done || lia). cbn zeta. f_equal.
    replace (Z.to_nat (i + 1)) with (S (Z.to_nat i)) by lia. replace (3 - Z.to_nat j)%nat with (S (3 - Z.to_nat (j + 1))) by lia. cbn [take length].
    replace (Z.to_nat (j + 1)) with (S (Z.to_nat j)) by lia. rewrite (take_S_r _ _ c) by (apply list_lookup_insert_eq; lia).
    rewrite take_insert_ge by lia. rewrite <- app_assoc. cbn. rewrite drop_insert_lt by lia. repeat f_equal. lia.
  - rewrite IH by (done || lia). by replace (Z.to_nat (i + 1)) with (S (Z.to_nat i)) by lia.
Qed.

Lemma anchor_word w r : d_anchor (replicate 256 0) MAXNAME1 (w ++ 0 :: r) (len (cstr w)) = Val (spec_slot (cstr w), len (DnsName.dns_d_anchor (cstr w))).
Proof.
  destruct (cstring_split (w ++ 0 :: r) (cstr w)) as (r' & E); [by apply cstring_cstr|]. rewrite E.
  destruct (cstr w) as [|b s] eqn:Es; [by vm_compute|]. pose proof (len_nonneg s). pose proof (len_nonneg r').
  rewrite d_anchor_store by (unfold MAXNAME1, DNS_D_MAXNAME; autorewrite with len; done || lia).
  rewrite to_nat_len, take_app_length. done.
Qed.

Lemma load_search_spec slots : forall ws i, Forall short ws -> (length ws <= 6)%nat -> 0 <= i ->
  Forall (fun s => s = replicate 256 0) slots ->
  load_search slots (layout ws) i (Z.of_nat (length ws))
  = let names := take (length slots) (drop (Z.to_nat i) ws) in
    Val ((spec_slot <$> (cstr <$> names)) ++ drop (length names) slots).
Proof.
  induction slots as [|slot slots IH]; intros ws i Hs H6 Hi Hz; [done|]. apply Forall_cons in Hz as [-> Hz]. cbn [load_search].
  destruct (Z.ltb_spec i (Z.of_nat (length ws))) as [Hlt|Hge]; [|by rewrite (drop_ge ws) by lia].
  destruct (word_at_layout ws i) as (r & ->); [done..|lia|]. rewrite cstring_cstr. cbn [mbind out_bind].
  rewrite anchor_word. cbn [mbind out_bind]. rewrite IH by (done || lia).
  destruct (lookup_lt_is_Some_2 ws (Z.to_nat i)) as [w Hw]; [lia|]. rewrite (drop_S _ _ _ Hw), (nth_lookup_Some _ _ _ _ Hw).
  by replace (Z.to_nat (i + 1)) with (S (Z.to_nat i)) by lia.
Qed.

Section Refine.
Context (inet_pton : Z -> list Z -> pton_res).

Lemma nth_cstr i ws : nth i (cstr <$> ws) [] = cstr (nth i ws []).
Proof. rewrite !nth_lookup, list_lookup_fmap. by destruct (ws !! i). Qed.

Lemma load_directive_spec ws sa rc : Forall short ws -> (2 <= length ws <= 6)%nat -> length (lookup rc) = 3%nat ->
  load_directive inet_pton (layout ws) (Z.of_nat (length ws)) sa rc = Val (spec_directive inet_pton (cstr <$> ws) rc sa).
Proof.
  intros Hs Hl H3. unfold load_directive, spec_directive. rewrite !nth_cstr.
  destruct (word_at_layout ws 0) as (r0 & ->); [done|lia..|]. destruct (word_at_layout ws 1) as (r1 & ->); [done|lia..|].
  destruct (word_at_layout ws 2) as (r2 & ->); [done|lia..|].
  change (Z.to_nat 0) with 0%nat. change (Z.to_nat 1) with 1%nat. change (Z.to_nat 2) with 2%nat.
  rewrite !cstring_cstr, digits_leading. cbn [mbind out_bind].
  assert (forall k, cstr <$> drop k ws = drop k (cstr <$> ws)) as Hdrop by (intros; apply fmap_drop).
  destruct (dns_resconf_keyword (cstr (nth 0 ws []))) as [[]|]; try done.
  - destruct (nameserver rc !! Z.to_nat sa); [|done]. by destruct (dns_resconf_pton _ _ _).
  - rewrite load_search_spec by (done || lia || by apply Forall_replicate). cbn [mbind out_bind]. do 2 f_equal.
    cbn [length no_search replicate]. change (Z.to_nat 1) with 1%nat. by rewrite <- Hdrop, <- fmap_take, length_fmap.
  - rewrite load_search_spec by (done || lia || by apply Forall_replicate). cbn [mbind out_bind]. do 2 f_equal.
    cbn [length no_search replicate]. change (Z.to_nat 1) with 1%nat. by rewrite <- Hdrop, <- fmap_take, length_fmap.
  - rewrite load_lookup_spec by (done || lia). cbn [mbind out_bind]. by rewrite Hdrop.
  - rewrite load_options_spec by (done || lia). cbn [mbind out_bind]. by rewrite Hdrop.
Qed.

Lemma spec_lookup_length ws rc sa : length (lookup rc) = 3%nat -> length (lookup (spec_directive inet_pton ws rc sa).1) = 3%nat.
Proof.
  intros H3. unfold spec_directive. destruct (dns_resconf_keyword _) as [[]|]; try done.
  - destruct (nameserver rc !! _); [|done]. by destruct (dns_resconf_pton _ _ _).
  - cbn. unfold spec_lookup. rewrite length_app, length_drop, length_take. lia.
  - unfold dns_resconf_setiface. by destruct (dns_pton _ _ _).
Qed.

Lemma load_line_spec L ws sa rc : lx_words L = layout ws -> lex_count L = Z.of_nat (length ws) -> Forall short ws ->
  (length ws <= 6)%nat -> length (lookup rc) = 3%nat ->
  load_line inet_pton L sa rc = Val (spec_line inet_pton (rc, sa) ws) /\ length (lookup (spec_line inet_pton (rc, sa) ws).1) = 3%nat.
Proof.
  intros Hw Hc Hs H6 H3. unfold load_line. change (if 0 <? lx_wp L then _ else _) with (lex_count L). rewrite Hc, Hw. unfold spec_line.
  destruct (Nat.ltb_spec (length ws) 2), (Z.ltb_spec (Z.of_nat (length ws)) 2); try lia; [done|].
  rewrite load_directive_spec by (done || lia). split; [done|by apply spec_lookup_length].
Qed.

Lemma load_chars_spec fp : forall L l ls final sa rc, file_lines fp = l :: ls -> reads L l final -> (length final <= 6)%nat ->
  Forall short final -> Forall (Forall short) (line_words <$> ls) -> length (lookup rc) = 3%nat ->
  load_chars inet_pton fp L sa rc = Val (foldl (spec_line inet_pton) (rc, sa) (final :: (line_words <$> ls))).1.
Proof.
  induction fp as [|ch fp IH]; intros L l ls final sa rc Hf Hr H6 Hs Hls H3; cbn [file_lines load_chars] in *.
  - injection Hf as <- <-. destruct (reads_end _ _ Hr) as [Hw Hc].
    destruct (load_line_spec L final sa rc) as [-> _]; [done..|]. cbn. by destruct (spec_line _ _ _).
  - destruct (ch =? newline).
    + injection Hf as <- Hf. destruct (reads_end _ _ Hr) as [Hw Hc]. destruct (load_line_spec L final sa rc) as [-> H3']; [done..|].
      cbn [mbind out_bind foldl]. destruct (spec_line inet_pton (rc, sa) final) as [rc' sa']. destruct ls as [|l' ls].
      { by apply file_lines_nonempty in Hf. }
      cbn in Hls. apply Forall_cons in Hls as [Hl' Hls]. rewrite (IH lex0 l' ls (line_words l')); [done|done|apply reads_start| |done..].
      unfold line_words. rewrite length_take. lia.
    + destruct (file_lines fp) as [|l0 ls0] eqn:Ef; injection Hf as <- <-.
      { by apply file_lines_nonempty in Ef. }
      destruct (reads_char _ _ _ _ Hr Hs) as (L' & -> & Hr'). cbn [mbind out_bind]. by apply (IH L' l0).
Qed.

(** On a file whose words fit the array the parser does what the lines say. *)
Lemma loadfile_spec rc fp : Forall (Forall short) (line_words <$> file_lines fp) -> length (lookup rc) = 3%nat ->
  dns_resconf_loadfile inet_pton rc fp = Val (spec_loadfile inet_pton rc fp).
Proof.
  intros Hs H3. unfold dns_resconf_loadfile, spec_loadfile. destruct (file_lines fp) as [|l ls] eqn:E.
  { by apply file_lines_nonempty in E. }
  cbn in Hs. apply Forall_cons in Hs as [Hl Hs]. apply (load_chars_spec fp lex0 l ls); [done|apply reads_start| |done..].
  unfold line_words. rewrite length_take. lia.
Qed.
End Refine.
