(* ===== verification/DnsStr.v ===== *)
(** libdns: the copies of C strings (dns_strlcpy and dns_strlcat of dns.c), byte by
    byte, and that a buffer of [lim] bytes then holds [cbuf lim] of the string, which
    is what the models of the callers say. *)

From stdpp Require Import prelude.
From Stdlib Require Import ZArith Lia.
From S2P Require Import Prelude DnsBase DnsResconf DnsResconfSpec.
Local Open Scope Z_scope.

(** A pointer into the source is the memory from there on; one into the destination is
    an offset. *)

(** [while ( *s++ != '\0')]: the characters it passes. *)
Fixpoint past_end (s : list Z) : out Z :=
  match s with
  | [] => UB
  | c :: s' => if c =? 0 then Val 0 else n ← past_end s'; Val (n + 1)
  end.
(** The copy from [d] up to [e]: the offset of the end of the string, or what was not
    copied. *)
Fixpoint copy_until (s dst : list Z) (d e : Z) : out (list Z * (Z + list Z)) :=
  match s with
  | [] => UB
  | c :: s' =>
      dst ← wr dst d c;
      if c =? 0 then Val (dst, inl d)
      else if d + 1 <? e then copy_until s' dst (d + 1) e
      else dst ← wr dst d 0; Val (dst, inr s')
  end.
Definition dns_strlcpy (dst src : list Z) (lim : Z) : out (list Z * Z) :=
  '(dst, r) ← (if 0 <? lim then copy_until src dst 0 lim else Val (dst, inr src));
  match r with
  | inl d => Val (dst, d)
  | inr s => n ← past_end s; Val (dst, len src - len s + n)
  end.

(** [memchr (dst, '\0', n)], which stops at what it looks for. *)
Fixpoint memchr_nul (l : list Z) (n : nat) (i : Z) : out (option Z) :=
  match n, l with
  | O, _ => Val None
  | _, [] => UB
  | S n', c :: l' => if c =? 0 then Val (Some i) else memchr_nul l' n' (i + 1)
  end.
Definition dns_strlcat (dst src : list Z) (lim : Z) : out (list Z * Z) :=
  d ← memchr_nul dst (Z.to_nat lim) 0;
  '(dst, r) ← match d with Some d => copy_until src dst d lim | None => Val (dst, inr src) end;
  match r with
  | inl d => Val (dst, d)
  | inr p => n ← past_end p; Val (dst, lim + n)
  end.

(** ** What they leave *)
Lemma past_end_nul w r : nulfree w -> past_end (w ++ 0 :: r) = Val (len w).
Proof.
  induction 1 as [|c w Hc _ IH]; [done|]. cbn. destruct (Z.eqb_spec c 0); [done|]. rewrite IH. cbn. f_equal. autorewrite with len. lia.
Qed.
Lemma memchr_nul_found a b n : nulfree a -> (length a < n)%nat -> forall i, memchr_nul (a ++ 0 :: b) n i = Val (Some (i + len a)).
Proof.
  intros Ha. revert n. induction Ha as [|c a Hc _ IH]; intros [|n] Hn i; cbn in Hn; [lia| |lia|]; cbn.
  - f_equal. f_equal. rewrite len_nil. lia.
  - destruct (Z.eqb_spec c 0); [done|]. rewrite IH by lia. autorewrite with len. do 2 f_equal. lia.
Qed.
Lemma memchr_nul_none n : forall l i, nulfree (take n l) -> (n <= length l)%nat -> memchr_nul l n i = Val None.
Proof.
  induction n as [|n IH]; intros [|c l] i Hl Hn; try done; cbn in *; [lia|]. inversion_clear Hl as [|? ? Hc Hl']. destruct (Z.eqb_spec c 0); [done|]. apply IH; [done|lia].
Qed.

Lemma copy_untilE lim w : nulfree w -> forall a x b r, len a < lim <= len (a ++ x :: b) ->
  let k := Z.min (len a + len w) (lim - 1) in
  copy_until (w ++ 0 :: r) (a ++ x :: b) (len a) lim =
    Val (take (Z.to_nat k) (a ++ w) ++ 0 :: drop (Z.to_nat (k - len a)) b,
         if len a + len w <? lim then inl (len a + len w) else inr (drop (Z.to_nat (lim - len a)) w ++ 0 :: r)).
Proof.
  induction 1 as [|c w Hc _ IH]; intros a x b r Hlim k; cbn [copy_until app]; rewrite wr_app; cbn [mbind out_bind].
  - rewrite Z.eqb_refl. subst k. rewrite len_nil, Z.add_0_r, app_nil_r. rewrite Z.min_l by lia. destruct (Z.ltb_spec (len a) lim); [|lia].
    rewrite take_ge, Z.sub_diag by (unfold len; lia). done.
  - destruct (Z.eqb_spec c 0); [done|]. subst k. destruct (Z.ltb_spec (len a + 1) lim).
    + destruct b as [|y b]; [autorewrite with len in *; lia|]. specialize (IH (a ++ [c]) y b r).
      rewrite <- !app_assoc in IH. autorewrite with len in *. cbn [app] in IH. rewrite Z.add_0_r in IH. rewrite IH by lia.
      replace (len a + 1 + len w) with (len a + (1 + len w)) by lia. set (k := Z.min _ _). assert (len a + 1 <= k) by (subst k; pose proof (len_nonneg w); lia).
      replace (Z.to_nat (k - len a)) with (S (Z.to_nat (k - (len a + 1)))) by lia. cbn [drop].
      replace (Z.to_nat (lim - len a)) with (S (Z.to_nat (lim - (len a + 1)))) by lia. done.
    + rewrite wr_app. cbn [mbind out_bind]. autorewrite with len in *. pose proof (len_nonneg w).
      destruct (Z.ltb_spec (len a + (1 + len w)) lim); [lia|]. replace (lim - len a) with 1 by lia. rewrite Z.min_r by lia.
      replace (lim - 1) with (len a) by lia. rewrite Z.sub_diag, take_app_length' by (unfold len; lia). done.
Qed.

Lemma store_app lim a x b w : len a <= Z.min (len a + len w) (lim - 1) ->
  take (Z.to_nat (Z.min (len a + len w) (lim - 1))) (a ++ w) ++ 0 :: drop (Z.to_nat (Z.min (len a + len w) (lim - 1) - len a)) b = store lim (a ++ x :: b) (a ++ w).
Proof.
  intros Hk. unfold store. rewrite len_app. set (k := Z.min _ _) in *. do 2 f_equal. rewrite drop_app_ge by (unfold len in Hk; lia).
  replace (S (Z.to_nat k) - length a)%nat with (S (Z.to_nat (k - len a))) by (unfold len in *; lia). done.
Qed.

(** [dns_strlcpy] writes inside its [lim] bytes only, ends what it writes with a NUL,
    and returns the length of the source, whatever of it there was room for. *)
Lemma strlcpy_stores dst w r lim : nulfree w -> 0 <= lim <= len dst ->
  dns_strlcpy dst (w ++ 0 :: r) lim = Val (if lim =? 0 then dst else store lim dst w, len w).
Proof.
  intros Hw Hl. unfold dns_strlcpy. destruct (Z.ltb_spec 0 lim).
  - destruct dst as [|x b]; [rewrite len_nil in Hl; lia|]. pose proof (copy_untilE lim w Hw [] x b r) as E. cbn [app] in E. rewrite len_nil in E. rewrite E by lia. clear E.
    pose proof (store_app lim [] x b w ltac:(rewrite len_nil; pose proof (len_nonneg w); lia)) as E. cbn [app] in E. rewrite len_nil in E. rewrite E. clear E. cbn [mbind out_bind]. rewrite (proj2 (Z.eqb_neq lim 0)) by lia.
    destruct (Z.ltb_spec (0 + len w) lim); [done|]. rewrite past_end_nul by (by apply Forall_drop). cbn [mbind out_bind]. do 2 f_equal. autorewrite with len. unfold len. rewrite length_drop. unfold len in *. lia.
  - replace lim with 0 by lia. cbn [mbind out_bind]. rewrite past_end_nul by done. cbn. do 2 f_equal. lia.
Qed.
(** What is found in the buffer. *)
Lemma strlcpy_cbuf dst w r lim dst' n : nulfree w -> 0 < lim <= len dst -> dns_strlcpy dst (w ++ 0 :: r) lim = Val (dst', n) ->
  cstr dst' = cbuf lim w /\ len dst' = len dst /\ drop (Z.to_nat lim) dst' = drop (Z.to_nat lim) dst /\ (n < lim <-> cstr dst' = w).
Proof.
  intros Hw Hl. rewrite strlcpy_stores by (done || lia). rewrite (proj2 (Z.eqb_neq lim 0)) by lia. intros [= <- <-]. unfold store, cbuf.
  set (k := Z.to_nat _). assert (take k w = take (Z.to_nat (lim - 1)) w) as Ek.
  { destruct (decide (len w <= lim - 1)); [rewrite !take_ge by (subst k; unfold len in *; lia); done|]. subst k. by rewrite Z.min_r by lia. }
  rewrite cstr_app0 by (by apply Forall_take). split; [done|]. assert (length (take k w) = k) as Hk by (rewrite length_take; subst k; unfold len in *; lia). split; [|split].
  - autorewrite with len. unfold len at 1 2. rewrite Hk, length_drop. subst k. unfold len in *. lia.
  - rewrite drop_app_ge by (subst k; unfold len in *; lia). rewrite Hk. replace (Z.to_nat lim - k)%nat with (S (Z.to_nat lim - k - 1)) by (subst k; unfold len in *; lia).
    cbn [drop]. rewrite drop_drop. f_equal. subst k. unfold len in *. lia.
  - split; intros H.
    + rewrite take_ge; [done|]. subst k. unfold len in *. lia.
    + apply (f_equal length) in H. rewrite Hk in H. subst k. unfold len in *. lia.
Qed.
(** [dns_strlcat] does the same behind the string that is there, and returns the length
    of the two; it leaves a buffer without a string alone. *)
Lemma strlcat_stores a b w r lim : nulfree a -> nulfree w -> len a < lim <= len (a ++ 0 :: b) ->
  dns_strlcat (a ++ 0 :: b) (w ++ 0 :: r) lim = Val (store lim (a ++ 0 :: b) (a ++ w), len a + len w).
Proof.
  intros Ha Hw Hl. unfold dns_strlcat. rewrite memchr_nul_found by (done || (unfold len in Hl; lia)). cbn [mbind out_bind]. rewrite Z.add_0_l, copy_untilE by done.
  rewrite (store_app lim a 0 b w) by (pose proof (len_nonneg w); lia). cbn [mbind out_bind]. destruct (Z.ltb_spec (len a + len w) lim); [done|].
  rewrite past_end_nul by (by apply Forall_drop). cbn [mbind out_bind]. do 2 f_equal. unfold len. rewrite length_drop. unfold len in *. lia.
Qed.
Lemma strlcat_full dst w r lim : nulfree (take (Z.to_nat lim) dst) -> nulfree w -> 0 <= lim <= len dst ->
  dns_strlcat dst (w ++ 0 :: r) lim = Val (dst, lim + len w).
Proof.
  intros Hd Hw Hl. unfold dns_strlcat. rewrite memchr_nul_none by (done || (unfold len in Hl; lia)). cbn [mbind out_bind]. by rewrite past_end_nul.
Qed.
