(* ===== verification/DnsResconfThm.v ===== *)
(** libdns: the properties of resolv.conf: reading, searching, writing. *)

From stdpp Require Import prelude strings.
From Stdlib Require Import ZArith Lia.
From S2P Require Import Prelude DnsBase DnsName DnsRdata DnsPacketThm DnsResconf DnsResconfSpec.
Local Open Scope Z_scope.

(** C17: [dns_resconf_loadfile], which reads the file character by character
    into [words[6][256]] and reads numbers and strings back out of that array,
    implements the configuration language: on a file none of whose words has
    256 or more characters, it returns without leaving its memory, and the
    configuration is the result of the lines, in order, each split into its
    first six words before the comment. *)
Theorem loadfile_implements_lines inet_pton rc fp : Forall (Forall short) (line_words <$> file_lines fp) -> length (lookup rc) = 3%nat ->
  dns_resconf_loadfile inet_pton rc fp = Val (spec_loadfile inet_pton rc fp).
Proof. apply loadfile_spec. Qed.

(** C18: Calling [dns_resconf_search] from the state 0 until it returns 0 yields
    each name to be tried for a query once and in the order resolv.conf asks
    for: the name itself first when it has at least [ndots] dots, otherwise
    last; the search domains, up to the first empty one, appended to it in
    between. The state of the search survives in the three bytes of the word
    passed from call to call, and every name fits the buffer. *)
Theorem search_enumerates dst lim q rc :
  q <> [] -> nulfree q -> len q <= 255 -> len dst = lim -> Forall slot_ok (search rc) -> (length (search rc) <= 4)%nat ->
  len (DnsName.dns_d_anchor q) < lim ->
  Forall (fun d => len (DnsName.dns_d_anchor q) + len d < lim) (domains (search rc)) ->
  search_all 7 dst lim q rc 0 = Val (candidates q rc).
Proof. intros. by apply search_all_from0. Qed.

(** ** Writing and reading back *)

(** A text without separators and comment signs. *)
Definition cleanb (b : Z) : bool := negb (resconf_issep b || resconf_iscom b || (b =? newline) || (b =? 0)).
Definition clean (w : list Z) : Prop := w <> [] /\ Forall (fun b => cleanb b = true) w.

(** The words of a line, separated by spaces. *)
Definition unwords (ws : list (list Z)) : list Z :=
  match ws with
  | [] => []
  | w :: ws' => w ++ concat ((fun w => 32 :: w) <$> ws')
  end.

Lemma cleanb_spec b : cleanb b = true -> resconf_issep b = false /\ resconf_iscom b = false /\ b <> newline /\ b <> 0.
Proof.
  unfold cleanb. intros H%negb_true_iff. rewrite !orb_false_iff, !Z.eqb_neq in H. tauto.
Qed.

Lemma tokens_clean w cur l : Forall (fun b => cleanb b = true) w -> tokens cur (w ++ l) = tokens (cur ++ w) l.
Proof.
  intros Hw. revert cur. induction Hw as [|b w Hb _ IH]; intros cur; [by rewrite app_nil_r|].
  destruct (cleanb_spec b Hb) as (H1 & H2 & _). cbn. rewrite H1, H2, IH, <- app_assoc. done.
Qed.

Lemma tokens_unwords ws : Forall clean ws -> tokens [] (unwords ws) = ws.
Proof.
  intros Hws. destruct ws as [|w ws]; [done|]. apply Forall_cons in Hws as [[Hne Hw] Hws]. cbn. rewrite tokens_clean by done. cbn [app].
  revert w Hne Hw. induction Hws as [|v ws [Hne' Hv] Hws IH]; intros w Hne Hw; [by destruct w|].
  cbn. rewrite tokens_clean by done. cbn [app]. rewrite IH by done. by destruct w.
Qed.

Lemma file_lines_line l fp : Forall (fun b => b <> newline) l -> file_lines (l ++ newline :: fp) = l :: file_lines fp.
Proof.
  induction 1 as [|b l Hb _ IH]; cbn; [done|]. destruct (Z.eqb_spec b newline); [done|]. by rewrite IH.
Qed.

Lemma unwords_no_newline ws : Forall clean ws -> Forall (fun b => b <> newline) (unwords ws).
Proof.
  assert (forall w, clean w -> Forall (fun b => b <> newline) w) as Hcl.
  { intros w [_ Hw]. eapply Forall_impl; [exact Hw|]. intros b Hb. by destruct (cleanb_spec b Hb) as (_ & _ & ? & _). }
  intros Hws. destruct ws as [|w ws]; [constructor|]. apply Forall_cons in Hws as [Hw Hws]. cbn. apply Forall_app. split; [by apply Hcl|].
  apply Forall_concat, Forall_fmap. eapply Forall_impl; [exact Hws|]. intros v Hv. cbn. constructor; [done|by apply Hcl].
Qed.

(** The file made of the lines [lns], as words. *)
Definition file_of (lns : list (list (list Z))) : list Z := concat ((fun ws => unwords ws ++ [newline]) <$> lns).

Lemma file_of_words lns : Forall (Forall clean) lns -> line_words <$> file_lines (file_of lns) = (take 6 <$> lns) ++ [[]].
Proof.
  induction 1 as [|ws lns Hws _ IH]; [done|]. unfold file_of in *. cbn. rewrite <- app_assoc. cbn [app].
  rewrite file_lines_line by (by apply unwords_no_newline). cbn. rewrite IH. unfold line_words. by rewrite tokens_unwords.
Qed.

(** A literal word is clean, and short. *)
Ltac clean_bytes := repeat (constructor; [reflexivity|]); constructor.
Ltac clean_word := split; [done|clean_bytes].
Ltac short_word := unfold short; cbn [length bytes]; lia.

Section Roundtrip.
Context (inet_pton : Z -> list Z -> pton_res) (inet_ntop : Z -> list Z -> option (list Z)).

(** An address [inet_ntop] writes as [inet_pton] reads it, without the signs
    the configuration file gives a meaning to. *)
Record printable (af : Z) (a : list Z) (t : list Z) : Prop := {
  pr_ntop : inet_ntop af a = Some t;
  pr_pton : inet_pton af t = PtonOk a;
  pr_clean : clean t;
  pr_brackets : Forall (fun b => b <> 91 /\ b <> 93) t;
  pr_len : len t <= 45;
  pr_colon : has_colon t = (af =? AF_INET6) }.

(** A socket address as the parser leaves it in a zeroed structure. *)
Definition sock_ok (ss : sockaddr_storage) : Prop :=
  0 <= ss_port ss < 65536 /\ (exists t, printable (ss_family ss) (dns_sa_addr (ss_family ss) ss) t) /\
  (ss_family ss = AF_INET /\ ss_a6 ss = replicate 16 0 \/ ss_family ss = AF_INET6 /\ ss_a4 ss = replicate 4 0).

Definition option_words (o : options) : list (list Z) :=
  (if edns0 o then [bytes "edns0"] else []) ++ (if rotate o then [bytes "rotate"] else []) ++
  (if recurse o then [bytes "recurse"] else []) ++ (if smart o then [bytes "smart"] else []) ++
  match tcp o with TCP_ENABLE => [] | TCP_ONLY => [bytes "tcp"] | TCP_DISABLE => [bytes "tcp:disable"] end.

Definition u32 (n : Z) : Prop := 0 <= n < 2 ^ 32.

(** The configurations that survive being written and read: at least one name
    server and one search domain, two or three lookup methods, and at most two
    options besides the three numbers. *)
Record dumpable (rc : resolv_conf) (ns : list sockaddr_storage) (names : list (list Z)) (lk : list Z) : Prop := {
  d_ns : nameserver rc = ns ++ replicate (3 - length ns) ss_zero;
  d_ns_len : (1 <= length ns <= 3)%nat;
  d_ns_ok : Forall (fun ss => sock_ok ss /\ ss_port ss <> 0) ns;
  d_search : search rc = (spec_slot <$> names) ++ drop (length names) no_search;
  d_names_len : (1 <= length names <= 4)%nat;
  d_names : Forall (fun n => clean n /\ short n /\ last n = Some dot) names;
  d_lookup : lookup rc = lk ++ replicate (3 - length lk) 0;
  d_lk_len : (2 <= length lk <= 3)%nat;
  d_lk : Forall (fun c => c ∈ [char_b; char_f; char_c]) lk;
  d_numbers : u32 (ndots (opts rc)) /\ u32 (timeout (opts rc)) /\ u32 (attempts (opts rc));
  d_options : (length (option_words (opts rc)) <= 2)%nat;
  d_iface : sock_ok (iface rc) }.

(** *** Numbers *)
Lemma decimal_mod m ds a b : 0 < m -> a mod m = b mod m -> decimal a ds mod m = decimal b ds mod m.
Proof.
  intros Hm. revert a b. induction ds as [|c ds IH]; intros a b E; [done|]. apply IH.
  rewrite (Z.add_mod (a * 10)), (Z.add_mod (b * 10)), (Z.mul_mod a), (Z.mul_mod b), E by lia. done.
Qed.

Lemma leading_decimal ds n r : Forall digit ds -> u32 n -> hd 32 r = 32 -> leading n (ds ++ r) = (decimal n ds) mod 2 ^ 32.
Proof.
  intros Hd Hn Hr. revert n Hn. induction Hd as [|c ds Hc Hd IH]; intros n Hn.
  { cbn. rewrite Z.mod_small by done. destruct r as [|b r]; [done|]. cbn in Hr. subst. done. }
  cbn [leading app]. assert (isdigit c = true) as -> by (unfold isdigit, digit in *; lia).
  rewrite IH by (unfold u32; apply Z.mod_pos_bound; lia). change (decimal n (c :: ds)) with (decimal (n * 10 + (c - 48)) ds).
  by apply decimal_mod; [|rewrite Z.mod_mod].
Qed.

Lemma port_decimal ds p : Forall digit ds -> 0 <= p < 65536 -> pton_port p ds = (decimal p ds) mod 65536.
Proof.
  intros Hd. revert p. induction Hd as [|c ds Hc Hd IH]; intros p Hp; [cbn; by rewrite Z.mod_small|].
  cbn [pton_port]. assert (isdigit c = true) as -> by (unfold isdigit, digit in *; lia).
  rewrite IH by (unfold w16; apply Z.mod_pos_bound; lia).
  change (decimal p (c :: ds)) with (decimal (p * 10 + (c - 48)) ds). apply decimal_mod; [lia|].
  unfold w16. change (2 ^ 16) with 65536. by rewrite Z.mod_mod, Zplus_mod_idemp_l.
Qed.

Lemma pct_u_ok n : u32 n -> Forall digit (pct_u n) /\ decimal 0 (pct_u n) = n /\ 1 <= len (pct_u n).
Proof. intros Hn. destruct (print10_decimal n 0 Hn) as (H1 & H2 & H3 & _). split_and!; [done..|]. unfold pct_u. lia. Qed.

Lemma digit_clean c : digit c -> cleanb c = true.
Proof.
  unfold digit. intros Hc. unfold cleanb, resconf_issep, resconf_iscom, isspace, newline.
  assert (forall k, (k < 48 \/ 57 < k) -> (c =? k) = false) as He by (intros; apply Z.eqb_neq; lia). rewrite !He by lia.
  destruct (Z.leb_spec c 13); [lia|]. by rewrite andb_false_r.
Qed.
Lemma pct_u_clean n : u32 n -> clean (pct_u n).
Proof.
  intros Hn. destruct (pct_u_ok n Hn) as (Hd & _ & Hl). split; [by destruct (pct_u n)|].
  eapply Forall_impl; [exact Hd|]. apply digit_clean.
Qed.
Lemma clean_app a b : clean a -> Forall (fun b => cleanb b = true) b -> clean (a ++ b).
Proof. intros [Ha Ha'] Hb. split; [by destruct a|]. by apply Forall_app. Qed.

Lemma leading_pct_u n : u32 n -> leading 0 (pct_u n) = n.
Proof.
  intros Hn. destruct (pct_u_ok n Hn) as (Hd & Hv & _). pose proof (leading_decimal (pct_u n) 0 [] Hd) as Hl. rewrite app_nil_r in Hl.
  rewrite Hl, Hv by (done || (unfold u32; lia)). by apply Z.mod_small.
Qed.

(** *** Addresses *)
#[local] Opaque pct_u.
Lemma pton_text t : forall buf af r, Forall (fun b => b <> 91 /\ b <> 93) t -> Forall (fun b => cleanb b = true) t -> len buf + len t <= 127 ->
  pton_loop buf af (t ++ r) = pton_loop (buf ++ t) (if has_colon t then AF_INET6 else af) r.
Proof.
  induction t as [|b t IH]; intros buf af r Hb Hc Hl; [by rewrite app_nil_r|].
  apply Forall_cons in Hb as [[Hb1 Hb2] Hb], Hc as [Hcb Hc]. destruct (cleanb_spec b Hcb) as (Hsp & _).
  rewrite len_cons in Hl. pose proof (len_nonneg t). cbn [app pton_loop].
  assert ((b =? 32) || (b =? 9) || (b =? 91) = false) as ->.
  { unfold resconf_issep, isspace in Hsp. destruct (Z.eqb_spec b 32) as [->|]; [done|]. destruct (Z.eqb_spec b 9) as [->|]; [done|]. by apply Z.eqb_neq. }
  destruct (Z.eqb_spec b 93); [done|]. destruct (Z.ltb_spec (len buf) 127); [|lia].
  rewrite IH by (done || rewrite len_app, len_cons, len_nil; lia). rewrite <- app_assoc. cbn [app]. f_equal.
  change (has_colon (b :: t)) with ((b =? 58) || has_colon t). destruct (b =? 58); cbn [orb]; [|done]. by destruct (has_colon t).
Qed.

Definition ns_word (ss : sockaddr_storage) (t : list Z) : list Z :=
  if ss_port ss =? 53 then t else [91] ++ t ++ bytes "]:" ++ pct_u (ss_port ss).

Lemma sock_af ss t : sock_ok ss -> printable (ss_family ss) (dns_sa_addr (ss_family ss) ss) t ->
  (if has_colon t then AF_INET6 else AF_INET) = ss_family ss.
Proof. intros (_ & _ & [[E _]|[E _]]) Hp; rewrite (pr_colon _ _ _ Hp), E; done. Qed.

Lemma set_sock ss old : sock_ok ss -> ss_a4 old = replicate 4 0 -> ss_a6 old = replicate 16 0 ->
  set_port_family (ss_family ss) (ss_port ss) (set_addr (ss_family ss) old (dns_sa_addr (ss_family ss) ss)) = ss.
Proof.
  intros (_ & _ & [[E Hz]|[E Hz]]) H4 H6; destruct ss as [af p a4 a6]; cbn in *; subst; unfold set_port_family, set_addr, dns_sa_addr; cbn; congruence.
Qed.

Lemma pton_ns ss t old : sock_ok ss -> ss_port ss <> 0 -> printable (ss_family ss) (dns_sa_addr (ss_family ss) ss) t ->
  ss_a4 old = replicate 4 0 -> ss_a6 old = replicate 16 0 ->
  dns_resconf_pton inet_pton old (ns_word ss t) = inr ss.
Proof.
  intros Hok Hp0 Hp H4 H6. destruct Hok as (Hport & Ht). pose proof (conj Hport Ht : sock_ok ss) as Hok. destruct (pr_clean _ _ _ Hp) as [_ Hcl].
  pose proof (pr_len _ _ _ Hp) as Hl. pose proof (pr_brackets _ _ _ Hp) as Hbr.
  assert (forall r, pton_loop [] AF_INET (t ++ r) = pton_loop t (ss_family ss) r) as Htext.
  { intros r. rewrite pton_text by (done || (rewrite len_nil; lia)). cbn [app]. by rewrite (sock_af ss t). }
  unfold dns_resconf_pton, ns_word. destruct (Z.eqb_spec (ss_port ss) 53) as [E|E].
  - rewrite <- (app_nil_r t), Htext. cbn. unfold dns_pton. rewrite (pr_pton _ _ _ Hp). cbn. f_equal. rewrite <- E. by apply set_sock.
  - cbn [app pton_loop Z.eqb Pos.eqb orb]. rewrite Htext.
    change (pton_loop t (ss_family ss) (bytes "]:" ++ pct_u (ss_port ss))) with (t, ss_family ss, pton_port 0 (58 :: pct_u (ss_port ss))).
    destruct (pct_u_ok (ss_port ss)) as (Hd & Hv & _); [unfold u32; lia|].
    assert (pton_port 0 (58 :: pct_u (ss_port ss)) = ss_port ss) as ->.
    { cbn [pton_port]. change (isdigit 58) with false. cbn match. rewrite port_decimal, Hv by (done || lia). by apply Z.mod_small. }
    unfold dns_pton. rewrite (pr_pton _ _ _ Hp). cbn. destruct (Z.eqb_spec (ss_port ss) 0); [done|]. f_equal. by apply set_sock.
Qed.
(** *** The file as lines of words *)
Definition text_of (ss : sockaddr_storage) : list Z := ntop_text inet_ntop (ss_family ss) (dns_sa_addr (ss_family ss) ss).

Lemma text_printable ss : sock_ok ss -> printable (ss_family ss) (dns_sa_addr (ss_family ss) ss) (text_of ss).
Proof. intros (_ & (t & Ht) & _). unfold text_of, ntop_text. by rewrite (pr_ntop _ _ _ Ht). Qed.

Definition lookup_word (c : Z) : list Z := if c =? char_b then bytes "bind" else if c =? char_f then bytes "file" else bytes "cache".

Definition number_words (o : options) : list (list Z) :=
  [bytes "ndots:" ++ pct_u (ndots o); bytes "timeout:" ++ pct_u (timeout o); bytes "attempts:" ++ pct_u (attempts o)].

Definition ns_line (ss : sockaddr_storage) : list (list Z) := [bytes "nameserver"; ns_word ss (text_of ss)].

Definition last_lines (rc : resolv_conf) (names : list (list Z)) (lk : list Z) : list (list (list Z)) :=
  [bytes "search" :: names; bytes "lookup" :: (lookup_word <$> lk); bytes "options" :: number_words (opts rc) ++ option_words (opts rc);
   [bytes "interface"; text_of (iface rc); pct_u (ss_port (iface rc))]].

Lemma sock_family ss : sock_ok ss -> (ss_family ss =? AF_UNSPEC) = false.
Proof. by intros (_ & _ & [[-> _]|[-> _]]). Qed.

Lemma dump_nameservers_lines ns n : Forall (fun ss => sock_ok ss /\ ss_port ss <> 0) ns ->
  dump_nameservers inet_ntop (ns ++ replicate n ss_zero) = file_of (ns_line <$> ns).
Proof.
  induction 1 as [|ss ns [Hok _] _ IH]; [by destruct n|]. cbn [app dump_nameservers]. rewrite sock_family, IH by done.
  unfold file_of. cbn [fmap list_fmap concat]. f_equal. unfold ns_line, ns_word, text_of. cbn [unwords fmap list_fmap concat]. rewrite app_nil_r.
  destruct (_ =? 53); cbn [bytes app]; rewrite <- ?app_assoc; cbn [app]; rewrite <- ?app_assoc; done.
Qed.

Lemma clean_nulfree w : clean w -> nulfree w.
Proof. intros [_ Hw]. eapply Forall_impl; [exact Hw|]. intros b Hb. by destruct (cleanb_spec b Hb) as (_ & _ & _ & ?). Qed.

Lemma cstr_slot n : clean n -> short n -> last n = Some dot -> cstr (spec_slot n) = n.
Proof.
  intros Hc Hs Hl. unfold spec_slot, DnsName.dns_d_anchor. rewrite Hl, Z.eqb_refl. rewrite store_fits by (unfold len; unfold short in Hs; lia).
  by apply cstr_app0, clean_nulfree.
Qed.

Lemma dump_search_lines names n : Forall (fun n => clean n /\ short n /\ last n = Some dot) names ->
  dump_search ((spec_slot <$> names) ++ drop n no_search) = concat ((fun w => 32 :: w) <$> names).
Proof.
  induction 1 as [|w names (Hc & Hs & Hl) _ IH].
  - do 5 (destruct n as [|n]; [done|]). done.
  - cbn [fmap list_fmap app dump_search]. rewrite cstr_slot by done. destruct Hc as [Hne _]. destruct w as [|b w]; [done|]. by rewrite IH.
Qed.

Lemma dump_lookup_lines lk n : Forall (fun c => c ∈ [char_b; char_f; char_c]) lk ->
  dump_lookup (lk ++ replicate n 0) = concat ((fun w => 32 :: w) <$> (lookup_word <$> lk)).
Proof.
  induction 1 as [|c lk Hc _ IH]; [by destruct n|]. cbn [app dump_lookup fmap list_fmap concat]. rewrite IH.
  set_unfold in Hc. by destruct Hc as [->|[->|[->|[]]]].
Qed.

Lemma dump_options_line o : dump_options o = unwords (bytes "options" :: number_words o ++ option_words o) ++ [newline].
Proof.
  unfold dump_options, unwords, number_words, option_words, flag. cbn [app fmap list_fmap concat bytes]. rewrite <- ?app_assoc. cbn [app].
  rewrite <- ?app_assoc. cbn [app]. rewrite <- ?app_assoc. cbn [app].
  by destruct (edns0 o), (rotate o), (recurse o), (smart o), (tcp o).
Qed.

Lemma dump_lines rc ns names lk : dumpable rc ns names lk ->
  dns_resconf_dump inet_ntop rc = file_of ((ns_line <$> ns) ++ last_lines rc names lk).
Proof.
  intros H. unfold dns_resconf_dump. rewrite (d_ns _ _ _ _ H), dump_nameservers_lines by apply H.
  rewrite (d_search _ _ _ _ H), dump_search_lines by apply H. rewrite (d_lookup _ _ _ _ H), dump_lookup_lines by apply H.
  rewrite dump_options_line. unfold dump_iface. rewrite sock_family by apply H.
  unfold file_of. rewrite fmap_app, concat_app. f_equal. unfold last_lines. cbn [fmap list_fmap concat].
  cbn [unwords fmap list_fmap concat]. rewrite <- !app_assoc. unfold text_of. cbn [app]. rewrite ?app_nil_r. rewrite <- ?app_assoc. done.
Qed.
(** *** Reading the lines *)

Lemma option_words_clean o : Forall clean (option_words o).
Proof.
  unfold option_words. rewrite !Forall_app. split_and!;
    [destruct (edns0 o)|destruct (rotate o)|destruct (recurse o)|destruct (smart o)|destruct (tcp o)]; first [by constructor|constructor; [clean_word|constructor]].
Qed.

Lemma ns_line_clean ss : sock_ok ss -> Forall clean (ns_line ss).
Proof.
  intros Hok. destruct (pr_clean _ _ _ (text_printable ss Hok)) as [Hne Hc]. unfold ns_line. constructor; [clean_word|]. constructor; [|constructor].
  unfold ns_word. destruct (_ =? 53); [done|]. destruct Hok as (Hp & _). destruct (pct_u_clean (ss_port ss)) as [_ Hu]; [unfold u32; lia|].
  split; [done|]. repeat (apply Forall_app; split); [clean_bytes|done|clean_bytes|done].
Qed.

Lemma number_words_clean o : u32 (ndots o) /\ u32 (timeout o) /\ u32 (attempts o) -> Forall clean (number_words o).
Proof.
  intros (H1 & H2 & H3). unfold number_words.
  repeat (constructor; [apply clean_app; [clean_word|by apply pct_u_clean]|]). constructor.
Qed.

Lemma lookup_words_clean lk : Forall clean (lookup_word <$> lk).
Proof.
  apply Forall_fmap, Forall_true. intros c. unfold lookup_word. cbn. destruct (_ =? char_b); [clean_word|]. destruct (_ =? char_f); clean_word.
Qed.

Lemma lines_clean rc ns names lk : dumpable rc ns names lk -> Forall (Forall clean) ((ns_line <$> ns) ++ last_lines rc names lk).
Proof.
  intros H. apply Forall_app. split.
  - apply Forall_fmap. eapply Forall_impl; [apply H|]. intros ss [Hok _]. by apply ns_line_clean.
  - unfold last_lines. apply Forall_cons_2; [|apply Forall_cons_2; [|apply Forall_cons_2; [|apply Forall_cons_2; [|done]]]];
      (apply Forall_cons_2; [clean_word|]).
    + eapply Forall_impl; [apply H|]. by intros n (? & _).
    + apply lookup_words_clean.
    + apply Forall_app. split; [apply number_words_clean, H|apply option_words_clean].
    + pose proof (d_iface _ _ _ _ H) as Hi. apply Forall_cons_2; [apply (pr_clean _ _ _ (text_printable _ Hi))|].
      apply Forall_cons_2; [|done]. destruct Hi as (Hp & _). apply pct_u_clean. unfold u32. lia.
Qed.

(** One name server per line fills the slots in order. *)
Lemma load_ns ns : forall done olds rc sa, nameserver rc = done ++ olds -> sa = Z.of_nat (length done) ->
  Forall (fun ss => ss_a4 ss = replicate 4 0 /\ ss_a6 ss = replicate 16 0) olds -> (length ns <= length olds)%nat ->
  Forall (fun ss => sock_ok ss /\ ss_port ss <> 0) ns ->
  foldl (spec_line inet_pton) (rc, sa) (ns_line <$> ns)
  = (set_nameserver rc (done ++ ns ++ drop (length ns) olds), sa + Z.of_nat (length ns)).
Proof.
  induction ns as [|ss ns IH]; intros fin olds rc sa Hns Hsa Hz Hlen Hok.
  { cbn [length app fmap list_fmap foldl]. rewrite drop_0, <- Hns, Z.add_0_r. by destruct rc. }
  apply Forall_cons in Hok as [[Hs Hp] Hok]. destruct olds as [|old olds]; [cbn in Hlen; lia|]. apply Forall_cons in Hz as [[H4 H6] Hz].
  cbn [fmap list_fmap foldl].
  assert (spec_line inet_pton (rc, sa) (ns_line ss) = (set_nameserver rc ((fin ++ [ss]) ++ olds), sa + 1)) as ->.
  { unfold spec_line, ns_line. cbn [length Nat.ltb Nat.leb fst snd]. unfold spec_directive.
    assert (cstr <$> [bytes "nameserver"; ns_word ss (text_of ss)] = [bytes "nameserver"; ns_word ss (text_of ss)]) as ->.
    { pose proof (ns_line_clean ss Hs) as Hcl. apply Forall_cons in Hcl as [H1 Hcl]. apply Forall_cons in Hcl as [H2 _].
      cbn [fmap list_fmap]. by rewrite !cstr_nulfree by (by apply clean_nulfree). }
    cbn [nth]. change (dns_resconf_keyword (bytes "nameserver")) with (Some KW_NAMESERVER). cbn match.
    rewrite Hns, Hsa, Nat2Z.id, lookup_app_r, Nat.sub_diag by lia. change ((old :: olds) !! 0%nat) with (Some old). cbn match.
    rewrite (pton_ns ss (text_of ss) old) by (done || by apply text_printable). rewrite insert_app_r_alt, Nat.sub_diag by lia. cbn.
    by rewrite <- app_assoc. }
  rewrite (IH (fin ++ [ss]) olds); [| |rewrite length_app; cbn; lia|done|cbn in Hlen; lia|done].
  - cbn. rewrite <- !app_assoc. f_equal. lia.
  - done.
Qed.

(** The configuration every file is read into first. *)
Definition fresh (rc0 : resolv_conf) : Prop :=
  nameserver rc0 = SS AF_INET 53 (replicate 4 0) (replicate 16 0) :: replicate 2 ss_zero /\ lookup rc0 = [char_b; char_f; 0] /\
  opts rc0 = opts resconf_initializer /\ iface rc0 = iface resconf_initializer.

Lemma cstr_clean ws : Forall clean ws -> cstr <$> ws = ws.
Proof. induction 1 as [|w ws Hw _ IH]; [done|]. cbn [fmap list_fmap]. by rewrite cstr_nulfree, IH by (by apply clean_nulfree). Qed.

Lemma spec_line_clean st ws : Forall clean ws -> (2 <= length ws)%nat -> spec_line inet_pton st ws = spec_directive inet_pton ws st.1 st.2.
Proof. intros Hc Hl. unfold spec_line. destruct (Nat.ltb_spec (length ws) 2); [lia|]. by rewrite cstr_clean. Qed.

Lemma load_names rc sa names : (length names <= 4)%nat ->
  spec_directive inet_pton (bytes "search" :: names) rc sa = (set_search rc ((spec_slot <$> names) ++ drop (length names) no_search), sa).
Proof.
  intros Hl. unfold spec_directive. cbn [nth]. change (dns_resconf_keyword (bytes "search")) with (Some KW_SEARCH). cbn match.
  change (drop 1 (bytes "search" :: names)) with names. by rewrite take_ge by lia.
Qed.

Lemma lookup_words lk : Forall (fun c => c ∈ [char_b; char_f; char_c]) lk -> omap lookup_char (lookup_word <$> lk) = lk.
Proof.
  induction 1 as [|c lk Hc _ IH]; [done|]. cbn [fmap list_fmap omap list_omap]. rewrite IH. set_unfold in Hc.
  by destruct Hc as [->|[->|[->|[]]]].
Qed.

Lemma load_lookups rc sa lk : Forall (fun c => c ∈ [char_b; char_f; char_c]) lk -> (length lk <= 3)%nat ->
  spec_directive inet_pton (bytes "lookup" :: (lookup_word <$> lk)) rc sa = (set_lookup rc (lk ++ drop (length lk) (lookup rc)), sa).
Proof.
  intros Hlk Hl. unfold spec_directive. cbn [nth]. change (dns_resconf_keyword (bytes "lookup")) with (Some KW_LOOKUP). cbn match.
  change (drop 1 (bytes "lookup" :: _)) with (lookup_word <$> lk). unfold spec_lookup. rewrite lookup_words by done. by rewrite take_ge by lia.
Qed.

Lemma load_numbers o o' : u32 (ndots o) /\ u32 (timeout o) /\ u32 (attempts o) ->
  foldl spec_option o' (number_words o) = set_attempts (set_timeout (set_ndots o' (ndots o)) (timeout o)) (attempts o).
Proof.
  intros (H1 & H2 & H3). unfold number_words. cbn [foldl].
  assert (forall a, dns_resconf_keyword (bytes "ndots:" ++ a) = Some KW_NDOTS) as K1 by done.
  assert (forall a, dns_resconf_keyword (bytes "timeout:" ++ a) = Some KW_TIMEOUT) as K2 by done.
  assert (forall a, dns_resconf_keyword (bytes "attempts:" ++ a) = Some KW_ATTEMPTS) as K3 by done.
  unfold spec_option. rewrite K1, K2, K3.
  rewrite !drop_app_length' by done. by rewrite !leading_pct_u.
Qed.

Lemma load_flags o o' : edns0 o' = false -> rotate o' = false -> recurse o' = false -> smart o' = false -> tcp o' = TCP_ENABLE ->
  foldl spec_option o' (option_words o)
  = set_tcp (set_smart (set_recurse (set_rotate (set_edns0 o' (edns0 o)) (rotate o)) (recurse o)) (smart o)) (tcp o).
Proof.
  intros. destruct o' as [e n t a r rc sm tc]; cbn in *; subst. unfold option_words. rewrite !foldl_app.
  by destruct (edns0 o), (rotate o), (recurse o), (smart o), (tcp o).
Qed.

Lemma load_all_options rc sa o : opts rc = opts resconf_initializer -> u32 (ndots o) /\ u32 (timeout o) /\ u32 (attempts o) ->
  spec_directive inet_pton (bytes "options" :: number_words o ++ option_words o) rc sa = (set_opts rc o, sa).
Proof.
  intros Ho Hn. unfold spec_directive. cbn [nth]. change (dns_resconf_keyword (bytes "options")) with (Some KW_OPTIONS). cbn match.
  change (drop 1 (bytes "options" :: ?l)) with l. rewrite foldl_app, load_numbers, load_flags by (done || by rewrite Ho).
  rewrite Ho. by destruct o.
Qed.

Lemma load_iface rc sa ss : iface rc = iface resconf_initializer -> sock_ok ss ->
  spec_directive inet_pton [bytes "interface"; text_of ss; pct_u (ss_port ss)] rc sa = (set_iface rc ss, sa).
Proof.
  intros Hi Hok. pose proof (text_printable ss Hok) as Hp. unfold spec_directive. cbn [nth].
  change (dns_resconf_keyword (bytes "interface")) with (Some KW_INTERFACE). cbn match. unfold dns_resconf_setiface.
  rewrite (sock_af ss) by done. unfold dns_pton. rewrite (pr_pton _ _ _ Hp). cbn [fst]. do 2 f_equal.
  assert (w16 (leading 0 (pct_u (ss_port ss))) = ss_port ss) as ->.
  { destruct Hok as (Hr & _). rewrite leading_pct_u by (unfold u32; lia). by apply w16_id. }
  by apply set_sock; [|rewrite Hi..].
Qed.

(** *** The words fit *)
Lemma print10_length k n b : (length (print10_loop k n b) <= k)%nat.
Proof.
  revert n b. induction k as [|k IH]; intros n b; [done|]. cbn [print10_loop]. destruct (negb _ || b); cbn [length].
  - pose proof (IH (n - n / 10 ^ Z.of_nat k * 10 ^ Z.of_nat k) true). lia.
  - pose proof (IH n b). lia.
Qed.
#[local] Transparent pct_u.
Lemma pct_u_length n : (length (pct_u n) <= 11)%nat.
Proof.
  unfold pct_u, dns__print10. rewrite length_app, length_replicate. pose proof (print10_length 10 n false). unfold len. lia.
Qed.
#[local] Opaque pct_u.

Lemma text_length ss : sock_ok ss -> (length (text_of ss) <= 45)%nat.
Proof. intros Hok. pose proof (pr_len _ _ _ (text_printable ss Hok)) as Hl. unfold len in Hl. lia. Qed.

Lemma number_short p n : (length (bytes p) <= 20)%nat -> short (bytes p ++ pct_u n).
Proof. intros. unfold short. rewrite length_app. pose proof (pct_u_length n). lia. Qed.

Lemma lines_short rc ns names lk : dumpable rc ns names lk ->
  Forall (fun ws => Forall short ws /\ (length ws <= 6)%nat) ((ns_line <$> ns) ++ last_lines rc names lk).
Proof.
  intros H. apply Forall_app. split.
  - apply Forall_fmap. eapply Forall_impl; [apply H|]. intros ss [Hok _]. cbn. split; [|lia]. repeat apply Forall_cons_2; [| |done].
    + short_word.
    + unfold short, ns_word. pose proof (text_length ss Hok). pose proof (pct_u_length (ss_port ss)). destruct (_ =? 53); [lia|].
      rewrite !length_app. cbn [length bytes]. lia.
  - unfold last_lines. pose proof (d_iface _ _ _ _ H) as Hi. pose proof (d_options _ _ _ _ H). pose proof (d_names_len _ _ _ _ H). pose proof (d_lk_len _ _ _ _ H).
    apply Forall_cons_2; [|apply Forall_cons_2; [|apply Forall_cons_2; [|apply Forall_cons_2; [|done]]]]; split.
    + apply Forall_cons_2; [short_word|]. eapply Forall_impl; [apply H|]. by intros n (_ & ? & _).
    + cbn. lia.
    + apply Forall_cons_2; [short_word|]. apply Forall_fmap, Forall_true. intros c. change (short (lookup_word c)).
      unfold lookup_word. destruct (c =? char_b); [short_word|]. destruct (c =? char_f); short_word.
    + cbn [length]. rewrite length_fmap. lia.
    + apply Forall_cons_2; [short_word|]. apply Forall_app. split.
      * unfold number_words. repeat (apply Forall_cons_2; [apply number_short; cbn; lia|]). done.
      * unfold option_words. rewrite !Forall_app. split_and!;
          [destruct (edns0 _)|destruct (rotate _)|destruct (recurse _)|destruct (smart _)|destruct (tcp _)];
          first [by constructor|apply Forall_cons_2; [short_word|done]].
    + cbn [length]. rewrite length_app. cbn [length number_words]. lia.
    + apply Forall_cons_2; [short_word|]. apply Forall_cons_2; [pose proof (text_length _ Hi); unfold short; lia|].
      apply Forall_cons_2; [pose proof (pct_u_length (ss_port (iface rc))); unfold short; lia|done].
    + cbn. lia.
Qed.
End Roundtrip.

(** C20: What [dns_resconf_dump] writes, [dns_resconf_loadfile] reads back into
    a fresh configuration without loss: every configuration with one to three
    name servers, one to four search domains, two or three lookup methods and
    at most two options besides the three numbers is restored exactly, field by
    field, ports and bracketed addresses included. The addresses are assumed to
    be ones [inet_ntop] writes and [inet_pton] reads. *)
Theorem dump_load_roundtrip inet_pton inet_ntop rc rc0 ns names lk :
  dumpable inet_pton inet_ntop rc ns names lk -> fresh rc0 ->
  dns_resconf_loadfile inet_pton rc0 (dns_resconf_dump inet_ntop rc) = Val (set_refcount rc (rc_refcount rc0)).
Proof.
  intros H (F1 & F2 & F3 & F4). pose proof (lines_clean _ _ _ _ _ _ H) as Hcl. pose proof (file_of_words _ Hcl) as Hw.
  pose proof (lines_short _ _ _ _ _ _ H) as Hsh. set (lns := (ns_line inet_ntop <$> ns) ++ _) in *.
  assert (take 6 <$> lns = lns) as Htake.
  { rewrite <- (list_fmap_id lns) at 2. apply Forall_fmap_ext_1. eapply Forall_impl; [exact Hsh|]. intros ws [_ Hl]. by apply take_ge. }
  rewrite Htake in Hw. rewrite (dump_lines _ _ _ _ _ _ H). fold lns. rewrite loadfile_spec; [|rewrite Hw|by rewrite F2].
  2: { apply Forall_app. split; [eapply Forall_impl; [exact Hsh|]; by intros ws []|]. by repeat constructor. }
  unfold spec_loadfile. rewrite Hw. unfold lns at 1. rewrite !foldl_app.
  rewrite (load_ns inet_pton inet_ntop ns [] (nameserver rc0) rc0 0); [|done|done|by rewrite F1; repeat constructor|rewrite F1; apply H|apply H].
  unfold last_lines. cbn [foldl]. apply Forall_app in Hcl as [_ Hcl]. unfold last_lines in Hcl.
  apply Forall_cons in Hcl as [C1 Hcl]. apply Forall_cons in Hcl as [C2 Hcl]. apply Forall_cons in Hcl as [C3 Hcl]. apply Forall_cons in Hcl as [C4 _]. pose proof (d_names_len _ _ _ _ _ _ H). pose proof (d_lk_len _ _ _ _ _ _ H).
  rewrite (spec_line_clean _ _ _ C1) by (cbn; lia). rewrite load_names by apply H.
  rewrite (spec_line_clean _ _ _ C2) by (cbn [length]; rewrite length_fmap; lia). rewrite load_lookups by apply H.
  rewrite (spec_line_clean _ _ _ C3) by (cbn; lia). rewrite load_all_options by (done || apply H).
  rewrite (spec_line_clean _ _ _ C4) by (cbn; lia). rewrite load_iface by (done || apply H).
  cbn [fst snd spec_line length Nat.ltb Nat.leb]. unfold spec_line. cbn [fst snd length Nat.ltb Nat.leb]. f_equal.
  destruct rc as [rns rs rl ro ri rr], H as [E1 d_ns_len ? E2 ? ? E3 d_lk_len ? ? ? ?]. cbn in *. unfold set_refcount, set_iface, set_opts, set_lookup, set_search, set_nameserver. cbn.
  rewrite E1, E2, E3, F1, F2. f_equal.
  - f_equal. clear -d_ns_len. destruct ns as [|? [|? [|? [|]]]]; cbn in d_ns_len; (lia || done).
  - f_equal. clear -d_lk_len. destruct lk as [|? [|? [|? [|]]]]; cbn in d_lk_len; (lia || done).
Qed.

(** ** The configuration a host starts from *)
Lemma from_dot_suffix t rest : from_dot t = Some rest -> exists p, t = p ++ rest.
Proof.
  induction t as [|c t IH]; cbn; [done|]. destruct (c =? dot); [intros [= <-]; by exists []|]. intros [p ->]%IH. by exists (c :: p).
Qed.
Lemma cleave_suffix t : exists p, t = p ++ DnsName.dns_d_cleave t.
Proof.
  destruct t as [|b t]; [by exists []|]. cbn. destruct (from_dot t) as [rest|] eqn:E; [|exists (b :: t); by rewrite app_nil_r].
  destruct (from_dot_suffix _ _ E) as (p & ->). destruct (1 <? len rest); [|by exists (b :: p)].
  exists (b :: p ++ take 1 rest). cbn. rewrite <- app_assoc. by rewrite (take_drop 1 rest).
Qed.

Lemma d_cleave_store t r lim : 0 < lim -> len (t ++ r) = lim -> t <> [] ->
  from_dot (drop 1 t) <> None -> d_cleave (t ++ r) lim (len t) = Val (store lim (t ++ r) (DnsName.dns_d_cleave t), len (DnsName.dns_d_cleave t)).
Proof.
  intros Hl Hlen Ht Hfd. unfold d_cleave. assert (0 < len t) by (unfold len; destruct t; [done|cbn; lia]).
  destruct (Z.eqb_spec (len t) 0); [lia|]. rewrite rdn_in by (rewrite ?len_app; pose proof (len_nonneg r); lia).
  cbn [mbind out_bind]. change (Z.to_nat 0) with 0%nat. rewrite drop_0, to_nat_len, take_app_length.
  destruct t as [|b t]; [done|]. change (drop 1 (b :: t)) with t in *. unfold DnsName.dns_d_cleave.
  destruct (from_dot t) as [rest|] eqn:Er; [|done]. set (s := if 1 <? len rest then drop 1 rest else rest).
  destruct (from_dot_suffix _ _ Er) as (p & Ep). assert (len rest <= len t) as Hrt by (rewrite Ep, len_app; pose proof (len_nonneg p); lia).
  assert (len s <= len rest) as Hs. { unfold s. destruct (_ <? _); [|lia]. unfold len. rewrite length_drop. lia. }
  rewrite len_app, len_cons in Hlen. pose proof (len_nonneg r). pose proof (len_nonneg s).
  rewrite (Z.min_r (lim - 1)), (Z.min_r lim), rdn_in by lia. cbn [mbind out_bind]. change (Z.to_nat 0) with 0%nat. rewrite drop_0, to_nat_len, firstn_all.
  rewrite wrn_start by (rewrite len_app, len_cons; lia). cbn [mbind out_bind]. destruct (Z.ltb_spec 0 lim); [|lia].
  rewrite ?Z.min_r by lia. rewrite wr_tail by (rewrite ?len_app, ?len_cons; lia). cbn [mbind out_bind]. rewrite store_eq by lia. done.
Qed.

(** The domain [dns_resconf_open] derives from the host name. *)
Definition parent (host : list Z) : list Z := DnsName.dns_d_cleave (DnsName.dns_d_anchor host).

Lemma open_parent gethostname host r : gethostname MAXNAME1 = Some (host ++ 0 :: r) -> len (host ++ 0 :: r) = 256 ->
  nulfree host -> len host <= 254 -> from_dot (drop 1 (DnsName.dns_d_anchor host)) <> None ->
  exists rc, dns_resconf_open true gethostname = Val (inr rc) /\ fresh rc /\ rc_refcount rc = 1 /\
    domains (search rc) = match parent host with [] => [] | d => [d] end.
Proof.
  intros Hg Hlen Hn Hl Hfd. unfold dns_resconf_open. rewrite Hg. cbn [negb].
  rewrite cstring_cstr, cstr_nulfree by done. cbn [mbind out_bind].
  assert (0 < len host) as Hpos. { unfold len. destruct host; [done|cbn; lia]. }
  rewrite d_anchor_store by (unfold MAXNAME1, DNS_D_MAXNAME; rewrite ?len_app in *; pose proof (len_nonneg (0 :: r)); lia).
  rewrite to_nat_len, take_app_length. cbn [mbind out_bind]. set (name := DnsName.dns_d_anchor host) in *.
  assert (len name <= 255) as Hname.
  { unfold name, DnsName.dns_d_anchor. destruct (last host); [|rewrite len_nil; lia]. destruct (_ =? dot); rewrite ?len_app, ?len_cons, ?len_nil; lia. }
  assert (len (store MAXNAME1 (host ++ 0 :: r) name) = 256) as Hst by (by apply len_store).
  assert (len name < MAXNAME1) as Hname' by (unfold MAXNAME1, DNS_D_MAXNAME; lia).
  rewrite store_fits in Hst |- * by exact Hname'. set (r' := drop _ _) in *.
  rewrite cstring_cstr, cstr_nulfree by (by apply nulfree_anchor). cbn [mbind out_bind].
  assert (name <> []) as Hnn by (destruct name; done).
  rewrite d_cleave_store by (done || by unfold MAXNAME1, DNS_D_MAXNAME). cbn [mbind out_bind].
  eexists. split; [done|]. split; [by unfold fresh|]. split; [done|].
  unfold parent. fold name. set (d := DnsName.dns_d_cleave name).
  destruct (cleave_suffix name) as (p & Ep). fold d in Ep.
  pose proof (f_equal len Ep) as Hd. rewrite len_app in Hd. pose proof (len_nonneg p).
  assert (nulfree d) as Nd. { assert (nulfree name) as Nn by (by apply nulfree_anchor). rewrite Ep in Nn. by apply Forall_app in Nn as [_ Nn]. }
  cbn [dns_resconf_acquire fst search set_refcount set_search]. change (search (set_nameserver _ _)) with no_search.
  change (<[0%nat := ?x]> no_search) with (x :: replicate 3 (replicate 256 0)). cbn [domains].
  rewrite store_fits, cstr_app0 by (done || unfold MAXNAME1, DNS_D_MAXNAME; lia). by destruct d.
Qed.

(** A host name without a dot does not leave the search list empty, as the
    comment in [dns_resconf_open] says it should: the list starts with the root
    domain, because the name was anchored before its first label was removed,
    and the only dot in it is the one that was added. *)
Theorem open_undotted_host gethostname host r : gethostname MAXNAME1 = Some (host ++ 0 :: r) -> len (host ++ 0 :: r) = 256 ->
  nulfree host -> 0 < len host <= 254 -> Forall (fun b => b <> dot) host ->
  exists rc, dns_resconf_open true gethostname = Val (inr rc) /\ fresh rc /\ rc_refcount rc = 1 /\ domains (search rc) = [[dot]].
Proof.
  intros Hg Hlen Hn Hl Hd. destruct host as [|b host]; [rewrite len_nil in Hl; lia|]. set (h := b :: host) in *.
  assert (DnsName.dns_d_anchor h = h ++ [dot]) as Ha.
  { unfold DnsName.dns_d_anchor. destruct (last h) as [c|] eqn:E; [|by apply last_None in E].
    apply last_Some_elem_of in E. rewrite Forall_forall in Hd. by destruct (Z.eqb_spec c dot); [apply Hd in E|]. }
  assert (from_dot (host ++ [dot]) = Some [dot]) as Hf.
  { apply Forall_cons in Hd as [_ Hd]. clear -Hd. induction Hd as [|c l Hc _ IH]; [done|]. cbn. destruct (Z.eqb_spec c dot); done. }
  assert (parent h = [dot]) as Hp by (unfold parent; rewrite Ha; unfold DnsName.dns_d_cleave, h; cbn [app]; by rewrite Hf).
  destruct (open_parent gethostname h r) as (rc & H1 & H2 & H3 & H4); [done..|lia|by rewrite Ha; unfold h; cbn [app]; change (drop 1 (?x :: ?y)) with y; rewrite Hf|].
  exists rc. by rewrite Hp in H4.
Qed.

(** ** What a file can do that it should not *)

(** A lookup line does not replace the lookup order, it overwrites its
    first letters: after a line that names one method, the second and third
    method of the default order are still there. *)
Theorem lookup_keeps_old_methods inet_pton rc w c : lookup_char w = Some c -> clean w -> short w -> length (lookup rc) = 3%nat ->
  dns_resconf_loadfile inet_pton rc (unwords [bytes "lookup"; w]) = Val (set_lookup rc (c :: drop 1 (lookup rc))).
Proof.
  intros Hc Hw Hs H3. assert (Forall clean [bytes "lookup"; w]) as Hcl by (apply Forall_cons_2; [clean_word|by apply Forall_cons_2]).
  assert (file_lines (unwords [bytes "lookup"; w]) = [unwords [bytes "lookup"; w]]) as Hfl.
  { pose proof (unwords_no_newline _ Hcl) as Hnl. induction Hnl as [|b l Hb _ IH]; [done|]. cbn. destruct (Z.eqb_spec b newline); [done|]. by rewrite IH. }
  assert (line_words <$> file_lines (unwords [bytes "lookup"; w]) = [[bytes "lookup"; w]]) as Hlw.
  { rewrite Hfl. cbn [fmap list_fmap]. unfold line_words. by rewrite tokens_unwords. }
  rewrite loadfile_spec; [|rewrite Hlw; constructor; [|done]; apply Forall_cons_2; [short_word|by apply Forall_cons_2]|done].
  unfold spec_loadfile. rewrite Hlw. cbn [foldl]. rewrite spec_line_clean by (done || cbn; lia). unfold spec_directive. cbn [nth fst snd].
  change (dns_resconf_keyword (bytes "lookup")) with (Some KW_LOOKUP). cbn match. change (drop 1 [?a; ?b]) with [b].
  unfold spec_lookup. cbn. by rewrite Hc.
Qed.

(** The array while its sixth word is read, the first five being [P]. *)
Definition sixth (P cur : list Z) : list Z := P ++ take 256 cur ++ replicate (256 - length cur) 0.

Lemma lex_sixth inet_pton P w : forall cur sa rc, length P = 1280%nat -> Forall (fun b => cleanb b = true) w ->
  len (cur ++ w) < 2 ^ 32 ->
  load_chars inet_pton w (Lexer (sixth P cur) (len cur) 5 false) sa rc
  = ('(rc, _) ← load_line inet_pton (Lexer (sixth P (cur ++ w)) (len (cur ++ w)) 5 false) sa rc; Val rc).
Proof.
  induction w as [|b w IH]; intros cur sa rc HP Hw Hl; [by rewrite app_nil_r|]. apply Forall_cons in Hw as [Hb Hw].
  destruct (cleanb_spec b Hb) as (H1 & H2 & H3 & _). cbn [load_chars]. destruct (Z.eqb_spec b newline); [done|].
  unfold lex_char. cbn [lx_skip lx_wp lx_wc lx_words]. rewrite H1, H2.
  replace (cur ++ b :: w) with ((cur ++ [b]) ++ w) in * by (by rewrite <- app_assoc).
  assert (w32 (len cur + 1) = len (cur ++ [b])) as ->.
  { rewrite !len_app, len_cons, len_nil in *. pose proof (len_nonneg w). pose proof (len_nonneg cur). unfold w32. rewrite Z.mod_small; lia. }
  rewrite <- IH by done. assert (len P = 1280) as HlP by (unfold len; lia). unfold MAXNAME1, DNS_D_MAXNAME. unfold sixth.
  destruct (Z.ltb_spec (len cur) (255 + 1)) as [Hlt|Hge].
  - assert (length cur < 256)%nat as Hc by (unfold len in Hlt; lia). rewrite !firstn_all2 by (rewrite ?length_app; cbn; lia).
    replace (256 - length cur)%nat with (S (256 - length (cur ++ [b]))) by (rewrite length_app; cbn; lia). cbn [replicate].
    rewrite app_assoc. replace (5 * (255 + 1) + len cur) with (len (P ++ cur)) by (rewrite len_app; lia). rewrite wr_app. cbn [mbind out_bind].
    by rewrite <- !app_assoc.
  - assert (256 <= length cur)%nat as Hc by (unfold len in Hge; lia). cbn [mbind out_bind].
    rewrite take_app_le by lia. rewrite length_app. by replace (256 - (length cur + _))%nat with (256 - length cur)%nat by (cbn; lia).
Qed.

Fixpoint lex_text (l : list Z) (L : lexer) : out lexer :=
  match l with [] => Val L | ch :: l' => L ← lex_char ch L; lex_text l' L end.
Lemma load_chars_text inet_pton l fp sa rc : forall L, Forall (fun b => b <> newline) l ->
  load_chars inet_pton (l ++ fp) L sa rc = (L ← lex_text l L; load_chars inet_pton fp L sa rc).
Proof.
  induction l as [|b l IH]; intros L Hl; [done|]. apply Forall_cons in Hl as [Hb Hl]. cbn. destruct (Z.eqb_spec b newline); [done|].
  destruct (lex_char b L); cbn; [by apply IH|done..].
Qed.

Lemma cstring_nulfree t : nulfree t -> cstring t = UB.
Proof. induction 1 as [|b t Hb _ IH]; [done|]. cbn. destruct (Z.eqb_spec b 0); [done|]. by rewrite IH. Qed.

Lemma load_options_app n m words : forall i o, load_options (n + m) o words i = (o ← load_options n o words i; load_options m o words (i + Z.of_nat n)).
Proof.
  induction n as [|n IH]; intros i o; [cbn; by rewrite Z.add_0_r|]. cbn [Nat.add load_options]. destruct (load_option o words i); cbn [mbind out_bind]; [|done..].
  rewrite IH. by replace (i + 1 + Z.of_nat n) with (i + Z.of_nat (S n)) by lia.
Qed.

Definition five_words : list (list Z) := [bytes "options"; bytes "a"; bytes "a"; bytes "a"; bytes "a"].

(** The strings of the array before the sixth word. *)
Lemma five_words_strings T :
  let words := concat (pad <$> five_words) ++ T in
  cstring (word_at words 0) = Val (bytes "options") /\ (forall o, load_options 4 o words 1 = Val o) /\ word_at words 5 = T.
Proof. cbn zeta. split_and!; [by vm_compute|intros o; by vm_compute|by vm_compute]. Qed.

(** A sixth word of 256 or more characters makes the parser read past its
    array: [dns__printchar] stores 256 characters and leaves no room for the
    NUL, and the word is the last of the array. *)
Theorem long_word_leaves_array inet_pton rc w : clean w -> 256 <= len w < 2 ^ 32 ->
  dns_resconf_loadfile inet_pton rc (unwords (five_words ++ [w])) = UB.
Proof.
  intros Hcl Hl. pose proof (clean_nulfree w Hcl) as Hn. destruct Hcl as [_ Hw].
  assert (unwords (five_words ++ [w]) = bytes "options a a a a " ++ w) as -> by (cbn; by rewrite app_nil_r).
  unfold dns_resconf_loadfile. rewrite load_chars_text by (repeat (constructor; [done|]); constructor).
  assert (lex_text (bytes "options a a a a ") lex0 = Val (Lexer (sixth (concat (pad <$> five_words)) []) (len []) 5 false)) as -> by (by vm_compute).
  cbn [mbind out_bind]. rewrite lex_sixth by (done || (rewrite app_nil_l; lia)). rewrite app_nil_l.
  unfold load_line. cbn [lx_wp lx_wc lx_words]. destruct (Z.ltb_spec 0 (len w)); [|lia]. change (5 + 1 <? 2) with false. cbn match.
  unfold sixth. assert (256 <= length w)%nat as Hlw by (unfold len in Hl; lia). replace (256 - length w)%nat with 0%nat by lia. cbn [replicate]. rewrite app_nil_r.
  destruct (five_words_strings (take 256 w)) as (H0 & H14 & H5). unfold load_directive. rewrite H0. cbn [mbind out_bind].
  change (dns_resconf_keyword (bytes "options")) with (Some KW_OPTIONS). cbn match. change (Z.to_nat (5 + 1 - 1)) with (4 + 1)%nat.
  rewrite load_options_app, H14. cbn [mbind out_bind load_options]. change (1 + Z.of_nat 4) with 5. unfold load_option. rewrite H5, (cstring_nulfree (take 256 w)) by (by apply Forall_take). done.
Qed.

(** ** Examples *)
Module ResconfWitnesses.
(** Addresses in text, as far as the examples need them. *)
Definition pton (af : Z) (s : list Z) : pton_res :=
  if decide (s = bytes "192.0.2.1") then PtonOk [192; 0; 2; 1]
  else if decide (s = bytes "::1") then PtonOk (replicate 15 0 ++ [1])
  else if decide (s = bytes "0.0.0.0") then PtonOk [0; 0; 0; 0] else PtonBad.
Definition ntop (af : Z) (a : list Z) : option (list Z) :=
  if decide (a = [192; 0; 2; 1]) then Some (bytes "192.0.2.1")
  else if decide (a = replicate 15 0 ++ [1]) then Some (bytes "::1")
  else if decide (a = [0; 0; 0; 0]) then Some (bytes "0.0.0.0") else None.

Definition host (n : Z) : option (list Z) := Some (bytes "mail" ++ 0 :: replicate 251 0).
Definition rc0 : resolv_conf := Eval vm_compute in
  match dns_resconf_open true host with Val (inr rc) => rc | _ => resconf_initializer end.

Definition ns1 : sockaddr_storage := SS AF_INET 53 [192; 0; 2; 1] (replicate 16 0).
Definition ns2 : sockaddr_storage := SS AF_INET6 5353 (replicate 4 0) (replicate 15 0 ++ [1]).
Definition names : list (list Z) := [bytes "example.com."; bytes "example.org."].
Definition rc1 : resolv_conf :=
  Resconf [ns1; ns2; ss_zero] ((spec_slot <$> names) ++ drop 2 no_search) [char_f; char_b; 0]
    (Options true 2 30 7 false false true TCP_ENABLE) (SS AF_INET 0 (replicate 4 0) (replicate 16 0)) 4.

Lemma open_undotted_host_witness : exists rc, dns_resconf_open true host = Val (inr rc) /\ fresh rc /\ rc_refcount rc = 1 /\ domains (search rc) = [[dot]].
Proof.
  apply (open_undotted_host host (bytes "mail") (replicate 251 0)); [reflexivity|reflexivity| | |].
  - repeat (constructor; [discriminate|]). constructor.
  - vm_compute. split; [reflexivity|discriminate].
  - repeat (constructor; [discriminate|]). constructor.
Defined.

(** A file of every kind of line. *)
Definition file : list Z := dns_resconf_dump ntop rc1 ++ bytes "nameserver 192.0.2.1 # again".
Lemma loadfile_implements_lines_witness : dns_resconf_loadfile pton rc0 file = Val (spec_loadfile pton rc0 file).
Proof.
  apply (loadfile_implements_lines pton rc0 file); [|reflexivity].
  assert (forallb (forallb (fun w => Nat.ltb (length w) 256)) (line_words <$> file_lines file) = true) as Hb by (vm_compute; reflexivity).
  rewrite forallb_forall in Hb. apply Forall_forall. intros ws Hws. specialize (Hb ws ltac:(by apply list_elem_of_In)).
  rewrite forallb_forall in Hb. apply Forall_forall. intros w Hw. specialize (Hb w ltac:(by apply list_elem_of_In)). by apply Nat.ltb_lt.
Defined.

Lemma slot_ok_b s : existsb (fun b => b =? 0) s = true -> slot_ok s.
Proof.
  induction s as [|b s IH]; cbn; [done|]. destruct (Z.eqb_spec b 0) as [->|]; [intros _; by exists [], s|].
  intros (d & r & ->)%IH. by exists (b :: d), r.
Qed.

Lemma search_enumerates_witness : search_all 7 (replicate 256 7) 256 (bytes "www") rc1 0
  = Val [bytes "www.example.com."; bytes "www.example.org."; bytes "www."].
Proof.
  rewrite (search_enumerates (replicate 256 7) 256 (bytes "www") rc1);
    [vm_compute; reflexivity|discriminate|repeat (constructor; [discriminate|]); constructor|vm_compute; discriminate|reflexivity| |vm_compute; lia|reflexivity|].
  - repeat (constructor; [apply slot_ok_b; vm_compute; reflexivity|]). constructor.
  - repeat (constructor; [vm_compute; reflexivity|]). constructor.
Defined.

Lemma rc1_dumpable : dumpable pton ntop rc1 [ns1; ns2] names [char_f; char_b].
Proof.
  assert (printable pton ntop AF_INET [192; 0; 2; 1] (bytes "192.0.2.1")) as P1
    by (split; [reflexivity|reflexivity|clean_word|repeat (constructor; [done|]); constructor|vm_compute; discriminate|reflexivity]).
  assert (printable pton ntop AF_INET6 (replicate 15 0 ++ [1]) (bytes "::1")) as P2
    by (split; [reflexivity|reflexivity|clean_word|repeat (constructor; [done|]); constructor|vm_compute; discriminate|reflexivity]).
  assert (printable pton ntop AF_INET (replicate 4 0) (bytes "0.0.0.0")) as P3
    by (split; [reflexivity|reflexivity|clean_word|repeat (constructor; [done|]); constructor|vm_compute; discriminate|reflexivity]).
  split; cbn; try lia; try reflexivity.
  - repeat (constructor; [split; [|discriminate]; split; [cbn; lia|split; [eexists; eassumption|naive_solver]]|]). constructor.
  - repeat (constructor; [split_and!; [clean_word|short_word|reflexivity]|]). constructor.
  - repeat (constructor; [set_solver|]). constructor.
  - unfold u32. lia.
  - split; [cbn; lia|split; [eexists; exact P3|naive_solver]].
Qed.

Lemma dump_load_roundtrip_witness : dns_resconf_loadfile pton rc0 (dns_resconf_dump ntop rc1) = Val (set_refcount rc1 1).
Proof. apply (dump_load_roundtrip pton ntop rc1 rc0 [ns1; ns2] names [char_f; char_b]); [apply rc1_dumpable|done]. Defined.

Lemma lookup_keeps_old_methods_witness :
  dns_resconf_loadfile pton rc0 (unwords [bytes "lookup"; bytes "file"]) = Val (set_lookup rc0 [char_f; char_f; 0]).
Proof. apply (lookup_keeps_old_methods pton rc0 (bytes "file") char_f); [reflexivity|clean_word|short_word|reflexivity]. Defined.

Lemma long_word_leaves_array_witness : dns_resconf_loadfile pton rc0 (unwords (five_words ++ [replicate 256 120])) = UB.
Proof.
  apply (long_word_leaves_array pton rc0 (replicate 256 120)); [|vm_compute; split; [discriminate|reflexivity]].
  split; [discriminate|]. by apply Forall_replicate.
Defined.

(** A configuration with three flags set, and the one read back: the line has
    seven words, the last of which is dropped. *)
Definition rc3 : resolv_conf := set_opts rc1 (Options true 2 30 7 true true false TCP_ENABLE).
Lemma dump_drops_seventh_word :
  exists rc, dns_resconf_loadfile pton rc0 (dns_resconf_dump ntop rc3) = Val rc /\ recurse (opts rc3) = true /\ recurse (opts rc) = false.
Proof. eexists. split; [vm_compute; reflexivity|]. done. Qed.
End ResconfWitnesses.
