(* ===== verification/DnsHosts.v ===== *)
(** libdns: the hosts file (dns.c, "H O S T S  R O U T I N E S").

    The table is the list of its entries from [head] on; [tail] is its end. An
    entry's [host] is a buffer of 256 bytes that [malloc] returned: [malloc es]
    is that memory for the entry after [es], or [None]. [inet_pton] is the C
    library's. *)

From stdpp Require Import prelude strings.
From Stdlib Require Import ZArith Lia.
From S2P Require Import Prelude DnsBase DnsName DnsRr DnsRdata DnsPacket DnsResconf.
Local Open Scope Z_scope.

Record hosts_entry := HostsEntry { he_host : list Z; he_arpa : list Z; he_af : Z; he_addr : list Z; he_alias : bool }.
Record hosts := Hosts { h_entries : list hosts_entry; h_refcount : Z }.

(** [in_addr] as a number, most significant byte first ([ntohl]). *)
Definition in_addr (a : list Z) : Z := foldl (fun n b => n * 256 + b) 0 a.

(** [char arpa[73 + 1]]. *)
Definition ARPA_SIZE : Z := 74.

Section Hosts.
Context (malloc : list hosts_entry -> option (list Z)) (inet_pton : Z -> list Z -> pton_res).

Definition dns_hosts_open (malloc_ok : bool) : dns_error + hosts :=
  if malloc_ok then inr (Hosts [] 1) else inl DNS_ESYSTEM.

Definition dns_hosts_acquire (h : hosts) : hosts * Z := (Hosts (h_entries h) (w32 (h_refcount h + 1)), h_refcount h).
Definition dns_hosts_release (h : hosts) : hosts * Z := (Hosts (h_entries h) (w32 (h_refcount h - 1)), h_refcount h).

(** [None] after every entry and the table were released. *)
Definition dns_hosts_close (h : hosts) : option hosts :=
  let '(h, n) := dns_hosts_release h in if n =? 1 then None else Some h.
Definition dns_hosts_mortal (h : option hosts) : option hosts :=
  match h with Some h => Some (dns_hosts_release h).1 | None => None end.

(** [host] is the C string given. DNS_ESYSTEM also stands for EINVAL. *)
Definition dns_hosts_insert (h : hosts) (af : Z) (addr host : list Z) (alias : bool) : out (hosts * option dns_error) :=
  match malloc (h_entries h) with
  | None => Val (h, Some DNS_ESYSTEM)
  | Some mem =>
      '(mem, _) ← d_anchor mem MAXNAME1 host (len host);
      let link arpa := Val (Hosts (h_entries h ++ [HostsEntry mem arpa af addr alias]) (h_refcount h), None) in
      if af =? AF_INET6 then link (cbuf ARPA_SIZE (dns_aaaa_arpa addr))
      else if af =? AF_INET then link (cbuf ARPA_SIZE (dns_a_arpa (in_addr addr)))
      else Val (h, Some DNS_ESYSTEM)
  end.

(** ** Reading the file *)
Definition hosts_issep (ch : Z) : bool := isspace ch.
Definition hosts_iscom (ch : Z) : bool := (ch =? 35) || (ch =? 59).

(** What the two inner loops keep: [ent.host], [ent.af], [ent.addr], [wc],
    [skip], [word] and [wp]. *)
Record hlexer := HLexer {
  hx_host : list Z; hx_af : Z; hx_addr : list Z; hx_wc : Z; hx_skip : bool; hx_word : list Z; hx_wp : Z }.
Definition hlex0 : hlexer := HLexer (replicate 256 0) 0 (replicate 16 0) 0 false (replicate 256 0) 0.

(** The end of a word: [wc++] and the [switch]. *)
Definition hosts_word (x : hlexer) (h : hosts) : out (hlexer * hosts * option dns_error) :=
  if hx_wp x =? 0 then Val (x, h, None)
  else
    let wc := hx_wc x + 1 in
    if wc =? 1 then
      w ← cstring (hx_word x);
      let af := if has_colon w then AF_INET6 else AF_INET in
      match inet_pton af w with
      | PtonOk a => Val (HLexer (hx_host x) af a wc false (hx_word x) (hx_wp x), h, None)
      | _ => Val (HLexer (hx_host x) af (hx_addr x) wc true (hx_word x) (hx_wp x), h, None)
      end
    else
      '(host, _) ← d_anchor (hx_host x) MAXNAME1 (hx_word x) (hx_wp x);
      name ← cstring host;
      '(h, e) ← dns_hosts_insert h (hx_af x) (hx_addr x) name (2 <? wc);
      Val (HLexer host (hx_af x) (hx_addr x) wc (hx_skip x) (hx_word x) (hx_wp x), h, e).

(** [memset (word)], [wp = 0]. *)
Definition next_word (x : hlexer) : hlexer :=
  HLexer (hx_host x) (hx_af x) (hx_addr x) (hx_wc x) (hx_skip x) (replicate 256 0) 0.

Definition hosts_char (ch : Z) (x : hlexer) (h : hosts) : out (hlexer * hosts * option dns_error) :=
  let skip := hx_skip x || hosts_iscom ch in
  let x := HLexer (hx_host x) (hx_af x) (hx_addr x) (hx_wc x) skip (hx_word x) (hx_wp x) in
  if skip then Val (x, h, None)
  else if hosts_issep ch then
    '(x, h, e) ← hosts_word x h; Val (next_word x, h, e)
  else
    word ← (if hx_wp x <? 255 then wr (hx_word x) (hx_wp x) ch else Val (hx_word x));
    Val (HLexer (hx_host x) (hx_af x) (hx_addr x) (hx_wc x) false word (w32 (hx_wp x + 1)), h, None).

Fixpoint hosts_chars (fp : list Z) (x : hlexer) (h : hosts) : out (hosts * option dns_error) :=
  match fp with
  | [] => '(_, h, e) ← hosts_word x h; Val (h, e)
  | ch :: fp' =>
      if ch =? newline then
        '(_, h, e) ← hosts_word x h;
        match e with Some _ => Val (h, e) | None => hosts_chars fp' hlex0 h end
      else
        '(x, h, e) ← hosts_char ch x h;
        match e with Some _ => Val (h, e) | None => hosts_chars fp' x h end
  end.

Definition dns_hosts_loadfile (h : hosts) (fp : list Z) : out (hosts * option dns_error) := hosts_chars fp hlex0 h.

Context (fopen : string -> option (list Z)).

Definition dns_hosts_loadpath (h : hosts) (path : string) : out (hosts * option dns_error) :=
  match fopen path with
  | None => Val (h, Some DNS_ESYSTEM)
  | Some fp => dns_hosts_loadfile h fp
  end.

Definition dns_hosts_local (malloc_ok : bool) : out (dns_error + hosts) :=
  match dns_hosts_open malloc_ok with
  | inl e => Val (inl e)
  | inr h =>
      '(h, e) ← dns_hosts_loadpath h "/etc/hosts";
      match e with Some e => Val (inl e) | None => Val (inr h) end
  end.
End Hosts.

(** ** Writing it *)
Section Dump.
Context (inet_ntop : Z -> list Z -> option (list Z)).

(** [addr] is uninitialised when [inet_ntop] fails: [None]. *)
Definition dump_entry (e : hosts_entry) : option (list Z) :=
  match inet_ntop (he_af e) (he_addr e) with
  | None => None
  | Some t => Some (t ++ replicate (16 - length t) 32 ++ [32] ++ cstr (he_host e) ++ [newline])
  end.
Fixpoint dns_hosts_dump (es : list hosts_entry) : option (list Z) :=
  match es with
  | [] => Some []
  | e :: es' => match dump_entry e, dns_hosts_dump es' with Some t, Some r => Some (t ++ r) | _, _ => None end
  end.
End Dump.

(** ** Answering *)
Section Query.
Context (fuel : nat).

Definition entry_any (e : hosts_entry) : any := if he_af e =? AF_INET6 then AnyAAAA (he_addr e) else AnyA (in_addr (he_addr e)).

(** The entries a question of the type is answered from. *)
Definition entry_matches (type : Z) (qname : list Z) (e : hosts_entry) : bool :=
  if type =? DNS_T_PTR then negb (he_alias e) && (strcasecmp qname (he_arpa e) =? 0)
  else
    let af := if type =? DNS_T_AAAA then AF_INET6 else AF_INET in
    (he_af e =? af) && (strcasecmp qname (he_host e) =? 0).

Definition entry_data (type : Z) (e : hosts_entry) : any :=
  if type =? DNS_T_PTR then AnyNS (cstr (he_host e)) else entry_any e.

Fixpoint push_entries (P : packet) (es : list hosts_entry) (qname : list Z) (type class : Z) : out pushed_res :=
  match es with
  | [] => ok P
  | e :: es' =>
      if entry_matches type qname e then
        '(P, err) ← dns_p_push fuel P DNS_S_AN qname type class 0 (entry_data type e);
        match err with
        | Some e => fail P e
        | None => push_entries P es' qname type class
        end
      else push_entries P es' qname type class
  end.

(** [malloc] for the answer; [junk] is what the section of [rr] held. The packet
    [P] is on the stack; a question has no data. *)
Definition dns_hosts_query (malloc : Z -> option (list Z)) (junk : Z) (h : hosts) (Q : packet) : out (dns_error + packet) :=
  r ← dns_rr_parse junk 12 Q;
  match r with
  | inl e => Val (inl e)
  | inr rr =>
      q ← dns_d_expand fuel (rr_dn_p rr) Q;
      match q with
      | inl e => Val (inl e)
      | inr qname =>
          if 256 <=? len qname then Val (inl DNS_EILLEGAL)
          else match dns_p_init (Some (replicate 512 0)) with
          | None => UB
          | Some P =>
              '(P, err) ← dns_p_push fuel P DNS_S_QD qname (rr_type rr) (rr_class rr) 0 (AnyA 0);
              match err with
              | Some e => Val (inl e)
              | None =>
                  '(P, err) ← (if (rr_type rr =? DNS_T_PTR) || (rr_type rr =? DNS_T_AAAA) || (rr_type rr =? DNS_T_A)
                               then push_entries P (h_entries h) qname (rr_type rr) (rr_class rr) else ok P);
                  match err with
                  | Some e => Val (inl e)
                  | None =>
                      match dns_p_make malloc (p_end P) with
                      | None => Val (inl DNS_ESYSTEM)
                      | Some A => A ← dns_p_copy A P; Val (inr A)
                      end
                  end
              end
          end
      end
  end.
End Query.
