(* ===== verification/DnsHostsAns.v ===== *)
(** libdns: the packet that a question is answered with from the hosts file, byte by
    byte: which entries answer, and the record of each. *)

From stdpp Require Import prelude strings.
From Stdlib Require Import ZArith Lia.
From S2P Require Import Prelude DnsBase DnsName DnsNameSpec DnsNamePush DnsRr DnsRrSpec DnsRdata DnsPush DnsPacket DnsResconf DnsHosts.
From S2P Require Import DnsLayout DnsPacketSpec DnsFlat DnsPacketThm.
Local Open Scope Z_scope.

(** ** Which entries answer *)

(** Equal C strings but for case. *)
Definition same_name (a b : list Z) : Prop := lower (cstr a) = lower (cstr b).
Lemma strcasecmp_same a b : strcasecmp a b = 0 <-> same_name a b.
Proof.
  unfold strcasecmp, same_name. assert (forall l, nulfree (cstr l)) as Hn.
  { induction l as [|b' l IH]; cbn; [constructor|]. destruct (Z.eqb_spec b' 0); [constructor|]. by constructor. }
  generalize (Hn a) (Hn b). generalize (cstr a) (cstr b). clear. intros a b Ha. revert b.
  assert (forall y, y <> 0 -> tolower y <> 0) as Ht by (intros y Hy; unfold tolower; case_match; lia).
  induction Ha as [|x a Hx _ IH]; intros [|y b] Hb; cbn; [done| | |].
  - apply Forall_cons in Hb as [Hy _]. specialize (Ht y Hy). split; [lia|done].
  - specialize (Ht x Hx). split; [lia|done].
  - apply Forall_cons in Hb as [_ Hb]. destruct (Z.eqb_spec (tolower x) (tolower y)) as [E|E].
    + rewrite IH by done. unfold lower. cbn. rewrite E. split; [by intros ->|congruence].
    + split; [lia|]. unfold lower. cbn. congruence.
Qed.

(** A question of [type] for [qname]: PTR asks for the names of an address, by its reverse
    name, and aliases are not given; A and AAAA for the addresses of a name. *)
Definition answers_it (type : Z) (qname : list Z) (e : hosts_entry) : Prop :=
  (type = DNS_T_PTR /\ he_alias e = false /\ same_name qname (he_arpa e)) \/
  (type = DNS_T_A /\ he_af e = AF_INET /\ same_name qname (he_host e)) \/
  (type = DNS_T_AAAA /\ he_af e = AF_INET6 /\ same_name qname (he_host e)).
#[export] Instance answers_it_dec type qname e : Decision (answers_it type qname e).
Proof. unfold answers_it, same_name. apply _. Defined.
Definition chosen (type : Z) (qname : list Z) (es : list hosts_entry) : list hosts_entry := filter (answers_it type qname) es.

(** The types the hosts file answers. *)
Definition answered (type : Z) : bool := (type =? DNS_T_PTR) || (type =? DNS_T_AAAA) || (type =? DNS_T_A).

Lemma matches_chosen type qname e : answered type = true -> entry_matches type qname e = true <-> answers_it type qname e.
Proof.
  unfold answered, entry_matches, answers_it. intros Ht. rewrite <- !strcasecmp_same.
  destruct (Z.eqb_spec type DNS_T_PTR) as [->|]; [|destruct (Z.eqb_spec type DNS_T_AAAA) as [->|]; [|destruct (Z.eqb_spec type DNS_T_A) as [->|]; [|done]]].
  - rewrite andb_true_iff, negb_true_iff, Z.eqb_eq. split; [naive_solver|]. intros [?|[[? _]|[? _]]]; [naive_solver|done..].
  - rewrite andb_true_iff, !Z.eqb_eq. split; [naive_solver|]. intros [[? _]|[[? _]|?]]; [done..|naive_solver].
  - rewrite andb_true_iff, !Z.eqb_eq. split; [naive_solver|]. intros [[? _]|[?|[? _]]]; [done|naive_solver|done].
Qed.
Lemma unanswered_chosen type qname es : answered type = false -> chosen type qname es = [].
Proof.
  intros Ht. unfold chosen. induction es as [|e es IH]; [done|]. rewrite filter_cons, decide_False; [done|].
  unfold answered in Ht. unfold answers_it. lia.
Qed.

(** Addresses of the size of their family, and bytes. *)
Definition entry_ok (e : hosts_entry) : Prop :=
  Forall byte (he_host e) /\ Forall byte (he_addr e) /\
  (he_af e = AF_INET -> length (he_addr e) = 4%nat) /\ (he_af e = AF_INET6 -> length (he_addr e) = 16%nat).

(** ** The record of an entry *)
Section Answer.
Context (fuel : nat) (type class : Z).

(** From [p] to [q] in [d]: a name of one or more bytes, type, class, no time to live, and
    the data. For an address, the name is the one of the question, by a pointer to it,
    and the data is the address of the entry; for PTR it is the name of the entry,
    as [dns_ns_push] compressed it. *)
Definition answer_at (d : list Z) (e : Z) (ent : hosts_entry) (p q : Z) : Prop :=
  exists p1, extent d e p p1 /\ u16 d p1 = type /\ u16 d (p1 + 2) = class /\ u16 d (p1 + 4) = 0 /\ u16 d (p1 + 6) = 0 /\
    q = p1 + 10 + u16 d (p1 + 8) /\ q <= e /\
    if decide (type = DNS_T_PTR)
    then exists P3 P4, dns_ns_push fuel P3 (cstr (he_host ent)) = Val (P4, None) /\ p_end P3 = p1 + 8 /\ p_end P4 = q /\
           agree (p1 + 8) q (p_data P4) d
    else p1 = p + 2 /\ nthz d p = 192 /\ nthz d (p + 1) = 12 /\ u16 d (p1 + 8) = len (he_addr ent) /\
         forall j, 0 <= j < len (he_addr ent) -> nthz d (p1 + 10 + j) = nthz (he_addr ent) j.

Inductive answers (d : list Z) (e : Z) : list hosts_entry -> Z -> Z -> Prop :=
  | ans_nil p : answers d e [] p p
  | ans_cons ent es p q f : answer_at d e ent p q -> answers d e es q f -> answers d e (ent :: es) p f.

Lemma answer_bounds d e ent p q : answer_at d e ent p q -> 0 <= p /\ q <= e.
Proof. intros (p1 & Hx%extent_bounds & H). lia. Qed.
Lemma answers_snoc d e es p q ent f : answers d e es p q -> answer_at d e ent q f -> answers d e (es ++ [ent]) p f.
Proof. induction 1; cbn; eauto using answers. Qed.
Lemma answer_mono d d' e e' ent p q : agree 12 e d d' -> 12 <= p -> e <= e' -> (forall i, 0 <= nthz d i) -> answer_at d e ent p q -> answer_at d' e' ent p q.
Proof.
  intros Ha Hp He Hb (p1 & Hx & Ht & Hc & H4 & H6 & Hq & Hqe & Hr). pose proof (extent_bounds _ _ _ _ Hx).
  assert (0 <= u16 d (p1 + 8)) by (unfold u16; pose proof (Hb (p1 + 8)); pose proof (Hb (p1 + 8 + 1)); lia).
  exists p1. rewrite <- !(agree_u16 12 e d d') by (done || lia). split; [by eapply extent_mono|]. split_and!; [done..|lia|].
  case_decide.
  - destruct Hr as (P3 & P4 & ? & ? & ? & Hag). exists P3, P4. split_and!; [done..|]. eapply agree_trans; [exact Hag|]. eapply agree_sub; [| |exact Ha]; lia.
  - destruct Hr as (Hp1 & Hn0 & Hn1 & Hlen & Hj). rewrite <- !(Ha p), <- !(Ha (p + 1)) by lia. split_and!; [done..|]. intros j Hj'. rewrite <- Ha by lia. by apply Hj.
Qed.
Lemma answers_mono d d' e e' es p q : agree 12 e d d' -> e <= e' -> (forall i, 0 <= nthz d i) -> answers d e es p q -> 12 <= p -> answers d' e' es p q.
Proof.
  intros Ha He Hb. induction 1 as [|ent es p q f Hx _ IH]; intros Hp; [constructor|].
  assert (p <= q) as Hpq. { destruct Hx as (p1 & Hx%extent_bounds & _ & _ & _ & _ & Hq & _). unfold u16 in Hq. pose proof (Hb (p1 + 8)). pose proof (Hb (p1 + 8 + 1)). lia. }
  econstructor; [by eapply answer_mono|apply IH; lia].
Qed.
End Answer.

(** ** Pushing it *)

(** What a push of an address does to the dictionary of names: only the owner enters it. *)
Lemma put_bytes_dict P bs P' : put_bytes P bs = Val P' -> p_dict P' = p_dict P.
Proof. unfold put_bytes. by intros (d & _ & [= <-])%bind_Val. Qed.
Lemma study_dict P P' : dns_p_study P = Val P' -> p_dict P' = p_dict P.
Proof. unfold dns_p_study. by intros (? & _ & (? & _ & (? & _ & (? & _ & [= <-])%bind_Val)%bind_Val)%bind_Val)%bind_Val. Qed.
Lemma bump_dict P i P' : bump P i = Val P' -> p_dict P' = p_dict P.
Proof. unfold bump. by intros (? & _ & (? & _ & [= <-])%bind_Val)%bind_Val. Qed.
Lemma update_dict P start section P' : p_update P start section = Val (P', None) -> p_dict P' = p_dict P.
Proof.
  assert (forall P1 P2 (m : packet -> memo), (if m_base (m P1) =? 0 then dns_p_study P1 else Val P1) = Val P2 -> p_dict P2 = p_dict P1) as Hs.
  { intros P1 P2 m. destruct (_ =? 0); [apply study_dict|by intros [= <-]]. }
  unfold p_update. cbv zeta. intros Hp.
  repeat match goal with
    | Hp : (_ ≫= _) = Val (_, None) |- _ => apply bind_Val in Hp as (? & ? & Hp)
    | Hp : (if ?b then _ else _) = Val (_, None) |- _ => destruct b
    | Hp : fail _ _ = Val _ |- _ => discriminate Hp
    | Hp : ok _ = Val _ |- _ => injection Hp as <-
    end; cbn.
  all: repeat match goal with Hp : bump _ _ = Val _ |- _ => apply bump_dict in Hp | Hp : (if _ =? 0 then dns_p_study _ else _) = Val _ |- _ => apply Hs in Hp end; congruence.
Qed.
Lemma address_dict fuel P a t P' : (exists x, a = AnyA x) \/ (exists x, a = AnyAAAA x) -> t = DNS_T_A \/ t = DNS_T_AAAA ->
  dns_any_push fuel P a t = Val (P', None) -> p_dict P' = p_dict P.
Proof.
  assert (forall P bs, (P ← put_bytes P bs; ok P) = Val (P', None) -> p_dict P' = p_dict P) as Hb.
  { intros P0 bs (P1 & H1 & [= <-])%bind_Val. by eapply put_bytes_dict. }
  intros [[x ->]|[x ->]] [->| ->]; unfold dns_any_push; cbn; try done; unfold dns_a_push, dns_aaaa_push; (destruct (room P <? _); [done|apply Hb]).
Qed.
Lemma push_dict fuel P section dn type class ttl a P' : (exists x, a = AnyA x) \/ (exists x, a = AnyAAAA x) -> type = DNS_T_A \/ type = DNS_T_AAAA ->
  dns_p_push fuel P section dn type class ttl a = Val (P', None) ->
  exists P1, dns_d_push fuel P dn = Val (P1, None) /\ p_dict P' = p_dict P1 /\ 4 <= room P1.
Proof.
  intros Ha Ht. unfold dns_p_push. intros ([P1 err] & Hd & Hx)%bind_Val. destruct err as [err|]; [done|]. exists P1. split; [done|].
  destruct (Z.ltb_spec (room P1) 4); [done|]. split; [|done]. apply bind_Val in Hx as (P2 & H2%put_bytes_dict & Hx). destruct (section =? DNS_S_QD); [by rewrite (update_dict _ _ _ _ Hx)|].
  destruct (room P2 <? 6); [done|]. apply bind_Val in Hx as (P3 & H3%put_bytes_dict & Hx). apply bind_Val in Hx as ([P4 err] & H4 & Hx).
  destruct err; [done|]. rewrite (update_dict _ _ _ _ Hx), (address_dict _ _ _ _ _ Ha Ht H4). congruence.
Qed.

Lemma four_in_addr a : length a = 4%nat -> Forall byte a -> four (in_addr a) = a.
Proof.
  intros Hl Hb. destruct a as [|b0 [|b1 [|b2 [|b3 [|]]]]]; try done. repeat (apply Forall_cons in Hb as [? Hb]). unfold byte in *.
  unfold four, in_addr. cbn [foldl]. rewrite !land_shift by lia. cbn [Z.pow Z.pow_pos Pos.iter Z.mul].
  repeat f_equal; Z.div_mod_to_equations; lia.
Qed.

Lemma holds_split d p bs : holds_at d p bs -> exists post, d = take (Z.to_nat p) d ++ bs ++ post /\ len (take (Z.to_nat p) d) = p.
Proof.
  intros Hh. pose proof (holds_slice _ _ _ Hh) as Hs. destruct Hh as (Hp & Hl & _). exists (drop (length bs) (drop (Z.to_nat p) d)). split.
  - rewrite <- (take_drop (Z.to_nat p) d) at 1. f_equal. rewrite <- (take_drop (length bs) (drop (Z.to_nat p) d)) at 1. by rewrite Hs.
  - unfold len in *. rewrite length_take. lia.
Qed.
Lemma name_of_wire ls d e p : Forall label_ok ls -> holds_at d p (wire ls) -> p + len (wire ls) <= e -> name_at d e p 0 ls.
Proof.
  intros Hls Hh He. destruct (holds_split _ _ _ Hh) as (post & Hd & Hlen). rewrite <- Hlen. eapply name_wire; [done|exact Hd|]. by rewrite Hlen.
Qed.
Lemma bytes_nonneg P i : wf P -> 0 <= nthz (p_data P) i.
Proof. intros HP. pose proof (d_byte P HP i). unfold byte in *. lia. Qed.

Section Push.
Context (fuel : nat) (qname : list Z) (ls : list (list Z)) (type class : Z).
Context (Hq : Forall byte qname) (Hls : Forall label_ok ls) (Has : Forall ascii_label ls) (Hne : ls <> [])
  (Htext : DnsName.dns_d_anchor qname = text ls) (Ht : 0 <= type < 2 ^ 16) (Hc : 0 <= class < 2 ^ 16) (Hfuel : (S (length ls) < fuel)%nat).

Lemma labels_bytes : Forall (Forall byte) ls.
Proof. eapply Forall_impl; [exact Has|]. by intros l []. Qed.
Lemma qname_nonempty : qname <> [].
Proof. intros ->. cbn in Htext. destruct ls as [|l ls']; [done|]. unfold text in Htext. cbn in Htext. by destruct l. Qed.

(** A name that was pushed, with room for the fields, had room without compression. *)
Lemma d_push_room P P1 : wf P -> p_size P < 2 ^ 16 -> dns_d_push fuel P qname = Val (P1, None) -> 4 <= room P1 -> len (wire ls) < p_size P - p_end P.
Proof.
  intros HP Hsz Hpush Hr. destruct (d_push_inv fuel P qname P1 None HP Hq Hpush) as (bs & Ha & _). pose proof (appends_wf _ _ _ HP Hsz Ha) as HP1.
  rewrite room_eq, (pu_size _ _ _ (proj1 Ha)) in Hr by done.
  unfold dns_d_push in Hpush. pose proof (room_eq P HP) as Hroom. unfold room in Hroom. rewrite Hroom in Hpush. apply bind_Val in Hpush as ([dst n] & Hcomp & Hpush).
  unfold dns_d_comp in Hcomp. apply bind_Val in Hcomp as ([dst0 dp] & Henc & Hcomp). rewrite <- comp_encode_anchor, Htext in Henc by apply qname_nonempty.
  apply comp_encode_len in Henc; [|done..]. subst dp. destruct (Z.ltb_spec (len (wire ls)) (p_size P - p_end P)); [done|]. exfalso. injection Hcomp as <- <-.
  destruct (len (wire ls) =? 0); [done|]. destruct (Z.ltb_spec (p_size P - p_end P) (len (wire ls))); [done|].
  apply bind_Val in Hpush as (P2 & (dict & -> & _)%dictadd_framed & [= <-]). cbn in Hr. lia.
Qed.

(** The packet while entries are pushed: one question, at 12, with its name at the head
    of the dictionary (unless a name was pushed as data), and the answers so far. *)
Record answering (P : packet) (done : list hosts_entry) : Prop := {
  an_valid : valid P;
  an_size : p_size P = 512;
  an_qd : u16 (p_data P) 4 = 1;
  an_an : u16 (p_data P) 6 = Z.of_nat (length done);
  an_ns : u16 (p_data P) 8 = 0 /\ u16 (p_data P) 10 = 0;
  an_name : holds_at (p_data P) 12 (wire ls);
  an_asked : 12 + len (wire ls) + 4 <= p_end P /\ u16 (p_data P) (12 + len (wire ls)) = type /\ u16 (p_data P) (12 + len (wire ls) + 2) = class;
  an_dict : type <> DNS_T_PTR -> exists dict, p_dict P = 12 :: dict;
  an_recs : answers fuel type class (p_data P) (p_end P) done (12 + len (wire ls) + 4) (p_end P) }.

Lemma answering_name P done : answering P done -> name_at (p_data P) (p_end P) 12 0 ls.
Proof. intros HA. apply name_of_wire; [done|apply HA|]. pose proof (an_asked _ _ HA). lia. Qed.
(** The owner of an address record. *)
Lemma owner_pointer P done P1 : answering P done -> type <> DNS_T_PTR -> dns_d_push fuel P qname = Val (P1, None) -> 4 <= room P1 ->
  p_end P1 = p_end P + 2 /\ nthz (p_data P1) (p_end P) = 192 /\ nthz (p_data P1) (p_end P + 1) = 12 /\ exists dict, p_dict P1 = 12 :: dict.
Proof.
  intros HA Htp Hpush Hroom. destruct (an_dict _ _ HA Htp) as [dict Hdict]. assert (wf P) as HP by apply HA.
  pose proof (an_size _ _ HA) as Hsz. pose proof (d_push_room P P1 HP ltac:(lia) Hpush Hroom) as Hfit.
  destruct (d_push_same P ls ls qname 12 dict 0 fuel) as (P1' & Hpush' & He & _ & _ & _ & Hd' & rest & Hdata);
    [done|lia|done|lia|by eapply answering_name|done..|].
  rewrite Hpush in Hpush'. injection Hpush' as <-. pose proof (len_take_end P HP) as Hlt. split; [done|].
  change (pointer 12) with [192; 12] in Hdata. rewrite Hdata. split_and!.
  - rewrite nthz_app_r by lia. by rewrite Hlt, Z.sub_diag.
  - rewrite nthz_app_r by lia. rewrite Hlt. by replace (p_end P + 1 - p_end P) with 1 by lia.
  - rewrite Hd', Hdict. by eexists.
Qed.

(** The data of a record. *)
Lemma entry_payload P3 P4 ent : wf P3 -> p_size P3 < 2 ^ 16 -> entry_ok ent -> answers_it type qname ent ->
  dns_any_push fuel P3 (entry_data type ent) type = Val (P4, None) ->
  exists payload, appends P3 P4 (two (len payload) ++ payload) /\ len payload < 2 ^ 16 /\
    if decide (type = DNS_T_PTR) then dns_ns_push fuel P3 (cstr (he_host ent)) = Val (P4, None) else payload = he_addr ent.
Proof.
  intros HP3 Hs3 (Hh & Ha & H4 & H6) [[-> _]|[(-> & Haf & _)|(-> & Haf & _)]] Hp.
  - apply (any_push_res P3 HP3 Hs3) in Hp as Hr; [|by apply Forall_cstr]. destruct Hr as (payload & Hr & Hl). exists payload. by split_and!.
  - unfold entry_data, entry_any in Hp. rewrite Haf in Hp. apply (a_push_is P3 HP3 Hs3) in Hp. rewrite four_in_addr in Hp by auto. destruct Hp. exists (he_addr ent). by split_and!.
  - unfold entry_data, entry_any in Hp. rewrite Haf in Hp. apply (aaaa_push_is P3 HP3 Hs3) in Hp; [|by auto..]. destruct Hp. exists (he_addr ent). by split_and!.
Qed.

Lemma push_entry P done ent P' : answering P done -> entry_ok ent -> answers_it type qname ent ->
  dns_p_push fuel P DNS_S_AN qname type class 0 (entry_data type ent) = Val (P', None) -> answering P' (done ++ [ent]).
Proof.
  intros HA He Hit Hpush. pose proof (an_valid _ _ HA) as HV. pose proof (an_size _ _ HA) as Hsz. assert (wf P) as HP by apply HV.
  destruct (p_push_steps fuel P qname ls type class 0 DNS_S_AN HP ltac:(lia) Hq Hls labels_bytes Hne Htext _ P' ltac:(done) Hpush) as (P1 & P3 & P4 & Hst).
  pose proof Hst as [Hown (b0 & Ha0) _ Hf Hd _]. pose proof (appends_trans _ _ _ _ _ HP Ha0 Hf) as H03.
  destruct (entry_payload P3 P4 ent) as (payload & Hp34 & Hlp & Hpay); [eapply appends_wf; [done| |done]; lia|rewrite (pu_size _ _ _ (proj1 H03)); lia|done..|].
  destruct (p_push_written fuel P qname type class 0 DNS_S_AN HV ltac:(lia) _ P' P1 P3 P4 payload ltac:(done) Hst Hp34 Hlp) as [_ Hx H14 HP1 HP4 [_ Ge Gag _ _] Hone].
  pose proof (pu_end _ _ _ (proj1 H14)) as He4. rewrite len_record_bytes in He4. pose proof (len_nonneg payload) as Hpos. pose proof (pu_end _ _ _ (proj1 Hf)) as He3.
  change (len ((two type ++ two class) ++ ttl4 0)) with 8 in He3. pose proof (extent_bounds _ _ _ _ Hx) as Hxb. pose proof (wf_end P HP) as Hend.
  assert (agree 12 (p_end P1) (p_data P1) (p_data P')) as H1'.
  { eapply agree_trans; [eapply agree_sub; [| |by apply (appends_agree P1 P4 (record_bytes type class 0 payload))]; lia|]. eapply agree_sub; [| |exact Gag]; lia. }
  assert (forall j, 0 <= j < 10 + len payload -> nthz (p_data P') (p_end P1 + j) = nthz (record_bytes type class 0 payload) j) as Hb.
  { intros j Hj. rewrite <- Gag by lia. apply appends_byte; [done..|]. by rewrite len_record_bytes. }
  assert (u16 (p_data P') (p_end P1 + 8) = len payload) as Ul.
  { unfold u16. rewrite <- Z.add_assoc, !Hb by lia. apply (two_u16 (len payload)). lia. }
  assert (answer_at fuel type class (p_data P') (p_end P') ent (p_end P) (p_end P')) as Hans.
  { exists (p_end P1). split; [by eapply extent_mono; [exact H1'|lia|lia|]|]. rewrite Ul. split_and!; [| | | |lia|lia|].
    - unfold u16. rewrite <- (Z.add_0_r (p_end P1)) at 1. rewrite !Hb by lia. apply (two_u16 type Ht).
    - unfold u16. rewrite <- Z.add_assoc, !Hb by lia. apply (two_u16 class Hc).
    - unfold u16. rewrite <- Z.add_assoc, !Hb by lia. done.
    - unfold u16. rewrite <- Z.add_assoc, !Hb by lia. done.
    - case_decide as Hptr; [exists P3, P4; split_and!; [done|lia|done|eapply agree_sub; [| |exact Gag]; lia]|].
      assert ((exists x, entry_data type ent = AnyA x) \/ (exists x, entry_data type ent = AnyAAAA x)) as Hany.
      { unfold entry_data, entry_any. destruct (Z.eqb_spec type DNS_T_PTR); [done|]. destruct (_ =? _); eauto. }
      destruct (push_dict fuel P DNS_S_AN qname type class 0 _ P' Hany ltac:(unfold answers_it in Hit; naive_solver) Hpush) as (P1' & Hown' & _ & Hroom).
      rewrite Hown in Hown'. injection Hown' as <-. destruct (owner_pointer P done P1 HA Hptr Hown Hroom) as (E2 & N0 & N1 & _). subst payload.
      rewrite <- !H1' by lia. split_and!; [done..|]. intros j Hj. rewrite <- Z.add_assoc, Hb by lia.
      change (nthz (((two type ++ two class) ++ ttl4 0 ++ two (len (he_addr ent))) ++ he_addr ent) (10 + j) = nthz (he_addr ent) j).
      rewrite nthz_app_r by (change (len _) with 10; lia). change (len ((two type ++ two class) ++ ttl4 0 ++ two (len (he_addr ent)))) with 10. f_equal. lia. }
  destruct Hone as [PV Pe Ps Pag Pc]. pose proof HA as [_ _ A4 A6 [A8 A10] An (Aa & At & Ac) Ad Ar]. split; try done.
  - lia.
  - rewrite (Pc DNS_S_QD 4) by set_solver. cbn. lia.
  - rewrite (Pc DNS_S_AN 6) by set_solver. rewrite length_app. cbn. lia.
  - rewrite (Pc DNS_S_NS 8), (Pc DNS_S_AR 10) by set_solver. cbn. lia.
  - destruct An as (_ & Hl & Hn). split_and!; [lia| |].
    + pose proof (wf_len P' (proj1 PV)). pose proof (wf_len P HP). lia.
    + intros j Hj. rewrite <- Pag by lia. by apply Hn.
  - pose proof (len_nonneg (wire ls)). rewrite <- !(agree_u16 12 (p_end P) (p_data P) (p_data P')) by (done || lia). split_and!; [lia|done..].
  - intros Hptr. destruct (push_dict fuel P DNS_S_AN qname type class 0 (entry_data type ent) P') as (P1' & Hown' & -> & Hroom).
    + unfold entry_data, entry_any. destruct (Z.eqb_spec type DNS_T_PTR); [done|]. destruct (_ =? _); eauto.
    + unfold answers_it in Hit. naive_solver.
    + done.
    + by eapply owner_pointer.
  - eapply answers_snoc; [|exact Hans]. pose proof (len_nonneg (wire ls)).
    eapply answers_mono; [exact Pag|lia|intros i; by apply bytes_nonneg|exact Ar|lia].
Qed.

Lemma push_entries_answering es : forall P done P', answering P done -> Forall entry_ok es -> answered type = true ->
  push_entries fuel P es qname type class = Val (P', None) -> answering P' (done ++ chosen type qname es).
Proof.
  induction es as [|ent es IH]; intros P done P' HA Hes Hty Hp; cbn [push_entries] in Hp.
  { injection Hp as <-. cbn. by rewrite app_nil_r. }
  apply Forall_cons in Hes as [He Hes]. unfold chosen. rewrite filter_cons. pose proof (matches_chosen type qname ent Hty) as Hm.
  destruct (entry_matches type qname ent).
  - apply bind_Val in Hp as ([P1 err] & Hpush & Hrest). destruct err as [err|]; [done|]. rewrite decide_True by naive_solver.
    rewrite cons_middle, app_assoc. eapply IH; [eapply push_entry; [done|done|naive_solver|done]|done..].
  - rewrite decide_False by naive_solver. by eapply IH.
Qed.

(** The question, in a packet of 512 bytes. *)
Lemma wire_short : len qname < 256 -> len (wire ls) <= 257.
Proof.
  intros Hl. assert (len (text ls) = len (wires ls)) as E.
  { clear. unfold text, wires, wire1, len. f_equal. induction ls as [|l ls' IH]; [done|]. cbn. rewrite !length_app. cbn. rewrite IH. lia. }
  unfold wire. rewrite len_app, <- E, <- Htext. unfold DnsName.dns_d_anchor. destruct (last qname); [|rewrite ?len_cons, ?len_nil; lia].
  destruct (_ =? dot); rewrite ?len_app, ?len_cons, ?len_nil; lia.
Qed.
Lemma push_question P' : len qname < 256 ->
  (P ← match dns_p_init (Some (replicate 512 0)) with Some P => Val P | None => UB end;
   dns_p_push fuel P DNS_S_QD qname type class 0 (AnyA 0)) = Val (P', None) -> answering P' [].
Proof.
  intros Hlen Hpush. cbn [dns_p_init mbind out_bind] in Hpush. apply wire_short in Hlen.
  set (P := Packet _ _ _ _ _ _ _ _) in Hpush.
  assert (valid P /\ p_size P = 512 /\ p_end P = 12 /\ p_dict P = replicate 16 0 /\ u16 (p_data P) 4 = 0 /\ u16 (p_data P) 6 = 0 /\ u16 (p_data P) 8 = 0 /\ u16 (p_data P) 10 = 0) as (HV & Hsz & He & Hdict & C4 & C6 & C8 & C10).
  { split; [|done]. split.
    - split; [done|vm_compute; split; discriminate|done|done| |done]. cbn [p_data P]. apply Forall_app. split; [|apply Forall_drop]; apply Forall_replicate; unfold byte; lia.
    - exists 12, 12, 12. split; [|by left]. split; constructor. }
  clearbody P. assert (wf P) as HP by apply HV.
  destruct (d_push_first P ls qname fuel) as (P1 & Hd & Hpu & Hdict1 & _); [done|lia|by rewrite Hdict|done|apply labels_bytes|done|done|lia|done|].
  destruct (p_push_question_bytes fuel P qname ls type class 0 HV ltac:(lia) Hq Hls labels_bytes Hne Htext (AnyA 0) P' Hpush) as (P1' & P2 & Hd' & Hput & Ha2 & HP1 & Hup & [_ Ge Gag _ _] & [PV Pe Ps _ Pc]).
  rewrite Hd in Hd'. injection Hd' as <-. pose proof (pu_end _ _ _ Hpu) as E1. pose proof (pu_end _ _ _ (proj1 Ha2)) as E2. change (len (two type ++ two class)) with 4 in E2.
  pose proof (len_nonneg (wire ls)) as Hw. assert (p_end P1 = 12 + len (wire ls)) as E1' by lia.
  assert (forall j, 0 <= j < 4 -> nthz (p_data P') (12 + len (wire ls) + j) = nthz (two type ++ two class) j) as Hb.
  { intros j Hj. rewrite <- Gag by lia. rewrite <- E1'. by apply (appends_byte P1 P2). }
  split; try done.
  - lia.
  - rewrite (Pc DNS_S_QD 4) by set_solver. cbn. lia.
  - rewrite (Pc DNS_S_AN 6) by set_solver. cbn. lia.
  - rewrite (Pc DNS_S_NS 8), (Pc DNS_S_AR 10) by set_solver. cbn. lia.
  - split_and!; [lia|pose proof (wf_len P' (proj1 PV)); lia|]. intros j Hj. rewrite <- Gag by lia.
    rewrite <- (appends_agree P1 P2 _ HP1 Ha2) by lia. destruct (pushed_data_pre P P1 _ HP Hpu) as (pre & post & Hdata & Hpre). rewrite Hdata.
    rewrite nthz_app_r by lia. rewrite Hpre, He, nthz_app_l by lia. f_equal. lia.
  - split; [lia|]. split.
    + unfold u16. rewrite <- (Z.add_0_r (12 + len (wire ls))) at 1. rewrite !Hb by lia. apply (two_u16 type Ht).
    + unfold u16. replace (12 + len (wire ls) + 2 + 1) with (12 + len (wire ls) + 3) by lia. rewrite !Hb by lia. apply (two_u16 class Hc).
  - intros _. rewrite (update_dict _ _ _ _ Hup), (put_bytes_dict _ _ _ Hput), Hdict1, Hdict, He. by eexists.
  - replace (p_end P') with (12 + len (wire ls) + 4) by lia. constructor.
Qed.
End Push.
