(* ===== verification/DnsHostsThm.v ===== *)
(** libdns: the properties of the hosts file: what a file adds to the table, and
    what a query finds in it. *)

From stdpp Require Import prelude strings.
From Stdlib Require Import ZArith Lia.
From S2P Require Import Prelude DnsBase DnsName DnsNameSpec DnsNamePush DnsRr DnsRrSpec DnsRdata DnsPush DnsPacket DnsResconf DnsResconfSpec DnsHosts DnsHostsAns.
From S2P Require Import DnsLayout DnsPacketSpec DnsFlat DnsPacketThm.
Local Open Scope Z_scope.

(** ** What a file says *)

(** An entry without the memory of its name. *)
Record host_line := HostLine { hl_host : list Z; hl_arpa : list Z; hl_af : Z; hl_addr : list Z; hl_alias : bool }.
Definition entry_line (e : hosts_entry) : host_line := HostLine (cstr (he_host e)) (he_arpa e) (he_af e) (he_addr e) (he_alias e).
Definition table (h : hosts) : list host_line := entry_line <$> h_entries h.

Definition arpa_of (af : Z) (a : list Z) : list Z :=
  cbuf ARPA_SIZE (if af =? AF_INET6 then dns_aaaa_arpa a else dns_a_arpa (in_addr a)).

(** The names of a line, the first of which is not an alias; [n] words came
    before. *)
Fixpoint name_lines (af : Z) (a : list Z) (n : Z) (ws : list (list Z)) : list host_line :=
  match ws with
  | [] => []
  | w :: ws' => HostLine (DnsName.dns_d_anchor w) (arpa_of af a) af a (2 <? n + 1) :: name_lines af a (n + 1) ws'
  end.

Notation hwords := (split_words hosts_issep hosts_iscom).

Section Load.
Context (malloc : list hosts_entry -> option (list Z)) (inet_pton : Z -> list Z -> pton_res).

Definition words_lines (ws : list (list Z)) : list host_line :=
  match ws with
  | [] => []
  | w :: ws' =>
      let af := if has_colon w then AF_INET6 else AF_INET in
      match inet_pton af w with PtonOk a => name_lines af a 1 ws' | _ => [] end
  end.


Definition spec_hosts (fp : list Z) : list host_line := concat ((fun l => words_lines (hwords [] l)) <$> file_lines fp).

(** ** The parser *)
Context (malloc_ok : forall es, exists mem, malloc es = Some mem /\ len mem = 256).

Definition name_ok (w : list Z) : Prop := len w <= 254 /\ nulfree w.

(** What the parser is doing: reading the address; reading names; or skipping
    the rest of the line, at the end of which [adds] are added. *)
Inductive hstate := InAddr (cur : list Z) | InNames (af : Z) (a : list Z) (n : Z) (cur : list Z) | Skipping (adds : list host_line).

Definition pending (st : hstate) (l : list Z) : list host_line :=
  match st with
  | InAddr cur => words_lines (hwords cur l)
  | InNames af a n cur => name_lines af a n (hwords cur l)
  | Skipping adds => adds
  end.

Definition family (af : Z) : Prop := af = AF_INET \/ af = AF_INET6.

Record rep (x : hlexer) (st : hstate) : Prop := {
  rep_host : len (hx_host x) = 256;
  rep_st : match st with
    | InAddr cur => hx_wc x = 0 /\ hx_skip x = false /\ hx_word x = pad cur /\ hx_wp x = len cur
    | InNames af a n cur => hx_wc x = n /\ 1 <= n /\ hx_skip x = false /\ hx_af x = af /\ hx_addr x = a /\ family af /\ hx_word x = pad cur /\ hx_wp x = len cur
    | Skipping adds => hx_skip x = true /\ exists cur, hx_word x = pad cur /\ hx_wp x = len cur /\ name_ok cur /\
        (0 <= hx_wc x) /\ (hx_wc x = 0 /\ adds = [] \/ 1 <= hx_wc x /\ family (hx_af x) /\ adds = name_lines (hx_af x) (hx_addr x) (hx_wc x) (flush cur))
    end }.

Lemma pad_cstr cur : short cur -> exists r, pad cur = cur ++ 0 :: r.
Proof. unfold short, pad. intros. destruct (256 - length cur)%nat eqn:E; [lia|]. by exists (replicate n 0). Qed.

Lemma name_short w : name_ok w -> short w.
Proof. unfold name_ok, short, len. lia. Qed.

Lemma insert_ok h af a w alias : w <> [] -> name_ok w -> family af ->
  exists h', dns_hosts_insert malloc h af a (DnsName.dns_d_anchor w) alias = Val (h', None) /\
    table h' = table h ++ [HostLine (DnsName.dns_d_anchor w) (arpa_of af a) af a alias].
Proof.
  intros Hne [Hl Hn] Hf. unfold dns_hosts_insert. destruct (malloc_ok (h_entries h)) as (mem & -> & Hm).
  pose proof (anchor_len w Hne) as Hal. assert (0 < len w) by (unfold len; destruct w; [done|cbn; lia]).
  rewrite d_anchor_store by (unfold MAXNAME1, DNS_D_MAXNAME; lia). rewrite to_nat_len, firstn_all. cbn [mbind out_bind].
  rewrite anchor_anchor. set (d := DnsName.dns_d_anchor w) in *.
  assert (len d < MAXNAME1) as Hd.
  { unfold d, DnsName.dns_d_anchor, MAXNAME1, DNS_D_MAXNAME. destruct (last w); [|rewrite len_nil; lia]. destruct (_ =? dot); rewrite ?len_app, ?len_cons, ?len_nil; lia. }
  rewrite store_fits by done.
  assert (cstr (d ++ 0 :: drop (S (length d)) mem) = d) as Hcs by (by apply cstr_app0, nulfree_anchor).
  unfold arpa_of. destruct Hf as [->| ->].
  - change (AF_INET =? AF_INET6) with false. change (AF_INET =? AF_INET) with true. cbn match. eexists. split; [reflexivity|].
    unfold table. cbn [h_entries]. rewrite fmap_app. f_equal. unfold entry_line. cbn [fmap list_fmap he_host he_arpa he_af he_addr he_alias]. by rewrite Hcs.
  - change (AF_INET6 =? AF_INET6) with true. cbn match. eexists. split; [reflexivity|].
    unfold table. cbn [h_entries]. rewrite fmap_app. f_equal. unfold entry_line. cbn [fmap list_fmap he_host he_arpa he_af he_addr he_alias]. by rewrite Hcs.
Qed.

Lemma anchor_short w : name_ok w -> len (DnsName.dns_d_anchor w) < MAXNAME1.
Proof.
  intros [Hl _]. unfold DnsName.dns_d_anchor, MAXNAME1, DNS_D_MAXNAME. destruct (last w); [|rewrite len_nil; lia].
  destruct (_ =? dot); rewrite ?len_app, ?len_cons, ?len_nil; lia.
Qed.

(** The end of a word of names. *)
Lemma names_word x h af a n cur : len (hx_host x) = 256 -> hx_wc x = n -> 1 <= n -> hx_af x = af -> hx_addr x = a -> family af ->
  hx_word x = pad cur -> hx_wp x = len cur -> name_ok cur ->
  exists x' h', hosts_word malloc inet_pton x h = Val (x', h', None) /\ table h' = table h ++ name_lines af a n (flush cur) /\
    len (hx_host x') = 256 /\ hx_skip x' = hx_skip x /\ hx_af x' = af /\ hx_addr x' = a /\ hx_wc x' = n + Z.of_nat (length (flush cur)).
Proof.
  intros Hh Hwc Hn Haf Ha Hf Hw Hwp Hok.
  unfold hosts_word. rewrite Hwp, Hwc, Hw, Haf, Ha. destruct cur as [|b cur].
  { cbn. exists x, h. rewrite app_nil_r. split_and!; try done; lia. }
  set (w := b :: cur) in *. assert (0 < len w) by (unfold w; rewrite len_cons; pose proof (len_nonneg cur); lia).
  destruct (Z.eqb_spec (len w) 0); [lia|]. destruct (Z.eqb_spec (n + 1) 1); [lia|].
  destruct (pad_cstr w (name_short w Hok)) as (r & Er). rewrite Er.
  rewrite d_anchor_store by (unfold MAXNAME1, DNS_D_MAXNAME; rewrite ?len_app; pose proof (len_nonneg (0 :: r)); lia).
  rewrite to_nat_len, take_app_length. cbn [mbind out_bind]. rewrite store_fits by (by apply anchor_short).
  rewrite cstring_cstr, cstr_nulfree by (apply nulfree_anchor, Hok). cbn [mbind out_bind].
  destruct (insert_ok h af a w (2 <? n + 1)) as (h' & -> & Ht); [done..|]. cbn [mbind out_bind].
  eexists _, h'. split; [done|]. split; [done|]. cbn. split_and!; try done.
  pose proof (len_store 256 (hx_host x) (DnsName.dns_d_anchor w) ltac:(lia) Hh) as Hls. by rewrite store_fits in Hls by (by apply anchor_short).
Qed.

Lemma wr_pad cur ch : (length cur < 255)%nat -> wr (pad cur) (len cur) ch = Val (pad (cur ++ [ch])).
Proof.
  intros Hl. unfold pad. rewrite length_app. cbn [length]. replace (256 - length cur)%nat with (S (256 - (length cur + 1))) by lia. cbn [replicate].
  rewrite wr_app. by rewrite <- app_assoc.
Qed.

Lemma name_lines_app af a ws1 ws2 : forall n, name_lines af a n (ws1 ++ ws2) = name_lines af a n ws1 ++ name_lines af a (n + Z.of_nat (length ws1)) ws2.
Proof.
  induction ws1 as [|w ws1 IH]; intros n; [cbn; by rewrite Z.add_0_r|]. cbn [app name_lines]. rewrite IH. cbn.
  by replace (n + 1 + Z.of_nat (length ws1)) with (n + Z.of_nat (S (length ws1))) by lia.
Qed.

Lemma words_lines_flush cur : words_lines (flush cur) = [].
Proof. destruct cur; [done|]. cbn. by destruct (inet_pton _ _). Qed.

Lemma comment_not_space ch : hosts_iscom ch = true -> hosts_issep ch = false.
Proof. unfold hosts_iscom. by intros [->%Z.eqb_eq| ->%Z.eqb_eq]%orb_true_iff. Qed.

Lemma cur_ok issep iscom cur l : Forall name_ok (split_words issep iscom cur l) -> name_ok cur.
Proof.
  destruct cur as [|b cur]; [by intros; split; [rewrite len_nil; lia|constructor]|].
  destruct (split_cur issep iscom (b :: cur) l) as (t & ts & ->); [done|]. intros [[Hl Hn] _]%Forall_cons. split.
  - rewrite len_app in Hl. pose proof (len_nonneg t). lia.
  - by apply Forall_app in Hn as [Hn _].
Qed.

(** The state after the end of a word that is not the last of its line. *)
Definition after_word (st : hstate) : hstate :=
  match st with
  | InAddr [] => InAddr []
  | InAddr w =>
      let af := if has_colon w then AF_INET6 else AF_INET in
      match inet_pton af w with PtonOk a => InNames af a 1 [] | _ => Skipping [] end
  | InNames af a n cur => InNames af a (n + Z.of_nat (length (flush cur))) []
  | Skipping adds => Skipping []
  end.
Definition cur_of (st : hstate) : list Z := match st with InAddr cur | InNames _ _ _ cur => cur | Skipping _ => [] end.

Lemma family_colon w : family (if has_colon w then AF_INET6 else AF_INET).
Proof. unfold family. destruct (has_colon w); auto. Qed.

Lemma addr_word x h cur : rep x (InAddr cur) -> name_ok cur ->
  exists x', hosts_word malloc inet_pton x h = Val (x', h, None) /\ rep (next_word x') (after_word (InAddr cur)).
Proof.
  intros [Hh (Hwc & Hs & Hw & Hwp)] Hok. unfold hosts_word. rewrite Hwp, Hwc. destruct cur as [|b cur]; [cbn; exists x; done|].
  set (w := b :: cur) in *. assert (0 < len w) by (unfold w; rewrite len_cons; pose proof (len_nonneg cur); lia).
  destruct (Z.eqb_spec (len w) 0); [lia|]. destruct (pad_cstr w (name_short w Hok)) as (r & Er). rewrite Hw, Er.
  rewrite cstring_cstr, cstr_nulfree by apply Hok. cbn [mbind out_bind Z.add Z.eqb Pos.eqb].
  change (after_word (InAddr w)) with (match inet_pton (if has_colon w then AF_INET6 else AF_INET) w with PtonOk a => InNames (if has_colon w then AF_INET6 else AF_INET) a 1 [] | _ => Skipping [] end).
  pose proof (family_colon w) as Hf. set (af := if has_colon w then AF_INET6 else AF_INET) in *. clearbody af.
  assert (name_ok []) as Hnil by (split; [rewrite len_nil; lia|constructor]).
  destruct (inet_pton af w) as [addr| |]; eexists; (split; [done|]); (split; [done|]); cbn; [done| |];
    (split; [done|]; exists []; split_and!; try done; right; split_and!; done).
Qed.

(** The words of the rest of the line fit. *)
Definition fits (st : hstate) (l : list Z) : Prop :=
  match st with Skipping _ => True | _ => Forall name_ok (hwords (cur_of st) l) end.

(** One character is read: the parser is in step with the line again, and what
    was added and what is still to come is the same. *)
Definition stepped (ch : Z) (l : list Z) (x : hlexer) (h : hosts) (st : hstate) : Prop :=
  exists x' h' st', hosts_char malloc inet_pton ch x h = Val (x', h', None) /\ rep x' st' /\ fits st' l /\
    table h' ++ pending st' l = table h ++ pending st (ch :: l).

Lemma noskip x : hx_skip x = false -> HLexer (hx_host x) (hx_af x) (hx_addr x) (hx_wc x) false (hx_word x) (hx_wp x) = x.
Proof. destruct x; cbn. by intros ->. Qed.

(** A character of a word. *)
Lemma step_letter ch x h cur : hx_skip x = false -> hx_word x = pad cur -> hx_wp x = len cur -> name_ok (cur ++ [ch]) ->
  hosts_iscom ch = false -> hosts_issep ch = false ->
  hosts_char malloc inet_pton ch x h
  = Val (HLexer (hx_host x) (hx_af x) (hx_addr x) (hx_wc x) false (pad (cur ++ [ch])) (len (cur ++ [ch])), h, None).
Proof.
  intros Hs Hw Hwp [Hl _] Hc Hsp. unfold hosts_char. rewrite Hs, Hc, Hsp. cbn [orb hx_wp hx_word hx_host hx_af hx_addr hx_wc]. rewrite Hwp, Hw.
  rewrite len_app, len_cons, len_nil in Hl. destruct (Z.ltb_spec (len cur) 255); [|lia]. rewrite wr_pad by (unfold len in *; lia). cbn [mbind out_bind].
  rewrite len_app, len_cons, len_nil. unfold w32. pose proof (len_nonneg cur). rewrite Z.mod_small by lia.
  by replace (len cur + (1 + 0)) with (len cur + 1) by lia.
Qed.

Lemma letter_ok cur ch l : hosts_iscom ch = false -> hosts_issep ch = false -> Forall name_ok (hwords cur (ch :: l)) ->
  name_ok (cur ++ [ch]) /\ Forall name_ok (hwords (cur ++ [ch]) l).
Proof. intros Hc Hs. cbn [split_words]. rewrite Hc, Hs. intros H. split; [by eapply cur_ok|done]. Qed.

Lemma step_addr ch l x h cur : rep x (InAddr cur) -> fits (InAddr cur) (ch :: l) -> stepped ch l x h (InAddr cur).
Proof.
  intros Hr Hws. pose proof (cur_ok _ _ _ _ Hws) as Hok. pose proof Hr as [Hh (Hwc & Hs & Hw & Hwp)]. unfold stepped, pending.
  destruct (hosts_iscom ch) eqn:Ec; [|destruct (hosts_issep ch) eqn:Es].
  - unfold hosts_char. rewrite Hs, Ec. cbn [orb]. eexists _, h, (Skipping []). split; [done|].
    cbn [split_words]. rewrite (comment_not_space ch Ec), Ec, words_lines_flush. split_and!; try done.
    split; [done|]. cbn. split; [done|]. exists cur. split_and!; try done; [lia|]. by left.
  - unfold hosts_char. rewrite Hs, Ec, Es. cbn [orb]. rewrite noskip by done.
    destruct (addr_word x h cur Hr Hok) as (x' & -> & Hr'). cbn [mbind out_bind]. eexists _, h, (after_word (InAddr cur)). split; [done|]. split; [done|].
    cbn [split_words fits cur_of] in *. rewrite Es in *. destruct cur as [|b cur]; [done|].
    cbn [flush app] in *. apply Forall_cons in Hws as [_ Hws]. cbn [after_word words_lines]. by destruct (inet_pton _ _).
  - destruct (letter_ok cur ch l Ec Es Hws) as [Hok' Hws']. rewrite (step_letter ch x h cur) by done.
    eexists _, h, (InAddr (cur ++ [ch])). split; [done|]. split; [by split|]. split; [done|]. cbn [split_words]. by rewrite Es, Ec.
Qed.

Lemma step_names ch l x h af a n cur : rep x (InNames af a n cur) -> fits (InNames af a n cur) (ch :: l) -> stepped ch l x h (InNames af a n cur).
Proof.
  intros Hr Hws. pose proof (cur_ok _ _ _ _ Hws) as Hok. pose proof Hr as [Hh (Hwc & Hn & Hs & Haf & Ha & Hf & Hw & Hwp)]. unfold stepped, pending.
  destruct (hosts_iscom ch) eqn:Ec; [|destruct (hosts_issep ch) eqn:Es].
  - unfold hosts_char. rewrite Hs, Ec. cbn [orb]. eexists _, h, (Skipping (name_lines af a n (flush cur))). split; [done|].
    cbn [split_words]. rewrite (comment_not_space ch Ec), Ec. split_and!; try done.
    split; [done|]. cbn. split; [done|]. exists cur. split_and!; try done; [lia|]. right. rewrite Hwc, Haf, Ha. done.
  - unfold hosts_char. rewrite Hs, Ec, Es. cbn [orb]. rewrite noskip by done.
    destruct (names_word x h af a n cur) as (x' & h' & -> & Ht & Hh' & Hs' & Haf' & Ha' & Hwc'); [done..|]. cbn [mbind out_bind].
    eexists _, h', (after_word (InNames af a n cur)). split; [done|]. rewrite Hs in Hs'.
    split; [split; [done|]; cbn; split_and!; try done; lia|]. cbn [split_words fits cur_of after_word] in *. rewrite Es in *.
    apply Forall_app in Hws as [_ Hws]. split; [done|]. by rewrite Ht, name_lines_app, <- app_assoc.
  - destruct (letter_ok cur ch l Ec Es Hws) as [Hok' Hws']. rewrite (step_letter ch x h cur) by done.
    eexists _, h, (InNames af a n (cur ++ [ch])). split; [done|]. split; [by split; cbn; [|split_and!]|]. split; [done|]. cbn [split_words]. by rewrite Es, Ec.
Qed.

Lemma step_char ch l x h st : rep x st -> fits st (ch :: l) -> stepped ch l x h st.
Proof.
  destruct st as [cur|af a n cur|adds]; [apply step_addr|apply step_names|]. intros [Hh [Hs Hst]] _. unfold stepped, hosts_char. rewrite Hs. cbn [orb].
  eexists _, h, (Skipping adds). split; [done|]. split; [by split|done].
Qed.

(** The end of the line. *)
Lemma end_line x h st : rep x st -> fits st [] ->
  exists x' h', hosts_word malloc inet_pton x h = Val (x', h', None) /\ table h' = table h ++ pending st [].
Proof.
  intros Hr Hws. destruct st as [cur|af a n cur|adds].
  - pose proof (cur_ok _ _ _ _ Hws) as Hok. destruct (addr_word x h cur Hr Hok) as (x' & E & _). exists x', h. split; [done|].
    cbn [pending split_words]. by rewrite words_lines_flush, app_nil_r.
  - pose proof (cur_ok _ _ _ _ Hws) as Hok. destruct Hr as [Hh (Hwc & Hn & Hs & Haf & Ha & Hf & Hw & Hwp)].
    destruct (names_word x h af a n cur) as (x' & h' & E & Ht & _); [done..|]. by exists x', h'.
  - destruct Hr as [Hh (Hs & cur & Hw & Hwp & Hok & Hwc & [[H0 ->]|(Hwc1 & Hf & ->)])].
    + assert (rep (HLexer (hx_host x) (hx_af x) (hx_addr x) (hx_wc x) false (hx_word x) (hx_wp x)) (InAddr cur)) as Hr' by (by split).
      destruct (addr_word _ h cur Hr' Hok) as (x' & E & _). unfold hosts_word in *. cbn in E. cbn [pending]. rewrite app_nil_r.
      destruct (hx_wp x =? 0); [by exists x, h|]. rewrite H0 in *. cbn in *. destruct (cstring (hx_word x)) as [w| |]; cbn in *; [|done..].
      destruct (inet_pton _ w); by eexists _, h.
    + destruct (names_word x h (hx_af x) (hx_addr x) (hx_wc x) cur) as (x' & h' & E & Ht & _); [done..|]. by exists x', h'.
Qed.

Lemma load_lines fp : forall x h st l ls, file_lines fp = l :: ls -> rep x st -> fits st l -> Forall (fun l => Forall name_ok (hwords [] l)) ls ->
  exists h', hosts_chars malloc inet_pton fp x h = Val (h', None) /\
    table h' = table h ++ pending st l ++ concat ((fun l => words_lines (hwords [] l)) <$> ls).
Proof.
  induction fp as [|ch fp IH]; intros x h st l ls Hf Hr Hfit Hls; cbn [file_lines hosts_chars] in *.
  - injection Hf as <- <-. destruct (end_line x h st Hr Hfit) as (x' & h' & -> & Ht). exists h'. split; [done|]. cbn. by rewrite app_nil_r.
  - destruct (ch =? newline).
    + injection Hf as <- Hf. destruct (end_line x h st Hr Hfit) as (x' & h' & -> & Ht). cbn [mbind out_bind].
      destruct ls as [|l' ls]; [by apply file_lines_nonempty in Hf|]. apply Forall_cons in Hls as [Hl' Hls].
      destruct (IH hlex0 h' (InAddr []) l' ls) as (h'' & -> & Ht'); [done|by split|done|done|]. exists h''. split; [done|].
      rewrite Ht', Ht, <- app_assoc. done.
    + destruct (file_lines fp) as [|l0 ls0] eqn:Ef; injection Hf as <- <-; [by apply file_lines_nonempty in Ef|].
      destruct (step_char ch l0 x h st Hr Hfit) as (x' & h' & st' & -> & Hr' & Hfit' & Ht). cbn [mbind out_bind].
      destruct (IH x' h' st' l0 ls0) as (h'' & -> & Ht'); [done..|]. exists h''. split; [done|]. by rewrite Ht', !app_assoc, Ht.
Qed.

(** [hosts_load_lines] when no allocation fails. *)
Lemma load_lines_all h fp : Forall (fun l => Forall name_ok (hwords [] l)) (file_lines fp) ->
  exists h', dns_hosts_loadfile malloc inet_pton h fp = Val (h', None) /\ table h' = table h ++ spec_hosts fp.
Proof.
  intros Hws. unfold spec_hosts. destruct (file_lines fp) as [|l ls] eqn:E; [by apply file_lines_nonempty in E|].
  apply Forall_cons in Hws as [Hl Hls]. destruct (load_lines fp hlex0 h (InAddr []) l ls) as (h' & Hh & Ht); [done|by split|done|done|].
  by exists h'.
Qed.
End Load.

(** ** Without memory

    The run with a [malloc] that may fail against the run in which it does not: they are
    the same up to the first failure. *)
Section Failing.
Context (malloc : list hosts_entry -> option (list Z)) (inet_pton : Z -> list Z -> pton_res).
Definition granted (es : list hosts_entry) : option (list Z) := Some (default (replicate 256 0) (malloc es)).

(** The table only grows. *)
Definition grows (h h' : hosts) : Prop := exists l, h_entries h' = h_entries h ++ l.
#[local] Instance grows_refl : Reflexive grows.
Proof. intros h. exists []. by rewrite app_nil_r. Qed.
#[local] Instance grows_trans : Transitive grows.
Proof. intros h1 h2 h3 [l E] [l' E']. exists (l ++ l'). by rewrite E', E, app_assoc. Qed.

Lemma insert_grows m h af a w alias h' e : dns_hosts_insert m h af a w alias = Val (h', e) ->
  grows h h' /\ (e = None -> exists x, h_entries h' = h_entries h ++ [x]).
Proof.
  unfold dns_hosts_insert. destruct (m _); [|by intros [= <- <-]]. intros ([mem' n] & _ & E)%bind_Val.
  destruct (af =? AF_INET6); [|destruct (af =? AF_INET)]; injection E as <- <-; (split; [|eauto; done]); [by eexists..|done].
Qed.
Lemma word_grows m x h x' h' e : hosts_word m inet_pton x h = Val (x', h', e) -> grows h h'.
Proof.
  unfold hosts_word. destruct (hx_wp x =? 0); [by intros [= _ <- _]|]. destruct (_ =? 1).
  - intros (w & _ & E)%bind_Val. by destruct (inet_pton _ w); injection E as _ <- _.
  - intros ([host k] & _ & (name & _ & ([h1 e1] & Hi & [= _ <- <-])%bind_Val)%bind_Val)%bind_Val. by apply insert_grows in Hi as [].
Qed.
Lemma char_grows m ch x h x' h' e : hosts_char m inet_pton ch x h = Val (x', h', e) -> grows h h'.
Proof.
  unfold hosts_char. destruct (_ || _); [by intros [= _ <- _]|]. destruct (hosts_issep ch).
  - intros ([[x1 h1] e1] & Hw & [= _ <- <-])%bind_Val. by eapply word_grows.
  - by intros (w & _ & [= _ <- _])%bind_Val.
Qed.
Lemma chars_grow m fp : forall x h h' e, hosts_chars m inet_pton fp x h = Val (h', e) -> grows h h'.
Proof.
  induction fp as [|ch fp IH]; intros x h h' e; cbn [hosts_chars].
  - intros ([[x1 h1] e1] & Hw%word_grows & [= <- <-])%bind_Val. done.
  - destruct (ch =? newline).
    + intros ([[x1 h1] e1] & Hw%word_grows & E)%bind_Val. destruct e1; [by injection E as <- <-|]. etrans; [exact Hw|by eapply IH].
    + intros ([[x1 h1] e1] & Hw%char_grows & E)%bind_Val. destruct e1; [by injection E as <- <-|]. etrans; [exact Hw|by eapply IH].
Qed.

(** [r] stopped where memory ran out, and [h'] has more entries. *)
Definition stopped (r : out (hosts * option dns_error)) (h' : hosts) : Prop :=
  exists h1 x l, r = Val (h1, Some DNS_ESYSTEM) /\ malloc (h_entries h1) = None /\ h_entries h' = h_entries h1 ++ x :: l.
Lemma stopped_more r h1 h2 : stopped r h1 -> grows h1 h2 -> stopped r h2.
Proof. intros (h0 & x & l & ? & ? & E) [l' E']. exists h0, x, (l ++ l'). split_and!; [done..|]. by rewrite E', E, <- app_assoc. Qed.
Abbreviation fst2 r := (r ≫= fun p => Val (p.1.2, p.2) : out (hosts * option dns_error)).

Lemma insert_same h af a w alias m : malloc (h_entries h) = Some m ->
  dns_hosts_insert malloc h af a w alias = dns_hosts_insert granted h af a w alias.
Proof. intros Em. unfold dns_hosts_insert, granted. by rewrite Em. Qed.
Lemma word_sim x h x' h' : hosts_word granted inet_pton x h = Val (x', h', None) ->
  hosts_word malloc inet_pton x h = Val (x', h', None) \/ stopped (fst2 (hosts_word malloc inet_pton x h)) h'.
Proof.
  unfold hosts_word. destruct (hx_wp x =? 0); [by left|]. destruct (_ =? 1); [by left|].
  destruct (d_anchor _ _ _ _) as [[host k]| |]; cbn [mbind out_bind]; try done. destruct (cstring host) as [name| |]; cbn [mbind out_bind]; try done.
  intros ([h1 e1] & Hi & [= <- <- ->])%bind_Val. destruct (malloc (h_entries h)) as [m|] eqn:Em.
  - left. rewrite (insert_same _ _ _ _ _ m Em), Hi. done.
  - right. destruct (insert_grows _ _ _ _ _ _ _ _ Hi) as [_ Hx]. destruct (Hx eq_refl) as [y Hy]. exists h, y, []. split_and!; [|done..].
    unfold dns_hosts_insert. by rewrite Em.
Qed.
Lemma char_sim ch x h x' h' : hosts_char granted inet_pton ch x h = Val (x', h', None) ->
  hosts_char malloc inet_pton ch x h = Val (x', h', None) \/ stopped (fst2 (hosts_char malloc inet_pton ch x h)) h'.
Proof.
  unfold hosts_char. destruct (_ || _); [by left|]. destruct (hosts_issep ch); [|by left].
  intros ([[x1 h1] e1] & Hw & [= <- <- ->])%bind_Val. destruct (word_sim _ _ _ _ Hw) as [-> |(h2 & y & l & E & Em & Hy)]; [by left|].
  right. exists h2, y, l. split_and!; [|done..]. apply bind_Val in E as ([[x2 h3] e2] & -> & [= <- ->]). done.
Qed.
Lemma chars_sim fp : forall x h h', hosts_chars granted inet_pton fp x h = Val (h', None) ->
  hosts_chars malloc inet_pton fp x h = Val (h', None) \/ stopped (hosts_chars malloc inet_pton fp x h) h'.
Proof.
  induction fp as [|ch fp IH]; intros x h h'; cbn [hosts_chars].
  - intros ([[x1 h1] e1] & Hw & [= <- ->])%bind_Val. destruct (word_sim _ _ _ _ Hw) as [->|(h2 & y & l & E & Em & Hy)]; [by left|].
    right. exists h2, y, l. split_and!; [|done..]. apply bind_Val in E as ([[x2 h3] e2] & -> & [= <- ->]). done.
  - destruct (ch =? newline).
    + intros ([[x1 h1] [e1|]] & Hw & E')%bind_Val; [done|]. destruct (word_sim _ _ _ _ Hw) as [->|Hs]; [by apply IH|]. right.
      eapply (stopped_more _ h1); [|by eapply chars_grow]. destruct Hs as (h2 & y & l & E & Em & Hy). exists h2, y, l. split_and!; [|done..].
      apply bind_Val in E as ([[x2 h3] e2] & -> & [= <- ->]). done.
    + intros ([[x1 h1] [e1|]] & Hw & E')%bind_Val; [done|]. destruct (char_sim _ _ _ _ _ Hw) as [->|Hs]; [by apply IH|]. right.
      eapply (stopped_more _ h1); [|by eapply chars_grow]. destruct Hs as (h2 & y & l & E & Em & Hy). exists h2, y, l. split_and!; [|done..].
      apply bind_Val in E as ([[x2 h3] e2] & -> & [= <- ->]). done.
Qed.

(** C28: Reading a hosts file, character by character into a buffer of one word,
    adds to the table what the lines say: for each line whose first word is an
    address, one entry per further word, in order, with the name anchored, the
    reverse name of the address, and every name after the first marked as an
    alias; a line whose first word is no address, and whatever follows a comment
    sign, adds nothing. When an allocation fails, reading ends with that error, and
    what was added is a part of it, from the start. The words must have at most 254
    characters and no NUL (a longer one leaves the buffer: [long_host_leaves_buffer]). *)
Theorem hosts_load_lines h fp : (forall es mem, malloc es = Some mem -> len mem = 256) ->
  Forall (fun l => Forall name_ok (hwords [] l)) (file_lines fp) ->
  exists h' e added, dns_hosts_loadfile malloc inet_pton h fp = Val (h', e) /\ table h' = table h ++ added /\
    match e with
    | None => added = spec_hosts inet_pton fp
    | Some e => e = DNS_ESYSTEM /\ malloc (h_entries h') = None /\ exists x rest, spec_hosts inet_pton fp = added ++ x :: rest
    end.
Proof.
  intros Hmem Hws. destruct (load_lines_all granted inet_pton) with (h := h) (fp := fp) as (h' & Hl & Ht); [|done|].
  { intros es. unfold granted. eexists. split; [done|]. destruct (malloc es) as [m|] eqn:Em; [by eapply Hmem|done]. }
  destruct (chars_sim _ _ _ _ Hl) as [Hr|(h1 & x & l & Hr & Hm & Hx)].
  - exists h', None, (spec_hosts inet_pton fp). done.
  - destruct (chars_grow malloc _ _ _ _ _ Hr) as [l0 E0]. exists h1, (Some DNS_ESYSTEM), (entry_line <$> l0). split; [exact Hr|].
    unfold table in *. rewrite Hx, E0, !fmap_app in Ht. rewrite <- app_assoc in Ht. apply app_inv_head in Ht. split; [by rewrite E0, fmap_app|]. split; [done|]. split; [done|].
    rewrite <- Ht, fmap_cons. by eexists _, _.
Qed.
End Failing.

(** ** Answering a query *)

(** Memory of the size asked for, as [malloc] returns it. *)
Definition mallocs (malloc : Z -> option (list Z)) : Prop := forall n m, 0 <= n -> malloc n = Some m -> len m = n /\ Forall byte m.

(** Copying into a fresh packet keeps the bytes, the counts and the sections. *)
Lemma copy_valid malloc P A A' : mallocs malloc -> valid P -> dns_p_make malloc (p_end P) = Some A -> dns_p_copy A P = Val A' ->
  valid A' /\ p_end A' = p_end P /\ agree 0 (p_end P) (p_data P) (p_data A').
Proof.
  intros Hm (HP & a & b & c & Hl & _) Hmk Hcp. unfold dns_p_make, dns_p_init in Hmk. pose proof (wf_end P HP).
  destruct (malloc (12 `max` p_end P)) as [m|] eqn:Em; [|done]. injection Hmk as <-. assert (0 <= 12 `max` p_end P) as Hmax by lia. destruct (Hm _ _ Hmax Em) as [Hlm Hbm].
  rewrite Z.max_r in Hlm by lia. unfold dns_p_copy in Hcp. cbn [p_size p_data p_end] in Hcp. rewrite Hlm, Z.min_l in Hcp by lia.
  pose proof (wf_len P HP). rewrite rdn_in in Hcp by lia. cbn [mbind out_bind] in Hcp. change (Z.to_nat 0) with 0%nat in Hcp. rewrite drop_0 in Hcp.
  set (d := take (Z.to_nat (p_end P)) (p_data P)) in *. assert (len d = p_end P) as Hd by (unfold d, len in *; rewrite length_take; lia).
  assert (len (replicate 12 0 ++ drop 12 m) = p_end P) as Hz.
  { rewrite len_app. unfold len in *. rewrite length_replicate, length_drop. lia. }
  cbn [replicate app] in Hz. set (z := 0 :: _ :: _ :: _ :: _ :: _ :: _ :: _ :: _ :: _ :: _ :: _ :: drop 12 m) in Hcp, Hz. clearbody z. rewrite wrn_start in Hcp by lia. rewrite (drop_ge z), app_nil_r in Hcp by (unfold len in *; lia). cbn [mbind out_bind] in Hcp. injection Hcp as <-.
  unfold set_end, set_data. cbn [p_dict p_qd p_an p_ns p_ar p_size p_end p_data].
  assert (agree 0 (p_end P) (p_data P) d) as Hag.
  { intros i Hi. unfold nthz, d. unfold len in *. rewrite <- (take_drop (Z.to_nat (p_end P)) (p_data P)) at 1. rewrite app_nth1; [done|]. rewrite length_take. lia. }
  split; [|done]. split.
  - pose proof (wf_short P HP). split; cbn; [lia|lia|lia|lia| |done]. unfold d. apply Forall_take, HP.
  - exists a, b, c. cbn. split; [|by left]. eapply layout_mono; [|split; [apply HP|reflexivity]|exact Hl]. eapply agree_sub; [| |exact Hag]; lia.
Qed.

(** C30: Answering from the hosts file: when [dns_hosts_query] returns an answer for a
    question about a name of proper labels (without NUL), the answer is a packet whose
    counts and sections agree. It has the question, name, type and class, at 12, and
    one answer for each entry that answers it, in the order of the file, and nothing else:
    for A and AAAA the entries of that family whose name is the one asked for but
    for case, each as a record of the question's name, type and class with time to live 0
    and the address of the entry; for PTR the entries that are no aliases and have the
    reverse name asked for, each with the name of the entry as [dns_ns_push] writes
    it; for the other types none. *)
Theorem hosts_query_answers fuel malloc junk h Q A r qname ls : mallocs malloc -> wf Q -> Forall entry_ok (h_entries h) ->
  dns_rr_parse junk 12 Q = Val (inr r) -> dns_d_expand fuel (rr_dn_p r) Q = Val (inr qname) ->
  Forall byte qname -> Forall label_ok ls -> Forall ascii_label ls -> ls <> [] -> DnsName.dns_d_anchor qname = text ls -> (S (length ls) < fuel)%nat ->
  dns_hosts_query fuel malloc junk h Q = Val (inr A) ->
  let es := chosen (rr_type r) qname (h_entries h) in
  let q := 12 + len (wire ls) in
  valid A /\ u16 (p_data A) 4 = 1 /\ u16 (p_data A) 6 = Z.of_nat (length es) /\ u16 (p_data A) 8 = 0 /\ u16 (p_data A) 10 = 0 /\
  name_at (p_data A) (p_end A) 12 0 ls /\ u16 (p_data A) q = rr_type r /\ u16 (p_data A) (q + 2) = rr_class r /\
  answers fuel (rr_type r) (rr_class r) (p_data A) (p_end A) es (q + 4) (p_end A).
Proof.
  intros Hm HQ Hes Hr Hx Hq Hls Has Hne Htext Hf Hqy es q. unfold dns_hosts_query in Hqy. rewrite Hr in Hqy. cbn [mbind out_bind] in Hqy. rewrite Hx in Hqy. cbn [mbind out_bind] in Hqy.
  destruct (rr_parse_ok Q HQ junk 12 ltac:(lia)) as (res & Hr' & Hb). rewrite Hr in Hr'. injection Hr' as <-.
  destruct (Hb r eq_refl) as [(_ & Ht & Hc & _) _]. destruct (Z.leb_spec 256 (len qname)); [done|].
  destruct (dns_p_init (Some (replicate 512 0))) as [P0|] eqn:E0; [|done]. apply bind_Val in Hqy as ([P1 err] & Hp1 & Hqy). destruct err; [done|].
  assert (answering fuel ls (rr_type r) (rr_class r) P1 []) as A1.
  { eapply (push_question fuel qname); try done. rewrite E0. exact Hp1. }
  apply bind_Val in Hqy as ([P2 err] & Hp2 & Hqy). destruct err; [done|].
  assert (answering fuel ls (rr_type r) (rr_class r) P2 es) as A2.
  { change (_ || _ || _) with (answered (rr_type r)) in Hp2. destruct (answered (rr_type r)) eqn:Ety.
    - by eapply (push_entries_answering fuel qname ls _ _ Hq Hls Has Hne Htext Ht Hc Hf (h_entries h) P1 []).
    - injection Hp2 as <-. unfold es. by rewrite unanswered_chosen. }
  destruct (dns_p_make malloc (p_end P2)) as [A0|] eqn:Emk; [|done]. apply bind_Val in Hqy as (A' & Hcp & [= <-]).
  destruct (copy_valid malloc P2 A0 A' Hm (an_valid _ _ _ _ _ _ A2) Emk Hcp) as (VA & He & Hag).
  destruct A2 as [V2 _ D4 D6 [D8 D10] (_ & _ & Dn) (Da & Dt & Dc) _ Drec]. pose proof (wf_end P2 (proj1 V2)). pose proof (len_nonneg (wire ls)).
  unfold q. rewrite <- !(agree_u16 0 (p_end P2) (p_data P2) (p_data A')) by (done || lia). split_and!; try done.
  - apply name_of_wire; [exact Hls| |lia]. split_and!; [lia|pose proof (wf_bounds A' (proj1 VA)); pose proof (wf_len A' (proj1 VA)); pose proof (wf_size A' (proj1 VA)); lia|].
    intros j Hj. rewrite <- Hag by lia. by apply Dn.
  - rewrite He. apply (answers_mono _ _ _ (p_data P2) _ (p_end P2)); [eapply agree_sub; [| |exact Hag]; lia|lia|intros i; by apply bytes_nonneg, V2|exact Drec|lia].
Qed.

(** ** A name longer than the buffer *)

(** A text without white space and comment signs. *)
Definition letter (b : Z) : Prop := hosts_iscom b = false /\ hosts_issep b = false /\ b <> newline.

Lemma read_letters malloc inet_pton w : forall x h, hx_skip x = false -> len (hx_word x) = 256 -> Forall letter w -> 0 <= hx_wp x -> hx_wp x + len w < 2 ^ 32 ->
  exists word, len word = 256 /\
    hosts_chars malloc inet_pton w x h
    = ('(_, h, e) ← hosts_word malloc inet_pton (HLexer (hx_host x) (hx_af x) (hx_addr x) (hx_wc x) false word (hx_wp x + len w)) h; Val (h, e)).
Proof.
  induction w as [|b w IH]; intros x h Hs Hw Hl Hwp Hb.
  { exists (hx_word x). split; [done|]. rewrite len_nil, Z.add_0_r, noskip by done. done. }
  apply Forall_cons in Hl as [(Hc & Hsp & Hn) Hl]. rewrite len_cons in Hb. pose proof (len_nonneg w). cbn [hosts_chars].
  destruct (Z.eqb_spec b newline); [done|]. unfold hosts_char. rewrite Hs, Hc, Hsp. cbn [orb hx_wp hx_word hx_host hx_af hx_addr hx_wc].
  assert (exists word, (if hx_wp x <? 255 then wr (hx_word x) (hx_wp x) b else Val (hx_word x)) = Val word /\ len word = 256) as (word & -> & Hword).
  { destruct (Z.ltb_spec (hx_wp x) 255); [|by eexists]. rewrite wr_in by lia. eexists. split; [done|]. by rewrite len_insert. }
  cbn [mbind out_bind]. unfold w32. rewrite Z.mod_small by lia.
  destruct (IH (HLexer (hx_host x) (hx_af x) (hx_addr x) (hx_wc x) false word (hx_wp x + 1)) h) as (word' & Hl' & E); cbn; [done..|lia|lia|].
  exists word'. split; [done|]. rewrite E. cbn [hx_host hx_af hx_addr hx_wc hx_wp]. rewrite len_cons.
  by replace (hx_wp x + (1 + len w)) with (hx_wp x + 1 + len w) by lia.
Qed.

(** The letters of a word that fits. *)
Lemma read_word malloc inet_pton w fp h : forall x cur, hx_skip x = false -> hx_word x = pad cur -> hx_wp x = len cur -> Forall letter w -> name_ok (cur ++ w) ->
  hosts_chars malloc inet_pton (w ++ fp) x h
  = hosts_chars malloc inet_pton fp (HLexer (hx_host x) (hx_af x) (hx_addr x) (hx_wc x) false (pad (cur ++ w)) (len (cur ++ w))) h.
Proof.
  induction w as [|b w IH]; intros x cur Hs Hw Hwp Hl Hok; [rewrite !app_nil_r, <- Hw, <- Hwp; cbn [app]; by rewrite noskip|].
  apply Forall_cons in Hl as [(Hc & Hsp & Hn) Hl]. cbn [app hosts_chars]. destruct (Z.eqb_spec b newline); [done|].
  assert (cur ++ b :: w = (cur ++ [b]) ++ w) as E by (by rewrite <- app_assoc). rewrite E in *.
  rewrite (step_letter _ _ b x h cur); [|done..| |done|done].
  - cbn [mbind out_bind]. by rewrite (IH _ (cur ++ [b])).
  - destruct Hok as [Hl' Hn']. rewrite len_app in Hl'. pose proof (len_nonneg w). split; [lia|]. by apply Forall_app in Hn' as [Hn' _].
Qed.

(** The parser after the address of a line that starts with "192.0.2.1 ". *)
Lemma read_address malloc inet_pton h a fp : inet_pton AF_INET (bytes "192.0.2.1") = PtonOk a ->
  hosts_chars malloc inet_pton (bytes "192.0.2.1 " ++ fp) hlex0 h
  = hosts_chars malloc inet_pton fp (HLexer (replicate 256 0) AF_INET a 1 false (replicate 256 0) 0) h.
Proof.
  intros Hp. change (bytes "192.0.2.1 ") with (bytes "192.0.2.1" ++ [32]). rewrite <- app_assoc.
  rewrite (read_word _ _ _ _ _ hlex0 []); [|done..|repeat (constructor; [done|]); constructor|split; [done|repeat (constructor; [done|]); constructor]].
  unfold hlex0. cbn [hx_host hx_af hx_addr hx_wc app hosts_chars].
  change (32 =? newline) with false. cbn match. unfold hosts_char. cbn [hx_skip hx_host hx_af hx_addr hx_wc hx_word hx_wp orb].
  change (hosts_iscom 32) with false. change (hosts_issep 32) with true. cbn match.
  unfold hosts_word. cbn [hx_skip hx_host hx_af hx_addr hx_wc hx_word hx_wp]. change (len (bytes "192.0.2.1") =? 0) with false. change (0 + 1 =? 1) with true. cbn match.
  destruct (pad_cstr (bytes "192.0.2.1")) as (r & ->); [unfold short; cbn; lia|]. rewrite cstring_cstr. cbn [mbind out_bind].
  change (cstr (bytes "192.0.2.1")) with (bytes "192.0.2.1"). change (has_colon (bytes "192.0.2.1")) with false. cbn match. by rewrite Hp.
Qed.

(** A host name of more than 256 characters makes the parser read past its
    buffer: only the first 255 characters are stored, but the length given to
    [dns_d_anchor] counts them all. *)
Theorem long_host_leaves_buffer malloc inet_pton h a w : inet_pton AF_INET (bytes "192.0.2.1") = PtonOk a ->
  Forall letter w -> 256 < len w < 2 ^ 32 ->
  dns_hosts_loadfile malloc inet_pton h (bytes "192.0.2.1 " ++ w) = UB.
Proof.
  intros Hp Hw Hl. unfold dns_hosts_loadfile. rewrite (read_address _ _ _ a) by done.
  destruct (read_letters malloc inet_pton w (HLexer (replicate 256 0) AF_INET a 1 false (replicate 256 0) 0) h) as (word & Hword & ->); [done..|cbn; lia|].
  cbn [hx_host hx_af hx_addr hx_wc hx_wp]. rewrite Z.add_0_l. unfold hosts_word. cbn [hx_wp hx_wc hx_host hx_word].
  destruct (Z.eqb_spec (len w) 0); [lia|]. change (1 + 1 =? 1) with false. cbn match. unfold d_anchor, MAXNAME1, DNS_D_MAXNAME.
  destruct (Z.eqb_spec (len w) 0); [lia|]. rewrite Z.min_l by lia. rewrite rdn_in by lia. cbn [mbind out_bind].
  change (Z.to_nat 0) with 0%nat. rewrite drop_0, firstn_all2 by (unfold len in *; lia). rewrite wrn_start by (rewrite Hword; done).
  cbn [mbind out_bind]. unfold rd. destruct (Z.ltb_spec (len w - 1) 0); [lia|].
  rewrite lookup_ge_None_2 by (unfold len in *; lia). done.
Qed.

(** ** Examples *)
Module HostsWitnesses.
Definition pton (af : Z) (s : list Z) : pton_res :=
  if decide (s = bytes "192.0.2.1") then PtonOk [192; 0; 2; 1] else PtonBad.
Definition mem (es : list hosts_entry) : option (list Z) := Some (replicate 256 7).
Definition file : list Z := bytes "192.0.2.1 mail.Example.com mail # comment" ++ [newline] ++ bytes "bogus name".

Definition name_okb (w : list Z) : bool := (len w <=? 254) && forallb (fun b => negb (b =? 0)) w.
Lemma names_okb lns : forallb (fun l => forallb name_okb (hwords [] l)) lns = true -> Forall (fun l => Forall name_ok (hwords [] l)) lns.
Proof.
  rewrite forallb_forall. intros H. apply Forall_forall. intros l Hl%list_elem_of_In%H. rewrite forallb_forall in Hl.
  apply Forall_forall. intros w Hw%list_elem_of_In%Hl. apply andb_true_iff in Hw as [Hlen Hz]. split; [lia|].
  rewrite forallb_forall in Hz. apply Forall_forall. intros b Hb%list_elem_of_In%Hz. apply negb_true_iff, Z.eqb_neq in Hb. done.
Qed.

(** There is memory for one entry only. *)
Definition mem1 (es : list hosts_entry) : option (list Z) := match es with [] => Some (replicate 256 7) | _ => None end.
Lemma hosts_load_lines_witness : exists h' e added, dns_hosts_loadfile mem1 pton (Hosts [] 1) file = Val (h', e) /\ table h' = [] ++ added /\
  match e with
  | None => added = spec_hosts pton file
  | Some e => e = DNS_ESYSTEM /\ mem1 (h_entries h') = None /\ exists x rest, spec_hosts pton file = added ++ x :: rest
  end.
Proof.
  apply (hosts_load_lines mem1 pton (Hosts [] 1) file); [by intros [|] mem [= <-]|]. apply names_okb. vm_compute. reflexivity.
Defined.
Example file_lines_say : hl_host <$> spec_hosts pton file = [bytes "mail.Example.com."; bytes "mail."] /\ hl_alias <$> spec_hosts pton file = [false; true].
Proof. split; vm_compute; reflexivity. Qed.

Lemma long_host_leaves_buffer_witness : dns_hosts_loadfile mem pton (Hosts [] 1) (bytes "192.0.2.1 " ++ replicate 257 120) = UB.
Proof.
  apply (long_host_leaves_buffer mem pton (Hosts [] 1) [192; 0; 2; 1] (replicate 257 120)); [reflexivity|apply Forall_replicate; done|].
  vm_compute. split; reflexivity.
Defined.

(** A question for the address of "mail", and a table with two entries. *)
Definition question : packet :=
  match dns_p_push 9 (PacketWitnesses.base) DNS_S_QD (bytes "mail.") DNS_T_A DNS_C_IN 0 (AnyA 0) with Val (P, _) => P | _ => PacketWitnesses.base end.
Definition entry (n : list Z) (alias : bool) : hosts_entry :=
  HostsEntry (n ++ 0 :: replicate 200 7) (cbuf ARPA_SIZE (dns_a_arpa (in_addr [192; 0; 2; 1]))) AF_INET [192; 0; 2; 1] alias.
Definition two_entries : hosts := Hosts [entry (bytes "mail.example.com.") false; entry (bytes "MAIL.") true] 1.
Definition malloc (n : Z) : option (list Z) := Some (replicate (Z.to_nat n) 7).
Definition answer : packet :=
  match dns_hosts_query 9 malloc 0 two_entries question with Val (inr A) => A | _ => question end.
Definition asked : rr := RR DNS_S_QD 12 6 DNS_T_A DNS_C_IN 0 0 0.

Lemma malloc_mallocs : mallocs malloc.
Proof. intros n m Hn [= <-]. unfold len. rewrite length_replicate. split; [lia|]. apply Forall_replicate. unfold byte. lia. Qed.

Definition bytesb (l : list Z) : bool := forallb (fun b => (0 <=? b) && (b <? 256)) l.
Lemma bytesb_ok l : bytesb l = true -> Forall byte l.
Proof. unfold bytesb. rewrite forallb_forall. intros H. apply Forall_forall. intros b Hb%list_elem_of_In%H. unfold byte. lia. Qed.

Lemma hosts_query_answers_witness :
  let es := chosen DNS_T_A (bytes "mail.") (h_entries two_entries) in
  es = [entry (bytes "MAIL.") true] /\ valid answer /\ u16 (p_data answer) 4 = 1 /\ u16 (p_data answer) 6 = Z.of_nat (length es) /\
  u16 (p_data answer) 8 = 0 /\ u16 (p_data answer) 10 = 0 /\ name_at (p_data answer) (p_end answer) 12 0 [bytes "mail"] /\
  u16 (p_data answer) 18 = DNS_T_A /\ u16 (p_data answer) 20 = DNS_C_IN /\
  answers 9 DNS_T_A DNS_C_IN (p_data answer) (p_end answer) es 22 (p_end answer).
Proof.
  split; [vm_compute; reflexivity|].
  apply (hosts_query_answers 9 malloc 0 two_entries question answer asked (bytes "mail.") [bytes "mail"]);
    [exact malloc_mallocs|apply wfb_wf; vm_compute; reflexivity| |vm_compute; reflexivity|vm_compute; reflexivity|by apply bytesb_ok| | |
     discriminate|reflexivity|cbn; lia|vm_compute; reflexivity].
  - repeat (constructor; [split_and!; [by apply bytesb_ok|by apply bytesb_ok|reflexivity|discriminate]|]). constructor.
  - constructor; [|constructor]. split; [vm_compute; split; reflexivity|]. repeat (constructor; [discriminate|]). constructor.
  - constructor; [|constructor]. split; [by apply bytesb_ok|]. repeat (constructor; [discriminate|]). constructor.
Defined.
End HostsWitnesses.
