(* ===== verification/DnsHints.v ===== *)
(** libdns: the hint servers (dns.c, "H I N T  S E R V E R  R O U T I N E S").

    The hints are the list of their zones from [head] on. A zone holds sixteen
    addresses, of which the first [count] are set. [malloc_ok hs] tells whether
    there is memory for a zone in front of [hs]; random numbers are a
    parameter. *)

From stdpp Require Import prelude strings.
From Stdlib Require Import ZArith Lia.
From S2P Require Import Prelude DnsBase DnsName DnsRr DnsRdata DnsPacket DnsResconf DnsHosts.
Local Open Scope Z_scope.

Record hint := Hint { hn_ss : sockaddr_storage; hn_priority : Z }.
Record hints_soa := HintsSoa { hs_zone : list Z; hs_addrs : list hint; hs_count : Z }.
Record hints := Hints { hi_refcount : Z; hi_zones : list hints_soa }.

Definition soa_initializer : hints_soa := HintsSoa (replicate 256 0) (replicate 16 (Hint ss_zero 0)) 0.

(** ** Life *)
Definition dns_hints_acquire (H : hints) : hints * Z := (Hints (w32 (hi_refcount H + 1)) (hi_zones H), hi_refcount H).
Definition dns_hints_release (H : hints) : hints * Z := (Hints (w32 (hi_refcount H - 1)) (hi_zones H), hi_refcount H).
Definition dns_hints_open (malloc_ok : bool) : dns_error + hints :=
  if malloc_ok then inr (dns_hints_acquire (Hints 0 [])).1 else inl DNS_ESYSTEM.
(** [None] after the zones and the structure were released. *)
Definition dns_hints_close (H : hints) : option hints :=
  let '(H, n) := dns_hints_release H in if n =? 1 then None else Some H.
Definition dns_hints_mortal (H : option hints) : option hints :=
  match H with Some H => Some (dns_hints_release H).1 | None => None end.

(** ** Inserting *)

(** The position of the zone, if there is one. *)
Fixpoint dns_hints_fetch (zs : list hints_soa) (zone : list Z) : option nat :=
  match zs with
  | [] => None
  | z :: zs' => if strcasecmp zone (hs_zone z) =? 0 then Some 0%nat else S <$> dns_hints_fetch zs' zone
  end.

(** [memcpy (ss, sa, dns_sa_len (sa))]: sixteen bytes of a [sockaddr_in], which
    reach into the place of [sin6_addr]; all fields of a [sockaddr_in6]. Other
    families do not occur. *)
Definition copy_sa (ss sa : sockaddr_storage) : sockaddr_storage :=
  if ss_family sa =? AF_INET6 then sa
  else if ss_family sa =? AF_INET then
    SS (ss_family sa) (ss_port sa) (ss_a4 sa) (take 8 (ss_a6 sa) ++ drop 8 (ss_a6 ss))
  else ss.

Definition soa_put (z : hints_soa) (sa : sockaddr_storage) (priority : Z) : hints_soa :=
  let i := Z.to_nat (hs_count z mod 16) in
  let old := match hs_addrs z !! i with Some h => hn_ss h | None => ss_zero end in
  HintsSoa (hs_zone z) (<[i := Hint (copy_sa old sa) (Z.max 1 priority)]> (hs_addrs z))
    (if hs_count z <? 16 then hs_count z + 1 else hs_count z).

Section Insert.
Context (malloc_ok : list hints_soa -> bool).

(** [zone] is the C string given. *)
Definition dns_hints_insert (H : hints) (zone : list Z) (sa : sockaddr_storage) (priority : Z) : out (hints * option dns_error) :=
  match dns_hints_fetch (hi_zones H) zone with
  | Some k =>
      match hi_zones H !! k with
      | Some z => Val (Hints (hi_refcount H) (<[k := soa_put z sa priority]> (hi_zones H)), None)
      | None => UB
      end
  | None =>
      if malloc_ok (hi_zones H) then
        '(b, _) ← dns__printstring (hs_zone soa_initializer) MAXNAME1 0 zone (len zone);
        Val (Hints (hi_refcount H) (soa_put (HintsSoa b (hs_addrs soa_initializer) 0) sa priority :: hi_zones H), None)
      else Val (H, Some DNS_ESYSTEM)
  end.

(** The name servers up to the first that is not set; the number inserted. *)
Fixpoint insert_servers (H : hints) (zone : list Z) (l : list sockaddr_storage) (rot : bool) (n p : Z) : out (hints * Z * option dns_error) :=
  match l with
  | [] => Val (H, n, None)
  | ss :: l' =>
      if ss_family ss =? AF_UNSPEC then Val (H, n, None)
      else
        '(H, e) ← dns_hints_insert H zone ss p;
        match e with
        | Some e => Val (H, n, Some e)
        | None => insert_servers H zone l' rot (n + 1) (if rot then p else p + 1)
        end
  end.
Definition dns_hints_insert_resconf (H : hints) (zone : list Z) (rc : resolv_conf) : out (hints * Z * option dns_error) :=
  insert_servers H zone (nameserver rc) (rotate (opts rc)) 0 1.

(** [dns_hints_local] on a configuration that is given: it is acquired, and
    closed at the end. *)
Definition dns_hints_local (open_ok : bool) (rc : resolv_conf) : out ((dns_error + hints) * option resolv_conf) :=
  let rc := (dns_resconf_acquire rc).1 in
  match dns_hints_open open_ok with
  | inl e => Val (inl e, dns_resconf_close rc)
  | inr H =>
      '(H, n, e) ← dns_hints_insert_resconf H (bytes ".") rc;
      match (n =? 0), e with
      | true, Some e => Val (inl e, dns_resconf_close rc)
      | _, _ => Val (inr H, dns_resconf_close rc)
      end
  end.

Context (inet_pton : Z -> list Z -> pton_res).
Definition root_hints : list (Z * string) :=
  [(AF_INET, "198.41.0.4"); (AF_INET6, "2001:503:ba3e::2:30"); (AF_INET, "192.228.79.201"); (AF_INET, "192.33.4.12");
   (AF_INET, "128.8.10.90"); (AF_INET, "192.203.230.10"); (AF_INET, "192.5.5.241"); (AF_INET6, "2001:500:2f::f");
   (AF_INET, "192.112.36.4"); (AF_INET, "128.63.2.53"); (AF_INET6, "2001:500:1::803f:235"); (AF_INET, "192.36.148.17");
   (AF_INET, "192.58.128.30"); (AF_INET6, "2001:503:c27::2:30")]%string.

(** [ss] is the local structure, reused for every address. *)
Fixpoint insert_roots (H : hints) (ss : sockaddr_storage) (l : list (Z * string)) : out (dns_error + hints) :=
  match l with
  | [] => Val (inr H)
  | (af, addr) :: l' =>
      match dns_pton inet_pton af (bytes addr) with
      | inl e => Val (inl e)
      | inr a =>
          let ss := set_port_family af 53 (set_addr af ss a) in
          '(H, e) ← dns_hints_insert H (bytes ".") ss 1;
          match e with Some e => Val (inl e) | None => insert_roots H ss l' end
      end
  end.
Definition dns_hints_root (open_ok : bool) (junk : sockaddr_storage) : out (dns_error + hints) :=
  match dns_hints_open open_ok with
  | inl e => Val (inl e)
  | inr H => insert_roots H junk root_hints
  end.
End Insert.

(** ** Iterating *)
Record hints_i := HintsI { hi_next : Z; hi_seed : Z }.

(** An unsigned value as an [int]. *)
Definition s32 (n : Z) : Z := let m := n mod 2 ^ 32 in if m <? 2 ^ 31 then m else m - 2 ^ 32.

Definition priority_at (z : hints_soa) (a : Z) : Z := match hs_addrs z !! Z.to_nat a with Some h => hn_priority h | None => 0 end.

Definition dns_hints_i_cmp (a b seed : Z) (z : hints_soa) : Z :=
  let cmp := s32 (priority_at z a - priority_at z b) in
  if cmp =? 0 then dns_k_shuffle16 a seed - dns_k_shuffle16 b seed else cmp.

(** The loop over [p], [n] of which are left. *)
Fixpoint start_loop (n : nat) (p0 p seed : Z) (z : hints_soa) : Z :=
  match n with
  | O => p0
  | S n' => start_loop n' (if dns_hints_i_cmp p p0 seed z <? 0 then p else p0) (p + 1) seed z
  end.
Definition dns_hints_i_start (seed : Z) (z : hints_soa) : Z := start_loop (Z.to_nat (hs_count z - 1)) 0 1 seed z.

Fixpoint skip_find (n : nat) (p0 pZ seed : Z) (z : hints_soa) : option Z :=
  match n with
  | O => None
  | S n' => if 0 <? dns_hints_i_cmp pZ p0 seed z then Some pZ else skip_find n' p0 (pZ + 1) seed z
  end.
Fixpoint skip_least (n : nat) (p0 pZ p seed : Z) (z : hints_soa) : Z :=
  match n with
  | O => pZ
  | S n' =>
      let take := (0 <? dns_hints_i_cmp p p0 seed z) && (dns_hints_i_cmp p pZ seed z <? 0) in
      skip_least n' p0 (if take then p else pZ) (p + 1) seed z
  end.
Definition dns_hints_i_skip (p0 seed : Z) (z : hints_soa) : Z :=
  match skip_find (Z.to_nat (hs_count z)) p0 0 seed z with
  | None => hs_count z
  | Some pZ => skip_least (Z.to_nat (hs_count z - (pZ + 1))) p0 pZ (pZ + 1) seed z
  end.

(** [rnd] are the values [dns_random] returns, until one is not 0. *)
Fixpoint nonzero (rnd : list Z) : out Z :=
  match rnd with
  | [] => Loop
  | r :: rnd' => if r =? 0 then nonzero rnd' else Val r
  end.

Definition dns_hints_i_init (rnd : list Z) (zone : list Z) (H : hints) : out hints_i :=
  seed ← nonzero rnd;
  match dns_hints_fetch (hi_zones H) zone with
  | Some k => match hi_zones H !! k with Some z => Val (HintsI (dns_hints_i_start seed z) seed) | None => UB end
  | None => Val (HintsI 0 seed)
  end.

(** The positions of the addresses stored in [sa], at most [lim]. *)
Fixpoint grep_hints (lim : nat) (i : hints_i) (z : hints_soa) : list Z * hints_i :=
  match lim with
  | O => ([], i)
  | S lim' =>
      if hi_next i <? hs_count z then
        let '(l, i') := grep_hints lim' (HintsI (dns_hints_i_skip (hi_next i) (hi_seed i) z) (hi_seed i)) z in
        (hi_next i :: l, i')
      else ([], i)
  end.

Definition sa_at (z : hints_soa) (p : Z) : sockaddr_storage := match hs_addrs z !! Z.to_nat p with Some h => hn_ss h | None => ss_zero end.

Definition dns_hints_grep (lim : nat) (i : hints_i) (zone : list Z) (H : hints) : out (list sockaddr_storage * hints_i) :=
  match dns_hints_fetch (hi_zones H) zone with
  | None => Val ([], i)
  | Some k =>
      match hi_zones H !! k with
      | Some z => let '(l, i) := grep_hints lim i z in Val (sa_at z <$> l, i)
      | None => UB
      end
  end.

(** ** Answering *)
Section Query.
(** [rnd zone] are the random numbers drawn for a zone. *)
Context (fuel : nat) (junk : Z) (rnd : list Z -> list Z) (malloc : Z -> option (list Z)).
Context (H : hints).

(** [while (dns_hints_grep (&sa, &slen, 1, &i, hints))]; a zone has at most
    sixteen addresses. *)
Fixpoint push_hints (n : nat) (P : packet) (i : hints_i) (zone : list Z) : out pushed_res :=
  match n with
  | O => Loop
  | S n' =>
      '(l, i) ← dns_hints_grep 1 i zone H;
      match l with
      | [] => ok P
      | sa :: _ =>
          let af := ss_family sa in
          let rtype := if af =? AF_INET6 then DNS_T_AAAA else DNS_T_A in
          let data := if af =? AF_INET6 then AnyAAAA (ss_a6 sa) else AnyA (in_addr (ss_a4 sa)) in
          '(P, e) ← dns_p_push fuel P DNS_S_AR (bytes "hints.local.") rtype DNS_C_IN 0 data;
          match e with Some e => fail P e | None => push_hints n' P i zone end
      end
  end.

(** The zone and its parents: [zone] is the text in the buffer. *)
Fixpoint push_zones (n : nat) (P : packet) (zone : list Z) : out pushed_res :=
  match n with
  | O => Loop
  | S n' =>
      i ← dns_hints_i_init (rnd zone) zone H;
      '(P, e) ← push_hints 17 P i zone;
      match e with
      | Some e => fail P e
      | None => match DnsName.dns_d_cleave zone with [] => ok P | parent => push_zones n' P parent end
      end
  end.

(** The bit [qr] of the header. *)
Definition set_qr (P : packet) : out packet := b ← rd (p_data P) 2; d ← wr (p_data P) 2 (Z.lor b 128); Val (set_data P d).

(** [error] was never written when there is no question. The records are not
    shuffled, so that the seed of [dns_rr_grep] does not matter. *)
Definition dns_hints_query (Q : packet) : out (dns_error + packet) :=
  '(rs, _, err) ← dns_rr_grep fuel junk 0 1 (of_section DNS_S_QD) Q;
  match rs, err with
  | [], Some e => Val (inl e)
  | [], None => UB
  | r :: _, _ =>
      z ← dns_d_expand fuel (rr_dn_p r) Q;
      match z with
      | inl e => Val (inl e)
      | inr zone =>
          if 256 <=? len zone then Val (inl DNS_EILLEGAL)
          else match dns_p_init (Some (replicate 512 0)) with
          | None => UB
          | Some P =>
              P ← set_qr P;
              '(P, e) ← dns_rr_copy fuel P r Q;
              match e with
              | Some e => Val (inl e)
              | None =>
                  '(P, e) ← dns_p_push fuel P DNS_S_NS (bytes ".") DNS_T_NS DNS_C_IN 0 (AnyNS (bytes "hints.local."));
                  match e with
                  | Some e => Val (inl e)
                  | None =>
                      '(P, e) ← push_zones (S (length zone)) P zone;
                      match e with
                      | Some e => Val (inl e)
                      | None =>
                          match dns_p_make malloc (p_end P) with
                          | None => Val (inl DNS_ESYSTEM)
                          | Some A => A ← dns_p_copy A P; Val (inr A)
                          end
                      end
                  end
              end
          end
      end
  end.
End Query.

(** The port of an address among the hints; 53 when it has none. *)
Definition hint_port (af : Z) (addr : list Z) (h : hint) : option Z :=
  let ss := hn_ss h in
  if negb (af =? ss_family ss) then None
  else if bool_decide (take (if af =? AF_INET6 then 16 else 4) addr = dns_sa_addr af ss)
  then Some (if ss_port ss =? 0 then 53 else ss_port ss)
  else None.
Definition soa_hints (z : hints_soa) : list hint := take (Z.to_nat (hs_count z)) (hs_addrs z).
Definition dns_hints_port (H : hints) (af : Z) (addr : list Z) : Z :=
  match omap (hint_port af addr) (mjoin (soa_hints <$> hi_zones H)) with
  | port :: _ => port
  | [] => 53
  end.

(** Zones as text; [None] when [inet_ntop] fails, with what was written before. *)
Section Dump.
Context (inet_ntop : Z -> list Z -> option (list Z)).
Definition dump_hint (h : hint) : option (list Z) :=
  let ss := hn_ss h in
  match inet_ntop (ss_family ss) (dns_sa_addr (ss_family ss) ss) with
  | None => None
  | Some t => Some ([9; 40] ++ pct_u (hn_priority h) ++ bytes ") [" ++ t ++ bytes "]:" ++ pct_u (ss_port ss) ++ [newline])
  end.
Fixpoint dump_addrs (l : list hint) : list Z * bool :=
  match l with
  | [] => ([], true)
  | h :: l' => match dump_hint h with None => ([], false) | Some t => let '(r, ok) := dump_addrs l' in (t ++ r, ok) end
  end.
Fixpoint dns_hints_dump (zs : list hints_soa) : list Z * bool :=
  match zs with
  | [] => ([], true)
  | z :: zs' =>
      let head := bytes "ZONE " ++ [34] ++ cstr (hs_zone z) ++ [34; newline] in
      let '(t, ok) := dump_addrs (soa_hints z) in
      if ok then let '(r, ok) := dns_hints_dump zs' in (head ++ t ++ r, ok) else (head ++ t, false)
  end.
End Dump.
