(* ===== verification/DnsHintsThm.v ===== *)
(** libdns: the properties of the hint servers: the order in which they are
    tried, and what happens when a zone is full. *)

From stdpp Require Import prelude strings sorting.
From Stdlib Require Import ZArith Lia.
From S2P Require Import Prelude DnsBase DnsRrSpec DnsRdata DnsPacket DnsPacketThm DnsResconf DnsHints.
Local Open Scope Z_scope.

(** ** The order of the addresses of a zone *)

(** A zone whose priorities are below 2^31, as [dns_hints_insert_resconf] sets
    them. *)
Record zone_ok (z : hints_soa) : Prop := {
  zo_count : 0 <= hs_count z <= 16;
  zo_len : length (hs_addrs z) = 16%nat;
  zo_prio : Forall (fun h => 0 <= hn_priority h < 2 ^ 31) (hs_addrs z) }.

(** The rank [dns_hints_i_cmp] compares by: the priority, then the shuffled
    position. *)
Definition rank (seed : Z) (z : hints_soa) (p : Z) : Z := priority_at z p * 65536 + dns_k_shuffle16 p seed.

Lemma land_bound a b n : 0 <= n -> 0 <= a < 2 ^ n -> 0 <= Z.land a b < 2 ^ n.
Proof.
  intros Hn Ha. assert (Z.land a b = Z.land a b mod 2 ^ n) as ->; [|by apply Z.mod_pos_bound, Z.pow_pos_nonneg].
  rewrite <- Z.land_ones, <- Z.land_assoc, (Z.land_comm b), Z.land_assoc, (Z.land_ones a), Z.mod_small by done. done.
Qed.

Lemma shuffle_range n s : 0 <= dns_k_shuffle16 n s < 65536.
Proof.
  unfold dns_k_shuffle16. destruct (shuffle_loop _ _ _ _) as [a b]. change 65536 with (2 ^ 16).
  apply lor_bound; [apply land_bound; lia..|lia].
Qed.

Section Order.
Context (seed : Z) (z : hints_soa) (Hz : zone_ok z).
Notation cmp a b := (dns_hints_i_cmp a b seed z).
Notation K := (rank seed z).
Notation count := (hs_count z).

Definition pos (p : Z) : Prop := 0 <= p < count.

Lemma prio_range p : 0 <= priority_at z p < 2 ^ 31.
Proof.
  unfold priority_at. destruct (hs_addrs z !! Z.to_nat p) eqn:E; [|lia]. exact (proj1 (Forall_lookup _ _) (zo_prio z Hz) _ _ E).
Qed.

Lemma s32_small n : - 2 ^ 31 <= n < 2 ^ 31 -> s32 n = n.
Proof.
  intros Hn. unfold s32. destruct (Z.lt_ge_cases n 0).
  - rewrite <- (Z.mod_unique n (2 ^ 32) (-1) (n + 2 ^ 32)) by lia. destruct (Z.ltb_spec (n + 2 ^ 32) (2 ^ 31)); lia.
  - rewrite Z.mod_small by lia. destruct (Z.ltb_spec n (2 ^ 31)); lia.
Qed.

(** The comparison is that of the ranks, which differ for different
    positions. *)
Lemma cmp_rank a b : (cmp a b < 0 <-> K a < K b) /\ (0 < cmp a b <-> K b < K a).
Proof.
  unfold dns_hints_i_cmp, rank. pose proof (prio_range a). pose proof (prio_range b). pose proof (shuffle_range a seed). pose proof (shuffle_range b seed).
  rewrite s32_small by lia. destruct (Z.eqb_spec (priority_at z a - priority_at z b) 0); lia.
Qed.

Lemma rank_inj a b : pos a -> pos b -> K a = K b -> a = b.
Proof.
  unfold pos, rank. intros Ha Hb E. pose proof (zo_count z Hz). pose proof (shuffle_range a seed). pose proof (shuffle_range b seed).
  apply (shuffle16_inj seed); lia.
Qed.

(** ** The loops *)
Lemma start_loop_least n : forall p0 p, 0 <= p0 < p -> p + Z.of_nat n = count -> (forall q, 0 <= q < p -> K p0 <= K q) ->
  let r := start_loop n p0 p seed z in pos r /\ forall q, pos q -> K r <= K q.
Proof.
  induction n as [|n IH]; intros p0 p Hp Hn Hle; cbn [start_loop]; cbn zeta.
  { unfold pos. split; [lia|]. intros q Hq. apply Hle. lia. }
  destruct (cmp_rank p p0) as [Hlt _]. destruct (Z.ltb_spec (cmp p p0) 0) as [Hc|Hc].
  - apply IH; [lia|lia|]. intros q Hq. destruct (Z.eq_dec q p) as [->|]; [lia|]. specialize (Hle q ltac:(lia)). lia.
  - apply IH; [lia|lia|]. intros q Hq. destruct (Z.eq_dec q p) as [->|]; [lia|]. apply Hle. lia.
Qed.

Lemma start_least : 0 < count -> let r := dns_hints_i_start seed z in pos r /\ forall q, pos q -> K r <= K q.
Proof.
  intros Hc. unfold dns_hints_i_start. apply start_loop_least; [lia|lia|]. intros q Hq. replace q with 0 by lia. lia.
Qed.

Lemma skip_find_spec n : forall p0 pZ, 0 <= pZ -> pZ + Z.of_nat n = count -> (forall q, 0 <= q < pZ -> K q <= K p0) ->
  match skip_find n p0 pZ seed z with
  | None => forall q, pos q -> K q <= K p0
  | Some r => pos r /\ K p0 < K r /\ forall q, 0 <= q < r -> K q <= K p0
  end.
Proof.
  induction n as [|n IH]; intros p0 pZ HZ Hn Hle; cbn [skip_find]; [intros q Hq; apply Hle; unfold pos in Hq; lia|].
  destruct (cmp_rank pZ p0) as [_ Hgt]. destruct (Z.ltb_spec 0 (cmp pZ p0)); [unfold pos; split_and!; [lia|lia|lia|done]|].
  apply IH; [lia|lia|]. intros q Hq. destruct (Z.eq_dec q pZ) as [->|]; [lia|]. apply Hle. lia.
Qed.

Lemma skip_least_spec n : forall p0 pZ p, 0 <= pZ < p -> p + Z.of_nat n = count -> K p0 < K pZ -> (forall q, 0 <= q < p -> K p0 < K q -> K pZ <= K q) ->
  let r := skip_least n p0 pZ p seed z in pos r /\ K p0 < K r /\ forall q, pos q -> K p0 < K q -> K r <= K q.
Proof.
  induction n as [|n IH]; intros p0 pZ p HZ Hn Hgt Hle; cbn [skip_least]; cbn zeta.
  { unfold pos. split_and!; [lia|lia|done|]. intros q Hq. apply Hle. lia. }
  destruct (cmp_rank p p0) as [_ H1]. destruct (cmp_rank p pZ) as [H2 _].
  destruct (Z.ltb_spec 0 (cmp p p0)), (Z.ltb_spec (cmp p pZ) 0); cbn [andb]; apply IH; try lia;
    intros q Hq Hk; (destruct (Z.eq_dec q p) as [->|]; [lia|specialize (Hle q ltac:(lia) Hk); lia]).
Qed.

(** [dns_hints_i_skip]: the next position in the order of the ranks, or [count]. *)
Lemma skip_next p0 : let r := dns_hints_i_skip p0 seed z in
  (r = count /\ forall q, pos q -> K q <= K p0) \/ (pos r /\ K p0 < K r /\ forall q, pos q -> K p0 < K q -> K r <= K q).
Proof.
  unfold dns_hints_i_skip. pose proof (zo_count z Hz).
  pose proof (skip_find_spec (Z.to_nat count) p0 0 ltac:(lia) ltac:(lia) ltac:(lia)) as Hf.
  destruct (skip_find _ p0 0 seed z) as [pZ|]; [right|left; done]. destruct Hf as (Hp & Hgt & Hle). unfold pos in Hp.
  apply skip_least_spec; [lia|lia|done|]. intros q Hq Hk. destruct (Z.eq_dec q pZ) as [->|]; [lia|]. specialize (Hle q ltac:(lia)). lia.
Qed.

(** ** The iteration *)

(** [l] are the positions visited from [p] on. *)
Inductive chain : Z -> list Z -> Prop :=
  | ChainEnd : chain count []
  | ChainNext p l : pos p -> chain (dns_hints_i_skip p seed z) l -> chain p (p :: l).

(** The positions not below [p]. *)
Definition left_from (p : Z) : nat := length (filter (fun q => K p <= K q) (seqZ 0 count)).

Lemma left_from_lt p r : pos p -> K p < K r -> (left_from r < left_from p)%nat.
Proof.
  intros Hp Hlt. unfold left_from. unfold pos in Hp.
  assert (forall l, (length (filter (fun q => (K r <= K q)%Z) l) <= length (filter (fun q => (K p <= K q)%Z) l))%nat) as Hle.
  { induction l as [|q l IH]; [done|]. rewrite !filter_cons. destruct (decide (K r <= K q)), (decide (K p <= K q)); cbn; lia. }
  assert (p ∈ seqZ 0 count) as Hin by (apply elem_of_seqZ; lia). apply list_elem_of_split in Hin as (l1 & l2 & ->).
  rewrite !filter_app, !length_app, !filter_cons. pose proof (Hle l1). pose proof (Hle l2).
  destruct (decide (K r <= K p)), (decide (K p <= K p)); cbn; lia.
Qed.

Lemma chain_exists n : forall p, pos p -> (left_from p <= n)%nat ->
  exists l, chain p l /\ StronglySorted (fun a b => K a < K b) l /\ (forall q, q ∈ l <-> pos q /\ K p <= K q).
Proof.
  induction n as [|n IH]; intros p Hp Hn.
  { unfold left_from in Hn. assert (p ∈ filter (fun q => K p <= K q) (seqZ 0 count)) as Hin.
    { apply list_elem_of_filter. split; [lia|]. apply elem_of_seqZ. unfold pos in Hp. lia. }
    destruct (filter _ _); [by apply not_elem_of_nil in Hin|cbn in Hn; lia]. }
  destruct (skip_next p) as [[E Hall]|(Hr & Hgt & Hle)].
  - exists [p]. split; [constructor; [done|]; rewrite E; constructor|]. split; [by repeat constructor|].
    intros q. rewrite list_elem_of_singleton. split; [intros ->; split; [done|lia]|]. intros [Hq Hk]. specialize (Hall q Hq). apply rank_inj; [done|done|lia].
  - set (r := dns_hints_i_skip p seed z) in *. pose proof (left_from_lt p r Hp Hgt).
    destruct (IH r Hr ltac:(lia)) as (l & Hc & Hs & Hm). exists (p :: l). split; [by constructor|]. split.
    + constructor; [done|]. apply Forall_forall. intros q [_ Hq]%Hm. lia.
    + intros q. rewrite elem_of_cons, Hm. split.
      * intros [->|[Hq Hk]]; split; (done || lia).
      * intros [Hq Hk]. destruct (Z.eq_dec q p) as [|Hne]; [by left|right]. split; [done|]. apply Hle; [done|].
        destruct (Z.eq_dec (K q) (K p)) as [Ek|]; [by apply rank_inj in Ek|lia].
Qed.

Lemma chain_grep lim : forall p l, chain p l -> grep_hints lim (HintsI p seed) z = (take lim l, HintsI (nth lim l count) seed).
Proof.
  induction lim as [|lim IH]; intros p l [|p' l' Hp Hc]; try done; cbn [grep_hints hi_next hi_seed].
  - by rewrite Z.ltb_irrefl.
  - unfold pos in Hp. destruct (Z.ltb_spec p' count); [|lia]. by rewrite (IH _ _ Hc).
Qed.

Lemma chain_drop k : forall p l, chain p l -> chain (nth k l count) (drop k l).
Proof.
  induction k as [|k IH]; intros p l [|p' l' Hp Hc]; try constructor; try done. cbn. by apply (IH _ _ Hc).
Qed.
End Order.

Lemma zone_visited_once seed z : zone_ok z ->
  exists l, Permutation l (seqZ 0 (hs_count z)) /\ StronglySorted (fun a b => rank seed z a < rank seed z b) l /\
    dns_hints_i_start seed z = nth 0 l (hs_count z) /\
    forall k lim, grep_hints lim (HintsI (nth k l (hs_count z)) seed) z
                  = (take lim (drop k l), HintsI (nth (k + lim) l (hs_count z)) seed).
Proof.
  intros Hz. pose proof (zo_count z Hz) as Hc. destruct (Z.eq_dec (hs_count z) 0) as [E|E].
  { exists []. rewrite E. split; [done|]. split; [constructor|]. split; [unfold dns_hints_i_start; by rewrite E|].
    intros k lim. rewrite drop_nil, take_nil. assert (forall k, nth k [] 0 = 0) as Hnth by (by intros []). rewrite !Hnth.
    destruct lim; cbn; [done|]. by rewrite E. }
  destruct (start_least seed z Hz ltac:(lia)) as [Hp Hmin]. set (p := dns_hints_i_start seed z) in *.
  destruct (chain_exists seed z Hz _ p Hp (le_n _)) as (l & Hch & Hs & Hm). exists l. split_and!.
  - apply NoDup_Permutation.
    + clear -Hs. induction Hs as [|a l Hs IH Ha]; [constructor|]. constructor; [|done]. intros Hin.
      rewrite Forall_forall in Ha. specialize (Ha a Hin). lia.
    + apply NoDup_seqZ.
    + intros q. rewrite Hm, elem_of_seqZ. unfold pos. split; [lia|]. intros Hq. split; [lia|]. apply Hmin. unfold pos. lia.
  - done.
  - by inversion Hch; subst.
  - intros k lim. rewrite (chain_grep seed z lim _ _ (chain_drop seed z k p l Hch)). f_equal. f_equal.
    rewrite !nth_lookup, lookup_drop. done.
Qed.

(** C29: The iteration over the hint servers of a zone, restarted as often as
    needed with any number of addresses at a time, visits every address exactly
    once, in the order of the priorities, and those of equal priority in the
    order the seed gives their positions; the position the iterator holds
    between two calls is that of the next address, and [count] after the
    last. *)
Theorem hints_visited_once seed z : zone_ok z ->
  exists l, Permutation l (seqZ 0 (hs_count z)) /\ StronglySorted (fun a b => rank seed z a < rank seed z b) l /\
    dns_hints_i_start seed z = nth 0 l (hs_count z) /\
    forall k lim, grep_hints lim (HintsI (nth k l (hs_count z)) seed) z
                  = (take lim (drop k l), HintsI (nth (k + lim) l (hs_count z)) seed).
Proof. apply zone_visited_once. Qed.

(** ** The servers of resolv.conf *)

(** A zone "." of the servers [ns], [n] of which come before, with priorities
    from [p] on. *)
Fixpoint hints_of (ns : list sockaddr_storage) (p : Z) (rot : bool) : list hint :=
  match ns with
  | [] => []
  | ss :: ns' => Hint (copy_sa ss_zero ss) p :: hints_of ns' (if rot then p else p + 1) rot
  end.
Definition root_zone (ns : list sockaddr_storage) (rot : bool) : hints_soa :=
  HintsSoa (46 :: replicate 255 0) (hints_of ns 1 rot ++ replicate (16 - length ns) (Hint ss_zero 0)) (Z.of_nat (length ns)).

Definition set_server (ss : sockaddr_storage) : Prop := (ss_family ss =? AF_UNSPEC) = false.

Definition dot_zone : list Z := 46 :: replicate 255 0.

Section Servers.
Context (malloc_ok : list hints_soa -> bool) (Hm : malloc_ok [] = true).

Lemma insert_first ss p : dns_hints_insert malloc_ok (Hints 1 []) (bytes ".") ss p
  = Val (Hints 1 [soa_put (HintsSoa dot_zone (replicate 16 (Hint ss_zero 0)) 0) ss p], None).
Proof. unfold dns_hints_insert. cbn [hi_zones dns_hints_fetch]. by rewrite Hm. Qed.
Lemma insert_next z ss p : hs_zone z = dot_zone -> dns_hints_insert malloc_ok (Hints 1 [z]) (bytes ".") ss p = Val (Hints 1 [soa_put z ss p], None).
Proof. intros Hz. unfold dns_hints_insert. cbn [hi_zones dns_hints_fetch]. by rewrite Hz. Qed.

Lemma insert_server H H' zone ss l rot n p : set_server ss -> dns_hints_insert malloc_ok H zone ss p = Val (H', None) ->
  insert_servers malloc_ok H zone (ss :: l) rot n p = insert_servers malloc_ok H' zone l rot (n + 1) (if rot then p else p + 1).
Proof. intros Hs Hi. cbn [insert_servers]. unfold set_server in Hs. by rewrite Hs, Hi. Qed.

(** The list ends, or a server that is not set follows. *)
Definition ends (rest : list sockaddr_storage) : Prop := match rest with [] => True | ss :: _ => ss_family ss = AF_UNSPEC end.

Lemma insert_end H zone rest rot n p : ends rest -> insert_servers malloc_ok H zone rest rot n p = Val (H, n, None).
Proof. destruct rest; cbn; [done|]. by intros ->. Qed.

Lemma resconf_zone rc ns rest : nameserver rc = ns ++ rest -> (1 <= length ns <= 3)%nat -> Forall set_server ns -> ends rest ->
  dns_hints_insert_resconf malloc_ok (Hints 1 []) (bytes ".") rc
  = Val (Hints 1 [root_zone ns (rotate (opts rc))], Z.of_nat (length ns), None).
Proof.
  intros Hns Hl Hset Hrest. unfold dns_hints_insert_resconf. rewrite Hns. generalize (rotate (opts rc)). intros rot.
  destruct ns as [|s1 [|s2 [|s3 [|]]]]; cbn in Hl; try lia; repeat (apply Forall_cons in Hset as [? Hset]); cbn [app].
  - rewrite (insert_server _ _ _ _ _ _ _ _ H (insert_first _ _)). rewrite insert_end by done. done.
  - rewrite (insert_server _ _ _ _ _ _ _ _ H (insert_first _ _)). erewrite insert_server by (done || by apply insert_next).
    rewrite insert_end by done. by destruct rot.
  - rewrite (insert_server _ _ _ _ _ _ _ _ H (insert_first _ _)). erewrite insert_server by (done || by apply insert_next).
    erewrite insert_server by (done || by apply insert_next). rewrite insert_end by done. by destruct rot.
Qed.

Lemma local_zone rc ns rest : nameserver rc = ns ++ rest -> (1 <= length ns <= 3)%nat -> Forall set_server ns -> ends rest ->
  dns_hints_local malloc_ok true rc = Val (inr (Hints 1 [root_zone ns (rotate (opts rc))]), dns_resconf_close (dns_resconf_acquire rc).1).
Proof.
  intros Hns Hl Hset Hrest. unfold dns_hints_local. cbn [dns_hints_open]. change (dns_hints_acquire (Hints 0 [])).1 with (Hints 1 []).
  rewrite (resconf_zone (dns_resconf_acquire rc).1 ns rest) by done. cbn [mbind out_bind]. by destruct (Z.of_nat (length ns) =? 0).
Qed.
End Servers.

(** A server that fills its structure as the parser leaves it. *)
Definition plain (ss : sockaddr_storage) : Prop := set_server ss /\ copy_sa ss_zero ss = ss.

Lemma hints_of_length ns p rot : length (hints_of ns p rot) = length ns.
Proof. revert p. induction ns as [|ss ns IH]; intros p; [done|]. cbn. by rewrite IH. Qed.

Lemma root_zone_ok ns rot : (length ns <= 3)%nat -> zone_ok (root_zone ns rot).
Proof.
  intros Hl. split; cbn; [lia|rewrite length_app, hints_of_length, length_replicate; lia|].
  destruct ns as [|s1 [|s2 [|s3 [|]]]]; cbn in *; try lia; repeat (constructor; [cbn; destruct rot; lia|]); constructor.
Qed.

Lemma sa_at_root ns rot : (length ns <= 3)%nat -> Forall plain ns -> sa_at (root_zone ns rot) <$> seqZ 0 (Z.of_nat (length ns)) = ns.
Proof.
  intros Hl Hp. assert (seqZ 0 (Z.of_nat (length ns)) = take (length ns) [0; 1; 2]) as ->
    by (destruct ns as [|s1 [|s2 [|s3 [|]]]]; cbn in Hl; (lia || reflexivity)).
  transitivity (copy_sa ss_zero <$> ns); [destruct ns as [|s1 [|s2 [|s3 [|]]]]; cbn in Hl; (lia || reflexivity)|].
  clear Hl. induction Hp as [|ss ns [_ E] _ IH]; [done|]. cbn [fmap list_fmap]. by rewrite E, IH.
Qed.

(** C27: From resolv.conf to the order in which servers are tried: the hints
    made of a configuration with one to three name servers and without the
    option "rotate" yield, for whatever random seed, exactly the servers of
    the file, in the order of the file. The configuration that was borrowed is
    released again. *)
Theorem servers_tried_in_order malloc_ok rc ns rest seed : malloc_ok [] = true -> nameserver rc = ns ++ rest -> (1 <= length ns <= 3)%nat ->
  Forall plain ns -> ends rest -> rotate (opts rc) = false -> seed <> 0 -> 1 <= rc_refcount rc < 2 ^ 31 ->
  exists H i, dns_hints_local malloc_ok true rc = Val (inr H, Some rc) /\ dns_hints_i_init [seed] (bytes ".") H = Val i /\
    exists i', dns_hints_grep 16 i (bytes ".") H = Val (ns, i').
Proof.
  intros Hm Hns Hl Hp Hrest Hrot Hseed Href. rewrite (local_zone malloc_ok Hm rc ns rest) by (done || (eapply Forall_impl; [exact Hp|]; by intros ? [])).
  rewrite Hrot. set (z := root_zone ns false). destruct (zone_visited_once seed z) as (l & Hperm & Hs & Hst & Hg); [apply root_zone_ok; lia|].
  assert (l = seqZ 0 (Z.of_nat (length ns))) as Hl_eq.
  { assert (AntiSymm eq (fun a b => rank seed z a < rank seed z b)) by (intros ? ? ? ?; lia).
    apply (StronglySorted_unique (fun a b => rank seed z a < rank seed z b)); [done| |done].
    unfold rank, z. pose proof (shuffle_range 0 seed). pose proof (shuffle_range 1 seed). pose proof (shuffle_range 2 seed).
    destruct ns as [|s1 [|s2 [|s3 [|]]]]; cbn in Hl; try lia;
      [change (seqZ 0 _) with [0]|change (seqZ 0 _) with [0; 1]|change (seqZ 0 _) with [0; 1; 2]];
      repeat first [apply SSorted_nil|apply SSorted_cons|apply Forall_nil_2|apply Forall_cons_2];
      repeat match goal with |- context [priority_at ?y ?k] =>
        let v := eval vm_compute in (priority_at y k) in change (priority_at y k) with v end; lia. }
  exists (Hints 1 [z]), (HintsI (dns_hints_i_start seed z) seed). split_and!.
  - do 3 f_equal. unfold dns_resconf_close, dns_resconf_acquire, dns_resconf_release. cbn. unfold w32. rewrite (Z.mod_small (_ + 1)) by lia.
    destruct (Z.eqb_spec (rc_refcount rc + 1) 1); [lia|]. rewrite Z.mod_small by lia. replace (rc_refcount rc + 1 - 1) with (rc_refcount rc) by lia. by destruct rc.
  - unfold dns_hints_i_init. cbn [nonzero]. by destruct (Z.eqb_spec seed 0).
  - eexists. unfold dns_hints_grep. change (dns_hints_fetch (hi_zones (Hints 1 [z])) (bytes ".")) with (Some 0%nat). cbn match.
    change (hi_zones (Hints 1 [z]) !! 0%nat) with (Some z). cbn match. rewrite Hst, (Hg 0%nat 16%nat), drop_0, Hl_eq.
    rewrite take_ge by (rewrite length_seqZ; lia). cbn match.
    pose proof (sa_at_root ns false ltac:(lia) Hp) as Hsa. fold z in Hsa. by rewrite Hsa.
Qed.

(** A zone that is full keeps its count, so that every further address goes to
    the first place: of two addresses inserted one after the other only the
    second is left. *)
Lemma full_zone_keeps_last z sa sb p q : hs_count z = 16 -> length (hs_addrs z) = 16%nat -> ss_family sb = AF_INET6 ->
  soa_put (soa_put z sa p) sb q = soa_put z sb q.
Proof.
  intros Hc Hl Hf. unfold soa_put. cbn [hs_count hs_addrs hs_zone]. rewrite Hc. cbn [Z.modulo Z.ltb Z.compare]. f_equal.
  change (Z.to_nat (16 mod 16)) with 0%nat. destruct (hs_addrs z) as [|h l]; [done|]. cbn. unfold copy_sa. by rewrite Hf.
Qed.

(** ** Examples *)
Module HintsWitnesses.
Definition s4 (n port : Z) : sockaddr_storage := SS AF_INET port [192; 0; 2; n] (replicate 16 0).
Definition s6 (n port : Z) : sockaddr_storage := SS AF_INET6 port (replicate 4 0) (replicate 15 0 ++ [n]).
Definition servers : list sockaddr_storage := [s4 1 53; s6 1 5353; s4 2 53].
Definition rc : resolv_conf := set_refcount (set_nameserver resconf_initializer servers) 1.
Definition zone : hints_soa := root_zone servers true.

Lemma hints_visited_once_witness :
  exists l, Permutation l (seqZ 0 (hs_count zone)) /\ StronglySorted (fun a b => rank 7 zone a < rank 7 zone b) l /\
    dns_hints_i_start 7 zone = nth 0 l (hs_count zone) /\
    forall k lim, grep_hints lim (HintsI (nth k l (hs_count zone)) 7) zone
                  = (take lim (drop k l), HintsI (nth (k + lim) l (hs_count zone)) 7).
Proof. apply (hints_visited_once 7 zone). apply root_zone_ok. cbn. lia. Defined.

Lemma servers_tried_in_order_witness :
  exists H i, dns_hints_local (fun _ => true) true rc = Val (inr H, Some rc) /\ dns_hints_i_init [7] (bytes ".") H = Val i /\
    exists i', dns_hints_grep 16 i (bytes ".") H = Val (servers, i').
Proof.
  apply (servers_tried_in_order (fun _ => true) rc servers [] 7); [reflexivity|reflexivity|cbn; lia| |exact I|reflexivity|discriminate|cbn; lia].
  repeat (constructor; [split; reflexivity|]). constructor.
Defined.
End HintsWitnesses.
