(* ===== verification/DnsPermutor.v ===== *)
(** libdns: the generator of query identifiers (dns.c: TEA and the permutor).

    [dns_k_permutor] is a Feistel network over the low [2 * shift] bits of a
    counter, with the block cipher TEA as its round function; outputs outside
    the wanted range are passed over. *)

From stdpp Require Import prelude.
From Stdlib Require Import ZArith Lia.
From S2P Require Import Prelude DnsBase.
Local Open Scope Z_scope.

(** ** TEA *)
Definition DNS_K_TEA_CYCLES : Z := 32.
Definition DNS_K_TEA_MAGIC : Z := 2654435769.

Record tea := Tea { tea_key : list Z; tea_cycles : Z }.

Definition dns_k_tea_init (key : list Z) (cycles : Z) : tea :=
  Tea (take 4 key) (if cycles =? 0 then DNS_K_TEA_CYCLES else cycles).

Definition tea_mix (k : list Z) (a b z sum : Z) : Z :=
  Z.lxor (Z.lxor (w32 (w32 (Z.shiftl z 4) + nthz k a)) (w32 (z + sum))) (w32 (Z.shiftr z 5 + nthz k b)).

Fixpoint tea_loop (n : nat) (k : list Z) (y z sum : Z) : Z * Z :=
  match n with
  | O => (y, z)
  | S n' =>
      let sum := w32 (sum + DNS_K_TEA_MAGIC) in
      let y := w32 (y + tea_mix k 0 1 z sum) in
      let z := w32 (z + tea_mix k 2 3 y sum) in
      tea_loop n' k y z sum
  end.
Definition dns_k_tea_encrypt (t : tea) (v0 v1 : Z) : Z * Z := tea_loop (Z.to_nat (tea_cycles t)) (tea_key t) v0 v1 0.

(** ** The permutor *)
Definition DNS_K_PERMUTOR_ROUNDS : Z := 8.
Record permutor := Permutor {
  k_stepi : Z; k_length : Z; k_limit : Z; k_shift : Z; k_mask : Z; k_rounds : Z; k_tea : tea }.
Definition set_stepi (p : permutor) (i : Z) : permutor :=
  Permutor i (k_length p) (k_limit p) (k_shift p) (k_mask p) (k_rounds p) (k_tea p).

(** The least power of two that is not below [n]; the shift of the [unsigned] can
    leave it at 0 for ever. *)
Fixpoint powof_loop (fuel : nat) (m n i : Z) : out Z :=
  match fuel with
  | O => Loop
  | S fuel' => if m <? n then powof_loop fuel' (w32 (Z.shiftl m 1)) n (i + 1) else Val i
  end.
Definition dns_k_permutor_powof (n : Z) : out Z := powof_loop 33 1 n 0.

(** [random] gives the words of the key. *)
Definition dns_k_permutor_init (random : list Z) (low high : Z) : out permutor :=
  let length := w32 (w32 (high - low) + 1) in
  width ← dns_k_permutor_powof length;
  let width := width + width mod 2 in
  let shift := width / 2 in
  Val (Permutor 0 length high shift (w32 (Z.shiftl 1 shift - 1)) DNS_K_PERMUTOR_ROUNDS (dns_k_tea_init random 0)).

Definition dns_k_permutor_F (p : permutor) (k x : Z) : Z := Z.land (k_mask p) (dns_k_tea_encrypt (k_tea p) k x).1.

(** The arrays [l] and [r] hold the value of the round and of the next one. *)
Fixpoint E_loop (n : nat) (p : permutor) (i l r : Z) : Z * Z :=
  match n with
  | O => (l, r)
  | S n' => E_loop n' p (i + 1) r (Z.lxor l (dns_k_permutor_F p i r))
  end.
Definition halves (p : permutor) (n : Z) : Z * Z :=
  (Z.land (k_mask p) (Z.shiftr n (k_shift p)), Z.land (k_mask p) (Z.shiftr n 0)).
Definition join (p : permutor) (l r : Z) : Z :=
  Z.lor (w32 (Z.shiftl (Z.land l (k_mask p)) (k_shift p))) (Z.shiftl (Z.land r (k_mask p)) 0).

(** The loop is entered at least once. *)
Definition feistel_rounds (p : permutor) : nat := Z.to_nat (Z.max 1 (k_rounds p - 1)).
Definition dns_k_permutor_E (p : permutor) (n : Z) : Z :=
  let '(l, r) := halves p n in let '(l, r) := E_loop (feistel_rounds p) p 0 l r in join p l r.

Fixpoint D_loop (i : nat) (p : permutor) (l r : Z) : Z * Z :=
  match i with
  | O => (l, r)
  | S i' => D_loop i' p (Z.lxor r (dns_k_permutor_F p (Z.of_nat i') l)) l
  end.
Definition dns_k_permutor_D (p : permutor) (n : Z) : Z :=
  let '(l, r) := halves p n in let '(l, r) := D_loop (Z.to_nat (k_rounds p - 1)) p l r in join p l r.

Fixpoint permutor_step_loop (fuel : nat) (p : permutor) : out (permutor * Z) :=
  match fuel with
  | O => Loop
  | S fuel' =>
      let n := dns_k_permutor_E p (k_stepi p) in
      let p := set_stepi p (w32 (k_stepi p + 1)) in
      if k_length p <=? n then permutor_step_loop fuel' p
      else Val (p, w32 (n + w32 (k_limit p + 1 - k_length p)))
  end.
(** The values of the counter that matter are its low [2 * shift] bits. *)
Definition dns_k_permutor_step (p : permutor) : out (permutor * Z) :=
  permutor_step_loop (Z.to_nat (2 ^ (2 * k_shift p))) p.
