(* ===== verification/DnsPermutorThm.v ===== *)
(** The generator of query identifiers: it is a permutation, and it does not
    repeat an identifier before all have been used. *)

From stdpp Require Import prelude.
From Stdlib Require Import ZArith Lia Permutation.
From S2P Require Import Prelude DnsBase DnsPermutor.
Local Open Scope Z_scope.

(** ** Permutors in use *)
Record permutor_ok (p : permutor) : Prop := {
  po_shift : 0 <= k_shift p <= 16;
  po_mask : k_mask p = 2 ^ k_shift p - 1;
  po_rounds : 2 <= k_rounds p;
  po_length : 0 < k_length p <= 2 ^ (2 * k_shift p);
  po_limit : k_length p <= k_limit p + 1 <= 2 ^ 32;
}.
(** The number of values of the counter that matter. *)
Abbreviation period p := (2 ^ (2 * k_shift p)).
Abbreviation half p := (2 ^ k_shift p).

Lemma powof_spec fuel : forall i n, 0 <= i -> n <= 2 ^ 31 -> (32 <= Z.to_nat i + fuel)%nat -> 2 ^ i <= 2 ^ 31 ->
  (forall j, 0 <= j < i -> 2 ^ j < n) ->
  exists w, powof_loop (S fuel) (2 ^ i) n i = Val w /\ i <= w <= 31 /\ n <= 2 ^ w.
Proof.
  induction fuel as [|fuel IH]; intros i n Hi Hn Hf Hp Hlow.
  - exfalso. apply (Z.pow_le_mono_r_iff 2 i 31) in Hp; lia.
  - cbn [powof_loop]. destruct (Z.ltb_spec (2 ^ i) n) as [Hlt|Hge].
    + assert (i < 31) by (apply (Z.pow_lt_mono_r_iff 2); lia).
      replace (w32 (Z.shiftl (2 ^ i) 1)) with (2 ^ (i + 1)).
      2:{ rewrite Z.shiftl_mul_pow2, <- Z.pow_add_r by lia. unfold w32. rewrite Z.mod_small; [done|].
          split; [lia|apply Z.pow_lt_mono_r; lia]. }
      destruct (IH (i + 1) n) as (w & Hw & ? & ?); [lia|lia|lia|apply Z.pow_le_mono_r; lia| |].
      * intros j Hj. destruct (Z.eq_dec j i) as [->|]; [done|apply Hlow; lia].
      * exists w. split; [exact Hw|lia].
    + exists i. split; [done|]. split; [|lia]. split; [lia|]. apply (Z.pow_le_mono_r_iff 2); lia.
Qed.

Lemma permutor_init_ok random low high : 0 <= low <= high -> high < 2 ^ 32 -> high - low + 1 <= 2 ^ 31 ->
  exists p, dns_k_permutor_init random low high = Val p /\ permutor_ok p /\ k_stepi p = 0 /\
    k_length p = high - low + 1 /\ k_limit p = high.
Proof.
  intros Hlo Hhi Hlen. unfold dns_k_permutor_init, dns_k_permutor_powof.
  assert (w32 (w32 (high - low) + 1) = high - low + 1) as Hl by (unfold w32; rewrite (Z.mod_small (high - low)), Z.mod_small by lia; lia).
  rewrite Hl. destruct (powof_spec 32 0 (high - low + 1)) as (w & Hw & Hb & Hn); [lia|lia|cbn; lia|by apply Z.pow_le_mono_r|intros; lia|].
  change (2 ^ 0) with 1 in Hw. rewrite Hw. cbn [mbind out_bind]. eexists. split; [reflexivity|]. cbn. split; [|done].
  assert (w <= 2 * ((w + w mod 2) / 2) <= 32) as Hsh.
  { pose proof (Z.mod_pos_bound w 2). pose proof (Z.div_mod w 2). pose proof (Z_div_mod_eq_full (w + w mod 2) 2).
    assert ((w + w mod 2) mod 2 = 0) by (rewrite Z.add_mod_idemp_r by lia; replace (w + w) with (w * 2) by lia; apply Z.mod_mul; lia). lia. }
  set (sh := (w + w mod 2) / 2) in *. assert (2 ^ sh <= 2 ^ 16) by (apply Z.pow_le_mono_r; lia). assert (0 < 2 ^ sh) by (apply Z.pow_pos_nonneg; lia).
  constructor; cbn -[Z.pow]; fold sh; unfold DNS_K_PERMUTOR_ROUNDS; try lia.
  - rewrite Z.shiftl_mul_pow2 by lia. unfold w32. rewrite Z.mod_small; lia.
  - split; [lia|]. etransitivity; [exact Hn|]. apply Z.pow_le_mono_r; lia.
Qed.

Section Feistel.
Context (p : permutor) (Hp : permutor_ok p).

Lemma half_pos : 0 < half p.
Proof. destruct Hp. apply Z.pow_pos_nonneg; lia. Qed.
Lemma period_half : period p = half p * half p.
Proof. destruct Hp. rewrite <- Z.pow_add_r by lia. f_equal. lia. Qed.
Lemma period_w32 : (period p | 2 ^ 32).
Proof. destruct Hp. exists (2 ^ (32 - 2 * k_shift p)). rewrite <- Z.pow_add_r by lia. f_equal. lia. Qed.

Lemma mask_mod x : Z.land (k_mask p) x = x mod half p.
Proof. destruct Hp as [Hs Hm]. rewrite Hm, Z.land_comm, Z.sub_1_r, <- Z.ones_equiv. apply Z.land_ones. lia. Qed.
Lemma mask_id x : 0 <= x < half p -> Z.land x (k_mask p) = x.
Proof. intros Hx. rewrite Z.land_comm, mask_mod. by apply Z.mod_small. Qed.

Lemma F_range k x : 0 <= dns_k_permutor_F p k x < half p.
Proof. unfold dns_k_permutor_F. rewrite mask_mod. apply Z.mod_pos_bound, half_pos. Qed.

Lemma lxor_half x y : 0 <= x < half p -> 0 <= y < half p -> 0 <= Z.lxor x y < half p.
Proof.
  intros Hx Hy. destruct Hp as [Hs _]. split; [apply Z.lxor_nonneg; lia|].
  assert (Z.lxor x y mod 2 ^ k_shift p = Z.lxor x y) as <-; [|apply Z.mod_pos_bound, half_pos].
  rewrite <- Z.land_ones by lia. apply Z.bits_inj'. intros n Hn. rewrite Z.land_spec, Z.lxor_spec.
  destruct (Z.ltb_spec n (k_shift p)).
  - rewrite Z.ones_spec_low by lia. by rewrite andb_true_r.
  - rewrite <- (Z.mod_small x (2 ^ k_shift p)), <- (Z.mod_small y (2 ^ k_shift p)), !Z.mod_pow2_bits_high by lia. done.
Qed.

Lemma halves_spec n : halves p n = ((n / half p) mod half p, n mod half p).
Proof. unfold halves. destruct Hp. by rewrite !mask_mod, Z.shiftr_div_pow2, Z.shiftr_0_r by lia. Qed.
Lemma join_spec l r : 0 <= l < half p -> 0 <= r < half p -> join p l r = l * half p + r.
Proof.
  intros Hl Hr. pose proof half_pos. destruct Hp as [Hs _]. unfold join. rewrite !mask_id by done. rewrite Z.shiftl_0_r, Z.shiftl_mul_pow2 by lia.
  unfold w32. rewrite Z.mod_small.
  2:{ assert (half p * half p <= 2 ^ 32) by (rewrite <- Z.pow_add_r by lia; apply Z.pow_le_mono_r; lia). nia. }
  symmetry. rewrite <- Z.shiftl_mul_pow2 by lia. apply Z.add_nocarry_lor. apply Z.bits_inj'. intros n Hn. rewrite Z.land_spec, Z.bits_0.
  destruct (Z.ltb_spec n (k_shift p)); [by rewrite Z.shiftl_spec_low|].
  rewrite <- (Z.mod_small r (2 ^ k_shift p)), Z.mod_pow2_bits_high by lia. apply andb_false_r.
Qed.
Lemma join_halves n : 0 <= n < period p -> join p (halves p n).1 (halves p n).2 = n.
Proof.
  intros Hn. rewrite period_half in Hn. pose proof half_pos. rewrite halves_spec. cbn [fst snd].
  rewrite (Z.mod_small (n / half p)) by (split; [apply Z.div_pos; lia|apply Z.div_lt_upper_bound; lia]).
  rewrite join_spec; [rewrite Z.mul_comm; by rewrite <- Z_div_mod_eq_full| |apply Z.mod_pos_bound; lia].
  split; [apply Z.div_pos; lia|apply Z.div_lt_upper_bound; lia].
Qed.
Lemma halves_join l r : 0 <= l < half p -> 0 <= r < half p -> halves p (join p l r) = (l, r).
Proof.
  intros Hl Hr. rewrite join_spec, halves_spec by done. f_equal.
  - rewrite Z.div_add_l, (Z.div_small r), Z.add_0_r by lia. by apply Z.mod_small.
  - rewrite Z.add_comm, Z.mod_add by lia. by apply Z.mod_small.
Qed.

(** The loops are inverse to each other, round by round. *)
Lemma E_loop_range n : forall i l r, 0 <= l < half p -> 0 <= r < half p ->
  0 <= (E_loop n p i l r).1 < half p /\ 0 <= (E_loop n p i l r).2 < half p.
Proof. induction n as [|n IH]; intros i l r Hl Hr; [done|]. cbn. apply IH; [done|]. apply lxor_half; [done|apply F_range]. Qed.
Lemma E_loop_snoc n : forall i l r, E_loop (S n) p i l r =
  let '(l', r') := E_loop n p i l r in (r', Z.lxor l' (dns_k_permutor_F p (i + Z.of_nat n) r')).
Proof.
  induction n as [|n IH]; intros i l r; [cbn; by rewrite Z.add_0_r|].
  change (E_loop (S (S n)) p i l r) with (E_loop (S n) p (i + 1) r (Z.lxor l (dns_k_permutor_F p i r))). rewrite IH.
  cbn [E_loop]. by replace (i + 1 + Z.of_nat n) with (i + Z.of_nat (S n)) by lia.
Qed.
Lemma D_E_loop n l r : let '(l', r') := E_loop n p 0 l r in D_loop n p l' r' = (l, r).
Proof.
  induction n as [|n IH]; [done|]. rewrite E_loop_snoc. destruct (E_loop n p 0 l r) as [l' r']. cbn [D_loop].
  rewrite Z.add_0_l. by rewrite Z.lxor_assoc, Z.lxor_nilpotent, Z.lxor_0_r.
Qed.

Lemma E_range n : 0 <= dns_k_permutor_E p n < period p.
Proof.
  unfold dns_k_permutor_E. rewrite halves_spec. pose proof half_pos.
  destruct (E_loop_range (feistel_rounds p) 0 ((n / half p) mod half p) (n mod half p)) as [Hl Hr]; [apply Z.mod_pos_bound; lia..|].
  destruct (E_loop _ _ _ _ _) as [l r]. cbn [fst snd] in *. rewrite join_spec, period_half by done. nia.
Qed.

Lemma D_E_inverse n : 0 <= n < period p -> dns_k_permutor_D p (dns_k_permutor_E p n) = n.
Proof.
  intros Hn. unfold dns_k_permutor_E, dns_k_permutor_D. pose proof half_pos. pose proof (join_halves n Hn) as Hj.
  assert (0 <= (halves p n).1 < half p /\ 0 <= (halves p n).2 < half p) as [Hl0 Hr0]
    by (rewrite halves_spec; cbn; split; apply Z.mod_pos_bound; lia).
  destruct (halves p n) as [l r]. cbn [fst snd] in *. pose proof (E_loop_range (feistel_rounds p) 0 l r Hl0 Hr0) as [Hl Hr].
  pose proof (D_E_loop (feistel_rounds p) l r) as HD. destruct (E_loop _ _ _ _ _) as [l' r']. cbn [fst snd] in *.
  rewrite halves_join by done. unfold feistel_rounds in HD. destruct Hp as [_ _ Hro _ _]. rewrite Z.max_r in HD by lia. by rewrite HD.
Qed.

(** Only the low bits of the counter matter. *)
Lemma E_mod n : dns_k_permutor_E p (n mod period p) = dns_k_permutor_E p n.
Proof.
  unfold dns_k_permutor_E. rewrite !halves_spec, period_half. pose proof half_pos.
  rewrite Z.mod_mod_divide by by exists (half p).
  replace ((n mod (half p * half p) / half p) mod half p) with ((n / half p) mod half p); [done|].
  rewrite (Z.rem_mul_r n (half p) (half p)) by lia. pose proof (Z.mod_pos_bound n (half p) ltac:(lia)).
  rewrite Z.mul_comm, Z.div_add, (Z.div_small (n mod half p)), Z.add_0_l, Z.mod_mod by lia. done.
Qed.
Lemma E_inj a b : dns_k_permutor_E p a = dns_k_permutor_E p b -> a mod period p = b mod period p.
Proof.
  intros He. assert (0 < period p) by (rewrite period_half; pose proof half_pos; nia).
  rewrite <- (E_mod a), <- (E_mod b) in He. apply (f_equal (dns_k_permutor_D p)) in He.
  by rewrite !D_E_inverse in He by (apply Z.mod_pos_bound; lia).
Qed.
End Feistel.

(** ** The identifiers of a run *)

(** The values the counter gives from [i] on, and those in range. *)
Definition window (i : Z) (n : nat) : list Z := (fun k => i + Z.of_nat k) <$> seq 0 n.
Definition hits (p : permutor) (i : Z) (n : nat) : list Z :=
  filter (fun x => x < k_length p) (dns_k_permutor_E p <$> window i n).

Lemma window_S i n : window i (S n) = i :: window (i + 1) n.
Proof.
  unfold window. cbn [seq fmap list_fmap]. rewrite Z.add_0_r. f_equal. rewrite <- seq_shift, <- list_fmap_compose.
  apply list_fmap_ext. intros. cbn. lia.
Qed.
Lemma window_app i n m : window i (n + m) = window i n ++ window (i + Z.of_nat n) m.
Proof.
  revert i. induction n as [|n IH]; intros i; [by rewrite Z.add_0_r|]. cbn [Nat.add]. rewrite !window_S, IH. cbn. do 3 f_equal. lia.
Qed.
Lemma in_window x i n : x ∈ window i n <-> i <= x < i + Z.of_nat n.
Proof.
  unfold window. rewrite list_elem_of_fmap. split.
  - intros (k & -> & Hk%elem_of_seq). lia.
  - intros Hx. exists (Z.to_nat (x - i)). rewrite elem_of_seq. lia.
Qed.

Section Ids.
Context (p : permutor) (Hp : permutor_ok p).

Lemma period_pos : 0 < period p.
Proof. rewrite (period_half p Hp). pose proof (half_pos p Hp). nia. Qed.

Lemma nodup_window i n : Z.of_nat n <= period p -> NoDup (dns_k_permutor_E p <$> window i n).
Proof.
  intros Hn. apply NoDup_fmap_2_strong.
  - intros x y [Hx1 Hx2]%in_window [Hy1 Hy2]%in_window He. apply (E_inj p Hp) in He. pose proof period_pos.
    enough (x - i = y - i) by lia. rewrite <- (Z.mod_small (x - i) (period p)), <- (Z.mod_small (y - i) (period p)) by lia.
    by rewrite Zminus_mod, He, <- Zminus_mod.
  - unfold window. apply NoDup_fmap_2; [intros a b; lia|apply NoDup_seq].
Qed.

Lemma filter_forall {A} (P : A -> Prop) `{forall x, Decision (P x)} l : Forall P l -> filter P l = l.
Proof. induction 1 as [|x l Hx _ IH]; [done|]. by rewrite filter_cons_True, IH. Qed.
Lemma filter_none {A} (P : A -> Prop) `{forall x, Decision (P x)} l : Forall (fun x => ~ P x) l -> filter P l = [].
Proof. induction 1 as [|x l Hx _ IH]; [done|]. by rewrite filter_cons_False, IH. Qed.

(** In a whole period each value in range comes up once. *)
Lemma length_period i : Z.of_nat (length (hits p i (Z.to_nat (period p)))) = k_length p.
Proof.
  pose proof period_pos. destruct Hp as [_ _ _ Hl _].
  assert (Hperm : dns_k_permutor_E p <$> window i (Z.to_nat (period p)) ≡ₚ window 0 (Z.to_nat (period p))).
  { apply NoDup_Permutation_bis.
    - apply NoDup_ListNoDup, nodup_window. lia.
    - unfold window. by rewrite !length_fmap.
    - intros x Hx%list_elem_of_In. apply list_elem_of_In, in_window. apply list_elem_of_fmap in Hx as (k & -> & _).
      pose proof (E_range p Hp k). lia. }
  unfold hits. rewrite Hperm.
  replace (Z.to_nat (period p)) with (Z.to_nat (k_length p) + Z.to_nat (period p - k_length p))%nat by lia.
  rewrite window_app, filter_app, filter_forall, filter_none, app_nil_r.
  - unfold window. rewrite length_fmap, length_seq. lia.
  - apply Forall_forall. intros x [Hx _]%in_window. lia.
  - apply Forall_forall. intros x [_ Hx]%in_window. lia.
Qed.

(** The state after the counter has passed [n] values. *)
Definition at_step (i : Z) : permutor := set_stepi p (w32 i).
Lemma at_step_ok i : permutor_ok (at_step i).
Proof. destruct Hp. by constructor. Qed.
Lemma E_at_step i j : dns_k_permutor_E (at_step i) j = dns_k_permutor_E p j.
Proof.
  assert (forall n k l r, E_loop n (at_step i) k l r = E_loop n p k l r) as HE
    by (induction n as [|n IH]; intros k l r; [done|]; cbn [E_loop]; apply IH).
  unfold dns_k_permutor_E. change (halves (at_step i) j) with (halves p j). change (feistel_rounds (at_step i)) with (feistel_rounds p).
  destruct (halves p j) as [l r]. by rewrite HE.
Qed.
Lemma E_w32 i : dns_k_permutor_E p (w32 i) = dns_k_permutor_E p i.
Proof.
  rewrite <- (E_mod p Hp i), <- (E_mod p Hp (w32 i)). unfold w32. by rewrite Z.mod_mod_divide by apply (period_w32 p Hp).
Qed.
Definition id_of (x : Z) : Z := x + (k_limit p + 1 - k_length p).

(** The loop stops at the first value in range. *)
Lemma step_loop_finds fuel : forall i, hits p i fuel <> [] ->
  exists n x, (n < fuel)%nat /\ permutor_step_loop fuel (at_step i) = Val (at_step (i + Z.of_nat (S n)), id_of x) /\
    hits p i (S n) = [x] /\ hits p i n = [].
Proof.
  induction fuel as [|fuel IH]; intros i Hh; [done|]. cbn [permutor_step_loop]. change (k_stepi (at_step i)) with (w32 i).
  rewrite E_at_step, E_w32. change (k_length (set_stepi ?q ?x)) with (k_length p).
  assert (set_stepi (at_step i) (w32 (w32 i + 1)) = at_step (i + 1)) as -> 
    by (unfold at_step; assert (w32 (w32 i + 1) = w32 (i + 1)) as <- by apply Zplus_mod_idemp_l; done).
  assert (forall n, hits p i (S n) = if decide (dns_k_permutor_E p i < k_length p) then dns_k_permutor_E p i :: hits p (i + 1) n else hits p (i + 1) n) as HS.
  { intros n. unfold hits. by rewrite window_S. }
  rewrite HS in Hh. destruct (Z.leb_spec (k_length p) (dns_k_permutor_E p i)) as [Hge|Hlt].
  - rewrite decide_False in Hh by lia. destruct (IH (i + 1) Hh) as (n & x & Hn & Hs & Hx). exists (S n), x. split; [lia|].
    split; [rewrite Hs; do 3 f_equal; lia|]. rewrite !HS, !decide_False by lia. done.
  - exists 0%nat, (dns_k_permutor_E p i). split; [lia|]. split; [|by rewrite HS, decide_True by lia].
    f_equal. f_equal. unfold id_of, w32. pose proof (E_range p Hp i). destruct Hp as [_ _ _ Hl Hlim].
    change (k_limit (at_step (i + 1))) with (k_limit p). change (k_length (at_step (i + 1))) with (k_length p).
    rewrite (Z.mod_small (k_limit p + 1 - k_length p)), Z.mod_small by lia. done.
Qed.

Lemma step_finds i : exists n x, Z.of_nat (S n) <= period p /\
  dns_k_permutor_step (at_step i) = Val (at_step (i + Z.of_nat (S n)), id_of x) /\ hits p i (S n) = [x] /\ hits p i n = [].
Proof.
  pose proof period_pos. destruct (step_loop_finds (Z.to_nat (period p)) i) as (n & x & Hn & Hs & Hx).
  { intros E. pose proof (length_period i) as Hl. rewrite E in Hl. destruct Hp as [_ _ _ Hl' _]. cbn in Hl. lia. }
  exists n, x. split; [lia|]. done.
Qed.

(** [n] identifiers in a row. *)
Fixpoint draw (n : nat) (q : permutor) : out (permutor * list Z) :=
  match n with
  | O => Val (q, [])
  | S n' => '(q, x) ← dns_k_permutor_step q; '(q, l) ← draw n' q; Val (q, x :: l)
  end.

Lemma hits_app i n m : hits p i (n + m) = hits p i n ++ hits p (i + Z.of_nat n) m.
Proof. unfold hits. by rewrite window_app, fmap_app, filter_app. Qed.

(** They are the values in range that the counter passed, and its last value is
    one of them. *)
Lemma draw_hits n : forall i, exists w, draw n (at_step i) = Val (at_step (i + Z.of_nat w), id_of <$> hits p i w) /\
  length (hits p i w) = n /\ length (hits p i (pred w)) = pred n /\ (n = 0%nat -> w = 0%nat).
Proof.
  induction n as [|n IH]; intros i.
  - exists 0%nat. rewrite Z.add_0_r. done.
  - destruct (step_finds i) as (m & x & _ & Hs & Hx & H0). destruct (IH (i + Z.of_nat (S m))) as (w & Hd & Hl & Hw & Hz).
    exists (S m + w)%nat. cbn [draw]. rewrite Hs. cbn [mbind out_bind]. rewrite Hd. cbn [mbind out_bind].
    rewrite hits_app, Hx, fmap_app. cbn [fmap list_fmap app length]. split; [do 3 f_equal; lia|]. split; [by rewrite Hl|]. split; [|done].
    destruct w as [|w].
    + rewrite Nat.add_0_r. cbn [pred]. rewrite H0. cbn in Hl. by subst n.
    + replace (pred (S m + S w)) with (S m + w)%nat by lia. rewrite hits_app, Hx. cbn [app length pred] in *. rewrite Hw.
      destruct n; [by specialize (Hz eq_refl)|done].
Qed.

Lemma draw_within n w i : Z.of_nat n <= k_length p -> length (hits p i w) = n -> length (hits p i (pred w)) = pred n ->
  (n = 0%nat -> w = 0%nat) -> Z.of_nat w <= period p.
Proof.
  intros Hn Hw Hw' Hz. destruct (Z.le_gt_cases (Z.of_nat w) (period p)) as [|Hgt]; [done|exfalso]. pose proof period_pos.
  pose proof (length_period i) as Hl. replace (pred w) with (Z.to_nat (period p) + (pred w - Z.to_nat (period p)))%nat in Hw' by lia.
  rewrite hits_app, length_app in Hw'. destruct n as [|n]; [specialize (Hz eq_refl)|cbn in Hw']; lia.
Qed.
End Ids.

(** ** Properties *)

(** C38: Encryption by the Feistel network of the permutor is undone by
    decryption, for every key: it is a permutation of the values of
    [2 * shift] bits, and it does not leave them. *)
Theorem permutor_roundtrip p n : permutor_ok p -> 0 <= n < period p ->
  0 <= dns_k_permutor_E p n < period p /\ dns_k_permutor_D p (dns_k_permutor_E p n) = n.
Proof. intros Hp Hn. split; [by apply E_range|by apply D_E_inverse]. Qed.

(** C21: The generator made for the identifiers of queries always returns, its
    identifiers lie between 1 and 65535 (so none is the 0 that stands for a query
    without one), and no identifier is repeated among 65535 in a row, whatever the
    key and whatever the state of the counter. *)
Theorem qids_distinct random p i n : dns_k_permutor_init random 1 65535 = Val p -> (n <= Z.to_nat 65535)%nat ->
  exists q l, draw n (set_stepi p (w32 i)) = Val (q, l) /\ length l = n /\ NoDup l /\ Forall (fun x => 1 <= x <= 65535) l.
Proof.
  intros Hi Hn. destruct (permutor_init_ok random 1 65535) as (p' & Hi' & Hp & _ & Hl & Hlim); [lia..|].
  rewrite Hi' in Hi. injection Hi as ->. destruct (draw_hits p Hp n i) as (w & Hd & Hlen & Hpred & Hz).
  exists (at_step p (i + Z.of_nat w)), (id_of p <$> hits p i w). split; [exact Hd|]. split; [by rewrite length_fmap|].
  pose proof (draw_within p Hp n w i ltac:(lia) Hlen Hpred Hz) as Hw. split.
  - apply NoDup_fmap_2; [intros a b; unfold id_of; lia|]. apply NoDup_filter, (nodup_window p Hp). lia.
  - apply Forall_fmap, Forall_forall. intros x [Hx He]%list_elem_of_filter. apply list_elem_of_fmap in He as (k & -> & _).
    pose proof (E_range p Hp k). cbv beta in Hx |- *. unfold compose, id_of. rewrite Hlim, Hl in *. lia.
Qed.

(** ** Witnesses *)
Module PermutorWitnesses.
Definition key : list Z := [1; 2; 3; 4].
Definition qids : permutor := match dns_k_permutor_init key 1 65535 with Val p => p | _ => Permutor 0 0 0 0 0 0 (Tea [] 0) end.
Lemma qids_init : dns_k_permutor_init key 1 65535 = Val qids.
Proof. reflexivity. Qed.
Lemma qids_ok : permutor_ok qids.
Proof. constructor; vm_compute; repeat split; congruence. Qed.
Lemma permutor_roundtrip_witness : dns_k_permutor_D qids (dns_k_permutor_E qids 7) = 7 /\ dns_k_permutor_E qids 7 <> 7.
Proof. split; [apply (permutor_roundtrip qids 7 qids_ok); vm_compute; split; congruence|]. vm_compute. done. Defined.
Lemma qids_distinct_witness : exists q l, draw 3 (set_stepi qids (w32 0)) = Val (q, l) /\ length l = 3%nat /\ NoDup l /\
  Forall (fun x => 1 <= x <= 65535) l.
Proof. apply (qids_distinct key qids 0 3 qids_init). lia. Defined.
End PermutorWitnesses.
