(* ===== verification/DnsSo.v ===== *)
(** libdns: the socket that sends one query and receives its answer (dns.c,
    "S O C K E T  R O U T I N E S").

    [struct dns_socket] is the record [dsock]; a routine is a computation in the
    monad [SM] on the socket and on the operating system, which is the class
    [SoOS]. Error codes are the numbers of the C code: an errno, or one of the
    negative numbers of [enum dns_errno]; 0 is success. *)

From stdpp Require Import prelude.
From Stdlib Require Import ZArith Lia.
From S2P Require Import Prelude DnsBase DnsName DnsRr DnsResconf DnsHints DnsPermutor.
Local Open Scope Z_scope.

(** ** Error numbers *)
Definition DNS_EBASE : Z := - (100 * 2 ^ 24 + 110 * 2 ^ 16 + 115 * 2 ^ 8 + 64).
Definition DNS_EUNKNOWN : Z := DNS_EBASE + 4.
Definition E_EINTR : Z := 4.
Definition E_EAGAIN : Z := 11.
Definition E_ENOMEM : Z := 12.
Definition E_EISCONN : Z := 106.
Definition E_EALREADY : Z := 114.
Definition E_EINPROGRESS : Z := 115.

(** The number of an error of the packet routines, whose only system error is that
    of [malloc]. *)
Definition errnum (e : dns_error) : Z :=
  match e with
  | DNS_ENOBUFS => DNS_EBASE
  | DNS_EILLEGAL => DNS_EBASE + 1
  | DNS_EORDER => DNS_EBASE + 2
  | DNS_ESECTION => DNS_EBASE + 3
  | DNS_EADDRESS => DNS_EBASE + 5
  | DNS_ENAMETOOLONG => 36
  | DNS_ESYSTEM => E_ENOMEM
  end.

Definition SOCK_STREAM : Z := 1.
Definition SOCK_DGRAM : Z := 2.
Definition DNS_SO_MAXTRY : nat := 7.
Definition DNS_SO_MINBUF : Z := 768.
Definition DNS_POLLIN : Z := 1.
Definition DNS_POLLOUT : Z := 4.

(** ** The operating system

    Calls on an abstract state; an errno where the call fails with -1. *)
Class SoOS := {
  sos : Type;
  so_socket : Z -> Z -> sos -> sos * (Z + Z);
  so_setfd : Z -> sos -> sos * (Z + unit);
  so_getfl : Z -> sos -> sos * (Z + Z);
  so_setfl : Z -> Z -> sos -> sos * (Z + unit);
  so_bind : Z -> sockaddr_storage -> sos -> sos * (Z + unit);
  so_connect : Z -> sockaddr_storage -> sos -> sos * (Z + unit);
  so_send : Z -> list Z -> sos -> sos * (Z + Z);
  so_recv : Z -> Z -> sos -> sos * (Z + list Z);
  so_close : Z -> sos -> sos * unit;
  so_now : sos -> sos * Z;
  so_random : sos -> sos * Z;
  (** [realloc] of the data of a packet to a number of bytes, and of the array of
      old descriptors. *)
  so_realloc : list Z -> Z -> sos -> sos * option (list Z);
  so_realloc_old : Z -> sos -> sos * bool;
  (** The callback [opts.closefd.cb], if there is one: an error and the descriptor
      it leaves. *)
  so_closefd_cb : option (Z -> sos -> sos * (Z * Z));
}.

(** [enum] of the states; [SO_NONE] is 0. *)
Inductive so_state :=
  | SO_NONE
  | UDP_INIT | UDP_CONN | UDP_SEND | UDP_RECV | UDP_DONE
  | TCP_INIT | TCP_CONN | TCP_SEND | TCP_RECV | TCP_DONE.
#[export] Instance so_state_eq_dec : EqDecision so_state.
Proof. solve_decision. Defined.

(** [so->state++]. *)
Definition next_state (s : so_state) : so_state :=
  match s with
  | SO_NONE => UDP_INIT
  | UDP_INIT => UDP_CONN | UDP_CONN => UDP_SEND | UDP_SEND => UDP_RECV | UDP_RECV => UDP_DONE | UDP_DONE => TCP_INIT
  | TCP_INIT => TCP_CONN | TCP_CONN => TCP_SEND | TCP_SEND => TCP_RECV | TCP_RECV => TCP_DONE | TCP_DONE => TCP_DONE
  end.

(** [struct dns_stat]: queries, and counts and bytes sent and received. *)
Record so_stat := Stat {
  st_queries : Z;
  st_udp_sent : Z * Z; st_udp_rcvd : Z * Z;
  st_tcp_sent : Z * Z; st_tcp_rcvd : Z * Z }.

(** The query of a socket is a packet of its owner; [qpre] and [apre] are the two
    bytes before the data of the query and of the answer (the padding for TCP). *)
Record dsock := DSock {
  so_udp : Z; so_tcp : Z;
  so_old : list Z; so_olim : Z;
  so_type : Z;
  so_local : sockaddr_storage; so_remote : sockaddr_storage;
  so_qids : permutor;
  so_stat_ : so_stat;
  so_st : so_state;
  so_qid : Z; so_qname : list Z; so_qlen : Z; so_qtype : Z; so_qclass : Z;
  so_query : option packet; so_qpre : list Z; so_qout : Z;
  so_began : Z;
  so_answer : option packet; so_apre : list Z; so_alen : Z; so_apos : Z }.

Definition set_fds (s : dsock) udp tcp old olim : dsock :=
  DSock udp tcp old olim (so_type s) (so_local s) (so_remote s) (so_qids s) (so_stat_ s) (so_st s)
    (so_qid s) (so_qname s) (so_qlen s) (so_qtype s) (so_qclass s) (so_query s) (so_qpre s) (so_qout s) (so_began s)
    (so_answer s) (so_apre s) (so_alen s) (so_apos s).
Definition set_so_state (s : dsock) st : dsock :=
  DSock (so_udp s) (so_tcp s) (so_old s) (so_olim s) (so_type s) (so_local s) (so_remote s) (so_qids s) (so_stat_ s) st
    (so_qid s) (so_qname s) (so_qlen s) (so_qtype s) (so_qclass s) (so_query s) (so_qpre s) (so_qout s) (so_began s)
    (so_answer s) (so_apre s) (so_alen s) (so_apos s).
Definition set_stat (s : dsock) st : dsock :=
  DSock (so_udp s) (so_tcp s) (so_old s) (so_olim s) (so_type s) (so_local s) (so_remote s) (so_qids s) st (so_st s)
    (so_qid s) (so_qname s) (so_qlen s) (so_qtype s) (so_qclass s) (so_query s) (so_qpre s) (so_qout s) (so_began s)
    (so_answer s) (so_apre s) (so_alen s) (so_apos s).
Definition set_answer (s : dsock) a apre alen apos : dsock :=
  DSock (so_udp s) (so_tcp s) (so_old s) (so_olim s) (so_type s) (so_local s) (so_remote s) (so_qids s) (so_stat_ s) (so_st s)
    (so_qid s) (so_qname s) (so_qlen s) (so_qtype s) (so_qclass s) (so_query s) (so_qpre s) (so_qout s) (so_began s)
    a apre alen apos.
Definition set_qout (s : dsock) qpre qout : dsock :=
  DSock (so_udp s) (so_tcp s) (so_old s) (so_olim s) (so_type s) (so_local s) (so_remote s) (so_qids s) (so_stat_ s) (so_st s)
    (so_qid s) (so_qname s) (so_qlen s) (so_qtype s) (so_qclass s) (so_query s) qpre qout (so_began s)
    (so_answer s) (so_apre s) (so_alen s) (so_apos s).
Definition set_qids (s : dsock) k : dsock :=
  DSock (so_udp s) (so_tcp s) (so_old s) (so_olim s) (so_type s) (so_local s) (so_remote s) k (so_stat_ s) (so_st s)
    (so_qid s) (so_qname s) (so_qlen s) (so_qtype s) (so_qclass s) (so_query s) (so_qpre s) (so_qout s) (so_began s)
    (so_answer s) (so_apre s) (so_alen s) (so_apos s).
(** The fields that [dns_so_submit] fills in. *)
Definition set_query (s : dsock) remote qid qname qlen qtype qclass query began : dsock :=
  DSock (so_udp s) (so_tcp s) (so_old s) (so_olim s) (so_type s) (so_local s) remote (so_qids s) (so_stat_ s) (so_st s)
    qid qname qlen qtype qclass query (so_qpre s) 0 began
    (so_answer s) (so_apre s) (so_alen s) (so_apos s).

Section So.
Context `{SoOS}.
(** Steps allowed to [dns_d_expand] and to the loops of the socket. *)
Context (fuel : nat).

(** ** The monad *)
Definition SM (A : Type) : Type := dsock -> sos -> out (A * dsock * sos).
#[local] Instance SM_ret : MRet SM := fun A a s x => Val (a, s, x).
#[local] Instance SM_bind : MBind SM := fun A B f m s x =>
  match m s x with Val (a, s', x') => f a s' x' | UB => UB | Loop => Loop end.

Definition get : SM dsock := fun s x => Val (s, s, x).
Definition put_so (s : dsock) : SM unit := fun _ x => Val (tt, s, x).
Definition call {A} (f : sos -> sos * A) : SM A := fun s x => let '(x', a) := f x in Val (a, s, x').
Definition lift {A} (m : out A) : SM A := fun s x => match m with Val a => Val (a, s, x) | UB => UB | Loop => Loop end.

(** ** Descriptors *)
Definition dns_socketclose (fd : Z) : SM Z :=
  if fd =? -1 then mret fd else _ ← call (so_close fd); mret (-1).

(** The attempts to bind to a random port. *)
Fixpoint bind_random (n : nat) (fd : Z) (local : sockaddr_storage) : SM bool :=
  match n with
  | O => mret false
  | S n' =>
      rnd ← call so_random;
      r ← call (so_bind fd (SS (ss_family local) (1025 + rnd mod 64510) (ss_a4 local) (ss_a6 local)));
      match r with inr _ => mret true | inl _ => bind_random n' fd local end
  end.

Definition O_NONBLOCK : Z := 2048.
(** The error, or the descriptor. *)
Definition dns_socket (local : sockaddr_storage) (type : Z) : SM (Z + Z) :=
  let failed fd e := _ ← dns_socketclose fd; mret (inl e) in
  r ← call (so_socket (ss_family local) type);
  match r with
  | inl e => failed (-1) e
  | inr fd =>
      r ← call (so_setfd fd);
      match r with
      | inl e => failed fd e
      | inr _ =>
          r ← call (so_getfl fd);
          match r with
          | inl e => failed fd e
          | inr flags =>
              r ← call (so_setfl fd (Z.lor flags O_NONBLOCK));
              match r with
              | inl e => failed fd e
              | inr _ =>
                  if negb (ss_family local =? AF_INET) && negb (ss_family local =? AF_INET6) then mret (inr fd)
                  else if negb (type =? SOCK_DGRAM) then mret (inr fd)
                  else
                    bound ← (if ss_port local =? 0 then bind_random DNS_SO_MAXTRY fd local else mret false);
                    if bound : bool then mret (inr fd)
                    else
                      r ← call (so_bind fd local);
                      match r with inr _ => mret (inr fd) | inl e => failed fd e end
              end
          end
      end
  end.

(** [dns_so_closefd (so, &so->tcp)]: the only descriptor it is called with. *)
Definition dns_so_closefd_tcp : SM Z :=
  s ← get;
  if so_tcp s =? -1 then mret 0
  else
    cb ← (match so_closefd_cb with
          | Some cb =>
              '(e, fd) ← call (cb (so_tcp s));
              put_so (set_fds s (so_udp s) fd (so_old s) (so_olim s));;
              if negb (e =? 0) then mret (Some e) else if fd =? -1 then mret (Some 0) else mret None
          | None => mret None
          end);
    match cb with
    | Some e => mret e
    | None =>
        s ← get;
        let queue olim := put_so (set_fds s (so_udp s) (-1) (so_old s ++ [so_tcp s]) olim);; mret 0 in
        if Z.of_nat (length (so_old s)) <? so_olim s then queue (so_olim s)
        else
          let olim := Z.max 4 (w32 (so_olim s * 2)) in
          ok ← call (so_realloc_old olim);
          if ok : bool then queue olim else mret E_ENOMEM
    end.

Fixpoint close_old (l : list Z) : SM unit :=
  match l with [] => mret tt | fd :: l' => _ ← dns_socketclose fd; close_old l' end.

Record which := Which { w_udp : bool; w_tcp : bool; w_old : bool }.
Definition CLOSE_OLD : which := Which false false true.
Definition CLOSE_ALL : which := Which true true true.
Definition dns_so_closefds (w : which) : SM unit :=
  (if w_udp w then s ← get; fd ← dns_socketclose (so_udp s); put_so (set_fds s fd (so_tcp s) (so_old s) (so_olim s)) else mret tt);;
  (if w_tcp w then s ← get; fd ← dns_socketclose (so_tcp s); put_so (set_fds s (so_udp s) fd (so_old s) (so_olim s)) else mret tt);;
  (if w_old w then s ← get; close_old (so_old s);; put_so (set_fds s (so_udp s) (so_tcp s) [] 0) else mret tt).

(** [dns_so_reset] zeroes everything from the state down. *)
Definition reset_so (s : dsock) : dsock :=
  DSock (so_udp s) (so_tcp s) (so_old s) (so_olim s) (so_type s) (so_local s) (so_remote s) (so_qids s) (so_stat_ s)
    SO_NONE 0 (replicate 256 0) 0 0 0 None [0; 0] 0 0 None [0; 0] 0 0.
Definition dns_so_reset : SM unit := s ← get; put_so (reset_so s).

Definition dns_so_destroy : SM unit := dns_so_reset;; dns_so_closefds CLOSE_ALL.

Definition so_initializer : dsock :=
  reset_so (DSock (-1) (-1) [] 0 0 ss_zero ss_zero (Permutor 0 0 0 0 0 0 (Tea [] 0)) (Stat 0 (0, 0) (0, 0) (0, 0) (0, 0))
    SO_NONE 0 [] 0 0 0 None [] 0 0 None [] 0 0).
Definition set_local (s : dsock) type local : dsock :=
  DSock (so_udp s) (so_tcp s) (so_old s) (so_olim s) type local (so_remote s) (so_qids s) (so_stat_ s) (so_st s)
    (so_qid s) (so_qname s) (so_qlen s) (so_qtype s) (so_qclass s) (so_query s) (so_qpre s) (so_qout s) (so_began s)
    (so_answer s) (so_apre s) (so_alen s) (so_apos s).

Fixpoint draw_key (n : nat) : SM (list Z) :=
  match n with O => mret [] | S n' => r ← call so_random; l ← draw_key n'; mret (w32 r :: l) end.

(** [dns_so_init] on fresh memory: the error, or [None] when the socket is ready. *)
Definition dns_so_init (local : option sockaddr_storage) (type : Z) : SM (option Z) :=
  put_so (set_local so_initializer type (match local with Some a => copy_sa ss_zero a | None => ss_zero end));;
  s ← get;
  r ← dns_socket (so_local s) SOCK_DGRAM;
  match r with
  | inl e => dns_so_destroy;; mret (Some e)
  | inr fd =>
      put_so (set_fds s fd (so_tcp s) (so_old s) (so_olim s));;
      key ← draw_key 4;
      qids ← lift (dns_k_permutor_init key 1 65535);
      s ← get;
      put_so (set_qids s qids);;
      mret None
  end.

(** ** Queries *)
Definition dns_so_mkqid : SM Z :=
  s ← get;
  '(k, n) ← lift (dns_k_permutor_step (so_qids s));
  put_so (set_qids s k);;
  mret (w16 n).

(** The answer in fresh memory for [n] bytes, at least DNS_SO_MINBUF. *)
Definition dns_so_newanswer (n : Z) : SM Z :=
  s ← get;
  let old := match so_answer s with Some a => p_data a | None => [] end in
  r ← call (so_realloc old (Z.max n DNS_SO_MINBUF));
  match r with
  | None => mret E_ENOMEM
  | Some mem => put_so (set_answer s (dns_p_init (Some mem)) [0; 0] (so_alen s) (so_apos s));; mret 0
  end.

(** Fields of the header: the identifier as the two bytes are in memory (little
    endian), and the bit [tc]. *)
Definition header_qid (P : packet) : out Z := b0 ← rd (p_data P) 0; b1 ← rd (p_data P) 1; Val (b0 + 256 * b1).
Definition set_header_qid (P : packet) (q : Z) : out packet :=
  d ← wrn (p_data P) 0 [q mod 256; q / 256 mod 256]; Val (set_data P d).
Definition header_tc (P : packet) : out bool := b ← rd (p_data P) 2; Val (Z.testbit b 1).

Definition so_fail (e : Z) : SM Z := dns_so_reset;; mret e.
(** [dns_so_submit (so, Q, host)]; the packet [Q] is that of the caller, whose
    identifier may be set. *)
Definition dns_so_submit (Q : packet) (host : sockaddr_storage) : SM (Z * packet) :=
  let failed e := r ← so_fail e; mret (r, Q) in
  dns_so_reset;;
  r ← lift (dns_rr_parse 0 12 Q);
  match r with
  | inl e => failed (errnum e)
  | inr rr =>
      t ← lift (dns_d_expand fuel (rr_dn_p rr) Q);
      match t with
      | inl e => failed (errnum e)
      | inr [] => failed 0
      | inr t =>
          e ← dns_so_newanswer DNS_SO_MINBUF;
          if negb (e =? 0) then failed E_ENOMEM
          else
            began ← call so_now;
            q ← lift (header_qid Q);
            Q ← (if q =? 0 then q ← dns_so_mkqid; lift (set_header_qid Q q) else mret Q);
            q ← lift (header_qid Q);
            s ← get;
            let st := so_stat_ s in
            put_so (set_so_state (set_stat (set_query s (copy_sa (so_remote s) host) q (cbuf 256 t) (len t) (rr_type rr) (rr_class rr) (Some Q) began)
                (Stat (st_queries st + 1) (st_udp_sent st) (st_udp_rcvd st) (st_tcp_sent st) (st_tcp_rcvd st)))
              (if so_type s =? SOCK_STREAM then TCP_INIT else UDP_INIT));;
            mret (0, Q)
      end
  end.

(** [dns_so_verify (so, so->answer)]: 0 when the answer is one to the query. *)
Definition so_verify (s : dsock) : out Z :=
  match so_answer s with
  | None => UB
  | Some A =>
      q ← header_qid A;
      if negb (so_qid s =? q) then Val DNS_EUNKNOWN
      else
        n ← dns_p_count A DNS_S_QD;
        if n =? 0 then Val DNS_EUNKNOWN
        else
          r ← dns_rr_parse 0 12 A;
          match r with
          | inl _ => Val DNS_EUNKNOWN
          | inr rr =>
              if negb (rr_type rr =? so_qtype s) || negb (rr_class rr =? so_qclass s) then Val DNS_EUNKNOWN
              else
                t ← dns_d_expand fuel (rr_dn_p rr) A;
                match t with
                | inl e => Val (errnum e)
                | inr [] => Val (-1)
                | inr t =>
                    if (256 <=? len t) || negb (len t =? so_qlen s) then Val DNS_EUNKNOWN
                    else if negb (strcasecmp (so_qname s) t =? 0) then Val DNS_EUNKNOWN
                    else Val 0
                end
          end
  end.
Definition dns_so_verify : SM Z := s ← get; lift (so_verify s).

(** ** TCP *)
Definition add2 (c : Z * Z) (n b : Z) : Z * Z := (c.1 + n, c.2 + b).

(** The loop of [dns_so_tcp_send]; [base] is what was sent before the call, which
    [qsrc] already contains. *)
Fixpoint tcp_send_loop (n : nat) (base : Z) (Q : packet) : SM Z :=
  match n with
  | O => lift Loop
  | S n' =>
      s ← get;
      let qend := p_end Q + 2 in
      if so_qout s <? qend then
        chunk ← lift (rdn (so_qpre s ++ p_data Q) (base + so_qout s) (qend - so_qout s));
        r ← call (so_send (so_tcp s) chunk);
        match r with
        | inl e => mret e
        | inr k =>
            let st := so_stat_ s in
            put_so (set_stat (set_qout s (so_qpre s) (so_qout s + k))
              (Stat (st_queries st) (st_udp_sent st) (st_udp_rcvd st) (add2 (st_tcp_sent st) 0 k) (st_tcp_rcvd st)));;
            tcp_send_loop n' base Q
        end
      else
        let st := so_stat_ s in
        put_so (set_stat s (Stat (st_queries st) (st_udp_sent st) (st_udp_rcvd st) (add2 (st_tcp_sent st) 1 0) (st_tcp_rcvd st)));;
        mret 0
  end.
Definition dns_so_tcp_send : SM Z :=
  s ← get;
  match so_query s with
  | None => lift UB
  | Some Q =>
      put_so (set_qout s [Z.land 255 (Z.shiftr (p_end Q) 8); Z.land 255 (Z.shiftr (p_end Q) 0)] (so_qout s));;
      tcp_send_loop fuel (so_qout s) Q
  end.

Definition set_end_of (s : dsock) (e : Z) : dsock :=
  set_answer s (flip set_end e <$> so_answer s) (so_apre s) (so_alen s) (so_apos s).

(** The loop of [dns_so_tcp_recv]: the buffer is the padding and the data of the
    answer. *)
Fixpoint tcp_recv_loop (n : nat) (aend : Z) : SM Z :=
  match n with
  | O => lift Loop
  | S n' =>
      s ← get;
      let st := so_stat_ s in
      if so_apos s <? aend then
        match so_answer s with
        | None => lift UB
        | Some A =>
            r ← call (so_recv (so_tcp s) (aend - so_apos s));
            match r with
            | inl e => mret e
            | inr [] => mret DNS_EUNKNOWN
            | inr l =>
                buf ← lift (wrn (so_apre s ++ p_data A) (so_apos s) l);
                let apos := so_apos s + len l in
                put_so (set_stat (set_answer s (Some (set_data A (drop 2 buf))) (take 2 buf) (so_alen s) apos)
                  (Stat (st_queries st) (st_udp_sent st) (st_udp_rcvd st) (st_tcp_sent st) (add2 (st_tcp_rcvd st) 0 (len l))));;
                if (so_alen s =? 0) && (2 <=? apos) then
                  let alen := Z.lor (Z.shiftl (Z.land 255 (nthz buf 0)) 8) (Z.shiftl (Z.land 255 (nthz buf 1)) 0) in
                  e ← dns_so_newanswer alen;
                  if negb (e =? 0) then mret e
                  else
                    s ← get;
                    put_so (set_answer s (so_answer s) (so_apre s) alen (so_apos s));;
                    tcp_recv_loop n' (alen + 2)
                else tcp_recv_loop n' aend
            end
        end
      else
        put_so (set_stat (set_end_of s (so_alen s))
          (Stat (st_queries st) (st_udp_sent st) (st_udp_rcvd st) (st_tcp_sent st) (add2 (st_tcp_rcvd st) 1 0)));;
        mret 0
  end.
Definition dns_so_tcp_recv : SM Z := s ← get; tcp_recv_loop fuel (so_alen s + 2).

(** ** The state machine *)
Definition advance : SM unit := s ← get; put_so (set_so_state s (next_state (so_st s))).

(** What a case of the switch does: fall through to the next one, return, or go to
    one of the labels. *)
Inductive outcome := Fall | Return (e : Z) | Retry | SoErr (e : Z).

(** The case of a state; [Fall] after [so->state++]. *)
Definition so_case : SM outcome :=
  let fall := advance;; mret Fall in
  s ← get;
  let st := so_stat_ s in
  match so_st s with
  | UDP_INIT => fall
  | UDP_CONN =>
      r ← call (so_connect (so_udp s) (so_remote s));
      match r with inl e => mret (SoErr e) | inr _ => fall end
  | UDP_SEND =>
      match so_query s with
      | None => lift UB
      | Some Q =>
          data ← lift (rdn (p_data Q) 0 (p_end Q));
          r ← call (so_send (so_udp s) data);
          match r with
          | inl e => mret (SoErr e)
          | inr n =>
              put_so (set_stat s (Stat (st_queries st) (add2 (st_udp_sent st) 1 n) (st_udp_rcvd st) (st_tcp_sent st) (st_tcp_rcvd st)));;
              fall
          end
      end
  | UDP_RECV =>
      match so_answer s with
      | None => lift UB
      | Some A =>
          r ← call (so_recv (so_udp s) (p_size A));
          match r with
          | inl e => mret (SoErr e)
          | inr l =>
              data ← lift (wrn (p_data A) 0 l);
              put_so (set_stat (set_answer s (Some (set_end (set_data A data) (len l))) (so_apre s) (so_alen s) (so_apos s))
                (Stat (st_queries st) (st_udp_sent st) (add2 (st_udp_rcvd st) 1 (len l)) (st_tcp_sent st) (st_tcp_rcvd st)));;
              if len l <? 12 then mret Retry
              else
                e ← dns_so_verify;
                if negb (e =? 0) then mret Retry else fall
          end
      end
  | UDP_DONE =>
      match so_answer s with
      | None => lift UB
      | Some A =>
          tc ← lift (header_tc A);
          if negb tc || (so_type s =? SOCK_DGRAM) then mret (Return 0) else fall
      end
  | TCP_INIT =>
      e ← dns_so_closefd_tcp;
      if negb (e =? 0) then mret (SoErr e)
      else
        r ← dns_socket (so_local s) SOCK_STREAM;
        s ← get;
        match r with
        | inl e => put_so (set_fds s (so_udp s) (-1) (so_old s) (so_olim s));; mret (SoErr e)
        | inr fd => put_so (set_fds s (so_udp s) fd (so_old s) (so_olim s));; fall
        end
  | TCP_CONN =>
      r ← call (so_connect (so_tcp s) (so_remote s));
      match r with
      | inl e => if e =? E_EISCONN then fall else mret (SoErr e)
      | inr _ => fall
      end
  | TCP_SEND => e ← dns_so_tcp_send; if negb (e =? 0) then mret (SoErr e) else fall
  | TCP_RECV => e ← dns_so_tcp_recv; if negb (e =? 0) then mret (SoErr e) else fall
  | TCP_DONE =>
      e ← dns_so_closefd_tcp;
      if negb (e =? 0) then mret (SoErr e)
      else
        s ← get;
        match so_answer s with
        | None => lift UB
        | Some A =>
            if p_end A <? 12 then mret (Return (errnum DNS_EILLEGAL))
            else
              e ← dns_so_verify;
              if negb (e =? 0) then mret (SoErr e) else mret (Return 0)
        end
  | SO_NONE => mret (SoErr DNS_EUNKNOWN)
  end.

(** The label [error]: an interrupted call is made again, and the errors of a call
    that is under way are DNS_EAGAIN. *)
Definition so_error (e : Z) : outcome :=
  if e =? E_EINTR then Retry
  else if (e =? E_EINPROGRESS) || (e =? E_EALREADY) then Return E_EAGAIN
  else Return e.

Fixpoint so_check_loop (n : nat) : SM Z :=
  match n with
  | O => lift Loop
  | S n' =>
      r ← so_case;
      match match r with SoErr e => so_error e | _ => r end with
      | Return e => mret e
      | _ => so_check_loop n'
      end
  end.
Definition dns_so_check : SM Z := so_check_loop fuel.

(** The error, or the answer, which is then the caller's. *)
Definition dns_so_fetch : SM (Z + option packet) :=
  s ← get;
  if bool_decide (so_st s = UDP_DONE) || bool_decide (so_st s = TCP_DONE) then
    put_so (set_answer s None (so_apre s) (so_alen s) (so_apos s));;
    mret (inr (so_answer s))
  else mret (inl DNS_EUNKNOWN).

Definition dns_so_query (Q : packet) (host : sockaddr_storage) : SM (Z + option packet * packet) :=
  s ← get;
  '(e, Q) ← (if bool_decide (so_st s = SO_NONE) then dns_so_submit Q host else mret (0, Q));
  if negb (e =? 0) then mret (inl e)
  else
    e ← dns_so_check;
    if negb (e =? 0) then mret (inl e)
    else
      r ← dns_so_fetch;
      match r with
      | inl e => mret (inl e)
      | inr None => mret (inl 0)
      | inr A => dns_so_reset;; mret (inr (A, Q))
      end.

Definition elapsed (from now : Z) : Z := if from <? now then now - from else 0.
Definition dns_so_elapsed : SM Z := s ← get; now ← call so_now; mret (elapsed (so_began s) now).
Definition dns_so_clear : SM unit := dns_so_closefds CLOSE_OLD.

Definition dns_so_events (s : dsock) : Z :=
  match so_st s with
  | UDP_CONN | UDP_SEND | TCP_CONN | TCP_SEND => DNS_POLLOUT
  | UDP_RECV | TCP_RECV => DNS_POLLIN
  | _ => 0
  end.
Definition dns_so_pollfd (s : dsock) : Z :=
  match so_st s with
  | UDP_CONN | UDP_SEND | UDP_RECV => so_udp s
  | TCP_CONN | TCP_SEND | TCP_RECV => so_tcp s
  | _ => -1
  end.
End So.
