(* ===== verification/DnsSoSpec.v ===== *)
(** The socket of libdns along every run: what is kept by its routines, what goes
    over the network, and which descriptors it holds. *)

From stdpp Require Import prelude.
From Stdlib Require Import ZArith Lia.
From S2P Require Import Prelude DnsBase DnsName DnsRr DnsResconf DnsPermutor DnsSo.
Local Open Scope Z_scope.

#[local] Existing Instance SM_ret.
#[local] Existing Instance SM_bind.

(** ** Computations that keep a relation *)
Section Keeps.
Context {o : SoOS}.
Implicit Types s : dsock.

Lemma SM_bindE {A B} (m : SM A) (f : A -> SM B) s x :
  (m ≫= f) s x = match m s x with Val (a, s', x') => f a s' x' | UB => UB | Loop => Loop end.
Proof. done. Qed.

(** [m] relates the states before and after by [R]. *)
Definition keeps (R : dsock -> sos -> dsock -> sos -> Prop) {A} (m : SM A) : Prop :=
  forall s x a s' x', m s x = Val (a, s', x') -> R s x s' x'.

Class Preo (R : dsock -> sos -> dsock -> sos -> Prop) : Prop := {
  preo_refl s x : R s x s x;
  preo_trans s1 x1 s2 x2 s3 x3 : R s1 x1 s2 x2 -> R s2 x2 s3 x3 -> R s1 x1 s3 x3;
}.

Section Combinators.
Context (R : dsock -> sos -> dsock -> sos -> Prop) `{!Preo R}.
Lemma so_keeps_ret {A} (a : A) : keeps R (mret a).
Proof. intros s x b s' x' [= <- <- <-]. apply preo_refl. Qed.
Lemma so_keeps_bind {A B} (m : SM A) (f : A -> SM B) : keeps R m -> (forall a, keeps R (f a)) -> keeps R (m ≫= f).
Proof.
  intros Hm Hf s x b s' x'. rewrite SM_bindE. destruct (m s x) as [[[a s1] x1]| |] eqn:E; [|done..]. intros Hb.
  eapply preo_trans; [by eapply Hm|by eapply Hf].
Qed.
Lemma so_keeps_get : keeps R get.
Proof. intros s x b s' x' [= <- <- <-]. apply preo_refl. Qed.
Lemma so_keeps_lift {A} (m : out A) : keeps R (lift m).
Proof. intros s x b s' x'. unfold lift. destruct m; [|done..]. intros [= <- <- <-]. apply preo_refl. Qed.
(** A [get] whose value the rest depends on. *)
Lemma so_keeps_get_bind {B} (f : dsock -> SM B) :
  (forall s x b s' x', f s s x = Val (b, s', x') -> R s x s' x') -> keeps R (get ≫= f).
Proof. intros Hf s x b s' x'. rewrite SM_bindE. cbn. apply Hf. Qed.
End Combinators.
End Keeps.

(** Inversion of a computation that returned. *)
Lemma SM_bind_Val {o : SoOS} {A B} (m : SM A) (f : A -> SM B) s x r : (m ≫= f) s x = Val r ->
  exists a s1 x1, m s x = Val (a, s1, x1) /\ f a s1 x1 = Val r.
Proof. rewrite SM_bindE. destruct (m s x) as [[[a s1] x1]| |]; [|done..]. eauto. Qed.
Lemma lift_Val {o : SoOS} {A} (m : out A) s x a s' x' : lift m s x = Val (a, s', x') -> m = Val a /\ s' = s /\ x' = x.
Proof. unfold lift. destruct m; [|done..]. by intros [= -> -> ->]. Qed.
Lemma call_Val {o : SoOS} {A} (f : sos -> sos * A) s x a s' x' : call f s x = Val (a, s', x') -> f x = (x', a) /\ s' = s.
Proof. unfold call. destruct (f x). by intros [= -> -> ->]. Qed.

(** One step of inversion of a hypothesis about a computation. *)
Ltac minv1 :=
  match goal with
  | H : (_ ≫= _) _ _ = Val _ |- _ => apply SM_bind_Val in H as (? & ? & ? & ? & H)
  | H : mret _ _ _ = Val _ |- _ => injection H as <- <- <-
  | H : get _ _ = Val _ |- _ => injection H as <- <- <-
  | H : put_so _ _ _ = Val _ |- _ => injection H as <- <- <-
  | H : lift _ _ _ = Val _ |- _ => apply lift_Val in H as (? & -> & ->)
  | H : call _ _ _ = Val _ |- _ => apply call_Val in H as (? & ->)
  end.
Ltac minv := cbv beta iota zeta in * |-; repeat (minv1; subst; cbv beta iota zeta in * |-).

(** Case analysis on what decides the computation. *)
Tactic Notation "dm" hyp(H) := match type of H with (match ?e with _ => _ end) _ _ = _ => destruct e eqn:? end; minv.

(** ** The calls of the system

    A call that fails sets errno to a number other than 0; a new descriptor is not
    negative; [send] takes a part of the data, [recv] gives at most what was asked
    for, in bytes; [realloc] gives the number of bytes asked for and keeps the contents. *)
Class SoOk (o : SoOS) : Prop := {
  ok_socket f t x x' r : so_socket f t x = (x', r) -> match r with inl e => e <> 0 | inr fd => 0 <= fd end;
  ok_setfd fd x x' e : so_setfd fd x = (x', inl e) -> e <> 0;
  ok_getfl fd x x' e : so_getfl fd x = (x', inl e) -> e <> 0;
  ok_setfl fd l x x' e : so_setfl fd l x = (x', inl e) -> e <> 0;
  ok_bind fd a x x' e : so_bind fd a x = (x', inl e) -> e <> 0;
  ok_connect fd a x x' e : so_connect fd a x = (x', inl e) -> e <> 0;
  ok_send fd d x x' r : so_send fd d x = (x', r) -> match r with inl e => e <> 0 | inr n => 0 <= n <= len d end;
  ok_recv fd n x x' r : so_recv fd n x = (x', r) -> match r with inl e => e <> 0 | inr l => len l <= n /\ Forall byte l end;
  ok_realloc d n x x' m : so_realloc d n x = (x', Some m) -> 0 <= n -> len m = n /\ forall i, 0 <= i < Z.min (len d) n -> nthz m i = nthz d i;
}.

(** ** What the routines leave alone

    The query, its state and the answer. *)
Record same_query (s s' : dsock) : Prop := {
  sq_st : so_st s' = so_st s;
  sq_qid : so_qid s' = so_qid s; sq_qname : so_qname s' = so_qname s; sq_qlen : so_qlen s' = so_qlen s;
  sq_qtype : so_qtype s' = so_qtype s; sq_qclass : so_qclass s' = so_qclass s;
  sq_query : so_query s' = so_query s; sq_type : so_type s' = so_type s; sq_local : so_local s' = so_local s;
}.
Definition same_answer (s s' : dsock) : Prop := same_query s s' /\ so_answer s' = so_answer s.
#[export] Instance same_query_pre : PreOrder same_query.
Proof. split; [by intros s; constructor|]. intros a b c [] []. constructor; congruence. Qed.
#[export] Instance same_answer_pre : PreOrder same_answer.
Proof. split; [by intros s; split|]. intros a b c [H1 E1] [H2 E2]. split; [by transitivity b|congruence]. Qed.

Ltac sq := first [done | reflexivity | (constructor; reflexivity) | (split; [constructor; reflexivity|reflexivity])].

Section Routines.
Context {o : SoOS} (fuel : nat).
Implicit Types s : dsock.

Abbreviation keeps_query m := (keeps (fun s _ s' _ => same_query s s') m).
Abbreviation keeps_answer m := (keeps (fun s _ s' _ => same_answer s s') m).
Abbreviation pure m := (keeps (fun s _ s' _ => s' = s) m).

Lemma pure_preo : Preo (fun s (_ : sos) s' (_ : sos) => s' = s).
Proof. split; [done|congruence]. Qed.
#[local] Existing Instance pure_preo.

Lemma pure_call {A} (f : sos -> sos * A) : pure (call f).
Proof. intros s x a s' x' [_ ->]%call_Val. done. Qed.
Lemma pure_socketclose fd : pure (dns_socketclose fd).
Proof. unfold dns_socketclose. case_match; [apply so_keeps_ret, _|]. apply so_keeps_bind; [apply _|apply pure_call|]. intros. apply so_keeps_ret, _. Qed.
Lemma pure_bind_random n fd local : pure (bind_random n fd local).
Proof.
  induction n as [|n IH]; cbn [bind_random]; [apply so_keeps_ret, _|]. apply so_keeps_bind; [apply _|apply pure_call|]. intros r.
  apply so_keeps_bind; [apply _|apply pure_call|]. intros [e|]; [done|apply so_keeps_ret, _].
Qed.
Lemma pure_socket local type : pure (dns_socket local type).
Proof.
  unfold dns_socket.
  assert (forall fd (e : Z), pure (_ ← dns_socketclose fd; mret (inl e : Z + Z))) as Hfail.
  { intros. apply so_keeps_bind; [apply _|apply pure_socketclose|]. intros. apply so_keeps_ret, _. }
  repeat (apply so_keeps_bind; [apply _|apply pure_call|intros [|]]; try apply Hfail). case_match; [apply so_keeps_ret, _|].
  case_match; [apply so_keeps_ret, _|]. apply so_keeps_bind; [apply _| |].
  { case_match; [apply pure_bind_random|apply so_keeps_ret, _]. }
  intros [|]; [apply so_keeps_ret, _|]. apply so_keeps_bind; [apply _|apply pure_call|]. intros [|]; [apply Hfail|apply so_keeps_ret, _].
Qed.

Lemma closefd_keeps : keeps_answer dns_so_closefd_tcp.
Proof.
  intros s x a s' x' Hc. unfold dns_so_closefd_tcp in Hc. minv. case_match; minv; [sq|].
  assert (forall sA xA aA sB xB, (s ← get;
      let queue olim := put_so (set_fds s (so_udp s) (-1) (so_old s ++ [so_tcp s]) olim);; mret 0 in
      if Z.of_nat (length (so_old s)) <? so_olim s then queue (so_olim s)
      else let olim := Z.max 4 (w32 (so_olim s * 2)) in ok ← call (so_realloc_old olim); if ok : bool then queue olim else mret E_ENOMEM)
    sA xA = Val (aA, sB, xB) -> same_answer sA sB) as Hq.
  { clear. intros sA xA aA sB xB Hq. minv. case_match; minv; [sq|]. case_match; minv; sq. }
  destruct so_closefd_cb as [cb|]; minv; [|eapply Hq; exact Hc].
  match goal with p : (Z * Z)%type |- _ => destruct p as [e fd] end. minv. destruct (negb (e =? 0)); minv; [sq|].
  destruct (fd =? -1); minv; [sq|]. eapply Hq in Hc. etransitivity; [|exact Hc]; sq.
Qed.

Lemma newanswer_keeps n : keeps_query (dns_so_newanswer n).
Proof. intros s x a s' x' Hc. unfold dns_so_newanswer in Hc. minv. dm Hc; sq. Qed.

Lemma tcp_send_keeps n base Q : keeps_answer (tcp_send_loop n base Q).
Proof.
  induction n as [|n IH]; intros s x a s' x' Hc; cbn [tcp_send_loop] in Hc; [done|]. minv. dm Hc; [|sq].
  dm Hc; [sq|]. apply IH in Hc. etransitivity; [|exact Hc]; sq.
Qed.
Lemma dns_so_tcp_send_keeps : keeps_answer (dns_so_tcp_send fuel).
Proof.
  intros s x a s' x' Hc. unfold dns_so_tcp_send in Hc. minv. dm Hc; [|done].
  apply tcp_send_keeps in Hc. etransitivity; [|exact Hc]; sq.
Qed.

Lemma tcp_recv_keeps n : forall aend, keeps_query (tcp_recv_loop n aend).
Proof.
  induction n as [|n IH]; intros aend s x a s' x' Hc; cbn [tcp_recv_loop] in Hc; [done|]. minv. dm Hc; [|sq].
  dm Hc; [|done]. dm Hc; [sq|]. dm Hc; [sq|]. dm Hc.
  - match goal with Hn : dns_so_newanswer _ _ _ = Val _ |- _ => apply newanswer_keeps in Hn as Hq end.
    dm Hc; [etransitivity; [|exact Hq]; sq|]. apply IH in Hc. etransitivity; [|exact Hc]. etransitivity; [etransitivity; [|exact Hq]; sq|sq].
  - apply IH in Hc. etransitivity; [|exact Hc]; sq.
Qed.

(** ** Answers that were accepted *)

(** The answer is one to the query, and its header is complete. *)
Definition accepted (s : dsock) : Prop := so_verify fuel s = Val 0 /\ exists A, so_answer s = Some A /\ 12 <= p_end A.
Definition so_inv (s : dsock) : Prop := so_st s = UDP_DONE -> accepted s.

Lemma accepted_same s s' : same_answer s s' -> accepted s -> accepted s'.
Proof.
  intros [[] Ha] [Hv HA]. split; [|by rewrite Ha]. rewrite <- Hv. unfold so_verify. rewrite Ha. destruct (so_answer s); [|done].
  by rewrite sq_qid0, sq_qname0, sq_qlen0, sq_qtype0, sq_qclass0.
Qed.
Lemma so_inv_moved s st : st <> UDP_DONE -> so_inv (set_so_state s st).
Proof. intros Hst Hd. by cbn in Hd. Qed.

Lemma so_inv_other s s' : same_query s s' -> so_st s <> UDP_DONE -> so_inv s'.
Proof. intros [] Hst Hd. congruence. Qed.

Context `{!SoOk o}.

(** The errno of a call that failed. *)
Ltac sys_err :=
  match goal with
  | H : so_socket _ _ _ = (_, inl ?e) |- _ => exact (ok_socket _ _ _ _ _ H)
  | H : so_setfd _ _ = (_, inl ?e) |- _ => exact (ok_setfd _ _ _ _ H)
  | H : so_getfl _ _ = (_, inl ?e) |- _ => exact (ok_getfl _ _ _ _ H)
  | H : so_setfl _ _ _ = (_, inl ?e) |- _ => exact (ok_setfl _ _ _ _ _ H)
  | H : so_bind _ _ _ = (_, inl ?e) |- _ => exact (ok_bind _ _ _ _ _ H)
  | H : so_connect _ _ _ = (_, inl ?e) |- _ => exact (ok_connect _ _ _ _ _ H)
  | H : so_send _ _ _ = (_, inl ?e) |- _ => exact (ok_send _ _ _ _ _ H)
  | H : so_recv _ _ _ = (_, inl ?e) |- _ => exact (ok_recv _ _ _ _ _ H)
  end.
Lemma sys_err_0 (e : Z) : e <> 0 -> e = 0 -> False.
Proof. done. Qed.

Lemma socket_errs local type s x e s' x' : dns_socket local type s x = Val (inl e, s', x') -> e <> 0.
Proof.
  intros Hc. unfold dns_socket in Hc. minv. dm Hc; [by sys_err|].
  dm Hc; [by sys_err|]. dm Hc; [by sys_err|]. dm Hc; [by sys_err|]. dm Hc; [done|]. dm Hc; [done|]. dm Hc; [done|]. dm Hc; [by sys_err|done].
Qed.

Definition case_ok (r : outcome) (s' : dsock) : Prop :=
  so_inv s' /\ (r = Return 0 -> accepted s' /\ (so_st s' = UDP_DONE \/ so_st s' = TCP_DONE)) /\ r <> SoErr 0.
Lemma case_moved r s : so_st s <> UDP_DONE -> r <> Return 0 -> r <> SoErr 0 -> case_ok r s.
Proof. intros Hst Hr. split; [by intros Hd|done]. Qed.

Ltac moved H := apply case_moved; [cbn; by rewrite ?H|done|];
  try done; intros [= ->]; first [done | by apply (sys_err_0 0); [sys_err|] | by eapply socket_errs].

Lemma case_udp_recv s x r s' x' : so_st s = UDP_RECV -> so_case fuel s x = Val (r, s', x') -> case_ok r s'.
Proof.
  intros Est Hc. unfold so_case, advance in Hc. minv. rewrite Est in Hc. dm Hc; [|done]. dm Hc; [moved Est|].
  dm Hc; [moved Est|]. unfold dns_so_verify in *. minv. dm Hc; [moved Est|].
  match goal with He : negb (_ =? 0) = false |- _ => apply negb_false_iff, Z.eqb_eq in He; subst end.
  split; [|done]. intros _. split; [done|]. eexists. split; [reflexivity|]. cbn.
  match goal with Hl : (len _ <? 12) = false |- _ => apply Z.ltb_ge in Hl end. lia.
Qed.

Lemma case_tcp_done s x r s' x' : so_st s = TCP_DONE -> so_case fuel s x = Val (r, s', x') -> case_ok r s'.
Proof.
  intros Est Hc. unfold so_case in Hc. minv. rewrite Est in Hc. minv.
  match goal with Hcl : dns_so_closefd_tcp _ _ = Val _ |- _ => apply closefd_keeps in Hcl as [[Hst] _] end. rewrite Est in Hst.
  dm Hc; [moved Hst|]. dm Hc; [|done]. dm Hc; [moved Hst|].
  unfold dns_so_verify in *. minv. dm Hc; [moved Hst|].
  match goal with He : negb (_ =? 0) = false |- _ => apply negb_false_iff, Z.eqb_eq in He; subst end.
  split; [intros Hd; congruence|]. split; [|done]. intros _. split; [|by right]. split; [done|].
  eexists. split; [eassumption|]. match goal with Hl : (p_end _ <? 12) = false |- _ => apply Z.ltb_ge in Hl end. lia.
Qed.

Lemma so_case_inv s x r s' x' : so_inv s -> so_case fuel s x = Val (r, s', x') -> case_ok r s'.
Proof.
  intros Hi Hc. destruct (so_st s) eqn:Est; [..|by eapply case_tcp_done]; try by eapply case_udp_recv.
  all: unfold so_case, advance in Hc; minv; rewrite Est in Hc; minv.
  - moved Est.
  - moved Est.
  - dm Hc; moved Est.
  - dm Hc; [|done]. dm Hc; moved Est.
  - dm Hc; [|done]. dm Hc; [|moved Est]. split; [done|]. split; [|done]. intros _. split; [by apply Hi|by left].
  - match goal with Hcl : dns_so_closefd_tcp _ _ = Val _ |- _ => apply closefd_keeps in Hcl as [[Hst] _] end. rewrite Est in Hst.
    dm Hc; [moved Hst|]. match goal with Hs : dns_socket _ _ _ _ = Val _ |- _ => pose proof (pure_socket _ _ _ _ _ _ _ Hs) as -> end.
    dm Hc; moved Hst.
  - dm Hc; [dm Hc|]; moved Est.
  - match goal with Hs : dns_so_tcp_send _ _ _ = Val _ |- _ => apply dns_so_tcp_send_keeps in Hs as [[Hst] _] end. rewrite Est in Hst.
    dm Hc; moved Hst.
  - match goal with Hs : dns_so_tcp_recv _ _ _ = Val _ |- _ => unfold dns_so_tcp_recv in Hs; minv; apply tcp_recv_keeps in Hs as [Hst] end.
    rewrite Est in Hst. dm Hc; moved Hst.
Qed.

Lemma check_inv n : forall s x e s' x', so_inv s -> so_check_loop fuel n s x = Val (e, s', x') ->
  so_inv s' /\ (e = 0 -> accepted s' /\ (so_st s' = UDP_DONE \/ so_st s' = TCP_DONE)).
Proof.
  induction n as [|n IH]; intros s x e s' x' Hi Hc; cbn [so_check_loop] in Hc; [done|]. minv.
  match goal with Hr : so_case _ _ _ = Val (?r, ?s1, _) |- _ => apply (so_case_inv _ _ _ _ _ Hi) in Hr as (Hi1 & Hr1 & Hne);
    destruct r as [|e1| |e1] end.
  - by eapply IH.
  - minv. split; [done|]. intros ->. by apply Hr1.
  - by eapply IH.
  - destruct (so_error e1) as [|e2| |e2] eqn:Ee; try by eapply IH. minv. split; [done|]. intros ->. exfalso.
    unfold so_error in Ee. repeat case_match; try done. by injection Ee as ->.
Qed.

(** The operations a socket goes through between the check that accepted an
    answer and its submission: calls of [dns_so_check] in a world that changes. *)
Inductive checks : dsock -> Z -> dsock -> Prop :=
  | checks_one s x e s' x' : dns_so_check fuel s x = Val (e, s', x') -> checks s e s'
  | checks_more s x e s1 x1 e' s' : dns_so_check fuel s x = Val (e, s1, x1) -> checks s1 e' s' -> checks s e' s'.

Lemma checks_inv s e s' : checks s e s' -> so_inv s -> so_inv s' /\ (e = 0 -> accepted s' /\ (so_st s' = UDP_DONE \/ so_st s' = TCP_DONE)).
Proof.
  induction 1 as [s x e s' x' Hc|s x e s1 x1 e' s' Hc _ IH]; intros Hi; [exact (check_inv _ _ _ _ _ _ Hi Hc)|].
  apply IH. by destruct (check_inv _ _ _ _ _ _ Hi Hc).
Qed.

Lemma submit_inv Q host s x e Q' s' x' : dns_so_submit fuel Q host s x = Val ((e, Q'), s', x') -> so_inv s'.
Proof.
  intros Hc. assert (so_st s' <> UDP_DONE) as Hst; [|by intros Hd].
  unfold dns_so_submit, so_fail, dns_so_reset in Hc. minv. dm Hc; [done|]. dm Hc; [done|]. dm Hc; [done|].
  match goal with Hn : dns_so_newanswer _ _ _ = Val _ |- _ => apply newanswer_keeps in Hn as [Hst] end.
  dm Hc; [done|]. cbn [so_st set_so_state]. match goal with |- (if ?b then _ else _) <> _ => by destruct b end.
Qed.
End Routines.

Section Returns.
Context {o : SoOS}.
(** Computations that always return. *)
Definition returns {A} (m : SM A) : Prop := forall s x, exists a s' x', m s x = Val (a, s', x').
Lemma returns_bind {A B} (m : SM A) (f : A -> SM B) : returns m -> (forall a, returns (f a)) -> returns (m ≫= f).
Proof. intros Hm Hf s x. rewrite SM_bindE. destruct (Hm s x) as (a & s1 & x1 & ->). apply Hf. Qed.
Lemma returns_get : returns get. Proof. by intros s x; eexists _, _, _. Qed.
Lemma returns_put s0 : returns (put_so s0). Proof. by intros s x; eexists _, _, _. Qed.
Lemma returns_ret {A} (a : A) : returns (mret a). Proof. by intros s x; eexists _, _, _. Qed.
Lemma returns_close fd : returns (dns_socketclose fd).
Proof.
  unfold dns_socketclose. case_match; [apply returns_ret|]. apply returns_bind; [|intros; apply returns_ret]. intros s x. unfold call.
  destruct (so_close fd x). by eexists _, _, _.
Qed.
Lemma returns_close_old l : returns (close_old l).
Proof. induction l as [|fd l IH]; [apply returns_ret|]. apply returns_bind; [apply returns_close|by intros]. Qed.
Lemma destroy_returns : returns dns_so_destroy.
Proof.
  unfold dns_so_destroy, dns_so_closefds, dns_so_reset. cbn [CLOSE_ALL w_udp w_tcp w_old].
  repeat (apply returns_bind; intros; try apply returns_get; try apply returns_put; try apply returns_close; try apply returns_close_old).
Qed.
End Returns.
