(* ===== verification/DnsSoFd.v ===== *)
(** The descriptors of a socket of libdns: each one that was opened is held by the
    socket or has been closed once. *)

From stdpp Require Import prelude.
From Stdlib Require Import ZArith Lia Permutation.
From S2P Require Import Prelude DnsBase DnsName DnsRr DnsResconf DnsPermutor DnsSo DnsSoSpec.
Local Open Scope Z_scope.

#[local] Existing Instance SM_ret.
#[local] Existing Instance SM_bind.

(** ** The record of a run

    The operating system with a record of what was opened, closed, sent and
    received. *)
Inductive sevent :=
  | SOpen (fd : Z)
  | SClose (fd : Z)
  | SSent (fd : Z) (l : list Z)
  | SRecv (fd : Z) (l : list Z).

Definition skept {A} (o : SoOS) (f : @sos o -> @sos o * A) (ev : A -> list sevent)
    (x : @sos o * list sevent) : (@sos o * list sevent) * A :=
  let '(y, a) := f x.1 in ((y, x.2 ++ ev a), a).
Definition ev_none {A} (_ : A) : list sevent := [].
Definition ev_open (r : Z + Z) : list sevent := match r with inr fd => [SOpen fd] | inl _ => [] end.
Definition ev_sent (fd : Z) (d : list Z) (r : Z + Z) : list sevent :=
  match r with inr n => [SSent fd (take (Z.to_nat n) d)] | inl _ => [] end.
Definition ev_recv (fd : Z) (r : Z + list Z) : list sevent := match r with inr l => [SRecv fd l] | inl _ => [] end.

Definition slogged (o : SoOS) : SoOS := {|
  sos := @sos o * list sevent;
  so_socket f t := skept o (so_socket f t) ev_open;
  so_setfd fd := skept o (so_setfd fd) ev_none;
  so_getfl fd := skept o (so_getfl fd) ev_none;
  so_setfl fd l := skept o (so_setfl fd l) ev_none;
  so_bind fd a := skept o (so_bind fd a) ev_none;
  so_connect fd a := skept o (so_connect fd a) ev_none;
  so_send fd d := skept o (so_send fd d) (ev_sent fd d);
  so_recv fd n := skept o (so_recv fd n) (ev_recv fd);
  so_close fd := skept o (so_close fd) (fun _ => [SClose fd]);
  so_now := skept o so_now ev_none;
  so_random := skept o so_random ev_none;
  so_realloc d n := skept o (so_realloc d n) ev_none;
  so_realloc_old n := skept o (so_realloc_old n) ev_none;
  so_closefd_cb := match so_closefd_cb with Some cb => Some (fun fd => skept o (cb fd) ev_none) | None => None end |}.

#[export] Instance slogged_ok o : SoOk o -> SoOk (slogged o).
Proof.
  intros [H1 H2 H3 H4 H5 H6 H7 H8 H9].
  split; intros *; cbn; unfold skept;
    match goal with |- (let '(_, _) := ?c in _) = _ -> _ => destruct c as [y' r'] eqn:E end; intros [= ? ?]; subst;
    first [eapply H1; exact E | eapply H2; exact E | eapply H3; exact E | eapply H4; exact E | eapply H5; exact E
      | eapply H6; exact E | eapply H7; exact E | eapply H8; exact E | eapply H9; exact E].
Qed.

(** ** Specifications *)
Section Spec.
Context {o : SoOS}.
Definition spec (P : dsock -> sos -> Prop) {A} (m : SM A) (Q : A -> dsock -> sos -> Prop) : Prop :=
  forall s x, P s x -> forall a s' x', m s x = Val (a, s', x') -> Q a s' x'.
Lemma spec_ret {A} (P : dsock -> sos -> Prop) (a : A) (Q : A -> dsock -> sos -> Prop) :
  (forall s x, P s x -> Q a s x) -> spec P (mret a) Q.
Proof. intros HQ s x HP a' s' x' [= <- <- <-]. auto. Qed.
Lemma spec_bind {A B} P R Q (m : SM A) (f : A -> SM B) : spec P m R -> (forall a, spec (R a) (f a) Q) -> spec P (m ≫= f) Q.
Proof. intros Hm Hf s x HP b s' x' (a & s1 & x1 & Hm1 & Hf1)%SM_bind_Val. eapply Hf; [|exact Hf1]. by eapply Hm. Qed.
Lemma spec_weaken {A} P P' (Q Q' : A -> dsock -> sos -> Prop) m : spec P m Q -> (forall s x, P' s x -> P s x) ->
  (forall a s x, Q a s x -> Q' a s x) -> spec P' m Q'.
Proof. intros Hm HP HQ s x HP' a s' x' Hc. eapply HQ, Hm; eauto. Qed.
Lemma spec_get {B} P Q (f : dsock -> SM B) : (forall s, spec (fun s' x => s' = s /\ P s x) (f s) Q) -> spec P (get ≫= f) Q.
Proof. intros Hf s x HP b s' x' Hc. eapply (Hf s); [split; [reflexivity|exact HP]|exact Hc]. Qed.
Lemma spec_put P Q s0 : (forall s x, P s x -> Q tt s0 x) -> spec P (put_so s0) Q.
Proof. intros HQ s x HP a s' x' [= <- <- <-]. eauto. Qed.
Lemma spec_lift {A} (m : out A) P (Q : A -> dsock -> sos -> Prop) : (forall a s x, m = Val a -> P s x -> Q a s x) -> spec P (lift m) Q.
Proof. intros HQ s x HP a s' x' (E & -> & ->)%lift_Val. eauto. Qed.
Lemma spec_pull {A} (p : Prop) P (Q : A -> dsock -> sos -> Prop) m : (p -> spec P m Q) -> spec (fun s x => p /\ P s x) m Q.
Proof. intros Hm s x [Hp HP]. by apply Hm. Qed.
End Spec.

Section Ledger.
Context (o : SoOS) `{!SoOk o} (Hcb : @so_closefd_cb o = None) (fuel : nat).
#[local] Instance lo : SoOS := slogged o.
Implicit Types s : dsock.

Definition srecord (x : @sos lo) : list sevent := @snd (@sos o) (list sevent) x.
Definition opened (l : list sevent) : list Z := omap (fun e => match e with SOpen fd => Some fd | _ => None end) l.
Definition closed (l : list sevent) : list Z := omap (fun e => match e with SClose fd => Some fd | _ => None end) l.
Definition fds (l : list Z) : list Z := filter (fun fd => fd <> -1) l.
#[global] Arguments fds : simpl never.
Definition held s : list Z := fds (so_udp s :: so_tcp s :: so_old s).

(** Every descriptor opened is closed, in hand ([h]), or held. *)
Definition ledger (h : list Z) s (x : @sos lo) : Prop :=
  opened (srecord x) ≡ₚ closed (srecord x) ++ h ++ held s.

Lemma so_keptE {A} (f : @sos o -> @sos o * A) ev s x a s' x' : call (skept o f ev : @sos lo -> _) s x = Val (a, s', x') ->
  s' = s /\ srecord x' = srecord x ++ ev a /\ exists y, f (@fst (@sos o) (list sevent) x) = (y, a).
Proof.
  intros [Hc ->]%call_Val. unfold skept in Hc. destruct (f _) as [y a'] eqn:E. injection Hc as <- <-. split; [done|]. split; [done|].
  by exists y.
Qed.

Lemma opened_app l l' : opened (l ++ l') = opened l ++ opened l'.
Proof. apply omap_app. Qed.
Lemma closed_app l l' : closed (l ++ l') = closed l ++ closed l'.
Proof. apply omap_app. Qed.

(** A call that opens and closes nothing. *)
Lemma quiet_call {A} (f : @sos o -> @sos o * A) ev h :
  (forall a, opened (ev a) = [] /\ closed (ev a) = []) -> spec (ledger h) (call (skept o f ev : @sos lo -> _)) (fun _ => ledger h).
Proof.
  intros Hev s x Hl a s' x' (-> & Hr & _)%so_keptE. unfold ledger in *. rewrite Hr, opened_app, closed_app.
  destruct (Hev a) as [-> ->]. by rewrite !app_nil_r.
Qed.
Lemma none_call {A} (f : @sos o -> @sos o * A) h : spec (ledger h) (call (skept o f ev_none : @sos lo -> _)) (fun _ => ledger h).
Proof. by apply quiet_call. Qed.

Lemma held_fds s s' : so_udp s' = so_udp s -> so_tcp s' = so_tcp s -> so_old s' = so_old s -> held s' = held s.
Proof. unfold held. congruence. Qed.

Lemma fds_one fd : fd <> -1 -> fds [fd] = [fd].
Proof. intros Hne. unfold fds. by rewrite filter_cons_True. Qed.

Lemma close_ledger fd h : spec (ledger (fds [fd] ++ h)) (@dns_socketclose lo fd) (fun r s x => r = -1 /\ ledger h s x).
Proof.
  intros s x Hl a s' x' Hc. unfold dns_socketclose in Hc. destruct (Z.eqb_spec fd (-1)) as [->|Hne]; [by minv|].
  apply SM_bind_Val in Hc as (? & ? & ? & (-> & Hr & _)%so_keptE & Hc). minv. split; [done|]. rewrite fds_one in Hl by done.
  unfold ledger in *. rewrite Hr, opened_app, closed_app. rewrite app_nil_r, Hl. change (closed [SClose fd]) with [fd]. by rewrite <- !app_assoc.
Qed.

Lemma open_ledger f t h : spec (ledger h) (call (@so_socket lo f t))
  (fun r s x => match r with inr fd => fd <> -1 /\ ledger (fd :: h) s x | inl _ => ledger h s x end).
Proof.
  intros s x Hl r s' x' (-> & Hr & y & Hy)%so_keptE. apply ok_socket in Hy. unfold ledger in *. rewrite Hr, opened_app, closed_app.
  destruct r as [e|fd]; [by rewrite !app_nil_r|]. split; [lia|].
  change (opened (ev_open (inr fd))) with [fd]. change (closed (ev_open (inr fd))) with (@nil Z).
  rewrite app_nil_r, Hl, (Permutation_app_comm _ [fd]). exact (Permutation_middle (closed (srecord x)) (h ++ held s) fd).
Qed.

Ltac quiet := first [apply none_call | apply quiet_call; by intros [|]].

Lemma bind_random_ledger n fd local h : spec (ledger h) (@bind_random lo n fd local) (fun _ => ledger h).
Proof.
  induction n as [|n IH]; cbn [bind_random]; [by apply spec_ret|]. eapply spec_bind; [quiet|]. intros r.
  eapply spec_bind; [quiet|]. intros [e|]; [exact IH|by apply spec_ret].
Qed.

Lemma socket_ledger local type h : spec (ledger h) (@dns_socket lo local type)
  (fun r s x => match r with inr fd => fd <> -1 /\ ledger (fd :: h) s x | inl _ => ledger h s x end).
Proof.
  unfold dns_socket.
  assert (forall fd (e : Z), fd <> -1 -> spec (ledger (fd :: h)) (_ ← @dns_socketclose lo fd; mret (inl e : Z + Z))
    (fun r s x => match r with inr fd => fd <> -1 /\ ledger (fd :: h) s x | inl _ => ledger h s x end)) as Hfail.
  { intros fd e Hne. pose proof (close_ledger fd h) as Hcl. rewrite (fds_one fd Hne) in Hcl. eapply spec_bind; [exact Hcl|]. intros a. apply spec_ret. by intros s x []. }
  assert (forall fd, spec (fun s x => fd <> -1 /\ ledger (fd :: h) s x) (mret (inr fd : Z + Z))
    (fun r s x => match r with inr fd => fd <> -1 /\ ledger (fd :: h) s x | inl _ => ledger h s x end)) as Hok.
  { intros fd. by apply spec_ret. }
  assert (forall {A} (f : @sos o -> @sos o * A) fd, spec (fun s x => fd <> -1 /\ ledger (fd :: h) s x) (call (skept o f ev_none : @sos lo -> _))
    (fun _ s x => fd <> -1 /\ ledger (fd :: h) s x)) as Hq.
  { intros A f fd s x [Hne Hl] a s' x' Hc. split; [done|]. by eapply none_call. }
  assert (forall fd (e : Z), spec (fun s x => fd <> -1 /\ ledger (fd :: h) s x) (_ ← @dns_socketclose lo fd; mret (inl e : Z + Z))
    (fun r s x => match r with inr fd => fd <> -1 /\ ledger (fd :: h) s x | inl _ => ledger h s x end)) as Hfail'.
  { intros fd e s x [Hne Hl]. by apply Hfail. }
  eapply spec_bind; [apply open_ledger|]. intros [e|fd].
  { cbn [dns_socketclose Z.eqb Pos.eqb]. eapply (spec_bind _ (fun _ => ledger h)); [by apply spec_ret|]. intros. by apply spec_ret. }
  eapply spec_bind; [apply Hq|]. intros [e|]; [apply Hfail'|]. eapply spec_bind; [apply Hq|]. intros [e|]; [apply Hfail'|].
  eapply spec_bind; [apply Hq|]. intros [e|]; [apply Hfail'|]. case_match; [apply Hok|]. case_match; [apply Hok|].
  eapply (spec_bind _ (fun _ s x => fd <> -1 /\ ledger (fd :: h) s x)).
  { case_match; [|by apply spec_ret]. intros s x [Hne Hl] a s' x' Hc. split; [done|]. by eapply bind_random_ledger. }
  intros [|]; [apply Hok|]. eapply spec_bind; [apply Hq|]. intros [e|]; [apply Hfail'|apply Hok].
Qed.

(** The socket is known. *)
Definition at_ s0 (h : list Z) s (x : @sos lo) : Prop := s = s0 /\ ledger h s0 x.
Lemma at_call {A} (f : @sos o -> @sos o * A) ev s0 h : (forall a, opened (ev a) = [] /\ closed (ev a) = []) ->
  spec (at_ s0 h) (call (skept o f ev : @sos lo -> _)) (fun _ => at_ s0 h).
Proof.
  intros Hev s x [-> Hl] a s' x' Hc. pose proof Hc as (-> & _ & _)%so_keptE. split; [done|]. by eapply quiet_call.
Qed.
Lemma at_lift {A} (m : out A) s0 h : spec (at_ s0 h) (lift m) (fun _ => at_ s0 h).
Proof. by apply spec_lift. Qed.
Lemma at_ret {A} (a : A) s0 h : spec (at_ s0 h) (mret a) (fun _ => ledger h).
Proof. apply spec_ret. by intros s x [-> Hl]. Qed.
Lemma at_put s0 s1 h : held s1 = held s0 -> spec (at_ s0 h) (put_so s1) (fun _ => ledger h).
Proof. intros Hh. apply spec_put. intros s x [-> Hl]. unfold ledger in *. by rewrite Hh. Qed.
Lemma ledger_get {B} (f : dsock -> SM B) h Q : (forall s, spec (at_ s h) (f s) Q) -> spec (ledger h) (get ≫= f) Q.
Proof. intros Hf. apply spec_get. exact Hf. Qed.

Ltac step R := eapply (spec_bind _ (fun _ => R)).
Ltac aq := first [apply at_lift | apply at_call; by intros [|] | apply at_call; done].

Lemma newanswer_ledger n h : spec (ledger h) (@dns_so_newanswer lo n) (fun _ => ledger h).
Proof.
  unfold dns_so_newanswer. apply ledger_get. intros s. step (at_ s h); [aq|]. intros [m|]; [|apply at_ret].
  step (ledger h); [by apply at_put|]. intros. by apply spec_ret.
Qed.

Lemma tcp_send_ledger n base Q h : spec (ledger h) (@tcp_send_loop lo n base Q) (fun _ => ledger h).
Proof.
  induction n as [|n IH]; cbn [tcp_send_loop]; [by apply spec_lift|]. apply ledger_get. intros s. case_match.
  - step (at_ s h); [aq|]. intros c. step (at_ s h); [aq|]. intros [e|k]; [apply at_ret|].
    step (ledger h); [by apply at_put|]. intros _. exact IH.
  - step (ledger h); [by apply at_put|]. intros. by apply spec_ret.
Qed.
Lemma dns_so_tcp_send_ledger h : spec (ledger h) (@dns_so_tcp_send lo fuel) (fun _ => ledger h).
Proof.
  unfold dns_so_tcp_send. apply ledger_get. intros s. case_match; [|by apply spec_lift].
  step (ledger h); [by apply at_put|]. intros _. apply tcp_send_ledger.
Qed.

Lemma tcp_recv_ledger n h : forall aend, spec (ledger h) (@tcp_recv_loop lo n aend) (fun _ => ledger h).
Proof.
  induction n as [|n IH]; intros aend; cbn [tcp_recv_loop]; [by apply spec_lift|]. apply ledger_get. intros s. case_match.
  - case_match; [|by apply spec_lift]. step (at_ s h); [aq|]. intros [e|[|b l]]; [apply at_ret|apply at_ret|].
    step (at_ s h); [aq|]. intros buf. step (ledger h); [by apply at_put|]. intros _. case_match; [|apply IH].
    step (ledger h); [apply newanswer_ledger|]. intros e. case_match; [by apply spec_ret|]. apply ledger_get. intros s1.
    step (ledger h); [by apply at_put|]. intros _. apply IH.
  - step (ledger h); [by apply at_put|]. intros. by apply spec_ret.
Qed.

Lemma heldE s : held s = fds [so_udp s] ++ fds [so_tcp s] ++ fds (so_old s).
Proof. unfold held, fds. by rewrite <- !filter_app. Qed.
Lemma fds_none : fds [-1] = [].
Proof. unfold fds. rewrite filter_cons_False; [done|]. intros Hne. by apply Hne. Qed.

Lemma queued_held s olim : held s ≡ₚ held (set_fds s (so_udp s) (-1) (so_old s ++ [so_tcp s]) olim).
Proof.
  rewrite !heldE. cbn [so_udp so_tcp so_old set_fds]. rewrite fds_none. apply Permutation_app_head. cbn [app]. unfold fds at 3.
  rewrite filter_app. apply Permutation_app_comm.
Qed.

(** The descriptor of TCP is queued. *)
Lemma closefd_ledger h : spec (ledger h) (@dns_so_closefd_tcp lo) (fun e s x => ledger h s x /\ (e = 0 -> so_tcp s = -1)).
Proof.
  unfold dns_so_closefd_tcp. apply ledger_get. intros s. destruct (Z.eqb_spec (so_tcp s) (-1)) as [E|Hne].
  { apply spec_ret. by intros s' x [-> Hl]. }
  cbn [so_closefd_cb lo slogged]. rewrite Hcb.
  eapply (spec_bind _ (fun cb s' x => cb = None /\ at_ s h s' x)); [by apply spec_ret|]. intros cb. apply spec_pull. intros ->.
  apply spec_get. intros s1.
  assert (forall olim, spec (fun s' x => s' = s1 /\ at_ s h s1 x)
    (put_so (set_fds s1 (so_udp s1) (-1) (so_old s1 ++ [so_tcp s1]) olim);; mret 0) (fun e s x => ledger h s x /\ (e = 0 -> so_tcp s = -1))) as Hq.
  { intros olim. eapply (spec_bind _ (fun _ s' x => ledger h s' x /\ so_tcp s' = -1)).
    - apply spec_put. intros s' x [-> [-> Hl]]. split; [|done]. unfold ledger in *. rewrite Hl. apply Permutation_app_head, Permutation_app_head.
      apply queued_held.
    - intros. apply spec_ret. by intros s' x []. }
  case_match; [apply Hq|]. eapply (spec_bind _ (fun _ s' x => s' = s1 /\ at_ s h s1 x)).
  { intros s' x [-> [-> Hl]] ok s2 x2 Hc. pose proof Hc as (-> & _ & _)%so_keptE. split; [done|]. split; [done|]. exact (none_call _ _ _ _ Hl _ _ _ Hc). }
  intros [|]; [apply Hq|]. apply spec_ret. by intros s' x [-> [-> Hl]].
Qed.

(** A descriptor is taken out of the socket and closed. *)
Lemma socketclose_any fd s1 s x r s' x' : @dns_socketclose lo fd s x = Val (r, s', x') -> @dns_socketclose lo fd s1 x = Val (r, s1, x').
Proof. unfold dns_socketclose. case_match; intros Hc; minv; [done|]. rewrite SM_bindE. unfold call. by match goal with H : so_close _ _ = _ |- _ => rewrite H end. Qed.
Lemma at_close fd s0 (f : Z -> dsock) h : held s0 ≡ₚ fds [fd] ++ held (f (-1)) ->
  spec (at_ s0 h) (r ← @dns_socketclose lo fd; put_so (f r)) (fun _ => at_ (f (-1)) h).
Proof.
  intros Hh. eapply (spec_bind _ (fun r s x => r = -1 /\ ledger h (f (-1)) x)).
  - intros s x [-> Hl] r s' x' Hc. apply (socketclose_any _ (f (-1))) in Hc. assert (ledger (fds [fd] ++ h) (f (-1)) x) as Hl1.
    { unfold ledger in *. rewrite Hl, Hh. solve_Permutation. }
    by apply (close_ledger _ _ _ _ Hl1 _ _ _ Hc).
  - intros r. apply spec_pull. intros ->. apply spec_put. by intros.
Qed.

Lemma close_old_ledger l s0 s1 h : held s0 ≡ₚ fds l ++ held s1 -> spec (at_ s0 h) (@close_old lo l;; put_so s1) (fun _ => at_ s1 h).
Proof.
  intros Hh. eapply (spec_bind _ (fun _ s x => ledger h s1 x)); [|intros; by apply spec_put].
  assert (forall h, spec (fun _ x => ledger (fds l ++ h) s1 x) (@close_old lo l) (fun _ _ x => ledger h s1 x)) as Hl.
  { clear Hh h. induction l as [|fd l IH]; intros h; cbn [close_old]; [by apply spec_ret|].
    eapply (spec_bind _ (fun _ _ x => ledger (fds l ++ h) s1 x)); [|intros; apply IH].
    intros s x Hl r s' x' Hc. apply (socketclose_any _ s1) in Hc. assert (ledger (fds [fd] ++ fds l ++ h) s1 x) as Hl1.
    { revert Hl. unfold fds. by rewrite app_assoc, <- filter_app. }
    by apply (close_ledger _ _ _ _ Hl1 _ _ _ Hc). }
  intros s x [-> H0]. apply Hl. unfold ledger in *. rewrite H0, Hh. solve_Permutation.
Qed.

Lemma at_get {B} (f : dsock -> SM B) s0 h Q : spec (at_ s0 h) (f s0) Q -> spec (at_ s0 h) (get ≫= f) Q.
Proof. intros Hf. apply spec_get. intros s s' x [-> [-> Hl]]. by apply Hf. Qed.

(** What is left of the socket after [dns_so_closefds]. *)
Definition closefds_of (w : which) (s : dsock) : dsock :=
  let s := if w_udp w then set_fds s (-1) (so_tcp s) (so_old s) (so_olim s) else s in
  let s := if w_tcp w then set_fds s (so_udp s) (-1) (so_old s) (so_olim s) else s in
  if w_old w then set_fds s (so_udp s) (so_tcp s) [] 0 else s.
Lemma closefds_ledger w s h : spec (at_ s h) (@dns_so_closefds lo w) (fun _ => at_ (closefds_of w s) h).
Proof.
  unfold dns_so_closefds, closefds_of. step (at_ (if w_udp w then set_fds s (-1) (so_tcp s) (so_old s) (so_olim s) else s) h).
  { case_match; [|by apply spec_ret]. apply at_get. apply (at_close _ _ (fun fd => set_fds s fd (so_tcp s) (so_old s) (so_olim s))).
    rewrite !heldE. cbn. by rewrite fds_none. }
  intros _. set (s1 := if w_udp w then _ else s). step (at_ (if w_tcp w then set_fds s1 (so_udp s1) (-1) (so_old s1) (so_olim s1) else s1) h).
  { case_match; [|by apply spec_ret]. apply at_get. apply (at_close _ _ (fun fd => set_fds s1 (so_udp s1) fd (so_old s1) (so_olim s1))).
    rewrite !heldE. cbn. rewrite fds_none. solve_Permutation. }
  intros _. set (s2 := if w_tcp w then _ else s1). case_match; [|by apply spec_ret]. apply at_get. apply close_old_ledger.
  rewrite !heldE. cbn. rewrite app_nil_r. solve_Permutation.
Qed.

Lemma reset_ledger s h : spec (at_ s h) (@dns_so_reset lo) (fun _ => at_ (reset_so s) h).
Proof. apply at_get. apply spec_put. by intros s' x [-> Hl]. Qed.
Lemma at_all {A} (m : @SM lo A) h Q : (forall s, spec (at_ s h) m Q) -> spec (ledger h) m Q.
Proof. intros Hm s x Hl. by apply (Hm s). Qed.
Lemma ledger_at {A} (m : @SM lo A) s h Q : spec (ledger h) m Q -> spec (at_ s h) m Q.
Proof. intros Hm s' x [-> Hl]. by apply Hm. Qed.
Lemma destroy_ledger h : spec (ledger h) (@dns_so_destroy lo) (fun _ s x => ledger h s x /\ held s = []).
Proof.
  apply at_all. intros s. unfold dns_so_destroy. eapply spec_bind; [apply reset_ledger|]. intros [].
  eapply spec_weaken; [apply closefds_ledger|done|]. intros [] s' x [-> Hl]. split; [done|]. rewrite heldE. cbn. by rewrite fds_none.
Qed.

Lemma draw_key_at n s h : spec (at_ s h) (@draw_key lo n) (fun _ => at_ s h).
Proof.
  induction n as [|n IH]; cbn [draw_key]; [by apply spec_ret|]. step (at_ s h); [aq|]. intros r. step (at_ s h); [exact IH|]. intros. by apply spec_ret.
Qed.

(** The socket of [dns_socket] is the one before. *)
Lemma at_socket local type s h : spec (at_ s h) (@dns_socket lo local type)
  (fun r s' x => s' = s /\ match r with inr fd => fd <> -1 /\ ledger (fd :: h) s x | inl _ => ledger h s x end).
Proof. intros s' x [-> Hl] r s1 x1 Hc. pose proof (pure_socket _ _ _ _ _ _ _ Hc) as ->. split; [done|]. by apply (socket_ledger _ _ _ _ _ Hl _ _ _ Hc). Qed.

(** A descriptor in hand is put into the socket. *)
Lemma take_udp fd s h x : fd <> -1 -> so_udp s = -1 -> ledger (fd :: h) s x -> ledger h (set_fds s fd (so_tcp s) (so_old s) (so_olim s)) x.
Proof.
  intros Hne Hs Hl. unfold ledger in *. rewrite Hl, !heldE, Hs. cbn. rewrite fds_none, (fds_one fd) by done. cbn. solve_Permutation.
Qed.
Lemma take_tcp fd s h x : fd <> -1 -> so_tcp s = -1 -> ledger (fd :: h) s x -> ledger h (set_fds s (so_udp s) fd (so_old s) (so_olim s)) x.
Proof.
  intros Hne Hs Hl. unfold ledger in *. rewrite Hl, !heldE, Hs. cbn. rewrite fds_none, (fds_one fd) by done. cbn. solve_Permutation.
Qed.

Lemma init_ledger local type : spec (fun _ x => srecord x = []) (@dns_so_init lo local type)
  (fun r s x => ledger [] s x /\ (r <> None -> held s = [])).
Proof.
  unfold dns_so_init. set (s0 := set_local _ _ _). step (at_ s0 []).
  { apply spec_put. intros s x Hr. split; [done|]. unfold ledger. rewrite Hr, heldE. unfold s0. cbn. by rewrite fds_none. }
  intros _. apply at_get. eapply spec_bind; [apply at_socket|]. intros [e|fd].
  { eapply spec_bind; [eapply spec_weaken; [apply destroy_ledger| |intros a s x H'; exact H']|].
    - by intros s x [-> Hl].
    - intros []. apply spec_ret. by intros s x []. }
  step (at_ (set_fds s0 fd (so_tcp s0) (so_old s0) (so_olim s0)) []).
  { apply spec_put. intros s x (-> & Hne & Hl). split; [done|]. by apply take_udp. }
  intros _. set (s1 := set_fds _ _ _ _ _). step (at_ s1 []); [apply draw_key_at|]. intros key. step (at_ s1 []); [aq|]. intros qids.
  apply at_get. step (ledger []); [by apply at_put|]. intros _. by apply spec_ret.
Qed.

Lemma mkqid_ledger h : spec (ledger h) (@dns_so_mkqid lo) (fun _ => ledger h).
Proof.
  unfold dns_so_mkqid. apply ledger_get. intros s. step (at_ s h); [aq|]. intros [k n]. step (ledger h); [by apply at_put|]. intros _. by apply spec_ret.
Qed.

Lemma submit_ledger Q host h : spec (ledger h) (@dns_so_submit lo fuel Q host) (fun _ => ledger h).
Proof.
  assert (spec (ledger h) (@dns_so_reset lo) (fun _ => ledger h)) as Hreset.
  { apply at_all. intros s. eapply spec_weaken; [apply reset_ledger|done|]. by intros [] s' x [-> Hl]. }
  assert (forall e, spec (ledger h) (r ← @so_fail lo e; mret (r, Q)) (fun _ => ledger h)) as Hfail.
  { intros e. step (ledger h); [|intros; by apply spec_ret]. step (ledger h); [exact Hreset|]. intros _. by apply spec_ret. }
  assert (forall {A} (m : out A), spec (ledger h) (lift m : @SM lo A) (fun _ => ledger h)) as Hlift by (intros; by apply spec_lift).
  unfold dns_so_submit. step (ledger h); [exact Hreset|]. intros _. step (ledger h); [apply Hlift|]. intros [e|rr]; [apply Hfail|].
  step (ledger h); [apply Hlift|]. intros [e|[|b t]]; [apply Hfail..|]. step (ledger h); [apply newanswer_ledger|]. intros e.
  case_match; [apply Hfail|]. step (ledger h); [quiet|]. intros began. step (ledger h); [apply Hlift|]. intros q.
  step (ledger h). { case_match; [|by apply spec_ret]. step (ledger h); [apply mkqid_ledger|]. intros. apply Hlift. }
  intros Q'. step (ledger h); [apply Hlift|]. intros q'. apply ledger_get. intros s. step (ledger h); [by apply at_put|]. intros _. by apply spec_ret.
Qed.

Lemma advance_at s h : spec (at_ s h) (advance;; mret Fall : @SM lo _) (fun _ => ledger h).
Proof. step (ledger h); [apply at_get; by apply at_put|]. intros _. by apply spec_ret. Qed.
Lemma advance_ledger h : spec (ledger h) (advance;; mret Fall : @SM lo _) (fun _ => ledger h).
Proof. apply at_all. intros s. apply advance_at. Qed.

Lemma tcp_init_ledger local s h : spec (at_ s h)
  (e ← dns_so_closefd_tcp;
   if negb (e =? 0) then mret (SoErr e)
   else r ← dns_socket local SOCK_STREAM; s ← get;
     match r with
     | inl e => put_so (set_fds s (so_udp s) (-1) (so_old s) (so_olim s));; mret (SoErr e)
     | inr fd => put_so (set_fds s (so_udp s) fd (so_old s) (so_olim s));; advance;; mret Fall
     end) (fun _ => ledger h).
Proof.
  eapply spec_bind; [apply ledger_at, closefd_ledger|]. intros e. cbn beta. destruct (Z.eqb_spec e 0) as [->|Hne]; cbn [negb].
  2: { apply spec_ret. by intros s' x []. }
  eapply (spec_weaken (fun s' x => ledger h s' x /\ so_tcp s' = -1)); [|by intros s' x [Hl ->]|intros r s' x H'; exact H'].
  eapply (spec_bind _ (fun r s' x => so_tcp s' = -1 /\ match r with inr fd => fd <> -1 /\ ledger (fd :: h) s' x | inl _ => ledger h s' x end)).
  { intros s' x [Hl Ht] r s1 x1 Hc. pose proof (pure_socket _ _ _ _ _ _ _ Hc) as ->. split; [done|]. by apply (socket_ledger _ _ _ _ _ Hl _ _ _ Hc). }
  intros [e|fd]; apply spec_get; intros s1.
  - step (ledger h); [|intros; by apply spec_ret]. apply spec_put. intros s2 x (-> & Ht & Hl). unfold ledger in *. rewrite Hl, !heldE. cbn. by rewrite Ht.
  - step (ledger h); [|intros; apply advance_ledger]. apply spec_put. intros s2 x (-> & Ht & Hne & Hl). by apply take_tcp.
Qed.

Lemma verify_at s h : spec (at_ s h) (@dns_so_verify lo fuel) (fun _ => at_ s h).
Proof. unfold dns_so_verify. apply at_get. aq. Qed.

Lemma so_case_ledger h : spec (ledger h) (@so_case lo fuel) (fun _ => ledger h).
Proof.
  unfold so_case. apply ledger_get. intros s. destruct (so_st s).
  - apply at_ret.
  - apply advance_at.
  - step (at_ s h); [aq|]. intros [e|]; [apply at_ret|apply advance_at].
  - case_match; [|by apply spec_lift]. step (at_ s h); [aq|]. intros data. step (at_ s h); [aq|]. intros [e|n]; [apply at_ret|].
    step (ledger h); [by apply at_put|]. intros _. apply advance_ledger.
  - case_match; [|by apply spec_lift]. step (at_ s h); [aq|]. intros [e|l]; [apply at_ret|]. step (at_ s h); [aq|]. intros data.
    step (ledger h); [by apply at_put|]. intros _. case_match; [by apply spec_ret|]. apply at_all. intros s1.
    step (at_ s1 h); [apply verify_at|]. intros e. case_match; [apply at_ret|apply advance_at].
  - case_match; [|by apply spec_lift]. step (at_ s h); [aq|]. intros tc. case_match; [apply at_ret|apply advance_at].
  - apply tcp_init_ledger.
  - step (at_ s h); [aq|]. intros [e|]; [|apply advance_at]. case_match; [apply advance_at|apply at_ret].
  - step (ledger h); [apply ledger_at, dns_so_tcp_send_ledger|]. intros e. case_match; [by apply spec_ret|apply advance_ledger].
  - step (ledger h); [apply ledger_at; unfold dns_so_tcp_recv; apply ledger_get; intros; apply ledger_at, tcp_recv_ledger|].
    intros e. case_match; [by apply spec_ret|apply advance_ledger].
  - step (ledger h). { apply ledger_at. eapply spec_weaken; [apply closefd_ledger|done|]. by intros e s' x []. }
    intros e. case_match; [by apply spec_ret|]. apply ledger_get. intros s1. case_match; [|by apply spec_lift].
    case_match; [apply at_ret|]. step (at_ s1 h); [apply verify_at|]. intros e1. case_match; apply at_ret.
Qed.

Lemma check_ledger h : spec (ledger h) (@dns_so_check lo fuel) (fun _ => ledger h).
Proof.
  unfold dns_so_check. generalize fuel at 2. intros n. induction n as [|n IH]; cbn [so_check_loop]; [by apply spec_lift|].
  step (ledger h); [apply so_case_ledger|]. intros r. case_match; try exact IH. by apply spec_ret.
Qed.
Lemma fetch_ledger h : spec (ledger h) (@dns_so_fetch lo) (fun _ => ledger h).
Proof. unfold dns_so_fetch. apply ledger_get. intros s. case_match; [|apply at_ret]. step (ledger h); [by apply at_put|]. intros. by apply spec_ret. Qed.

(** ** Runs of a socket *)

(** The operations of the interface between [dns_so_init] and [dns_so_destroy]. *)
Inductive so_op :=
  | OpSubmit (Q : packet) (host : sockaddr_storage)
  | OpCheck | OpFetch | OpElapsed | OpClear | OpReset.
Definition so_do (op : so_op) : @SM lo unit :=
  match op with
  | OpSubmit Q host => _ ← dns_so_submit fuel Q host; mret tt
  | OpCheck => _ ← dns_so_check fuel; mret tt
  | OpFetch => _ ← dns_so_fetch; mret tt
  | OpElapsed => _ ← dns_so_elapsed; mret tt
  | OpClear => dns_so_clear
  | OpReset => dns_so_reset
  end.
Fixpoint so_ops (l : list so_op) : @SM lo unit :=
  match l with [] => mret tt | op :: l' => so_do op;; so_ops l' end.

Lemma so_do_ledger op h : spec (ledger h) (so_do op) (fun _ => ledger h).
Proof.
  destruct op; cbn [so_do].
  - step (ledger h); [apply submit_ledger|]. intros. by apply spec_ret.
  - step (ledger h); [apply check_ledger|]. intros. by apply spec_ret.
  - step (ledger h); [apply fetch_ledger|]. intros. by apply spec_ret.
  - step (ledger h); [|intros; by apply spec_ret]. unfold dns_so_elapsed. apply ledger_get. intros s. step (at_ s h); [aq|]. intros. apply at_ret.
  - apply at_all. intros s. eapply spec_weaken; [apply closefds_ledger|done|]. by intros [] s' x [-> Hl].
  - apply at_all. intros s. eapply spec_weaken; [apply reset_ledger|done|]. by intros [] s' x [-> Hl].
Qed.
Lemma so_ops_ledger l h : spec (ledger h) (so_ops l) (fun _ => ledger h).
Proof.
  induction l as [|op l IH]; cbn [so_ops]; [by apply spec_ret|]. step (ledger h); [apply so_do_ledger|]. intros _. exact IH.
Qed.
End Ledger.
