(* ===== verification/DnsSoTcp.v ===== *)
(** TCP for libdns: a message is preceded by its length in two bytes. *)

From stdpp Require Import prelude.
From Stdlib Require Import ZArith Lia.
From S2P Require Import Prelude DnsBase DnsName DnsRr DnsPacketSpec DnsResconf DnsPermutor DnsSo DnsSoSpec DnsSoFd.
Local Open Scope Z_scope.

#[local] Existing Instance SM_ret.
#[local] Existing Instance SM_bind.

(** A message with its length. *)
Definition framed (m : list Z) : list Z := [len m / 256; len m mod 256] ++ m.

Lemma wrn_app_inv a r bs buf : wrn (a ++ r) (len a) bs = Val buf -> exists r', buf = a ++ bs ++ r' /\ len buf = len (a ++ r).
Proof.
  unfold wrn. destruct (Z.eqb_spec (len bs) 0) as [E|E].
  { intros [= <-]. exists r. split; [|done]. unfold len in E. by destruct bs. }
  destruct (Z.leb_spec 0 (len a)) as [_|]; [|pose proof (len_nonneg a); lia].
  destruct (Z.leb_spec (len a + len bs) (len (a ++ r))) as [Hl|]; [|done]. intros [= <-].
  assert (Z.to_nat (len a) = length a) as -> by (unfold len; lia). rewrite take_app_length.
  assert (Z.to_nat (len a + len bs) = (length a + length bs)%nat) as -> by (unfold len; lia).
  eexists. split; [done|]. autorewrite with len. rewrite <- drop_drop, drop_app_length. revert Hl. autorewrite with len. unfold len.
  rewrite length_drop. lia.
Qed.

(** The length in the first two bytes. *)
Lemma be16_of a b : byte a -> byte b -> Z.lor (Z.shiftl (Z.land 255 a) 8) (Z.shiftl (Z.land 255 b) 0) = 256 * a + b.
Proof.
  intros Ha Hb. rewrite !(Z.land_comm 255). change 255 with (Z.ones 8). rewrite !Z.land_ones by lia. unfold byte in *.
  rewrite !Z.mod_small by (cbn; lia). rewrite Z.shiftl_0_r, lor_shift by lia. lia.
Qed.

Section Tcp.
Context (o : SoOS) `{!SoOk o} (fuel : nat).
#[local] Instance lo : SoOS := slogged o.
Implicit Types s : dsock.

(** The bytes that went over a descriptor. *)
Definition rcvd_on (fd : Z) (l : list sevent) : list Z :=
  mjoin (omap (fun e => match e with SRecv f b => if f =? fd then Some b else None | _ => None end) l).
Definition sent_on (fd : Z) (l : list sevent) : list Z :=
  mjoin (omap (fun e => match e with SSent f b => if f =? fd then Some b else None | _ => None end) l).
Lemma rcvd_nil fd : rcvd_on fd [] = [].
Proof. done. Qed.
Lemma sent_app fd l l' : sent_on fd (l ++ l') = sent_on fd l ++ sent_on fd l'.
Proof. unfold sent_on. by rewrite omap_app, join_app. Qed.
Lemma rcvd_app fd l l' : rcvd_on fd (l ++ l') = rcvd_on fd l ++ rcvd_on fd l'.
Proof. unfold rcvd_on. by rewrite omap_app, join_app. Qed.

(** ** Receiving *)

(** [str] is what was received of the message so far. *)
Definition recv_inv s (str : list Z) : Prop :=
  so_apos s = len str /\ Forall byte str /\ len (so_apre s) = 2 /\
  exists A, so_answer s = Some A /\
    ((so_alen s = 0 /\ len str < 2 /\ exists r, so_apre s ++ p_data A = str ++ r) \/
     (exists a b m r, str = a :: b :: m /\ so_alen s = 256 * a + b /\ len m <= so_alen s /\ p_data A = m ++ r)).

Lemma newanswer_got n s x e s' x' : @dns_so_newanswer lo n s x = Val (e, s', x') ->
  srecord o x' = srecord o x /\
  (e = E_ENOMEM /\ s' = s \/ e = 0 /\ exists A, s' = set_answer s (Some A) [0; 0] (so_alen s) (so_apos s)).
Proof.
  intros Hc. unfold dns_so_newanswer in Hc. apply SM_bind_Val in Hc as (? & ? & ? & [= <- <- <-] & Hc). apply SM_bind_Val in Hc as (r & s1 & x1 & (-> & Hr & y & Hy)%so_keptE & Hc).
  unfold ev_none in Hr. rewrite app_nil_r in Hr. destruct r as [mem|]; minv; (split; [done|]); [right|by left]. split; [done|]. by eexists.
Qed.

(** A part of the message arrives: the length is complete, or the message goes on. *)
Lemma recv_chunk s str l A buf : recv_inv s str -> so_answer s = Some A -> so_apos s < so_alen s + 2 -> l <> [] ->
  len l <= so_alen s + 2 - so_apos s -> Forall byte l -> wrn (so_apre s ++ p_data A) (so_apos s) l = Val buf ->
  if (so_alen s =? 0) && (2 <=? so_apos s + len l) then exists a b, byte a /\ byte b /\ str ++ l = [a; b] /\ nthz buf 0 = a /\ nthz buf 1 = b
  else recv_inv (set_answer s (Some (set_data A (drop 2 buf))) (take 2 buf) (so_alen s) (so_apos s + len l)) (str ++ l).
Proof.
  intros (Hp & Hb & Hpre & A' & HA & Hd) HA' Hlt Hne Hll Hl Hw. rewrite HA in HA'. injection HA' as ->. rewrite Hp in *.
  assert (0 < len l) by (destruct l; [done|]; rewrite len_cons; pose proof (len_nonneg l); lia).
  assert (Forall byte (str ++ l)) as Hbl by by apply Forall_app.
  destruct Hd as [(Ha0 & Hs & r & Hr)|(a & b & m & r & -> & Ha & Hm & Hr)].
  - rewrite Ha0 in *. cbn [Z.eqb andb]. rewrite Hr in Hw. apply wrn_app_inv in Hw as (r' & -> & Hlb).
    assert (2 <= len (str ++ l ++ r')) as H2. { rewrite Hlb, <- Hr, len_app, Hpre. pose proof (len_nonneg (p_data A)). lia. }
    destruct (Z.leb_spec 2 (len str + len l)) as [Hge|Hsh].
    + assert (len (str ++ l) = 2) as E2 by (rewrite len_app; lia). rewrite app_assoc.
      destruct (str ++ l) as [|a [|b [|]]]; unfold len in E2; cbn in E2; try lia. exists a, b. inversion_clear Hbl as [|?? Hba Hbb]. by inversion_clear Hbb.
    + split; [cbn; by rewrite len_app|]. split; [done|]. split.
      { cbn. unfold len. rewrite length_take. unfold len in H2. lia. }
      eexists. split; [reflexivity|]. left. split; [done|]. rewrite len_app. split; [lia|]. exists r'. cbn. by rewrite take_drop, app_assoc.
  - assert (len (so_apre s ++ m) = len (a :: b :: m)) as Em by (autorewrite with len; lia).
    rewrite Hr, app_assoc, <- Em in Hw. apply wrn_app_inv in Hw as (r' & -> & _).
    assert (length (so_apre s) = 2%nat) as Hpre' by (unfold len in Hpre; lia).
    destruct ((so_alen s =? 0) && _) eqn:E0; [exfalso; autorewrite with len in *; pose proof (len_nonneg m); lia|].
    split; [cbn; by rewrite <- len_app|]. split; [done|].
    rewrite <- app_assoc, (take_app_length' (so_apre s)), (drop_app_length' (so_apre s)) by done. split; [done|].
    eexists. split; [reflexivity|]. right. exists a, b, (m ++ l), r'. split; [done|]. split; [done|]. cbn. rewrite <- app_assoc. split; [|done].
    autorewrite with len in *. lia.
Qed.

Lemma recv_done s str : recv_inv s str -> so_alen s + 2 <= so_apos s -> exists A, so_answer s = Some A /\
  0 <= so_alen s /\ str = framed (take (Z.to_nat (so_alen s)) (p_data A)).
Proof.
  intros (Hp & Hb & _ & A & HA & Hd) Hge. exists A. split; [done|]. destruct Hd as [(Ha & Hs & _)|(a & b & m & r & -> & Ha & Hm & Hr)]; [lia|].
  autorewrite with len in *. pose proof (len_nonneg m). inversion_clear Hb as [|?? Hba Hb']. inversion_clear Hb' as [|?? Hbb _]. unfold byte in *.
  assert (len m = so_alen s) as E by lia. split; [lia|]. rewrite Hr, <- E, take_app_length' by (unfold len; lia). unfold framed. rewrite E, Ha.
  rewrite (Z.mul_comm 256), Z.div_add_l, Z.div_small, Z.add_0_r by lia. rewrite (Z.add_comm (a * 256)), Z.mod_add, Z.mod_small by lia. done.
Qed.

(** What a call adds to [str], and what the answer is when it returns 0. *)
Definition recv_post s str (x : @sos lo) (e : Z) s' (x' : @sos lo) : Prop :=
  exists ev, srecord o x' = srecord o x ++ ev /\ so_tcp s' = so_tcp s /\
    let str' := str ++ rcvd_on (so_tcp s) ev in
    (recv_inv s' str' \/ e = E_ENOMEM) /\ (e = 0 -> exists A, so_answer s' = Some A /\ str' = framed (take (Z.to_nat (p_end A)) (p_data A))).

Lemma recv_stop s str x e x' : recv_inv s str -> e <> 0 -> srecord o x' = srecord o x -> recv_post s str x e s x'.
Proof. intros Hi He Hr. exists []. rewrite rcvd_nil, !app_nil_r. split; [done|]. split; [done|]. split; [by left|done]. Qed.
Lemma recv_more s str l x x1 s1 e s' x' : srecord o x1 = srecord o x ++ [SRecv (so_tcp s) l] -> so_tcp s1 = so_tcp s ->
  recv_post s1 (str ++ l) x1 e s' x' -> recv_post s str x e s' x'.
Proof.
  intros Hr Ht (ev & Hev & Ht' & Hp). exists (SRecv (so_tcp s) l :: ev). rewrite Hev, Hr, <- app_assoc. split; [done|]. split; [congruence|].
  rewrite Ht in Hp. change (SRecv (so_tcp s) l :: ev) with ([SRecv (so_tcp s) l] ++ ev). rewrite rcvd_app.
  assert (rcvd_on (so_tcp s) [SRecv (so_tcp s) l] = l) as ->. { unfold rcvd_on. cbn. rewrite Z.eqb_refl. cbn. by rewrite app_nil_r. }
  rewrite app_assoc. exact Hp.
Qed.

Lemma tcp_recv_framed n : forall s str x e s' x', recv_inv s str -> tcp_recv_loop n (so_alen s + 2) s x = Val (e, s', x') -> recv_post s str x e s' x'.
Proof.
  induction n as [|n IH]; intros s str x e s' x' Hi Hc; cbn [tcp_recv_loop] in Hc; [done|]. minv.
  destruct (Z.ltb_spec (so_apos s) (so_alen s + 2)) as [Hlt|Hge].
  - destruct (so_answer s) as [A|] eqn:EA; [|done]. apply SM_bind_Val in Hc as (r & s1 & x1 & (-> & Hr & y & Hy)%so_keptE & Hc). apply ok_recv in Hy as Hl.
    destruct r as [e1|l]; cbn [ev_recv] in Hr; [rewrite app_nil_r in Hr; minv; by apply recv_stop|]. destruct Hl as [Hll Hl].
    destruct (decide (l = [])) as [->|Hne]; [minv|].
    { eapply (recv_more s str [] x _ s); [exact Hr|done|]. rewrite app_nil_r. by apply recv_stop. }
    destruct l as [|c l]; [done|]. set (l1 := c :: l) in *. clearbody l1. minv.
    match goal with Hw : wrn _ _ _ = Val ?buf |- _ => pose proof (recv_chunk s str l1 A buf Hi EA Hlt Hne Hll Hl Hw) as Hch end.
    destruct ((so_alen s =? 0) && _).
    + destruct Hch as (a & b & Ha & Hb & Hab & Ea & Eb). rewrite Ea, Eb, be16_of in Hc by done. minv.
      match goal with Hn : dns_so_newanswer _ _ _ = Val _ |- _ => apply newanswer_got in Hn as (Hx & [[-> ->]|(-> & A1 & ->)]) end.
      { cbn [negb Z.eqb E_ENOMEM] in Hc. minv. match goal with |- recv_post _ _ _ _ ?S _ => eapply (recv_more s str l1 x _ S); [rewrite Hx; exact Hr|done|] end.
        exists []. rewrite rcvd_nil, !app_nil_r. split; [done|]. split; [done|]. split; [by right|done]. } cbn [negb Z.eqb] in Hc. minv.
      match type of Hc with tcp_recv_loop _ _ ?S _ = _ => eapply (recv_more s str l1 x _ S); [rewrite Hx; exact Hr|done|apply (IH S); [|exact Hc]] end. rewrite Hab.
      split; [cbn [so_apos set_answer set_stat]; destruct Hi as [-> _]; by rewrite <- len_app, Hab|]. split; [by apply Forall_cons, (conj Ha), Forall_singleton|]. split; [done|]. eexists. split; [reflexivity|]. right. eexists _, _, [], (p_data A1).
      split; [done|]. split; [done|]. split; [|done]. unfold byte in *. cbn [so_alen set_answer]. rewrite len_nil. lia.
    + match type of Hc with tcp_recv_loop _ _ ?S _ = _ => eapply (recv_more s str l1 x _ S); [exact Hr|done|apply (IH S); [exact Hch|exact Hc]] end.
  - minv. exists []. rewrite rcvd_nil, !app_nil_r. split; [done|]. split; [done|].
    destruct (recv_done _ _ Hi Hge) as (A & HA & Ha & Hstr). destruct Hi as (Hp & Hb & Hpre & A' & HA' & Hd). split.
    + left. split; [done|]. split; [done|]. split; [done|]. eexists. cbn. rewrite HA'. split; [reflexivity|]. exact Hd.
    + intros _. eexists. cbn. rewrite HA. split; [reflexivity|exact Hstr].
Qed.

(** Calls of [dns_so_tcp_recv] until one returns [e], what they receive, and what the
    ones before the last returned; the world may change between two calls. *)
Inductive recvs : dsock -> list Z -> list Z -> Z -> dsock -> Prop :=
  | recvs_one s x e s' x' ev : dns_so_tcp_recv fuel s x = Val (e, s', x') -> srecord o x' = srecord o x ++ ev ->
      recvs s (rcvd_on (so_tcp s) ev) [] e s'
  | recvs_more s x e s1 x1 ev str es e' s' : dns_so_tcp_recv fuel s x = Val (e, s1, x1) -> srecord o x1 = srecord o x ++ ev ->
      recvs s1 str es e' s' -> recvs s (rcvd_on (so_tcp s) ev ++ str) (e :: es) e' s'.

Lemma recvs_framed s str es e s' : recvs s str es e s' -> E_ENOMEM ∉ es -> forall str0, recv_inv s str0 -> e = 0 ->
  exists A, so_answer s' = Some A /\ str0 ++ str = framed (take (Z.to_nat (p_end A)) (p_data A)).
Proof.
  assert (forall s str0 x e s' x' ev, recv_inv s str0 -> dns_so_tcp_recv fuel s x = Val (e, s', x') -> srecord o x' = srecord o x ++ ev ->
    so_tcp s' = so_tcp s /\ (recv_inv s' (str0 ++ rcvd_on (so_tcp s) ev) \/ e = E_ENOMEM) /\
    (e = 0 -> exists A, so_answer s' = Some A /\ str0 ++ rcvd_on (so_tcp s) ev = framed (take (Z.to_nat (p_end A)) (p_data A)))) as Hone.
  { clear -SoOk0. intros s str0 x e s' x' ev Hi Hc Hr. unfold dns_so_tcp_recv in Hc. minv. apply (tcp_recv_framed _ _ _ _ _ _ _ Hi) in Hc as (ev' & Hr' & Ht & Hp).
    rewrite Hr in Hr'. apply app_inv_head in Hr' as ->. done. }
  induction 1 as [s x e s' x' ev Hc Hr|s x e s1 x1 ev str es e' s' Hc Hr _ IH]; intros Hes str0 Hi He.
  - by apply (Hone _ _ _ _ _ _ _ Hi Hc Hr).
  - rewrite app_assoc. apply not_elem_of_cons in Hes as [Hne Hes]. apply IH; [done| |done]. by destruct (Hone _ _ _ _ _ _ _ Hi Hc Hr) as (_ & [|] & _).
Qed.

(** ** Sending *)

(** A call that starts with nothing sent sends the message with its length; one that
    stops before the end has sent the first [so_qout] bytes of it. *)
Lemma tcp_send_sent n Q : forall s x e s' x', 0 <= so_qout s <= p_end Q + 2 -> 0 <= p_end Q -> len (so_qpre s) = 2 ->
  tcp_send_loop n 0 Q s x = Val (e, s', x') ->
  exists ev, srecord o x' = srecord o x ++ ev /\ so_tcp s' = so_tcp s /\ so_qpre s' = so_qpre s /\ so_qout s <= so_qout s' <= p_end Q + 2 /\
    sent_on (so_tcp s) ev = take (Z.to_nat (so_qout s' - so_qout s)) (drop (Z.to_nat (so_qout s)) (so_qpre s ++ p_data Q)) /\
    (e = 0 -> so_qout s' = p_end Q + 2).
Proof.
  induction n as [|n IH]; intros s x e s' x' Hq He Hpre Hc; cbn [tcp_send_loop] in Hc; [done|]. minv.
  destruct (Z.ltb_spec (so_qout s) (p_end Q + 2)) as [Hlt|Hge].
  - apply SM_bind_Val in Hc as (chunk & s1 & x1 & (Hch & -> & ->)%lift_Val & Hc).
    apply SM_bind_Val in Hc as (r & s1 & x2 & (-> & Hr & y & Hy)%so_keptE & Hc). apply ok_send in Hy as Hk.
    destruct r as [e1|k]; cbn [ev_sent] in Hr; minv.
    { exists []. rewrite Hr, Z.sub_diag, app_nil_r. by repeat split; try lia. }
    unfold rdn in Hch. destruct (Z.eqb_spec (p_end Q + 2 - so_qout s) 0); [lia|]. case_match eqn:Hb; [|done]. injection Hch as <-.
    apply andb_prop in Hb as [_ Hb%Z.leb_le]. assert (len (take (Z.to_nat (p_end Q + 2 - so_qout s)) (drop (Z.to_nat (0 + so_qout s)) (so_qpre s ++ p_data Q))) = p_end Q + 2 - so_qout s) as Hlc.
    { revert Hb. unfold len. rewrite length_take, length_drop. lia. }
    rewrite Hlc in Hk. apply IH in Hc as (ev & Hev & Ht & Hp & Hqo & Hs & H0); [|cbn; lia|done|done].
    exists (SSent (so_tcp s) (take (Z.to_nat k) (take (Z.to_nat (p_end Q + 2 - so_qout s)) (drop (Z.to_nat (0 + so_qout s)) (so_qpre s ++ p_data Q)))) :: ev).
    cbn in Hqo, Hs, Hp, Ht. rewrite Hev, Hr, <- app_assoc. repeat split; try done; try lia.
    change (?a :: ev) with ([a] ++ ev). rewrite sent_app, Hs.
    unfold sent_on at 1. cbn [omap list_omap]. rewrite Z.eqb_refl. cbn [mjoin list_join]. rewrite app_nil_r, take_take.
    assert (drop (Z.to_nat (so_qout s + k)) (so_qpre s ++ p_data Q) = drop (Z.to_nat k) (drop (Z.to_nat (so_qout s)) (so_qpre s ++ p_data Q))) as ->.
    { rewrite drop_drop. f_equal. lia. }
    rewrite Z.add_0_l, Nat.min_l by lia. rewrite take_take_drop. f_equal. lia.
  - minv. exists []. rewrite app_nil_r. cbn. rewrite Z.sub_diag. repeat split; lia.
Qed.

(** The bytes of the length. *)
Lemma be16_bytes n : 0 <= n < 65536 -> [Z.land 255 (Z.shiftr n 8); Z.land 255 (Z.shiftr n 0)] = [n / 256; n mod 256].
Proof.
  intros Hn. rewrite !(Z.land_comm 255). change 255 with (Z.ones 8). rewrite !Z.land_ones, Z.shiftr_0_r, Z.shiftr_div_pow2 by lia.
  change (2 ^ 8) with 256. rewrite (Z.mod_small (n / 256)); [done|]. split; [apply Z.div_pos; lia|apply Z.div_lt_upper_bound; lia].
Qed.

Lemma dns_so_tcp_send_sent Q s x e s' x' : so_query s = Some Q -> so_qout s = 0 -> 0 <= p_end Q < 65536 -> p_end Q <= len (p_data Q) ->
  dns_so_tcp_send fuel s x = Val (e, s', x') ->
  exists ev, srecord o x' = srecord o x ++ ev /\
    sent_on (so_tcp s) ev = take (Z.to_nat (so_qout s')) (framed (take (Z.to_nat (p_end Q)) (p_data Q))) /\
    (e = 0 -> sent_on (so_tcp s) ev = framed (take (Z.to_nat (p_end Q)) (p_data Q))).
Proof.
  intros HQ Hq Hend Hlen Hc. unfold dns_so_tcp_send in Hc. minv. rewrite HQ in Hc. minv. rewrite Hq in Hc.
  apply tcp_send_sent in Hc as (ev & Hev & _ & _ & Hqo & Hs & H0); [|cbn; lia|lia|done]. exists ev. split; [done|]. cbn [so_qout set_qout so_qpre so_tcp] in *.
  rewrite Z.sub_0_r, drop_0, be16_bytes in Hs by lia.
  assert (len (take (Z.to_nat (p_end Q)) (p_data Q)) = p_end Q) as El. { revert Hlen. unfold len. rewrite length_take. lia. }
  assert (sent_on (so_tcp s) ev = take (Z.to_nat (so_qout s')) (framed (take (Z.to_nat (p_end Q)) (p_data Q)))) as Hs'.
  { unfold framed. rewrite El, Hs. rewrite <- (take_drop (Z.to_nat (p_end Q)) (p_data Q)) at 1. rewrite app_assoc, take_app_le; [done|].
    rewrite length_app. unfold len in El. cbn. lia. }
  split; [done|]. intros E0. rewrite Hs', (H0 E0). apply take_ge. unfold framed. rewrite length_app. unfold len in El. cbn. lia.
Qed.
End Tcp.
