(* ===== verification/DnsSoThm.v ===== *)
(** What the sockets of libdns guarantee: an answer that is accepted is one to the
    query, no descriptor is lost or closed twice, and messages over TCP keep their
    boundaries. *)

From stdpp Require Import prelude.
From Stdlib Require Import ZArith Lia Permutation.
From S2P Require Import Prelude DnsBase DnsName DnsRr DnsResconf DnsPermutor DnsSo DnsSoSpec DnsSoFd DnsSoTcp.
Local Open Scope Z_scope.

#[local] Existing Instance SM_ret.
#[local] Existing Instance SM_bind.

Section Thm.
Context {o : SoOS} (fuel : nat).
Implicit Types s : dsock.

(** ** The question stays the same *)
Definition ask s := (so_qid s, so_qname s, so_qlen s, so_qtype s, so_qclass s).
Lemma ask_query s s' : same_query s s' -> ask s' = ask s.
Proof. intros []. unfold ask. congruence. Qed.
Lemma ask_answer s s' : same_answer s s' -> ask s' = ask s.
Proof. intros [H _]. by apply ask_query. Qed.

Lemma so_case_ask s x r s' x' : so_case fuel s x = Val (r, s', x') -> ask s' = ask s.
Proof.
  intros Hc. unfold so_case, advance, dns_so_verify in Hc. minv. destruct (so_st s) eqn:Est; minv; try done.
  - dm Hc; done.
  - dm Hc; [|done]. dm Hc; done.
  - dm Hc; [|done]. dm Hc; [done|]. dm Hc; [done|]. dm Hc; done.
  - dm Hc; [|done]. dm Hc; done.
  - match goal with Hk : dns_so_closefd_tcp _ _ = Val _ |- _ => apply closefd_keeps, ask_answer in Hk as <- end. dm Hc; [done|].
    match goal with Hs : dns_socket _ _ _ _ = Val _ |- _ => pose proof (pure_socket _ _ _ _ _ _ _ Hs) as -> end. dm Hc; done.
  - dm Hc; [dm Hc|]; done.
  - match goal with Hk : dns_so_tcp_send _ _ _ = Val _ |- _ => apply dns_so_tcp_send_keeps, ask_answer in Hk as <- end. dm Hc; done.
  - match goal with Hk : dns_so_tcp_recv _ _ _ = Val _ |- _ => unfold dns_so_tcp_recv in Hk; minv; apply tcp_recv_keeps, ask_query in Hk as <- end. dm Hc; done.
  - match goal with Hk : dns_so_closefd_tcp _ _ = Val _ |- _ => apply closefd_keeps, ask_answer in Hk as <- end. dm Hc; [done|].
    dm Hc; [|done]. dm Hc; [done|]. dm Hc; done.
Qed.
Lemma check_ask n : forall s x e s' x', so_check_loop fuel n s x = Val (e, s', x') -> ask s' = ask s.
Proof.
  induction n as [|n IH]; intros s x e s' x' Hc; cbn [so_check_loop] in Hc; [done|]. minv.
  match goal with Hr : so_case _ _ _ = Val _ |- _ => apply so_case_ask in Hr as <- end.
  case_match; minv; try done; by eapply IH.
Qed.
Lemma checks_ask s e s' : checks fuel s e s' -> ask s' = ask s.
Proof. induction 1 as [s x e s' x' Hc|s x e s1 x1 e' s' Hc _ IH]; apply check_ask in Hc; [done|congruence]. Qed.

(** ** Answers *)

(** [A] answers [Q] under the identifier [q]: the same identifier and the same
    question, in type, class and name. *)
Definition answers (q : Z) (Q A : packet) : Prop :=
  header_qid A = Val q /\
  exists rq ra tq ta, dns_rr_parse 0 12 Q = Val (inr rq) /\ dns_rr_parse 0 12 A = Val (inr ra) /\
    rr_type ra = rr_type rq /\ rr_class ra = rr_class rq /\
    dns_d_expand fuel (rr_dn_p rq) Q = Val (inr tq) /\ dns_d_expand fuel (rr_dn_p ra) A = Val (inr ta) /\
    len tq = len ta /\ len ta < 256 /\ strcasecmp tq ta = 0.

(** A query that was taken: what the socket asks, or nothing where the name is empty. *)
Lemma submit_ask Q host s x Q' s' x' : dns_so_submit fuel Q host s x = Val ((0, Q'), s', x') ->
  so_st s' = SO_NONE \/
  exists q rr t, dns_rr_parse 0 12 Q = Val (inr rr) /\ dns_d_expand fuel (rr_dn_p rr) Q = Val (inr t) /\ header_qid Q' = Val q /\
    ask s' = (q, cbuf 256 t, len t, rr_type rr, rr_class rr).
Proof.
  intros Hc. unfold dns_so_submit, so_fail, dns_so_reset in Hc. minv. dm Hc; [by left|]. dm Hc; [by left|]. dm Hc; [by left|].
  dm Hc; [by left|]. right. eexists _, _, _. split; [eassumption|]. split; [eassumption|]. split; [eassumption|done].
Qed.
Lemma checks_none s e s' : checks fuel s e s' -> so_st s = SO_NONE -> e = DNS_EUNKNOWN /\ so_st s' = SO_NONE.
Proof.
  assert (forall s x e s' x', so_st s = SO_NONE -> dns_so_check fuel s x = Val (e, s', x') -> e = DNS_EUNKNOWN /\ s' = s) as Hone.
  { clear s e s'. intros s x e s' x' Hst Hc. unfold dns_so_check in Hc. destruct fuel as [|n]; cbn [so_check_loop] in Hc; [done|]. unfold so_case in Hc. minv.
    match goal with Hr : (match so_st s with _ => _ end) _ _ = _ |- _ => rewrite Hst in Hr end. minv.
    change (so_error DNS_EUNKNOWN) with (Return DNS_EUNKNOWN) in Hc. by minv. }
  induction 1 as [s x e s' x' Hc|s x e s1 x1 e' s' Hc _ IH]; intros Hst; apply (Hone _ _ _ _ _ Hst) in Hc as [-> ->]; auto.
Qed.

Lemma accepted_answers s q Q A rr t : so_verify fuel s = Val 0 -> so_answer s = Some A ->
  ask s = (q, cbuf 256 t, len t, rr_type rr, rr_class rr) -> dns_rr_parse 0 12 Q = Val (inr rr) ->
  dns_d_expand fuel (rr_dn_p rr) Q = Val (inr t) -> answers q Q A.
Proof.
  assert (Val DNS_EUNKNOWN = Val 0 -> False) as Hu by (by vm_compute). intros Hv HA [= Eq En El Et Ec] Hp Ht. unfold so_verify in Hv. rewrite HA, Eq, En, El, Et, Ec in Hv.
  destruct (header_qid A) as [q'| |] eqn:Eh; try done. cbn [mbind out_bind negb orb] in Hv. destruct (Z.eqb_spec q q') as [<-|]; [|by destruct (Hu Hv)]. cbn [mbind out_bind negb orb] in Hv.
  destruct (dns_p_count A DNS_S_QD) as [n| |]; try done. cbn [mbind out_bind negb orb] in Hv. destruct (n =? 0); [by destruct (Hu Hv)|].
  destruct (dns_rr_parse 0 12 A) as [[?|ra]| |] eqn:Ea; [by destruct (Hu Hv)| |done..]. cbn [mbind out_bind negb orb] in Hv.
  destruct (Z.eqb_spec (rr_type ra) (rr_type rr)); [|by destruct (Hu Hv)]. destruct (Z.eqb_spec (rr_class ra) (rr_class rr)); [|by destruct (Hu Hv)]. cbn [mbind out_bind negb orb] in Hv.
  destruct (dns_d_expand fuel (rr_dn_p ra) A) as [[er|ta]| |] eqn:Eta; try done; cbn [mbind out_bind negb orb] in Hv.
  { by destruct er. }
  destruct ta as [|b ta]; [done|]. set (ta' := b :: ta) in *. destruct (Z.leb_spec 256 (len ta')); [by destruct (Hu Hv)|]. cbn [mbind out_bind negb orb] in Hv.
  destruct (Z.eqb_spec (len ta') (len t)) as [E2|]; [|by destruct (Hu Hv)]. cbn [mbind out_bind negb orb] in Hv. destruct (Z.eqb_spec (strcasecmp (cbuf 256 t) ta') 0) as [E3|]; [|by destruct (Hu Hv)].
  split; [done|]. exists rr, ra, t, ta'. rewrite cbuf_fits in E3 by lia. done.
Qed.

Context `{!SoOk o}.

(** C6: an answer that a socket hands over is one to its query. However many calls
    of [dns_so_check] it takes and whatever arrives on the descriptors meanwhile,
    when one of them returns 0 the answer has the identifier that was sent and
    repeats the question: its type, its class and its name up to case. *)
Theorem so_accepts_only_answers Q host s x Q' s0 x0 s' :
  dns_so_submit fuel Q host s x = Val ((0, Q'), s0, x0) -> checks fuel s0 0 s' ->
  exists q A, header_qid Q' = Val q /\ so_answer s' = Some A /\ 12 <= p_end A /\ answers q Q A.
Proof.
  intros Hs Hc. destruct (submit_ask _ _ _ _ _ _ _ Hs) as [Hst|(q & rr & t & Hp & Ht & Hq & Ha)].
  { by destruct (checks_none _ _ _ Hc Hst). }
  destruct (checks_inv _ _ _ _ Hc (submit_inv _ _ _ _ _ _ _ _ _ Hs)) as [_ [[Hv (A & HA & H12)] _]]; [done|].
  exists q, A. rewrite <- (checks_ask _ _ _ Hc) in Ha. repeat split_and; try done; by eapply accepted_answers.
Qed.
End Thm.

(** ** Descriptors *)

Section Descriptors.
Context (o : SoOS) `{!SoOk o} (fuel : nat).
#[local] Instance lo : SoOS := slogged o.

(** C9: no descriptor is lost and none is closed twice. From [dns_so_init], through
    any sequence of queries, checks, fetches, clears and resets, the descriptors
    that were opened are, as a multiset, those closed so far and those the socket
    still holds; [dns_so_destroy] always returns, and then every one of them has been
    closed exactly as often as it was opened. *)
Theorem descriptors_accounted local type ops s x r s1 x1 s2 x2 : @so_closefd_cb o = None ->
  @dns_so_init lo local type s (x, []) = Val (r, s1, x1) -> so_ops o fuel ops s1 x1 = Val (tt, s2, x2) ->
  opened (srecord o x2) ≡ₚ closed (srecord o x2) ++ held s2 /\
  exists s3 x3, @dns_so_destroy lo s2 x2 = Val (tt, s3, x3) /\ opened (srecord o x3) ≡ₚ closed (srecord o x3).
Proof.
  intros Hcb Hi Ho. apply (init_ledger o) in Hi as [Hl _]; [|done]. apply (so_ops_ledger o Hcb fuel ops [] _ _ Hl) in Ho.
  split; [exact Ho|]. destruct (destroy_returns s2 x2) as ([] & s3 & x3 & Hd). exists s3, x3. split; [done|].
  destruct (destroy_ledger o [] _ _ Ho _ _ _ Hd) as [Hl3 Hh]. unfold ledger in Hl3. by rewrite Hh, !app_nil_r in Hl3.
Qed.
End Descriptors.

(** ** Messages over TCP *)

Section Messages.
Context (o : SoOS) `{!SoOk o} (fuel : nat).
#[local] Instance lo' : SoOS := slogged o.

(** C26: a query goes out over TCP as its length in two bytes followed by its bytes,
    however the system splits it: when [dns_so_tcp_send], started with nothing sent,
    returns 0 it has sent exactly that, and when it stops earlier it has sent the
    first [qout] bytes of it. *)
Theorem tcp_query_framed Q s x e s' x' : so_query s = Some Q -> so_qout s = 0 -> 0 <= p_end Q < 65536 -> p_end Q <= len (p_data Q) ->
  dns_so_tcp_send fuel s x = Val (e, s', x') ->
  exists ev, srecord o x' = srecord o x ++ ev /\
    sent_on (so_tcp s) ev = take (Z.to_nat (so_qout s')) (framed (take (Z.to_nat (p_end Q)) (p_data Q))) /\
    (e = 0 -> sent_on (so_tcp s) ev = framed (take (Z.to_nat (p_end Q)) (p_data Q))).
Proof. intros. by eapply dns_so_tcp_send_sent. Qed.

(** C19: an answer is put together from the parts in which it arrives over TCP.
    Calls of [dns_so_tcp_recv] on a fresh answer, each receiving any number of parts
    of any size, add up to the message: when one returns 0, the bytes received are
    the length of the answer followed by the answer. None of the calls before it may have
    run out of memory: after that an empty answer is reported ([memory_lost_empty_answer]). *)
Theorem tcp_answer_assembled s str es s' :
  so_apos s = 0 -> so_alen s = 0 -> len (so_apre s) = 2 -> so_answer s <> None -> recvs o fuel s str es 0 s' -> E_ENOMEM ∉ es ->
  exists A, so_answer s' = Some A /\ str = framed (take (Z.to_nat (p_end A)) (p_data A)).
Proof.
  intros Hp Ha Hpre HA Hr Hes. destruct (so_answer s) as [A|] eqn:EA; [|done].
  eapply (recvs_framed o fuel _ _ _ _ _ Hr Hes []); [|done]. split; [done|]. split; [done|]. split; [done|]. exists A. split; [done|]. left.
  split; [done|]. split; [done|]. by eexists.
Qed.

(** A call that starts after [k] bytes begins at the byte [2 k]. *)
Lemma tcp_resume_skips Q s x : so_query s = Some Q -> 0 < so_qout s < p_end Q + 2 -> len (p_data Q) < p_end Q + so_qout s ->
  (0 < fuel)%nat -> dns_so_tcp_send fuel s x = UB.
Proof.
  intros HQ Hk Hlen Hf. unfold dns_so_tcp_send. rewrite SM_bindE. cbn [get]. rewrite HQ, SM_bindE. cbn [put_so]. destruct fuel as [|n]; [lia|].
  cbn [tcp_send_loop]. rewrite SM_bindE. cbn [get so_qout set_qout]. destruct (Z.ltb_spec (so_qout s) (p_end Q + 2)); [|lia].
  rewrite SM_bindE. unfold lift, rdn. destruct (Z.eqb_spec (p_end Q + 2 - so_qout s) 0); [lia|]. cbn [so_qpre set_qout].
  destruct (Z.leb_spec (so_qout s + so_qout s + (p_end Q + 2 - so_qout s)) (len ([Z.land 255 (Z.shiftr (p_end Q) 8); Z.land 255 (Z.shiftr (p_end Q) 0)] ++ p_data Q))) as [Hle|];
    [|by rewrite andb_false_r]. autorewrite with len in Hle. lia.
Qed.
End Messages.

Module SoWitnesses.

(** A system that numbers its descriptors from 3, takes what is sent and delivers
    the messages of a list. *)
Record world := World { w_next : Z; w_in : list (list Z) }.
Definition demo_recv (fd n : Z) (x : world) : world * (Z + list Z) :=
  match w_in x with
  | [] => (x, inl E_EAGAIN)
  | m :: l => if n <? 0 then (x, inl 22) else (World (w_next x) l, inr (take (Z.to_nat n) (filter byte m)))
  end.
Definition demo_os : SoOS := {|
  sos := world;
  so_socket f t x := (World (w_next x + 1) (w_in x), if w_next x <? 0 then inl 24 else inr (w_next x));
  so_setfd fd x := (x, inr tt);
  so_getfl fd x := (x, inr 2);
  so_setfl fd l x := (x, inr tt);
  so_bind fd a x := (x, inr tt);
  so_connect fd a x := (x, inr tt);
  so_send fd d x := (x, inr (len d));
  so_recv := demo_recv;
  so_close fd x := (x, tt);
  so_now x := (x, 1000);
  so_random x := (x, 7);
  so_realloc d n x := (x, Some (take (Z.to_nat n) (d ++ replicate (Z.to_nat n) 0)));
  so_realloc_old n x := (x, true);
  so_closefd_cb := None |}.
#[local] Existing Instance demo_os.
Definition demo_query : packet :=
  Packet (replicate 16 0) (Memo 0 0) (Memo 0 0) (Memo 0 0) (Memo 0 0) 19 19 [7; 1; 1; 0; 0; 1; 0; 0; 0; 0; 0; 0; 1; 97; 0; 0; 1; 0; 1].
Definition demo_answer : list Z := [7; 1; 129; 128; 0; 1; 0; 0; 0; 0; 0; 0; 1; 65; 0; 0; 1; 0; 1].
Definition demo_stray : list Z := [8; 1; 129; 128; 0; 1; 0; 0; 0; 0; 0; 0; 1; 65; 0; 0; 1; 0; 1].
Definition demo_host : sockaddr_storage := SS AF_INET 53 [10; 0; 0; 1] [].

#[local] Instance demo_ok : SoOk demo_os.
Proof.
  split; cbn; intros *; unfold demo_recv; try done.
  - intros _ _ x x' r. destruct (Z.ltb_spec (w_next x) 0); intros [= <- <-]; [done|lia].
  - intros _ d x x' r [= <- <-]. pose proof (len_nonneg d). lia.
  - destruct (w_in x) as [|b l]; [by intros [= <- <-]|]. destruct (Z.ltb_spec n 0); intros [= <- <-]; [done|].
    split; [|apply Forall_take, Forall_forall; intros b' Hb; by apply list_elem_of_filter in Hb as []].
    unfold len. rewrite length_take. lia.
  - intros [= <- <-]. unfold len, nthz. rewrite length_take, length_app, length_replicate.
    split; [lia|]. intros i Hi. rewrite !nth_lookup, lookup_take_lt, lookup_app_l by lia. done.
Qed.

Definition fuel : nat := 60.
Definition sock_of {A W} (r : out (A * dsock * W)) : dsock := match r with Val (_, s, _) => s | _ => so_initializer end.
Definition packet_of {W} (r : out (Z * packet * dsock * W)) : packet := match r with Val ((_, Q), _, _) => Q | _ => demo_query end.

(** The socket after the query, and after a stray datagram and the answer. *)
Definition demo_submitted := dns_so_submit fuel demo_query demo_host (set_fds so_initializer 3 (-1) [] 0) (World 4 []).
Definition demo_checked := dns_so_check fuel (sock_of demo_submitted) (World 4 [demo_stray; demo_answer]).

(** The instance of the claim above. *)
Lemma so_accepts_only_answers_witness :
  dns_so_submit fuel demo_query demo_host (set_fds so_initializer 3 (-1) [] 0) (World 4 []) = Val ((0, demo_query), sock_of demo_submitted, World 4 []) /\
  checks fuel (sock_of demo_submitted) 0 (sock_of demo_checked) /\
  exists q A, header_qid demo_query = Val q /\ so_answer (sock_of demo_checked) = Some A /\ 12 <= p_end A /\ answers fuel q demo_query A.
Proof.
  assert (dns_so_submit fuel demo_query demo_host (set_fds so_initializer 3 (-1) [] 0) (World 4 []) = Val ((0, demo_query), sock_of demo_submitted, World 4 [])) as Hs
    by (vm_compute; reflexivity).
  assert (checks fuel (sock_of demo_submitted) 0 (sock_of demo_checked)) as Hc.
  { eapply (@checks_one demo_os fuel _ (World 4 [demo_stray; demo_answer]) _ _ (World 4 [])). vm_compute. reflexivity. }
  split; [exact Hs|]. split; [exact Hc|]. exact (so_accepts_only_answers fuel _ _ _ _ _ _ _ _ Hs Hc).
Defined.

(** A run with a query, a check that finds nothing, one that finds the answer, and
    what is left to do. *)
Definition demo_ops : list so_op :=
  [OpSubmit demo_query demo_host; OpCheck; OpFetch; OpElapsed; OpClear; OpReset].
Definition demo_init := @dns_so_init (slogged demo_os) None SOCK_STREAM so_initializer (World 3 [[0]; [19]; demo_answer], []).
Definition demo_ran := so_ops demo_os fuel demo_ops (sock_of demo_init) (World 4 [[0]; [19]; demo_answer], [SOpen 3]).
Definition demo_world : @sos (slogged demo_os) :=
  (World 5 [], [SOpen 3; SOpen 4; SSent 4 (0 :: 19 :: p_data demo_query); SRecv 4 [0]; SRecv 4 [19]; SRecv 4 demo_answer; SClose 4]).

(** The instance of the claim above. *)
Lemma descriptors_accounted_witness :
  opened (srecord demo_os demo_world) ≡ₚ closed (srecord demo_os demo_world) ++ held (sock_of demo_ran) /\
  exists s3 x3, @dns_so_destroy (slogged demo_os) (sock_of demo_ran) demo_world = Val (tt, s3, x3) /\
    opened (srecord demo_os x3) ≡ₚ closed (srecord demo_os x3).
Proof.
  apply (descriptors_accounted demo_os fuel None SOCK_STREAM demo_ops so_initializer (World 3 [[0]; [19]; demo_answer]) None
    (sock_of demo_init) (World 4 [[0]; [19]; demo_answer], [SOpen 3])); [reflexivity|vm_compute; reflexivity|vm_compute; reflexivity].
Defined.

Definition demo_tcp : dsock := set_fds (set_query (sock_of demo_submitted) demo_host 7 [97; 46] 2 1 1 (Some demo_query) 0) 3 6 [] 0.
Definition demo_sent := @dns_so_tcp_send (slogged demo_os) fuel demo_tcp (World 7 [], []).
(** The instance of the claim above. *)
Lemma tcp_query_framed_witness : exists ev,
  [SSent 6 (0 :: 19 :: p_data demo_query)] = [] ++ ev /\
  sent_on 6 ev = take (Z.to_nat 21) (framed (take (Z.to_nat 19) (p_data demo_query))) /\
  (0 = 0 -> sent_on 6 ev = framed (take (Z.to_nat 19) (p_data demo_query))).
Proof.
  apply (tcp_query_framed demo_os fuel demo_query demo_tcp (World 7 [], []) 0 (sock_of demo_sent) (World 7 [], [SSent 6 (0 :: 19 :: p_data demo_query)]));
    [reflexivity|reflexivity|done|done|vm_compute; reflexivity].
Defined.

(** The answer arrives in three parts; after the second there is nothing to read yet. *)
Definition demo_got1 := @dns_so_tcp_recv (slogged demo_os) fuel demo_tcp (World 7 [[0]; [19]], []).
Definition demo_got2 := @dns_so_tcp_recv (slogged demo_os) fuel (sock_of demo_got1) (World 7 [demo_answer], []).
(** The instance of the claim above. *)
Lemma tcp_answer_assembled_witness : exists A, so_answer (sock_of demo_got2) = Some A /\
  [0; 19] ++ demo_answer = framed (take (Z.to_nat (p_end A)) (p_data A)).
Proof.
  apply (tcp_answer_assembled demo_os fuel demo_tcp ([0; 19] ++ demo_answer) [E_EAGAIN] (sock_of demo_got2)); [done..| |].
  - apply (recvs_more demo_os fuel demo_tcp (World 7 [[0]; [19]], []) E_EAGAIN (sock_of demo_got1) (World 7 [], [SRecv 6 [0]; SRecv 6 [19]])
      [SRecv 6 [0]; SRecv 6 [19]]); [vm_compute; reflexivity|reflexivity|].
    apply (recvs_one demo_os fuel (sock_of demo_got1) (World 7 [demo_answer], []) 0 (sock_of demo_got2) (World 7 [], [SRecv 6 demo_answer])
      [SRecv 6 demo_answer]); [vm_compute; reflexivity|reflexivity].
  - intros Hin. apply list_elem_of_singleton in Hin. discriminate Hin.
Defined.

(** The same system without memory: the length has arrived, and the call fails. The
    next one reports an answer of no bytes. *)
Definition poor_os : SoOS := {|
  sos := world; so_socket := @so_socket demo_os; so_setfd := @so_setfd demo_os; so_getfl := @so_getfl demo_os; so_setfl := @so_setfl demo_os;
  so_bind := @so_bind demo_os; so_connect := @so_connect demo_os; so_send := @so_send demo_os; so_recv := @so_recv demo_os; so_close := @so_close demo_os;
  so_now := @so_now demo_os; so_random := @so_random demo_os; so_realloc d n x := (x, None); so_realloc_old := @so_realloc_old demo_os;
  so_closefd_cb := @so_closefd_cb demo_os |}.
Definition poor_got := @dns_so_tcp_recv poor_os fuel demo_tcp (World 7 [[0; 19]; demo_answer]).
Example memory_lost_empty_answer : exists x1 s2 x2 A,
  poor_got = Val (E_ENOMEM, sock_of poor_got, x1) /\ @dns_so_tcp_recv poor_os fuel (sock_of poor_got) x1 = Val (0, s2, x2) /\
  so_answer s2 = Some A /\ p_end A = 0.
Proof. do 4 eexists. split_and!; vm_compute; reflexivity. Qed.
End SoWitnesses.
