(* ===== verification/DnsRes.v ===== *)
(** libdns: the resolver (dns.c, "R E S O L V E R  R O U T I N E S").

    [struct dns_resolver] is the record [res] with its stack of eight frames; the
    socket is that of DnsSo. The configuration, the hosts and the hints are shared
    with others and are only read while a query is resolved: they are the record
    [env]. A routine is a computation in the monad [RM]; a null pointer that is
    followed, or an assertion that fails, is the value [RNull], apart from what is
    undefined within a packet ([UB]). *)

From stdpp Require Import prelude.
From Stdlib Require Import ZArith Lia.
From S2P Require Import Prelude DnsBase DnsName DnsRr DnsRdata DnsPacket DnsResconf DnsHosts DnsHints DnsPermutor DnsSo.
Local Open Scope Z_scope.

Inductive res_state :=
  | R_INIT | R_GLUE | R_SWITCH | R_FILE
  | R_CACHE | R_SUBMIT | R_CHECK | R_FETCH
  | R_BIND | R_SEARCH | R_HINTS | R_ITERATE | R_FOREACH_NS | R_RESOLV0_NS | R_RESOLV1_NS
  | R_FOREACH_A | R_QUERY_A | R_CNAME0_A | R_CNAME1_A
  | R_FINISH | R_SMART0_A | R_SMART1_A | R_DONE | R_SERVFAIL.
#[export] Instance res_state_eq_dec : EqDecision res_state.
Proof. solve_decision. Defined.

Definition DNS_R_MAXDEPTH : Z := 8.
Definition E_ETIMEDOUT : Z := 110.
Definition E_EINVAL : Z := 22.
Definition DNS_RC_SERVFAIL : Z := 2.

(** [state] and [saved] of an iterator: where it is, the count, whether it was
    started, and the seed. *)
Definition istate : Type := Z * Z * Z * Z.
Definition istate0 : istate := (0, 0, 0, 0).
Definition state_of (i : rr_i) : istate := (st_next i, st_count i, st_exec i, st_reg0 i).
Definition with_state (i : rr_i) (s : istate) : rr_i := let '(n, c, x, r) := s in set_state i n c x r.
Definition rr_i0 : rr_i := RrI 0 None 0 0 None SortNone 0 0 0 0.
Definition rr0 : rr := RR 0 0 0 0 0 0 0 0.

(** [struct dns_res_frame]; its field [error] is never used. *)
Record frame := Frame {
  f_state : res_state;
  f_which : Z; f_attempts : Z;
  f_query : option packet; f_answer : option packet; f_hints : option packet;
  f_hints_i : rr_i; f_saved : istate; f_hints_j : rr_i;
  f_hints_ns : rr; f_ans_cname : rr }.
Definition frame0 : frame := Frame R_INIT 0 0 None None None rr_i0 istate0 rr_i0 rr0 rr0.
Definition set_fstate (f : frame) s :=
  Frame s (f_which f) (f_attempts f) (f_query f) (f_answer f) (f_hints f) (f_hints_i f) (f_saved f) (f_hints_j f) (f_hints_ns f) (f_ans_cname f).
Definition set_which (f : frame) w :=
  Frame (f_state f) w (f_attempts f) (f_query f) (f_answer f) (f_hints f) (f_hints_i f) (f_saved f) (f_hints_j f) (f_hints_ns f) (f_ans_cname f).
Definition set_tries (f : frame) a :=
  Frame (f_state f) (f_which f) a (f_query f) (f_answer f) (f_hints f) (f_hints_i f) (f_saved f) (f_hints_j f) (f_hints_ns f) (f_ans_cname f).
Definition set_fquery (f : frame) q :=
  Frame (f_state f) (f_which f) (f_attempts f) q (f_answer f) (f_hints f) (f_hints_i f) (f_saved f) (f_hints_j f) (f_hints_ns f) (f_ans_cname f).
Definition set_fanswer (f : frame) a :=
  Frame (f_state f) (f_which f) (f_attempts f) (f_query f) a (f_hints f) (f_hints_i f) (f_saved f) (f_hints_j f) (f_hints_ns f) (f_ans_cname f).
Definition set_fhints (f : frame) h :=
  Frame (f_state f) (f_which f) (f_attempts f) (f_query f) (f_answer f) h (f_hints_i f) (f_saved f) (f_hints_j f) (f_hints_ns f) (f_ans_cname f).
Definition set_hints_i (f : frame) i sv :=
  Frame (f_state f) (f_which f) (f_attempts f) (f_query f) (f_answer f) (f_hints f) i sv (f_hints_j f) (f_hints_ns f) (f_ans_cname f).
Definition set_hints_j (f : frame) j :=
  Frame (f_state f) (f_which f) (f_attempts f) (f_query f) (f_answer f) (f_hints f) (f_hints_i f) (f_saved f) j (f_hints_ns f) (f_ans_cname f).
Definition set_hints_ns (f : frame) r :=
  Frame (f_state f) (f_which f) (f_attempts f) (f_query f) (f_answer f) (f_hints f) (f_hints_i f) (f_saved f) (f_hints_j f) r (f_ans_cname f).
Definition set_ans_cname (f : frame) r :=
  Frame (f_state f) (f_which f) (f_attempts f) (f_query f) (f_answer f) (f_hints f) (f_hints_i f) (f_saved f) (f_hints_j f) (f_hints_ns f) r.

Record env := Env { e_conf : resolv_conf; e_hosts : hosts; e_hints : hints }.

(** [r_qname] is the text in the buffer of 256 bytes, [r_qlen] the length that the
    caller's name had. *)
Record res := Res {
  r_so : dsock; r_refcount : Z;
  r_qname : list Z; r_qlen : Z; r_qtype : Z; r_qclass : Z; r_began : Z;
  r_search : Z; r_smart : rr_i;
  r_stack : list frame; r_sp : nat }.
Definition set_so (r : res) s := Res s (r_refcount r) (r_qname r) (r_qlen r) (r_qtype r) (r_qclass r) (r_began r) (r_search r) (r_smart r) (r_stack r) (r_sp r).
Definition set_rsearch (r : res) v := Res (r_so r) (r_refcount r) (r_qname r) (r_qlen r) (r_qtype r) (r_qclass r) (r_began r) v (r_smart r) (r_stack r) (r_sp r).
Definition set_smart_i (r : res) i := Res (r_so r) (r_refcount r) (r_qname r) (r_qlen r) (r_qtype r) (r_qclass r) (r_began r) (r_search r) i (r_stack r) (r_sp r).
Definition set_stack (r : res) st sp := Res (r_so r) (r_refcount r) (r_qname r) (r_qlen r) (r_qtype r) (r_qclass r) (r_began r) (r_search r) (r_smart r) st sp.
Definition set_count (r : res) n := Res (r_so r) n (r_qname r) (r_qlen r) (r_qtype r) (r_qclass r) (r_began r) (r_search r) (r_smart r) (r_stack r) (r_sp r).

Section Glue.
Context (fuel : nat) (junk seed : Z).
(** Records of a section, by name and type. *)
Definition named (section : Z) (name : list Z) (type : Z) : rr_i := RrI section (Some name) type 0 None SortNone 0 0 0 0.
Definition typed (section type : Z) : rr_i := RrI section None type 0 None SortNone 0 0 0 0.
Definition NOT_QD : Z := Z.land DNS_S_ALL (Z.lnot DNS_S_QD).

(** ** dns_res_nameserv_cmp

    [x.dn.p] stays what it was ([junk]) where the record cannot be parsed. *)
Definition glued (r : rr) (P : packet) : out (bool * Z) :=
  a ← dns_ns_parse fuel r P;
  match a with
  | inr (AnyNS host) =>
      '(rs, _, _) ← dns_rr_grep fuel junk seed 1 (named NOT_QD host DNS_T_A) P;
      match rs with x :: _ => Val (true, rr_dn_p x) | [] => Val (false, 0) end
  | _ => Val (false, w16 junk)
  end.
Definition dns_res_nameserv_cmp (arg0 : Z) (a b : rr) (reg0 : Z) (P : packet) : out Z :=
  '(ga, xp) ← glued a P;
  '(gb, yp) ← glued b P;
  let cmp := Z.b2z gb - Z.b2z ga in
  if negb (cmp =? 0) then Val cmp
  else
    let cmp := Z.b2z (yp <? arg0) - Z.b2z (xp <? arg0) in
    if negb (cmp =? 0) then Val cmp else Val (dns_rr_i_shuffle a b reg0).

(** ** dns_res_merge *)
Fixpoint merge_new (M : packet) (rs : list rr) (B : packet) : out pushed_res :=
  match rs with
  | [] => ok M
  | r :: rs' =>
      ms ← foreach fuel junk seed (steps M) (typed NOT_QD (rr_type r)) M;
      k ← known fuel junk r B ms M;
      if (k : bool) then merge_new M rs' B
      else
        '(M', e) ← dns_rr_copy fuel M r B;
        match e with None => merge_new M' rs' B | Some e => fail M' e end
  end.
Fixpoint merge_parts (M : packet) (l : list (Z * packet)) : out pushed_res :=
  match l with
  | [] => ok M
  | (s, B) :: l' =>
      rs ← foreach fuel junk seed (steps B) (of_section s) B;
      '(M', e) ← merge_new M rs B;
      match e with None => merge_parts M' l' | Some e => fail M' e end
  end.
Fixpoint res_merge_loop (n : nat) (malloc : Z -> option (list Z)) (bufsiz : Z) (P0 P1 : packet) : out (dns_error + packet) :=
  match n with
  | O => Loop
  | S n' =>
      match dns_p_make malloc bufsiz with
      | None => Val (inl DNS_ESYSTEM)
      | Some M =>
          rs ← foreach fuel junk seed (steps P0) (of_section DNS_S_QD) P0;
          '(M, e) ← copy_all fuel M rs P0;
          match e with
          | Some e => Val (inl e)
          | None =>
              '(M, e) ← merge_parts M [(DNS_S_AN, P0); (DNS_S_AN, P1); (DNS_S_NS, P0); (DNS_S_NS, P1); (DNS_S_AR, P0); (DNS_S_AR, P1)];
              match e with
              | None => Val (inr M)
              | Some e =>
                  if bool_decide (e = DNS_ENOBUFS) && (bufsiz <? 65535)
                  then res_merge_loop n' malloc (Z.max 65535 (bufsiz * 2)) P0 P1
                  else Val (inl e)
              end
          end
      end
  end.
(** The second attempt has 65535 bytes or more: there is no third. *)
Definition dns_res_merge (malloc : Z -> option (list Z)) (P0 P1 : packet) : out (dns_error + packet) :=
  res_merge_loop 2 malloc (p_end P0 + p_end P1) P0 P1.

(** ** dns_res_glue *)
Fixpoint copy_answers (P : packet) (l : list (option packet)) (qname : list Z) (type : Z) : out pushed_res :=
  match l with
  | [] => ok P
  | None :: l' => copy_answers P l' qname type
  | Some A :: l' =>
      rs ← foreach fuel junk seed (steps A) (named NOT_QD qname type) A;
      '(P', e) ← copy_all fuel P (flip set_section DNS_S_AN <$> rs) A;
      match e with None => copy_answers P' l' qname type | Some e => fail P' e end
  end.
(** [answers] are those of the frames up to the top. *)
Definition dns_res_glue (malloc : Z -> option (list Z)) (answers : list (option packet)) (Q : packet) : out (option packet) :=
  match dns_p_init (Some (replicate 512 0)) with
  | None => UB
  | Some P =>
      t ← dns_d_expand fuel 12 Q;
      match t with
      | inl _ | inr [] => Val None
      | inr qname =>
          if 256 <=? len qname then Val None
          else
            qtype ← dns_rr_type 12 Q;
            if qtype =? 0 then Val None
            else
              '(P, e) ← dns_p_push fuel P DNS_S_QD (cstr qname) qtype DNS_C_IN 0 (AnyA 0);
              match e with
              | Some _ => Val None
              | None =>
                  let copy P := match dns_p_make malloc (p_end P) with None => Val None | Some A => A ← dns_p_copy A P; Val (Some A) end in
                  '(P, e) ← copy_answers P answers qname qtype;
                  match e with
                  | Some _ => Val None
                  | None =>
                      n ← dns_p_count P DNS_S_AN;
                      if 0 <? n then copy P
                      else
                        '(P, e) ← copy_answers P answers qname DNS_T_CNAME;
                        match e with
                        | Some _ => Val None
                        | None => n ← dns_p_count P DNS_S_AN; if n =? 0 then Val None else copy P
                        end
                  end
              end
      end
  end.

(** Bits of the header. *)
Definition set_bits (P : packet) (i : Z) (f : Z -> Z) : out packet := b ← rd (p_data P) i; d ← wr (p_data P) i (f b); Val (set_data P d).
Definition set_rd (P : packet) (v : bool) : out packet := set_bits P 2 (fun b => Z.lor (Z.land b 254) (Z.b2z v)).
Definition set_rcode (P : packet) (c : Z) : out packet := set_bits P 3 (fun b => Z.lor (Z.land b 240) c).
Definition header_aa (P : packet) : out bool := b ← rd (p_data P) 2; Val (Z.testbit b 2).

Definition dns_res_mkquery (malloc : Z -> option (list Z)) (recurse_ : bool) (qname : list Z) (qtype qclass : Z) : out (dns_error + packet) :=
  match dns_p_init (malloc (DNS_P_QBUFSIZ - DNS_P_DATAOFF)) with
  | None => Val (inl DNS_ESYSTEM)
  | Some Q =>
      '(Q, e) ← dns_p_push fuel Q DNS_S_QD qname qtype qclass 0 (AnyA 0);
      match e with
      | Some e => Val (inl e)
      | None => Q ← set_rd Q (negb recurse_); Val (inr Q)
      end
  end.
End Glue.

(** ** The world of a resolver

    What a socket needs, and: the memory that [malloc] and [realloc] give for the
    data of packets during a routine, the first number other than 0 that
    [dns_random] returns, the numbers drawn for the zones of hints, whether
    there is memory for a resolver, and [select]. *)
Class ResOS (o : SoOS) := {
  res_malloc : sos -> sos * (Z -> option (list Z));
  res_realloc : sos -> sos * (list Z -> Z -> option (list Z));
  res_seed : sos -> sos * Z;
  res_rnd : sos -> sos * (list Z -> list Z);
  res_alloc : sos -> sos * bool;
  res_select : Z -> Z -> Z -> sos -> sos * unit;
}.

(** [struct dns_cache]: the callbacks of the application. *)
Record cache {o : SoOS} := Cache {
  ca_query : packet -> sos -> sos * (option packet * Z);
  ca_submit : packet -> sos -> sos * Z;
  ca_check : sos -> sos * Z;
  ca_fetch : sos -> sos * (option packet * Z);
  ca_acquire : sos -> sos * Z; ca_release : sos -> sos * Z;
  ca_pollfd : sos -> sos * Z; ca_events : sos -> sos * Z; ca_clear : sos -> sos * unit }.
Arguments cache _ : clear implicits.

(** The callbacks that [dns_cache_init] sets: there is never an answer. Where they
    leave [error] alone, the resolver has set it to 0. *)
Definition dns_cache_init {o : SoOS} : cache o := {|
  ca_query _ x := (x, (None, 0));
  ca_submit _ x := (x, 0);
  ca_check x := (x, 0);
  ca_fetch x := (x, (None, 0));
  ca_acquire x := (x, 0);
  ca_release x := (x, 0);
  ca_pollfd x := (x, -1); ca_events x := (x, 0); ca_clear x := (x, tt) |}.

Inductive rres (X A : Type) := RNull | ROk (a : A) (r : res) (x : X).
Arguments RNull {X A}.
Arguments ROk {X A} a r x.

Section Res.
Context {o : SoOS} {ro : ResOS o}.
(** [junk] is what the memory that was not set holds. *)
Context (fuel : nat) (junk : Z) (e : env) (ca : option (cache o)).

Definition RM (A : Type) : Type := res -> sos -> out (rres sos A).
#[local] Instance RM_ret : MRet RM := fun A a r x => Val (ROk a r x).
#[local] Instance RM_bind : MBind RM := fun A B f m r x =>
  match m r x with Val (ROk a r' x') => f a r' x' | Val RNull => Val RNull | UB => UB | Loop => Loop end.

Definition getr : RM res := fun r x => Val (ROk r r x).
Definition putr (r : res) : RM unit := fun _ x => Val (ROk tt r x).
Definition sys {A} (f : sos -> sos * A) : RM A := fun r x => let '(x', a) := f x in Val (ROk a r x').
Definition rlift {A} (m : out A) : RM A := fun r x => match m with Val a => Val (ROk a r x) | UB => UB | Loop => Loop end.
(** A pointer that is followed. *)
Definition nn {A} (p : option A) : RM A := fun r x => match p with Some a => Val (ROk a r x) | None => Val RNull end.
Definition on_so {A} (m : SM A) : RM A := fun r x =>
  match m (r_so r) x with Val (a, s, x') => Val (ROk a (set_so r s) x') | UB => UB | Loop => Loop end.

(** [stack[sp + k]]. *)
Definition frame_at (k : nat) : RM frame :=
  r ← getr; match r_stack r !! (r_sp r + k)%nat with Some f => mret f | None => rlift UB end.
Definition put_frame (k : nat) (f : frame) : RM unit :=
  r ← getr; putr (set_stack r (<[(r_sp r + k)%nat := f]> (r_stack r)) (r_sp r)).
Definition getf : RM frame := frame_at 0.
Definition putf (f : frame) : RM unit := put_frame 0 f.

(** What a case of the switch does: go on with the state of the top frame, or
    return. *)
Inductive next := Exec | Ret (error : Z).
(** [goto (R->sp, st)]. *)
Definition goto (st : res_state) : RM next := f ← getf; putf (set_fstate f st);; mret Exec.
(** [F->state = st; goto (++R->sp, DNS_R_INIT)]. *)
Definition call_frame (st : res_state) : RM next :=
  f ← getf; putf (set_fstate f st);;
  r ← getr; putr (set_stack r (r_stack r) (S (r_sp r)));;
  goto R_INIT.

Definition orerr {A} (r : dns_error + A) (k : A -> RM next) : RM next :=
  match r with inl err => mret (Ret (errnum err)) | inr a => k a end.
(** A name in the buffer [host]; [dns_d_expand] that returns 0 leaves [error]
    as it was. *)
Definition expanded (src : Z) (P : packet) (k : list Z -> RM next) : RM next :=
  t ← rlift (dns_d_expand fuel src P);
  match t with
  | inl err => mret (Ret (errnum err))
  | inr [] => mret (Ret junk)
  | inr t => if 256 <=? len t then mret (Ret (errnum DNS_EILLEGAL)) else k t
  end.
Definition ns_host (a : any) : RM (list Z) := match a with AnyNS h => mret (cstr h) | _ => rlift UB end.

(** [dns_rr_grep (&rr, 1, i, P, &error)]. *)
Definition grep1 (i : rr_i) (P : packet) : RM (option rr * rr_i) :=
  seed ← sys res_seed;
  '(rs, i, _) ← rlift (dns_rr_grep fuel junk seed 1 i P);
  mret (head rs, i).
(** The first turn of a [dns_rr_foreach] that leaves the loop. *)
Definition first (i : rr_i) (P : packet) : RM (option rr) := '(r, _) ← grep1 i P; mret r.
Definition all (i : rr_i) (P : packet) : RM (list rr) := seed ← sys res_seed; rlift (foreach fuel junk seed (steps P) i P).

(** The first [R->qlen] bytes of [R->qname]. *)
Definition qname_arg (r : res) : out (list Z) :=
  if r_qlen r <=? 256 then Val (take (Z.to_nat (r_qlen r)) (r_qname r ++ replicate (256 - length (r_qname r)) 0)) else UB.
(** [dns_resconf_search (host, sizeof host, ...)]: the name, empty when there are no
    more. *)
Definition next_name : RM (list Z) :=
  r ← getr;
  q ← rlift (qname_arg r);
  '(host, n, st) ← rlift (dns_resconf_search (replicate 256 junk) 256 q (e_conf e) (r_search r));
  putr (set_rsearch r st);;
  rlift (rdn host 0 n).

Definition recurse_ : bool := recurse (opts (e_conf e)).
Definition make (n : Z) : RM (option packet) := malloc ← sys res_malloc; mret (dns_p_make malloc n).

(** ** The cases of [dns_res_exec] *)
Definition case_glue : RM next :=
  r ← getr; f ← getf;
  if (r_sp r =? 0)%nat then goto R_SWITCH
  else
    q ← nn (f_query f);
    malloc ← sys res_malloc; seed ← sys res_seed;
    a ← rlift (dns_res_glue fuel junk seed malloc (f_answer <$> take (S (r_sp r)) (r_stack r)) q);
    putf (set_fanswer f a);;
    match a with
    | None => goto R_SWITCH
    | Some A =>
        expanded 12 q (fun host =>
          qtype ← rlift (dns_rr_type 12 q);
          c ← first (named DNS_S_AN host qtype) A;
          match c with
          | Some _ => goto R_FINISH
          | None =>
              c ← first (named DNS_S_AN host DNS_T_CNAME) A;
              match c with
              | Some rr => putf (set_ans_cname (set_fanswer f a) rr);; goto R_CNAME0_A
              | None => goto R_SWITCH
              end
          end)
    end.

(** The next place to look in, and the index after it. *)
Fixpoint switch_loop (n : nat) (which : Z) : Z * res_state :=
  match n with
  | O => (which, R_SERVFAIL)
  | S n' =>
      if which <? 3 then
        let c := nthz (lookup (e_conf e)) which in
        if (c =? 98) || (c =? 66) then (which + 1, R_BIND)
        else if (c =? 102) || (c =? 70) then (which + 1, R_FILE)
        else if ((c =? 99) || (c =? 67)) && bool_decide (is_Some ca) then (which + 1, R_CACHE)
        else switch_loop n' (which + 1)
      else (which, R_SERVFAIL)
  end.
Definition case_switch : RM next :=
  f ← getf;
  let '(which, st) := switch_loop 4 (f_which f) in
  putf (set_which f which);; goto st.

(** [dns_hosts_query] for [q], and what is done with its answer. *)
Definition file_query (q : packet) (none : RM next) : RM next :=
  f ← getf;
  malloc ← sys res_malloc;
  a ← rlift (dns_hosts_query fuel malloc junk (e_hosts e) q);
  match a with
  | inl err => putf (set_fanswer f None);; mret (Ret (errnum err))
  | inr A =>
      n ← rlift (dns_p_count A DNS_S_AN);
      if 0 <? n then putf (set_fanswer f (Some A));; goto R_FINISH
      else putf (set_fanswer f None);; none
  end.
Fixpoint file_loop (n : nat) : RM next :=
  match n with
  | O => rlift Loop
  | S n' =>
      host ← next_name;
      match host with
      | [] => goto R_SWITCH
      | _ =>
          r ← getr;
          match dns_p_init (Some (replicate (Z.to_nat DNS_P_QBUFSIZ) 0)) with
          | None => rlift UB
          | Some P =>
              '(Q, err) ← rlift (dns_p_push fuel P DNS_S_QD host (r_qtype r) (r_qclass r) 0 (AnyA 0));
              match err with
              | Some err => mret (Ret (errnum err))
              | None => file_query Q (file_loop n')
              end
          end
      end
  end.
Definition case_file : RM next :=
  r ← getr; f ← getf;
  if (0 <? r_sp r)%nat then q ← nn (f_query f); file_query q (goto R_SWITCH)
  else putr (set_rsearch r 0);; file_loop fuel.

(** The answer of the cache, or what comes next when it has none. *)
Definition cache_answer (a : option packet * Z) (none : res_state) : RM next :=
  f ← getf;
  match a.1 with
  | Some A =>
      n ← rlift (dns_p_count A DNS_S_AN);
      if 0 <? n then putf (set_fanswer f (Some A));; goto R_FINISH
      else putf (set_fanswer f None);; goto R_SWITCH
  | None =>
      putf (set_fanswer f None);;
      if negb (a.2 =? 0) then mret (Ret a.2) else goto none
  end.
Definition case_cache : RM next :=
  r ← getr; f ← getf;
  c ← nn ca;
  malloc ← sys res_malloc;
  q ← (match f_query f with
       | Some q => mret (inr q)
       | None => rlift (dns_res_mkquery fuel malloc recurse_ (r_qname r) (r_qtype r) (r_qclass r))
       end);
  orerr q (fun q => putf (set_fquery f (Some q));; a ← sys (ca_query c q); cache_answer a R_SUBMIT).
Definition case_submit : RM next :=
  f ← getf; c ← nn ca; q ← nn (f_query f);
  err ← sys (ca_submit c q);
  if negb (err =? 0) then mret (Ret err) else goto R_CHECK.
Definition case_check : RM next :=
  c ← nn ca; err ← sys (ca_check c); if negb (err =? 0) then mret (Ret err) else goto R_FETCH.
Definition case_fetch : RM next := c ← nn ca; a ← sys (ca_fetch c); cache_answer a R_SWITCH.

Definition case_bind : RM next :=
  r ← getr; f ← getf;
  if (0 <? r_sp r)%nat then _ ← nn (f_query f); goto R_HINTS
  else putr (set_rsearch r 0);; goto R_SEARCH.
Definition case_search : RM next :=
  host ← next_name;
  match host with
  | [] => goto R_SWITCH
  | _ =>
      P ← make DNS_P_QBUFSIZ;
      match P with
      | None => mret (Ret E_ENOMEM)
      | Some P =>
          P ← rlift (set_rd P (negb recurse_));
          r ← getr; f ← getf;
          '(Q, err) ← rlift (dns_p_push fuel P DNS_S_QD host (r_qtype r) (r_qclass r) 0 (AnyA 0));
          putf (set_fquery f (Some Q));;
          match err with Some err => mret (Ret (errnum err)) | None => goto R_HINTS end
      end
  end.
Definition case_hints : RM next :=
  f ← getf; q ← nn (f_query f);
  malloc ← sys res_malloc; rnd ← sys res_rnd;
  h ← rlift (dns_hints_query fuel junk rnd malloc (e_hints e) q);
  match h with
  | inl err => putf (set_fhints f None);; mret (Ret (errnum err))
  | inr H => putf (set_fhints f (Some H));; goto R_ITERATE
  end.
Definition case_iterate : RM next :=
  f ← getf; H ← nn (f_hints f);
  seed ← sys res_seed;
  let i := f_hints_i f in
  putf (set_hints_i f (RrI DNS_S_NS (i_name i) DNS_T_NS (i_class i) (i_data i) (SortBy (dns_res_nameserv_cmp fuel junk seed (p_end H))) 0 0 0 0) istate0);;
  goto R_FOREACH_NS.
Definition case_foreach_ns : RM next :=
  f ← getf; H ← nn (f_hints f);
  let saved := state_of (f_hints_i f) in
  '(ns, i) ← grep1 (f_hints_i f) H;
  let f := set_hints_i f i saved in
  match ns with
  | None =>
      let tries := w32 (f_attempts f + 1) in
      putf (set_tries f tries);;
      if tries <? attempts (opts (e_conf e)) then goto R_ITERATE else goto R_SWITCH
  | Some ns => putf (set_hints_j (set_hints_ns f ns) (dns_rr_i_init (f_hints_j f)));; goto R_FOREACH_A
  end.

(** [F[1]] with a fresh query for [name]; [k] says how the query is made. *)
Definition full (r : res) : bool := (DNS_R_MAXDEPTH <=? Z.of_nat (r_sp r) + 1).
(** [dns_p_push (F[1].query, DNS_S_QD, name, ...)], then [DNS_R_INIT] on [F[1]]. *)
Definition push_down (st : res_state) (P : packet) (name : list Z) (qtype : Z) : RM next :=
  '(Q, err) ← rlift (dns_p_push fuel P DNS_S_QD name qtype DNS_C_IN 0 (AnyA 0));
  put_frame 1 (set_fquery frame0 (Some Q));;
  match err with Some err => mret (Ret (errnum err)) | None => call_frame st end.

Definition case_resolv0 : RM next :=
  r ← getr;
  if full r then goto R_FOREACH_NS
  else
    f ← getf;
    P ← make DNS_P_QBUFSIZ;
    put_frame 1 (set_fquery frame0 P);;
    match P with
    | None => mret (Ret E_ENOMEM)
    | Some P =>
        H ← nn (f_hints f);
        a ← rlift (dns_ns_parse fuel (f_hints_ns f) H);
        orerr a (fun a => host ← ns_host a; push_down R_RESOLV1_NS P host DNS_T_A)
    end.

(** Glue for the hints, one record at a time; the iterator goes back to the name
    server that was saved. *)
Fixpoint add_glue (rs : list rr) (A : packet) : RM next :=
  match rs with
  | [] => goto R_FOREACH_NS
  | rr :: rs' =>
      f ← getf; H ← nn (f_hints f);
      '(H, err) ← rlift (dns_rr_copy fuel H (set_section rr DNS_S_AR) A);
      let f := set_fhints f (Some H) in
      match err with
      | Some err => putf f;; mret (Ret (errnum err))
      | None => putf (set_hints_i f (with_state (f_hints_i f) (f_saved f)) (f_saved f));; add_glue rs' A
      end
  end.
Definition case_resolv1 : RM next :=
  f1 ← frame_at 1;
  q1 ← nn (f_query f1);
  expanded 12 q1 (fun host =>
    A ← nn (f_answer f1);
    rs ← all (named NOT_QD host DNS_T_A) A;
    add_glue rs A).

Definition case_foreach_a : RM next :=
  f ← getf; H ← nn (f_hints f);
  a ← rlift (dns_ns_parse fuel (f_hints_ns f) H);
  orerr a (fun a =>
    host ← ns_host a;
    let j := f_hints_j f in
    '(rr, j) ← grep1 (RrI NOT_QD (Some host) DNS_T_A (i_class j) (i_data j) (i_sort j) (st_next j) (st_count j) (st_exec j) (st_reg0 j)) H;
    let f := set_hints_j f j in
    putf f;;
    match rr with
    | None => if st_count j =? 0 then goto R_RESOLV0_NS else goto R_FOREACH_NS
    | Some rr =>
        a ← rlift (dns_a_parse rr H);
        orerr a (fun a =>
          r ← getr;
          addr ← (match a with AnyA n => mret (four n) | _ => rlift UB end);
          let port := if (r_sp r =? 0)%nat then dns_hints_port (e_hints e) AF_INET addr else 53 in
          q ← nn (f_query f);
          '(err, q) ← on_so (dns_so_submit fuel q (SS AF_INET port addr (replicate 8 junk)));
          putf (set_fquery f (Some q));;
          if negb (err =? 0) then mret (Ret err) else goto R_QUERY_A)
    end).

Definition case_query : RM next :=
  elapsed ← on_so dns_so_elapsed;
  if timeout (opts (e_conf e)) <=? elapsed then goto R_FOREACH_A
  else
    err ← on_so (dns_so_check fuel);
    if negb (err =? 0) then mret (Ret err)
    else
      a ← on_so dns_so_fetch;
      f ← getf;
      match a with
      | inl err => putf (set_fanswer f None);; mret (Ret err)
      | inr None => putf (set_fanswer f None);; mret (Ret 0)
      | inr (Some A) =>
          let f := set_fanswer f (Some A) in
          putf f;;
          q ← nn (f_query f);
          r ← rlift (dns_rr_parse junk 12 q);
          orerr r (fun qr =>
            expanded (rr_dn_p qr) q (fun host =>
              c ← first (named DNS_S_AN host (rr_type qr)) A;
              match c with
              | Some _ => goto R_FINISH
              | None =>
                  c ← first (named DNS_S_AN host DNS_T_CNAME) A;
                  match c with
                  | Some rr => putf (set_ans_cname f rr);; goto R_CNAME0_A
                  | None =>
                      if negb recurse_ then goto R_SWITCH
                      else
                        c ← first (typed DNS_S_NS DNS_T_NS) A;
                        match c with
                        | Some _ => putf (set_fhints (set_fanswer f None) (Some A));; goto R_ITERATE
                        | None =>
                            aa ← rlift (header_aa A);
                            if aa : bool then goto R_FINISH else goto R_FOREACH_A
                        end
                  end
              end))
      end.

Definition case_cname0 : RM next :=
  r ← getr;
  if full r then goto R_FINISH
  else
    f ← getf;
    A ← nn (f_answer f);
    a ← rlift (dns_ns_parse fuel (f_ans_cname f) A);
    orerr a (fun a =>
      host ← ns_host a;
      P ← make DNS_P_QBUFSIZ;
      put_frame 1 (set_fquery frame0 P);;
      match P with
      | None => mret (Ret E_ENOMEM)
      | Some P => q ← nn (f_query f); qtype ← rlift (dns_rr_type 12 q); push_down R_CNAME1_A P host qtype
      end).
Definition case_cname1 : RM next :=
  f ← getf; f1 ← frame_at 1;
  A ← nn (f_answer f); A1 ← nn (f_answer f1);
  malloc ← sys res_malloc; seed ← sys res_seed;
  m ← rlift (dns_res_merge fuel junk seed malloc A A1);
  orerr m (fun P => putf (set_fanswer f (Some P));; goto R_FINISH).

Definition case_finish : RM next :=
  r ← getr; f ← getf;
  _ ← nn (f_answer f);
  if negb (smart (opts (e_conf e))) || (0 <? r_sp r)%nat then goto R_DONE
  else
    let i := r_smart r in
    putr (set_smart_i r (RrI DNS_S_AN (i_name i) (r_qtype r) (i_class i) (i_data i) (i_sort i) 0 0 0 0));;
    goto R_SMART0_A.

(** [F[1].query = dns_res_mkquery (...)], then [DNS_R_INIT] on [F[1]]. *)
Definition smart_down (name : list Z) : RM next :=
  malloc ← sys res_malloc;
  q ← rlift (dns_res_mkquery fuel malloc recurse_ name DNS_T_A DNS_C_IN);
  match q with
  | inl err => put_frame 1 frame0;; mret (Ret (errnum err))
  | inr q => put_frame 1 (set_fquery frame0 (Some q));; call_frame R_SMART1_A
  end.
Fixpoint smart_loop (n : nat) (A : packet) : RM next :=
  match n with
  | O => rlift Loop
  | S n' =>
      r ← getr;
      '(rr, i) ← grep1 (r_smart r) A;
      putr (set_smart_i r i);;
      match rr with
      | Some rr =>
          let t := rr_type rr in
          if (t =? DNS_T_NS) || (t =? DNS_T_MX) || (t =? DNS_T_SRV) then
            a ← rlift (if t =? DNS_T_NS then dns_ns_parse fuel rr A else if t =? DNS_T_MX then dns_mx_parse fuel rr A else dns_srv_parse fuel rr A);
            orerr a (fun a =>
              match a with
              | AnyNS h | AnyMX _ h => smart_down (cstr h)
              | AnySRV s => smart_down (cstr (srv_target s))
              | _ => rlift UB
              end)
          else smart_loop n' A
      | None =>
          if (r_qtype r =? DNS_T_MX) && (st_count i =? 0) then
            malloc ← sys res_malloc;
            q ← rlift (dns_res_mkquery fuel malloc recurse_ (r_qname r) DNS_T_A DNS_C_IN);
            match q with
            | inl err => put_frame 1 frame0;; mret (Ret (errnum err))
            | inr q =>
                put_frame 1 (set_fquery frame0 (Some q));;
                r ← getr;
                putr (set_smart_i r (set_state i (st_next i) (w16 (st_count i + 1)) (st_exec i) (st_reg0 i)));;
                call_frame R_SMART1_A
            end
          else goto R_DONE
      end
  end.
Definition case_smart0 : RM next :=
  r ← getr; f ← getf;
  if full r then goto R_DONE
  else A ← nn (f_answer f); smart_loop (steps A) A.

(** [dns_rr_exists]. *)
Definition dns_rr_exists (r : rr) (P0 P1 : packet) : RM bool :=
  rs ← all (typed (rr_section r) (rr_type r)) P1; rlift (known fuel junk r P0 rs P1).
(** [dns_rr_copy] into the answer, which grows until the record fits; the size
    doubles and is at most 65536. *)
Fixpoint copy_grow (n : nat) (rr : rr) (A1 : packet) : RM (option Z) :=
  match n with
  | O => rlift Loop
  | S n' =>
      f ← getf; A ← nn (f_answer f);
      '(A, err) ← rlift (dns_rr_copy fuel A rr A1);
      putf (set_fanswer f (Some A));;
      match err with
      | None => mret None
      | Some err =>
          if negb (bool_decide (err = DNS_ENOBUFS)) then mret (Some (errnum err))
          else
            malloc ← sys res_malloc; realloc ← sys res_realloc;
            let '(A, err) := dns_p_grow malloc realloc (Some A) in
            putf (set_fanswer f A);;
            match err with Some err => mret (Some (errnum err)) | None => copy_grow n' rr A1 end
      end
  end.
Fixpoint add_smart (rs : list rr) (A1 : packet) : RM next :=
  match rs with
  | [] => goto R_SMART0_A
  | rr :: rs' =>
      let rr := set_section rr DNS_S_AR in
      f ← getf; A ← nn (f_answer f);
      known ← dns_rr_exists rr A1 A;
      if known : bool then add_smart rs' A1
      else
        err ← copy_grow fuel rr A1;
        match err with Some err => mret (Ret err) | None => add_smart rs' A1 end
  end.
Definition case_smart1 : RM next :=
  f1 ← frame_at 1; A1 ← nn (f_answer f1);
  rs ← all (typed DNS_S_AN DNS_T_A) A1;
  add_smart rs A1.

Definition case_done : RM next :=
  r ← getr; f ← getf;
  _ ← nn (f_answer f);
  match r_sp r with
  | O => mret (Ret 0)
  | S sp => putr (set_stack r (r_stack r) sp);; f ← getf; goto (f_state f)
  end.
Definition case_servfail : RM next :=
  r ← getr; f ← getf;
  P ← make DNS_P_QBUFSIZ;
  match P with
  | None => putf (set_fanswer f None);; mret (Ret E_ENOMEM)
  | Some P =>
      P ← rlift (set_qr P); P ← rlift (set_rcode P DNS_RC_SERVFAIL);
      '(P, err) ← rlift (dns_p_push fuel P DNS_S_QD (r_qname r) (r_qtype r) (r_qclass r) 0 (AnyA 0));
      putf (set_fanswer f (Some P));;
      match err with Some err => mret (Ret (errnum err)) | None => goto R_DONE end
  end.

(** The switch. [F->state++] into the case that follows is a [goto]. *)
Definition res_step : RM next :=
  f ← getf;
  match f_state f with
  | R_INIT => goto R_GLUE
  | R_GLUE => case_glue
  | R_SWITCH => case_switch
  | R_FILE => case_file
  | R_CACHE => case_cache
  | R_SUBMIT => case_submit
  | R_CHECK => case_check
  | R_FETCH => case_fetch
  | R_BIND => case_bind
  | R_SEARCH => case_search
  | R_HINTS => case_hints
  | R_ITERATE => case_iterate
  | R_FOREACH_NS => case_foreach_ns
  | R_RESOLV0_NS => case_resolv0
  | R_RESOLV1_NS => case_resolv1
  | R_FOREACH_A => case_foreach_a
  | R_QUERY_A => case_query
  | R_CNAME0_A => case_cname0
  | R_CNAME1_A => case_cname1
  | R_FINISH => case_finish
  | R_SMART0_A => case_smart0
  | R_SMART1_A => case_smart1
  | R_DONE => case_done
  | R_SERVFAIL => case_servfail
  end.
Fixpoint dns_res_exec (n : nat) : RM Z :=
  match n with
  | O => rlift Loop
  | S n' => s ← res_step; match s with Exec => dns_res_exec n' | Ret err => mret err end
  end.

(** ** The interface *)

(** [dns_res_reset] zeroes everything from [qname] down. *)
Definition reset_res (r : res) : res :=
  Res (r_so r) (r_refcount r) [] 0 0 0 0 0 rr_i0 (replicate 8 frame0) 0.
Definition dns_res_reset : RM unit := on_so dns_so_reset;; r ← getr; putr (reset_res r).

(** [qname] is the C string given. *)
Definition dns_res_submit (qname : list Z) (qtype qclass : Z) : RM Z :=
  dns_res_reset;;
  now ← sys so_now;
  r ← getr;
  putr (Res (r_so r) (r_refcount r) (dns_d_init 256 [] qname 0 0) (len qname) qtype qclass now (r_search r) (r_smart r) (r_stack r) (r_sp r));;
  mret 0.
(** [steps] turns of the switch are allowed. *)
Definition dns_res_check (n : nat) : RM Z := dns_res_exec n.
Definition dns_res_fetch : RM (Z + option packet) :=
  r ← getr;
  match r_stack r with
  | f :: st =>
      if bool_decide (f_state f = R_DONE) then
        putr (set_stack r (set_fanswer f None :: st) (r_sp r));; mret (inr (f_answer f))
      else mret (inl DNS_EUNKNOWN)
  | [] => rlift UB
  end.
Definition dns_res_elapsed : RM Z := r ← getr; now ← sys so_now; mret (elapsed (r_began r) now).
Definition dns_res_clear : RM unit :=
  f ← getf;
  match f_state f with R_CHECK => c ← nn ca; sys (ca_clear c) | _ => on_so dns_so_clear end.
Definition dns_res_pollfd : RM Z :=
  f ← getf;
  match f_state f with R_CHECK => c ← nn ca; sys (ca_pollfd c) | _ => r ← getr; mret (dns_so_pollfd (r_so r)) end.
Definition dns_res_events : RM Z :=
  f ← getf;
  match f_state f with R_CHECK => c ← nn ca; sys (ca_events c) | _ => r ← getr; mret (dns_so_events (r_so r)) end.
Definition FD_SETSIZE : Z := 1024.
Definition dns_poll (fd events t : Z) : RM Z :=
  if events =? 0 then mret 0
  else if (fd <? 0) || (FD_SETSIZE <=? fd) then (fun _ _ => Val RNull)
  else _ ← sys (res_select fd events t); mret 0.
Definition dns_res_poll (t : Z) : RM Z := fd ← dns_res_pollfd; ev ← dns_res_events; dns_poll fd ev t.

(** [dns_res_query]: [n] rounds are allowed. *)
Fixpoint query_loop (n : nat) (steps : nat) (t : Z) : RM Z :=
  match n with
  | O => rlift Loop
  | S n' =>
      err ← dns_res_check steps;
      if err =? 0 then mret 0
      else
        el ← dns_res_elapsed;
        let err := if t <? el then E_ETIMEDOUT else err in
        if negb (err =? E_EAGAIN) then mret err
        else err ← dns_res_poll 1; if negb (err =? 0) then mret err else query_loop n' steps t
  end.
Definition dns_res_query (n steps : nat) (qname : list Z) (qtype qclass t : Z) : RM (Z + option packet) :=
  err ← dns_res_submit qname qtype qclass;
  if negb (err =? 0) then mret (inl err)
  else err ← query_loop n steps t; if negb (err =? 0) then mret (inl err) else dns_res_fetch.
End Res.

(** ** Life of a resolver

    The objects a resolver shares, each with its count of references; [None] is a
    null pointer, or an object that was released. *)
Record shared := Shared { sh_conf : option resolv_conf; sh_hosts : option hosts; sh_hints : option hints }.
Definition acquire_all (sh : shared) : shared :=
  Shared (fst ∘ dns_resconf_acquire <$> sh_conf sh) (fst ∘ dns_hosts_acquire <$> sh_hosts sh) (fst ∘ dns_hints_acquire <$> sh_hints sh).
Definition close_all (sh : shared) : shared :=
  Shared (sh_conf sh ≫= dns_resconf_close) (sh_hosts sh ≫= dns_hosts_close) (sh_hints sh ≫= dns_hints_close).

Section Life.
Context {o : SoOS} {ro : ResOS o} (junk : Z) (ca : option (cache o)).
(** The routine of this name is the default callback: the one of the cache is not
    called. *)
Definition dns_cache_acquire (x : sos) : sos * Z := (x, 0).
Definition dns_cache_close (x : sos) : sos := match ca with Some c => (ca_release c x).1 | None => x end.

(** A socket of its own, as [dns_so_query]'s callers have it; [s0] is what the
    memory held. *)
Definition dns_so_close (s : option dsock) (x : sos) : out sos :=
  match s with
  | None => Val x
  | Some s => match dns_so_destroy s x with Val (_, _, x) => Val x | UB => UB | Loop => Loop end
  end.
Definition dns_so_open (local : option sockaddr_storage) (type : Z) (s0 : dsock) (x : sos) : out ((Z + dsock) * sos) :=
  let error err s x := match dns_so_close s x with Val x => Val (inl err, x) | UB => UB | Loop => Loop end in
  let '(x, got) := res_alloc x in
  if negb got then error E_ENOMEM None x
  else
    match dns_so_init local type s0 x with
    | Val (None, s, x) => Val (inr s, x)
    | Val (Some err, s, x) => error err (Some s) x
    | UB => UB | Loop => Loop
    end.

Definition dns_res_tcp2type (t : tcp_mode) : Z :=
  match t with TCP_ONLY => SOCK_STREAM | TCP_DISABLE => SOCK_DGRAM | TCP_ENABLE => 0 end.

Definition dns_res_acquire (r : res) : res * Z := (set_count r (w32 (r_refcount r + 1)), r_refcount r).
Definition dns_res_release (r : res) : res * Z := (set_count r (w32 (r_refcount r - 1)), r_refcount r).
Definition dns_res_mortal (r : option res) : option res := match r with Some r => Some (dns_res_release r).1 | None => None end.

(** The resolver is gone ([None]) after the last reference. *)
Definition dns_res_close (r : res) (sh : shared) (x : sos) : out (option res * shared * sos) :=
  let '(r, n) := dns_res_release r in
  if 1 <? n then Val (Some r, sh, x)
  else
    match dns_so_reset (r_so r) x with
    | Val (_, s, x) =>
        match dns_so_destroy s x with
        | Val (_, _, x) => Val (None, close_all sh, dns_cache_close x)
        | UB => UB | Loop => Loop
        end
    | UB => UB | Loop => Loop
    end.

(** The error, or the resolver; [error] was not set where an object is missing. *)
Definition dns_res_open (sh : shared) (s0 : dsock) (x : sos) : out ((Z + res) * shared * sos) :=
  let sh := acquire_all sh in
  let x := match ca with Some _ => (dns_cache_acquire x).1 | None => x end in
  let error err x := Val (inl err, close_all sh, dns_cache_close x) in
  match sh_conf sh, sh_hosts sh, sh_hints sh with
  | Some rc, Some _, Some _ =>
      let '(x, got) := res_alloc x in
      if negb got then error E_ENOMEM x
      else
        match dns_so_init (Some (iface rc)) (dns_res_tcp2type (tcp (opts rc))) s0 x with
        | Val (None, s, x) => Val (inr (Res s 1 [] 0 0 0 0 0 rr_i0 (replicate 8 frame0) 0), sh, x)
        | Val (Some err, s, x) =>
            match dns_so_destroy (reset_so s) x with
            | Val (_, _, x) => error err x
            | UB => UB | Loop => Loop
            end
        | UB => UB | Loop => Loop
        end
  | _, _, _ => error junk x
  end.
End Life.
