(* ===== verification/DnsResSpec.v ===== *)
(** The invariant of the resolver of libdns: in every state it goes through, the
    packets that the state uses are there. *)

From stdpp Require Import prelude.
From Stdlib Require Import ZArith Lia.
From S2P Require Import Prelude DnsBase DnsName DnsRr DnsRdata DnsPacket DnsResconf DnsHosts DnsHints DnsPermutor DnsSo DnsSoSpec DnsRes.
Local Open Scope Z_scope.

#[local] Existing Instance RM_ret.
#[local] Existing Instance RM_bind.

Lemma errnum_0 err : errnum err <> 0.
Proof. by destruct err. Qed.

(** A name is never empty: that of the root is a dot. *)
Lemma d_expand_some P fuel : forall np src dst, d_expand fuel np src dst P <> Val (inr []).
Proof.
  induction fuel as [|n IH]; intros np src dst; cbn [d_expand]; [done|].
  destruct (src <? p_end P); [|done]. destruct (rd (p_data P) src) as [b| |]; [|done..]. cbn [mbind out_bind].
  destruct (tag b =? 0).
  - destruct (low6 b =? 0); [by destruct dst|]. case_match; [done|]. destruct (rdn _ _ _); [|done..]. apply IH.
  - destruct (tag b =? 3); [|done]. case_match; [done|]. case_match; [done|]. destruct (rd _ _); [|done..]. apply IH.
Qed.
Lemma expand_some fuel src P : dns_d_expand fuel src P <> Val (inr []).
Proof. apply d_expand_some. Qed.

(** ** A socket without an answer

    After the answer was fetched no check succeeds until there is a new query. *)
Section Fetched.
Context {o : SoOS} `{!SoOk o} (fuel : nat).
Implicit Types s : dsock.
#[local] Existing Instance SM_ret.
#[local] Existing Instance SM_bind.

Lemma recv_none n : forall aend s x e s' x', so_answer s = None -> tcp_recv_loop n aend s x = Val (e, s', x') -> so_answer s' = None.
Proof.
  destruct n as [|n]; intros aend s x e s' x' Hs Hc; cbn [tcp_recv_loop] in Hc; [done|]. minv. dm Hc; [by rewrite Hs in Hc|]. cbn. by rewrite Hs.
Qed.
Lemma case_none s x r s' x' : so_answer s = None -> so_case fuel s x = Val (r, s', x') -> so_answer s' = None /\ r <> Return 0 /\ r <> SoErr 0.
Proof.
  intros Hs Hc. assert (so_inv fuel s \/ so_st s = UDP_DONE) as [Hi|Est].
  { destruct (decide (so_st s = UDP_DONE)); [by right|left]. by intros Hd. }
  2: { unfold so_case in Hc. minv. rewrite Est, Hs in Hc. by minv. }
  destruct (so_case_inv fuel _ _ _ _ _ Hi Hc) as (_ & Hr & Hne). assert (so_answer s' = None) as Hs'.
  { unfold so_case, advance, dns_so_verify in Hc. minv. destruct (so_st s) eqn:Est; minv; try done.
    - by dm Hc.
    - dm Hc; [|done]. by dm Hc.
    - by rewrite Hs in Hc.
    - by rewrite Hs in Hc.
    - match goal with Hk : dns_so_closefd_tcp _ _ = Val _ |- _ => apply closefd_keeps in Hk as [_ Hn] end. rewrite Hs in Hn. dm Hc; [done|].
      match goal with Hk : dns_socket _ _ _ _ = Val _ |- _ => pose proof (pure_socket _ _ _ _ _ _ _ Hk) as -> end. by dm Hc.
    - by dm Hc; [dm Hc|].
    - match goal with Hk : dns_so_tcp_send _ _ _ = Val _ |- _ => apply dns_so_tcp_send_keeps in Hk as [_ Hn] end. rewrite Hs in Hn. by dm Hc.
    - match goal with Hk : dns_so_tcp_recv _ _ _ = Val _ |- _ => unfold dns_so_tcp_recv in Hk; minv; apply recv_none in Hk; [|done] end. by dm Hc.
    - match goal with Hk : dns_so_closefd_tcp _ _ = Val _ |- _ => apply closefd_keeps in Hk as [_ Hn] end. rewrite Hs in Hn. dm Hc; [done|].
      by rewrite Hn in Hc. }
  split; [done|]. split; [|done]. intros ->. destruct (Hr eq_refl) as [[_ (A & HA & _)] _]. congruence.
Qed.

(** The pointers that the case of the state of the socket follows are not null. *)
Definition so_pointers s : Prop :=
  match so_st s with
  | UDP_SEND | TCP_SEND => so_query s <> None
  | UDP_RECV | UDP_DONE | TCP_RECV | TCP_DONE => so_answer s <> None
  | SO_NONE | UDP_INIT | UDP_CONN | TCP_INIT | TCP_CONN => True
  end.
(** A socket with a query under way. *)
Definition so_ready s : Prop := so_query s <> None /\ so_answer s <> None.
Lemma ready_pointers s : so_ready s -> so_pointers s.
Proof. intros []. unfold so_pointers. by destruct (so_st s). Qed.

Lemma recv_ready n : forall aend s x e s' x', so_answer s <> None -> tcp_recv_loop n aend s x = Val (e, s', x') -> so_answer s' <> None.
Proof.
  induction n as [|n IH]; intros aend s x e s' x' Hs Hc; cbn [tcp_recv_loop] in Hc; [done|]. minv.
  dm Hc; [|cbn; by destruct (so_answer s)]. dm Hc; [|done]. dm Hc; [congruence|]. dm Hc; [congruence|]. dm Hc; [|by eapply IH in Hc].
  match goal with Hn : dns_so_newanswer _ _ _ = Val (?v, ?s1, _) |- _ => assert (so_answer s1 <> None) as Hs1 by (unfold dns_so_newanswer in Hn; minv; by dm Hn) end.
  dm Hc; [done|]. by eapply IH in Hc.
Qed.
Ltac fin := first [done | congruence | cbn; congruence].
Lemma case_answer s x r s' x' : so_answer s <> None -> so_case fuel s x = Val (r, s', x') -> so_answer s' <> None.
Proof.
  intros Hs Hc. unfold so_case, advance, dns_so_verify in Hc. minv. destruct (so_st s) eqn:Est; minv; try done.
  - dm Hc; fin.
  - dm Hc; [|fin]. dm Hc; fin.
  - dm Hc; [|fin]. dm Hc; [fin|]. dm Hc; [fin|]. minv. dm Hc; fin.
  - dm Hc; [|fin]. dm Hc; fin.
  - match goal with Hk : dns_so_closefd_tcp _ _ = Val _ |- _ => apply closefd_keeps in Hk as [_ Hn] end. rewrite <- Hn in Hs. dm Hc; [fin|].
    match goal with Hk : dns_socket _ _ _ _ = Val _ |- _ => pose proof (pure_socket _ _ _ _ _ _ _ Hk) as -> end. dm Hc; fin.
  - dm Hc; [dm Hc|]; fin.
  - match goal with Hk : dns_so_tcp_send _ _ _ = Val _ |- _ => apply dns_so_tcp_send_keeps in Hk as [_ Hn] end. rewrite <- Hn in Hs. dm Hc; fin.
  - match goal with Hk : dns_so_tcp_recv _ _ _ = Val _ |- _ => unfold dns_so_tcp_recv in Hk; minv; apply recv_ready in Hk; [|fin] end. dm Hc; fin.
  - match goal with Hk : dns_so_closefd_tcp _ _ = Val _ |- _ => apply closefd_keeps in Hk as [_ Hn] end. rewrite <- Hn in Hs. dm Hc; [fin|].
    dm Hc; [|fin]. dm Hc; [fin|]. minv. dm Hc; fin.
Qed.
Lemma case_query_kept s x r s' x' : so_case fuel s x = Val (r, s', x') -> so_query s' = so_query s.
Proof.
  intros Hc. unfold so_case, advance, dns_so_verify in Hc. minv. destruct (so_st s) eqn:Est; minv; try done.
  - by dm Hc.
  - dm Hc; [|done]. by dm Hc.
  - dm Hc; [|done]. dm Hc; [done|]. dm Hc; [done|]. minv. by dm Hc.
  - dm Hc; [|done]. by dm Hc.
  - match goal with Hk : dns_so_closefd_tcp _ _ = Val _ |- _ => apply closefd_keeps in Hk as [[] _] end. dm Hc; [done|].
    match goal with Hk : dns_socket _ _ _ _ = Val _ |- _ => pose proof (pure_socket _ _ _ _ _ _ _ Hk) as -> end. by dm Hc.
  - by dm Hc; [dm Hc|].
  - match goal with Hk : dns_so_tcp_send _ _ _ = Val _ |- _ => apply dns_so_tcp_send_keeps in Hk as [[] _] end. by dm Hc.
  - match goal with Hk : dns_so_tcp_recv _ _ _ = Val _ |- _ => unfold dns_so_tcp_recv in Hk; minv; apply tcp_recv_keeps in Hk as [] end. by dm Hc.
  - match goal with Hk : dns_so_closefd_tcp _ _ = Val _ |- _ => apply closefd_keeps in Hk as [[] _] end. dm Hc; [done|].
    dm Hc; [|done]. dm Hc; [done|]. minv. by dm Hc.
Qed.
Lemma case_ready s x r s' x' : so_ready s -> so_case fuel s x = Val (r, s', x') -> so_ready s'.
Proof. intros [Hq Ha] Hc. split; [by rewrite (case_query_kept _ _ _ _ _ Hc)|by eapply case_answer]. Qed.
Lemma loop_ready n : forall s x e s' x', so_ready s -> so_check_loop fuel n s x = Val (e, s', x') -> so_ready s'.
Proof.
  induction n as [|n IH]; intros s x e s' x' Hs Hc; cbn [so_check_loop] in Hc; [done|]. minv.
  match goal with Hr : so_case _ _ _ = Val (?r, _, _) |- _ => apply (case_ready _ _ _ _ _ Hs) in Hr; destruct r as [|e1| |e1] end; try by eapply IH in Hc.
  - by minv.
  - destruct (so_error e1); try by eapply IH in Hc. by minv.
Qed.
Lemma submit_ready Q host s x Q' s' x' : dns_so_submit fuel Q host s x = Val ((0, Q'), s', x') -> so_ready s'.
Proof.
  intros Hc. unfold dns_so_submit, so_fail, dns_so_reset in Hc. minv. dm Hc; [by injection Hc as E%errnum_0|]. minv.
  dm Hc; [by injection Hc as E%errnum_0|]. dm Hc; [by match goal with Ht : dns_d_expand _ _ _ = Val (inr []) |- _ => apply expand_some in Ht end|].
  match goal with Hn : dns_so_newanswer _ _ _ = Val (?v, ?s1, _) |- _ => assert (v = 0 -> so_answer s1 <> None) as Hs1 by (unfold dns_so_newanswer in Hn; minv; by dm Hn) end.
  dm Hc; [done|]. match goal with He : negb (_ =? 0) = false |- _ => apply negb_false_iff, Z.eqb_eq in He; subst end. split; [done|]. cbn.
  match goal with Hq : (if _ then _ else _) _ _ = Val (_, ?s1, _) |- so_answer ?s1 <> None => unfold dns_so_mkqid in Hq; dm Hq; auto end.
  case_match. minv. auto.
Qed.

(** The states in which the switch of [dns_so_check] is entered. *)
Inductive so_entered : dsock -> dsock -> Prop :=
  | so_entered_refl s : so_entered s s
  | so_entered_step s x r s1 x1 s' : so_case fuel s x = Val (r, s1, x1) -> so_entered s1 s' -> so_entered s s'.
Lemma entered_pointers s s' : so_entered s s' -> so_ready s -> so_pointers s'.
Proof. induction 1; intros Hs; [by apply ready_pointers|]. eauto using case_ready. Qed.

(** What a socket is like that a query was submitted to; when [live] does not hold,
    the answer may have been fetched. *)
Definition so_ok (live : bool) s : Prop := so_ready s /\ so_inv fuel s \/ live = false /\ so_answer s = None.
Lemma check_ok live s x e s' x' : so_ok live s -> dns_so_check fuel s x = Val (e, s', x') -> so_ok live s' /\ (e = 0 -> so_answer s' <> None).
Proof.
  unfold dns_so_check. intros [[Hr Hi]|[Hl Hs]] Hc.
  2: { revert s x Hs Hc. generalize fuel at 2. intros n. induction n as [|n IH]; intros s x Hs Hc; cbn [so_check_loop] in Hc; [done|]. minv.
    match goal with Hr : so_case _ _ _ = Val (?r, ?s1, _) |- _ => apply (case_none _ _ _ _ _ Hs) in Hr as (Hs1 & Hr1 & Hne); destruct r as [|e1| |e1] end.
    + by eapply IH.
    + minv. split; [by right|]. by intros ->.
    + by eapply IH.
    + destruct (so_error e1) as [|e2| |e2] eqn:Ee; try by eapply IH. minv. split; [by right|]. intros ->.
      unfold so_error in Ee. repeat case_match; try done. by injection Ee as ->. }
  destruct (check_inv _ _ _ _ _ _ _ Hi Hc) as [Hi' H0]. apply loop_ready in Hc; [|done]. split; [by left|]. intros _. by destruct Hc.
Qed.
Lemma fetch_ok s x a s' x' : dns_so_fetch s x = Val (a, s', x') -> so_answer s <> None ->
  match a with inl e => e = DNS_EUNKNOWN /\ s' = s | inr A => A <> None /\ so_ok false s' end.
Proof.
  intros Hc Hs. unfold dns_so_fetch in Hc. minv. dm Hc; [|done]. split; [done|by right].
Qed.
End Fetched.

(** ** The invariant *)
Section Invariant.
Context {o : SoOS} `{!SoOk o} {ro : ResOS o}.
Context (fuel : nat) (junk : Z) (e : env) (ca : option (cache o)).
(** Whether every call so far returned 0 or DNS_EAGAIN. *)
Context (live : bool).
Implicit Types (r : res) (f : frame).

Abbreviation asked f := (f_query f <> None).
Abbreviation answered f := (f_answer f <> None).
Abbreviation hinted f := (f_hints f <> None).

(** The frame on top, at depth [sp], with the frame above it; [l] says that the
    answer of the socket was not fetched. *)
Definition top_ok (l : bool) (so : dsock) (sp : nat) f (f1 : option frame) : Prop :=
  ((0 < sp)%nat -> asked f) /\
  match f_state f with
  | R_INIT | R_GLUE | R_SWITCH | R_FILE | R_BIND | R_SEARCH | R_SERVFAIL => True
  | R_CACHE | R_CHECK | R_FETCH => ca <> None
  | R_SUBMIT => ca <> None /\ asked f
  | R_HINTS => asked f
  | R_ITERATE | R_FOREACH_NS | R_FOREACH_A | R_RESOLV0_NS => asked f /\ hinted f
  | R_RESOLV1_NS => asked f /\ hinted f /\ exists g, f1 = Some g /\ asked g /\ answered g
  | R_QUERY_A => asked f /\ hinted f /\ so_ok fuel l so
  | R_CNAME0_A => asked f /\ answered f
  | R_CNAME1_A => answered f /\ exists g, f1 = Some g /\ answered g
  | R_FINISH | R_SMART0_A | R_DONE => answered f
  | R_SMART1_A => answered f /\ exists g, f1 = Some g /\ answered g
  end.
(** A frame below the top waits for the one above it. *)
Definition low_ok (d : nat) f : Prop :=
  ((0 < d)%nat -> asked f) /\
  match f_state f with
  | R_RESOLV1_NS => asked f /\ hinted f
  | R_CNAME1_A | R_SMART1_A => answered f
  | _ => False
  end.
Definition lows r (sp : nat) : Prop := forall d f, (d < sp)%nat -> r_stack r !! d = Some f -> low_ok d f.

(** The view a routine has: the top frame, the one above and the socket. *)
Definition At (sp : nat) f (f1 : option frame) (so : dsock) r : Prop :=
  length (r_stack r) = 8%nat /\ r_sp r = sp /\ lows r sp /\ r_stack r !! sp = Some f /\ r_stack r !! S sp = f1 /\ r_so r = so.
Definition res_inv (l : bool) r : Prop := exists (sp : nat) (f : frame) (f1 : option frame) (so : dsock), At sp f f1 so r /\ top_ok l so sp f f1.

(** The answer is there. *)
Definition res_done r : Prop := r_sp r = 0%nat /\ exists f A, r_stack r !! 0%nat = Some f /\ f_state f = R_DONE /\ f_answer f = Some A.
(** After a turn of the switch: the state DNS_R_SEARCH comes from DNS_R_BIND,
    as [from_bind] says. *)
Definition top_state r : option res_state := f_state <$> r_stack r !! r_sp r.
Context (from_bind : bool).
Definition stepped (n : next) r : Prop :=
  match n with
  | Exec => res_inv live r /\ (top_state r = Some R_SEARCH -> from_bind = true)
  | Ret err => res_inv (live && (err =? E_EAGAIN)) r /\ (err = 0 -> res_done r)
  end.

Lemma so_weak l l' s : implb l' l = true -> so_ok fuel l s -> so_ok fuel l' s.
Proof. intros Hl [?|[-> ?]]; [by left|]. right. by destruct l'. Qed.
Lemma top_weak l l' so sp f (f1 : option frame) : implb l' l = true -> top_ok l so sp f f1 -> top_ok l' so sp f f1.
Proof. unfold top_ok. intros Hl [? Ht]. split; [done|]. destruct (f_state f); try done. destruct Ht as (? & ? & ?). eauto using so_weak. Qed.

(** No null pointer is followed from [P], and [Q] holds of the result. *)
Definition rspec {A} (P : res -> Prop) (m : RM A) (Q : A -> res -> Prop) : Prop :=
  forall r x, P r -> match m r x with Val RNull => False | Val (ROk a r' _) => Q a r' | _ => True end.

Lemma rspec_ret {A} (a : A) P Q : (forall r, P r -> Q a r) -> rspec P (mret a) Q.
Proof. intros HQ r x HP. cbn. auto. Qed.
Lemma rspec_bind {A B} P R Q (m : RM A) (k : A -> RM B) : rspec P m R -> (forall a, rspec (R a) (k a) Q) -> rspec P (m ≫= k) Q.
Proof.
  intros Hm Hk r x HP. unfold mbind, RM_bind. specialize (Hm r x HP). destruct (m r x) as [[|a r' x']| |]; try done. by apply Hk.
Qed.
Lemma rspec_weaken {A} P P' (Q Q' : A -> res -> Prop) m : rspec P m Q -> (forall r, P' r -> P r) -> (forall a r, Q a r -> Q' a r) -> rspec P' m Q'.
Proof. intros Hm HP HQ r x Hr. specialize (Hm r x (HP _ Hr)). destruct (m r x) as [[]| |]; auto. Qed.
Lemma rspec_lift {A B} P Q (m : out A) (k : A -> RM B) : (forall a, m = Val a -> rspec P (k a) Q) -> rspec P (rlift m ≫= k) Q.
Proof. intros Hk r x HP. unfold mbind, RM_bind, rlift. destruct m as [a| |]; try done. by apply Hk. Qed.
Lemma rspec_stuck {A} P (m : out A) (Q : A -> res -> Prop) : (forall a, m <> Val a) -> rspec P (rlift m) Q.
Proof. intros Hm r x _. unfold rlift. destruct m as [a| |]; try done. by destruct (Hm a). Qed.
Lemma rspec_sys {A B} P Q (s : sos -> sos * A) (k : A -> RM B) : (forall a, rspec P (k a) Q) -> rspec P (sys s ≫= k) Q.
Proof. intros Hk r x HP. unfold mbind, RM_bind, sys. destruct (s x) as [x' a]. by apply Hk. Qed.
Lemma rspec_nn {A B} P Q (p : option A) (k : A -> RM B) : p <> None -> (forall a, p = Some a -> rspec P (k a) Q) -> rspec P (nn p ≫= k) Q.
Proof. intros Hp Hk r x HP. unfold mbind, RM_bind, nn. destruct p as [a|]; [|done]. by apply Hk. Qed.

Lemma rspec_put {B} P P' r' (k : unit -> RM B) Q : P' r' -> rspec P' (k tt) Q -> rspec P (putr r' ≫= k) Q.
Proof. intros Hr' Hk r x _. cbn. by apply Hk. Qed.

Section View.
Context (sp : nat) f (f1 : option frame) (so : dsock).

Lemma rspec_getr {B} (k : res -> RM B) Q : (forall r, At sp f f1 so r -> rspec (At sp f f1 so) (k r) Q) -> rspec (At sp f f1 so) (getr ≫= k) Q.
Proof. intros Hk r x Hr. cbn. by apply Hk. Qed.
Lemma rspec_getf {B} (k : frame -> RM B) Q : rspec (At sp f f1 so) (k f) Q -> rspec (At sp f f1 so) (getf ≫= k) Q.
Proof.
  intros Hk r x Hr. pose proof Hr as (_ & Hsp & _ & Hf & _). unfold getf, frame_at, mbind, RM_bind, getr. rewrite Hsp, Nat.add_0_r, Hf. by apply Hk.
Qed.
Lemma rspec_frame1 {B} (k : frame -> RM B) g Q : f1 = Some g -> rspec (At sp f f1 so) (k g) Q -> rspec (At sp f f1 so) (frame_at 1 ≫= k) Q.
Proof.
  intros Hg Hk r x Hr. pose proof Hr as (_ & Hsp & _ & _ & Hf & _). unfold frame_at, mbind, RM_bind, getr. rewrite Hsp, Nat.add_1_r, Hf, Hg. by apply Hk.
Qed.
Lemma rspec_putr {B} r' (k : unit -> RM B) Q : At sp f f1 so r' -> rspec (At sp f f1 so) (k tt) Q -> rspec (At sp f f1 so) (putr r' ≫= k) Q.
Proof. apply rspec_put. Qed.
Lemma rspec_putf {B} f' (k : unit -> RM B) Q : rspec (At sp f' f1 so) (k tt) Q -> rspec (At sp f f1 so) (putf f' ≫= k) Q.
Proof.
  intros Hk r x (Hl & Hsp & Hlow & Hf & Hf1 & Hso). unfold putf, put_frame, mbind, RM_bind, getr, putr. rewrite Hsp, Nat.add_0_r. apply Hk.
  split; [cbn; by rewrite length_insert|]. split; [done|]. cbn. assert (sp < length (r_stack r))%nat by (by apply lookup_lt_is_Some; eexists).
  split; [|by rewrite list_lookup_insert_eq, list_lookup_insert_ne by (done || lia)].
  intros d g Hd. cbn. rewrite list_lookup_insert_ne by lia. by apply Hlow.
Qed.
Lemma rspec_put1 {B} g (k : unit -> RM B) Q : (S sp < 8)%nat -> rspec (At sp f (Some g) so) (k tt) Q -> rspec (At sp f f1 so) (put_frame 1 g ≫= k) Q.
Proof.
  intros H8 Hk r x (Hl & Hsp & Hlow & Hf & Hf1 & Hso). unfold put_frame, mbind, RM_bind, getr, putr. rewrite Hsp, Nat.add_1_r. apply Hk.
  split; [cbn; by rewrite length_insert|]. split; [done|]. cbn.
  split; [|by rewrite list_lookup_insert_eq, list_lookup_insert_ne by (done || lia)].
  intros d g' Hd. cbn. rewrite list_lookup_insert_ne by lia. by apply Hlow.
Qed.

(** The end of a case. *)
Lemma goto_ok st : top_ok live so sp (set_fstate f st) f1 -> (st = R_SEARCH -> from_bind = true) -> rspec (At sp f f1 so) (goto st) stepped.
Proof.
  intros Ht Hb. unfold goto. apply rspec_getf, rspec_putf, rspec_ret. intros r Hr. split; [by exists sp, (set_fstate f st), f1, so|].
  destruct Hr as (_ & <- & _ & Hf & _). unfold top_state. rewrite Hf. cbn. intros [= E]. by apply Hb.
Qed.
Lemma ret_ok err : top_ok live so sp f f1 -> err <> 0 -> rspec (At sp f f1 so) (mret (Ret err)) stepped.
Proof.
  intros Ht He. apply rspec_ret. intros r Hr. split; [|done]. exists sp, f, f1, so. split; [done|]. eapply top_weak; [|exact Ht]. by destruct live, (err =? _).
Qed.
(** An error that ends the query. *)
Lemma err_ok err : top_ok false so sp f f1 -> err <> 0 -> err <> E_EAGAIN -> rspec (At sp f f1 so) (mret (Ret err)) stepped.
Proof.
  intros Ht He Hne%Z.eqb_neq. apply rspec_ret. intros r Hr. split; [|done]. rewrite Hne, andb_false_r. by exists sp, f, f1, so.
Qed.
Lemma orerr_fetched {A} (a : dns_error + A) k : top_ok false so sp f f1 -> (forall v, a = inr v -> rspec (At sp f f1 so) (k v) stepped) ->
  rspec (At sp f f1 so) (orerr a k) stepped.
Proof. intros Ht Hk. destruct a as [err|v]; cbn [orerr]; [by apply err_ok; [|destruct err..]|by apply Hk]. Qed.
Lemma orerr_ok {A} (a : dns_error + A) k : top_ok live so sp f f1 -> (forall v, a = inr v -> rspec (At sp f f1 so) (k v) stepped) ->
  rspec (At sp f f1 so) (orerr a k) stepped.
Proof. intros Ht. apply orerr_fetched. by eapply top_weak. Qed.
Lemma expanded_fetched src P k : top_ok false so sp f f1 -> (forall t, rspec (At sp f f1 so) (k t) stepped) -> rspec (At sp f f1 so) (expanded fuel junk src P k) stepped.
Proof.
  intros Ht Hk. unfold expanded. apply rspec_lift. intros [err|t] Et; [by apply err_ok; [|destruct err..]|].
  destruct t as [|b t]; [by apply expand_some in Et|]. case_match; [by apply err_ok|apply Hk].
Qed.
Lemma expanded_ok src P k : top_ok live so sp f f1 -> (forall t, rspec (At sp f f1 so) (k t) stepped) -> rspec (At sp f f1 so) (expanded fuel junk src P k) stepped.
Proof. intros Ht. apply expanded_fetched. by eapply top_weak. Qed.
Lemma ns_host_ok {B} a (k : list Z -> RM B) Q : (forall h, rspec (At sp f f1 so) (k h) Q) -> rspec (At sp f f1 so) (ns_host a ≫= k) Q.
Proof. intros Hk. destruct a; try (by intros r x _). intros r x Hr. by apply Hk. Qed.
Lemma grep1_ok {B} i P (k : option rr * rr_i -> RM B) Q : (forall a, rspec (At sp f f1 so) (k a) Q) -> rspec (At sp f f1 so) (grep1 fuel junk i P ≫= k) Q.
Proof.
  intros Hk. eapply (rspec_bind _ (fun _ => At sp f f1 so)); [|exact Hk]. unfold grep1. apply rspec_sys. intros seed. apply rspec_lift.
  intros [[rs i'] er] _. by apply rspec_ret.
Qed.
Lemma first_ok {B} i P (k : option rr -> RM B) Q : (forall a, rspec (At sp f f1 so) (k a) Q) -> rspec (At sp f f1 so) (first fuel junk i P ≫= k) Q.
Proof.
  intros Hk. eapply (rspec_bind _ (fun _ => At sp f f1 so)); [|exact Hk]. unfold first. apply grep1_ok. intros [a i']. by apply rspec_ret.
Qed.
Lemma all_ok {B} i P (k : list rr -> RM B) Q : (forall a, rspec (At sp f f1 so) (k a) Q) -> rspec (At sp f f1 so) (all fuel junk i P ≫= k) Q.
Proof.
  intros Hk. eapply (rspec_bind _ (fun _ => At sp f f1 so)); [|exact Hk]. unfold all. apply rspec_sys. intros seed. intros r x Hr. unfold rlift.
  by destruct (foreach _ _ _ _ _ _).
Qed.
Lemma make_ok {B} n (k : option packet -> RM B) Q : (forall a, rspec (At sp f f1 so) (k a) Q) -> rspec (At sp f f1 so) (make n ≫= k) Q.
Proof.
  intros Hk. eapply (rspec_bind _ (fun _ => At sp f f1 so)); [|exact Hk]. unfold make. apply rspec_sys. intros. by apply rspec_ret.
Qed.
(** A search leaves the frames alone. *)
Lemma at_search r v : At sp f f1 so r -> At sp f f1 so (set_rsearch r v).
Proof. done. Qed.
Lemma at_smart r v : At sp f f1 so r -> At sp f f1 so (set_smart_i r v).
Proof. done. Qed.
Lemma next_name_ok {B} (k : list Z -> RM B) Q : (forall a, rspec (At sp f f1 so) (k a) Q) -> rspec (At sp f f1 so) (next_name junk e ≫= k) Q.
Proof.
  intros Hk. eapply (rspec_bind _ (fun _ => At sp f f1 so)); [|exact Hk]. unfold next_name. apply rspec_getr. intros r Hr. apply rspec_lift.
  intros q _. apply rspec_lift. intros [[host n] st] _. apply rspec_putr; [by apply at_search|]. intros r' x Hr'. unfold rlift. by destruct (rdn _ _ _).
Qed.
Lemma at_down r g : At sp f (Some g) so r -> (S sp < 8)%nat -> low_ok sp f -> asked g ->
  At (S sp) g (r_stack r !! S (S sp)) so (set_stack r (r_stack r) (S (r_sp r))).
Proof.
  intros (Hl & Hsp & Hlow & Hf & Hf1 & Hso) H8 Hlo Hg. split; [done|]. split; [cbn; by rewrite Hsp|]. split; [|done].
  intros d f' Hd Hd'. cbn in Hd'. destruct (decide (d = sp)) as [->|]; [by rewrite Hf in Hd'; injection Hd' as <-|]. apply Hlow; [lia|done].
Qed.
End View.

Lemma call_ok sp f g so st : (S sp < 8)%nat -> low_ok sp (set_fstate f st) -> asked g -> rspec (At sp f (Some g) so) (call_frame st) stepped.
Proof.
  intros H8 Hlo Hg. unfold call_frame. apply rspec_getf, rspec_putf, rspec_getr. intros r Hr. intros r' x _. cbn [putr mbind RM_bind].
  eapply (goto_ok (S sp) g (r_stack r !! S (S sp)) so); [| |by apply (at_down sp (set_fstate f st))]; [by split|done].
Qed.
Lemma on_so_ok {A B} sp f (f1 : option frame) so (m : SM A) (k : A -> RM B) Q :
  (forall x a so' x', m so x = Val (a, so', x') -> rspec (At sp f f1 so') (k a) Q) -> rspec (At sp f f1 so) (on_so m ≫= k) Q.
Proof.
  intros Hk r x (Hl & Hsp & Hlow & Hf & Hf1 & Hso). unfold mbind, RM_bind, on_so. rewrite Hso. destruct (m so x) as [[[a so'] x']| |] eqn:Em; try done.
  eapply Hk; [exact Em|]. done.
Qed.

(** ** The cases *)
Section Cases.
Context (sp : nat) f (f1 : option frame) (so : dsock) (H8 : (sp < 8)%nat) (Htop : top_ok live so sp f f1).
Context (Hbind : f_state f = R_BIND -> from_bind = true).

(** What the state of the frame gives, and what the next one asks for. *)
Ltac tok := unfold top_ok, low_ok in *; cbn [f_state f_query f_answer f_hints set_fstate set_fanswer set_fquery set_fhints set_which set_tries
  set_hints_i set_hints_j set_hints_ns set_ans_cname] in *;
  repeat match goal with H : f_state _ = _ |- _ => rewrite H in * end; try done; naive_solver.

Ltac done_goto := apply goto_ok; [tok|try done].
Ltac done_ret := apply ret_ok; [tok|try done; try apply errnum_0].

Lemma glue_ok : f_state f = R_GLUE -> rspec (At sp f f1 so) (case_glue fuel junk) stepped.
Proof.
  intros Hst. unfold case_glue. apply rspec_getr. intros r Hr. apply rspec_getf. destruct (Nat.eqb_spec (r_sp r) 0) as [E0|E0]; [done_goto|].
  assert (r_sp r = sp) as Esp by (by destruct Hr as (_ & ? & _)). destruct Htop as [Hq _]. apply rspec_nn; [apply Hq; lia|]. intros q _.
  apply rspec_sys. intros malloc. apply rspec_sys. intros seed. apply rspec_lift. intros a _. apply rspec_putf.
  destruct a as [A|]; [|done_goto]. apply expanded_ok; [tok|]. intros host. apply rspec_lift. intros qtype _. apply first_ok. intros [c|]; [done_goto|].
  apply first_ok. intros [c|]; [|done_goto]. apply rspec_putf. apply goto_ok; [|done]. unfold top_ok. cbn. split; [tok|]. split; [apply Hq; lia|done].
Qed.

Lemma switch_ok : f_state f = R_SWITCH -> rspec (At sp f f1 so) (case_switch e ca) stepped.
Proof.
  intros Hst. unfold case_switch. apply rspec_getf. destruct (switch_loop _ _ 4 _) as [which st] eqn:Es. apply rspec_putf.
  assert (forall n w, switch_loop e ca n w = (which, st) -> st = R_BIND \/ st = R_FILE \/ st = R_CACHE /\ ca <> None \/ st = R_SERVFAIL) as Hs.
  { clear. induction n as [|n IH]; intros w; cbn [switch_loop]; [intros [= <- <-]; auto|].
    case_match; [|intros [= <- <-]; auto]. case_match; [intros [= <- <-]; auto|]. case_match; [intros [= <- <-]; auto|].
    case_match eqn:Ec; [|apply IH]. intros [= <- <-]. apply andb_prop in Ec as [_ Ec%bool_decide_eq_true]. right; right; left. split; [done|]. by destruct Ec as [? ->]. }
  apply Hs in Es as [->|[->|[[-> Hc]| ->]]]; done_goto.
Qed.

Lemma file_query_ok f' q none : f_state f' = R_FILE -> top_ok live so sp f' f1 ->
  (forall f'', f_state f'' = R_FILE -> top_ok live so sp f'' f1 -> rspec (At sp f'' f1 so) none stepped) -> rspec (At sp f' f1 so) (file_query fuel junk e q none) stepped.
Proof.
  intros Hst Ht Hn. unfold file_query. apply rspec_getf, rspec_sys. intros malloc. apply rspec_lift. intros [err|A] _.
  - apply rspec_putf. done_ret.
  - apply rspec_lift. intros n _. case_match; apply rspec_putf; [done_goto|]. apply Hn; tok.
Qed.
Lemma file_loop_ok n : forall f', f_state f' = R_FILE -> top_ok live so sp f' f1 -> rspec (At sp f' f1 so) (file_loop fuel junk e n) stepped.
Proof.
  induction n as [|n IH]; intros f' Hst Ht; cbn [file_loop]; [by apply rspec_stuck|]. apply next_name_ok. intros [|b host]; [done_goto|].
  apply rspec_getr. intros r Hr. cbn [dns_p_init]. apply rspec_lift. intros [Q [err|]] _; [done_ret|]. by apply file_query_ok.
Qed.
Lemma file_ok : f_state f = R_FILE -> rspec (At sp f f1 so) (case_file fuel junk e) stepped.
Proof.
  intros Hst. unfold case_file. apply rspec_getr. intros r Hr. apply rspec_getf. destruct (Nat.ltb_spec 0 (r_sp r)) as [Hsp|].
  - assert (r_sp r = sp) as Esp by (by destruct Hr as (_ & ? & _)). destruct Htop as [Hq _]. apply rspec_nn; [apply Hq; lia|]. intros q _.
    apply file_query_ok; [done|done|]. intros. done_goto.
  - apply rspec_putr; [by apply at_search|]. by apply file_loop_ok.
Qed.

Lemma cache_answer_ok a f' none : top_ok live so sp f' f1 -> f_state f' = R_CACHE \/ f_state f' = R_FETCH ->
  none <> R_SEARCH -> (forall f'', f_query f'' = f_query f' -> top_ok live so sp (set_fstate f'' none) f1) -> rspec (At sp f' f1 so) (cache_answer a none) stepped.
Proof.
  intros Ht Hst Hns Hn. unfold cache_answer. apply rspec_getf. destruct (a.1) as [A|].
  - apply rspec_lift. intros n _. destruct Hst as [Hst|Hst]; case_match; apply rspec_putf; done_goto.
  - apply rspec_putf. destruct (Z.eqb_spec (a.2) 0) as [E|E]; cbn [negb]; [apply goto_ok; [by apply Hn|done]|]. destruct Hst as [Hst|Hst]; done_ret.
Qed.
Lemma cache_ok : f_state f = R_CACHE -> rspec (At sp f f1 so) (case_cache fuel e ca) stepped.
Proof.
  intros Hst. unfold case_cache. apply rspec_getr. intros r Hr. apply rspec_getf. apply rspec_nn; [tok|]. intros c Hc. apply rspec_sys. intros malloc.
  eapply (rspec_bind _ (fun _ => At sp f f1 so)).
  { case_match; [by apply rspec_ret|]. intros r' x Hr'. unfold rlift. by destruct (dns_res_mkquery _ _ _ _ _ _). }
  intros q. apply orerr_ok; [done|]. intros v ->. apply rspec_putf, rspec_sys. intros a. apply cache_answer_ok; [tok|by left|done|].
  intros f'' Hq. unfold top_ok. cbn in *. rewrite Hq. split; [done|]. split; [congruence|done].
Qed.
Lemma submit_ok : f_state f = R_SUBMIT -> rspec (At sp f f1 so) (case_submit ca) stepped.
Proof.
  intros Hst. unfold case_submit. apply rspec_getf. apply rspec_nn; [tok|]. intros c Hc. apply rspec_nn; [tok|]. intros q Hq.
  apply rspec_sys. intros err. destruct (Z.eqb_spec err 0); cbn [negb]; [done_goto|by done_ret].
Qed.
Lemma check_case_ok : f_state f = R_CHECK -> rspec (At sp f f1 so) (case_check ca) stepped.
Proof.
  intros Hst. unfold case_check. apply rspec_nn; [tok|]. intros c Hc. apply rspec_sys. intros err.
  destruct (Z.eqb_spec err 0); cbn [negb]; [done_goto|by done_ret].
Qed.
Lemma fetch_case_ok : f_state f = R_FETCH -> rspec (At sp f f1 so) (case_fetch ca) stepped.
Proof.
  intros Hst. unfold case_fetch. apply rspec_nn; [tok|]. intros c Hc. apply rspec_sys. intros a. apply cache_answer_ok; [done|by right|done|].
  intros f'' Hq. unfold top_ok. cbn. rewrite Hq. tok.
Qed.

Lemma bind_ok : f_state f = R_BIND -> rspec (At sp f f1 so) case_bind stepped.
Proof.
  intros Hst. unfold case_bind. apply rspec_getr. intros r Hr. apply rspec_getf. destruct (Nat.ltb_spec 0 (r_sp r)) as [Hsp|].
  - assert (r_sp r = sp) as Esp by (by destruct Hr as (_ & ? & _)). destruct Htop as [Hq _]. assert (asked f) as Hqf by (apply Hq; lia).
    apply rspec_nn; [done|]. intros q _. done_goto.
  - apply rspec_putr; [by apply at_search|]. done_goto. auto.
Qed.
Lemma search_ok : f_state f = R_SEARCH -> rspec (At sp f f1 so) (case_search fuel junk e) stepped.
Proof.
  intros Hst. unfold case_search. apply next_name_ok. intros [|b host]; [done_goto|]. apply make_ok. intros [P|]; [|done_ret].
  apply rspec_lift. intros P' _. apply rspec_getr. intros r Hr. apply rspec_getf, rspec_lift. intros [Q [err|]] _; apply rspec_putf; [done_ret|done_goto].
Qed.
Lemma hints_ok : f_state f = R_HINTS -> rspec (At sp f f1 so) (case_hints fuel junk e) stepped.
Proof.
  intros Hst. unfold case_hints. apply rspec_getf. apply rspec_nn; [tok|]. intros q Hq. apply rspec_sys. intros malloc. apply rspec_sys. intros rnd.
  apply rspec_lift. intros [err|H] _; apply rspec_putf; [done_ret|done_goto].
Qed.
Lemma iterate_ok : f_state f = R_ITERATE -> rspec (At sp f f1 so) (case_iterate fuel junk) stepped.
Proof. intros Hst. unfold case_iterate. apply rspec_getf. apply rspec_nn; [tok|]. intros H HH. apply rspec_sys. intros seed. apply rspec_putf. done_goto. Qed.
Lemma foreach_ns_ok : f_state f = R_FOREACH_NS -> rspec (At sp f f1 so) (case_foreach_ns fuel junk e) stepped.
Proof.
  intros Hst. unfold case_foreach_ns. apply rspec_getf. apply rspec_nn; [tok|]. intros H HH. apply grep1_ok. intros [[ns|] i]; apply rspec_putf; [done_goto|].
  case_match; done_goto.
Qed.

(** A frame is set up above the top. *)
Lemma not_full r : At sp f f1 so r -> full r = false -> (S sp < 8)%nat.
Proof. intros (_ & <- & _). unfold full, DNS_R_MAXDEPTH. intros Hf%Z.leb_gt. lia. Qed.
Lemma push_down_ok f' g st P name qtype : (S sp < 8)%nat -> top_ok live so sp f' (Some g) -> (forall g', top_ok live so sp f' (Some g')) -> low_ok sp (set_fstate f' st) ->
  rspec (At sp f' (Some g) so) (push_down fuel st P name qtype) stepped.
Proof.
  intros H1 Ht Hg Hlo. unfold push_down. apply rspec_lift. intros [Q err] _. apply rspec_put1; [done|]. destruct err as [err|].
  - apply ret_ok; [apply Hg|apply errnum_0].
  - by apply call_ok.
Qed.
Lemma resolv0_ok : f_state f = R_RESOLV0_NS -> rspec (At sp f f1 so) (case_resolv0 fuel) stepped.
Proof.
  intros Hst. unfold case_resolv0. apply rspec_getr. intros r Hr. destruct (full r) eqn:Ef; [done_goto|]. pose proof (not_full r Hr Ef) as H1.
  apply rspec_getf, make_ok. intros P. apply rspec_put1; [done|]. destruct P as [P|]; [|done_ret]. apply rspec_nn; [tok|]. intros H HH.
  apply rspec_lift. intros a _. apply orerr_ok; [tok|]. intros v ->. apply ns_host_ok. intros h. apply push_down_ok; [done|tok..].
Qed.
Lemma add_glue_ok A rs : forall f', f_state f' = R_RESOLV1_NS -> top_ok live so sp f' f1 -> rspec (At sp f' f1 so) (add_glue fuel rs A) stepped.
Proof.
  induction rs as [|rr rs IH]; intros f' Hst Ht; cbn [add_glue]; [done_goto|]. apply rspec_getf. apply rspec_nn; [tok|]. intros H HH.
  apply rspec_lift. intros [H' [err|]] _; apply rspec_putf; [done_ret|]. apply IH; tok.
Qed.
Lemma resolv1_ok : f_state f = R_RESOLV1_NS -> rspec (At sp f f1 so) (case_resolv1 fuel junk) stepped.
Proof.
  intros Hst. unfold case_resolv1. assert (exists g, f1 = Some g /\ asked g /\ answered g) as (g & Hg & Hq & Ha) by tok.
  eapply rspec_frame1; [exact Hg|]. apply rspec_nn; [done|]. intros q Hq'. apply expanded_ok; [done|]. intros host. apply rspec_nn; [done|]. intros A HA.
  apply all_ok. intros rs. by apply add_glue_ok.
Qed.

Lemma foreach_a_ok : f_state f = R_FOREACH_A -> rspec (At sp f f1 so) (case_foreach_a fuel junk e) stepped.
Proof.
  intros Hst. unfold case_foreach_a. apply rspec_getf. apply rspec_nn; [tok|]. intros H HH. apply rspec_lift. intros a _. apply orerr_ok; [done|].
  intros v ->. apply ns_host_ok. intros host. apply grep1_ok. intros [rr j]. apply rspec_putf. destruct rr as [rr|]; [|case_match; done_goto].
  apply rspec_lift. intros a _. apply orerr_ok; [tok|]. intros v' ->. apply rspec_getr. intros r Hr.
  destruct v'; try (by intros r' x' _). eapply (rspec_bind _ (fun _ => _)); [apply rspec_ret; intros r' Hr'; exact Hr'|]. intros n.
  apply rspec_nn; [tok|]. intros q Hq. apply on_so_ok. intros x [err q'] so' x' Hs. apply rspec_putf.
  destruct (Z.eqb_spec err 0) as [->|]; cbn [negb].
  - apply goto_ok; [|done]. unfold top_ok. cbn. split; [done|]. split; [done|]. split; [tok|]. left. split; [by eapply submit_ready|by eapply submit_inv].
  - apply ret_ok; [|done]. unfold top_ok. cbn. rewrite Hst. split; [done|]. split; [done|tok].
Qed.

Lemma elapsed_so x a so' x' : dns_so_elapsed so x = Val (a, so', x') -> so' = so.
Proof. intros Hc. unfold dns_so_elapsed in Hc. by minv. Qed.

Lemma query_ok : f_state f = R_QUERY_A -> rspec (At sp f f1 so) (case_query fuel junk e) stepped.
Proof.
  intros Hst. assert (so_ok fuel live so) as Hso by tok. unfold case_query. apply on_so_ok. intros x el so0 x' ->%elapsed_so. case_match; [done_goto|].
  apply on_so_ok. intros x1 err so1 x1' Hc. destruct (check_ok fuel _ _ _ _ _ _ Hso Hc) as [Hso1 H0]. assert (top_ok live so1 sp f f1) as Ht1 by tok.
  destruct (Z.eqb_spec err 0) as [->|]; cbn [negb]; [|by apply ret_ok]. apply on_so_ok. intros x2 a so2 x2' Hf.
  pose proof (fetch_ok fuel _ _ _ _ _ Hf (H0 eq_refl)) as Ha. apply rspec_getf. destruct a as [err|[A|]]; [destruct Ha as [-> ->]; apply rspec_putf; apply ret_ok; [tok|done]| |by destruct Ha].
  destruct Ha as [_ Hso2].
  apply rspec_putf. set (f2 := set_fanswer f (Some A)). assert (f_state f2 = R_QUERY_A) as Hst2 by done. assert (answered f2) as Ha2 by done.
  assert (top_ok false so2 sp f2 f1) as Ht2 by tok. apply rspec_nn; [tok|]. intros q Hq. apply rspec_lift. intros rr _. apply orerr_fetched; [done|]. intros qr ->.
  apply expanded_fetched; [done|]. intros host. apply first_ok. intros [c|]; [done_goto|]. apply first_ok. intros [c|]; [apply rspec_putf; done_goto|].
  case_match; [done_goto|]. apply first_ok. intros [c|]; [apply rspec_putf; done_goto|]. apply rspec_lift. intros [|] _; done_goto.
Qed.

Lemma cname0_ok : f_state f = R_CNAME0_A -> rspec (At sp f f1 so) (case_cname0 fuel) stepped.
Proof.
  intros Hst. unfold case_cname0. apply rspec_getr. intros r Hr. destruct (full r) eqn:Ef; [done_goto|]. pose proof (not_full r Hr Ef) as H1.
  apply rspec_getf. apply rspec_nn; [tok|]. intros A HA. apply rspec_lift. intros a _. apply orerr_ok; [done|]. intros v ->. apply ns_host_ok. intros h.
  apply make_ok. intros P. apply rspec_put1; [done|]. destruct P as [P|]; [|done_ret]. apply rspec_nn; [tok|]. intros q Hq. apply rspec_lift. intros qt _.
  apply push_down_ok; [done|tok..].
Qed.
Lemma cname1_ok : f_state f = R_CNAME1_A -> rspec (At sp f f1 so) (case_cname1 fuel junk) stepped.
Proof.
  intros Hst. unfold case_cname1. assert (exists g, f1 = Some g /\ answered g) as (g & Hg & Ha) by tok. apply rspec_getf.
  eapply rspec_frame1; [exact Hg|]. apply rspec_nn; [tok|]. intros A HA. apply rspec_nn; [done|]. intros A1 HA1. apply rspec_sys. intros malloc.
  apply rspec_sys. intros seed. apply rspec_lift. intros m _. apply orerr_ok; [done|]. intros P ->. apply rspec_putf. done_goto.
Qed.
Lemma finish_ok : f_state f = R_FINISH -> rspec (At sp f f1 so) (case_finish e) stepped.
Proof.
  intros Hst. unfold case_finish. apply rspec_getr. intros r Hr. apply rspec_getf. apply rspec_nn; [tok|]. intros A HA. case_match; [done_goto|].
  apply rspec_putr; [by apply at_smart|]. done_goto.
Qed.

Lemma smart_down_ok name : (S sp < 8)%nat -> f_state f = R_SMART0_A -> rspec (At sp f f1 so) (smart_down fuel e name) stepped.
Proof.
  intros H1 Hst. unfold smart_down. apply rspec_sys. intros malloc. apply rspec_lift. intros [err|q] _; apply rspec_put1; try done; [done_ret|].
  apply call_ok; [done|tok|done].
Qed.
Lemma smart_loop_ok A n : (S sp < 8)%nat -> f_state f = R_SMART0_A -> rspec (At sp f f1 so) (smart_loop fuel junk e n A) stepped.
Proof.
  intros H1 Hst. induction n as [|n IH]; cbn [smart_loop]; [by apply rspec_stuck|]. apply rspec_getr. intros r Hr. apply grep1_ok. intros [rr i].
  apply rspec_putr; [by apply at_smart|]. destruct rr as [rr|].
  - case_match; [|exact IH]. apply rspec_lift. intros a _. apply orerr_ok; [done|]. intros v ->. destruct v; try (by intros r' x' _); by apply smart_down_ok.
  - case_match; [|done_goto]. apply rspec_sys. intros malloc. apply rspec_lift. intros [err|q] _; apply rspec_put1; try done; [done_ret|].
    apply rspec_getr. intros r' Hr'. apply rspec_putr; [by apply at_smart|]. apply call_ok; [done|tok|done].
Qed.
Lemma smart0_ok : f_state f = R_SMART0_A -> rspec (At sp f f1 so) (case_smart0 fuel junk e) stepped.
Proof.
  intros Hst. unfold case_smart0. apply rspec_getr. intros r Hr. apply rspec_getf. destruct (full r) eqn:Ef; [done_goto|].
  apply rspec_nn; [tok|]. intros A HA. apply smart_loop_ok; [by apply (not_full r)|done].
Qed.
Lemma copy_grow_ok n rr A1 : forall f', f_state f' = R_SMART1_A -> top_ok live so sp f' f1 ->
  rspec (At sp f' f1 so) (copy_grow fuel n rr A1) (fun err r => err <> Some 0 /\ exists f', f_state f' = R_SMART1_A /\ top_ok live so sp f' f1 /\ At sp f' f1 so r).
Proof.
  induction n as [|n IH]; intros f' Hst Ht; cbn [copy_grow]; [by apply rspec_stuck|]. apply rspec_getf. apply rspec_nn; [tok|]. intros A HA.
  assert (forall P, top_ok live so sp (set_fanswer f' (Some P)) f1) as Hset by (intros; tok).
  apply rspec_lift. intros [A' err] _. apply rspec_putf. destruct err as [err|]; [|apply rspec_ret; intros r Hr; split; [done|]; by exists (set_fanswer f' (Some A'))].
  case_match; [apply rspec_ret; intros r Hr; split; [|by exists (set_fanswer f' (Some A'))]; intros [= Hz]; by apply errnum_0 in Hz|]. apply rspec_sys. intros malloc. apply rspec_sys. intros realloc.
  destruct (dns_p_grow malloc realloc (Some A')) as [A2 er] eqn:Eg. assert (exists P, A2 = Some P) as [P ->].
  { unfold dns_p_grow in Eg. destruct (65536 <? _); [injection Eg as <- _; by eexists|]. destruct (realloc _ _); injection Eg as <- _; by eexists. }
  apply rspec_putf. destruct er as [er|]; [|apply IH; done]. apply rspec_ret. intros r Hr. split; [|by exists (set_fanswer f' (Some P))]. intros [= Hz]. by apply errnum_0 in Hz.
Qed.
Lemma add_smart_ok A1 rs : forall f', f_state f' = R_SMART1_A -> top_ok live so sp f' f1 -> rspec (At sp f' f1 so) (add_smart fuel junk rs A1) stepped.
Proof.
  induction rs as [|rr rs IH]; intros f' Hst Ht; cbn [add_smart]; [done_goto|]. apply rspec_getf. apply rspec_nn; [tok|]. intros A HA.
  eapply (rspec_bind _ (fun _ => At sp f' f1 so)).
  { unfold dns_rr_exists. apply all_ok. intros l. intros r x Hr. unfold rlift. by destruct (known _ _ _ _ _ _). }
  intros [|]; [by apply IH|]. eapply rspec_bind; [by apply copy_grow_ok|]. intros [err|].
  - apply rspec_ret. intros r (Hne & f'' & Hst'' & Ht'' & Hr). split; [|by intros ->]. exists sp, f'', f1, so. split; [done|]. eapply top_weak; [|exact Ht'']. by destruct live, (_ =? _).
  - intros r x (_ & f'' & Hst'' & Ht'' & Hr). by apply (IH f'').
Qed.
Lemma smart1_ok : f_state f = R_SMART1_A -> rspec (At sp f f1 so) (case_smart1 fuel junk) stepped.
Proof.
  intros Hst. unfold case_smart1. assert (exists g, f1 = Some g /\ answered g) as (g & Hg & Ha) by tok. eapply rspec_frame1; [exact Hg|].
  apply rspec_nn; [done|]. intros A1 HA1. apply all_ok. intros rs. by apply add_smart_ok.
Qed.

(** The answer goes to the frame below. *)
Lemma at_up r sp' : sp = S sp' -> At sp f f1 so r -> exists g, At sp' g (Some f) so (set_stack r (r_stack r) sp') /\ low_ok sp' g.
Proof.
  intros -> (Hl & Hsp & Hlow & Hf & Hf1 & Hso). destruct (lookup_lt_is_Some_2 (r_stack r) sp') as [g Hg]; [lia|]. exists g. split; [|apply Hlow; [lia|done]].
  split; [done|]. split; [done|]. split; [|done]. intros d f' Hd Hd'. apply Hlow; [lia|done].
Qed.
Lemma done_ok : f_state f = R_DONE -> rspec (At sp f f1 so) (case_done) stepped.
Proof.
  intros Hst. unfold case_done. assert (answered f) as Ha by tok. apply rspec_getr. intros r Hr. apply rspec_getf. apply rspec_nn; [done|]. intros A HA.
  destruct (r_sp r) as [|sp'] eqn:Esp; pose proof Hr as (_ & Hsp & _ & Hf & _).
  - apply rspec_ret. intros r' Hr'. split; [exists sp, f, f1, so; split; [done|eapply top_weak; [|exact Htop]; by destruct live]|]. intros _. destruct Hr' as (_ & Hsp' & _ & Hf' & _). rewrite Esp in Hsp. subst sp.
    split; [done|]. by exists f, A.
  - rewrite Esp in Hsp. destruct (at_up r sp' (eq_sym Hsp) Hr) as (g & Hg & Hlo). eapply rspec_put; [exact Hg|].
    apply rspec_getf. assert (f_state g <> R_SEARCH) as Hns by (destruct Hlo as [_ Hlo]; by destruct (f_state g)). apply goto_ok; [|done].
    assert (asked f) as Hqf by (destruct Htop as [Hq _]; apply Hq; lia). destruct Hlo as [Hq Hlo]. split; [done|]. cbn. destruct (f_state g); try done; [|split; [done|]; by exists f..].
    destruct Hlo. split; [done|]. split; [done|]. by exists f.
Qed.
Lemma servfail_ok : f_state f = R_SERVFAIL -> rspec (At sp f f1 so) (case_servfail fuel) stepped.
Proof.
  intros Hst. unfold case_servfail. apply rspec_getr. intros r Hr. apply rspec_getf, make_ok. intros [P|]; [|apply rspec_putf; done_ret].
  apply rspec_lift. intros P1 _. apply rspec_lift. intros P2 _. apply rspec_lift. intros [P3 [err|]] _; apply rspec_putf; [done_ret|done_goto].
Qed.

Lemma step_at : rspec (At sp f f1 so) (res_step fuel junk e ca) stepped.
Proof.
  unfold res_step. apply rspec_getf. assert (exists st, f_state f = st) as [st Hst] by eauto. rewrite Hst. destruct st;
    eauto using glue_ok, switch_ok, file_ok, cache_ok, submit_ok, check_case_ok, fetch_case_ok, bind_ok, search_ok, hints_ok, iterate_ok, foreach_ns_ok,
      resolv0_ok, resolv1_ok, foreach_a_ok, query_ok, cname0_ok, cname1_ok, finish_ok, smart0_ok, smart1_ok, done_ok, servfail_ok.
  done_goto.
Qed.
End Cases.

End Invariant.

(** ** Runs *)
Section Runs.
Context {o : SoOS} `{!SoOk o} {ro : ResOS o}.
Context (fuel : nat) (junk : Z) (e : env) (ca : option (cache o)).
Context (live : bool).

(** A turn of the switch: DNS_R_SEARCH comes after DNS_R_BIND only. *)
Lemma step_ok r0 : rspec (fun r => r = r0 /\ res_inv fuel ca live r) (res_step fuel junk e ca)
  (stepped fuel ca live (bool_decide (top_state r0 = Some R_BIND))).
Proof.
  intros r x [-> (sp & f & f1 & so & Hat & Ht)]. assert (sp < 8)%nat as H8.
  { destruct Hat as (Hl & _ & _ & Hf & _). apply lookup_lt_Some in Hf. lia. }
  apply (step_at fuel junk e ca live _ sp f f1 so H8 Ht); [|done]. intros Hst. apply bool_decide_eq_true. destruct Hat as (_ & <- & _ & Hf & _).
  unfold top_state. by rewrite Hf, <- Hst.
Qed.
Lemma exec_ok n : rspec (res_inv fuel ca live) (dns_res_exec fuel junk e ca n) (fun err r => res_inv fuel ca (live && (err =? E_EAGAIN)) r /\ (err = 0 -> res_done r)).
Proof.
  induction n as [|n IH]; cbn [dns_res_exec]; [by apply rspec_stuck|]. eapply (rspec_bind _ (stepped fuel ca live true)).
  { intros r x Hr. pose proof (step_ok r r x (conj eq_refl Hr)) as Hs. destruct (res_step _ _ _ _ _ _) as [[|a r' x']| |]; try done.
    destruct a; [|done]. by destruct Hs. }
  intros [|err].
  - eapply rspec_weaken; [exact IH| |done]. by intros r [].
  - by apply rspec_ret.
Qed.

(** A query that was submitted. *)
Lemma submit_res_ok qname qtype qclass : rspec (fun _ => True) (dns_res_submit qname qtype qclass) (fun err r => err = 0 /\ res_inv fuel ca live r).
Proof.
  assert (forall r x, exists r', dns_res_reset r x = Val (ROk tt r' x) /\ r_stack r' = replicate 8 frame0 /\ r_sp r' = 0%nat) as Hreset.
  { intros r x. by eexists. }
  intros r x _. unfold dns_res_submit, mbind, RM_bind, getr, putr, sys. destruct (Hreset r x) as (r' & -> & Hst & Hsp).
  destruct (so_now x) as [x' now]. split; [done|]. exists 0%nat, frame0, (Some frame0), (r_so r'). split; [|split; [lia|done]].
  unfold At. cbn [r_stack r_sp r_so]. rewrite Hst, Hsp. split; [done|]. split; [done|]. split; [|done]. intros d f Hd. lia.
Qed.
End Runs.
