(* ===== verification/DnsResThm.v ===== *)
(** What the resolver of libdns guarantees. *)

From stdpp Require Import prelude.
From Stdlib Require Import ZArith Lia Permutation.
From S2P Require Import Prelude DnsBase DnsName DnsRr DnsRdata DnsPacket DnsResconf DnsHosts DnsHints DnsPermutor DnsSo DnsSoSpec DnsSoFd DnsRes DnsResSpec.
Local Open Scope Z_scope.

#[local] Existing Instance RM_ret.
#[local] Existing Instance RM_bind.

Section Thm.
Context {o : SoOS} `{!SoOk o} {ro : ResOS o}.
Context (fuel : nat) (junk : Z) (e : env) (ca : option (cache o)).

(** Calls of [dns_res_check] on a resolver, the world changing between them, and
    what they returned. *)
Inductive polled : res -> list Z -> res -> Prop :=
  | polled_refl r : polled r [] r
  | polled_step r n x err r1 x1 es r2 : dns_res_check fuel junk e ca n r x = Val (ROk err r1 x1) -> polled r1 es r2 -> polled r (err :: es) r2.

(** Every call said that it would block. *)
Definition waiting (es : list Z) : bool := forallb (Z.eqb E_EAGAIN) es.

Lemma polled_inv r es r' : polled r es r' -> forall live, res_inv fuel ca live r -> res_inv fuel ca (live && waiting es) r'.
Proof.
  induction 1 as [|r n x err r1 x1 es r2 Hc _ IH]; intros live Hi; [by rewrite andb_true_r|]. pose proof (exec_ok fuel junk e ca live n r x Hi) as He.
  unfold dns_res_check in Hc. rewrite Hc in He. destruct He as [He%IH _]. cbn [waiting forallb]. by rewrite (Z.eqb_sym E_EAGAIN), andb_assoc.
Qed.

(** The states in which the switch of a call of [dns_res_check] is entered. *)
Inductive entered : res -> res -> Prop :=
  | entered_refl r : entered r r
  | entered_step r x r1 x1 r2 : res_step fuel junk e ca r x = Val (ROk Exec r1 x1) -> entered r1 r2 -> entered r r2.
Lemma entered_inv r r' : entered r r' -> res_inv fuel ca true r -> res_inv fuel ca true r'.
Proof.
  induction 1 as [|r x r1 x1 r2 Hs _ IH]; [done|]. intros Hi. apply IH. pose proof (step_ok fuel junk e ca true r r x (conj eq_refl Hi)) as He.
  rewrite Hs in He. by destruct He.
Qed.
Lemma query_pointers r s : res_inv fuel ca true r -> top_state r = Some R_QUERY_A -> so_entered fuel (r_so r) s -> so_pointers s.
Proof.
  intros (sp & f & f1 & so & (_ & Hsp & _ & Hf & _ & Hso) & _ & Ht) Hst He. unfold top_state in Hst. rewrite Hsp, Hf in Hst. injection Hst as Hst.
  rewrite Hst in Ht. destruct Ht as (_ & _ & [[Hr _]|[]]); [|done]. eapply entered_pointers; [exact He|by rewrite Hso].
Qed.

Lemma pollfd_ok {A} live (m : cache o -> RM A) (m' : RM A) r x : res_inv fuel ca live r -> (forall c, m c r x <> Val RNull) -> m' r x <> Val RNull ->
  (f ← getf; match f_state f with R_CHECK => c ← nn ca; m c | _ => m' end) r x <> Val RNull.
Proof.
  intros (sp & f & f1 & so & Hat & Ht) Hm Hm'. destruct Hat as (_ & Hsp & _ & Hf & _).
  unfold getf, frame_at, mbind, RM_bind, getr. rewrite Hsp, Nat.add_0_r, Hf. cbn [mret RM_ret].
  destruct (f_state f) eqn:Est; try exact Hm'. destruct Ht as [_ Ht]. rewrite Est in Ht. unfold nn. destruct ca as [c|]; [apply Hm|done].
Qed.

(** C7: no pointer that is null is followed and no assertion fails while a name is
    resolved, and success means that there is an answer. From [dns_res_submit], after
    any number of calls of [dns_res_check] that returned [es], one more call,
    [dns_res_pollfd] and [dns_res_clear] follow no null pointer of the resolver and
    its frames; when the call returns 0, [dns_res_fetch] returns a packet. As long as
    the calls returned DNS_EAGAIN only, the socket has its packets too: whenever
    [dns_so_check] is called, in every state its switch is entered in, the query or
    the answer that the case of the state follows is there. *)
Theorem resolver_always_has_packets qname qtype qclass r x err r0 x0 es r1 n x1 :
  dns_res_submit qname qtype qclass r x = Val (ROk err r0 x0) -> polled r0 es r1 ->
  dns_res_check fuel junk e ca n r1 x1 <> Val RNull /\ dns_res_pollfd ca r1 x1 <> Val RNull /\ dns_res_clear ca r1 x1 <> Val RNull /\
  (forall r2 x2, dns_res_check fuel junk e ca n r1 x1 = Val (ROk 0 r2 x2) -> exists A r3, dns_res_fetch r2 x2 = Val (ROk (inr (Some A)) r3 x2)) /\
  (waiting es = true -> forall r2 s, entered r1 r2 -> top_state r2 = Some R_QUERY_A -> so_entered fuel (r_so r2) s -> so_pointers s).
Proof.
  intros Hs Hp. pose proof (submit_res_ok fuel ca true qname qtype qclass r x I) as Hi. rewrite Hs in Hi. destruct Hi as [_ Hi].
  apply (polled_inv _ _ _ Hp) in Hi. cbn [andb] in Hi. pose proof (exec_ok fuel junk e ca _ n r1 x1 Hi) as He. fold (dns_res_check fuel junk e ca n) in He.
  split; [intros Hn; by rewrite Hn in He|]. split; [|split; [|split]].
  - apply (pollfd_ok (waiting es) (fun c => sys (ca_pollfd c)) (r ← getr; mret (dns_so_pollfd (r_so r)))); [done| |done].
    intros c. unfold sys. by destruct (ca_pollfd c x1).
  - apply (pollfd_ok (waiting es) (fun c => sys (ca_clear c)) (on_so dns_so_clear)); [done| |].
    + intros c. unfold sys. by destruct (ca_clear c x1).
    + unfold on_so. by destruct (dns_so_clear _ _) as [[[]]| |].
  - intros r2 x2 Hc. unfold dns_res_check in *. rewrite Hc in He. destruct He as [_ Hd]. destruct (Hd eq_refl) as (_ & f & A & Hf & Hst & HA).
    exists A. unfold dns_res_fetch, mbind, RM_bind, getr. destruct (r_stack r2) as [|f0 st]; [done|]. injection Hf as ->.
    rewrite bool_decide_eq_true_2 by done. rewrite HA. by eexists.
  - intros Hw r2 s He2 Hst Hse. rewrite Hw in Hi. eapply query_pointers; [eapply entered_inv; [exact He2|exact Hi]|exact Hst|exact Hse].
Qed.

(** of the names of the search list only the first is asked in the network.
    Whenever the resolver comes to the state that takes the next name of the list,
    the list has just been started again, so that its first name is taken. *)
Theorem network_asks_first_name_only live r x r' x' : res_inv fuel ca live r ->
  res_step fuel junk e ca r x = Val (ROk Exec r' x') -> top_state r' = Some R_SEARCH -> r_search r' = 0.
Proof.
  intros Hi Hs Ht. pose proof (step_ok fuel junk e ca live r r x (conj eq_refl Hi)) as Hst. rewrite Hs in Hst. destruct Hst as [_ Hb].
  specialize (Hb Ht). apply bool_decide_eq_true in Hb. destruct Hi as (sp & f & f1 & so & (Hl & Hsp & _ & Hf & _) & _).
  unfold top_state in Hb, Ht. rewrite Hsp, Hf in Hb. injection Hb as Hb. assert (r_sp r + 0 = sp)%nat as E0 by lia.
  unfold res_step, getf, frame_at, mbind, RM_bind, getr in Hs. rewrite E0, Hf in Hs. cbn [mret RM_ret] in Hs. rewrite Hb in Hs.
  unfold case_bind, getf, frame_at, mbind, RM_bind, getr in Hs. rewrite E0, Hf in Hs. cbn [mret RM_ret] in Hs.
  destruct (0 <? r_sp r)%nat.
  - unfold nn in Hs. destruct (f_query f); [|done]. unfold goto, getf, frame_at, putf, put_frame, mbind, RM_bind, getr in Hs. rewrite E0, Hf in Hs. cbn [mret RM_ret putr] in Hs.
    injection Hs as <- <-. cbn in Ht. rewrite E0, Hsp in Ht. rewrite list_lookup_insert_eq in Ht; [done|]. apply lookup_lt_Some in Hf. lia.
  - unfold putr, goto, getf, frame_at, putf, put_frame, mbind, RM_bind, getr in Hs. cbn [r_sp r_stack set_rsearch] in Hs. rewrite E0, Hf in Hs. cbn [mret RM_ret putr] in Hs.
    by injection Hs as <- <-.
Qed.
End Thm.

(** ** References *)
Section Life.
Context (o : SoOS) `{!SoOk o} {ro : ResOS o} (junk : Z) (ca : option (cache o)).

Definition counted (n : Z) : Prop := 0 < n < 2 ^ 32 - 1.
(** Objects with a count that another reference does not wrap around. *)
Definition shared_ok (sh : shared) : Prop :=
  (forall rc, sh_conf sh = Some rc -> counted (rc_refcount rc)) /\
  (forall h, sh_hosts sh = Some h -> counted (h_refcount h)) /\
  (forall H, sh_hints sh = Some H -> counted (hi_refcount H)).

Lemma count_back n : counted n -> (w32 (n + 1) =? 1) = false /\ w32 (w32 (n + 1) - 1) = n.
Proof.
  unfold counted, w32. intros Hn. rewrite (Z.mod_small (n + 1)) by lia. split; [apply Z.eqb_neq; lia|]. rewrite Z.mod_small; lia.
Qed.
Lemma close_acquire sh : shared_ok sh -> close_all (acquire_all sh) = sh.
Proof.
  intros (Hc & Hh & Hi). destruct sh as [rc h H]. unfold close_all, acquire_all. cbn in *.
  f_equal; [destruct rc as [[]|]|destruct h as [[]|]|destruct H as [[]|]]; try done; cbn.
  - specialize (Hc _ eq_refl). cbn in Hc. unfold dns_resconf_close, dns_resconf_release. cbn. by destruct (count_back _ Hc) as [-> ->].
  - specialize (Hh _ eq_refl). cbn in Hh. unfold dns_hosts_close, dns_hosts_release. cbn. by destruct (count_back _ Hh) as [-> ->].
  - specialize (Hi _ eq_refl). cbn in Hi. unfold dns_hints_close, dns_hints_release. cbn. by destruct (count_back _ Hi) as [-> ->].
Qed.

(** C37: A resolver gives back the references it took. [dns_res_open] either fails
    and leaves the counts of the configuration, the hosts and the hints as they
    were, or takes one reference to each; closing the resolver in any state, with
    its own count still 1, gives exactly these back. *)
Theorem resolver_returns_references sh s0 x r sh1 x1 : shared_ok sh -> dns_res_open junk ca sh s0 x = Val (r, sh1, x1) ->
  match r with
  | inl _ => sh1 = sh
  | inr r0 => r_refcount r0 = 1 /\ sh1 = acquire_all sh /\
      forall r' x', r_refcount r' = 1 -> exists x2, dns_res_close ca r' sh1 x' = Val (None, sh, x2)
  end.
Proof.
  intros Hok Ho. unfold dns_res_open in Ho. pose proof (close_acquire sh Hok) as Hback.
  assert (forall err x', Val (inl err, close_all (acquire_all sh), dns_cache_close ca x') = Val (r, sh1, x1) ->
    match r with inl _ => sh1 = sh | inr _ => False end) as Herr by (intros err x' [= <- <- <-]; done).
  destruct (sh_conf (acquire_all sh)) as [rc|]; [|by destruct r; [|by apply Herr in Ho]; apply Herr in Ho].
  destruct (sh_hosts (acquire_all sh)) as [h|]; [|by destruct r; [|by apply Herr in Ho]; apply Herr in Ho].
  destruct (sh_hints (acquire_all sh)) as [H|]; [|by destruct r; [|by apply Herr in Ho]; apply Herr in Ho].
  destruct (res_alloc _) as [x2 []]; cbn [negb] in Ho; [|by destruct r; [|by apply Herr in Ho]; apply Herr in Ho].
  destruct (dns_so_init _ _ s0 x2) as [[[[err|] s] x3]| |]; try done.
  - destruct (dns_so_destroy _ _) as [[[]]| |]; try done. by destruct r; [|by apply Herr in Ho]; apply Herr in Ho.
  - injection Ho as <- <- <-. split; [done|]. split; [done|]. intros r' x' Hr. unfold dns_res_close. cbn [dns_res_release r_so set_count].
    rewrite Hr. change (dns_so_reset (r_so r') x') with (Val (tt, reset_so (r_so r'), x')). cbn [Z.ltb Z.compare Pos.compare Pos.compare_cont].
    destruct (destroy_returns (reset_so (r_so r')) x') as ([] & s2 & x4 & ->). rewrite Hback. by eexists.
Qed.
End Life.

Module ResWitnesses.

(** A system whose network answers every question with the address 1.2.3.4. *)
Record world := World { w_next : Z; w_sent : list Z }.
Definition echo (q : list Z) : list Z :=
  take 2 q ++ [129; 128; 0; 1; 0; 1; 0; 0; 0; 0] ++ drop 12 q ++ [192; 12; 0; 1; 0; 1; 0; 0; 0; 60; 0; 4; 1; 2; 3; 4].
Definition echo_recv (fd n : Z) (x : world) : world * (Z + list Z) :=
  match w_sent x with
  | [] => (x, inl E_EAGAIN)
  | q => if n <? 0 then (x, inl 22) else (World (w_next x) [], inr (take (Z.to_nat n) (filter byte (echo q))))
  end.
Definition echo_os : SoOS := {|
  sos := world;
  so_socket f t x := (World (w_next x + 1) (w_sent x), if w_next x <? 0 then inl 24 else inr (w_next x));
  so_setfd fd x := (x, inr tt);
  so_getfl fd x := (x, inr 2);
  so_setfl fd l x := (x, inr tt);
  so_bind fd a x := (x, inr tt);
  so_connect fd a x := (x, inr tt);
  so_send fd d x := (World (w_next x) d, inr (len d));
  so_recv := echo_recv;
  so_close fd x := (x, tt);
  so_now x := (x, 1000);
  so_random x := (x, 7);
  so_realloc d n x := (x, Some (take (Z.to_nat n) (d ++ replicate (Z.to_nat n) 0)));
  so_realloc_old n x := (x, true);
  so_closefd_cb := None |}.
#[local] Existing Instance echo_os.
#[local] Instance echo_ok : SoOk echo_os.
Proof.
  split; cbn; unfold echo_recv; try done.
  - intros _ _ x x' r. destruct (Z.ltb_spec (w_next x) 0); intros [= <- <-]; [done|lia].
  - intros _ d x x' r [= <- <-]. pose proof (len_nonneg d). lia.
  - intros fd n x x' r. destruct (w_sent x) as [|b l]; [by intros [= <- <-]|]. destruct (Z.ltb_spec n 0); intros [= <- <-]; [done|].
    split; [|apply Forall_take, Forall_forall; intros b' Hb; by apply list_elem_of_filter in Hb as []]. unfold len. rewrite length_take. lia.
  - intros d n x x' m [= <- <-] Hn. unfold len, nthz. rewrite length_take, length_app, length_replicate.
    split; [lia|]. intros i Hi. rewrite !nth_lookup, lookup_take_lt, lookup_app_l by lia. done.
Qed.
#[local] Instance echo_res : ResOS echo_os := {|
  res_malloc x := (x, fun n => Some (replicate (Z.to_nat n) 0));
  res_realloc x := (x, fun d n => Some (take (Z.to_nat n) (d ++ replicate (Z.to_nat n) 0)));
  res_seed x := (x, 1);
  res_rnd x := (x, fun _ => [1]);
  res_alloc x := (x, true);
  res_select _ _ _ x := (x, tt) |}.

(** The server 10.0.0.1; names are looked up in the network, then in the (empty) hosts. *)
Definition demo_conf : resolv_conf := set_refcount resconf_initializer 1.
Definition demo_hints : hints := Hints 1 [soa_put (HintsSoa (46 :: replicate 255 0) (replicate 16 (Hint ss_zero 0)) 0) (SS AF_INET 53 [10; 0; 0; 1] (replicate 16 0)) 1].
Definition demo_env : env := Env demo_conf (Hosts [] 1) demo_hints.
Definition demo_shared : shared := Shared (Some demo_conf) (Some (Hosts [] 1)) (Some demo_hints).

Definition demo_open := dns_res_open 0 None demo_shared so_initializer (World 3 []).
Definition demo_res : res := match demo_open with Val (inr r, _, _) => r | _ => Res so_initializer 1 [] 0 0 0 0 0 rr_i0 [] 0 end.
Definition res_of {A} (m : out (rres world A)) : res := match m with Val (ROk _ r _) => r | _ => demo_res end.
Definition fuel : nat := 60.
Definition demo_name : list Z := [97; 46; 98; 46].
Definition demo_submitted := dns_res_submit demo_name DNS_T_A DNS_C_IN demo_res (World 4 []).
#[local] Abbreviation demo_checked := (dns_res_check fuel 0 demo_env None fuel (res_of demo_submitted) (World 4 [])).

Definition world_of {A} (m : out (rres world A)) : world := match m with Val (ROk _ _ x) => x | _ => World 0 [] end.
Definition succeeds (m : out (rres world Z)) : bool := match m with Val (ROk err _ _) => err =? 0 | _ => false end.
Lemma succeeds_Val m : succeeds m = true -> m = Val (ROk 0 (res_of m) (world_of m)).
Proof. destruct m as [[|err r x]| |]; try done. by intros ->%Z.eqb_eq. Qed.

(** The name is resolved: the answer holds the address. *)
Definition demo_answer : packet := match r_stack (res_of demo_checked) with f :: _ => default (Packet [] (Memo 0 0) (Memo 0 0) (Memo 0 0) (Memo 0 0) 0 0 []) (f_answer f) | [] => Packet [] (Memo 0 0) (Memo 0 0) (Memo 0 0) (Memo 0 0) 0 0 [] end.
Example demo_resolves : succeeds demo_checked = true /\
  drop 33 (take 37 (p_data demo_answer)) = [1; 2; 3; 4].
Proof. by vm_compute. Qed.

(** [n] turns of the switch of the resolver, and of that of its socket. *)
Fixpoint switch_turns (n : nat) (r : res) (x : world) : res * bool :=
  match n with
  | O => (r, true)
  | S n' => match res_step fuel 0 demo_env None r x with Val (ROk Exec r1 x1) => switch_turns n' r1 x1 | _ => (r, false) end
  end.
Lemma turns_entered n : forall r x, (switch_turns n r x).2 = true -> entered fuel 0 demo_env None r (switch_turns n r x).1.
Proof.
  induction n as [|n IH]; intros r x Ht; cbn [switch_turns] in *; [constructor|]. destruct (res_step _ _ _ _ _ _) as [[|[|err] r1 x1]| |] eqn:Es; try done.
  econstructor; [exact Es|by apply IH].
Qed.
Fixpoint so_cases (n : nat) (s : dsock) (x : world) : dsock * bool :=
  match n with O => (s, true) | S n' => match so_case fuel s x with Val (_, s1, x1) => so_cases n' s1 x1 | _ => (s, false) end end.
Lemma cases_entered n : forall s x, (so_cases n s x).2 = true -> so_entered fuel s (so_cases n s x).1.
Proof.
  induction n as [|n IH]; intros s x Ht; cbn [so_cases] in *; [constructor|]. destruct (so_case _ _ _) as [[[a s1] x1]| |] eqn:Es; try done.
  econstructor; [exact Es|by apply IH].
Qed.
Definition demo_asking : res := (switch_turns 9 (res_of demo_submitted) (World 4 [])).1.
Definition demo_waiting : dsock := (so_cases 4 (r_so demo_asking) (World 4 [])).1.
Example demo_turns : (switch_turns 9 (res_of demo_submitted) (World 4 [])).2 = true.
Proof. by vm_compute. Qed.
Example demo_cases : (so_cases 4 (r_so demo_asking) (World 4 [])).2 = true.
Proof. by vm_compute. Qed.

(** The instance of the claim above. *)
Lemma resolver_always_has_packets_witness :
  dns_res_submit demo_name DNS_T_A DNS_C_IN demo_res (World 4 []) = Val (ROk 0 (res_of demo_submitted) (World 4 [])) /\
  dns_res_check fuel 0 demo_env None fuel (res_of demo_submitted) (World 4 []) <> Val RNull /\
  (exists A r3, dns_res_fetch (res_of demo_checked) (world_of demo_checked) = Val (ROk (inr (Some A)) r3 (world_of demo_checked))) /\
  top_state demo_asking = Some R_QUERY_A /\ so_st demo_waiting = UDP_DONE /\ so_pointers demo_waiting.
Proof.
  assert (dns_res_submit demo_name DNS_T_A DNS_C_IN demo_res (World 4 []) = Val (ROk 0 (res_of demo_submitted) (World 4 []))) as Hs by (vm_compute; reflexivity).
  split; [exact Hs|].
  destruct (@resolver_always_has_packets echo_os _ _ fuel 0 demo_env None demo_name DNS_T_A DNS_C_IN demo_res (World 4 []) 0 (res_of demo_submitted) (World 4 []) []
    (res_of demo_submitted) fuel (World 4 []) Hs (polled_refl fuel 0 demo_env None _)) as (H1 & _ & _ & H2 & H3).
  split; [exact H1|]. pose proof (succeeds_Val demo_checked (proj1 demo_resolves)) as Hok.
  split; [exact (H2 (res_of demo_checked) (world_of demo_checked) Hok)|]. split; [vm_compute; reflexivity|]. split; [vm_compute; reflexivity|].
  apply (H3 eq_refl demo_asking demo_waiting); [apply (turns_entered 9), demo_turns|vm_compute; reflexivity|apply (cases_entered 4), demo_cases].
Defined.

(** A resolver about to ask in the network. *)
Definition demo_bind : res := set_stack (res_of demo_submitted) (set_which (set_fstate frame0 R_BIND) 1 :: replicate 7 frame0) 0.
(** The instance of the claim above. *)
Lemma network_asks_first_name_only_witness : r_search (res_of (res_step fuel 0 demo_env None demo_bind (World 4 []))) = 0.
Proof.
  apply (@network_asks_first_name_only echo_os _ _ fuel 0 demo_env None true demo_bind (World 4 []) _ (World 4 [])); [|vm_compute; reflexivity|vm_compute; reflexivity].
  exists 0%nat, (set_which (set_fstate frame0 R_BIND) 1), (Some frame0), (r_so (res_of demo_submitted)). split; [|split; [lia|done]].
  split; [done|]. split; [done|]. split; [intros d f Hd; lia|done].
Defined.

(** The instance of the claim above. *)
Lemma resolver_returns_references_witness : exists r0 sh1 x1,
  dns_res_open 0 None demo_shared so_initializer (World 3 []) = Val (inr r0, sh1, x1) /\ r_refcount r0 = 1 /\ sh1 = acquire_all demo_shared /\
  forall r' x', r_refcount r' = 1 -> exists x2, dns_res_close None r' sh1 x' = Val (None, demo_shared, x2).
Proof.
  exists demo_res, (acquire_all demo_shared), (World 4 []).
  assert (dns_res_open 0 None demo_shared so_initializer (World 3 []) = Val (inr demo_res, acquire_all demo_shared, World 4 [])) as Ho by (vm_compute; reflexivity).
  split; [exact Ho|]. apply (resolver_returns_references echo_os 0 None demo_shared so_initializer (World 3 []) _ _ _) with (2 := Ho).
  split; [|split]; intros ? [= <-]; unfold counted; cbn; lia.
Defined.
End ResWitnesses.
