(* ===== verification/DnsAi.v ===== *)
(** libdns: the getaddrinfo interface (dns.c: [dns_ai_*]).

    A query for the addresses of a host is a state machine on top of a resolver: it
    asks for the records of the wanted type and then, for records that refer to
    another host, looks for addresses of that host in the answers it has, or asks
    for them. [dns_ai_nextent] returns one address at a time and keeps its state
    between calls. *)

From stdpp Require Import prelude strings.
From Stdlib Require Import ZArith Lia.
From S2P Require Import Prelude DnsBase DnsName DnsRr DnsRdata DnsPacket DnsText DnsResconf DnsSo DnsRes.
Local Open Scope Z_scope.

Definition E_ENOENT : Z := 2.
Definition E_ENAMETOOLONG : Z := 36.
Definition AI_CANONNAME : Z := 2.
Definition AI_NUMERICHOST : Z := 4.

(** [struct addrinfo] as the hints, and as an entry that is returned. *)
Record ai_hints := AiHints { h_flags : Z; h_family : Z; h_socktype : Z; h_protocol : Z }.
Record ai_ent := AiEnt {
  ent_family : Z; ent_socktype : Z; ent_protocol : Z;
  ent_addr : sockaddr_storage; ent_canonname : option (list Z) }.

Inductive ai_state :=
  | AI_INIT | AI_NUMERIC | AI_SUBMIT | AI_CHECK | AI_FETCH | AI_FOREACH_I | AI_FOREACH_G
  | AI_SUBMIT_G | AI_CHECK_G | AI_FETCH_G | AI_DONE.

(** [struct dns_addrinfo] but for the resolver. [ai_glue] is [None] for a pointer to the
    answer. The names of the iterators point to [cname]: they are set to it where the
    iterators are used. *)
Record ai := Ai {
  ai_hints_ : ai_hints;
  ai_qname : list Z; ai_qtype : Z; ai_qport : Z; ai_port : Z;
  ai_answer : option packet; ai_glue : option packet;
  ai_i : rr_i; ai_g : rr_i;
  ai_cname : list Z;
  ai_st : ai_state }.
Definition set_ai_st (a : ai) st : ai :=
  Ai (ai_hints_ a) (ai_qname a) (ai_qtype a) (ai_qport a) (ai_port a) (ai_answer a) (ai_glue a) (ai_i a) (ai_g a) (ai_cname a) st.
Definition set_ai_port (a : ai) p : ai :=
  Ai (ai_hints_ a) (ai_qname a) (ai_qtype a) (ai_qport a) p (ai_answer a) (ai_glue a) (ai_i a) (ai_g a) (ai_cname a) (ai_st a).
Definition set_ai_answer (a : ai) ans glue : ai :=
  Ai (ai_hints_ a) (ai_qname a) (ai_qtype a) (ai_qport a) (ai_port a) ans glue (ai_i a) (ai_g a) (ai_cname a) (ai_st a).
Definition set_ai_i (a : ai) i : ai :=
  Ai (ai_hints_ a) (ai_qname a) (ai_qtype a) (ai_qport a) (ai_port a) (ai_answer a) (ai_glue a) i (ai_g a) (ai_cname a) (ai_st a).
Definition set_ai_g (a : ai) g : ai :=
  Ai (ai_hints_ a) (ai_qname a) (ai_qtype a) (ai_qport a) (ai_port a) (ai_answer a) (ai_glue a) (ai_i a) g (ai_cname a) (ai_st a).
Definition set_ai_cname (a : ai) n : ai :=
  Ai (ai_hints_ a) (ai_qname a) (ai_qtype a) (ai_qport a) (ai_port a) (ai_answer a) (ai_glue a) (ai_i a) (ai_g a) (cbuf 256 n) (ai_st a).
Definition set_name (i : rr_i) (n : list Z) : rr_i :=
  RrI (i_section i) (Some n) (i_type i) (i_class i) (i_data i) (i_sort i) (st_next i) (st_count i) (st_exec i) (st_reg0 i).

(** [dns_ai_setent] from the bytes of an address; [None] when there is no memory. *)
Definition ai_entry (a : ai) (addr : sockaddr_storage) : ai_ent :=
  AiEnt (ss_family addr) (h_socktype (ai_hints_ a)) (h_protocol (ai_hints_ a)) addr
    (if negb (Z.land (h_flags (ai_hints_ a)) AI_CANONNAME =? 0)
     then Some (match ai_cname a with [] => ai_qname a | n => n end) else None).
Definition any_addr (a : ai) (v : any) (type : Z) : out (option sockaddr_storage) :=
  if type =? DNS_T_A then match v with AnyA n => Val (Some (SS AF_INET (ai_port a) (four n) (replicate 16 0))) | _ => UB end
  else if type =? DNS_T_AAAA then match v with AnyAAAA l => Val (Some (SS AF_INET6 (ai_port a) (replicate 4 0) l)) | _ => UB end
  else Val None.

(** The port of the digits that [serv] begins with. *)
Fixpoint ai_port_loop (serv : list Z) (qport : Z) : Z :=
  match serv with
  | [] => qport
  | c :: serv' => if (48 <=? c) && (c <=? 57) then ai_port_loop serv' (w16 (w16 (qport * 10) + (c - 48))) else qport
  end.

Section Ai.
Context {o : SoOS} {ro : ResOS o}.
Context (fuel : nat) (junk : Z) (e : env) (ca : option (cache o)) (nsteps : nat).
Context (inet_pton : Z -> list Z -> pton_res).

Definition AM (A : Type) : Type := ai -> res -> sos -> out (rres sos (ai * A)).
#[local] Instance AM_ret : MRet AM := fun A v a r x => Val (ROk (a, v) r x).
#[local] Instance AM_bind : MBind AM := fun A B f m a r x =>
  match m a r x with Val (ROk (a', v) r' x') => f v a' r' x' | Val RNull => Val RNull | UB => UB | Loop => Loop end.
Definition on_res {A} (m : RM A) : AM A := fun a r x =>
  match m r x with Val (ROk v r' x') => Val (ROk (a, v) r' x') | Val RNull => Val RNull | UB => UB | Loop => Loop end.
Definition geta : AM ai := fun a r x => Val (ROk (a, a) r x).
Definition puta (a : ai) : AM unit := fun _ r x => Val (ROk (a, tt) r x).

(** What a case of the switch does. *)
Inductive ai_next := AiExec | AiErr (err : Z) | AiGot (ent : ai_ent).
Definition ai_goto (st : ai_state) : AM ai_next := a ← geta; puta (set_ai_st a st);; mret AiExec.

(** The end of [dns_ai_setent]. *)
Definition ai_alloc (s : sockaddr_storage) : AM ai_next :=
  a ← geta;
  got ← on_res (sys res_alloc);
  if got : bool then mret (AiGot (ai_entry a s)) else mret (AiErr E_ENOMEM).
Definition dns_ai_setent (v : any) (type : Z) : AM ai_next :=
  a ← geta;
  s ← on_res (rlift (any_addr a v type));
  match s with None => mret (AiErr E_EINVAL) | Some s => ai_alloc s end.

(** [dns_d_cname (ai->cname, ..., name, ...)]. *)
Definition ai_canonical (name : list Z) (P : packet) (ok : AM ai_next) (failed : Z -> AM ai_next) : AM ai_next :=
  seed ← on_res (sys res_seed);
  c ← on_res (rlift (dns_d_cname fuel junk seed name P));
  match c with
  | inl err => failed (errnum err)
  | inr n => a ← geta; puta (set_ai_cname a n);; match n with [] => failed junk | _ => ok end
  end.

(** The addresses that [inet_pton] returns are in the order of the network, as in a
    [sockaddr]. *)
Definition ai_numeric : AM ai_next :=
  a ← geta;
  match inet_pton AF_INET (ai_qname a) with
  | PtonOk b => puta (set_ai_st a AI_DONE);; ai_alloc (SS AF_INET (ai_port a) b (replicate 16 0))
  | _ =>
      match inet_pton AF_INET6 (ai_qname a) with
      | PtonOk b => puta (set_ai_st a AI_DONE);; ai_alloc (SS AF_INET6 (ai_port a) (replicate 4 0) b)
      | _ => if negb (Z.land (h_flags (ai_hints_ a)) AI_NUMERICHOST =? 0) then ai_goto AI_DONE else ai_goto AI_SUBMIT
      end
  end.

Definition ai_submit (name : list Z) (type : Z) (next : ai_state) : AM ai_next :=
  err ← on_res (dns_res_submit name type DNS_C_IN);
  if negb (err =? 0) then mret (AiErr err) else ai_goto next.
Definition ai_check (next : ai_state) : AM ai_next :=
  err ← on_res (dns_res_check fuel junk e ca nsteps);
  if negb (err =? 0) then mret (AiErr err) else ai_goto next.

(** The answer is kept and searched. *)
Definition ai_keep (f : Z + option packet) : AM ai_next :=
  a ← geta;
  match f with
  | inl err => puta (set_ai_answer a None (ai_glue a));; mret (AiErr err)
  | inr None => puta (set_ai_answer a None (ai_glue a));; mret (AiErr junk)
  | inr (Some P) =>
      P ← on_res (rlift (dns_p_study P));
      puta (set_ai_i (set_ai_answer a (Some P) None) (RrI DNS_S_AN None (ai_qtype a) 0 None SortOrder 0 0 0 0));;
      ai_goto AI_FOREACH_I
  end.
Definition ai_fetch : AM ai_next := f ← on_res dns_res_fetch; ai_keep f.

(** [ai->glue]. *)
Definition glue_of (a : ai) : option packet := match ai_glue a with Some g => Some g | None => ai_answer a end.

(** A record that refers to the host in [cname]: its addresses are looked for. *)
Definition ai_refer (r : rr) (v : any) (ans : packet) : AM ai_next :=
  a ← geta;
  ai_canonical (ai_cname a) ans
    (a ← geta;
     port ← (if rr_type r =? DNS_T_SRV then match v with AnySRV s => mret (srv_port s) | _ => on_res (rlift UB) end else mret (ai_port a));
     let type := if h_family (ai_hints_ a) =? AF_INET6 then DNS_T_AAAA else DNS_T_A in
     puta (set_ai_g (set_ai_port a port) (RrI (Z.land DNS_S_ALL (Z.lnot DNS_S_QD)) None type 0 None SortNone 0 0 0 0));;
     ai_goto AI_FOREACH_G)
    (fun err => mret (AiErr err)).
(** A record of the answer: the address, or the host to look for. *)
Definition ai_record (r : rr) (v : any) (ans : packet) : AM ai_next :=
  a ← geta;
  puta (set_ai_port a (ai_qport a));;
  if (rr_type r =? DNS_T_A) || (rr_type r =? DNS_T_AAAA) then dns_ai_setent v (rr_type r)
  else
    n ← on_res (rlift (dns_any_cname v (rr_type r)));
    a ← geta;
    (if existsb (Z.eqb (rr_type r)) [DNS_T_MX; DNS_T_NS; DNS_T_CNAME; DNS_T_SRV; DNS_T_PTR] then puta (set_ai_cname a n) else mret tt);;
    match n with [] => ai_goto AI_FOREACH_I | _ => ai_refer r v ans end.
Definition ai_foreach_i : AM ai_next :=
  a ← geta;
  ans ← on_res (nn (ai_answer a));
  t ← on_res (rlift (dns_d_expand fuel 12 ans));
  match t with
  | inl err => mret (AiErr (errnum err))
  | inr [] => mret (AiErr junk)
  | inr t =>
      if 256 <=? len t then mret (AiErr (errnum DNS_EILLEGAL))
      else
        ai_canonical (cstr t) ans
          (a ← geta;
           '(r, i) ← on_res (grep1 fuel junk (set_name (ai_i a) (ai_cname a)) ans);
           puta (set_ai_i a i);;
           match r with
           | None => ai_goto AI_DONE
           | Some r =>
               v ← on_res (rlift (dns_any_parse fuel junk r ans));
               match v with inl err => mret (AiErr (errnum err)) | inr v => ai_record r v ans end
           end)
          (fun err => mret (AiErr err))
  end.

Definition ai_foreach_g : AM ai_next :=
  a ← geta;
  glue ← on_res (nn (glue_of a));
  '(r, g) ← on_res (grep1 fuel junk (set_name (ai_g a) (ai_cname a)) glue);
  puta (set_ai_g a g);;
  match r with
  | None => if 0 <? st_count g then ai_goto AI_FOREACH_I else ai_goto AI_SUBMIT_G
  | Some r =>
      v ← on_res (rlift (dns_any_parse fuel junk r glue));
      match v with inl err => mret (AiErr (errnum err)) | inr v => dns_ai_setent v (rr_type r) end
  end.

Definition ai_submit_g : AM ai_next :=
  a ← geta;
  glue ← on_res (nn (glue_of a));
  q ← on_res (first fuel junk (RrI DNS_S_QD (Some (ai_cname a)) (i_type (ai_g a)) 0 None SortNone 0 0 0 0) glue);
  match q with
  | Some _ => ai_goto AI_FOREACH_I
  | None => ai_submit (ai_cname a) (i_type (ai_g a)) AI_CHECK_G
  end.

(** The answers are merged. *)
Definition ai_merge (f : Z + option packet) : AM ai_next :=
  match f with
  | inl err => mret (AiErr err)
  | inr None => mret (AiErr junk)
  | inr (Some ans) =>
      ans ← on_res (rlift (dns_p_study ans));
      a ← geta;
      glue ← on_res (nn (glue_of a));
      malloc ← on_res (sys res_malloc);
      seed ← on_res (sys res_seed);
      m ← on_res (rlift (dns_p_merge fuel junk seed malloc (Some (glue, DNS_S_ALL)) (Some (ans, DNS_S_ALL))));
      match m with
      | inl err => mret (AiErr (errnum err))
      | inr glue =>
          a ← geta;
          puta (set_ai_g (set_ai_answer a (ai_answer a) (Some glue)) (dns_rr_i_init (ai_g a)));;
          a ← geta;
          ai_canonical (ai_cname a) glue (ai_goto AI_FOREACH_G) (fun _ => ai_goto AI_FOREACH_I)
      end
  end.
Definition ai_fetch_g : AM ai_next := f ← on_res dns_res_fetch; ai_merge f.

Definition ai_step : AM ai_next :=
  a ← geta;
  match ai_st a with
  | AI_INIT => ai_goto AI_NUMERIC
  | AI_NUMERIC => ai_numeric
  | AI_SUBMIT => ai_submit (ai_qname a) (ai_qtype a) AI_CHECK
  | AI_CHECK => ai_check AI_FETCH
  | AI_FETCH => ai_fetch
  | AI_FOREACH_I => ai_foreach_i
  | AI_FOREACH_G => ai_foreach_g
  | AI_SUBMIT_G => ai_submit_g
  | AI_CHECK_G => ai_check AI_FETCH_G
  | AI_FETCH_G => ai_fetch_g
  | AI_DONE => mret (AiErr E_ENOENT)
  end.

(** [n] turns of the switch are allowed. *)
Fixpoint dns_ai_nextent (n : nat) : AM (Z + ai_ent) :=
  match n with
  | O => on_res (rlift Loop)
  | S n' =>
      r ← ai_step;
      match r with AiExec => dns_ai_nextent n' | AiErr err => mret (inl err) | AiGot ent => mret (inr ent) end
  end.

Definition dns_ai_elapsed : AM Z := on_res dns_res_elapsed.
Definition dns_ai_clear : AM unit := on_res (dns_res_clear ca).
Definition dns_ai_events : AM Z := on_res (dns_res_events ca).
Definition dns_ai_pollfd : AM Z := on_res (dns_res_pollfd ca).
Definition dns_ai_poll (t : Z) : AM Z := on_res (dns_res_poll ca t).
End Ai.

(** ** Life *)
Section AiLife.
Context {o : SoOS} {ro : ResOS o} (ca : option (cache o)).

(** [dns_ai_close]; the packets are freed. *)
Definition dns_ai_close (a : option ai) (r : res) (sh : shared) (x : sos) : out (option res * shared * sos) :=
  match a with None => Val (Some r, sh, x) | Some _ => dns_res_close ca r sh x end.

(** The error, or the query; the resolver goes with its last reference. Without a
    resolver nothing is returned and [error] is left alone. *)
Definition dns_ai_open (host : list Z) (serv : option (list Z)) (qtype : Z) (hints : ai_hints) (r : option res) (sh : shared) (x : sos) :
    out (option (Z + ai) * option res * shared * sos) :=
  match r with
  | None => Val (None, None, sh, x)
  | Some r =>
      let r := (dns_res_acquire r).1 in
      let '(x, got) := res_alloc x in
      let fail err m := match m with Val (r, sh, x) => Val (Some (inl err), r, sh, x) | UB => UB | Loop => Loop end in
      if negb got then fail E_ENOMEM (dns_res_close ca r sh x)
      else
        let a0 := Ai hints (cbuf 256 (cstr host)) 0 0 0 None None rr_i0 rr_i0 [] AI_INIT in
        if 256 <=? len (cstr host) then fail E_ENAMETOOLONG (dns_ai_close (Some a0) r sh x)
        else
          let port := match serv with Some s => ai_port_loop (cstr s) 0 | None => 0 end in
          Val (Some (inr (Ai hints (cstr host) qtype port port None None rr_i0 rr_i0 [] AI_INIT)), Some r, sh, x)
  end.
End AiLife.

(** ** Printing *)
Definition dns_ai_print (inet_ntop : Z -> list Z -> option (list Z)) (addr_junk : list Z) (ent : ai_ent) (a : ai) : list Z :=
  let s := ent_addr ent in
  bytes "[ " ++ ai_qname a ++ bytes " IN " ++ cbuf (DNS_STRMAXLEN + 1) (dns_strtype (ai_qtype a)) ++ bytes " ]" ++ [10] ++
  bytes ".ai_family    = " ++
  (if ent_family ent =? AF_INET then bytes "AF_INET" else if ent_family ent =? AF_INET6 then bytes "AF_INET6" else dns__print10 (w32 (ent_family ent)) 0) ++ [10] ++
  bytes ".ai_socktype  = " ++
  (if ent_socktype ent =? SOCK_STREAM then bytes "SOCK_STREAM" else if ent_socktype ent =? SOCK_DGRAM then bytes "SOCK_DGRAM" else dns__print10 (w32 (ent_socktype ent)) 0) ++ [10] ++
  bytes ".ai_addr      = [" ++ default addr_junk (inet_ntop (ss_family s) (dns_sa_addr (ss_family s) s)) ++ bytes "]:" ++
  dns__print10 (ss_port s) 0 ++ [10] ++
  bytes ".ai_canonname = " ++ default (bytes "[NULL]") (ent_canonname ent) ++ [10].
