(* ===== verification/DnsAiThm.v ===== *)
(** The getaddrinfo interface of libdns: the addresses it returns. *)

From stdpp Require Import prelude.
From Stdlib Require Import ZArith Lia.
From S2P Require Import Prelude DnsBase DnsName DnsRr DnsRdata DnsPacket DnsResconf DnsHosts DnsHints DnsPermutor DnsSo DnsSoSpec DnsRes DnsResSpec DnsResThm DnsAi.
Local Open Scope Z_scope.

(** ** What an iterator returns matches *)
Section Grep.
Context (fuel : nat) (junk rnd : Z).
Implicit Types (i : rr_i) (r : rr) (P : packet).

Lemma parse_dn s src P r : dns_rr_parse s src P = Val (inr r) -> rr_dn_p r = src.
Proof. unfold dns_rr_parse, mbind, out_bind. intros H. repeat (case_match; try discriminate); by injection H as <-. Qed.
Lemma rr_at_dn src P r : rr_at src P = Val (inr r) -> rr_dn_p r = src.
Proof.
  unfold rr_at, mbind, out_bind. destruct (dns_rr_parse 0 src P) as [[|r0]| |] eqn:E; try done. destruct (dns_rr_section src P); try done.
  intros [= <-]. by apply parse_dn in E.
Qed.

(** The record is in the packet and is one the iterator looks for. *)
Definition found i P r : Prop := rr_at (rr_dn_p r) P = Val (inr r) /\ dns_rr_i_match fuel junk r i P = Val true.

Lemma candidate_found i rp P r : candidate fuel junk i rp P = Val (Some r) -> found i P r /\ rr_dn_p r = rp.
Proof.
  unfold candidate, mbind, out_bind. destruct (rr_at rp P) as [[|r0]| |] eqn:E; try done. destruct (dns_rr_i_match _ _ r0 i P) as [[]| |] eqn:Em; try done.
  intros [= <-]. pose proof (rr_at_dn _ _ _ E) as Hdn. split; [|done]. split; [by rewrite Hdn|done].
Qed.
Lemma after_found i (r0 : option rr) c P r : after_r0 fuel junk i r0 c P = Val (Some r) -> c = Some r.
Proof.
  unfold after_r0, mbind, out_bind. destruct c as [c|], r0 as [r0|]; try (by intros [= <-]); try done. destruct (sort _ _ _ _ _ _); try done.
  case_match; [done|]. by intros [= <-].
Qed.
Lemma find_found n i (r0 : option rr) P : forall rp rp' r, find_from fuel junk n i r0 rp P = Val (Some (rp', r)) -> found i P r /\ rr_dn_p r = rp'.
Proof.
  induction n as [|n IH]; intros rp rp' r; cbn [find_from]; [done|]. case_match; [|done]. unfold mbind, out_bind.
  destruct (candidate _ _ i rp P) as [c| |] eqn:Ec; try done. destruct (after_r0 _ _ i r0 c P) as [[r1|]| |] eqn:Ea; try done.
  - intros [= <- <-]. apply after_found in Ea as ->. by apply candidate_found.
  - destruct (dns_rr_skip rp P); try done. apply IH.
Qed.
Lemma least_found n i (r0 : option rr) P : forall best rp r, found i P best -> find_least fuel junk n i r0 best rp P = Val r -> found i P r.
Proof.
  induction n as [|n IH]; intros best rp r Hb; cbn [find_least]; [done|]. unfold mbind, out_bind. destruct (dns_rr_skip rp P) as [q| |]; try done.
  case_match; [|by intros [= <-]]. destruct (candidate _ _ i q P) as [c| |] eqn:Ec; try done.
  destruct (after_r0 _ _ i r0 c P) as [[r1|]| |] eqn:Ea; try done; [|by apply IH]. apply after_found in Ea as ->. apply candidate_found in Ec as [Hf _].
  destruct (sort _ _ _ _ _ _); try done. apply IH. by case_match.
Qed.

(** The two look for the same. *)
Definition same_filter i i' : Prop :=
  i_section i' = i_section i /\ i_name i' = i_name i /\ i_type i' = i_type i /\ i_class i' = i_class i /\ i_data i' = i_data i.
Lemma same_filter_refl i : same_filter i i.
Proof. by repeat split. Qed.
Lemma same_filter_sym i i' : same_filter i i' -> same_filter i' i.
Proof. intros (E1 & E2 & E3 & E4 & E5). by repeat split. Qed.
Lemma same_filter_trans i i' i'' : same_filter i i' -> same_filter i' i'' -> same_filter i i''.
Proof. intros (E1 & E2 & E3 & E4 & E5) (F1 & F2 & F3 & F4 & F5). repeat split; congruence. Qed.
Lemma found_same i i' P r : same_filter i i' -> found i P r -> found i' P r.
Proof. intros (E1 & E2 & E3 & E4 & E5) [Ha Hm]. split; [done|]. unfold dns_rr_i_match in *. by rewrite E1, E2, E3, E4, E5. Qed.

(** Where an iterator stands: nothing is left, or there is a record it looks for. *)
Definition lands i P (next : Z) : Prop := p_end P <= next \/ exists r, rr_dn_p r = next /\ found i P r.
Lemma start_lands i P next : p_end P < 65536 -> 0 <= p_end P -> dns_rr_i_start fuel junk i P = Val next -> lands i P next.
Proof.
  intros He H0. unfold dns_rr_i_start, mbind, out_bind. destruct (find_from _ _ _ i None 12 P) as [[[rp r0]|]| |] eqn:Ef; try done.
  - apply find_found in Ef as [Hf _]. case_match; [intros [= <-]; right; by exists r0|].
    destruct (find_least _ _ _ i None r0 rp P) as [r| |] eqn:El; try done. intros [= <-]. right. exists r. split; [done|]. by eapply least_found.
  - intros [= <-]. left. rewrite w16_id by lia. lia.
Qed.
Lemma skip_lands i P rp next : p_end P < 65536 -> 0 <= p_end P -> dns_rr_i_skip fuel junk rp i P = Val next -> lands i P next.
Proof.
  intros He H0. assert (Val (w16 (p_end P)) = Val next -> lands i P next) as Hend by (intros [= <-]; left; rewrite w16_id by lia; lia).
  unfold dns_rr_i_skip, mbind, out_bind. destruct (rr_at rp P) as [[|r0]| |]; try done.
  destruct (if by_packet i then _ else _) as [q| |]; try done. destruct (find_from _ _ _ i _ q P) as [[[rp' r1]|]| |] eqn:Ef; try done.
  apply find_found in Ef as [Hf _]. case_match; [intros [= <-]; right; by exists r1|].
  destruct (find_least _ _ _ i _ r1 rp' P) as [r| |] eqn:El; try done. intros [= <-]. right. exists r. split; [done|]. by eapply least_found.
Qed.

(** The record that is returned is the one where the iterator stands, found by [i0], what
    it looked for before. *)
Lemma loop_found i0 i P rs i' err : 0 <= p_end P < 65536 -> lands i0 P (st_next i) ->
  grep_loop fuel junk 1 i P = Val (rs, i', err) ->
  (forall r, head rs = Some r -> found i0 P r) /\ same_filter i i' /\ st_exec i' = st_exec i /\ (st_next i' = st_next i \/ lands i' P (st_next i')).
Proof.
  intros He Hl. cbn [grep_loop]. destruct (Z.ltb_spec (st_next i) (p_end P)) as [Hlt|]; [|intros [= <- <- <-]; pose proof same_filter_refl; split_and!; by auto].
  unfold mbind, out_bind. destruct (rr_at (st_next i) P) as [[e0|r]| |] eqn:Er; try done; [intros [= <- <- <-]; pose proof same_filter_refl; split_and!; by auto|].
  destruct (dns_rr_i_skip _ _ (st_next i) i P) as [next| |] eqn:Es; try done. intros [= <- <- <-].
  split; [|split; [by repeat split|split; [done|right]]].
  - intros r' [= <-]. destruct Hl as [?|(r1 & Hn & Hf)]; [lia|]. pose proof Hf as [Ha _]. rewrite Hn, Er in Ha. by injection Ha as <-.
  - cbn [st_next set_state]. destruct (skip_lands _ _ _ _ (proj2 He) (proj1 He) Es) as [?|(r1 & Hn & Hf)]; [by left|right]. exists r1. split; [done|]. eapply (found_same i); [by repeat split|done].
Qed.

(** One record asked for. *)
Lemma grep_found i0 i P rs i' err : 0 <= p_end P < 65536 -> (st_exec i = 0 \/ lands i0 P (st_next i)) ->
  dns_rr_grep fuel junk rnd 1 i P = Val (rs, i', err) ->
  (forall r, head rs = Some r -> found i P r \/ found i0 P r) /\ same_filter i i' /\
  (st_exec i' = 0 \/ lands i' P (st_next i') \/ lands i0 P (st_next i')).
Proof.
  intros He Hs. unfold dns_rr_grep. destruct (Z.eqb_spec (st_exec i) 0) as [E0|E0].
  - set (i1 := if _ =? 0 then _ else _). assert (same_filter i i1) as Hsf by (unfold i1; repeat case_match; by repeat split).
    unfold mbind, out_bind. destruct (dns_rr_i_start _ _ i1 P) as [next| |] eqn:Est; try done. intros Hg.
    apply start_lands in Est; [|lia..]. set (i2 := set_state i1 next (st_count i1) 1 (st_reg0 i1)) in *.
    assert (same_filter i1 i2) as Hs2 by by repeat split.
    assert (lands i2 P next) as Hl2 by (destruct Est as [?|(r & Hn & Hr)]; [by left|right; exists r; split; [done|by eapply found_same]]).
    apply (loop_found i2) in Hg as (Hf & Hsf' & _ & Hl); [|done|done]. split; [|split].
    + intros r Hr. left. eapply (found_same i2); [|by apply Hf]. apply same_filter_sym. by eapply same_filter_trans.
    + eapply same_filter_trans; [exact Hsf|]. by eapply same_filter_trans.
    + right. left. destruct Hl as [->|Hl]; [|done]. destruct Hl2 as [?|(r & Hn & Hr)]; [by left|right]. exists r. split; [done|]. by eapply found_same.
  - destruct Hs as [?|Hl]; [done|]. destruct (st_exec i =? 1); [|intros [= <- <- <-]; pose proof same_filter_refl; split_and!; by auto]. intros Hg.
    apply (loop_found i0) in Hg as (Hf & Hsf & _ & Hl'); [|done|done]. split; [by auto|]. split; [done|]. right. destruct Hl' as [->|?]; by auto.
Qed.
Lemma grep_filter i P rs i' err : dns_rr_grep fuel junk rnd 1 i P = Val (rs, i', err) -> same_filter i i'.
Proof.
  unfold dns_rr_grep, mbind, out_bind. cbn [grep_loop]. unfold mbind, out_bind. intros Hg.
  repeat (case_match; try discriminate); simplify_eq; by repeat split.
Qed.
End Grep.

(** ** The states of a query *)
Section States.
Context {o : SoOS} `{!SoOk o} {ro : ResOS o}.
Context (fuel : nat) (junk : Z) (e : env) (ca : option (cache o)) (nsteps : nat).
Context (inet_pton : Z -> list Z -> pton_res).
Implicit Types (a : ai) (r : rr) (P : packet).
#[local] Existing Instance AM_ret.
#[local] Existing Instance AM_bind.

Definition small P : Prop := 0 <= p_end P < 65536.
(** The name asked for at the end of the CNAME records of the answer. *)
Definition canonical P (name : list Z) : Prop :=
  exists t seed n, dns_d_expand fuel 12 P = Val (inr t) /\ dns_d_cname fuel junk seed (cstr t) P = Val (inr n) /\ name = cbuf 256 n.
Definition looks_for (section : Z) (name : list Z) (type : Z) : rr_i := RrI section (Some name) type 0 None SortNone 0 0 0 0.
Definition NOT_QUESTION : Z := Z.land DNS_S_ALL (Z.lnot DNS_S_QD).
Definition wanted a : Z := if h_family (ai_hints_ a) =? AF_INET6 then DNS_T_AAAA else DNS_T_A.

(** The iterator over the answer, and that over the answers with addresses of a host. *)
Definition i_ok a P : Prop :=
  same_filter (RrI DNS_S_AN (i_name (ai_i a)) (ai_qtype a) 0 None SortNone 0 0 0 0) (ai_i a) /\
  (small P -> st_exec (ai_i a) = 0 \/ exists n, canonical P n /\ lands fuel junk (looks_for DNS_S_AN n (ai_qtype a)) P (st_next (ai_i a))).
Definition g_filter a : Prop := same_filter (RrI NOT_QUESTION (i_name (ai_g a)) (wanted a) 0 None SortNone 0 0 0 0) (ai_g a).
Definition g_ok a P : Prop :=
  g_filter a /\
  (small P -> st_exec (ai_g a) = 0 \/ lands fuel junk (looks_for NOT_QUESTION (ai_cname a) (wanted a)) P (st_next (ai_g a))).

(** A record of the answer that was asked for. *)
Definition asked a P r : Prop := exists name, canonical P name /\ found fuel junk (looks_for DNS_S_AN name (ai_qtype a)) P r.

(** A host that such a record refers to. *)
Definition named a P (host : list Z) : Prop :=
  exists r v n, (small P -> asked a P r) /\ dns_any_parse fuel junk r P = Val (inr v) /\
    dns_any_cname v (rr_type r) = Val n /\ n <> [] /\ host = cbuf 256 n.
(** The answer [P] with further answers of the resolver merged into it. *)
Inductive merged P : packet -> Prop :=
  | merged_self : merged P P
  | merged_more G ans seed malloc G' : merged P G ->
      dns_p_merge fuel junk seed malloc (Some (G, DNS_S_ALL)) (Some (ans, DNS_S_ALL)) = Val (inr G') -> merged P G'.
(** What [host] is called at the end of the CNAME records, first those of the answer, then
    those of the packets into which further answers were merged, up to [G]. *)
Inductive follows P (host : list Z) : packet -> list Z -> Prop :=
  | follows_answer G seed n : merged P G -> dns_d_cname fuel junk seed host P = Val (inr n) -> follows P host G (cbuf 256 n)
  | follows_merged G name ans seed0 malloc G' seed n : follows P host G name ->
      dns_p_merge fuel junk seed0 malloc (Some (G, DNS_S_ALL)) (Some (ans, DNS_S_ALL)) = Val (inr G') ->
      dns_d_cname fuel junk seed name G' = Val (inr n) -> follows P host G' (cbuf 256 n).
Lemma follows_merges P host G name : follows P host G name -> merged P G.
Proof. induction 1; eauto using merged. Qed.
Definition referred a P G : Prop := exists host, named a P host /\ follows P host G (ai_cname a).

(** The answer is there, its iterator stands right, and what else was received was merged
    into it. *)
Definition searched a P : Prop := ai_answer a = Some P /\ i_ok a P /\ forall G, glue_of a = Some G -> merged P G.

Definition ai_inv a (r : res) : Prop :=
  match ai_st a with
  | AI_INIT | AI_NUMERIC | AI_SUBMIT | AI_FETCH | AI_DONE => True
  | AI_CHECK => res_inv fuel ca false r
  | AI_FOREACH_I => exists P, searched a P
  | AI_FOREACH_G => exists P G, searched a P /\ glue_of a = Some G /\ referred a P G /\ g_ok a G
  | AI_SUBMIT_G | AI_FETCH_G => exists P G, searched a P /\ glue_of a = Some G /\ referred a P G /\ g_filter a
  | AI_CHECK_G => res_inv fuel ca false r /\ exists P G, searched a P /\ glue_of a = Some G /\ referred a P G /\ g_filter a
  end.

(** Where the address of an entry comes from: it is the host itself, or it is in a
    record of type A or AAAA of the answer whose owner is the name asked for, or of
    the answers whose owner is a host that a record of the answer refers to. *)
Definition record_for a P r : Prop :=
  (ai_answer a = Some P /\ asked a P r) \/
  (glue_of a = Some P /\ (exists A, ai_answer a = Some A /\ referred a A P) /\
   found fuel junk (looks_for NOT_QUESTION (ai_cname a) (wanted a)) P r).
Definition ent_ok a (ent : ai_ent) : Prop :=
  exists s, ent = ai_entry a s /\ ss_port s = ai_port a /\
    (inet_pton (ss_family s) (ai_qname a) = PtonOk (dns_sa_addr (ss_family s) s) \/
     exists P r v, (ai_answer a = Some P \/ glue_of a = Some P) /\ (small P -> record_for a P r) /\
       dns_any_parse fuel junk r P = Val (inr v) /\ any_addr a v (rr_type r) = Val (Some s)).
Definition ai_post (n : ai_next) a (r : res) : Prop :=
  ai_inv a r /\ match n with AiGot ent => ent_ok a ent | _ => True end.

(** A computation from the query [a] and a resolver as [R] says. *)
Definition aat {A} a (R : res -> Prop) (m : AM A) (Q : A -> ai -> res -> Prop) : Prop :=
  forall rs x, R rs -> match m a rs x with Val RNull => False | Val (ROk (a', v) rs' _) => Q v a' rs' | _ => True end.

Lemma aat_ret {A} a R (v : A) Q : (forall rs, R rs -> Q v a rs) -> aat a R (mret v) Q.
Proof. intros H rs x Hr. by apply H. Qed.
Lemma aat_get {A} a R (k : ai -> AM A) Q : aat a R (k a) Q -> aat a R (geta ≫= k) Q.
Proof. intros H rs x Hr. by apply H. Qed.
Lemma aat_put {A} a a1 R (k : unit -> AM A) Q : aat a1 R (k tt) Q -> aat a R (puta a1 ≫= k) Q.
Proof. intros H rs x Hr. by apply H. Qed.
Lemma aat_lift {A B} a R (m : out A) (k : A -> AM B) Q : (forall v, m = Val v -> aat a R (k v) Q) -> aat a R (on_res (rlift m) ≫= k) Q.
Proof. intros H rs x Hr. unfold mbind, AM_bind, on_res, rlift. destruct m as [v| |]; try done. by apply H. Qed.
Lemma aat_sys {A B} a R (f : sos -> sos * A) (k : A -> AM B) Q : (forall v, aat a R (k v) Q) -> aat a R (on_res (sys f) ≫= k) Q.
Proof. intros H rs x Hr. unfold mbind, AM_bind, on_res, sys. destruct (f x) as [x' v]. by apply H. Qed.
Lemma aat_nn {A B} a R (p : A) (k : A -> AM B) Q : aat a R (k p) Q -> aat a R (on_res (nn (Some p)) ≫= k) Q.
Proof. intros H rs x Hr. by apply H. Qed.
Lemma aat_grep {B} a R i P (k : option _ * rr_i -> AM B) Q :
  (forall seed rs i' err, dns_rr_grep fuel junk seed 1 i P = Val (rs, i', err) -> aat a R (k (head rs, i')) Q) -> aat a R (on_res (grep1 fuel junk i P) ≫= k) Q.
Proof.
  intros H rs x Hr. unfold grep1, mbind, AM_bind, on_res, RM_bind, sys, rlift. destruct (res_seed x) as [x' seed].
  destruct (dns_rr_grep _ _ _ _ _ _) as [[[l i'] err]| |] eqn:Eg; try done. by eapply H.
Qed.
Lemma aat_first {B} a R i P (k : option _ -> AM B) Q : (forall v, aat a R (k v) Q) -> aat a R (on_res (first fuel junk i P) ≫= k) Q.
Proof.
  intros H rs x Hr. unfold first, grep1, mbind, AM_bind, on_res, RM_bind, sys, rlift. destruct (res_seed x) as [x' seed].
  destruct (dns_rr_grep _ _ _ _ _ _) as [[[l i'] err]| |] eqn:Eg; try done. by apply H.
Qed.
Lemma aat_res {A B} a R (m : RM A) R' (k : A -> AM B) Q :
  rspec R m R' -> (forall v, aat a (R' v) (k v) Q) -> aat a R (on_res m ≫= k) Q.
Proof.
  intros Hm Hk rs x Hr. specialize (Hm rs x Hr). unfold mbind, AM_bind, on_res. destruct (m rs x) as [[|v rs' x']| |]; try done. by apply Hk.
Qed.
Lemma aat_any {A} a R R' (m : AM A) Q : (forall rs, R rs -> R' rs) -> aat a R' m Q -> aat a R m Q.
Proof. intros H Hm rs x Hr. by apply Hm, H. Qed.

Lemma goto_post a R st : (forall rs, R rs -> ai_inv (set_ai_st a st) rs) -> aat a R (ai_goto st) ai_post.
Proof. intros H. apply aat_get, aat_put, aat_ret. intros rs Hr. split; [by apply H|done]. Qed.
Lemma err_post a R err : (forall rs, R rs -> ai_inv a rs) -> aat a R (mret (AiErr err)) ai_post.
Proof. intros H. apply aat_ret. intros rs Hr. split; [by apply H|done]. Qed.

(** ** One record from an iterator *)
Lemma lands_same i i' P next : same_filter i i' -> lands fuel junk i P next -> lands fuel junk i' P next.
Proof. intros Hs [?|(r & Hn & Hf)]; [by left|right]. exists r. split; [done|]. by eapply found_same. Qed.

Lemma i_step a P cn seed rs i' err : i_ok a P -> canonical P cn -> dns_rr_grep fuel junk seed 1 (set_name (ai_i a) cn) P = Val (rs, i', err) ->
  (forall r, head rs = Some r -> small P -> exists n, canonical P n /\ found fuel junk (looks_for DNS_S_AN n (ai_qtype a)) P r) /\ i_ok (set_ai_i a i') P.
Proof.
  intros [Hf Hl] Hc Hg.
  assert (same_filter (set_name (ai_i a) cn) (looks_for DNS_S_AN cn (ai_qtype a))) as Hsame by (destruct Hf as (? & ? & ? & ? & ?); by repeat split).
  pose proof (grep_filter _ _ _ _ _ _ _ _ Hg) as Hi'.
  assert (forall n, small P -> st_exec (ai_i a) = 0 \/ lands fuel junk (looks_for DNS_S_AN n (ai_qtype a)) P (st_next (ai_i a)) -> canonical P n ->
    (forall r, head rs = Some r -> exists n, canonical P n /\ found fuel junk (looks_for DNS_S_AN n (ai_qtype a)) P r) /\
    (st_exec i' = 0 \/ exists n, canonical P n /\ lands fuel junk (looks_for DNS_S_AN n (ai_qtype a)) P (st_next i'))) as Hstep.
  { intros n Hs Hn Hcn. destruct (grep_found fuel junk seed (looks_for DNS_S_AN n (ai_qtype a)) (set_name (ai_i a) cn) P rs i' err Hs Hn Hg) as (Hfound & _ & Hst). split.
    - intros r Hr. destruct (Hfound r Hr) as [Hr'|Hr']; [exists cn|exists n]; split; try done. by eapply found_same.
    - destruct Hst as [?|[?|?]]; [by left|right; exists cn; split; [done|]|right; by exists n]. eapply (lands_same i'); [|done].
      eapply same_filter_trans; [apply same_filter_sym, Hi'|exact Hsame]. }
  split.
  - intros r Hr Hs. destruct (Hl Hs) as [H0|(n & Hcn & Hn)].
    + destruct (Hstep cn Hs (or_introl H0) Hc) as [Hh _]. by apply Hh.
    + destruct (Hstep n Hs (or_intror Hn) Hcn) as [Hh _]. by apply Hh.
  - split.
    2: { intros Hs. destruct (Hl Hs) as [H0|(n & Hcn & Hn)]; [apply (Hstep cn Hs (or_introl H0) Hc)|apply (Hstep n Hs (or_intror Hn) Hcn)]. }
    cbn. eapply same_filter_trans; [|exact Hi']. destruct Hf as (? & ? & ? & ? & ?), Hi' as (? & ? & ? & ? & ?). by repeat split.
Qed.
Lemma g_step a P seed rs i' err : g_ok a P -> dns_rr_grep fuel junk seed 1 (set_name (ai_g a) (ai_cname a)) P = Val (rs, i', err) ->
  (forall r, head rs = Some r -> small P -> found fuel junk (looks_for NOT_QUESTION (ai_cname a) (wanted a)) P r) /\ g_ok (set_ai_g a i') P.
Proof.
  intros [Hf Hl] Hg. pose proof (grep_filter _ _ _ _ _ _ _ _ Hg) as Hi'. unfold g_filter in Hf.
  assert (same_filter (set_name (ai_g a) (ai_cname a)) (looks_for NOT_QUESTION (ai_cname a) (wanted a))) as Hsame by (destruct Hf as (? & ? & ? & ? & ?); by repeat split).
  assert (same_filter i' (looks_for NOT_QUESTION (ai_cname a) (wanted a))) as Hi''.
  { eapply same_filter_trans; [apply same_filter_sym, Hi'|exact Hsame]. }
  split.
  - intros r Hr Hs. destruct (grep_found fuel junk seed _ (set_name (ai_g a) (ai_cname a)) P rs i' err Hs (Hl Hs) Hg) as (Hfound & _ & _).
    destruct (Hfound r Hr) as [Hr'|Hr']; [eapply found_same; [exact Hsame|exact Hr']|exact Hr'].
  - split.
    + unfold g_filter. cbn. eapply same_filter_trans; [|exact Hi']. destruct Hf as (? & ? & ? & ? & ?), Hi' as (? & ? & ? & ? & ?). by repeat split.
    + intros Hs. destruct (grep_found fuel junk seed _ (set_name (ai_g a) (ai_cname a)) P rs i' err Hs (Hl Hs) Hg) as (_ & _ & [?|[?|?]]); [by left|right|by right]. by eapply lands_same.
Qed.

(** ** The cases of the switch *)
Abbreviation post := ai_post.

Lemma alloc_post a R s : (forall rs, R rs -> ai_inv a rs) -> ent_ok a (ai_entry a s) -> aat a R (ai_alloc s) post.
Proof.
  intros Hi He. apply aat_get, aat_sys. intros []; [|by apply err_post]. apply aat_ret. intros rs Hr. split; [by apply Hi|done].
Qed.
Lemma setent_post a R v r P : (forall rs, R rs -> ai_inv a rs) -> ai_answer a = Some P \/ glue_of a = Some P -> (small P -> record_for a P r) ->
  dns_any_parse fuel junk r P = Val (inr v) -> aat a R (dns_ai_setent v (rr_type r)) post.
Proof.
  intros Hi HP Hr Hv. apply aat_get, aat_lift. intros [s|] Hs; [|by apply err_post]. apply alloc_post; [done|]. exists s. split; [done|].
  split; [|right; by exists P, r, v]. unfold any_addr in Hs. repeat case_match; simplify_eq; done.
Qed.

Lemma canonical_post a R name P ok failed :
  (forall seed n, dns_d_cname fuel junk seed name P = Val (inr n) -> aat (set_ai_cname a n) R ok post) ->
  (forall seed n err, dns_d_cname fuel junk seed name P = Val (inr n) -> aat (set_ai_cname a n) R (failed err) post) ->
  (forall err, aat a R (failed err) post) -> aat a R (ai_canonical fuel junk name P ok failed) post.
Proof.
  intros H1 H2 H3. apply aat_sys. intros seed. apply aat_lift. intros [err|n] Hn; [apply H3|]. apply aat_get, aat_put.
  destruct n; [by eapply H2|by eapply H1].
Qed.

Lemma numeric_post a R : (forall rs, R rs -> ai_inv (set_ai_st a AI_DONE) rs) -> (forall rs, R rs -> ai_inv (set_ai_st a AI_SUBMIT) rs) ->
  aat a R (ai_numeric inet_pton) post.
Proof.
  intros Hd Hs. apply aat_get. destruct (inet_pton AF_INET (ai_qname a)) as [b| |] eqn:E4.
  1: { apply aat_put, alloc_post; [done|]. eexists. split; [done|]. split; [done|]. left. exact E4. }
  all: destruct (inet_pton AF_INET6 (ai_qname a)) as [b| |] eqn:E6;
    [apply aat_put, alloc_post; [done|]; eexists; split; [done|]; split; [done|]; left; exact E6|..].
  all: destruct (negb _); by apply goto_post.
Qed.

Lemma submit_post a R name type next : (forall rs, res_inv fuel ca false rs -> ai_inv (set_ai_st a next) rs) ->
  aat a R (ai_submit name type next) post.
Proof.
  intros Hn. eapply aat_any; [|eapply aat_res; [apply (submit_res_ok fuel ca false)|]]; [done|]. intros err. cbn beta.
  destruct (Z.eqb_spec err 0) as [->|Hne]; cbn [negb].
  - apply goto_post. intros rs [_ Hr]. by apply Hn.
  - intros rs x [? _]. done.
Qed.
Lemma check_post a next : (forall rs, res_inv fuel ca false rs -> ai_inv a rs) -> (forall rs, res_inv fuel ca false rs -> ai_inv (set_ai_st a next) rs) ->
  aat a (res_inv fuel ca false) (ai_check fuel junk e ca nsteps next) post.
Proof.
  intros Ha Hn. eapply aat_res; [apply (exec_ok fuel junk e ca false)|]. intros err. cbn beta. destruct (Z.eqb_spec err 0) as [->|Hne]; cbn [negb].
  - apply goto_post. intros rs [Hr _]. by apply Hn.
  - apply err_post. intros rs [Hr _]. by apply Ha.
Qed.

Definition always : res -> Prop := fun _ => True.

(** What is fetched, whatever it is. *)
Lemma aat_fetch a (k : Z + option packet -> AM ai_next) Q : (forall v, aat a always (k v) Q) -> aat a always (on_res dns_res_fetch ≫= k) Q.
Proof.
  intros Hk rs x _. unfold mbind at 1, AM_bind at 1, on_res at 1. unfold dns_res_fetch, mbind, RM_bind, getr, putr, rlift. destruct (r_stack rs) as [|f st]; [done|].
  destruct (bool_decide (f_state f = R_DONE)); [exact (Hk (inr (f_answer f)) _ x I)|exact (Hk (inl DNS_EUNKNOWN) _ x I)].
Qed.

Lemma fetch_post a : ai_st a = AI_FETCH -> aat a always (ai_fetch junk) post.
Proof.
  intros Hst. apply aat_fetch. intros v. apply aat_get. destruct v as [err|[P|]].
  - apply aat_put, err_post. intros rs _. unfold ai_inv. cbn. by rewrite Hst.
  - apply aat_lift. intros P' _. apply aat_put, goto_post. intros rs _. exists P'. split; [done|]. split; [split; [by repeat split|intros _; by left]|]. intros G [= <-]. constructor.
  - apply aat_put, err_post. intros rs _. unfold ai_inv. cbn. by rewrite Hst.
Qed.

Lemma searched_inv a P : ai_st a = AI_FOREACH_I -> searched a P -> forall rs, ai_inv a rs.
Proof. intros Hst Hs rs. unfold ai_inv. rewrite Hst. by exists P. Qed.

Lemma searched_glue a P : searched a P -> exists G, glue_of a = Some G /\ merged P G.
Proof.
  intros (HP & _ & Hm). assert (exists G, glue_of a = Some G) as [G HG] by (unfold glue_of; destruct (ai_glue a); eauto). exists G. auto.
Qed.
Lemma refer_post a P r v : ai_st a = AI_FOREACH_I -> searched a P -> named a P (ai_cname a) -> aat a always (ai_refer fuel junk r v P) post.
Proof.
  intros Hst Hs Hnm. apply aat_get, canonical_post.
  - intros seed n Hn. apply aat_get.
    assert (forall port, aat (set_ai_cname a n) always
      (puta (set_ai_g (set_ai_port (set_ai_cname a n) port) (RrI (Z.land DNS_S_ALL (Z.lnot DNS_S_QD)) None (wanted a) 0 None SortNone 0 0 0 0));; ai_goto AI_FOREACH_G) post) as Hport.
    { intros port. apply aat_put, goto_post. intros rs _. unfold ai_inv. cbn [ai_st set_ai_st].
      destruct (searched_glue a P Hs) as (G & HG & Hm). exists P, G. split; [exact Hs|]. split; [exact HG|]. split; [|split; [by repeat split|intros _; by left]].
      exists (ai_cname a). split; [exact Hnm|]. by eapply follows_answer. }
    destruct (rr_type r =? DNS_T_SRV); [|apply Hport]. destruct v; try (by intros rs x _). apply Hport.
  - intros seed n err _. apply err_post. intros rs _. by apply (searched_inv _ P).
  - intros err. apply err_post. intros rs _. by apply (searched_inv _ P).
Qed.
Lemma record_post a P r v : ai_st a = AI_FOREACH_I -> searched a P -> (small P -> asked a P r) ->
  dns_any_parse fuel junk r P = Val (inr v) -> aat a always (ai_record fuel junk r v P) post.
Proof.
  intros Hst Hs Hr Hv. apply aat_get, aat_put. destruct (_ || _).
  { apply setent_post with P; [|left; apply Hs|intros Hsm; left; split; [apply Hs|by apply Hr]|done]. intros rs _. by apply (searched_inv _ P). }
  apply aat_lift. intros n Hn. apply aat_get. destruct n as [|c n].
  - destruct (existsb _ _); [apply aat_put|]; apply goto_post; intros rs _; by apply (searched_inv _ P).
  - assert (existsb (Z.eqb (rr_type r)) [DNS_T_MX; DNS_T_NS; DNS_T_CNAME; DNS_T_SRV; DNS_T_PTR] = true) as ->.
    { unfold dns_any_cname in Hn. cbn [existsb]. destruct (rr_type r =? DNS_T_MX), (rr_type r =? DNS_T_NS), (rr_type r =? DNS_T_CNAME), (rr_type r =? DNS_T_PTR), (rr_type r =? DNS_T_SRV); done. }
    apply aat_put, refer_post; [done|exact Hs|]. exists r, v, (c :: n). by split_and!.
Qed.

Lemma foreach_i_post a P : ai_st a = AI_FOREACH_I -> searched a P -> aat a always (ai_foreach_i fuel junk) post.
Proof.
  intros Hst Hs. pose proof (searched_inv a P Hst Hs) as Hinv. apply aat_get. rewrite (proj1 Hs). apply aat_nn, aat_lift. intros t Ht.
  destruct t as [err|t]; [by apply err_post|]. destruct t as [|c t]; [by apply err_post|]. destruct (256 <=? _); [by apply err_post|].
  apply canonical_post; [|intros seed n err _; apply err_post; intros rs _; by apply (searched_inv _ P)|by intros err; apply err_post].
  intros seed n Hn. apply aat_get, aat_grep. intros seed' rs i' err Hg. apply aat_put.
  destruct (i_step (set_ai_cname a n) P (cbuf 256 n) seed' rs i' err) as [Hr Hi']; [apply Hs|by exists (c :: t), seed, n|exact Hg|].
  assert (searched (set_ai_i (set_ai_cname a n) i') P) as Hs' by (split; [apply Hs|split; [done|apply Hs]]).
  destruct (head rs) as [r|]; [|apply goto_post; intros rs' _; done].
  apply aat_lift. intros v Hv. destruct v as [err'|v]; [apply err_post; intros rs' _; by apply (searched_inv _ P)|].
  apply record_post; [done|done| |done]. intros Hsm. by apply Hr.
Qed.

Lemma foreach_g_post a P G : ai_st a = AI_FOREACH_G -> searched a P -> glue_of a = Some G -> referred a P G -> g_ok a G -> aat a always (ai_foreach_g fuel junk) post.
Proof.
  intros Hst Hs HG Href Hg. apply aat_get. rewrite HG. apply aat_nn, aat_grep. intros seed rs g' err Hgrep. apply aat_put.
  destruct (g_step a G seed rs g' err Hg Hgrep) as [Hr Hg'].
  assert (forall rs, ai_inv (set_ai_g a g') rs) as Hinv by (intros rs'; unfold ai_inv; cbn [ai_st set_ai_g]; rewrite Hst; by exists P, G).
  destruct (head rs) as [r|].
  - apply aat_lift. intros [err'|v] Hv; [by apply err_post|]. apply setent_post with G; [done|by right| |done]. intros Hsm. right. split; [done|]. split; [|by apply Hr].
    exists P. split; [apply Hs|done].
  - destruct (0 <? _); apply goto_post; intros rs' _; [by exists P|]. exists P, G. split; [done|]. split; [done|]. split; [done|]. apply Hg'.
Qed.

Lemma submit_g_post a P G : ai_st a = AI_SUBMIT_G -> searched a P -> glue_of a = Some G -> referred a P G -> g_filter a -> aat a always (ai_submit_g fuel junk) post.
Proof.
  intros Hst Hs HG Href Hf. apply aat_get. rewrite HG.
  apply aat_nn, aat_first. intros [r|]; [apply goto_post; intros rs _; by exists P|]. apply submit_post. intros rs Hr. split; [done|]. by exists P, G.
Qed.

Lemma fetch_g_post a P G : ai_st a = AI_FETCH_G -> searched a P -> glue_of a = Some G -> referred a P G -> g_filter a -> aat a always (ai_fetch_g fuel junk) post.
Proof.
  intros Hst Hs HG Href Hf. assert (forall rs, ai_inv a rs) as Hinv by (intros rs; unfold ai_inv; rewrite Hst; by exists P, G).
  apply aat_fetch. intros [err|[ans|]]; [by apply err_post| |by apply err_post]. apply aat_lift. intros ans' _. apply aat_get.
  rewrite HG. apply aat_nn, aat_sys. intros malloc. apply aat_sys. intros seed. apply aat_lift. intros [err|G'] Hmerge; [by apply err_post|]. apply aat_get, aat_put, aat_get.
  set (a1 := set_ai_g _ _). destruct Href as (host & Hnm & Hfo).
  assert (forall a2, ai_answer a2 = ai_answer a -> ai_i a2 = ai_i a -> ai_qtype a2 = ai_qtype a -> glue_of a2 = Some G' -> searched a2 P) as Hs'.
  { intros a2 E1 E2 E3 E4. destruct Hs as (HP & Hi & Hm). split; [congruence|]. split; [unfold i_ok; by rewrite E2, E3|]. intros G2 HG2. rewrite E4 in HG2. injection HG2 as <-.
    eapply merged_more; [by apply Hm|exact Hmerge]. }
  apply canonical_post; [intros seed' n Hn; apply goto_post; intros rs _|intros seed' n err _; apply goto_post; intros rs _; exists P; by apply Hs'|intros err; apply goto_post; intros rs _; exists P; by apply Hs'].
  exists P, G'. split; [by apply Hs'|]. split; [done|]. split; [exists host; split; [exact Hnm|by eapply follows_merged]|]. split; [|intros _; by left].
  unfold g_filter in *. cbn. destruct Hf as (? & ? & ? & ? & ?). by repeat split.
Qed.

Lemma step_post a : aat a (ai_inv a) (ai_step fuel junk e ca nsteps inet_pton) post.
Proof.
  apply aat_get. unfold ai_inv at 1. destruct (ai_st a) eqn:Hst.
  - by apply goto_post.
  - by apply numeric_post.
  - apply submit_post. done.
  - apply check_post; [|done]. intros rs Hr. unfold ai_inv. by rewrite Hst.
  - by apply fetch_post.
  - intros rs x (P & HP). exact (foreach_i_post a P Hst HP rs x I).
  - intros rs x (P & G & Hs & HG & Href & Hg). exact (foreach_g_post a P G Hst Hs HG Href Hg rs x I).
  - intros rs x (P & G & Hs & HG & Href & Hf). exact (submit_g_post a P G Hst Hs HG Href Hf rs x I).
  - intros rs x (Hr & P & G & Hs). refine (check_post a AI_FETCH_G _ _ rs x Hr).
    + intros rs' Hr'. unfold ai_inv. rewrite Hst. split; [done|]. by exists P, G.
    + intros rs' Hr'. by exists P, G.
  - intros rs x (P & G & Hs & HG & Href & Hf). exact (fetch_g_post a P G Hst Hs HG Href Hf rs x I).
  - apply err_post. intros rs _. unfold ai_inv. by rewrite Hst.
Qed.

(** ** What was asked for stays *)
Definition same_query a0 a : Prop :=
  ai_hints_ a = ai_hints_ a0 /\ ai_qname a = ai_qname a0 /\ ai_qtype a = ai_qtype a0 /\ ai_qport a = ai_qport a0.
Definition keepsq {A} a0 a (m : AM A) : Prop :=
  forall rs x, match m a rs x with Val (ROk (a', _) _ _) => same_query a0 a' | _ => True end.
Lemma kq_ret {A} a0 a (v : A) : same_query a0 a -> keepsq a0 a (mret v).
Proof. by intros H rs x. Qed.
Lemma kq_get {A} a0 a (k : ai -> AM A) : keepsq a0 a (k a) -> keepsq a0 a (geta ≫= k).
Proof. intros H rs x. apply H. Qed.
Lemma kq_put {A} a0 a a1 (k : unit -> AM A) : keepsq a0 a1 (k tt) -> keepsq a0 a (puta a1 ≫= k).
Proof. intros H rs x. apply H. Qed.
Lemma kq_res {A B} a0 a (m : RM A) (k : A -> AM B) : (forall v, keepsq a0 a (k v)) -> keepsq a0 a (on_res m ≫= k).
Proof. intros H rs x. unfold mbind, AM_bind, on_res. destruct (m rs x) as [[|v rs' x']| |]; try done. apply H. Qed.
Lemma kq_stuck {A} a0 a (m : RM A) : same_query a0 a -> keepsq a0 a (on_res m).
Proof. intros H rs x. unfold on_res. by destruct (m rs x) as [[|v rs' x']| |]. Qed.
Lemma kq_bind_ret {A B} a0 a (v : A) (k : A -> AM B) : keepsq a0 a (k v) -> keepsq a0 a (mret v ≫= k).
Proof. intros H rs x. apply H. Qed.
Ltac kq := repeat lazymatch goal with
  | |- keepsq _ _ (mbind _ geta) => apply kq_get
  | |- keepsq _ _ (mbind _ (puta _)) => apply kq_put
  | |- keepsq _ _ (mbind _ (mret _)) => apply kq_bind_ret
  | |- keepsq _ _ (mbind _ (on_res _)) => apply kq_res; intros ?
  | |- keepsq _ _ (mret _) => apply kq_ret
  | |- keepsq _ _ (on_res _) => apply kq_stuck
  | |- keepsq _ _ (match ?v with _ => _ end) => destruct v
  | |- keepsq _ _ (mbind _ (match ?v with _ => _ end)) => destruct v
  | |- keepsq _ _ (ai_canonical _ _ _ _ _ _) => unfold ai_canonical
  | |- keepsq _ _ (ai_goto _) => unfold ai_goto
  | |- keepsq _ _ (dns_ai_setent _ _) => unfold dns_ai_setent
  | |- keepsq _ _ (ai_alloc _) => unfold ai_alloc
  | |- same_query _ _ => by repeat split
  end; cbv beta.

Lemma step_keepsq a0 a : same_query a0 a -> keepsq a0 a (ai_step fuel junk e ca nsteps inet_pton).
Proof.
  intros (E1 & E2 & E3 & E4). apply kq_get. destruct (ai_st a); cbn beta iota.
  - kq.
  - unfold ai_numeric. kq.
  - unfold ai_submit. kq.
  - unfold ai_check. kq.
  - unfold ai_fetch, ai_keep. kq.
  - unfold ai_foreach_i, ai_record, ai_refer. kq.
  - unfold ai_foreach_g. kq.
  - unfold ai_submit_g, ai_submit. kq.
  - unfold ai_check. kq.
  - unfold ai_fetch_g, ai_merge. kq.
  - kq.
Qed.

Lemma nextent_post n : forall a, aat a (ai_inv a) (dns_ai_nextent fuel junk e ca nsteps inet_pton n)
  (fun v a' rs => ai_inv a' rs /\ match v with inr ent => ent_ok a' ent | inl _ => True end).
Proof.
  induction n as [|n IH]; intros a; [by intros rs x _|]. cbn [dns_ai_nextent]. intros rs x Hi. pose proof (step_post a rs x Hi) as Hs.
  unfold mbind, AM_bind. destruct (ai_step _ _ _ _ _ _ a rs x) as [[|[a1 v] rs1 x1]| |]; try done. destruct Hs as [Hi1 Hv].
  destruct v as [|err|ent]; [by apply IH|done|done].
Qed.
Lemma nextent_keepsq n a0 : forall a, same_query a0 a -> keepsq a0 a (dns_ai_nextent fuel junk e ca nsteps inet_pton n).
Proof.
  induction n as [|n IH]; intros a Ha; [by apply kq_stuck|]. cbn [dns_ai_nextent]. intros rs x. pose proof (step_keepsq a0 a Ha rs x) as Hs.
  unfold mbind, AM_bind. destruct (ai_step _ _ _ _ _ _ a rs x) as [[|[a1 v] rs1 x1]| |]; try done. destruct v as [|err|ent]; [by apply IH|done|done].
Qed.

(** Calls of [dns_ai_nextent], whatever they returned. *)
Inductive called a (rs : res) : ai -> res -> Prop :=
  | called_none : called a rs a rs
  | called_more a1 rs1 x n v a2 rs2 x2 : called a rs a1 rs1 -> dns_ai_nextent fuel junk e ca nsteps inet_pton n a1 rs1 x = Val (ROk (a2, v) rs2 x2) ->
      called a rs a2 rs2.
Lemma called_inv a rs a' rs' : called a rs a' rs' -> ai_inv a rs -> ai_inv a' rs' /\ same_query a a'.
Proof.
  induction 1 as [|a1 rs1 x n v a2 rs2 x2 _ IH Hn]; intros Hi; [by split|]. destruct (IH Hi) as [Hi1 Hq]. split.
  - pose proof (nextent_post n a1 rs1 x Hi1) as Hp. rewrite Hn in Hp. apply Hp.
  - pose proof (nextent_keepsq n a a1 Hq rs1 x) as Hp. by rewrite Hn in Hp.
Qed.

End States.

(** ** Witness *)
Module AiWitnesses.
Import ResWitnesses.
#[local] Existing Instance echo_os.
#[local] Existing Instance echo_ok.
#[local] Existing Instance echo_res.

(** The address of the host a.b., port 80. *)
Definition no_pton (af : Z) (s : list Z) : pton_res := PtonBad.
Definition demo_hints_ai : ai_hints := AiHints AI_CANONNAME AF_INET SOCK_STREAM 6.
Definition demo_ai : ai := Ai demo_hints_ai demo_name DNS_T_A 80 80 None None rr_i0 rr_i0 [] AI_INIT.
#[local] Abbreviation demo_next := (dns_ai_nextent fuel 0 demo_env None fuel no_pton fuel demo_ai demo_res (World 4 [])).
Definition got (m : out (rres world (ai * (Z + ai_ent)))) : option (ai * ai_ent * res * world) :=
  match m with Val (ROk (a, inr ent) r x) => Some (a, ent, r, x) | _ => None end.
Definition demo_ent : ai_ent := AiEnt AF_INET SOCK_STREAM 6 (SS AF_INET 80 [1; 2; 3; 4] (replicate 16 0)) (Some demo_name).
Example demo_address : (fun '(_, ent, _, _) => ent) <$> got demo_next = Some demo_ent.
Proof. vm_compute. reflexivity. Qed.

Lemma got_Val m ent : (fun '(_, ent, _, _) => ent) <$> got m = Some ent -> exists a r x, m = Val (ROk (a, inr ent) r x).
Proof. destruct m as [[|[a [err|ent']] r x]| |]; try done. intros [= ->]. by exists a, r, x. Qed.

End AiWitnesses.
