(* ===== verification/Dns.v ===== *)
(** dns/dns.c, dns/hosts.c, dns/resolv_conf.c: DNS queries as Lua functions that
    pause the thread.

    libdns is the class [DnsApi], on handles that stand for its pointers; packets
    and their records are those of DnsRdata.v and DnsPacket.v. The registry of Lua
    is the table [reg]. [query] and [query_all] run on the machine of LuaC.v: the
    context 0 is a fresh call, another one the continuation. *)

From stdpp Require Import prelude gmap strings.
From Stdlib Require Import ZArith Lia SpecFloat Ascii.
From S2P Require Import Prelude DnsBase DnsName DnsRr DnsRdata DnsPacket DnsResconf DnsPermutor DnsSo.
From S2P Require Import Double Lua Misc Error LuaC.
Local Open Scope Z_scope.

(** The memory of the userdata: a resolver, a configuration and a table of hosts,
    whose pointers may be null, and addresses in network order. *)
Inductive dmem :=
  | MRes (r : option Z)
  | MConf (c : option Z)
  | MHosts (h : option Z)
  | MIn4 (a : list Z)
  | MIn6 (a : list Z).

Definition DNS_META : string := "ratchet_dns_meta".
Definition CONF_META : string := "ratchet_dns_resolv_conf_meta".
Definition HOSTS_META : string := "ratchet_dns_hosts_meta".
Definition A_META : string := "ratchet_dns_a_meta".
Definition AAAA_META : string := "ratchet_dns_aaaa_meta".

(** ** libdns

    Errors are numbers other than 0; [UB] and [Loop] are what they are there. *)
Class DnsApi := {
  dst : Type;
  d_hints_local : Z -> dst -> out (dst * (Z + Z));
  d_hints_mortal : Z -> dst -> out (dst * unit);
  d_res_open : Z -> Z -> option Z -> dst -> out (dst * (Z + Z));
  d_res_close : Z -> dst -> out (dst * unit);
  d_res_submit : Z -> list Z -> Z -> Z -> dst -> out (dst * Z);
  d_res_check : Z -> dst -> out (dst * Z);
  (** The answer is then the caller's. *)
  d_res_fetch : Z -> dst -> out (dst * (Z + option packet));
  d_res_elapsed : Z -> dst -> out (dst * Z);
  d_res_pollfd : Z -> dst -> out (dst * Z);
  d_hosts_local : dst -> out (dst * (Z + Z));
  d_hosts_open : dst -> out (dst * (Z + Z));
  d_hosts_loadpath : Z -> string -> dst -> out (dst * Z);
  d_hosts_close : Z -> dst -> out (dst * unit);
  d_resconf_open : dst -> out (dst * (Z + Z));
  d_resconf_loadpath : Z -> string -> dst -> out (dst * Z);
  d_resconf_close : Z -> dst -> out (dst * unit);
  (** The C library. *)
  d_inet_pton : Z -> string -> option (list Z);
  d_inet_ntop : Z -> list Z -> Z + string;
  d_in6addr_any : Z;
  d_strerror : Z -> string;
}.

(** Functions: [funcs] and [meths] of [luaopen_ratchet_dns]. *)
Definition DF_query : nat := 1.
Definition DF_query_all : nat := 2.
Definition DF_new : nat := 3.
Definition DF_close : nat := 4.
Definition DF_get_fd : nat := 5.
Definition DF_get_timeout : nat := 6.
Definition DF_submit_query : nat := 7.
Definition DF_is_query_done : nat := 8.
Definition DF_parse_answer : nat := 9.
Definition DF_mx_get_i : nat := 10.
Fixpoint method_in (meths : list (string * nat)) (name : string) : option nat :=
  match meths with
  | [] => None
  | (n, f) :: meths' => if String.eqb n name then Some f else method_in meths' name
  end.
Definition dns_meths : list (string * nat) :=
  [("close", DF_close); ("get_fd", DF_get_fd); ("get_timeout", DF_get_timeout); ("submit_query", DF_submit_query);
   ("is_query_done", DF_is_query_done); ("parse_answer", DF_parse_answer)]%string.
Definition dns_methods (meta name : string) : option nat :=
  if String.eqb meta DNS_META then method_in dns_meths name else None.

(** The names of the types that can be asked for. *)
Definition query_types : list (string * Z) :=
  [("a", DNS_T_A); ("aaaa", DNS_T_AAAA); ("mx", DNS_T_MX); ("ns", DNS_T_NS); ("cname", DNS_T_CNAME); ("soa", DNS_T_SOA);
   ("srv", DNS_T_SRV); ("ptr", DNS_T_PTR); ("txt", DNS_T_TXT); ("spf", DNS_T_SPF); ("sshfp", DNS_T_SSHFP)]%string.
Fixpoint type_in (l : list (string * Z)) (name : list Z) : option Z :=
  match l with
  | [] => None
  | (n, t) :: l' => if strcasecmp (bytes n) name =? 0 then Some t else type_in l' name
  end.
Definition query_name (t : Z) : string :=
  if t =? DNS_T_A then "A" else if t =? DNS_T_AAAA then "AAAA" else if t =? DNS_T_MX then "MX" else if t =? DNS_T_NS then "NS"
  else if t =? DNS_T_CNAME then "CNAME" else if t =? DNS_T_SOA then "SOA" else if t =? DNS_T_SRV then "SRV" else if t =? DNS_T_PTR then "PTR"
  else if t =? DNS_T_TXT then "TXT" else if t =? DNS_T_SPF then "SPF" else if t =? DNS_T_SSHFP then "SSHFP" else "*unknown*".

(** [strstr (s, p) != NULL]. *)
Fixpoint prefix_of (p s : list Z) : bool :=
  match p, s with
  | [], _ => true
  | a :: p', b :: s' => (a =? b) && prefix_of p' s'
  | _, [] => false
  end.
Fixpoint strstr (s p : list Z) : bool :=
  prefix_of p s || match s with [] => false | _ :: s' => strstr s' p end.

(** A host as [lua_pushstring] takes it: up to the first NUL. *)
Definition host_value (h : list Z) : value := VStr (string_of_bytes (cstr h)).
Definition vint (z : Z) : value := VNum (of_Z z).

Definition DNS_TXT_MINDATA : Z := 1024.
(** offsetof (struct dns_txt, data). *)
Definition DNS_TXT_DATAOFF : Z := 16.
Definition DNS_SSHFP_RSA : Z := 1.

Section Dns.
Context `{LuaConv, DnsApi}.
(** The registry, the iterations allowed to the name routines, and the seed and
    junk of [dns_rr_grep], neither of which matters for the order used here. *)
Context (reg : nat) (fuel : nat) (junk seed : Z).
Abbreviation M := (C dmem dst).
Abbreviation getfield := (lua_getfield dns_methods).

Definition dsys {A} (f : dst -> out (dst * A)) : M A := fun k s =>
  match f (ls_os s) with Val (d, a) => CVal a k (set_ls_os s d) | _ => CUB end.
Definition plift {A} (m : out A) : M A := fun k s => match m with Val a => CVal a k s | _ => CUB end.

Definition dns_strerror (e : Z) : string :=
  if e =? errnum DNS_ENOBUFS then "DNS packet buffer too small"
  else if e =? errnum DNS_EILLEGAL then "Illegal DNS RR name or data"
  else if e =? errnum DNS_EORDER then "Attempt to push RR out of section order"
  else if e =? errnum DNS_ESECTION then "Invalid section specified"
  else if e =? DNS_EUNKNOWN then "Unknown DNS error"
  else if e =? errnum DNS_EADDRESS then "Invalid textual address form"
  else d_strerror e.

(** [raise_dns_error (L, subj, call, e)]. *)
Definition raise_dns_error {A} (subj call : string) (e : Z) : M A :=
  craise (VErr (RError (subj ++ ": " ++ dns_strerror e) (ratchet_error_push_code e) None (Some call) (Some e))).
(** The same with [lua_tostring (L, 2)] as the subject. *)
Definition raise_for_2 {A} (call : string) (e : dns_error) : M A :=
  v ← lua_value 2;
  match tostring v with Some subj => raise_dns_error (c_str subj) call (errnum e) | None => cub end.

Definition getregistry (name : string) : M unit := t ← get_tab reg; lua_push (field t name).
Definition arg_or_registry (index : Z) (reg_default meta : string) : M nat :=
  v ← lua_value index;
  (if isnoneornil v then getregistry reg_default;; lua_replace index else mret tt);;
  luaL_checkudata index meta.

(** [get_dns_res]. *)
Definition get_dns_res (i : Z) : M (option Z) :=
  u ← luaL_checkudata i DNS_META;
  m ← mem_of u;
  match m with MRes r => mret r | _ => cub end.
(** A resolver that is used: a null pointer is followed. *)
Definition use_res (i : Z) : M Z := r ← get_dns_res i; match r with Some r => mret r | None => cub end.

Definition get_query_type (index : Z) : M Z :=
  v ← lua_value index;
  match tostring v with
  | None => cub
  | Some s =>
      match type_in query_types (bytes_of_string (c_str s)) with
      | Some t => mret t
      | None => craise (VStr ("unknown DNS query type: " ++ c_str s))
      end
  end.

Definition tostring_of (meta name : string) (af : Z) (addr : dmem -> option (list Z)) : M next :=
  u ← luaL_checkudata 1 meta;
  m ← mem_of u;
  match addr m with
  | None => cub
  | Some a =>
      match d_inet_ntop af a with
      | inl e => craise (ratchet_error_errno d_strerror name "inet_ntop" e)
      | inr s => lua_push (VStr s);; mret (NRet 1)
      end
  end.
Definition inet_tostring : M next :=
  tostring_of A_META "ratchet.dns.a.__tostring()" AF_INET (fun m => match m with MIn4 a => Some a | _ => None end).
Definition inet6_tostring : M next :=
  tostring_of AAAA_META "ratchet.dns.aaaa.__tostring()" AF_INET6 (fun m => match m with MIn6 a => Some a | _ => None end).

(** ** Records: the result table is on the top of the stack *)
Definition set_i (v : value) (i : Z) : M unit := lua_push v;; lua_rawseti (-2) i.
Definition new_addr (m : dmem) (meta : string) (i : Z) : M unit :=
  u ← lua_newuserdata m; luaL_setmetatable u meta;; lua_rawseti (-2) i.

Definition parse_rr_a (r : rr) (answer : packet) (i : Z) : M unit :=
  a ← plift (dns_a_parse r answer);
  match a with
  | inl e => raise_for_2 "dns_a_parse" e
  | inr (AnyA n) => new_addr (MIn4 (four n)) A_META i
  | inr _ => cub
  end.
Definition parse_rr_aaaa (r : rr) (answer : packet) (i : Z) : M unit :=
  a ← plift (dns_aaaa_parse r answer);
  match a with
  | inl e => raise_for_2 "dns_aaaa_parse" e
  | inr (AnyAAAA l) => new_addr (MIn6 l) AAAA_META i
  | inr _ => cub
  end.

(** The inner loop of [insert_mx_priority_sorted]: the value on the top goes to [j]
    and the one it replaces comes to the top. *)
Fixpoint shift_up (n : nat) (j : Z) : M unit :=
  match n with
  | O => cub
  | S n' =>
      lua_rawgeti (-2) j;;
      lua_pushvalue (-2);;
      lua_rawseti (-4) j;;
      lua_remove (-2);;
      v ← lua_value (-1);
      if isnil v then mret tt else shift_up n' (j + 1)
  end.
(** The outer loop, from [i]. *)
Fixpoint insert_loop (n : nat) (i priority : Z) : M unit :=
  match n with
  | O => cub
  | S n' =>
      lua_rawgeti (-1) i;;
      v ← lua_value (-1);
      if isnil v then lua_pop 1;; set_i (vint priority) i
      else
        p ← (match tointeger v with Some z => mret (to_int z) | None => cub end);
        if p =? priority then lua_pop 1
        else if priority <? p then
          shift_up n' (i + 1);;
          lua_pop 1;;
          set_i (vint priority) i
        else lua_pop 1;; insert_loop n' (i + 1) priority
  end.
(** The table has less entries than [turns] allows for. *)
Definition turns : M nat :=
  v ← lua_value (-1);
  match v with Some (VTab l) => t ← get_tab l; mret (S (S (size (t_arr t)))) | _ => cub end.
Definition insert_mx_priority_sorted (index priority : Z) : M unit :=
  getfield index "priorities";;
  n ← turns;
  insert_loop n 1 priority;;
  lua_pop 1.

(** The host goes behind the last one of its preference. *)
Fixpoint append_host (n : nat) (j : Z) (v : value) : M unit :=
  match n with
  | O => cub
  | S n' =>
      lua_rawgeti (-1) j;;
      x ← lua_value (-1);
      if isnil x then lua_pop 1;; set_i v j
      else lua_pop 1;; append_host n' (j + 1) v
  end.
(** The parts of [parse_rr_mx]: the table of preferences, the host, and the number of
    hosts. *)
Definition ensure_priorities : M unit :=
  getfield (-1) "priorities";;
  v ← lua_value (-1);
  (if isnil v then lua_createtable;; lua_setfield (-3) "priorities" else mret tt);;
  lua_pop 1.
Definition add_mx_host (preference : Z) (v : value) : M unit :=
  lua_rawgeti (-1) preference;;
  x ← lua_value (-1);
  (if isnil x then
     lua_createtable;;
     set_i v 1;;
     lua_rawseti (-3) preference
   else n ← turns; append_host n 1 v);;
  lua_pop 1.
Definition increment_n : M unit :=
  getfield (-1) "n";;
  v ← lua_value (-1);
  n ← (match tointeger v with Some z => mret z | None => cub end);
  lua_push (vint (n + 1));;
  lua_setfield (-3) "n";;
  lua_pop 1.
(** The metatable that the result gets only offers [get_i]. *)
Definition parse_rr_mx (r : rr) (answer : packet) (i : Z) : M unit :=
  a ← plift (dns_mx_parse fuel r answer);
  match a with
  | inl e => raise_for_2 "dns_mx_parse" e
  | inr (AnyMX preference host) =>
      ensure_priorities;;
      insert_mx_priority_sorted (-1) preference;;
      add_mx_host preference (host_value host);;
      increment_n
  | inr _ => cub
  end.

(** NS, CNAME and PTR. *)
Definition parse_rr_host (call : string) (r : rr) (answer : packet) (i : Z) : M unit :=
  a ← plift (dns_ns_parse fuel r answer);
  match a with
  | inl e => raise_for_2 call e
  | inr (AnyNS h) => set_i (host_value h) i
  | inr _ => cub
  end.
Definition parse_rr_ns := parse_rr_host "dns_ns_parse".
Definition parse_rr_cname := parse_rr_host "dns_cname_parse".
Definition parse_rr_ptr := parse_rr_host "dns_ptr_parse".

Fixpoint set_fields (l : list (string * value)) : M unit :=
  match l with [] => mret tt | (f, v) :: l' => lua_push v;; lua_setfield (-2) f;; set_fields l' end.
Definition parse_rr_srv (r : rr) (answer : packet) (i : Z) : M unit :=
  a ← plift (dns_srv_parse fuel r answer);
  match a with
  | inl e => raise_for_2 "dns_srv_parse" e
  | inr (AnySRV s) =>
      lua_createtable;;
      set_fields [("priority", vint (srv_priority s)); ("weight", vint (srv_weight s)); ("port", vint (srv_port s));
        ("target", host_value (srv_target s))]%string;;
      lua_rawseti (-2) i
  | inr _ => cub
  end.
Definition parse_rr_soa (r : rr) (answer : packet) (i : Z) : M unit :=
  a ← plift (dns_soa_parse fuel r answer);
  match a with
  | inl e => raise_for_2 "dns_srv_parse" e
  | inr (AnySOA s) =>
      lua_createtable;;
      set_fields [("mname", host_value (soa_mname s)); ("rname", host_value (soa_rname s)); ("serial", vint (soa_serial s));
        ("refresh", vint (soa_refresh s)); ("retry", vint (soa_retry s)); ("expire", vint (soa_expire s)); ("minimum", vint (soa_minimum s))]%string;;
      lua_rawseti (-2) i
  | inr _ => cub
  end.
Definition parse_rr_sshfp (r : rr) (answer : packet) (i : Z) : M unit :=
  a ← plift (dns_sshfp_parse (replicate 20 0) r answer);
  match a with
  | inl e => raise_for_2 "dns_sshfp_parse" e
  | inr (AnySSHFP s) =>
      if negb (fp_type s =? DNS_SSHFP_SHA1) then craise (ratchet_error_str "ratchet.dns.query.sshfp" "EINVAL" "Only SHA1 digests are supported.")
      else
        lua_createtable;;
        set_fields [("algorithm", VStr (if Z.eqb (fp_algo s) DNS_SSHFP_RSA then "rsa" else "dsa")); ("type", VStr "sha1");
          ("digest", VStr (string_of_bytes (take 20 (fp_digest s))))]%string;;
        lua_rawseti (-2) i
  | inr _ => cub
  end.
(** The record is on the stack of the C function: its text has 1024 bytes, whatever
    the size that the registry asks for. *)
Definition parse_rr_txt (r : rr) (answer : packet) (i : Z) : M unit :=
  getregistry "ratchet_dns_txt_size";;
  v ← lua_value (-1);
  n ← (match tonumberx v with
       | Some x => match to_Z x with Some z => if z <? 0 then cub else mret z | None => cub end
       | None => mret 0
       end);
  let size := if n =? 0 then DNS_TXT_MINDATA else n in
  lua_pop 1;;
  if size <=? DNS_TXT_DATAOFF then cub
  else
    a ← plift (dns_txt_parse (size - DNS_TXT_DATAOFF) r answer);
    match a with
    | inl e => raise_for_2 "dns_txt_parse" e
    | inr (AnyTXT d) => if DNS_TXT_MINDATA <? len d then cub else set_i (VStr (string_of_bytes d)) i
    | inr _ => cub
    end.

Definition parse_rr (r : rr) (answer : packet) (i : Z) : M unit :=
  let t := rr_type r in
  if t =? DNS_T_A then parse_rr_a r answer i
  else if t =? DNS_T_AAAA then parse_rr_aaaa r answer i
  else if t =? DNS_T_MX then parse_rr_mx r answer i
  else if t =? DNS_T_NS then parse_rr_ns r answer i
  else if t =? DNS_T_CNAME then parse_rr_cname r answer i
  else if t =? DNS_T_SOA then parse_rr_soa r answer i
  else if t =? DNS_T_SRV then parse_rr_srv r answer i
  else if t =? DNS_T_PTR then parse_rr_ptr r answer i
  else if t =? DNS_T_TXT then parse_rr_txt r answer i
  else if t =? DNS_T_SPF then parse_rr_txt r answer i
  else if t =? DNS_T_SSHFP then parse_rr_sshfp r answer i
  else craise (VStr "unimplemented DNS_T_*").

(** ** Addresses that are not names *)
Definition check_special_a (data : string) : M bool :=
  if String.eqb "*" data then _ ← lua_newuserdata (MIn4 [0; 0; 0; 0]); mret true
  else
    match d_inet_pton AF_INET data with
    | Some a => _ ← lua_newuserdata (MIn4 a); mret true
    | None => _ ← lua_newuserdata (MIn4 []); lua_pop 1;; mret false
    end.
Definition check_special_aaaa (data : string) : M bool :=
  if String.eqb "*" data then lua_push (VLight d_in6addr_any);; mret true
  else
    match d_inet_pton AF_INET6 data with
    | Some a => _ ← lua_newuserdata (MIn6 a); mret true
    | None => _ ← lua_newuserdata (MIn6 []); lua_pop 1;; mret false
    end.
Definition check_special (data : string) (type : Z) : M bool :=
  if type =? DNS_T_A then check_special_a data
  else if type =? DNS_T_AAAA then check_special_aaaa data
  else mret false.

(** An address becomes the name to ask for. *)
Definition in4 (a : list Z) : Z := foldl (fun n b => n * 256 + b) 0 a.
Definition ensure_arpa_string (index : Z) : M string :=
  v ← lua_value index;
  match tostring v with
  | None => cub
  | Some data =>
      let data := c_str data in
      let named qname := lua_push (host_value qname);; lua_replace index;; v ← lua_value 2; match tostring v with Some s => mret (c_str s) | None => cub end in
      if strstr (bytes_of_string data) (bytes "arpa") then mret data
      else
        match d_inet_pton AF_INET data with
        | Some a => named (dns_ptr_qname false (in4 a) [])
        | None => match d_inet_pton AF_INET6 data with Some a => named (dns_ptr_qname true 0 a) | None => mret data end
        end
  end.

(** ** Resolver objects *)
Definition mydns_new : M next :=
  lua_settop 3;;
  uc ← arg_or_registry 1 "ratchet_dns_resolv_conf_default" CONF_META;
  mc ← mem_of uc;
  uh ← arg_or_registry 2 "ratchet_dns_hosts_default" HOSTS_META;
  mh ← mem_of uh;
  v ← lua_value 3;
  expire ← (match optnumber v (of_Z 10) with inl e => craise e | inr n => mret n end);
  match mc, mh with
  | MConf (Some resconf), MHosts (Some hosts) =>
      u ← lua_newuserdata (MRes None);
      hints ← dsys (d_hints_local resconf);
      (match hints with inr h => dsys (d_hints_mortal h) | inl _ => mret tt end);;
      r ← dsys (d_res_open resconf hosts (match hints with inr h => Some h | inl _ => None end));
      match r with
      | inl e => raise_dns_error "ratchet.dns.new()" "dns_res_open" e
      | inr res =>
          put_mem u (MRes (Some res));;
          luaL_setmetatable u DNS_META;;
          lua_createtable;;
          set_fields [("tries", vint 0); ("expire_timeout", VNum expire)]%string;;
          lua_setuservalue (-2);;
          mret (NRet 1)
      end
  | _, _ => cub
  end.

Definition mydns_close : M next :=
  u ← luaL_checkudata 1 DNS_META;
  m ← mem_of u;
  match m with
  | MRes (Some res) => _ ← dsys (d_res_close res); put_mem u (MRes None);; mret (NRet 0)
  | MRes None => mret (NRet 0)
  | _ => cub
  end.

Definition mydns_get_fd : M next :=
  res ← use_res 1;
  fd ← dsys (d_res_pollfd res);
  lua_push (vint fd);;
  mret (NRet 1).

(** [pow (2.0, tries)]. *)
Definition DNS_GET_POLL_TIMEOUT (n : Z) : number := binary_normalize 53 1024 1 n false.
Definition mydns_get_timeout : M next :=
  _ ← get_dns_res 1;
  lua_getuservalue 1;;
  getfield (-1) "tries";;
  v ← lua_value (-1);
  tries ← (match tointeger v with Some z => mret (to_int z) | None => cub end);
  lua_pop 2;;
  lua_push (VNum (DNS_GET_POLL_TIMEOUT tries));;
  mret (NRet 1).

Definition mydns_submit_query : M next :=
  r ← get_dns_res 1;
  data ← luaL_checklstring 2;
  type ← get_query_type 3;
  data ← (if type =? DNS_T_PTR then ensure_arpa_string 2 else mret (c_str data));
  match r with
  | None => cub
  | Some res =>
      e ← dsys (d_res_submit res (bytes_of_string data) type DNS_C_IN);
      if negb (e =? 0) then raise_dns_error data "dns_res_submit" e else mret (NRet 0)
  end.

Definition mydns_is_query_done : M next :=
  res ← use_res 1;
  e ← dsys (d_res_check res);
  if negb (e =? EAGAIN) then lua_push (VBool true);; mret (NRet 1)
  else
    lua_getuservalue 1;;
    getfield (-1) "tries";;
    v ← lua_value (-1);
    tries ← (match tointeger v with Some z => mret (to_int z) | None => cub end);
    getfield (-2) "expire_timeout";;
    v ← lua_value (-1);
    let et := match tonumberx v with Some n => n | None => of_Z 0 end in
    lua_pop 2;;
    elapsed ← dsys (d_res_elapsed res);
    if SFleb et (of_Z elapsed) then lua_push (VBool true);; lua_push (VBool true);; mret (NRet 2)
    else
      lua_push (vint (tries + 1));;
      lua_setfield (-2) "tries";;
      lua_push (VBool false);;
      mret (NRet 1).

(** The records of the answer in the order of the packet; [found] of them so far. *)
Fixpoint parse_records (rs : list rr) (type : Z) (answer : packet) (found : Z) : M Z :=
  match rs with
  | [] => mret found
  | r :: rs' =>
      if (rr_section r =? DNS_S_AN) && (type =? rr_type r)
      then parse_rr r answer (found + 1);; parse_records rs' type answer (found + 1)
      else parse_records rs' type answer found
  end.
Definition in_packet_order : rr_i := RrI 0 None 0 0 None SortPacket 0 0 0 0.
Definition mydns_parse_answer : M next :=
  r ← get_dns_res 1;
  data ← luaL_checklstring 2;
  type ← get_query_type 3;
  v ← lua_value 4;
  lua_settop 3;;
  if toboolean v then lua_push VNil;; lua_push (VStr "Timed out.");; mret (NRet 2)
  else
    match r with
    | None => cub
    | Some res =>
        a ← dsys (d_res_fetch res);
        match a with
        | inl e => lua_push VNil;; lua_push (VStr (dns_strerror e));; mret (NRet 2)
        | inr None => lua_push VNil;; lua_push (VStr (dns_strerror 0));; mret (NRet 2)
        | inr (Some answer) =>
            lua_createtable;;
            rs ← plift (foreach fuel junk seed (steps answer) in_packet_order answer);
            found ← parse_records rs type answer 0;
            if found =? 0 then
              special ← check_special (c_str data) type;
              if special : bool then lua_rawseti (-2) 1;; mret (NRet 1)
              else
                v ← lua_value 2;
                match tostring v with
                | Some d => lua_push VNil;; lua_push (VStr (d ++ " has no " ++ query_name type ++ " record")%string);; mret (NRet 2)
                | None => cub
                end
            else mret (NRet 1)
        end
    end.

(** The hosts of an MX result, by preference. *)
Fixpoint hosts_at (n : nat) (j k want : Z) : M (option Z) :=
  match n with
  | O => cub
  | S n' =>
      lua_rawgeti (-1) j;;
      v ← lua_value (-1);
      if isnil v then mret (Some k)
      else if k =? want then mret None
      else lua_pop 1;; hosts_at n' (j + 1) (k + 1) want
  end.
Fixpoint priorities_from (n : nat) (i k want : Z) : M next :=
  match n with
  | O => cub
  | S n' =>
      lua_rawgeti (-1) i;;
      v ← lua_value (-1);
      if isnil v then lua_pop 2;; mret (NRet 0)
      else
        p ← (match tonumberx v with Some x => match to_Z x with Some z => mret (to_int z) | None => cub end | None => mret 0 end);
        lua_pop 1;;
        lua_rawgeti 1 p;;
        turns_ ← turns;
        k ← hosts_at turns_ 1 k want;
        match k with
        | None => mret (NRet 1)
        | Some k => lua_pop 2;; priorities_from n' (i + 1) k want
        end
  end.
Definition mydns_mx_get_i : M next :=
  luaL_checktable 1;;
  n ← luaL_checkint 2;
  getfield 1 "n";;
  v ← lua_value (-1);
  max_n ← (match tonumberx v with Some x => match to_Z x with Some z => mret (to_int z) | None => cub end | None => mret 0 end);
  lua_pop 1;;
  if n <=? 0 then mret (NRet 0)
  else
    n ← (if max_n <? n then if max_n =? 0 then cub else mret (Z.rem n max_n) else mret n);
    getfield 1 "priorities";;
    t ← turns;
    priorities_from t 1 1 n.

(** ** query *)
Definition dns_fns (f : nat) : option (M next) :=
  if (f =? DF_new)%nat then Some mydns_new
  else if (f =? DF_close)%nat then Some mydns_close
  else if (f =? DF_get_fd)%nat then Some mydns_get_fd
  else if (f =? DF_get_timeout)%nat then Some mydns_get_timeout
  else if (f =? DF_submit_query)%nat then Some mydns_submit_query
  else if (f =? DF_is_query_done)%nat then Some mydns_is_query_done
  else if (f =? DF_parse_answer)%nat then Some mydns_parse_answer
  else None.
Definition call_fn (nargs nres : nat) : M unit := lua_call_fn dns_fns nargs (Some nres).

Definition mydns_query_collect_results : M next :=
  getfield 1 "is_query_done";;
  lua_pushvalue 1;;
  call_fn 1 1;;
  v ← lua_value (-1);
  if toboolean v then
    lua_pop 1;;
    getfield 1 "parse_answer";;
    lua_pushvalue 1;;
    lua_pushvalue 2;;
    lua_pushvalue 3;;
    call_fn 3 2;;
    getfield 1 "close";;
    lua_pushvalue 1;;
    call_fn 1 0;;
    mret (NRet 2)
  else
    lua_pop 1;;
    lua_push (VLight YIELD_READ);;
    lua_pushvalue 1;;
    mret (NYield 2 1).

Definition mydns_query : M next :=
  k ← gstack;
  let nargs := length k in
  getregistry "ratchet_dns_class";;
  getfield (-1) "new";;
  lua_insert 3;;
  lua_pop 1;;
  (if (nargs <? 2)%nat then cub else call_fn (nargs - 2) 1);;
  lua_insert 1;;
  getfield 1 "submit_query";;
  lua_pushvalue 1;;
  lua_pushvalue 2;;
  lua_pushvalue 3;;
  call_fn 3 0;;
  mydns_query_collect_results.

(** ** query_all *)
Fixpoint push_resolvers (n : nat) (i : Z) (resconf_idx hosts_idx timeout_idx : Z) : M unit :=
  match n with
  | O => mret tt
  | S n' =>
      getregistry "ratchet_dns_class";;
      getfield (-1) "new";;
      lua_pushvalue resconf_idx;;
      lua_pushvalue hosts_idx;;
      lua_pushvalue timeout_idx;;
      call_fn 3 1;;
      lua_rawseti (-3) i;;
      lua_pop 1;;
      push_resolvers n' (i + 1) resconf_idx hosts_idx timeout_idx
  end.
Definition push_dns_resolver_table (num : nat) (resconf_idx hosts_idx timeout_idx : Z) : M unit :=
  lua_createtable;; push_resolvers num 1 resconf_idx hosts_idx timeout_idx.

Fixpoint submit_from (n : nat) (i : Z) (res_idx data_idx types_idx : Z) : M unit :=
  match n with
  | O => mret tt
  | S n' =>
      lua_rawgeti res_idx i;;
      getfield (-1) "submit_query";;
      lua_pushvalue (-2);;
      lua_pushvalue data_idx;;
      lua_rawgeti types_idx i;;
      call_fn 3 0;;
      lua_pop 1;;
      submit_from n' (i + 1) res_idx data_idx types_idx
  end.
Definition submit_dns_queries (num : nat) (res_idx data_idx types_idx : Z) : M unit := submit_from num 1 res_idx data_idx types_idx.

(** [lua_rawset (L, 4)] with the key below the value: [answers[key] = value]. *)
Definition set_answer_field (key : option string) (v : value) : M unit :=
  match key with
  | None => cub
  | Some key =>
      t ← lua_value 4;
      match t with Some (VTab l) => t ← get_tab l; put_tab l (set_field t key v) | _ => cub end
  end.
Definition second : M (value * value) :=
  v ← take_top; w ← take_top; mret (w, v).

(** The queries from [i] on; the number of those that are not done. The stack is the
    resolvers, the data, the types, the answers, the tag and the table to wait for. *)
Fixpoint collect_from (n : nat) (i not_done : Z) : M Z :=
  match n with
  | O => mret not_done
  | S n' =>
      lua_rawgeti 1 i;;
      v ← lua_value (-1);
      if negb (toboolean v) then lua_pop 1;; collect_from n' (i + 1) not_done
      else
        getfield (-1) "is_query_done";;
        lua_pushvalue (-2);;
        call_fn 1 2;;
        '(done, late) ← second;
        if toboolean (Some done) then
          getfield (-1) "parse_answer";;
          lua_pushvalue (-2);;
          lua_pushvalue 2;;
          lua_rawgeti 3 i;;
          lua_push (VBool (toboolean (Some late)));;
          call_fn 4 2;;
          '(result, err) ← second;
          lua_rawgeti 3 i;;
          type ← take_top;
          set_answer_field (t ← tostring (Some type); Some (t ++ "_error")%string) err;;
          set_answer_field (match type with VStr t => Some t | _ => None end) result;;
          getfield (-1) "close";;
          lua_pushvalue (-2);;
          call_fn 1 0;;
          lua_pop 1;;
          lua_push (VBool false);;
          lua_rawseti 1 i;;
          collect_from n' (i + 1) not_done
        else lua_rawseti (-2) (not_done + 1);; collect_from n' (i + 1) (not_done + 1)
  end.
Definition rawlen_of (i : Z) : M Z :=
  v ← lua_value i;
  match v with Some (VTab l) => t ← get_tab l; mret (rawlen t) | _ => cub end.
Definition mydns_query_all_collect_results (tries : Z) : M next :=
  num ← rawlen_of 1;
  (if tries =? 0 then mret tt else lua_pop 1);;
  lua_push (VLight YIELD_MULTIRW);;
  lua_createtable;;
  not_done ← collect_from (Z.to_nat num) 1 0;
  lua_push VNil;;
  lua_push (vint 2);;
  if 0 <? not_done then mret (NYield 4 (tries + 1)) else lua_pop 4;; mret (NRet 1).

Definition mydns_query_all : M next :=
  _ ← luaL_checklstring 1;
  luaL_checktable 2;;
  lua_settop 5;;
  num ← rawlen_of 2;
  push_dns_resolver_table (Z.to_nat num) 3 4 5;;
  lua_insert 1;;
  lua_settop 3;;
  lua_createtable;;
  submit_dns_queries (Z.to_nat num) 1 2 3;;
  mydns_query_all_collect_results 0.

Definition dns_code (f : nat) : option (Z -> M next) :=
  if (f =? DF_query)%nat then Some (fun ctx => if ctx =? 0 then mydns_query else mydns_query_collect_results)
  else if (f =? DF_query_all)%nat then Some (fun ctx => if ctx =? 0 then mydns_query_all else mydns_query_all_collect_results ctx)
  else if (f =? DF_mx_get_i)%nat then Some (fun _ => mydns_mx_get_i)
  else match dns_fns f with Some body => Some (fun _ => body) | None => None end.

(** ** Hosts and configurations as objects *)

(** The files of a table are loaded one after the other; an error leaves a message
    on the stack. *)
Fixpoint load_files (n : nat) (load : string -> dst -> out (dst * Z)) (index i : Z) : M bool :=
  match n with
  | O => cub
  | S n' =>
      lua_rawgeti index i;;
      v ← lua_value (-1);
      if isnil v then lua_pop 1;; mret true
      else
        match tostring v with
        | None => cub
        | Some path =>
            e ← dsys (load (c_str path));
            if negb (e =? 0) then lua_push (VStr (c_str path ++ ": " ++ dns_strerror e));; mret false
            else lua_pop 1;; load_files n' load index (i + 1)
        end
  end.
Definition load_all (load : string -> dst -> out (dst * Z)) (index : Z) : M bool :=
  n ← rawlen_of index; load_files (S (Z.to_nat n)) load index 1.
(** [ratchet_error_top (L, function, NULL)]. *)
Definition ratchet_error_top {A} (function : string) : M A :=
  v ← lua_value (-1);
  match v with Some (VStr s) => craise (VErr (RError s None (Some function) None None)) | _ => cub end.

Definition load_hosts (index : Z) : M (option Z) :=
  v ← lua_value index;
  if isnoneornil v then
    r ← dsys d_hosts_local;
    match r with
    | inl e => lua_push (VStr ("/etc/hosts: " ++ dns_strerror e));; mret None
    | inr h => mret (Some h)
    end
  else
    luaL_checktable index;;
    r ← dsys d_hosts_open;
    match r with
    | inl e => lua_push (VStr ("dns_hosts_open: " ++ dns_strerror e));; mret None
    | inr h => ok ← load_all (d_hosts_loadpath h) index; mret (if ok : bool then Some h else None)
    end.
Definition myhosts_new : M next :=
  lua_settop 1;;
  u ← lua_newuserdata (MHosts None);
  h ← load_hosts 1;
  match h with
  | None => ratchet_error_top "ratchet.dns.hosts.new()"
  | Some h => put_mem u (MHosts (Some h));; luaL_setmetatable u HOSTS_META;; mret (NRet 1)
  end.
Definition myhosts_gc : M next :=
  u ← luaL_checkudata 1 HOSTS_META;
  m ← mem_of u;
  match m with
  | MHosts h => (match h with Some h => dsys (d_hosts_close h) | None => mret tt end);; put_mem u (MHosts None);; mret (NRet 0)
  | _ => cub
  end.

Definition load_resolv_conf (index : Z) : M (option Z) :=
  v ← lua_value index;
  (if isnoneornil v then lua_createtable;; set_i (VStr "/etc/resolv.conf") 1;; lua_replace index else luaL_checktable index);;
  r ← dsys d_resconf_open;
  match r with
  | inl e => lua_push (VStr ("dns_resconf_open: " ++ dns_strerror e));; mret None
  | inr c => ok ← load_all (d_resconf_loadpath c) index; mret (if ok : bool then Some c else None)
  end.
Definition myresconf_new : M next :=
  lua_settop 1;;
  u ← lua_newuserdata (MConf None);
  c ← load_resolv_conf 1;
  match c with
  | None => ratchet_error_top "ratchet.dns.resolv_conf.new()"
  | Some c => put_mem u (MConf (Some c));; luaL_setmetatable u CONF_META;; mret (NRet 1)
  end.
Definition myresconf_gc : M next :=
  u ← luaL_checkudata 1 CONF_META;
  m ← mem_of u;
  match m with
  | MConf c => (match c with Some c => dsys (d_resconf_close c) | None => mret tt end);; put_mem u (MConf None);; mret (NRet 0)
  | _ => cub
  end.
End Dns.
