(* ===== verification/DnsMx.v ===== *)
(** The result of an MX query: hosts in the order of their preference.

    [parse_rr_mx] keeps the preferences in a sorted array and the hosts of each in
    a table of their own; [get_i] counts through them. *)

From stdpp Require Import prelude gmap strings sorting.
From Stdlib Require Import ZArith Lia SpecFloat.
From S2P Require Import Prelude DnsBase DnsRr DnsRrSpec DnsRdata DnsPacket DnsResconf DnsSo.
From S2P Require Import Double Lua Misc Error LuaC Dns.
Local Open Scope Z_scope.

(** ** Arrays: the values at 1, 2, ... *)
Fixpoint arr_from (i : Z) (vs : list value) : gmap Z value :=
  match vs with [] => ∅ | v :: vs' => <[i := v]> (arr_from (i + 1) vs') end.
Definition arr_of (vs : list value) : gmap Z value := arr_from 1 vs.

Lemma arr_from_lookup vs : forall i j, arr_from i vs !! j = if i <=? j then vs !! Z.to_nat (j - i) else None.
Proof.
  induction vs as [|v vs IH]; intros i j; cbn [arr_from].
  - rewrite lookup_empty. by case_match.
  - destruct (decide (i = j)) as [<-|Hne].
    + rewrite lookup_insert_eq, Z.leb_refl, Z.sub_diag. done.
    + rewrite lookup_insert_ne, IH by done. destruct (Z.leb_spec (i + 1) j), (Z.leb_spec i j); try lia; [|done].
      replace (Z.to_nat (j - i)) with (S (Z.to_nat (j - (i + 1)))) by lia. done.
Qed.
Lemma arr_lookup vs j : arr_of vs !! j = if 1 <=? j then vs !! Z.to_nat (j - 1) else None.
Proof. apply arr_from_lookup. Qed.
Lemma arr_size vs : size (arr_of vs) = length vs.
Proof.
  unfold arr_of. generalize 1. induction vs as [|v vs IH]; intros i; cbn [arr_from]; [apply map_size_empty|].
  rewrite map_size_insert_None, IH; [done|]. rewrite arr_from_lookup. by destruct (Z.leb_spec (i + 1) i); [lia|].
Qed.

Lemma rawget_arr f vs (i : nat) v : vs !! i = Some v -> rawget (Tab f (arr_of vs)) (Z.of_nat i + 1) = v.
Proof.
  intros Hv. unfold rawget. cbn. rewrite arr_lookup. destruct (Z.leb_spec 1 (Z.of_nat i + 1)); [|lia].
  replace (Z.to_nat (Z.of_nat i + 1 - 1)) with i by lia. by rewrite Hv.
Qed.
Lemma rawget_arr_end f vs (i : nat) : (length vs <= i)%nat -> rawget (Tab f (arr_of vs)) (Z.of_nat i + 1) = VNil.
Proof.
  intros Hi. unfold rawget. cbn. rewrite arr_lookup. destruct (Z.leb_spec 1 (Z.of_nat i + 1)); [|lia].
  rewrite lookup_ge_None_2; [done|lia].
Qed.
Lemma rawset_arr f vs (i : nat) v : v <> VNil -> (i < length vs)%nat -> rawset (Tab f (arr_of vs)) (Z.of_nat i + 1) v = Tab f (arr_of (<[i := v]> vs)).
Proof.
  intros Hv Hi. unfold rawset. cbn. assert (<[Z.of_nat i + 1 := v]> (arr_of vs) = arr_of (<[i := v]> vs)) as E.
  { apply map_eq. intros j. destruct (decide (j = Z.of_nat i + 1)) as [->|Hne].
    - rewrite lookup_insert_eq, arr_lookup. destruct (Z.leb_spec 1 (Z.of_nat i + 1)); [|lia].
      replace (Z.to_nat (Z.of_nat i + 1 - 1)) with i by lia. by rewrite list_lookup_insert_eq.
    - rewrite lookup_insert_ne, !arr_lookup by done. destruct (Z.leb_spec 1 j); [|done]. rewrite list_lookup_insert_ne; [done|lia]. }
  rewrite E. by destruct v.
Qed.
Lemma rawset_arr_end f vs v : v <> VNil -> rawset (Tab f (arr_of vs)) (Z.of_nat (length vs) + 1) v = Tab f (arr_of (vs ++ [v])).
Proof.
  intros Hv. unfold rawset. cbn. assert (<[Z.of_nat (length vs) + 1 := v]> (arr_of vs) = arr_of (vs ++ [v])) as E.
  { apply map_eq. intros j. destruct (decide (j = Z.of_nat (length vs) + 1)) as [->|Hne].
    - rewrite lookup_insert_eq, arr_lookup. destruct (Z.leb_spec 1 (Z.of_nat (length vs) + 1)); [|lia].
      replace (Z.to_nat (Z.of_nat (length vs) + 1 - 1)) with (length vs) by lia. by rewrite lookup_app_r, Nat.sub_diag by lia.
    - rewrite lookup_insert_ne, !arr_lookup by done. destruct (Z.leb_spec 1 j); [|done].
      destruct (decide (Z.to_nat (j - 1) < length vs)%nat); [by rewrite lookup_app_l by lia|].
      rewrite lookup_app_r by lia. rewrite lookup_ge_None_2 by lia. symmetry. apply lookup_ge_None_2. cbn. lia. }
  rewrite E. by destruct v.
Qed.

Lemma not_nil v : v <> VNil -> match v with VNil => true | _ => false end = false.
Proof. by destruct v. Qed.

(** ** Preferences *)

(** A preference put into a sorted list, once. *)
Fixpoint insert_pref (p : Z) (l : list Z) : list Z :=
  match l with
  | [] => [p]
  | q :: l' => if q =? p then l else if p <? q then p :: l else q :: insert_pref p l'
  end.
Definition pref (p : Z) : Prop := 0 <= p < 65536.

Lemma pref_tointeger `{LuaConv} p : pref p -> tointeger (Some (vint p)) = Some p.
Proof. intros Hp. unfold pref in Hp. cbn. apply to_Z_of_Z. lia. Qed.
Lemma pref_int p : pref p -> to_int p = p.
Proof. intros Hp. unfold pref in Hp. apply to_int_id. lia. Qed.

(** The preferences of the records, and the records in their order: those of the
    first preference, those of the second, ... *)
Definition prefs {A} (xs : list (Z * A)) : list Z := foldl (fun l x => insert_pref x.1 l) [] xs.
Definition hosts_of {A} (p : Z) (xs : list (Z * A)) : list (Z * A) := filter (fun x => x.1 = p) xs.
Definition mx_order {A} (xs : list (Z * A)) : list (Z * A) := p ← prefs xs; hosts_of p xs.

Lemma insert_pref_elem p l q : q ∈ insert_pref p l <-> q = p \/ q ∈ l.
Proof.
  induction l as [|r l IH]; cbn [insert_pref]; [set_solver|]. destruct (Z.eqb_spec r p) as [->|]; [set_solver|].
  destruct (Z.ltb_spec p r); rewrite ?elem_of_cons, ?IH; set_solver.
Qed.
Lemma insert_pref_sorted p l : StronglySorted Z.lt l -> StronglySorted Z.lt (insert_pref p l).
Proof.
  induction 1 as [|r l Hl IH Hr]; cbn [insert_pref]; [by repeat constructor|]. destruct (Z.eqb_spec r p) as [->|]; [by constructor|].
  destruct (Z.ltb_spec p r).
  - constructor; [by constructor|]. constructor; [done|]. eapply Forall_impl; [exact Hr|]. cbn. lia.
  - constructor; [done|]. apply Forall_forall. intros q [->|Hq]%insert_pref_elem; [lia|]. by eapply Forall_forall in Hr.
Qed.

Section Order.
Context {A : Type}.
Implicit Types (xs : list (Z * A)) (ps : list Z).

Lemma prefs_snoc xs p a : prefs (xs ++ [(p, a)]) = insert_pref p (prefs xs).
Proof. unfold prefs. by rewrite foldl_snoc. Qed.
Lemma prefs_elem xs p : p ∈ prefs xs <-> p ∈ xs.*1.
Proof.
  induction xs as [|[q a] xs IH] using rev_ind; [done|]. rewrite prefs_snoc, insert_pref_elem, IH, fmap_app, elem_of_app. set_solver.
Qed.
Lemma prefs_sorted xs : StronglySorted Z.lt (prefs xs).
Proof. induction xs as [|[q a] xs IH] using rev_ind; [constructor|]. rewrite prefs_snoc. by apply insert_pref_sorted. Qed.
Lemma sorted_lt_NoDup ps : StronglySorted Z.lt ps -> NoDup ps.
Proof.
  induction 1 as [|p ps _ IH Hp]; constructor; [|done]. intros Hin. eapply Forall_forall in Hp; [|exact Hin]. lia.
Qed.

Lemma hosts_of_snoc p xs q a : hosts_of p (xs ++ [(q, a)]) = hosts_of p xs ++ (if decide (q = p) then [(q, a)] else []).
Proof. unfold hosts_of. rewrite filter_app, filter_cons, filter_nil. by repeat case_decide. Qed.
Lemma hosts_of_none p xs : p ∉ xs.*1 -> hosts_of p xs = [].
Proof.
  intros Hp. unfold hosts_of. induction xs as [|x xs IH]; [done|]. rewrite filter_cons_False; [|set_solver]. apply IH. set_solver.
Qed.
Lemma hosts_of_of p q xs : hosts_of p (hosts_of q xs) = if decide (p = q) then hosts_of p xs else [].
Proof.
  unfold hosts_of. induction xs as [|x xs IH]; [by case_decide|]. rewrite !filter_cons.
  destruct (decide (x.1 = q)) as [Hq|Hq]; rewrite ?filter_cons, ?IH; repeat case_decide; congruence.
Qed.

(** Grouping by distinct keys permutes. *)
Lemma group_cons ps x xs : x.1 ∉ ps -> (ps ≫= (fun p => hosts_of p (x :: xs))) = (ps ≫= (fun p => hosts_of p xs)).
Proof.
  intros Hx. induction ps as [|p ps IH]; [done|]. rewrite !bind_cons, IH by set_solver. f_equal. unfold hosts_of. rewrite filter_cons_False; [done|set_solver].
Qed.
Lemma group_Permutation ps xs : NoDup ps -> (forall x, x ∈ xs -> x.1 ∈ ps) -> (ps ≫= (fun p => hosts_of p xs)) ≡ₚ xs.
Proof.
  intros Hps. induction xs as [|x xs IH]; intros Hin.
  - clear. induction ps as [|p ps IHp]; [done|]. rewrite bind_cons. exact IHp.
  - destruct (list_elem_of_split ps x.1) as (p1 & p2 & E); [set_solver|]. subst ps. apply NoDup_app in Hps as (H1 & Hd & [H2 H3]%NoDup_cons).
    etrans; [|apply perm_skip, IH; set_solver]. rewrite !bind_app, !bind_cons, !group_cons; [|by set_solver|by intros Hx; apply (Hd _ Hx); constructor].
    assert (hosts_of x.1 (x :: xs) = x :: hosts_of x.1 xs) as -> by (unfold hosts_of; by rewrite filter_cons_True).
    symmetry. apply Permutation_middle.
Qed.
Lemma mx_order_Permutation xs : mx_order xs ≡ₚ xs.
Proof. apply group_Permutation; [apply sorted_lt_NoDup, prefs_sorted|]. intros x Hx. apply prefs_elem. by apply list_elem_of_fmap_2. Qed.

Lemma group_sorted ps xs : StronglySorted Z.lt ps -> StronglySorted (fun x y => x.1 <= y.1) (ps ≫= (fun p => hosts_of p xs)).
Proof.
  induction 1 as [|p ps _ IH Hp]; [constructor|]. rewrite bind_cons. assert (Forall (fun x => x.1 = p) (hosts_of p xs)) as Hh.
  { apply Forall_forall. by intros x [? _]%list_elem_of_filter. }
 
  induction Hh as [|x l Hx Hh IHl]; [exact IH|]. cbn. constructor; [exact IHl|]. apply Forall_app. split.
  - eapply Forall_impl; [exact Hh|]. cbn. lia.
  - apply Forall_forall. intros y (q & Hy & Hq)%list_elem_of_bind. apply list_elem_of_filter in Hy as [Hy _].
    eapply Forall_forall in Hp; [|exact Hq]. lia.
Qed.
Lemma mx_order_sorted xs : StronglySorted (fun x y => x.1 <= y.1) (mx_order xs).
Proof. apply group_sorted, prefs_sorted. Qed.

Lemma group_stable ps xs p : NoDup ps -> hosts_of p (ps ≫= (fun q => hosts_of q xs)) = if decide (p ∈ ps) then hosts_of p xs else [].
Proof.
  induction 1 as [|q ps Hq _ IH]; [done|]. rewrite bind_cons. unfold hosts_of at 1. rewrite filter_app. fold (hosts_of p (hosts_of q xs)).
  change (filter _ (ps ≫= _)) with (hosts_of p (ps ≫= (fun q => hosts_of q xs))). rewrite hosts_of_of, IH.
  destruct (decide (p = q)) as [<-|Hne].
  - rewrite decide_False by done. rewrite decide_True by set_solver. by rewrite app_nil_r.
  - cbn. apply decide_ext. set_solver.
Qed.
Lemma mx_order_stable xs p : hosts_of p (mx_order xs) = hosts_of p xs.
Proof.
  unfold mx_order. rewrite group_stable by apply sorted_lt_NoDup, prefs_sorted. case_decide as Hp; [done|].
  symmetry. apply hosts_of_none. by rewrite <- prefs_elem.
Qed.
End Order.

Section Mx.
Context `{LuaConv} {api : DnsApi} (reg fuel : nat).
Implicit Types s : lstate dmem dst.

Definition set_tab s l t : lstate dmem dst := set_ls_tabs s (<[l := t]> (ls_tabs s)).
Lemma set_tab_tab s l t t' : set_tab (set_tab s l t) l t' = set_tab s l t'.
Proof. unfold set_tab. cbn. by rewrite tabs_tabsE, insert_insert_eq. Qed.

Lemma set_tab_id s l t : ls_tabs s !! l = Some t -> set_tab s l t = s.
Proof. intros Ht. unfold set_tab. rewrite insert_id by done. by destruct s. Qed.
Lemma set_tabE s l t : set_ls_tabs s (<[l := t]> (ls_tabs s)) = set_tab s l t.
Proof. done. Qed.
Lemma set_tab_lookup s l t : ls_tabs (set_tab s l t) !! l = Some t.
Proof. cbn. apply lookup_insert_eq. Qed.

(** [shift_up]: a value is put in front of those from [j] on. *)
Lemma shift_upE a b c d lp f n : forall pre post cur s, cur <> VNil -> Forall (fun v => v <> VNil) post -> (length post < n)%nat ->
  ls_tabs s !! lp = Some (Tab f (arr_of (pre ++ post))) ->
  shift_up n (Z.of_nat (length pre) + 1) [a; b; c; d; VTab lp; cur] s =
    CVal tt [a; b; c; d; VTab lp; VNil] (set_tab s lp (Tab f (arr_of (pre ++ cur :: post)))).
Proof.
  induction n as [|n IH]; intros pre post cur s Hc Hpost Hn Ht; [lia|]. cbn [shift_up]. destruct post as [|q post].
  - rewrite app_nil_r in Ht. lop. lop. rewrite (rawget_arr_end f pre (length pre)) by lia. lop. lop. lop. lop. rewrite rawset_arr_end by done. lrun. done.
  - inversion_clear Hpost as [|?? Hq Hp]. lop. lop. rewrite (rawget_arr f _ _ q) by (by rewrite lookup_app_r, Nat.sub_diag by lia). lop. lop. lop. lop.
    rewrite rawset_arr by (done || rewrite length_app; cbn; lia). lrun. rewrite (not_nil q Hq).
    replace (Z.of_nat (length pre) + 1 + 1) with (Z.of_nat (length (pre ++ [cur])) + 1) by (rewrite length_app; cbn; lia).
    rewrite insert_app_r_alt, Nat.sub_diag by lia; cbn [insert list_insert].
    rewrite (IH (pre ++ [cur]) post) by (done || (cbn in Hn; lia) || (cbn; rewrite lookup_insert_eq, <- app_assoc; done)).
    rewrite <- app_assoc; cbn [app]; unfold set_tab; by lst.
Qed.

(** [insert_loop] on a sorted array. *)
Lemma insert_loopE a b c d lp f priority n : pref priority -> forall pre post s, Forall pref post -> (length post + 1 < n)%nat ->
  ls_tabs s !! lp = Some (Tab f (arr_of (vint <$> pre ++ post))) ->
  insert_loop n (Z.of_nat (length pre) + 1) priority [a; b; c; d; VTab lp] s =
    CVal tt [a; b; c; d; VTab lp] (set_tab s lp (Tab f (arr_of (vint <$> pre ++ insert_pref priority post)))).
Proof.
  intros Hpr. induction n as [|n IH]; intros pre post s Hpost Hn Ht; [lia|]. cbn [insert_loop]. destruct post as [|q post]; rewrite fmap_app in Ht.
  - rewrite app_nil_r in Ht. lop. lop. rewrite <- (length_fmap vint pre), (rawget_arr_end f _ (length (vint <$> pre))) by lia. unfold set_i. lrun.
    rewrite rawset_arr_end by done. cbn [insert_pref]. by rewrite fmap_app.
  - inversion_clear Hpost as [|?? Hq Hp]. lop. lop. rewrite <- (length_fmap vint pre).
    rewrite (rawget_arr f _ _ (vint q)) by (by rewrite lookup_app_r, Nat.sub_diag by lia). lop. lop. unfold vint at 1. cbv iota. fold (vint q).
    lop. rewrite (pref_tointeger q Hq). lop. rewrite (pref_int q Hq). cbn [insert_pref].
    destruct (Z.eqb_spec q priority) as [->|Hne]; [lrun; rewrite <- fmap_app in Ht; by rewrite set_tab_id|].
    destruct (Z.ltb_spec priority q) as [Hlt|Hge].
    + replace (Z.of_nat (length (vint <$> pre)) + 1 + 1) with (Z.of_nat (length ((vint <$> pre) ++ [vint q])) + 1) by (rewrite length_app; cbn; lia). lop.
      rewrite (shift_upE a b c d lp f n ((vint <$> pre) ++ [vint q]) (vint <$> post) (vint q));
        [|done|by apply Forall_fmap, Forall_true|rewrite length_fmap; cbn in Hn; lia|by rewrite <- app_assoc].
      unfold set_i, set_tab. lrun. rewrite rawset_arr; [|done|rewrite length_app, length_app; cbn; lia]. lst. do 4 f_equal. rewrite <- app_assoc, insert_app_r_alt, Nat.sub_diag by lia. cbn [insert list_insert app].
      by rewrite !fmap_app.
    + lop. lop. replace (Z.of_nat (length (vint <$> pre)) + 1 + 1) with (Z.of_nat (length (pre ++ [q])) + 1) by (rewrite length_fmap, length_app; cbn; lia).
      rewrite (IH (pre ++ [q]) post s); [by rewrite <- app_assoc|done|cbn in Hn; lia|]. by rewrite Ht, <- app_assoc, fmap_app.
Qed.

Lemma turnsE k s l t : last k = Some (VTab l) -> ls_tabs s !! l = Some t ->
  turns k s = CVal (S (S (size (t_arr t)))) k s.
Proof.
  intros Hk Ht. unfold turns. rewrite bindE. assert (exists k0, k = k0 ++ [VTab l]) as [k0 ->].
  { exists (removelast k). rewrite last_Some in Hk. destruct Hk as [k0 ->]. by rewrite removelast_last. }
  assert (pos (k0 ++ [VTab l]) (-1) = Some (length k0)) as Hp.
  { unfold pos. rewrite length_app. cbn [length]. replace ((0 <? -1) && _) with false by done.
    destruct (Z.leb_spec (- Z.of_nat (length k0 + 1)) (-1)); [|lia]. cbn. f_equal. lia. }
  rewrite (valueE _ _ _ _ Hp), lookup_app_r, Nat.sub_diag by lia. cbn. by rewrite bindE, (get_tabE _ _ _ _ Ht).
Qed.

Lemma insert_mxE a b c l t lp f ps priority s : pref priority -> Forall pref ps -> ls_tabs s !! l = Some t -> field t "priorities" = VTab lp ->
  ls_tabs s !! lp = Some (Tab f (arr_of (vint <$> ps))) ->
  insert_mx_priority_sorted (-1) priority [a; b; c; VTab l] s =
    CVal tt [a; b; c; VTab l] (set_tab s lp (Tab f (arr_of (vint <$> insert_pref priority ps)))).
Proof.
  intros Hp Hps Hl Hf Hlp. unfold insert_mx_priority_sorted. lop. lop. rewrite Hf. lop. rewrite (turnsE [a; b; c; VTab l; VTab lp] s lp _ eq_refl Hlp). cbv beta iota.
  cbn [t_arr]. rewrite arr_size, length_fmap.
  pose proof (insert_loopE a b c (VTab l) lp f priority (S (S (length ps))) Hp [] ps s Hps ltac:(lia) Hlp) as E.
  change (Z.of_nat (length []) + 1) with 1 in E. cbn [app] in E. lop. rewrite E. lrun. done.
Qed.

Lemma append_hostE a b c d lh f v n : v <> VNil -> forall pre post s, (length post < n)%nat -> Forall (fun v => v <> VNil) post ->
  ls_tabs s !! lh = Some (Tab f (arr_of (pre ++ post))) ->
  append_host n (Z.of_nat (length pre) + 1) v [a; b; c; d; VTab lh] s =
    CVal tt [a; b; c; d; VTab lh] (set_tab s lh (Tab f (arr_of ((pre ++ post) ++ [v])))).
Proof.
  intros Hv. induction n as [|n IH]; intros pre post s Hn Hpost Ht; [lia|]. cbn [append_host]. destruct post as [|q post].
  - rewrite app_nil_r in *. lop. lop. rewrite (rawget_arr_end f pre (length pre)) by lia. unfold set_i. lrun. by rewrite rawset_arr_end.
  - inversion_clear Hpost as [|?? Hq Hp]. lop. lop. rewrite (rawget_arr f _ _ q) by (by rewrite lookup_app_r, Nat.sub_diag by lia). lop. lop.
    rewrite (not_nil q Hq). lop. lop.
    replace (Z.of_nat (length pre) + 1 + 1) with (Z.of_nat (length (pre ++ [q])) + 1) by (rewrite length_app; cbn; lia).
    rewrite (IH (pre ++ [q]) post); [by rewrite <- !app_assoc|cbn in Hn; lia|done|by rewrite <- app_assoc].
Qed.

(** ** The result table *)

(** The table of preferences is [lp], that of the hosts of preference [p] is [hs !! p]. *)
Record mx_body s (l lp : nat) (hs : gmap Z nat) (xs : list (Z * value)) : Prop := {
  mb_l : exists F, ls_tabs s !! l = Some (Tab F (VTab <$> hs)) /\ field (Tab F ∅) "priorities" = VTab lp /\
    tointeger (Some (field (Tab F ∅) "n")) = Some (Z.of_nat (length xs));
  mb_lp : ls_tabs s !! lp = Some (Tab ∅ (arr_of (vint <$> prefs xs)));
  mb_hs : forall p, is_Some (hs !! p) <-> p ∈ prefs xs;
  mb_h : forall p h, hs !! p = Some h -> ls_tabs s !! h = Some (Tab ∅ (arr_of (hosts_of p xs).*2));
  mb_inj : forall p q h, hs !! p = Some h -> hs !! q = Some h -> p = q;
  mb_ne : forall p h, hs !! p = Some h -> h <> l /\ h <> lp /\ (h < ls_next s)%nat;
  mb_llp : l <> lp;
  mb_next : (l < ls_next s)%nat /\ (lp < ls_next s)%nat;
}.
Definition mx_ok (x : Z * value) : Prop := pref x.1 /\ x.2 <> VNil.

Lemma prefs_ok xs : Forall mx_ok xs -> Forall pref (prefs xs).
Proof.
  intros Hx. apply Forall_forall. intros p (x & -> & Hin)%prefs_elem%list_elem_of_fmap. eapply Forall_forall in Hx; [|exact Hin]. apply Hx.
Qed.
Lemma hosts_ok p xs : Forall mx_ok xs -> Forall (fun v => v <> VNil) (hosts_of p xs).*2.
Proof.
  intros Hx. apply Forall_forall. intros v (x & -> & [_ Hin]%list_elem_of_filter)%list_elem_of_fmap. eapply Forall_forall in Hx; [|exact Hin]. apply Hx.
Qed.

(** An empty result gets its table of preferences. *)
Lemma ensure_newE a b c l s : ls_tabs s !! l = Some (Tab ∅ ∅) -> (l < ls_next s)%nat ->
  exists s', ensure_priorities [a; b; c; VTab l] s = CVal tt [a; b; c; VTab l] s' /\ mx_body s' l (ls_next s) ∅ [].
Proof.
  intros Hl Hn. unfold ensure_priorities. lop. lop. change (field (Tab ∅ ∅) "priorities") with VNil. lrun. eexists. split; [done|]. split; cbn; try done.
  - eexists. rewrite lookup_insert_eq. split; [by rewrite fmap_empty|]. unfold field. cbn. by rewrite lookup_insert_eq, lookup_insert_ne.
  - rewrite lookup_insert_ne by lia. by rewrite lookup_insert_eq.
  - intros p. rewrite lookup_empty. split; [by intros [? ?]|]. by intros ?%elem_of_nil.
  - lia.
  - lia.
Qed.
Lemma ensure_keptE a b c l lp hs xs s : mx_body s l lp hs xs ->
  ensure_priorities [a; b; c; VTab l] s = CVal tt [a; b; c; VTab l] s.
Proof.
  intros Hb. destruct (mb_l _ _ _ _ _ Hb) as (F & Hl & Hp & _). unfold ensure_priorities. lop. lop.
  change (field (Tab F (VTab <$> hs)) "priorities") with (field (Tab F ∅) "priorities"). rewrite Hp. lrun. done.
Qed.

Lemma rawget_hosts F hs p : rawget (Tab F (VTab <$> hs)) p = match hs !! p with Some h => VTab h | None => VNil end.
Proof. unfold rawget. cbn. rewrite lookup_fmap. by destruct (hs !! p). Qed.

Lemma add_newE a b c l F hs p v s : v <> VNil -> ls_tabs s !! l = Some (Tab F (VTab <$> hs)) -> (l < ls_next s)%nat -> hs !! p = None ->
  exists s', add_mx_host p v [a; b; c; VTab l] s = CVal tt [a; b; c; VTab l] s' /\ ls_next s' = S (ls_next s) /\
    ls_tabs s' = <[l := Tab F (VTab <$> <[p := ls_next s]> hs)]> (<[ls_next s := Tab ∅ (arr_of [v])]> (ls_tabs s)).
Proof.
  intros Hv Hl Hn Hp. unfold add_mx_host, set_i. lop. lop. rewrite rawget_hosts, Hp. lrun. eexists. split; [done|]. cbn. split; [done|].
  rewrite insert_insert_eq. unfold rawset. cbn. rewrite fmap_insert. f_equal. by destruct v.
Qed.
Lemma add_moreE a b c l F hs p h v vs s : v <> VNil -> ls_tabs s !! l = Some (Tab F (VTab <$> hs)) -> hs !! p = Some h ->
  ls_tabs s !! h = Some (Tab ∅ (arr_of vs)) -> Forall (fun v => v <> VNil) vs ->
  add_mx_host p v [a; b; c; VTab l] s = CVal tt [a; b; c; VTab l] (set_tab s h (Tab ∅ (arr_of (vs ++ [v])))).
Proof.
  intros Hv Hl Hp Hh Hvs. unfold add_mx_host. lop. lop. rewrite rawget_hosts, Hp. lop. lop. lop. lop.
  rewrite (turnsE [a; b; c; VTab l; VTab h] s h _ eq_refl Hh). cbv beta iota. cbn [t_arr]. rewrite arr_size.
  pose proof (append_hostE a b c (VTab l) h ∅ v (S (S (length vs))) Hv [] vs s ltac:(lia) Hvs Hh) as E.
  change (Z.of_nat (length []) + 1) with 1 in E. cbn [app] in E. rewrite E. lrun. done.
Qed.
Lemma incrementE a b c l F A n s : ls_tabs s !! l = Some (Tab F A) -> tointeger (Some (field (Tab F ∅) "n")) = Some n ->
  increment_n [a; b; c; VTab l] s = CVal tt [a; b; c; VTab l] (set_tab s l (Tab (<["n" := vint (n + 1)]> F) A)).
Proof.
  intros Hl Hn. unfold increment_n. lop. lop. change (field (Tab F A) "n") with (field (Tab F ∅) "n"). lop. lop. rewrite Hn. lrun. done.
Qed.

(** One more record. *)
Lemma body_step s s' l lp hs xs p v h F :
  mx_body s l lp hs xs ->
  ls_tabs s' !! l = Some (Tab F (VTab <$> <[p := h]> hs)) -> field (Tab F ∅) "priorities" = VTab lp ->
  tointeger (Some (field (Tab F ∅) "n")) = Some (Z.of_nat (length xs) + 1) ->
  ls_tabs s' !! lp = Some (Tab ∅ (arr_of (vint <$> insert_pref p (prefs xs)))) ->
  ls_tabs s' !! h = Some (Tab ∅ (arr_of ((hosts_of p xs).*2 ++ [v]))) ->
  (forall h', h' <> l -> h' <> lp -> h' <> h -> (h' < ls_next s)%nat -> ls_tabs s' !! h' = ls_tabs s !! h') ->
  h <> l -> h <> lp -> (h < ls_next s')%nat -> (forall q, hs !! q = Some h -> q = p) -> (ls_next s <= ls_next s')%nat ->
  mx_body s' l lp (<[p := h]> hs) (xs ++ [(p, v)]).
Proof.
  intros Hb Hl Hf Hn Hlp Hh Hk Hhl Hhlp Hhn Hq Hle. destruct Hb as [_ _ B1 B2 B3 B4 B5 [B6 B7]]. split.
  - exists F. rewrite length_app. cbn [length]. split_and!; [done|done|]. rewrite Hn. f_equal. lia.
  - by rewrite prefs_snoc.
  - intros q. rewrite prefs_snoc, insert_pref_elem, <- B1. destruct (decide (p = q)) as [->|Hne].
    + rewrite lookup_insert_eq. split; [by left|by eexists].
    + rewrite lookup_insert_ne by done. split; [by right|]. by intros [->|?].
  - intros q h'. rewrite hosts_of_snoc, fmap_app. destruct (decide (p = q)) as [->|Hne].
    + rewrite lookup_insert_eq. intros [= <-]. done.
    + rewrite lookup_insert_ne, app_nil_r by done. intros Hh'. destruct (B4 _ _ Hh') as (? & ? & ?). rewrite Hk by (done || (intros ->; by apply Hne; symmetry; apply Hq)).
      by apply B2.
  - intros q r h'. rewrite !lookup_insert. repeat case_decide; intros; simplify_eq; try done; [symmetry; by apply Hq|by apply Hq|by eapply B3].
  - intros q h'. rewrite lookup_insert. case_decide; intros Hh'; [by simplify_eq|]. destruct (B4 _ _ Hh') as (? & ? & ?). split_and!; [done|done|lia].
  - done.
  - lia.
Qed.

Lemma mx_stepE a b c l lp hs xs p v s : mx_body s l lp hs xs -> Forall mx_ok xs -> mx_ok (p, v) -> Z.of_nat (length xs) < 2 ^ 31 ->
  exists s' hs', (insert_mx_priority_sorted (-1) p;; add_mx_host p v;; increment_n) [a; b; c; VTab l] s = CVal tt [a; b; c; VTab l] s' /\
    mx_body s' l lp hs' (xs ++ [(p, v)]).
Proof.
  intros Hb Hxs [Hp Hv] Hlen. cbn in Hp, Hv. pose proof (prefs_ok _ Hxs) as Hps. pose proof (mb_llp _ _ _ _ _ Hb) as Hne.
  destruct (mb_l _ _ _ _ _ Hb) as (F & Hl & Hfp & Hfn). destruct (mb_next _ _ _ _ _ Hb) as [Hn1 Hn2].
  rewrite bindE, (insert_mxE a b c l _ lp ∅ (prefs xs) p s Hp Hps Hl Hfp (mb_lp _ _ _ _ _ Hb)). cbv beta iota. rewrite bindE.
  set (T1 := Tab ∅ _). set (s1 := set_tab s lp T1). assert (ls_tabs s1 !! l = Some (Tab F (VTab <$> hs))) as Hl1 by (cbn; by rewrite lookup_insert_ne).
  assert (tointeger (Some (field (Tab (<["n" := vint (Z.of_nat (length xs) + 1)]> F) ∅) "n")) = Some (Z.of_nat (length xs) + 1)) as Hn'.
  { unfold field. cbn. rewrite lookup_insert_eq. cbn. apply to_Z_of_Z. lia. }
  assert (field (Tab (<["n" := vint (Z.of_nat (length xs) + 1)]> F) ∅) "priorities" = VTab lp) as Hp'.
  { unfold field. cbn. rewrite lookup_insert_ne by done. exact Hfp. }
  destruct (hs !! p) as [h|] eqn:Hh.
  - destruct (mb_ne _ _ _ _ _ Hb p h Hh) as (N1 & N2 & N3). pose proof (mb_h _ _ _ _ _ Hb p h Hh) as Hhp.
    rewrite (add_moreE a b c l F hs p h v (hosts_of p xs).*2 s1 Hv Hl1 Hh); [|cbn; by rewrite lookup_insert_ne|by apply hosts_ok].
    cbv beta iota. erewrite incrementE; [|cbn; by rewrite lookup_insert_ne|exact Hfn]. eexists _, _. split; [done|].
    eapply body_step; [exact Hb|..|exact N1|exact N2|exact N3| |done]; cbn.
    + rewrite lookup_insert_eq, (insert_id hs) by done. done.
    + done.
    + done.
    + rewrite !lookup_insert_ne, lookup_insert_eq by done. done.
    + rewrite lookup_insert_ne, lookup_insert_eq by done. done.
    + intros h' ????. by rewrite !lookup_insert_ne.
    + intros q Hq. by apply (mb_inj _ _ _ _ _ Hb q p h).
  - destruct (add_newE a b c l F hs p v s1 Hv Hl1 Hn1 Hh) as (s2 & -> & Hs2 & Ht2). cbv beta iota. cbn in Hs2, Ht2.
    erewrite incrementE; [|by rewrite Ht2, lookup_insert_eq|exact Hfn]. eexists _, _. split; [done|].
    assert (p ∉ prefs xs) as Hnew by (rewrite <- (mb_hs _ _ _ _ _ Hb), Hh; by intros [? ?]).
    eapply (body_step s _ l lp hs xs p v (ls_next s)); [exact Hb|..]; cbn; rewrite ?Ht2, ?Hs2; [|exact Hp'|exact Hn'|..]; try lia.
    + by rewrite lookup_insert_eq.
    + rewrite !lookup_insert_ne, lookup_insert_eq by (done || lia). done.
    + rewrite !lookup_insert_ne, lookup_insert_eq by lia. by rewrite hosts_of_none by by rewrite <- prefs_elem.
    + intros h' ????. by rewrite !lookup_insert_ne by lia.
    + intros q Hq. destruct (mb_ne _ _ _ _ _ Hb q _ Hq) as (_ & _ & ?). lia.
Qed.

(** A result with the records [xs], none of them at first. *)
Definition mx_rep s (l : nat) (xs : list (Z * value)) : Prop :=
  (xs = [] /\ ls_tabs s !! l = Some (Tab ∅ ∅) /\ (l < ls_next s)%nat) \/ exists lp hs, mx_body s l lp hs xs.

Lemma mx_parse_pref r P p h : dns_mx_parse fuel r P = Val (inr (AnyMX p h)) -> pref p.
Proof.
  unfold dns_mx_parse. case_match; [done|]. destruct (rd _ (_ + 0)) as [b0| |]; [|done..]. destruct (rd _ (_ + 1)) as [b1| |]; [|done..]. cbn.
  destruct (expand_host _ _ _) as [[e|h']| |]; [done| |done..]. cbn. intros [= <- _]. 
  apply (lor_bound _ _ 16); [| |done].
  - change 65280 with (Z.land 65280 (Z.ones 16)). rewrite <- Z.land_assoc, (Z.land_comm (Z.ones 16)), Z.land_assoc, Z.land_ones by done.
    by apply Z.mod_pos_bound.
  - pose proof (land_255 (Z.shiftl b1 0)). lia.
Qed.

Lemma parse_rr_mxE a b c l r answer p h i xs s : dns_mx_parse fuel r answer = Val (inr (AnyMX p h)) -> mx_rep s l xs -> Forall mx_ok xs ->
  Z.of_nat (length xs) < 2 ^ 31 ->
  exists s', parse_rr_mx fuel r answer i [a; b; c; VTab l] s = CVal tt [a; b; c; VTab l] s' /\ mx_rep s' l (xs ++ [(p, host_value h)]).
Proof.
  intros Hr Hrep Hxs Hlen. unfold parse_rr_mx. rewrite bindE. unfold plift at 1. rewrite Hr. cbv beta iota. rewrite bindE.
  assert (exists s1 lp hs, ensure_priorities [a; b; c; VTab l] s = CVal tt [a; b; c; VTab l] s1 /\ mx_body s1 l lp hs xs) as (s1 & lp & hs & -> & Hb).
  { destruct Hrep as [(-> & Hl & Hn)|(lp & hs & Hb)].
    - destruct (ensure_newE a b c l s Hl Hn) as (s1 & E & Hb). by exists s1, (ls_next s), ∅.
    - exists s, lp, hs. split; [by eapply ensure_keptE|done]. }
  destruct (mx_stepE a b c l lp hs xs p (host_value h) s1 Hb Hxs) as (s' & hs' & E & Hb'); [|done|].
  { split; [by eapply mx_parse_pref|done]. }
  exists s'. split; [exact E|]. right. by exists lp, hs'.
Qed.

Definition mx_rr (r : rr) : Prop := rr_section r = DNS_S_AN /\ rr_type r = DNS_T_MX.
#[export] Instance mx_rr_dec r : Decision (mx_rr r).
Proof. unfold mx_rr. apply _. Defined.
Definition mx_hosts (ys : list (Z * list Z)) : list (Z * value) := prod_map id host_value <$> ys.

Lemma parse_recordsE a b c l answer : forall rs ys xs s found, mx_rep s l xs -> Forall mx_ok xs ->
  Forall2 (fun r y => dns_mx_parse fuel r answer = Val (inr (AnyMX y.1 y.2))) (filter mx_rr rs) ys ->
  Z.of_nat (length xs + length ys) <= 2 ^ 31 ->
  exists s', parse_records reg fuel rs DNS_T_MX answer found [a; b; c; VTab l] s = CVal (found + Z.of_nat (length ys)) [a; b; c; VTab l] s' /\
    mx_rep s' l (xs ++ mx_hosts ys) /\ Forall mx_ok (xs ++ mx_hosts ys).
Proof.
  induction rs as [|r rs IH]; intros ys xs s found Hrep Hxs Hys Hlen; cbn [parse_records].
  - inversion Hys; subst. exists s. cbn. rewrite mretE, app_nil_r, Z.add_0_r. done.
  - rewrite filter_cons in Hys. destruct (decide (mx_rr r)) as [[Hs Ht]|Hm].
    + apply Forall2_cons_inv_l in Hys as ([p h] & ys' & Hr & Hys & ->). cbn in Hr, Hlen.
      rewrite Hs, Ht. cbn [andb Z.eqb]. rewrite (Z.eqb_refl DNS_S_AN), (Z.eqb_refl DNS_T_MX). cbn [andb].
      destruct (parse_rr_mxE a b c l r answer p h (found + 1) xs s Hr Hrep Hxs ltac:(lia)) as (s1 & E & Hrep1).
      rewrite bindE. unfold parse_rr. rewrite Ht. cbn [Z.eqb]. change (DNS_T_MX =? DNS_T_A) with false. change (DNS_T_MX =? DNS_T_AAAA) with false.
      rewrite (Z.eqb_refl DNS_T_MX). rewrite E. cbv beta iota.
      destruct (IH ys' (xs ++ [(p, host_value h)]) s1 (found + 1) Hrep1) as (s2 & E2 & Hrep2 & Hok2).
      * apply Forall_app. split; [done|]. constructor; [|done]. split; [by eapply mx_parse_pref|done].
      * done.
      * rewrite length_app. cbn. lia.
      * exists s2. rewrite E2. cbn [length mx_hosts fmap list_fmap]. rewrite <- app_assoc in Hrep2, Hok2. split_and!; [|done|done]. f_equal. lia.
    + replace ((rr_section r =? DNS_S_AN) && (DNS_T_MX =? rr_type r)) with false; [by apply IH|].
      symmetry. apply not_true_is_false. intros [?%Z.eqb_eq ?%Z.eqb_eq]%andb_prop. by apply Hm.
Qed.

(** ** get_i *)
Lemma hosts_atE a b c h want n : forall pre post k s, Forall (fun v => v <> VNil) post -> (length post < n)%nat ->
  ls_tabs s !! h = Some (Tab ∅ (arr_of (pre ++ post))) ->
  hosts_at n (Z.of_nat (length pre) + 1) k want [a; b; c; VTab h] s =
    match (if k <=? want then post !! Z.to_nat (want - k) else None) with
    | Some v => CVal None [a; b; c; VTab h; v] s
    | None => CVal (Some (k + Z.of_nat (length post))) [a; b; c; VTab h; VNil] s
    end.
Proof.
  induction n as [|n IH]; intros pre post k s Hpost Hn Ht; [lia|]. cbn [hosts_at]. destruct post as [|q post].
  - rewrite app_nil_r in Ht. lop. lop. rewrite (rawget_arr_end ∅ pre (length pre)) by lia. lrun. change (Z.of_nat 0) with 0. rewrite Z.add_0_r. by destruct (k <=? want).
  - inversion_clear Hpost as [|?? Hq Hp]. lop. lop. rewrite (rawget_arr ∅ _ _ q) by (by rewrite lookup_app_r, Nat.sub_diag by lia). lop. lop.
    rewrite (not_nil q Hq). destruct (Z.eqb_spec k want) as [->|Hne].
    + rewrite Z.leb_refl, Z.sub_diag. lrun. done.
    + lop. lop. replace (Z.of_nat (length pre) + 1 + 1) with (Z.of_nat (length (pre ++ [q])) + 1) by (rewrite length_app; cbn; lia).
      rewrite (IH (pre ++ [q]) post); [|done|cbn in Hn; lia|by rewrite <- app_assoc].
      destruct (Z.leb_spec k want), (Z.leb_spec (k + 1) want); try lia.
      * replace (Z.to_nat (want - k)) with (S (Z.to_nat (want - (k + 1)))) by lia. rewrite lookup_cons. case_match; [done|]. cbn [length]. do 2 f_equal; lia.
      * cbn [length]. do 2 f_equal; lia.
Qed.

(** The [want]th of the records in the order of their preferences, or nothing. *)
Lemma priorities_fromE l lp hs xs s x want n : mx_body s l lp hs xs -> Forall mx_ok xs -> forall pre post k, prefs xs = pre ++ post -> (length post < n)%nat ->
  match (if k <=? want then (post ≫= (fun p => hosts_of p xs)) !! Z.to_nat (want - k) else None) with
  | Some v => exists k', priorities_from n (Z.of_nat (length pre) + 1) k want [VTab l; x; VTab lp] s = CVal (NRet 1) (k' ++ [v.2]) s
  | None => priorities_from n (Z.of_nat (length pre) + 1) k want [VTab l; x; VTab lp] s = CVal (NRet 0) [VTab l; x] s
  end.
Proof.
  intros Hb Hxs. pose proof (mb_lp _ _ _ _ _ Hb) as Hlp. destruct (mb_l _ _ _ _ _ Hb) as (F & Hl & _).
  induction n as [|n IH]; intros pre post k Hps Hn; [lia|]. rewrite Hps, fmap_app in Hlp. destruct post as [|p post].
  - rewrite app_nil_r in Hlp. replace (if k <=? want then _ else _) with (@None (Z * value)) by (by destruct (k <=? want)).
    cbn [priorities_from]. lop. lop. rewrite <- (length_fmap vint pre), (rawget_arr_end ∅ _ (length (vint <$> pre))) by lia. lrun. done.
  - assert (pref p) as Hp. { pose proof (prefs_ok _ Hxs) as Hf. rewrite Hps in Hf. by apply Forall_app in Hf as [_ [? _]%Forall_cons]. }
    assert (is_Some (hs !! p)) as [h Hh]. { apply (mb_hs _ _ _ _ _ Hb). rewrite Hps. set_solver. }
    pose proof (mb_h _ _ _ _ _ Hb p h Hh) as Hht. pose proof (hosts_ok p xs Hxs) as Hho.
    pose proof (hosts_atE (VTab l) x (VTab lp) h want (S (S (length (hosts_of p xs).*2))) [] (hosts_of p xs).*2 k s Hho ltac:(lia) Hht) as E.
    change (Z.of_nat (length []) + 1) with 1 in E.
    assert (priorities_from (S n) (Z.of_nat (length pre) + 1) k want [VTab l; x; VTab lp] s =
      match (if k <=? want then (hosts_of p xs).*2 !! Z.to_nat (want - k) else None) with
      | Some v => CVal (NRet 1) [VTab l; x; VTab lp; VTab h; v] s
      | None => priorities_from n (Z.of_nat (length pre) + 1 + 1) (k + Z.of_nat (length (hosts_of p xs))) want [VTab l; x; VTab lp] s
      end) as E1.
    { cbn [priorities_from]. lop. lop. rewrite <- (length_fmap vint pre).
      rewrite (rawget_arr ∅ _ _ (vint p)) by (by rewrite lookup_app_r, Nat.sub_diag by lia). lop. lop. unfold vint at 1 2. cbv iota. lop. unfold vint at 1. cbv iota.
      rewrite (to_Z_of_Z p) by (unfold pref in Hp; lia). rewrite (pref_int p Hp). lrun. rewrite rawget_hosts, Hh.
      rewrite (turnsE [VTab l; x; VTab lp; VTab h] s h _ eq_refl Hht). cbv beta iota. cbn [t_arr]. rewrite arr_size. lop. rewrite E, length_fmap.
      case_match; [done|]. lrun. done. }
    rewrite E1, bind_cons. clear E E1. rewrite list_lookup_fmap. destruct (Z.leb_spec k want) as [Hk|Hk].
    + rewrite lookup_app. destruct (hosts_of p xs !! Z.to_nat (want - k)) as [v|] eqn:Hv; cbn [fmap option_fmap option_map].
      { by exists [VTab l; x; VTab lp; VTab h]. }
      apply lookup_ge_None in Hv. specialize (IH (pre ++ [p]) post (k + Z.of_nat (length (hosts_of p xs)))).
      rewrite (proj2 (Z.leb_le _ _)) in IH by lia. rewrite length_app in IH. cbn [length] in IH, Hn.
      replace (Z.to_nat (want - (k + Z.of_nat (length (hosts_of p xs))))) with (Z.to_nat (want - k) - length (hosts_of p xs))%nat in IH by lia.
      replace (Z.of_nat (length pre) + 1 + 1) with (Z.of_nat (length pre + 1) + 1) by lia. apply IH; [by rewrite <- app_assoc|lia].
    + specialize (IH (pre ++ [p]) post (k + Z.of_nat (length (hosts_of p xs)))).
      rewrite (proj2 (Z.leb_gt _ _)) in IH by lia. rewrite length_app in IH. cbn [length] in IH, Hn.
      replace (Z.of_nat (length pre) + 1 + 1) with (Z.of_nat (length pre + 1) + 1) by lia. apply IH; [by rewrite <- app_assoc|lia].
Qed.

(** [get_i (n)], with the records [xs] in the result. *)
Definition get_i_spec (xs : list (Z * value)) (n : Z) : option value :=
  if n <=? 0 then None
  else
    let max_n := Z.of_nat (length xs) in
    let m := if max_n <? n then Z.rem n max_n else n in
    if m =? 0 then None else snd <$> mx_order xs !! Z.to_nat (m - 1).

Lemma get_iE l lp hs xs s n : mx_body s l lp hs xs -> Forall mx_ok xs -> xs <> [] -> Z.of_nat (length xs) < 2 ^ 31 -> - 2 ^ 31 <= n < 2 ^ 31 ->
  match get_i_spec xs n with
  | Some v => exists k', mydns_mx_get_i [VTab l; vint n] s = CVal (NRet 1) (k' ++ [v]) s
  | None => exists k', mydns_mx_get_i [VTab l; vint n] s = CVal (NRet 0) k' s
  end.
Proof.
  intros Hb Hxs Hne Hlen Hn. destruct (mb_l _ _ _ _ _ Hb) as (F & Hl & Hfp & Hfn). pose proof (mb_lp _ _ _ _ _ Hb) as Hlp.
  assert (0 < Z.of_nat (length xs)) as Hpos by (destruct xs; cbn; [done|lia]).
  assert (mydns_mx_get_i [VTab l; vint n] s =
    if n <=? 0 then CVal (NRet 0) [VTab l; vint n] s
    else priorities_from (S (S (length (prefs xs)))) 1 1 (if Z.of_nat (length xs) <? n then Z.rem n (Z.of_nat (length xs)) else n)
      [VTab l; vint n; VTab lp] s) as ->.
  { unfold mydns_mx_get_i, luaL_checktable, luaL_checkint, luaL_checkinteger. lop. lop. lop. cbn [istable]. lop. lop. lop. lop. lop.
    unfold vint at 1. cbv iota. rewrite (to_Z_of_Z n) by lia. lop. lop. rewrite (to_int_id n) by lia. lop. lop.
    change (field (Tab F (VTab <$> hs)) "n") with (field (Tab F ∅) "n"). 
    set (v := field _ "n") in *. rewrite bindE. rewrite (valueE (-1) [VTab l; vint n; v] s 2 eq_refl).
    change ([VTab l; vint n; v] !! 2%nat) with (Some v). cbv beta iota.
    match goal with |- context [match tonumberx (Some v) with Some x => @?f x | None => ?g end] =>
      assert (match tonumberx (Some v) with Some x => f x | None => g end = mret (to_int (Z.of_nat (length xs)))) as -> end.
    { unfold tointeger in Hfn. destruct (tonumberx (Some v)); [by rewrite Hfn|by injection Hfn as <-]. }
    rewrite (to_int_id (Z.of_nat (length xs))) by lia. lop. lop. lop. lop. destruct (n <=? 0); [lrun; done|].
    assert ((if Z.of_nat (length xs) <? n then if Z.of_nat (length xs) =? 0 then cub else mret (n `rem` Z.of_nat (length xs)) else mret n) =
      (mret (if Z.of_nat (length xs) <? n then n `rem` Z.of_nat (length xs) else n) : C dmem dst Z)) as ->.
    { destruct (_ <? n); [|done]. by rewrite (proj2 (Z.eqb_neq _ _)) by lia. }
    lop. lop. lop. lop. change (field (Tab F (VTab <$> hs)) "priorities") with (field (Tab F ∅) "priorities"). rewrite Hfp, bindE.
    rewrite (turnsE [VTab l; vint n; VTab lp] s lp _ eq_refl Hlp). cbv beta iota. cbn [t_arr]. by rewrite arr_size, length_fmap. }
  unfold get_i_spec. destruct (n <=? 0) eqn:Hn0; [by eexists|]. apply Z.leb_gt in Hn0. cbv zeta. set (m := if _ <? n then _ else n).
  assert (0 <= m) as Hm. { unfold m. case_match; [|lia]. apply Z.rem_nonneg; lia. }
  pose proof (priorities_fromE l lp hs xs s (vint n) m (S (S (length (prefs xs)))) Hb Hxs [] (prefs xs) 1 eq_refl ltac:(lia)) as E.
  change (Z.of_nat (length []) + 1) with 1 in E. fold (mx_order xs) in E. destruct (Z.eqb_spec m 0) as [Hz|Hz].
  - rewrite Hz in *. cbn [Z.leb Z.compare] in E. by eexists.
  - rewrite (proj2 (Z.leb_le _ _)) in E by lia. destruct (mx_order xs !! Z.to_nat (m - 1)) as [v|]; cbn; [exact E|by eexists].
Qed.

Lemma prefs_hosts ys : prefs (mx_hosts ys) = prefs ys.
Proof.
  induction ys as [|[p h] ys IH] using rev_ind; [done|]. unfold mx_hosts in *. rewrite fmap_app. change (prod_map id host_value <$> [(p, h)]) with [(p, host_value h)].
  by rewrite !prefs_snoc, IH.
Qed.
Lemma hosts_hosts p ys : hosts_of p (mx_hosts ys) = mx_hosts (hosts_of p ys).
Proof.
  unfold hosts_of, mx_hosts. induction ys as [|[q h] ys IH]; [done|]. rewrite fmap_cons, !filter_cons. cbn [prod_map fst id].
  destruct (decide (q = p)); [by rewrite fmap_cons, IH|done].
Qed.
Lemma order_hosts ys : mx_order (mx_hosts ys) = mx_hosts (mx_order ys).
Proof.
  unfold mx_order. rewrite prefs_hosts. induction (prefs ys) as [|p ps IH]; [done|]. rewrite !bind_cons, IH, hosts_hosts.
  unfold mx_hosts. by rewrite fmap_app.
Qed.

(** [parse_answer] of the answer to an MX query: the records as they are in the packet. *)
Lemma parse_mx_answerE junk seed u uv res name answer d' rs ys s :
  ls_uds s !! u = Some (UData (Some DNS_META) (MRes (Some res)) uv) ->
  d_res_fetch res (ls_os s) = Val (d', inr (Some answer)) ->
  foreach fuel junk seed (steps answer) in_packet_order answer = Val rs ->
  Forall2 (fun r y => dns_mx_parse fuel r answer = Val (inr (AnyMX y.1 y.2))) (filter mx_rr rs) ys ->
  0 < Z.of_nat (length ys) < 2 ^ 31 ->
  exists s' lp hs, mydns_parse_answer reg fuel junk seed [VUd u; VStr name; VStr "mx"; VNil] s =
      CVal (NRet 1) [VUd u; VStr name; VStr "mx"; VTab (ls_next s)] s' /\
    mx_body s' (ls_next s) lp hs (mx_hosts ys) /\ Forall mx_ok (mx_hosts ys).
Proof.
  intros Hu Hf Hrs Hys Hlen. unfold mydns_parse_answer, get_dns_res, mem_of, luaL_checklstring, get_query_type. lrun.
  change (type_in query_types (bytes_of_string (c_str "mx"))) with (Some DNS_T_MX). lrun. unfold dsys at 1. rewrite Hf. lrun. unfold plift at 1. rewrite Hrs. lrun. change (ls_next (set_ls_os s d')) with (ls_next s).
  match goal with |- context [parse_records _ _ _ _ _ _ _ ?s1] =>
    destruct (parse_recordsE (VUd u) (VStr name) (VStr "mx") (ls_next s) answer rs ys [] s1 0) as (s' & E & Hrep & Hok) end.
  { left. cbn. rewrite lookup_insert_eq. split_and!; [done|done|lia]. }
  { done. }
  { done. }
  { cbn. lia. }
  rewrite E. cbv beta iota. rewrite Z.add_0_l, (proj2 (Z.eqb_neq _ _)) by lia. cbn [app] in Hrep, Hok.
  destruct Hrep as [[Hnil _]|(lp & hs & Hb)]; [apply fmap_nil_inv in Hnil as ->; cbn in Hlen; lia|].
  exists s', lp, hs. split; [lrun; done|done].
Qed.

(** C15: parse_answer and get_i of an MX query, whatever the order of the records in the
    packet: the result counts through the hosts by their preference, those of the same
    preference in the order of the packet. A count beyond the number of the hosts
    is reduced modulo that number; the multiples become 0, for which nothing is
    returned, so that with a single host no count but 1 gives it. *)
Theorem mx_hosts_by_preference junk seed u uv res name answer d' rs ys s :
  ls_uds s !! u = Some (UData (Some DNS_META) (MRes (Some res)) uv) ->
  d_res_fetch res (ls_os s) = Val (d', inr (Some answer)) ->
  foreach fuel junk seed (steps answer) in_packet_order answer = Val rs ->
  Forall2 (fun r y => dns_mx_parse fuel r answer = Val (inr (AnyMX y.1 y.2))) (filter mx_rr rs) ys ->
  0 < Z.of_nat (length ys) < 2 ^ 31 ->
  exists s' l order, mydns_parse_answer reg fuel junk seed [VUd u; VStr name; VStr "mx"; VNil] s =
      CVal (NRet 1) [VUd u; VStr name; VStr "mx"; VTab l] s' /\
    order ≡ₚ ys /\ StronglySorted (fun x y => x.1 <= y.1) order /\ (forall p, hosts_of p order = hosts_of p ys) /\
    forall n, - 2 ^ 31 <= n < 2 ^ 31 ->
      let count := Z.of_nat (length ys) in
      let m := if count <? n then n mod count else n in
      if 1 <=? m
      then exists k y, order !! Z.to_nat (m - 1) = Some y /\ mydns_mx_get_i [VTab l; vint n] s' = CVal (NRet 1) (k ++ [host_value y.2]) s'
      else exists k, mydns_mx_get_i [VTab l; vint n] s' = CVal (NRet 0) k s'.
Proof.
  intros Hu Hf Hrs Hys Hlen. destruct (parse_mx_answerE junk seed u uv res name answer d' rs ys s Hu Hf Hrs Hys Hlen) as (s' & lp & hs & E & Hb & Hok).
  exists s', (ls_next s), (mx_order ys). split_and!; [exact E|apply mx_order_Permutation|apply mx_order_sorted|apply mx_order_stable|].
  intros n Hn count m. assert (length (mx_hosts ys) = length ys) as Hl by apply length_fmap.
  assert (mx_hosts ys <> []) as Hne by (intros ?%(f_equal length); rewrite Hl in *; cbn in *; lia).
  pose proof (get_iE (ls_next s) lp hs (mx_hosts ys) s' n Hb Hok Hne ltac:(rewrite Hl; lia) Hn) as G. unfold get_i_spec in G.
  rewrite Hl, order_hosts in G. fold count in G. destruct (Z.leb_spec n 0) as [H0|H0].
  { unfold m. rewrite (proj2 (Z.ltb_ge _ _)) by lia. rewrite (proj2 (Z.leb_gt _ _)) by lia. exact G. }
  cbv zeta in G. rewrite Z.rem_mod_nonneg in G by lia. fold m in G.
  assert (0 <= m <= count) as Hm by (unfold m; destruct (Z.ltb_spec count n); [pose proof (Z.mod_pos_bound n count); lia|lia]).
  destruct (Z.eqb_spec m 0) as [Hz|Hz]; [rewrite (proj2 (Z.leb_gt _ _)) by lia; exact G|]. rewrite (proj2 (Z.leb_le _ _)) by lia.
  destruct (lookup_lt_is_Some_2 (mx_order ys) (Z.to_nat (m - 1))) as [y Hy].
  { rewrite mx_order_Permutation. lia. }
  unfold mx_hosts in G. rewrite list_lookup_fmap, Hy in G. cbn in G. destruct G as [k G]. by exists k, y.
Qed.
End Mx.

Module MxWitnesses.
#[local] Instance conv : LuaConv := {| str2number _ := None; number2str _ := ""%string |}.

(** The answer: b and c have preference 20, a has 10, d has 5. *)
Definition mx_record (p h : Z) : list Z := [0; 0; 15; 0; 1; 0; 0; 0; 60; 0; 5; 0; p; 1; h; 0].
Definition mx_data : list Z :=
  [1; 2; 129; 128; 0; 0; 0; 4; 0; 0; 0; 0] ++ mx_record 20 98 ++ mx_record 10 97 ++ mx_record 20 99 ++ mx_record 5 100.
Definition mx_answer : packet := Packet (replicate 16 0) (Memo 0 0) (Memo 0 0) (Memo 0 0) (Memo 0 0) 512 (len mx_data) (mx_data ++ replicate 436 0).

(** A library that has it. *)
#[local] Instance api : DnsApi := {|
  dst := unit;
  d_hints_local _ d := Val (d, inr 1);
  d_hints_mortal _ d := Val (d, tt);
  d_res_open _ _ _ d := Val (d, inr 1);
  d_res_close _ d := Val (d, tt);
  d_res_submit _ _ _ _ d := Val (d, 0);
  d_res_check _ d := Val (d, 0);
  d_res_fetch _ d := Val (d, inr (Some mx_answer));
  d_res_elapsed _ d := Val (d, 0);
  d_res_pollfd _ d := Val (d, 3);
  d_hosts_local d := Val (d, inr 1);
  d_hosts_open d := Val (d, inr 1);
  d_hosts_loadpath _ _ d := Val (d, 0);
  d_hosts_close _ d := Val (d, tt);
  d_resconf_open d := Val (d, inr 1);
  d_resconf_loadpath _ _ d := Val (d, 0);
  d_resconf_close _ d := Val (d, tt);
  d_inet_pton _ _ := None;
  d_inet_ntop _ _ := inl 28;
  d_in6addr_any := 0;
  d_strerror _ := ""%string |}.
Definition mx_state : lstate dmem unit := LState ∅ {[1%nat := UData (Some DNS_META) (MRes (Some 7)) VNil]} 2 tt.
Definition mx_pairs : list (Z * list Z) := [(20, [98; 46]); (10, [97; 46]); (20, [99; 46]); (5, [100; 46])].
Definition mx_rrs : list rr := (fun i => RR 2 (12 + i * 16) 1 15 1 60 (23 + i * 16) 5) <$> [0; 1; 2; 3].

Lemma mx_hosts_by_preference_witness : exists s' l order,
  mydns_parse_answer 0 30 0 0 [VUd 1; VStr "x"; VStr "mx"; VNil] mx_state = CVal (NRet 1) [VUd 1; VStr "x"; VStr "mx"; VTab l] s' /\
  order ≡ₚ mx_pairs /\ StronglySorted (fun x y => x.1 <= y.1) order /\
  exists k y, order !! 0%nat = Some y /\ mydns_mx_get_i [VTab l; vint 5] s' = CVal (NRet 1) (k ++ [host_value y.2]) s'.
Proof.
  destruct (mx_hosts_by_preference (api := api) 0 30 0 0 1 VNil 7 "x" mx_answer tt mx_rrs mx_pairs mx_state) as (s' & l & order & E & H1 & H2 & _ & H3).
  - reflexivity.
  - reflexivity.
  - vm_compute. reflexivity.
  - assert (filter mx_rr mx_rrs = mx_rrs) as -> by (vm_compute; reflexivity).
    unfold mx_rrs, mx_pairs. cbn [fmap list_fmap]. do 4 (apply Forall2_cons; split; [vm_compute; reflexivity|]). constructor.
  - cbn. lia.
  - exists s', l, order. split; [exact E|]. split; [exact H1|]. split; [exact H2|]. exact (H3 5 ltac:(lia)).
Defined.

(** Counting through them: d, a, b, c, then d again; the eighth is nothing. *)
Definition mx_count (n : Z) : option (list value) :=
  match mydns_parse_answer 0 30 0 0 [VUd 1; VStr "x"; VStr "mx"; VNil] mx_state with
  | CVal _ k s' => match mydns_mx_get_i [VTab 2; vint n] s' with CVal (NRet m) k' _ => Some (drop (length k' - m) k') | _ => None end
  | _ => None
  end.
Example mx_counts : mx_count <$> [1; 2; 3; 4; 5; 8] =
  [Some [VStr "d."]; Some [VStr "a."]; Some [VStr "b."]; Some [VStr "c."]; Some [VStr "d."]; Some []].
Proof. vm_compute. reflexivity. Qed.
End MxWitnesses.
