(* ===== verification/DnsQuery.v ===== *)
(** [ratchet.dns.query] along every run: the resolver it opens is closed once, when
    the call returns, whatever libdns answers and other threads do meanwhile. *)

From stdpp Require Import prelude gmap strings.
From Stdlib Require Import ZArith Lia SpecFloat.
From S2P Require Import Prelude DnsBase DnsName DnsRr DnsRdata DnsPacket DnsResconf DnsPermutor DnsSo.
From S2P Require Import Double Lua Misc Error LuaC LuaCInv Dns DnsMx.
Local Open Scope Z_scope.

(** ** A record of the resolvers opened and closed *)
Inductive revent := Opened (h : Z) | Closed (h : Z).
#[export] Instance revent_eq_dec : EqDecision revent.
Proof. solve_decision. Defined.
Definition event_of (h : Z) (e : revent) : bool := match e with Opened x | Closed x => x =? h end.
(** The events of one handle. *)
Definition about (h : Z) (l : list revent) : list revent := filter (fun e => event_of h e = true) l.
Lemma about_app h a b : about h (a ++ b) = about h a ++ about h b.
Proof. apply filter_app. Qed.

Definition noting {A} {d : Type} (f : d -> out (d * A)) (ev : A -> list revent) (x : d * list revent) : out ((d * list revent) * A) :=
  match f x.1 with Val (y, a) => Val ((y, x.2 ++ ev a), a) | UB => UB | Loop => Loop end.
Definition silent {A} (_ : A) : list revent := [].
Definition opened (r : Z + Z) : list revent := match r with inr h => [Opened h] | inl _ => [] end.

Definition noted (api : DnsApi) : DnsApi := {|
  dst := @dst api * list revent;
  d_hints_local c := noting (d_hints_local c) silent;
  d_hints_mortal h := noting (d_hints_mortal h) silent;
  d_res_open c h i := noting (d_res_open c h i) opened;
  d_res_close r := noting (d_res_close r) (fun _ => [Closed r]);
  d_res_submit r n t c := noting (d_res_submit r n t c) silent;
  d_res_check r := noting (d_res_check r) silent;
  d_res_fetch r := noting (d_res_fetch r) silent;
  d_res_elapsed r := noting (d_res_elapsed r) silent;
  d_res_pollfd r := noting (d_res_pollfd r) silent;
  d_hosts_local := noting d_hosts_local silent;
  d_hosts_open := noting d_hosts_open silent;
  d_hosts_loadpath h p := noting (d_hosts_loadpath h p) silent;
  d_hosts_close h := noting (d_hosts_close h) silent;
  d_resconf_open := noting d_resconf_open silent;
  d_resconf_loadpath c p := noting (d_resconf_loadpath c p) silent;
  d_resconf_close c := noting (d_resconf_close c) silent;
  d_inet_pton := d_inet_pton;
  d_inet_ntop := d_inet_ntop;
  d_in6addr_any := d_in6addr_any;
  d_strerror := d_strerror |}.

Section Query.
Context `{LuaConv} (api : DnsApi) (reg fuel : nat) (junk seed : Z).
#[local] Instance napi : DnsApi := noted api.
Abbreviation M := (C dmem (@dst napi)).
Abbreviation St := (lstate dmem (@dst napi)).
Implicit Types s : St.

Definition resolvers s : list revent := @snd (@dst api) (list revent) (ls_os s).

(** The object [r] holds the memory [m], and [A] is the record of [h]. *)
Record holds (r : nat) (uv : value) (m : dmem) (h : Z) (A : list revent) s : Prop := {
  h_old : (r < ls_next s)%nat;
  h_ud : ls_uds s !! r = Some (UData (Some DNS_META) m uv);
  h_log : about h (resolvers s) = A;
}.
#[local] Instance holds_framed r uv m h A : Framed (holds r uv m h A).
Proof. split; intros s **; by destruct H0; split; cbn in *; [lia|..]. Qed.

(** What libdns does is not about [h], but for opening and closing it. *)
Lemma stable_noting {B} r uv m h A (f : @dst api -> out (@dst api * B)) ev : (forall b, about h (ev b) = []) ->
  stable (holds r uv m h A) (dsys (noting f ev : @dst napi -> out (@dst napi * B))).
Proof.
  intros Hev k s [Ho Hu Hl]. unfold dsys, noting. destruct (f _) as [[y b]| |]; [|done|done]. split; [done|done|].
  change (about h (resolvers s ++ ev b) = A). by rewrite about_app, Hl, Hev, app_nil_r.
Qed.
Lemma stable_silent {B} r uv m h A (f : @dst api -> out (@dst api * B)) :
  stable (holds r uv m h A) (dsys (noting f silent : @dst napi -> out (@dst napi * B))).
Proof. by apply stable_noting. Qed.
Lemma stable_plift {B} (P : St -> Prop) (x : out B) : stable P (plift x).
Proof. intros k s Hs. unfold plift. by destruct x. Qed.
(** New objects are others. *)
Lemma stable_newuserdata r uv m h A x : stable (holds r uv m h A) (lua_newuserdata x).
Proof. intros k s [Ho Hu Hl]. split; cbn in *; [lia| |done]. by rewrite lookup_insert_ne by lia. Qed.
Lemma stable_new_addr r uv m h A x meta i : stable (holds r uv m h A) (new_addr x meta i).
Proof.
  intros k s Hs. assert (ls_next s <> r) as Hne by (pose proof (h_old _ _ _ _ _ _ Hs); lia). unfold new_addr. rewrite bindE.
  pose proof (stable_newuserdata r uv m h A x k s Hs) as Hn. cbn in *.
  rewrite bindE. unfold luaL_setmetatable. rewrite bindE. erewrite get_udE by lk. cbn.
  apply (stable_rawseti (holds r uv m h A)). destruct Hn as [Ho Hu Hl], Hs as [Ho' Hu' _]. split; [done| |done].
  cbn [ls_uds set_ls_uds set_ls_next]. rewrite lookup_insert_ne by done. exact Hu.
Qed.
#[local] Hint Resolve stable_plift stable_newuserdata stable_new_addr : stable.
#[local] Hint Extern 1 (stable _ (dsys _)) => apply stable_silent : stable.

(** ** Everything that [is_query_done] and [parse_answer] do *)
Section Answer.
Context (r : nat) (uv : value) (m : dmem) (h : Z) (A : list revent).
Abbreviation P := (holds r uv m h A).
Abbreviation getfield := (lua_getfield dns_methods).
Lemma stable_raise_for_2 {B} call e : stable P (raise_for_2 (A := B) call e).
Proof. unfold raise_for_2, raise_dns_error. stable_go. Qed.
Lemma stable_set_i v i : stable P (set_i v i).
Proof. unfold set_i. stable_go. Qed.
Lemma stable_set_fields l : stable P (set_fields l).
Proof. induction l as [|[f v] l IH]; cbn [set_fields]; stable_go. Qed.
Lemma stable_turns : stable P turns.
Proof. unfold turns. stable_go. Qed.
Lemma stable_shift_up n : forall j, stable P (shift_up n j).
Proof. induction n as [|n IH]; intros j; cbn [shift_up]; stable_with ltac:(apply IH). Qed.
#[local] Hint Resolve stable_raise_for_2 stable_set_i stable_set_fields stable_turns stable_shift_up : stable.
Lemma stable_insert_loop n : forall i p, stable P (insert_loop n i p).
Proof. induction n as [|n IH]; intros i p; cbn [insert_loop]; stable_with ltac:(apply IH). Qed.
Lemma stable_append_host n : forall j v, stable P (append_host n j v).
Proof. induction n as [|n IH]; intros j v; cbn [append_host]; stable_with ltac:(apply IH). Qed.
#[local] Hint Resolve stable_insert_loop stable_append_host : stable.
Lemma stable_parse_rr_mx x answer i : stable P (parse_rr_mx fuel x answer i).
Proof. unfold parse_rr_mx, ensure_priorities, insert_mx_priority_sorted, add_mx_host, increment_n. stable_go. Qed.
Lemma stable_getregistry name : stable P (getregistry reg name).
Proof. unfold getregistry. stable_go. Qed.
#[local] Hint Resolve stable_parse_rr_mx stable_getregistry : stable.
Lemma stable_parse_rr x answer i : stable P (parse_rr reg fuel x answer i).
Proof.
  unfold parse_rr, parse_rr_a, parse_rr_aaaa, parse_rr_ns, parse_rr_cname, parse_rr_ptr, parse_rr_host, parse_rr_srv, parse_rr_soa, parse_rr_sshfp, parse_rr_txt.
  stable_go.
Qed.
Lemma stable_parse_records rs type answer : forall found, stable P (parse_records reg fuel rs type answer found).
Proof. induction rs as [|x rs IH]; intros found; cbn [parse_records]; stable_with ltac:(apply IH || apply stable_parse_rr). Qed.
Lemma stable_check_special data type : stable P (check_special data type).
Proof. unfold check_special, check_special_a, check_special_aaaa. stable_go. Qed.
#[local] Hint Resolve stable_parse_records stable_check_special : stable.
Lemma stable_get_query_type i : stable P (get_query_type i).
Proof. unfold get_query_type. stable_go. Qed.
Lemma stable_get_dns_res i : stable P (get_dns_res i).
Proof. unfold get_dns_res. stable_go. Qed.
#[local] Hint Resolve stable_get_query_type stable_get_dns_res : stable.
Lemma stable_parse_answer : stable P (mydns_parse_answer reg fuel junk seed).
Proof. unfold mydns_parse_answer. stable_go. Qed.
Lemma stable_is_query_done : stable P mydns_is_query_done.
Proof. unfold mydns_is_query_done, use_res. stable_go. Qed.
Lemma stable_submit_query : stable P mydns_submit_query.
Proof. unfold mydns_submit_query, ensure_arpa_string, raise_dns_error. stable_go. Qed.
End Answer.

(** ** The call *)

(** The events of the call so far: [h] was opened. *)
Definition during (r : nat) (uv : value) (h : Z) (s0 s : St) : Prop :=
  holds r uv (MRes (Some h)) h (about h (resolvers s0) ++ [Opened h]) s.
Definition afterwards (r : nat) (uv : value) (h : Z) (s0 s : St) : Prop :=
  holds r uv (MRes None) h (about h (resolvers s0) ++ [Opened h; Closed h]) s.

Lemma pos_app k v : pos (k ++ [v]) (-1) = Some (length k).
Proof.
  unfold pos. rewrite length_app. cbn [length]. replace ((0 <? -1) && _) with false by done.
  destruct (Z.leb_spec (- Z.of_nat (length k + 1)) (-1)); [|lia]. cbn. f_equal. lia.
Qed.

(** [mydns_close] on the object. *)
Lemma closeE r uv h s0 s : during r uv h s0 s ->
  match mydns_close [VUd r] s with
  | CVal n k s' => n = NRet 0 /\ k = [VUd r] /\ afterwards r uv h s0 s'
  | CErr _ _ => False
  | CUB => True
  end.
Proof.
  intros [Ho Hu Hl]. unfold mydns_close. lop. lop. lop. unfold mem_of. lop. lop. lop. lop. unfold dsys.
  change (d_res_close h (ls_os s)) with (noting (d_res_close h) (fun _ : unit => [Closed h]) (ls_os s)).
  unfold noting. destruct (d_res_close h _) as [[y []]| |]; [|done|done]. cbv beta iota. lop. lop. lop. split; [done|]. split; [done|].
  split; [done|cbn; by rewrite lookup_insert_eq|]. change (about h (resolvers s ++ [Closed h]) = about h (resolvers s0) ++ [Opened h; Closed h]).
  rewrite about_app, Hl, <- app_assoc. f_equal. unfold about. rewrite filter_cons_True; [done|]. apply Z.eqb_refl.
Qed.

Lemma length_adjust vs n : length (adjust vs n) = n.
Proof. unfold adjust. rewrite length_app, length_take, length_replicate. lia. Qed.
Lemma pop_lastE k v s : @lua_pop dmem (@dst napi) 1 (k ++ [v]) s = CVal tt k s.
Proof. rewrite popE by (apply Nat.leb_le; rewrite length_app; cbn; lia). by rewrite length_app, Nat.add_sub, take_app_length. Qed.
Lemma value_lastE k v s : @lua_value dmem (@dst napi) (-1) (k ++ [v]) s = CVal (Some v) (k ++ [v]) s.
Proof. rewrite (valueE _ _ _ _ (pos_app k v)), lookup_app_r, Nat.sub_diag by lia. done. Qed.

(** A method of the object, called with [args]: the call keeps what [body] keeps, and
    leaves [nres] results. *)
Lemma call_methodE (P : St -> Prop) k f body args nres s : dns_fns reg fuel junk seed f = Some body -> stable P body -> P s ->
  match call_fn reg fuel junk seed (length args) nres (k ++ VFun f :: args) s with
  | CVal _ k' s' => exists n q, body args s = CVal (NRet n) q s' /\ k' = k ++ adjust (drop (length q - n) q) nres /\ P s'
  | CErr _ s' => P s'
  | CUB => True
  end.
Proof.
  intros Hf Hb Hs. unfold call_fn. rewrite (call_fnE _ k f body args (Some nres) s Hf). specialize (Hb args s Hs).
  destruct (body args s) as [[n| | |] q s'|e s'|]; try done. case_goal; [done|]. eauto.
Qed.

(** The stack of the call starts with the resolver, the name and the type. *)
Record starts (K : list value) (r : nat) (name type : value) : Prop := {
  st_res : K !! 0%nat = Some (VUd r); st_name : K !! 1%nat = Some name; st_type : K !! 2%nat = Some type }.
Lemma pos_abs (K l : list value) i v : K !! i = Some v -> pos (K ++ l) (Z.of_nat i + 1) = Some i /\ (K ++ l) !! i = Some v.
Proof.
  intros Hi. pose proof (lookup_lt_Some _ _ _ Hi) as Hl. split; [|by apply lookup_app_l_Some].
  unfold pos. rewrite length_app. rewrite (proj2 (Z.ltb_lt _ _)) by lia. rewrite (proj2 (Z.leb_le _ _)) by lia. cbn. f_equal. lia.
Qed.
Lemma push_argE (K l : list value) i v s : K !! i = Some v -> @lua_pushvalue dmem (@dst napi) (Z.of_nat i + 1) (K ++ l) s = CVal tt (K ++ l ++ [v]) s.
Proof. intros Hi. destruct (pos_abs K l i v Hi) as [Hp Hv]. by rewrite (pushvalueE _ _ _ i v Hp Hv), app_assoc. Qed.
Lemma query_methodE r uv m h A K name type meth f s : holds r uv m h A s -> starts K r name type -> dns_methods DNS_META meth = Some f ->
  lua_getfield dns_methods 1 meth K s = CVal tt (K ++ [VFun f]) s.
Proof.
  intros [_ Hu _] [HK _ _] Hm. destruct (pos_abs K [] 0 (VUd r) HK) as [Hp Hv]. rewrite app_nil_r in *.
  by rewrite (getfield_udE dns_methods 1 meth K s 0%nat r _ DNS_META f Hp Hv Hu).
Qed.

(** The values of a call of [parse_answer]. *)
Definition results r name type (vs : list value) : Prop :=
  exists s1 n q s2, mydns_parse_answer reg fuel junk seed [VUd r; name; type] s1 = CVal (NRet n) q s2 /\ vs = adjust (drop (length q - n) q) 2.

(** The two steps of [mydns_query_collect_results]. *)
Lemma ask_doneE r uv h s0 s K name type : during r uv h s0 s -> starts K r name type ->
  match (lua_getfield dns_methods 1 "is_query_done";; lua_pushvalue 1;; call_fn reg fuel junk seed 1 1) K s with
  | CVal _ k s' => (exists v, k = K ++ [v]) /\ during r uv h s0 s'
  | CErr _ s' => during r uv h s0 s'
  | CUB => True
  end.
Proof.
  intros Hs HK. rewrite bindE, (query_methodE _ _ _ _ _ _ _ _ "is_query_done" DF_is_query_done _ Hs HK eq_refl). cbv beta iota.
  rewrite bindE. rewrite (push_argE K _ 0 (VUd r)) by apply HK. cbv beta iota. cbn [app].
  pose proof (call_methodE _ K DF_is_query_done mydns_is_query_done [VUd r] 1 s eq_refl (stable_is_query_done _ _ _ _ _) Hs) as Hc.
  cbn [length] in Hc. destruct (call_fn _ _ _ _ 1 1 _ s) as [[] k1 s1|e s1|]; [|done|done].
  destruct Hc as (n & q & _ & -> & Hs1). split; [|done]. pose proof (length_adjust (drop (length q - n) q) 1) as El.
  destruct (adjust _ 1) as [|v [|? ?]]; [done|by exists v|done].
Qed.
Lemma take_answerE r uv h s0 s K name type : during r uv h s0 s -> starts K r name type ->
  match (lua_getfield dns_methods 1 "parse_answer";; lua_pushvalue 1;; lua_pushvalue 2;; lua_pushvalue 3;; call_fn reg fuel junk seed 3 2;;
         lua_getfield dns_methods 1 "close";; lua_pushvalue 1;; call_fn reg fuel junk seed 1 0) K s with
  | CVal _ k s' => (exists vs, k = K ++ vs /\ results r name type vs) /\ afterwards r uv h s0 s'
  | CErr _ s' => during r uv h s0 s'
  | CUB => True
  end.
Proof.
  intros Hs HK. rewrite bindE, (query_methodE _ _ _ _ _ _ _ _ "parse_answer" DF_parse_answer _ Hs HK eq_refl). cbv beta iota.
  rewrite bindE, (push_argE K _ 0 (VUd r)) by apply HK. cbv beta iota. rewrite bindE, (push_argE K _ 1 name) by apply HK. cbv beta iota.
  rewrite bindE, (push_argE K _ 2 type) by apply HK. cbv beta iota. cbn [app]. rewrite bindE.
  pose proof (call_methodE _ K DF_parse_answer (mydns_parse_answer reg fuel junk seed) [VUd r; name; type] 2 s eq_refl (stable_parse_answer _ _ _ _ _) Hs) as Hc.
  cbn [length] in Hc. destruct (call_fn _ _ _ _ 3 2 _ s) as [[] k1 s1|e s1|]; [|done|done].
  destruct Hc as (n & q & Hp & -> & Hs1). set (vs := adjust _ 2). assert (starts (K ++ vs) r name type) as HK'.
  { destruct HK. split; by apply lookup_app_l_Some. }
  rewrite bindE, (query_methodE _ _ _ _ _ _ _ _ "close" DF_close _ Hs1 HK' eq_refl). cbv beta iota.
  rewrite bindE, (push_argE (K ++ vs) _ 0 (VUd r)) by apply HK'. cbv beta iota. cbn [app]. unfold call_fn.
  rewrite (call_fnE _ (K ++ vs) DF_close mydns_close [VUd r] (Some 0%nat) s1 eq_refl).
  pose proof (closeE r uv h s0 s1 Hs1) as Hc. destruct (mydns_close [VUd r] s1) as [n' k' s'|e s'|]; [|done|done].
  destruct Hc as (-> & -> & Ha). cbn. split; [|done]. exists vs. split; [by rewrite app_nil_r|]. by exists s, n, q, s1.
Qed.

(** The goal is about a sequence of calls whose first ones a hypothesis is about. *)
Ltac in_step := repeat (rewrite !bindE;
  match goal with |- match (match ?x with CVal _ _ _ => _ | CErr _ _ => _ | CUB => _ end) with _ => _ end -> _ =>
    destruct x as [[] ? ?|? ?|]; [|done|done]; cbv beta iota
  end).
Lemma collectE r uv h s0 s K name type : during r uv h s0 s -> starts K r name type ->
  match mydns_query_collect_results reg fuel junk seed K s with
  | CVal n k s' =>
      (n = NYield 2 1 /\ k = K ++ [VLight YIELD_READ; VUd r] /\ during r uv h s0 s') \/
      (n = NRet 2 /\ exists vs, k = K ++ vs /\ results r name type vs /\ afterwards r uv h s0 s')
  | CErr _ s' => during r uv h s0 s'
  | CUB => True
  end.
Proof.
  intros Hs HK. pose proof (ask_doneE r uv h s0 s K name type Hs HK) as Ha. unfold mydns_query_collect_results. revert Ha.
  in_step. rewrite ?bindE. match goal with |- match ?x with _ => _ end -> _ => destruct x as [[] k3 s3|e s3|]; [|done|done] end.
  intros [[v ->] Hs3]. cbv beta iota. rewrite bindE, value_lastE. cbv beta iota.
  destruct (toboolean (Some v)); rewrite bindE, pop_lastE; cbv beta iota.
  - pose proof (take_answerE r uv h s0 s3 K name type Hs3 HK) as Ht. revert Ht.
    in_step. rewrite ?bindE. match goal with |- match ?x with _ => _ end -> _ => destruct x as [[] k' s'|e s'|]; [|done|done] end.
    intros [(vs & -> & Hr) Hw]. right. split; [done|]. by exists vs.
  - rewrite bindE. change (lua_push (VLight YIELD_READ) K s3) with (CVal tt (K ++ [VLight YIELD_READ]) s3). cbv beta iota.
    rewrite bindE, (push_argE K _ 0 (VUd r)) by apply HK. by left.
Qed.

(** ** Opening the resolver *)
Lemma replaceE_length i k s : 1 <= i < Z.of_nat (length k) ->
  match @lua_replace dmem (@dst napi) i k s with CVal _ k' s' => s' = s /\ length k' = (length k - 1)%nat | CErr _ _ => False | CUB => True end.
Proof.
  intros Hi. unfold lua_replace. case_goal; [|done]. case_goal; [|done]. split; [done|]. rewrite length_take, length_insert. lia.
Qed.
Lemma arg_or_registryE i name meta k s : 1 <= i <= Z.of_nat (length k) ->
  match arg_or_registry reg i name meta k s with CVal _ k' s' => s' = s /\ length k' = length k | CErr _ s' => s' = s | CUB => True end.
Proof.
  intros Hi. unfold arg_or_registry. rewrite bindE. unfold lua_value at 1. cbv beta iota. rewrite bindE.
  assert (forall k', length k' = length k -> match luaL_checkudata i meta k' s with CVal _ k' s' => s' = s /\ length k' = length k | CErr _ s' => s' = s | CUB => True end) as Hu.
  { intros k' Hk'. unfold luaL_checkudata, get_ud. rewrite bindE. unfold lua_value. cbv beta iota.
    destruct (match pos k' i with Some p => k' !! p | None => None end) as [[]|]; try done. rewrite bindE.
    destruct (ls_uds s !! u); [|done]. cbv beta iota. by destruct (bool_decide _). }
  destruct (isnoneornil _); [|by apply Hu]. rewrite bindE. unfold getregistry. rewrite bindE. unfold get_tab. destruct (ls_tabs s !! reg) as [t|]; [|done]. cbv beta iota.
  cbn [lua_push]. pose proof (replaceE_length i (k ++ [field t name]) s ltac:(rewrite length_app; cbn; lia)) as Hr. unfold lua_push.
  destruct (lua_replace i (k ++ [field t name]) s) as [[] k' s'|e s'|]; [|done|done]. destruct Hr as [-> Hl]. apply Hu. rewrite Hl, length_app. cbn. lia.
Qed.
Lemma dsys_notingE {B} (f : @dst api -> out (@dst api * B)) ev k s :
  dsys (noting f ev : @dst napi -> out (@dst napi * B)) k s = CUB \/
  exists y b, dsys (noting f ev : @dst napi -> out (@dst napi * B)) k s = CVal b k (set_ls_os s ((y, resolvers s ++ ev b) : @dst napi)).
Proof. unfold dsys, noting. destruct (f _) as [[y b]| |]; [right; by exists y, b|by left|by left]. Qed.
Ltac noting_step f ev := match goal with |- context [dsys ?g ?k ?s] => change g with (noting f ev);
  let y := fresh "y" in let b := fresh "b" in destruct (dsys_notingE f ev k s) as [->|(y & b & ->)]; [done|]; cbv beta iota end.
(** The part of [mydns_new] behind its arguments. *)
Definition new_tail (rc hs : Z) (expire : number) : M next :=
  u ← lua_newuserdata (MRes None);
  hints ← dsys (d_hints_local rc);
  (match hints with inr h => dsys (d_hints_mortal h) | inl _ => mret tt end);;
  r ← dsys (d_res_open rc hs (match hints with inr h => Some h | inl _ => None end));
  match r with
  | inl e => raise_dns_error "ratchet.dns.new()" "dns_res_open" e
  | inr res =>
      put_mem u (MRes (Some res));;
      luaL_setmetatable u DNS_META;;
      lua_createtable;;
      set_fields [("tries", vint 0); ("expire_timeout", VNum expire)]%string;;
      lua_setuservalue (-2);;
      mret (NRet 1)
  end.
Lemma new_tailE a b c rc hs expire s :
  match new_tail rc hs expire [a; b; c] s with
  | CVal n q s' => n = NRet 1 /\ (exists q0, q = q0 ++ [VUd (ls_next s)]) /\ exists h uv, during (ls_next s) uv h s s'
  | CErr _ s' => resolvers s' = resolvers s
  | CUB => True
  end.
Proof.
  unfold new_tail. lop. lop. lop. noting_step (@d_hints_local api rc) (@silent (Z + Z)). unfold silent at 1. rewrite app_nil_r.
  set (s1 := set_ls_os _ _). assert (exists y, s1 = set_ls_next (set_ls_uds (set_ls_os s ((y, resolvers s) : @dst napi))
    (<[ls_next s := UData None (MRes None) VNil]> (ls_uds s))) (S (ls_next s))) as [y1 E1] by by exists y.
  clearbody s1. clear y. rewrite bindE.
  assert (match (match b0 with inr h => dsys (d_hints_mortal h) | inl _ => mret tt end) [a; b; c; VUd (ls_next s)] s1 with
    | CVal _ k' s' => k' = [a; b; c; VUd (ls_next s)] /\ exists y, s' = set_ls_next (set_ls_uds (set_ls_os s ((y, resolvers s) : @dst napi))
        (<[ls_next s := UData None (MRes None) VNil]> (ls_uds s))) (S (ls_next s))
    | CErr _ _ => False | CUB => True end) as Hh.
  { destruct b0 as [e|hh]; [by rewrite mretE; eauto|]. noting_step (@d_hints_mortal api hh) (@silent unit). split; [done|]. subst s1. eexists y.
    unfold silent. rewrite app_nil_r. done. }
  destruct (_ [a; b; c; VUd (ls_next s)] s1) as [[] k2 s2|e s2|]; [|done|done]. destruct Hh as (-> & y & ->).
  lop. noting_step (@d_res_open api rc hs (match b0 with inr h => Some h | inl _ => None end)) opened. destruct b1 as [e|h]; cbn [opened].
  - unfold raise_dns_error, craise. unfold resolvers at 1. cbn. by rewrite app_nil_r.
  - lop. lop. lop. lop. lop. lop. unfold set_fields. lrun. split; [done|]. split; [by exists [a; b; c]|]. eexists h, _. split.
    + cbn. lia.
    + lst. cbn. by rewrite lookup_insert_eq.
    + change (about h (resolvers s ++ [Opened h]) = about h (resolvers s) ++ [Opened h]). rewrite about_app. f_equal.
      unfold about. rewrite filter_cons_True; [done|]. apply Z.eqb_refl.
Qed.
Lemma mydns_newE args s :
  match mydns_new reg args s with
  | CVal n q s' => n = NRet 1 /\ (exists q0, q = q0 ++ [VUd (ls_next s)]) /\ exists h uv, during (ls_next s) uv h s s'
  | CErr _ s' => resolvers s' = resolvers s
  | CUB => True
  end.
Proof.
  unfold mydns_new. rewrite bindE. unfold lua_settop. cbv beta iota. pose proof (Stk.length_settop VNil args 3) as Hl. set (k := Stk.settop VNil args 3) in *.
  rewrite bindE. pose proof (arg_or_registryE 1 "ratchet_dns_resolv_conf_default" CONF_META k s ltac:(lia)) as H1.
  destruct (arg_or_registry _ 1 _ _ k s) as [uc k1 s1|e s1|]; [|by subst|done]. destruct H1 as [-> Hl1]. rewrite bindE.
  unfold mem_of at 1. rewrite bindE. unfold get_ud at 1. destruct (ls_uds s !! uc) as [dc|]; [|done]. cbv beta iota. rewrite mretE. cbv beta iota. rewrite bindE.
  pose proof (arg_or_registryE 2 "ratchet_dns_hosts_default" HOSTS_META k1 s ltac:(lia)) as H2.
  destruct (arg_or_registry _ 2 _ _ k1 s) as [uh k2 s2|e s2|]; [|by subst|done]. destruct H2 as [-> Hl2]. rewrite bindE.
  unfold mem_of at 1. rewrite bindE. unfold get_ud at 1. destruct (ls_uds s !! uh) as [dh|]; [|done]. cbv beta iota. rewrite mretE. cbv beta iota.
  rewrite bindE. unfold lua_value at 1. cbv beta iota. rewrite bindE. match goal with |- context [optnumber ?v ?d] => destruct (optnumber v d) as [e|expire] end; [done|].
  rewrite mretE. cbv beta iota. destruct (ud_mem dc) as [|[rc|]| | |]; try done. destruct (ud_mem dh) as [| |[hs|]| |]; try done.
  destruct k2 as [|a [|b [|c [|? ?]]]]; try (exfalso; cbn in *; lia). apply new_tailE.
Qed.

(** The module is loaded: its class is in the registry. *)
Definition class_loaded s : Prop := exists t l tc, ls_tabs s !! reg = Some t /\ field t "ratchet_dns_class" = VTab l /\
  ls_tabs s !! l = Some tc /\ field tc "new" = VFun DF_new.
(** What a turn of the call leaves. *)
Definition turn_end r name type s0 (x : cres dmem (@dst napi) next) : Prop :=
  match x with
  | CVal n k s' =>
      (exists K h uv, n = NYield 2 1 /\ k = K ++ [VLight YIELD_READ; VUd r] /\ starts K r name type /\ during r uv h s0 s') \/
      (exists K h uv vs, n = NRet 2 /\ k = K ++ vs /\ results r name type vs /\ afterwards r uv h s0 s')
  | CErr _ s' => resolvers s' = resolvers s0 \/ exists h uv, during r uv h s0 s'
  | CUB => True
  end.
Lemma collect_turn r uv h s0 s K name type : during r uv h s0 s -> starts K r name type ->
  turn_end r name type s0 (mydns_query_collect_results reg fuel junk seed K s).
Proof.
  intros Hs HK. pose proof (collectE r uv h s0 s K name type Hs HK) as Hc. unfold turn_end.
  destruct (mydns_query_collect_results _ _ _ _ K s) as [n k s'|e s'|]; [|by right; eauto|done].
  destruct Hc as [(-> & -> & Hd)|(-> & vs & -> & Hr & Ha)]; [left|right]; [by exists K, h, uv|by exists K, h, uv, vs].
Qed.
Lemma query_turn name type rest s : class_loaded s ->
  turn_end (ls_next s) name type s (mydns_query reg fuel junk seed (name :: type :: rest) s).
Proof.
  intros (t & l & tc & Ht & Hc & Htc & Hn). unfold mydns_query. rewrite bindE. unfold gstack. cbv beta iota.
  rewrite bindE. unfold getregistry. rewrite bindE, (get_tabE _ _ _ _ Ht). cbv beta iota. rewrite Hc. unfold lua_push at 1. cbv beta iota.
  rewrite bindE. set (k := name :: type :: rest). rewrite (getfield_tabE _ _ _ _ _ (length k) l tc);
    [|apply pos_app|by rewrite lookup_app_r, Nat.sub_diag by lia|done]. cbv beta iota. rewrite Hn.
  rewrite bindE. rewrite (insertE 3 _ _ 2%nat (VFun DF_new)); [| |by rewrite last_snoc].
  2:{ unfold pos. rewrite !length_app. cbn [length]. rewrite (proj2 (Z.leb_le _ _)) by (unfold k; cbn; lia). done. }
  replace (take (length ((k ++ [VTab l]) ++ [VFun DF_new]) - 1) ((k ++ [VTab l]) ++ [VFun DF_new])) with (k ++ [VTab l])
    by (rewrite length_app, Nat.add_sub, take_app_length; done). cbv beta iota.
  rewrite bindE. change (take 2 _ ++ VFun DF_new :: drop 2 (k ++ [VTab l])) with ((name :: type :: VFun DF_new :: rest) ++ [VTab l]). rewrite pop_lastE. cbv beta iota.
  rewrite bindE. change (length k <? 2)%nat with false. replace (length k - 2)%nat with (length rest) by (cbn; lia). cbv iota.
  change (name :: type :: VFun DF_new :: rest) with ([name; type] ++ VFun DF_new :: rest).
  change (call_fn reg fuel junk seed (length rest) 1) with (lua_call_fn (dns_fns reg fuel junk seed) (length rest) (Some 1%nat)).
  rewrite (call_fnE _ [name; type] DF_new (mydns_new reg) rest (Some 1%nat) s eq_refl).
  pose proof (mydns_newE rest s) as Hnew. destruct (mydns_new reg rest s) as [n q s1|e s1|]; [|by left|done]. destruct Hnew as (-> & [q0 ->] & h & uv & Hd).
  replace (length (q0 ++ [VUd (ls_next s)]) <? 1)%nat with false by (symmetry; apply Nat.ltb_ge; rewrite length_app; cbn; lia).
  rewrite length_app. cbn [length]. rewrite Nat.add_sub, drop_app_length. cbn [adjust take replicate app length Nat.sub]. cbv beta iota.
  set (r := ls_next s) in *. rewrite bindE. change (adjust [VUd r] 1) with [VUd r]. cbn [app]. lop.
  assert (starts [VUd r; name; type] r name type) as HK by done.
  rewrite bindE, (query_methodE _ _ _ _ _ _ _ _ "submit_query" DF_submit_query _ Hd HK eq_refl). cbv beta iota. lop. lop. lop. lop. lop. lop. rewrite bindE.
  pose proof (call_methodE _ [VUd r; name; type] DF_submit_query mydns_submit_query [VUd r; name; type] 0 s1 eq_refl (stable_submit_query _ _ _ _ _) Hd) as Hc'.
  cbn [length app] in Hc' |- *. destruct (call_fn _ _ _ _ 3 0 _ s1) as [[] k1 s2|e s2|]; [|by right; eauto|done].
  destruct Hc' as (n & q & _ & -> & Hs2). cbn [adjust app take replicate Nat.sub]. unfold adjust. cbn [take Nat.sub replicate app]. by eapply collect_turn.
Qed.

(** While the call waits, other threads keep their hands off its resolver. *)
Definition leaves (r : nat) s s' : Prop :=
  ls_uds s' !! r = ls_uds s !! r /\ (ls_next s <= ls_next s')%nat /\
  exists l, resolvers s' = resolvers s ++ l /\ forall h uv, ls_uds s !! r = Some (UData (Some DNS_META) (MRes (Some h)) uv) -> about h l = [].
Lemma leaves_during r uv h s0 s s' : leaves r s s' -> during r uv h s0 s -> during r uv h s0 s'.
Proof.
  intros (Hu & Hn & l & Hl & Hh) [Ho Hr Hg]. split; [lia|by rewrite Hu|]. by rewrite Hl, about_app, Hg, (Hh h uv Hr), app_nil_r.
Qed.

Definition query_inv r name type rest s0 (a : after dmem (@dst napi)) : Prop :=
  match a with
  | Running c => c = start DF_query (name :: type :: rest) s0 \/
      c_fun c = DF_query /\ c_ctx c = 1 /\ c_frames c = [] /\ starts (c_stk c) r name type /\ exists h uv, during r uv h s0 (c_st c)
  | Suspended vs u s => vs = [VLight YIELD_READ; VUd r] /\ su_fun u = DF_query /\ su_ctx u = 1 /\ su_frames u = [] /\
      starts (su_stk u) r name type /\ exists h uv, during r uv h s0 s
  | Finished vs s => results r name type vs /\ exists h uv, afterwards r uv h s0 s
  | Raised _ s => resolvers s = resolvers s0 \/ exists h uv, during r uv h s0 s
  | Broken => True
  end.
Lemma turn_inv r name type rest s0 (x : cres dmem (@dst napi) next) (c : conf dmem (@dst napi)) : turn_end r name type s0 x ->
  c_fun c = DF_query -> c_frames c = [] -> (forall f, dns_code reg fuel junk seed DF_query = Some f -> f (c_ctx c) (c_stk c) (c_st c) = x) ->
  query_inv r name type rest s0 (step (dns_code reg fuel junk seed) c).
Proof.
  intros Ht Hf Hfr Hx. unfold step. rewrite Hf. destruct (dns_code reg fuel junk seed DF_query) as [f|] eqn:E; [|done]. rewrite (Hx f eq_refl).
  destruct x as [n k s'|e s'|]; [|exact Ht|done]. destruct Ht as [(K & h & uv & -> & -> & HK & Hd)|(K & h & uv & vs & -> & -> & Hr & Ha)].
  - replace (length (K ++ _) <? 2)%nat with false by (symmetry; apply Nat.ltb_ge; rewrite length_app; cbn; lia). rewrite Hfr. cbn. unfold top, below.
    rewrite length_app. cbn [length]. rewrite Nat.add_sub, drop_app_length, take_app_length. split_and!; try done. by exists h, uv.
  - assert (length vs = 2%nat) as Hl by (destruct Hr as (? & ? & ? & ? & _ & ->); apply length_adjust). rewrite Hfr.
    replace (length (K ++ vs) <? 2)%nat with false by (symmetry; apply Nat.ltb_ge; rewrite length_app; lia). unfold top.
    rewrite length_app, Hl, Nat.add_sub, drop_app_length. split; [done|]. by exists h, uv.
Qed.
Lemma query_reach name type rest s0 a : class_loaded s0 ->
  reach (dns_code reg fuel junk seed) (fun _ _ _ => True) (leaves (ls_next s0)) (start DF_query (name :: type :: rest) s0) a ->
  query_inv (ls_next s0) name type rest s0 a.
Proof.
  intros Hc Hr. revert a Hr. apply reach_inv; [by left| |].
  - intros c [->|(Hf & Hx & Hfr & HK & h & uv & Hd)].
    + eapply turn_inv; [by apply (query_turn name type rest s0 Hc)|done|done|]. intros f [= <-]. done.
    + eapply turn_inv; [by eapply collect_turn|done|done|]. rewrite Hx. intros f [= <-]. done.
  - intros vs u s s' rs (-> & Hf & Hx & Hfr & HK & h & uv & Hd) _ He. right. cbn. split_and!; try done.
    + destruct HK. split; by apply lookup_app_l_Some.
    + exists h, uv. by eapply leaves_during.
Qed.
End Query.

(** C14: [query] opens one resolver and closes it once. In every run of the call, for any
    libdns and whatever other threads do between its turns with other resolvers: while
    it waits, it waits for its resolver, which was opened and is not closed; when it
    returns, it returns the two results of [parse_answer], the resolver has been closed
    once and its object holds no pointer to it; when it raises an error, no resolver
    was opened, or its object still holds it for the finaliser to close. *)
Theorem query_closes_resolver `{LuaConv} (api : DnsApi) reg fuel junk seed name type rest s0 a : class_loaded api reg s0 ->
  reach (@dns_code _ (noted api) reg fuel junk seed) (fun _ _ _ => True) (leaves api (ls_next s0)) (start DF_query (name :: type :: rest) s0) a ->
  let r := ls_next s0 in
  let holds_open h s := (exists uv, ls_uds s !! r = Some (UData (Some DNS_META) (MRes (Some h)) uv)) /\
    about h (resolvers api s) = about h (resolvers api s0) ++ [Opened h] in
  match a with
  | Suspended vs _ s => vs = [VLight YIELD_READ; VUd r] /\ exists h, holds_open h s
  | Finished vs s => length vs = 2%nat /\ results api reg fuel junk seed r name type vs /\
      exists h uv, ls_uds s !! r = Some (UData (Some DNS_META) (MRes None) uv) /\
        about h (resolvers api s) = about h (resolvers api s0) ++ [Opened h; Closed h]
  | Raised _ s => resolvers api s = resolvers api s0 \/ exists h, holds_open h s
  | _ => True
  end.
Proof.
  intros Hc Hr. pose proof (query_reach api reg fuel junk seed name type rest s0 a Hc Hr) as Hi. destruct a as [c|vs s|vs u s|e s|]; cbn in Hi; [done| | | |done].
  - destruct Hi as (Hv & h & uv & [_ Hu Hg]). split; [destruct Hv as (? & ? & ? & ? & _ & ->); apply length_adjust|]. split; [done|]. by exists h, uv.
  - destruct Hi as (-> & _ & _ & _ & _ & h & uv & [_ Hu Hg]). split; [done|]. exists h. split; [by exists uv|done].
  - destruct Hi as [?|(h & uv & [_ Hu Hg])]; [by left|right]. exists h. split; [by exists uv|done].
Qed.

(** ** A witness: a query that waits once, for an answer with four MX records *)
Module QueryWitnesses.
#[local] Instance conv : LuaConv := {| str2number _ := None; number2str _ := ""%string |}.
(** The library of [DnsMx] that first has nothing to say. *)
#[local] Instance simapi : DnsApi := {|
  dst := bool;
  d_hints_local _ d := Val (d, inr 1);
  d_hints_mortal _ d := Val (d, tt);
  d_res_open _ _ _ d := Val (d, inr 7);
  d_res_close _ d := Val (d, tt);
  d_res_submit _ _ _ _ d := Val (d, 0);
  d_res_check _ d := Val (true, if d then 0 else EAGAIN);
  d_res_fetch _ d := Val (d, inr (Some MxWitnesses.mx_answer));
  d_res_elapsed _ d := Val (d, 0);
  d_res_pollfd _ d := Val (d, 3);
  d_hosts_local d := Val (d, inr 1);
  d_hosts_open d := Val (d, inr 1);
  d_hosts_loadpath _ _ d := Val (d, 0);
  d_hosts_close _ d := Val (d, tt);
  d_resconf_open d := Val (d, inr 1);
  d_resconf_loadpath _ _ d := Val (d, 0);
  d_resconf_close _ d := Val (d, tt);
  d_inet_pton _ _ := None;
  d_inet_ntop _ _ := inl 28;
  d_in6addr_any := 0;
  d_strerror _ := ""%string |}.

Definition registry : tab := Tab (list_to_map [("ratchet_dns_class", VTab 1); ("ratchet_dns_resolv_conf_default", VUd 2);
  ("ratchet_dns_hosts_default", VUd 3)]%string) ∅.
Definition class : tab := Tab {["new"%string := VFun DF_new]} ∅.
Abbreviation St := (lstate dmem (@dst (noted simapi))).
Definition sim0 : St := LState (list_to_map [(0, registry); (1, class)]%nat)
  (list_to_map [(2%nat, UData (Some CONF_META) (MConf (Some 5)) VNil); (3%nat, UData (Some HOSTS_META) (MHosts (Some 6)) VNil)]) 4
  ((false, []) : @dst (noted simapi)).
Definition code : nat -> option (Z -> C dmem (@dst (noted simapi)) next) := @dns_code conv (noted simapi) 0 30 0 0.
Definition mx_call : conf dmem (@dst (noted simapi)) := start DF_query [VStr "x"; VStr "mx"] sim0.
Definition waiting := Eval vm_compute in run code 5 mx_call.
Definition resumed := Eval vm_compute in match waiting with Suspended _ u s => resume u [VBool true] s | _ => mx_call end.
Definition answered := Eval vm_compute in run code 5 resumed.

Lemma answered_reach : reach code (fun _ _ _ => True) (leaves simapi 4) mx_call answered.
Proof.
  change answered with (run code 5 resumed). apply run_reach.
  assert (reach code (fun _ _ _ => True) (leaves simapi 4) mx_call waiting) as Hw.
  { change waiting with (run code 5 mx_call). apply run_reach, reach_start. }
  unfold waiting in Hw. refine (reach_resume _ _ _ _ _ _ _ _ [VBool true] Hw I _). split; [done|]. split; [reflexivity|].
  exists []. split; [by rewrite app_nil_r|done].
Qed.
Lemma query_closes_resolver_witness : exists l s, answered = Finished [VTab l; VNil] s /\ resolvers simapi s = [Opened 7; Closed 7] /\
  match answered with
  | Finished vs s => length vs = 2%nat /\ results simapi 0 30 0 0 4 (VStr "x") (VStr "mx") vs /\
      exists h uv, ls_uds s !! 4%nat = Some (UData (Some DNS_META) (MRes None) uv) /\
        about h (resolvers simapi s) = about h (resolvers simapi sim0) ++ [Opened h; Closed h]
  | _ => False
  end.
Proof.
  eexists _, _. split; [reflexivity|]. split; [reflexivity|].
  refine (query_closes_resolver simapi 0 30 0 0 (VStr "x") (VStr "mx") [] sim0 answered _ answered_reach).
  exists registry, 1%nat, class. split_and!; vm_compute; reflexivity.
Defined.
End QueryWitnesses.
