(* ===== verification/DnsLink.v ===== *)
(** dns/dns.c on top of libdns: the class [DnsApi] that the Lua module is written
    against, implemented by the routines of DnsResconf.v, DnsHosts.v, DnsHints.v and
    DnsRes.v.

    A handle stands for a pointer; what it points to is in a table. A handle without
    an entry is a pointer to memory that was released, and following it is [UB].
    Every call has answers of the system of its own ([sysenv]), so that any
    allocation or file of a run may fail. *)

From stdpp Require Import prelude gmap strings.
From Stdlib Require Import ZArith Lia.
From S2P Require Import Prelude DnsBase DnsName DnsRr DnsRdata DnsPacket DnsResconf DnsHosts DnsHints DnsPermutor DnsSo DnsRes.
From S2P Require Import Double Lua Dns.
Local Open Scope Z_scope.

(** What the system answers during one call: the allocation of an object, those of the
    entries and zones it is filled with, files, and the name of the host. *)
Record sysenv := SysEnv {
  sy_malloc : bool; sy_entry : list hosts_entry -> option (list Z); sy_zone : list hints_soa -> bool;
  sy_fopen : string -> option (list Z); sy_hostname : Z -> option (list Z) }.

(** The objects; a resolver with the configuration, hosts and hints it was opened
    with; and the number of calls so far. *)
Record lib (os : Type) := Lib {
  lib_conf : gmap Z resolv_conf; lib_hosts : gmap Z hosts; lib_hints : gmap Z hints;
  lib_res : gmap Z (res * (Z * Z * Z)); lib_next : Z; lib_time : nat; lib_os : os }.
Arguments Lib {os} lib_conf lib_hosts lib_hints lib_res lib_next lib_time lib_os.
Arguments lib_conf {os} l.
Arguments lib_hosts {os} l.
Arguments lib_hints {os} l.
Arguments lib_res {os} l.
Arguments lib_next {os} l.
Arguments lib_time {os} l.
Arguments lib_os {os} l.

Definition upd_at {A} (m : gmap Z A) (c : Z) (a : option A) : gmap Z A := match a with Some a => <[c := a]> m | None => delete c m end.

Section Link.
Context {o : SoOS} {ro : ResOS o} (fuel : nat) (junk : Z).
(** The system in each call, and addresses as text. *)
Context (sys : nat -> sysenv).
Context (inet_pton : Z -> list Z -> pton_res) (inet_ntop : Z -> list Z -> Z + string) (in6any : Z) (strerror : Z -> string).
Abbreviation L := (lib sos).
Implicit Types l : L.

Definition set_conf l m : L := Lib m (lib_hosts l) (lib_hints l) (lib_res l) (lib_next l) (lib_time l) (lib_os l).
Definition set_hosts l m : L := Lib (lib_conf l) m (lib_hints l) (lib_res l) (lib_next l) (lib_time l) (lib_os l).
Definition set_hints l m : L := Lib (lib_conf l) (lib_hosts l) m (lib_res l) (lib_next l) (lib_time l) (lib_os l).
Definition set_res l m x : L := Lib (lib_conf l) (lib_hosts l) (lib_hints l) m (lib_next l) (lib_time l) x.
Definition used_handle l : L := Lib (lib_conf l) (lib_hosts l) (lib_hints l) (lib_res l) (lib_next l + 1) (lib_time l) (lib_os l).
Definition tick l : L := Lib (lib_conf l) (lib_hosts l) (lib_hints l) (lib_res l) (lib_next l) (S (lib_time l)) (lib_os l).
(** A call, with the answers the system has for it. *)
Definition timed {A} (f : sysenv -> L -> out (L * A)) l : out (L * A) := f (sys (lib_time l)) (tick l).
Definition code (e : option dns_error) : Z := match e with Some e => errnum e | None => 0 end.

Definition at_handle {A} (m : gmap Z A) (c : Z) : out A := match m !! c with Some a => Val a | None => UB end.

(** Configurations. *)
Definition lib_resconf_open (s : sysenv) l : out (L * (Z + Z)) :=
  r ← dns_resconf_open (sy_malloc s) (sy_hostname s);
  match r with
  | inl e => Val (l, inl (errnum e))
  | inr rc => Val (used_handle (set_conf l (<[lib_next l := rc]> (lib_conf l))), inr (lib_next l))
  end.
Definition lib_resconf_loadpath (c : Z) (path : string) (s : sysenv) l : out (L * Z) :=
  rc ← at_handle (lib_conf l) c;
  '(rc, e) ← dns_resconf_loadpath inet_pton (sy_fopen s) rc path;
  Val (set_conf l (<[c := rc]> (lib_conf l)), code e).
Definition lib_resconf_close (c : Z) l : out (L * unit) :=
  rc ← at_handle (lib_conf l) c; Val (set_conf l (upd_at (lib_conf l) c (dns_resconf_close rc)), tt).

(** Hosts. *)
Definition lib_hosts_new (r : dns_error + hosts) l : L * (Z + Z) :=
  match r with
  | inl e => (l, inl (errnum e))
  | inr h => (used_handle (set_hosts l (<[lib_next l := h]> (lib_hosts l))), inr (lib_next l))
  end.
Definition lib_hosts_open (s : sysenv) l : out (L * (Z + Z)) := Val (lib_hosts_new (dns_hosts_open (sy_malloc s)) l).
Definition lib_hosts_local (s : sysenv) l : out (L * (Z + Z)) :=
  r ← dns_hosts_local (sy_entry s) inet_pton (sy_fopen s) (sy_malloc s); Val (lib_hosts_new r l).
Definition lib_hosts_loadpath (c : Z) (path : string) (s : sysenv) l : out (L * Z) :=
  h ← at_handle (lib_hosts l) c;
  '(h, e) ← dns_hosts_loadpath (sy_entry s) inet_pton (sy_fopen s) h path;
  Val (set_hosts l (<[c := h]> (lib_hosts l)), code e).
Definition lib_hosts_close (c : Z) l : out (L * unit) :=
  h ← at_handle (lib_hosts l) c; Val (set_hosts l (upd_at (lib_hosts l) c (dns_hosts_close h)), tt).

(** Hints. *)
Definition lib_hints_local (c : Z) (s : sysenv) l : out (L * (Z + Z)) :=
  rc ← at_handle (lib_conf l) c;
  '(r, rc) ← dns_hints_local (sy_zone s) (sy_malloc s) rc;
  let l := set_conf l (upd_at (lib_conf l) c rc) in
  match r with
  | inl e => Val (l, inl (errnum e))
  | inr H => Val (used_handle (set_hints l (<[lib_next l := H]> (lib_hints l))), inr (lib_next l))
  end.
Definition lib_hints_mortal (i : Z) l : out (L * unit) :=
  H ← at_handle (lib_hints l) i; Val (set_hints l (upd_at (lib_hints l) i (dns_hints_mortal (Some H))), tt).

(** Resolvers, which have no cache. *)
Definition shared_of l (c h : Z) (i : option Z) : out shared :=
  rc ← at_handle (lib_conf l) c;
  hs ← at_handle (lib_hosts l) h;
  match i with
  | None => Val (Shared (Some rc) (Some hs) None)
  | Some i => H ← at_handle (lib_hints l) i; Val (Shared (Some rc) (Some hs) (Some H))
  end.
Definition put_shared l (c h : Z) (i : option Z) (sh : shared) : L :=
  Lib (upd_at (lib_conf l) c (sh_conf sh)) (upd_at (lib_hosts l) h (sh_hosts sh))
    (match i with Some i => upd_at (lib_hints l) i (sh_hints sh) | None => lib_hints l end) (lib_res l) (lib_next l) (lib_time l) (lib_os l).
Definition lib_res_open (c h : Z) (i : option Z) l : out (L * (Z + Z)) :=
  sh ← shared_of l c h i;
  '(r, sh, x) ← dns_res_open junk None sh so_initializer (lib_os l);
  let l := put_shared l c h i sh in
  match r, i with
  | inl e, _ => Val (set_res l (lib_res l) x, inl e)
  | inr R, Some i => Val (used_handle (set_res l (<[lib_next l := (R, (c, h, i))]> (lib_res l)) x), inr (lib_next l))
  | inr _, None => UB
  end.
Definition lib_res_close (r : Z) l : out (L * unit) :=
  '(R, (c, h, i)) ← at_handle (lib_res l) r;
  sh ← shared_of l c h (Some i);
  '(R, sh, x) ← dns_res_close None R sh (lib_os l);
  let l := put_shared l c h (Some i) sh in
  Val (set_res l (upd_at (lib_res l) r ((fun R => (R, (c, h, i))) <$> R)) x, tt).
(** A routine of a resolver. *)
Definition lib_use {A} (r : Z) (m : env -> RM A) l : out (L * A) :=
  '(R, (c, h, i)) ← at_handle (lib_res l) r;
  rc ← at_handle (lib_conf l) c;
  hs ← at_handle (lib_hosts l) h;
  H ← at_handle (lib_hints l) i;
  x ← m (Env rc hs H) R (lib_os l);
  match x with
  | RNull => UB
  | ROk a R' x => Val (set_res l (<[r := (R', (c, h, i))]> (lib_res l)) x, a)
  end.

Definition libdns : DnsApi := {|
  dst := L;
  d_hints_local c := timed (lib_hints_local c);
  d_hints_mortal := lib_hints_mortal;
  d_res_open := lib_res_open;
  d_res_close := lib_res_close;
  d_res_submit r n t k := lib_use r (fun _ => dns_res_submit n t k);
  d_res_check r := lib_use r (fun e => dns_res_check fuel junk e None fuel);
  d_res_fetch r := lib_use r (fun _ => dns_res_fetch);
  d_res_elapsed r := lib_use r (fun _ => dns_res_elapsed);
  d_res_pollfd r := lib_use r (fun _ => dns_res_pollfd None);
  d_hosts_local := timed lib_hosts_local;
  d_hosts_open := timed lib_hosts_open;
  d_hosts_loadpath c path := timed (lib_hosts_loadpath c path);
  d_hosts_close := lib_hosts_close;
  d_resconf_open := timed lib_resconf_open;
  d_resconf_loadpath c path := timed (lib_resconf_loadpath c path);
  d_resconf_close := lib_resconf_close;
  d_inet_pton af s := match inet_pton af (bytes s) with PtonOk a => Some a | _ => None end;
  d_inet_ntop := inet_ntop;
  d_in6addr_any := in6any;
  d_strerror := strerror |}.
End Link.

(** ** A stub resolver

    [dns_res_stub]: a resolver with the configuration, the hosts and the hints of the
    system. What it shares is returned with it; [None] is an object that was not made,
    or released. *)
Section Stub.
Context {o : SoOS} {ro : ResOS o} (junk : Z).
Context (conf_ok hosts_ok hints_ok : bool) (hmalloc : list hosts_entry -> option (list Z)) (zmalloc : list hints_soa -> bool).
Context (fopen : string -> option (list Z)) (gethostname : Z -> option (list Z)) (inet_pton : Z -> list Z -> pton_res).

Definition dns_res_stub (s0 : dsock) (x : sos) : out ((Z + res) * shared * sos) :=
  let epilog r sh x := Val (r, close_all sh, x) in
  c ← dns_resconf_local inet_pton conf_ok gethostname fopen;
  match c with
  | inl e => epilog (inl (errnum e)) (Shared None None None) x
  | inr rc =>
      h ← dns_hosts_local hmalloc inet_pton fopen hosts_ok;
      match h with
      | inl e => epilog (inl (errnum e)) (Shared (Some rc) None None) x
      | inr hs =>
          '(i, rc) ← dns_hints_local zmalloc hints_ok rc;
          match i with
          | inl e => epilog (inl (errnum e)) (Shared rc (Some hs) None) x
          | inr H => '(r, sh, x) ← dns_res_open junk None (Shared rc (Some hs) (Some H)) s0 x; epilog r sh x
          end
      end
  end.
End Stub.
