(* ===== verification/DnsLinkThm.v ===== *)
(** The objects that resolvers share, through every sequence of calls that the DNS
    module makes: none is used after its last reference was given back, and none is
    kept without a reference. *)

From stdpp Require Import prelude gmap strings.
From Stdlib Require Import ZArith Lia.
From S2P Require Import Prelude DnsBase DnsName DnsRr DnsRdata DnsPacket DnsResconf DnsHosts DnsHints DnsPermutor DnsSo DnsRes DnsResThm DnsLink.
From S2P Require Import Double Lua Misc Error LuaC LuaCInv Dns DnsMx DnsQuery.
Local Open Scope Z_scope.

(** ** Counted objects *)

(** An object with a count of its references ([refs]), how a reference is taken and
    how one is given back. *)
Class Counted (A : Type) := {
  refs : A -> Z;
  acquire : A -> A;
  release : A -> option A;
  refs_acquire a : refs (acquire a) = w32 (refs a + 1);
  release_last a : refs a = 1 -> release a = None;
  release_other a : refs a <> 1 -> exists b, release a = Some b /\ refs b = w32 (refs a - 1);
}.
Ltac counted := intros; unfold dns_resconf_close, dns_hosts_close, dns_hints_close; cbn in *;
  match goal with
  | E : _ = 1 |- _ => by rewrite E
  | E : _ <> 1 |- _ => rewrite (proj2 (Z.eqb_neq _ _) E); by eexists
  | |- _ => done
  end.
#[export, refine] Instance resconf_counted : Counted resolv_conf := {| refs := rc_refcount; acquire rc := (dns_resconf_acquire rc).1; release := dns_resconf_close;
  refs_acquire := _; release_last := _; release_other := _ |}.
Proof. all: counted. Defined.
#[export, refine] Instance hosts_counted : Counted hosts := {| refs := h_refcount; acquire h := (dns_hosts_acquire h).1; release := dns_hosts_close;
  refs_acquire := _; release_last := _; release_other := _ |}.
Proof. all: counted. Defined.
#[export, refine] Instance hints_counted : Counted hints := {| refs := hi_refcount; acquire H := (dns_hints_acquire H).1; release := dns_hints_close;
  refs_acquire := _; release_last := _; release_other := _ |}.
Proof. all: counted. Defined.

Lemma w32_small n : 0 <= n < 2 ^ 32 -> w32 n = n.
Proof. intros Hn. unfold w32. by apply Z.mod_small. Qed.

Lemma taken_and_given_back {A} `{!Counted A} (a : A) : refs a = 1 -> exists b, release (acquire a) = Some b /\ refs b = 1.
Proof.
  intros Ha. pose proof (refs_acquire a) as H2. rewrite Ha, w32_small in H2 by lia. destruct (release_other (acquire a)) as (b & Hb & E); [lia|].
  exists b. split; [done|]. by rewrite E, H2, w32_small by lia.
Qed.

(** A table whose counts are right: [n] says how many references there are to a
    handle; an object without one is among [idle]. *)
Section Table.
Context {A : Type} `{!Counted A}.
Implicit Types m : gmap Z A.
Definition right m (n : Z -> Z) (idle : gset Z) : Prop := forall c,
  match m !! c with
  | Some a => refs a = n c /\ 0 <= n c < 2 ^ 32 /\ (n c = 0 -> c ∈ idle)
  | None => n c = 0
  end.
Definition shifted (n : Z -> Z) (c d : Z) : Z -> Z := fun x => if decide (x = c) then n x + d else n x.

Lemma right_present m n idle c : right m n idle -> 0 < n c -> is_Some (m !! c).
Proof. intros Hr Hn. specialize (Hr c). destruct (m !! c); [done|lia]. Qed.
Lemma right_ext m n n' idle idle' : right m n idle -> (forall c, n' c = n c) -> (forall c, n c = 0 -> is_Some (m !! c) -> c ∈ idle -> c ∈ idle') -> right m n' idle'.
Proof.
  intros Hr Hn Hi c. specialize (Hr c). specialize (Hi c). rewrite Hn. destruct (m !! c); [|done]. destruct Hr as (H1 & H2 & H3). split_and!; [done|lia|lia|].
  intros H0. apply Hi; [done|done|auto].
Qed.
(** One object changes. *)
Lemma right_insert m n idle idle' c a k : right m n idle -> refs a = k -> 0 <= k < 2 ^ 32 -> (k = 0 -> c ∈ idle') ->
  (forall x, x <> c -> x ∈ idle -> x ∈ idle') -> right (<[c := a]> m) (shifted n c (k - n c)) idle'.
Proof.
  intros Hr Ha Hk Hi Hs x. unfold shifted. destruct (decide (x = c)) as [->|Hne].
  - rewrite lookup_insert_eq. split_and!; [lia|lia|lia|]. intros. apply Hi. lia.
  - rewrite lookup_insert_ne by done. specialize (Hr x). destruct (m !! x); [|done]. destruct Hr as (? & ? & ?). split_and!; [done|lia|lia|]. eauto.
Qed.
Lemma right_delete m n idle idle' c : right m n idle -> (forall x, x <> c -> x ∈ idle -> x ∈ idle') -> right (delete c m) (shifted n c (- n c)) idle'.
Proof.
  intros Hr Hs x. unfold shifted. destruct (decide (x = c)) as [->|Hne].
  - rewrite lookup_delete_eq. lia.
  - rewrite lookup_delete_ne by done. specialize (Hr x). destruct (m !! x); [|done]. destruct Hr as (? & ? & ?). split_and!; [done|lia|lia|]. eauto.
Qed.
Lemma bump_eq n c d x : x = c -> shifted n c d x = n x + d.
Proof. intros ->. unfold shifted. by rewrite decide_True. Qed.
Lemma bump_ne n c d x : x <> c -> shifted n c d x = n x.
Proof. intros. unfold shifted. by rewrite decide_False. Qed.

Lemma right_acquire m n idle c a : right m n idle -> m !! c = Some a -> n c + 1 < 2 ^ 32 ->
  right (<[c := acquire a]> m) (shifted n c 1) (idle ∖ {[c]}).
Proof.
  intros Hr Hm Hn. pose proof (Hr c) as Hc. rewrite Hm in Hc. destruct Hc as (H1 & H2 & _).
  replace 1 with (n c + 1 - n c) at 1 by lia. eapply right_insert; [done|by rewrite refs_acquire, w32_small, H1 by lia|lia|lia|set_solver].
Qed.
Lemma right_release m n idle c a : right m n idle -> m !! c = Some a -> 0 < n c -> right (upd_at m c (release a)) (shifted n c (-1)) idle.
Proof.
  intros Hr Hm Hn. pose proof (Hr c) as Hc. rewrite Hm in Hc. destruct Hc as (H1 & H2 & _). destruct (decide (n c = 1)) as [E|E].
  - rewrite release_last by lia. cbn. replace (-1) with (- n c) by lia. by eapply right_delete.
  - destruct (release_other a) as (b & -> & Hb); [lia|]. cbn. replace (-1) with (n c - 1 - n c) by lia.
    eapply right_insert; [done|rewrite Hb, w32_small; lia|lia|lia|done].
Qed.
End Table.

(** ** How often a handle is in use *)
Abbreviation users := (gmap Z (res * (Z * Z * Z))).
Definition k_conf (t : Z * Z * Z) : Z := t.1.1.
Definition k_hosts (t : Z * Z * Z) : Z := t.1.2.
Definition k_hints (t : Z * Z * Z) : Z := t.2.
Section Uses.
Context (f : Z * Z * Z -> Z).
Implicit Types m : users.
Definition uses m (c : Z) : Z := Z.of_nat (size (filter (fun p : Z * (res * (Z * Z * Z)) => f p.2.2 = c) m)).
Definition one (b : bool) : Z := if b then 1 else 0.
Lemma uses_delete m r R t c : m !! r = Some (R, t) -> uses (delete r m) c = uses m c - one (bool_decide (f t = c)).
Proof.
  intros Hm. unfold uses. rewrite map_filter_delete. destruct (decide (f t = c)) as [E|E].
  - rewrite bool_decide_eq_true_2 by done. assert (filter (fun p : Z * (res * (Z * Z * Z)) => f p.2.2 = c) m !! r = Some (R, t)) as Hf by by apply map_lookup_filter_Some.
    rewrite map_size_delete_Some by (by eexists). pose proof (map_size_ne_0_lookup_2 _ r (mk_is_Some _ _ Hf)). cbn [one]. lia.
  - rewrite bool_decide_eq_false_2 by done. rewrite delete_id; [cbn [one]; lia|]. apply map_lookup_filter_None. right. intros x Hx. rewrite Hm in Hx. by injection Hx as <-.
Qed.
Lemma uses_insert m r R t c : m !! r = None -> uses (<[r := (R, t)]> m) c = uses m c + one (bool_decide (f t = c)).
Proof.
  intros Hm. pose proof (uses_delete (<[r := (R, t)]> m) r R t c (lookup_insert_eq _ _ _)) as H. rewrite delete_insert_id in H by done. lia.
Qed.
Lemma uses_update m r R R' t c : m !! r = Some (R, t) -> uses (<[r := (R', t)]> m) c = uses m c.
Proof.
  intros Hm. pose proof (uses_delete m r R t c Hm). pose proof (uses_delete (<[r := (R', t)]> m) r R' t c (lookup_insert_eq _ _ _)) as H'.
  rewrite delete_insert_eq in H'. lia.
Qed.
Lemma uses_nonneg m c : 0 <= uses m c.
Proof. unfold uses. lia. Qed.
Lemma uses_pos m r R t : m !! r = Some (R, t) -> 0 < uses m (f t).
Proof.
  intros Hm. pose proof (uses_delete m r R t (f t) Hm) as H. rewrite bool_decide_eq_true_2 in H by done. cbn [one] in H. pose proof (uses_nonneg (delete r m) (f t)). lia.
Qed.
Lemma uses_le m c : uses m c <= Z.of_nat (size m).
Proof. unfold uses. pose proof (map_subseteq_size _ _ (map_filter_subseteq (fun p : Z * (res * (Z * Z * Z)) => f p.2.2 = c) m)). lia. Qed.
Lemma uses_some m c : 0 < uses m c -> exists r R t, m !! r = Some (R, t) /\ f t = c.
Proof.
  intros Hn. unfold uses in Hn. destruct (map_choose (filter (fun p : Z * (res * (Z * Z * Z)) => f p.2.2 = c) m)) as (r & [R t] & Hr).
  - intros E. rewrite E, map_size_empty in Hn. lia.
  - apply map_lookup_filter_Some in Hr as [Hr E]. by exists r, R, t.
Qed.
Lemma uses_empty c : uses ∅ c = 0.
Proof. unfold uses. by rewrite map_filter_empty, map_size_empty. Qed.
End Uses.

(** ** What keeps the counts *)
Definition yields {A} (m : out A) (Q : A -> Prop) : Prop := match m with Val a => Q a | _ => True end.
Lemma yields_bind {A B} (m : out A) (f : A -> out B) (Q : A -> Prop) (R : B -> Prop) : yields m Q -> (forall a, Q a -> yields (f a) R) -> yields (m ≫= f) R.
Proof. intros Hm Hf. destruct m; cbn in *; auto. Qed.
Lemma yields_any {A B} (m : out A) (f : A -> out B) (R : B -> Prop) : (forall a, yields (f a) R) -> yields (m ≫= f) R.
Proof. destruct m; cbn; auto. Qed.
Ltac yields_go := repeat first
  [ done
  | match goal with
    | |- yields (Val _) _ => cbn; try done
    | |- yields (_ ≫= _) _ => apply yields_any; intros ?
    | |- yields (match ?x with _ => _ end) _ => destruct x
    | |- yields ((match ?x with _ => _ end) ≫= _) _ => destruct x
    end ].

Lemma load_directive_refs pton words wc sa rc : yields (load_directive pton words wc sa rc) (fun p => rc_refcount p.1 = rc_refcount rc).
Proof.
  unfold load_directive. yields_go. unfold dns_resconf_setiface. by destruct (dns_pton _ _ _).
Qed.
Lemma loadfile_refs pton fp : forall rc, yields (dns_resconf_loadfile pton rc fp) (fun rc' => rc_refcount rc' = rc_refcount rc).
Proof.
  assert (forall l sa rc, yields (load_line pton l sa rc) (fun p => rc_refcount p.1 = rc_refcount rc)) as Hl.
  { intros l sa rc. unfold load_line. destruct (_ <? 2); [done|]. apply load_directive_refs. }
  unfold dns_resconf_loadfile. generalize lex0 as l. generalize 0 as sa. induction fp as [|ch fp IH]; intros sa l rc; cbn [load_chars].
  - eapply yields_bind; [apply Hl|]. by intros [rc' sa'].
  - destruct (ch =? newline).
    + eapply yields_bind; [apply Hl|]. intros [rc' sa'] E. cbn in E. rewrite <- E. apply IH.
    + apply yields_any. intros l'. apply IH.
Qed.
Lemma hosts_word_refs malloc pton x h : yields (hosts_word malloc pton x h) (fun p => h_refcount p.1.2 = h_refcount h).
Proof.
  unfold hosts_word. destruct (hx_wp x =? 0); [done|]. destruct (_ =? 1); [apply yields_any; intros w; by destruct (pton _ _)|].
  apply yields_any. intros [host n]. apply yields_any. intros name. eapply (yields_bind _ _ (fun p => h_refcount p.1 = h_refcount h)); [|by intros [h' e] E].
  unfold dns_hosts_insert. destruct (malloc _); [|done]. apply yields_any. intros [mem k]. repeat case_match; done.
Qed.
Lemma hosts_loadfile_refs malloc pton fp h : yields (dns_hosts_loadfile malloc pton h fp) (fun p => h_refcount p.1 = h_refcount h).
Proof.
  unfold dns_hosts_loadfile. generalize hlex0 as x. revert h. induction fp as [|ch fp IH]; intros h x; cbn [hosts_chars].
  - eapply yields_bind; [apply hosts_word_refs|]. by intros [[x' h'] e] E.
  - destruct (ch =? newline).
    + eapply yields_bind; [apply hosts_word_refs|]. intros [[x' h'] e] E. cbn in E. destruct e; [done|]. rewrite <- E. apply IH.
    + eapply (yields_bind _ _ (fun p => h_refcount p.1.2 = h_refcount h)); [|intros [[x' h'] e] E; cbn in E; destruct e; [done|]; rewrite <- E; apply IH].
      unfold hosts_char. destruct (_ || _); [done|]. destruct (hosts_issep ch).
      * eapply yields_bind; [apply hosts_word_refs|]. by intros [[x' h'] e] E.
      * by apply yields_any.
Qed.
Lemma insert_servers_refs zmalloc zone rot nss : forall H n p, yields (insert_servers zmalloc H zone nss rot n p) (fun q => hi_refcount q.1.1 = hi_refcount H).
Proof.
  induction nss as [|ss nss IH]; intros H n p; cbn [insert_servers]; [done|]. destruct (_ =? AF_UNSPEC); [done|].
  eapply (yields_bind _ _ (fun q => hi_refcount q.1 = hi_refcount H)).
  - unfold dns_hints_insert. destruct (dns_hints_fetch _ _); [by destruct (_ !! _)|]. destruct (zmalloc _); [|done]. apply yields_any. by intros [b k].
  - intros [H' e] E. cbn in E. destruct e; [done|]. rewrite <- E. apply IH.
Qed.

(** ** The invariant *)

(** What the DNS module holds: configurations and hosts behind objects, hints that
    it has just made, and hints whose reference it gave up for a resolver to take. *)
Record own := Own { o_conf : gset Z; o_hosts : gset Z; o_hints : gset Z; o_idle : gset Z }.
Definition total (f : Z * Z * Z -> Z) (m : users) (held : gset Z) (c : Z) : Z := uses f m c + one (bool_decide (c ∈ held)).

Section Inv.
Context {os : Type}.
Implicit Types l : lib os.
Record counts_ok l (O : own) : Prop := {
  ok_conf : right (lib_conf l) (total k_conf (lib_res l) (o_conf O)) ∅;
  ok_hosts : right (lib_hosts l) (total k_hosts (lib_res l) (o_hosts O)) ∅;
  ok_hints : right (lib_hints l) (total k_hints (lib_res l) (o_hints O)) (o_idle O);
  ok_new c : lib_next l <= c -> lib_conf l !! c = None /\ lib_hosts l !! c = None /\ lib_hints l !! c = None /\ lib_res l !! c = None;
}.
End Inv.

Lemma total_grant f m held c x : c ∉ held -> total f m (held ∪ {[c]}) x = shifted (total f m held) c 1 x.
Proof.
  intros Hc. unfold total, shifted. destruct (decide (x = c)) as [->|Hne].
  - rewrite (bool_decide_eq_true_2 (c ∈ held ∪ {[c]})), (bool_decide_eq_false_2 (c ∈ held)) by set_solver. cbn [one]. lia.
  - f_equal. f_equal. apply bool_decide_ext. set_solver.
Qed.
Lemma total_revoke f m held c x : c ∈ held -> total f m (held ∖ {[c]}) x = shifted (total f m held) c (-1) x.
Proof.
  intros Hc. unfold total, shifted. destruct (decide (x = c)) as [->|Hne].
  - rewrite (bool_decide_eq_false_2 (c ∈ held ∖ {[c]})), (bool_decide_eq_true_2 (c ∈ held)) by set_solver. cbn [one]. lia.
  - f_equal. f_equal. apply bool_decide_ext. set_solver.
Qed.
Lemma total_user f m held r R t x : m !! r = None -> total f (<[r := (R, t)]> m) held x = shifted (total f m held) (f t) 1 x.
Proof.
  intros Hm. unfold total, shifted. rewrite uses_insert by done. destruct (decide (x = f t)) as [->|Hne].
  - rewrite (bool_decide_eq_true_2 (f t = f t)) by done. cbn [one]. lia.
  - rewrite (bool_decide_eq_false_2 (f t = x)) by congruence. cbn [one]. lia.
Qed.
Lemma total_gone f m held r R t x : m !! r = Some (R, t) -> total f (delete r m) held x = shifted (total f m held) (f t) (-1) x.
Proof.
  intros Hm. unfold total, shifted. rewrite (uses_delete f m r R t) by done. destruct (decide (x = f t)) as [->|Hne].
  - rewrite (bool_decide_eq_true_2 (f t = f t)) by done. cbn [one]. lia.
  - rewrite (bool_decide_eq_false_2 (f t = x)) by congruence. cbn [one]. lia.
Qed.
Lemma total_same f m held r R R' t x : m !! r = Some (R, t) -> total f (<[r := (R', t)]> m) held x = total f m held x.
Proof. intros Hm. unfold total. by rewrite (uses_update f m r R). Qed.
Lemma total_held f m held c : c ∈ held -> 0 < total f m held c.
Proof. intros Hc. unfold total. rewrite bool_decide_eq_true_2 by done. pose proof (uses_nonneg f m c). cbn [one]. lia. Qed.
Lemma total_used f m held r R t : m !! r = Some (R, t) -> 0 < total f m held (f t).
Proof. intros Hm. unfold total, one. pose proof (uses_pos f m r R t Hm). case_bool_decide; lia. Qed.
Lemma total_le f m held c : total f m held c <= Z.of_nat (size m) + 1.
Proof. unfold total, one. pose proof (uses_le f m c). case_bool_decide; lia. Qed.

Section Steps.
Context {A : Type} `{!Counted A} (f : Z * Z * Z -> Z).
Implicit Types (m : gmap Z A) (u : users) (held idle : gset Z).
(** A new object, held by the module. *)
Lemma right_new m u held idle c a : right m (total f u held) idle -> m !! c = None -> refs a = 1 ->
  right (<[c := a]> m) (total f u (held ∪ {[c]})) idle.
Proof.
  intros Hr Hc Ha. pose proof (Hr c) as H0. rewrite Hc in H0. assert (c ∉ held) as Hh by (intros Hh; pose proof (total_held f u held c Hh); lia).
  eapply right_ext; [eapply (right_insert _ _ _ idle c a 1 Hr Ha); [lia|lia|done]| |done]. intros x. rewrite total_grant by done. unfold shifted. rewrite H0. done.
Qed.
Lemma right_same m u held idle c a a' : right m (total f u held) idle -> m !! c = Some a -> refs a' = refs a -> right (<[c := a']> m) (total f u held) idle.
Proof.
  intros Hr Hc Ha. pose proof (Hr c) as H0. rewrite Hc in H0. destruct H0 as (H1 & H2 & H3).
  eapply right_ext; [eapply (right_insert _ _ _ idle c a' (total f u held c) Hr); [congruence|lia|auto|done]| |done].
  intros x. unfold shifted. case_decide; [subst; lia|done].
Qed.
Lemma right_close m u held idle c a : right m (total f u held) idle -> m !! c = Some a -> c ∈ held -> right (upd_at m c (release a)) (total f u (held ∖ {[c]})) idle.
Proof.
  intros Hr Hc Hh. eapply right_ext; [eapply (right_release _ _ _ c a Hr Hc); by apply total_held| |done]. intros x. by apply total_revoke.
Qed.
(** A resolver takes a reference, and gives it back. *)
Lemma right_taken m u held idle c a r R t : right m (total f u held) idle -> m !! c = Some a -> u !! r = None -> f t = c -> Z.of_nat (size u) + 2 < 2 ^ 32 ->
  right (<[c := acquire a]> m) (total f (<[r := (R, t)]> u) held) (idle ∖ {[c]}).
Proof.
  intros Hr Hc Hu <- Hs. eapply right_ext; [eapply (right_acquire _ _ _ (f t) a Hr Hc)| |done].
  - pose proof (total_le f u held (f t)). lia.
  - intros x. by apply total_user.
Qed.
Lemma right_given_back m u held idle c a r R t : right m (total f u held) idle -> m !! c = Some a -> u !! r = Some (R, t) -> f t = c ->
  right (upd_at m c (release a)) (total f (delete r u) held) idle.
Proof.
  intros Hr Hc Hu <-. eapply right_ext; [eapply (right_release _ _ _ (f t) a Hr Hc); by eapply total_used| |done]. intros x. by apply (total_gone f u held r R).
Qed.
(** A reference is taken and given back at once. *)
Lemma right_transient m u held idle c a : right m (total f u held) idle -> m !! c = Some a -> Z.of_nat (size u) + 2 < 2 ^ 32 ->
  right (upd_at m c (release (acquire a))) (total f u held) (idle ∖ {[c]}).
Proof.
  intros Hr Hc Hs. pose proof (total_le f u held c) as Hle. pose proof (right_acquire m _ idle c a Hr Hc ltac:(lia)) as Ha.
  pose proof (Hr c) as H0. rewrite Hc in H0. destruct H0 as (_ & H2 & _).
  pose proof (right_release _ _ _ c (acquire a) Ha (lookup_insert_eq _ _ _) ltac:(rewrite bump_eq by done; lia)) as Hb.
  assert (forall v, upd_at (<[c := acquire a]> m) c v = upd_at m c v) as Hp.
  { intros [v|]; cbn; [apply insert_insert_eq|apply delete_insert_eq]. }
  rewrite Hp in Hb. eapply right_ext; [exact Hb| |done]. intros x. unfold shifted. case_decide; lia.
Qed.
Lemma right_users m u u' held idle : right m (total f u held) idle -> (forall x, total f u' held x = total f u held x) -> right m (total f u' held) idle.
Proof. intros Hr Hu. by eapply right_ext. Qed.
End Steps.

(** ** The calls of the DNS module *)
Section Calls.
Context {o : SoOS} {ro : ResOS o} (fuel : nat) (junk : Z).
Context (inet_pton : Z -> list Z -> pton_res).
Implicit Types l : lib sos.

(** Any sequence of calls that closes only what is held, makes resolvers from objects
    that are held and from hints without another owner, and uses any resolver;
    there are less than [2 ^ 32 - 2] resolvers. The system answers each call as it
    likes. *)
Inductive calls : lib sos -> own -> Prop :=
  | calls_start next x : calls (Lib ∅ ∅ ∅ ∅ next 0 x) (Own ∅ ∅ ∅ ∅)
  | calls_tick l O : calls l O -> calls (tick l) O
  | calls_conf_open s l O l' r : calls l O -> lib_resconf_open s l = Val (l', r) ->
      calls l' (match r with inr c => Own (o_conf O ∪ {[c]}) (o_hosts O) (o_hints O) (o_idle O) | inl _ => O end)
  | calls_conf_load s l O c path l' e : calls l O -> lib_resconf_loadpath inet_pton c path s l = Val (l', e) -> calls l' O
  | calls_conf_close l O c l' e : calls l O -> c ∈ o_conf O -> lib_resconf_close c l = Val (l', e) ->
      calls l' (Own (o_conf O ∖ {[c]}) (o_hosts O) (o_hints O) (o_idle O))
  | calls_hosts_new s l O l' r : calls l O -> lib_hosts_open s l = Val (l', r) \/ lib_hosts_local inet_pton s l = Val (l', r) ->
      calls l' (match r with inr c => Own (o_conf O) (o_hosts O ∪ {[c]}) (o_hints O) (o_idle O) | inl _ => O end)
  | calls_hosts_load s l O c path l' e : calls l O -> lib_hosts_loadpath inet_pton c path s l = Val (l', e) -> calls l' O
  | calls_hosts_close l O c l' e : calls l O -> c ∈ o_hosts O -> lib_hosts_close c l = Val (l', e) ->
      calls l' (Own (o_conf O) (o_hosts O ∖ {[c]}) (o_hints O) (o_idle O))
  | calls_hints_local s l O c l' r : calls l O -> Z.of_nat (size (lib_res l)) + 2 < 2 ^ 32 -> lib_hints_local c s l = Val (l', r) ->
      calls l' (match r with inr i => Own (o_conf O) (o_hosts O) (o_hints O ∪ {[i]}) (o_idle O) | inl _ => O end)
  | calls_hints_mortal l O i l' e : calls l O -> i ∈ o_hints O -> lib_hints_mortal i l = Val (l', e) ->
      calls l' (Own (o_conf O) (o_hosts O) (o_hints O ∖ {[i]}) (o_idle O ∪ {[i]}))
  | calls_res_open l O c h i l' r : calls l O -> (forall i', i = Some i' -> i' ∈ o_idle O) -> Z.of_nat (size (lib_res l)) + 2 < 2 ^ 32 ->
      lib_res_open junk c h i l = Val (l', r) -> calls l' (Own (o_conf O) (o_hosts O) (o_hints O) (match i with Some i => o_idle O ∖ {[i]} | None => o_idle O end))
  | calls_res_close l O r l' e : calls l O -> lib_res_close r l = Val (l', e) -> calls l' O
  | calls_use {B} l O r (m : env -> RM B) l' b : calls l O -> lib_use r m l = Val (l', b) -> calls l' O.

Lemma at_handleE {B} (m : gmap Z B) c b : at_handle m c = Val b -> m !! c = Some b.
Proof. unfold at_handle. destruct (m !! c); [by intros [= ->]|done]. Qed.
Lemma out_bind_inv {A B} (m : out A) (f : A -> out B) b : m ≫= f = Val b -> exists a, m = Val a /\ f a = Val b.
Proof. destruct m; cbn; eauto; done. Qed.
Lemma yields_val {A} (m : out A) (Q : A -> Prop) a : yields m Q -> m = Val a -> Q a.
Proof. by intros Hm ->. Qed.

Lemma new_handle (l : lib sos) O c : counts_ok l O -> lib_next l + 1 <= c ->
  lib_conf l !! c = None /\ lib_hosts l !! c = None /\ lib_hints l !! c = None /\ lib_res l !! c = None.
Proof. intros Hl Hc. apply (ok_new _ _ Hl). lia. Qed.
(** Tables that have an entry more, or another for a handle that had one. *)
Lemma none_insert {B} (m : gmap Z B) k b x : k <> x -> m !! x = None -> <[k := b]> m !! x = None.
Proof. intros Hk Hm. by rewrite lookup_insert_ne. Qed.
Lemma none_put {B} (m : gmap Z B) k b v x : m !! k = Some b -> m !! x = None -> upd_at m k v !! x = None.
Proof.
  intros Hk Hx. assert (k <> x) by congruence. destruct v; cbn; [by apply none_insert|]. by rewrite lookup_delete_ne.
Qed.

Lemma conf_open_refs malloc_ok gethostname rc : dns_resconf_open malloc_ok gethostname = Val (inr rc) -> rc_refcount rc = 1.
Proof.
  intros Hx. unfold dns_resconf_open in Hx. destruct (negb malloc_ok); [done|]. destruct (gethostname MAXNAME1) as [s0|]; [|done].
  apply out_bind_inv in Hx as (n1 & _ & Hx). apply out_bind_inv in Hx as ([s1 k1] & _ & Hx). apply out_bind_inv in Hx as (n2 & _ & Hx).
  by apply out_bind_inv in Hx as ([s2 k2] & _ & [= <-]).
Qed.
Lemma ok_conf_open s l O l' r : counts_ok l O -> lib_resconf_open s l = Val (l', r) ->
  counts_ok l' (match r with inr c => Own (o_conf O ∪ {[c]}) (o_hosts O) (o_hints O) (o_idle O) | inl _ => O end).
Proof.
  intros Hl (x & Hx & E)%out_bind_inv. destruct x as [e|rc]; injection E as <- <-; [done|]. destruct (ok_new _ _ Hl (lib_next l) (Z.le_refl _)) as (Hn & _).
  apply conf_open_refs in Hx.
  destruct Hl. split; cbn; [by apply right_new|done|done|].
  intros c Hc. destruct (ok_new0 c ltac:(lia)) as (? & ? & ? & ?). split_and!; [apply none_insert; [lia|done]|done..].
Qed.
Lemma ok_conf_set l O c rc rc' : counts_ok l O -> lib_conf l !! c = Some rc -> rc_refcount rc' = rc_refcount rc ->
  counts_ok (set_conf l (<[c := rc']> (lib_conf l))) O.
Proof.
  intros [] Hc Hr. split; cbn; [by eapply (right_same k_conf)|done|done|].
  intros x Hx. destruct (ok_new0 x Hx) as (? & ? & ? & ?). split_and!; [apply none_insert; [congruence|done]|done..].
Qed.
Lemma ok_hosts_set l O c h h' : counts_ok l O -> lib_hosts l !! c = Some h -> h_refcount h' = h_refcount h ->
  counts_ok (set_hosts l (<[c := h']> (lib_hosts l))) O.
Proof.
  intros [] Hc Hr. split; cbn; [done|by eapply (right_same k_hosts)|done|].
  intros x Hx. destruct (ok_new0 x Hx) as (? & ? & ? & ?). split_and!; [done|apply none_insert; [congruence|done]|done..].
Qed.
Lemma ok_hosts_new l O h l' r : counts_ok l O -> (forall t, h = inr t -> h_refcount t = 1) -> lib_hosts_new h l = (l', r) ->
  counts_ok l' (match r with inr c => Own (o_conf O) (o_hosts O ∪ {[c]}) (o_hints O) (o_idle O) | inl _ => O end).
Proof.
  intros Hl Hh E. destruct h as [e|t]; injection E as <- <-; [done|]. destruct (ok_new _ _ Hl (lib_next l) (Z.le_refl _)) as (_ & Hn & _).
  destruct Hl. split; cbn; [done|apply right_new; [done|done|by apply Hh]|done|].
  intros c Hc. destruct (ok_new0 c ltac:(lia)) as (? & ? & ? & ?). split_and!; [done|apply none_insert; [lia|done]|done..].
Qed.
Lemma hints_local_refs malloc_ok zmalloc rc x rc' : dns_hints_local zmalloc malloc_ok rc = Val (x, rc') ->
  rc' = release (acquire rc) /\ forall H, x = inr H -> hi_refcount H = 1.
Proof.
  intros Hx. unfold dns_hints_local, dns_hints_open in Hx. destruct malloc_ok; [|by injection Hx as <- <-].
  apply out_bind_inv in Hx as ([[H n] e] & Hi & Hx). pose proof (yields_val _ _ _ (insert_servers_refs _ _ _ _ _ _ _) Hi) as Hr. cbn in Hr.
  destruct (n =? 0), e; injection Hx as <- <-; (split; [done|]); intros H' [=]; subst; exact Hr.
Qed.
Lemma ok_hints_local s l O c l' r : counts_ok l O -> Z.of_nat (size (lib_res l)) + 2 < 2 ^ 32 -> lib_hints_local c s l = Val (l', r) ->
  counts_ok l' (match r with inr i => Own (o_conf O) (o_hosts O) (o_hints O ∪ {[i]}) (o_idle O) | inl _ => O end).
Proof.
  intros Hl Hs (rc & Hc%at_handleE & ([x rc'] & Hx & E)%out_bind_inv)%out_bind_inv.
  apply hints_local_refs in Hx as [-> HH].
  assert (counts_ok (set_conf l (upd_at (lib_conf l) c (release (acquire rc)))) O) as Hl1.
  { destruct Hl. split; cbn; [|done|done|].
    - pose proof (right_transient k_conf (lib_conf l) (lib_res l) (o_conf O) ∅ c rc ok_conf0 Hc Hs) as Ht. by replace (∅ ∖ {[c]}) with (∅ : gset Z) in Ht by set_solver.
    - intros x' Hx'. destruct (ok_new0 x' Hx') as (? & ? & ? & ?). split_and!; [by eapply none_put|done..]. }
  destruct x as [e|H]; injection E as <- <-; [done|]. destruct (ok_new _ _ Hl1 (lib_next l) (Z.le_refl _)) as (_ & _ & Hn & _).
  destruct Hl1. split; cbn; [done|done|apply right_new; [done|done|by apply HH]|].
  - intros x Hx'. destruct (ok_new0 x ltac:(cbn; lia)) as (? & ? & ? & ?). split_and!; [done|done|apply none_insert; [lia|done]|done].
Qed.

Lemma ok_hints_mortal l O i l' e : counts_ok l O -> i ∈ o_hints O -> lib_hints_mortal i l = Val (l', e) ->
  counts_ok l' (Own (o_conf O) (o_hosts O) (o_hints O ∖ {[i]}) (o_idle O ∪ {[i]})).
Proof.
  intros Hl Hi (H & Hc%at_handleE & [= <- <-])%out_bind_inv. destruct Hl. pose proof (total_held k_hints (lib_res l) _ i Hi) as Hp.
  pose proof (ok_hints0 i) as H0. rewrite Hc in H0. destruct H0 as (H1 & H2 & _). cbn in H1. split; cbn; [done|done| |].
  - eapply right_ext; [eapply (right_insert _ _ _ (o_idle O ∪ {[i]}) i _ (total k_hints (lib_res l) (o_hints O) i - 1) ok_hints0)| |done].
    + cbn. rewrite H1. apply w32_small. lia.
    + lia.
    + set_solver.
    + set_solver.
    + intros x. rewrite total_revoke by done. unfold shifted. case_decide; [subst; lia|done].
  - intros x Hx. destruct (ok_new0 x Hx) as (? & ? & ? & ?). split_and!; [done|done|apply none_insert; [congruence|done]|done].
Qed.

(** What [dns_res_open] and [dns_res_close] do with the objects. *)
Lemma res_open_shared sh s0 x r sh1 x1 : dns_res_open junk None sh s0 x = Val (r, sh1, x1) ->
  match r with inl _ => sh1 = close_all (acquire_all sh) | inr _ => sh1 = acquire_all sh /\ is_Some (sh_hints sh) end.
Proof.
  unfold dns_res_open. intros Ho. destruct (sh_conf (acquire_all sh)); [|by injection Ho as <- <- <-].
  destruct (sh_hosts (acquire_all sh)); [|by injection Ho as <- <- <-]. destruct (sh_hints (acquire_all sh)) eqn:E; [|by injection Ho as <- <- <-].
  destruct (res_alloc _) as [x2 []]; cbn [negb] in Ho; [|by injection Ho as <- <- <-].
  destruct (dns_so_init _ _ s0 x2) as [[[[err|] s] x3]| |]; try done.
  - destruct (dns_so_destroy _ _) as [[[]]| |]; try done. by injection Ho as <- <- <-.
  - injection Ho as <- <- <-. split; [done|]. unfold acquire_all in E. cbn in E. destruct (sh_hints sh); [by eexists|done].
Qed.
Lemma res_close_shared R sh x R' sh1 x1 : dns_res_close None R sh x = Val (R', sh1, x1) ->
  match R' with Some _ => sh1 = sh | None => sh1 = close_all sh end.
Proof.
  unfold dns_res_close. destruct (dns_res_release R) as [R1 n]. destruct (1 <? n); [by intros [= <- <- <-]|].
  destruct (dns_so_reset _ _) as [[[]]| |]; try done. destruct (dns_so_destroy _ _) as [[[]]| |]; try done. by intros [= <- <- <-].
Qed.
Lemma shared_ofE l c h i sh : shared_of l c h i = Val sh -> exists rc hs, lib_conf l !! c = Some rc /\ lib_hosts l !! h = Some hs /\
  match i with
  | Some i => exists H, lib_hints l !! i = Some H /\ sh = Shared (Some rc) (Some hs) (Some H)
  | None => sh = Shared (Some rc) (Some hs) None
  end.
Proof.
  intros (rc & Hc%at_handleE & (hs & Hh%at_handleE & E)%out_bind_inv)%out_bind_inv. exists rc, hs. destruct i as [i|]; [|by injection E as <-].
  apply out_bind_inv in E as (H & Hi%at_handleE & [= <-]). split_and!; try done. by exists H.
Qed.

Lemma ok_res_open l O c h i l' r : counts_ok l O -> (forall i', i = Some i' -> i' ∈ o_idle O) -> Z.of_nat (size (lib_res l)) + 2 < 2 ^ 32 ->
  lib_res_open junk c h i l = Val (l', r) ->
  counts_ok l' (Own (o_conf O) (o_hosts O) (o_hints O) (match i with Some i => o_idle O ∖ {[i]} | None => o_idle O end)).
Proof.
  intros Hl Hi Hs (sh & (rc & hs & Hc & Hh & Hsh)%shared_ofE & ([[x sh1] x1] & Ho%res_open_shared & E)%out_bind_inv)%out_bind_inv.
  destruct (ok_new _ _ Hl (lib_next l) (Z.le_refl _)) as (_ & _ & _ & Hn).
  assert (forall c, ∅ ∖ {[c]} = (∅ : gset Z)) as He by set_solver. destruct Hl. destruct x as [err|R].
  - (* it fails: references are taken and given back *)
    injection E as <- <-. subst sh1.
    pose proof (right_transient k_conf _ _ _ _ c rc ok_conf0 Hc Hs) as H1. pose proof (right_transient k_hosts _ _ _ _ h hs ok_hosts0 Hh Hs) as H2. rewrite He in H1, H2.
    destruct i as [i|].
    + destruct Hsh as (H & HH & ->). pose proof (right_transient k_hints _ _ _ _ i H ok_hints0 HH Hs) as H3. split; cbn; [done|done|done|].
      intros x Hx. destruct (ok_new0 x Hx) as (? & ? & ? & ?). split_and!; [by eapply none_put..|done].
    + subst sh. split; cbn; [done|done|done|]. intros x Hx. destruct (ok_new0 x Hx) as (? & ? & ? & ?). split_and!; [by eapply none_put..|done|done].
  - destruct Ho as [-> HS]. destruct i as [i|]; [|done]. destruct Hsh as (H & HH & ->). injection E as <- <-.
    pose proof (right_taken k_conf _ _ _ _ c rc (lib_next l) R (c, h, i) ok_conf0 Hc Hn eq_refl Hs) as H1.
    pose proof (right_taken k_hosts _ _ _ _ h hs (lib_next l) R (c, h, i) ok_hosts0 Hh Hn eq_refl Hs) as H2.
    pose proof (right_taken k_hints _ _ _ _ i H (lib_next l) R (c, h, i) ok_hints0 HH Hn eq_refl Hs) as H3. rewrite He in H1, H2.
    split; cbn; [done|done|done|].
    intros x Hx. destruct (ok_new0 x ltac:(cbn in *; lia)) as (? & ? & ? & ?).
      split_and!; (apply none_insert; [|done]); [congruence|congruence|congruence|cbn in Hx; lia].
Qed.
Lemma ok_res_close l O r l' e : counts_ok l O -> lib_res_close r l = Val (l', e) -> counts_ok l' O.
Proof.
  intros Hl ([R [[c h] i]] & Hr%at_handleE & (sh & (rc & hs & Hc & Hh & H & HH & ->)%shared_ofE & ([[R' sh1] x1] & Ho%res_close_shared & [= <- <-])%out_bind_inv)%out_bind_inv)%out_bind_inv.
  destruct Hl. destruct R' as [R'|]; subst sh1; cbn.
  - unfold put_shared. cbn. rewrite !insert_id by done. split; cbn; [eapply right_users; [done|intros x; by eapply total_same]..|].
    intros x Hx. destruct (ok_new0 x Hx) as (? & ? & ? & ?). split_and!; [done..|]. apply none_insert; [congruence|done].
  - pose proof (right_given_back k_conf _ _ _ _ c rc r R (c, h, i) ok_conf0 Hc Hr eq_refl) as H1.
    pose proof (right_given_back k_hosts _ _ _ _ h hs r R (c, h, i) ok_hosts0 Hh Hr eq_refl) as H2.
    pose proof (right_given_back k_hints _ _ _ _ i H r R (c, h, i) ok_hints0 HH Hr eq_refl) as H3. split; cbn; [done|done|done|].
    intros x Hx. destruct (ok_new0 x Hx) as (? & ? & ? & ?). split_and!; [by eapply none_put..|]. by rewrite lookup_delete_None; right.
Qed.
Lemma ok_use {B} l O r (m : env -> RM B) l' b : counts_ok l O -> lib_use r m l = Val (l', b) -> counts_ok l' O.
Proof.
  intros Hl ([R [[c h] i]] & Hr%at_handleE & (rc & _ & (hs & _ & (H & _ & (v & _ & E)%out_bind_inv)%out_bind_inv)%out_bind_inv)%out_bind_inv)%out_bind_inv.
  destruct v as [|b' R' x]; [done|]. injection E as <- <-. destruct Hl. split; cbn; [eapply right_users; [done|intros y; by eapply total_same]..|].
  intros y Hy. destruct (ok_new0 y Hy) as (? & ? & ? & ?). split_and!; [done..|]. apply none_insert; [congruence|done].
Qed.
Lemma ok_conf_close l O c l' e : counts_ok l O -> c ∈ o_conf O -> lib_resconf_close c l = Val (l', e) ->
  counts_ok l' (Own (o_conf O ∖ {[c]}) (o_hosts O) (o_hints O) (o_idle O)).
Proof.
  intros [] Ho (rc & Hc%at_handleE & [= <- <-])%out_bind_inv. split; cbn; [exact (right_close k_conf _ _ _ _ c rc ok_conf0 Hc Ho)|done|done|].
  intros x Hx. destruct (ok_new0 x Hx) as (? & ? & ? & ?). split_and!; [by eapply none_put|done..].
Qed.
Lemma ok_hosts_close l O c l' e : counts_ok l O -> c ∈ o_hosts O -> lib_hosts_close c l = Val (l', e) ->
  counts_ok l' (Own (o_conf O) (o_hosts O ∖ {[c]}) (o_hints O) (o_idle O)).
Proof.
  intros [] Ho (h & Hc%at_handleE & [= <- <-])%out_bind_inv. split; cbn; [done|exact (right_close k_hosts _ _ _ _ c h ok_hosts0 Hc Ho)|done|].
  intros x Hx. destruct (ok_new0 x Hx) as (? & ? & ? & ?). split_and!; [done|by eapply none_put|done..].
Qed.
Lemma conf_loadpath_refs fopen rc path rc' e : dns_resconf_loadpath inet_pton fopen rc path = Val (rc', e) -> rc_refcount rc' = rc_refcount rc.
Proof.
  unfold dns_resconf_loadpath. destruct (fopen path) as [fp|]; [|by intros [= <- <-]].
  intros (rc1 & H1 & [= <- <-])%out_bind_inv. exact (yields_val _ _ _ (loadfile_refs _ _ _) H1).
Qed.
Lemma hosts_loadpath_refs hmalloc fopen h path h' e : dns_hosts_loadpath hmalloc inet_pton fopen h path = Val (h', e) -> h_refcount h' = h_refcount h.
Proof.
  unfold dns_hosts_loadpath. destruct (fopen path) as [fp|]; [|by intros [= <- <-]].
  intros H1. exact (yields_val _ _ _ (hosts_loadfile_refs _ _ _ _) H1).
Qed.
Lemma hosts_made_refs hmalloc fopen malloc_ok h t : dns_hosts_open malloc_ok = h \/ dns_hosts_local hmalloc inet_pton fopen malloc_ok = Val h -> h = inr t -> h_refcount t = 1.
Proof.
  unfold dns_hosts_local, dns_hosts_open. destruct malloc_ok; [|by intros [<-|[= <-]]].
  intros [<-|([h1 e] & H1 & E)%out_bind_inv]; [by intros [= <-]|]. apply hosts_loadpath_refs in H1. destruct e; injection E as <-; [done|]. by intros [= <-].
Qed.

Lemma calls_ok l O : calls l O -> counts_ok l O.
Proof.
  induction 1 as [next x|l O _ IH| |s l O c path l' e _ IH E| |s l O l' r _ IH E|s l O c path l' e _ IH E| | | | | |];
    eauto using ok_conf_open, ok_conf_close, ok_hosts_close, ok_hints_local, ok_hints_mortal, ok_res_open, ok_res_close, ok_use.
  - split; cbn; [intros c; rewrite lookup_empty; unfold total; by rewrite uses_empty, bool_decide_eq_false_2 by set_solver..|]. intros c _. by rewrite !lookup_empty.
  - destruct IH. by split.
  - apply out_bind_inv in E as (rc & Hc%at_handleE & ([rc' e'] & Hp%conf_loadpath_refs & [= <- <-])%out_bind_inv). by eapply ok_conf_set.
  - destruct E as [[= E]|(h & Hh & [= E])%out_bind_inv]; (eapply ok_hosts_new; [done| |exact E]); intros t; apply (hosts_made_refs (sy_entry s) (sy_fopen s) (sy_malloc s)); eauto.
  - apply out_bind_inv in E as (h & Hc%at_handleE & ([h' e'] & Hp%hosts_loadpath_refs & [= <- <-])%out_bind_inv). by eapply ok_hosts_set.
Qed.

Lemma right_accounted {A} `{!Counted A} f (m : gmap Z A) u held idle c : right m (total f u held) idle -> is_Some (m !! c) ->
  c ∈ held \/ (exists r R t, u !! r = Some (R, t) /\ f t = c) \/ c ∈ idle.
Proof.
  intros Hr [a Ha]. specialize (Hr c). rewrite Ha in Hr. destruct Hr as (_ & Hn & Hi). unfold total in Hi, Hn. destruct (decide (c ∈ held)); [by left|]. right.
  rewrite bool_decide_eq_false_2 in Hi, Hn by done. cbn [one] in *. destruct (decide (uses f u c = 0)); [right; apply Hi; lia|]. left. apply uses_some. lia.
Qed.

(** C13: The references that resolvers share are counted right through any sequence of
    calls the DNS module makes: opening and closing resolvers, loading and closing
    configurations and hosts, making hints and giving them up to a resolver, with
    any allocation, file or socket of any of the calls failing, whatever succeeded before. The configuration, the hosts and the hints of
    every resolver that is open are still there, whatever was closed in between, and
    so is everything the module holds; and what is there is held by the module, in
    use by a resolver, or hints that wait for one, so that nothing is kept for
    good. *)
Theorem shared_objects_live l O : calls l O ->
  (forall r R c h i, lib_res l !! r = Some (R, (c, h, i)) -> is_Some (lib_conf l !! c) /\ is_Some (lib_hosts l !! h) /\ is_Some (lib_hints l !! i)) /\
  (forall c, c ∈ o_conf O -> is_Some (lib_conf l !! c)) /\ (forall h, h ∈ o_hosts O -> is_Some (lib_hosts l !! h)) /\
  (forall i, i ∈ o_hints O -> is_Some (lib_hints l !! i)) /\
  (forall c, is_Some (lib_conf l !! c) -> c ∈ o_conf O \/ exists r R h i, lib_res l !! r = Some (R, (c, h, i))) /\
  (forall h, is_Some (lib_hosts l !! h) -> h ∈ o_hosts O \/ exists r R c i, lib_res l !! r = Some (R, (c, h, i))) /\
  (forall i, is_Some (lib_hints l !! i) -> i ∈ o_hints O \/ i ∈ o_idle O \/ exists r R c h, lib_res l !! r = Some (R, (c, h, i))).
Proof.
  intros [Hc Hh Hi _]%calls_ok. split_and!.
  - intros r R c h i Hr. split_and!; (eapply right_present; [eassumption|]); [exact (total_used k_conf _ _ _ _ _ Hr)|exact (total_used k_hosts _ _ _ _ _ Hr)|exact (total_used k_hints _ _ _ _ _ Hr)].
  - intros c Ho. eapply right_present; [done|by apply total_held].
  - intros h Ho. eapply right_present; [done|by apply total_held].
  - intros i Ho. eapply right_present; [done|by apply total_held].
  - intros c Hp. destruct (right_accounted _ _ _ _ _ _ Hc Hp) as [|[(r & R & [[c' h] i] & Hr & <-)|]]; [by left|right; by eauto|set_solver].
  - intros c Hp. destruct (right_accounted _ _ _ _ _ _ Hh Hp) as [|[(r & R & [[c' h] i] & Hr & <-)|]]; [by left|right; by eauto|set_solver].
  - intros c Hp. destruct (right_accounted _ _ _ _ _ _ Hi Hp) as [|[(r & R & [[c' h] i] & Hr & <-)|]]; [by left|right; right; by eauto|by auto].
Qed.
End Calls.

(** ** Stub resolvers *)
Section StubThm.
Context {o : SoOS} {ro : ResOS o} (junk : Z).
Context (conf_ok hosts_ok hints_ok : bool) (hmalloc : list hosts_entry -> option (list Z)) (zmalloc : list hints_soa -> bool).
Context (fopen : string -> option (list Z)) (gethostname : Z -> option (list Z)) (inet_pton : Z -> list Z -> pton_res).

(** A stub resolver is the only owner of what it shares, and a failure, wherever it
    occurs, leaves nothing behind. *)
Lemma stub_owns_all s0 x r sh x' : dns_res_stub junk conf_ok hosts_ok hints_ok hmalloc zmalloc fopen gethostname inet_pton s0 x = Val (r, sh, x') ->
  match r with
  | inl _ => sh = Shared None None None
  | inr _ => exists rc hs H, sh = Shared (Some rc) (Some hs) (Some H) /\ rc_refcount rc = 1 /\ h_refcount hs = 1 /\ hi_refcount H = 1
  end.
Proof.
  intros (c & Hc & E)%out_bind_inv. destruct c as [e|rc]; [by injection E as <- <- <-|].
  assert (rc_refcount rc = 1) as Hrc.
  { apply out_bind_inv in Hc as (r0 & H0 & Hc). destruct r0 as [|rc0]; [done|]. apply conf_open_refs in H0.
    apply out_bind_inv in Hc as ([rc1 e] & H1%conf_loadpath_refs & Hc). destruct e; [done|]. injection Hc as <-. congruence. }
  apply out_bind_inv in E as (h & Hh & E). pose proof (release_last rc Hrc : dns_resconf_close rc = None) as Lrc.
  destruct h as [e|hs]; [injection E as <- <- <-; unfold close_all; cbn [sh_conf mbind option_bind]; by rewrite Lrc|].
  assert (h_refcount hs = 1) as Hhs by (eapply hosts_made_refs; [right; exact Hh|done]). pose proof (release_last hs Hhs : dns_hosts_close hs = None) as Lhs.
  apply out_bind_inv in E as ([i rc'] & Hi & E). apply hints_local_refs in Hi as [-> Hi].
  destruct (@taken_and_given_back _ resconf_counted rc Hrc) as (rc' & Ecr & Hrc').
  rewrite Ecr in E. pose proof (release_last rc' Hrc' : dns_resconf_close rc' = None) as Lrc'.
  destruct i as [e|H]; [injection E as <- <- <-; unfold close_all; cbn [sh_conf sh_hosts sh_hints mbind option_bind]; by rewrite Lrc', Lhs|].
  specialize (Hi H eq_refl). apply out_bind_inv in E as ([[r1 sh1] x1] & Ho%res_open_shared & [= <- <- <-]).
  destruct (@taken_and_given_back _ resconf_counted rc' Hrc') as (rc2 & E1 & R1). destruct (@taken_and_given_back _ hosts_counted hs Hhs) as (hs2 & E2 & R2). destruct (@taken_and_given_back _ hints_counted H Hi) as (H2 & E3 & R3).
  assert (close_all (acquire_all (Shared (Some rc') (Some hs) (Some H))) = Shared (Some rc2) (Some hs2) (Some H2)) as Ea.
  { exact (f_equal3 Shared E1 E2 E3). }
  destruct r1 as [e|R].
  - subst sh1. rewrite Ea. unfold close_all. cbn [sh_conf sh_hosts sh_hints mbind option_bind].
    by rewrite (release_last rc2 R1 : dns_resconf_close rc2 = None), (release_last hs2 R2 : dns_hosts_close hs2 = None), (release_last H2 R3 : dns_hints_close H2 = None).
  - destruct Ho as [-> _]. rewrite Ea. by exists rc2, hs2, H2.
Qed.
End StubThm.

(** ** A resolver that outlives what it was made from *)
Module LinkWitnesses.
Import ResWitnesses.
#[local] Existing Instance echo_os.
#[local] Existing Instance echo_res.

Definition no_file (_ : string) : option (list Z) := None.
Definition host_name (n : Z) : option (list Z) := Some (104 :: replicate (Z.to_nat (n - 1)) 0).
Definition no_pton (_ : Z) (_ : list Z) : pton_res := PtonBad.
Definition no_malloc (_ : list hosts_entry) : option (list Z) := None.
Definition all_malloc (_ : list hints_soa) : bool := true.
Definition sys1 : sysenv := SysEnv true no_malloc all_malloc no_file host_name.
(** No memory is left. *)
Definition sys0 : sysenv := SysEnv false no_malloc all_malloc no_file host_name.
Abbreviation demo_calls := (calls 0 no_pton).

Definition l0 : lib sos := Lib ∅ ∅ ∅ ∅ 1 0 (World 3 []).
Definition after {A} (m : out (lib sos * A)) : lib sos := match m with Val (l, _) => l | _ => l0 end.
Definition l1 := after (lib_resconf_open sys1 l0).
Definition l2 := after (lib_hosts_open sys1 l1).
Definition l2' := after (lib_hints_local 1 sys0 l2).
Definition l3 := after (lib_hints_local 1 sys1 l2').
Definition l4 := after (lib_hints_mortal 3 l3).
Definition l5 := after (lib_res_open 0 1 2 (Some 3) l4).
Definition l6 := after (lib_resconf_close 1 l5).
Definition l7 := after (lib_hosts_close 2 l6).

Lemma demo_calls_7 : demo_calls l7 (Own ((∅ ∪ {[1]}) ∖ {[1]}) ((∅ ∪ {[2]}) ∖ {[2]}) ((∅ ∪ {[3]}) ∖ {[3]}) ((∅ ∪ {[3]}) ∖ {[3]})).
Proof.
  pose (o0 := Own ∅ ∅ ∅ ∅ : own).
  pose (o1 := Own (∅ ∪ {[1]}) ∅ ∅ ∅ : own).
  pose (o2 := Own (∅ ∪ {[1]}) (∅ ∪ {[2]}) ∅ ∅ : own).
  pose (o3 := Own (∅ ∪ {[1]}) (∅ ∪ {[2]}) (∅ ∪ {[3]}) ∅ : own).
  pose (o4 := Own (∅ ∪ {[1]}) (∅ ∪ {[2]}) ((∅ ∪ {[3]}) ∖ {[3]}) (∅ ∪ {[3]}) : own).
  pose (o5 := Own (∅ ∪ {[1]}) (∅ ∪ {[2]}) ((∅ ∪ {[3]}) ∖ {[3]}) ((∅ ∪ {[3]}) ∖ {[3]}) : own).
  pose (o6 := Own ((∅ ∪ {[1]}) ∖ {[1]}) (∅ ∪ {[2]}) ((∅ ∪ {[3]}) ∖ {[3]}) ((∅ ∪ {[3]}) ∖ {[3]}) : own).
  assert (demo_calls l1 o1) as H1.
  { eapply (calls_conf_open _ _ sys1 l0 o0 l1 (inr 1)); [exact (calls_start 0 no_pton 1 (World 3 [] : @sos echo_os))|vm_compute; reflexivity]. }
  assert (demo_calls l2 o2) as H2.
  { eapply (calls_hosts_new _ _ sys1 l1 o1 l2 (inr 2)); [exact H1|left; vm_compute; reflexivity]. }
  assert (demo_calls l2' o2) as H2'.
  { eapply (calls_hints_local _ _ sys0 l2 o2 1 l2' (inl (errnum DNS_ESYSTEM))); [exact H2|by vm_compute|vm_compute; reflexivity]. }
  assert (demo_calls l3 o3) as H3.
  { eapply (calls_hints_local _ _ sys1 l2' o2 1 l3 (inr 3)); [exact H2'|by vm_compute|vm_compute; reflexivity]. }
  assert (demo_calls l4 o4) as H4.
  { eapply (calls_hints_mortal _ _ l3 o3 3 l4 tt H3); [set_solver|vm_compute; reflexivity]. }
  assert (demo_calls l5 o5) as H5.
  { eapply (calls_res_open _ _ l4 o4 1 2 (Some 3) l5 (inr 4) H4); [intros i [= <-]; set_solver|by vm_compute|vm_compute; reflexivity]. }
  assert (demo_calls l6 o6) as H6.
  { eapply (calls_conf_close _ _ l5 o5 1 l6 tt H5); [set_solver|vm_compute; reflexivity]. }
  eapply (calls_hosts_close _ _ l6 o6 2 l7 tt H6); [set_solver|vm_compute; reflexivity].
Qed.

(** An allocation failed, and later the objects were closed; the resolver still has them, and closing it releases
    everything. *)
Lemma shared_objects_live_witness : is_Some (lib_conf l7 !! 1) /\ is_Some (lib_hosts l7 !! 2) /\ is_Some (lib_hints l7 !! 3) /\
  (exists x, lib_res_close 4 l7 = Val (Lib ∅ ∅ ∅ ∅ 5 0 x, tt)).
Proof.
  destruct (shared_objects_live _ _ _ _ demo_calls_7) as [H _].
  destruct (lib_res l7 !! 4) as [[R t]|] eqn:E; [|vm_compute in E; discriminate E].
  assert (t = (1, 2, 3)) as -> by (vm_compute in E; by injection E as _ <-).
  destruct (H _ _ _ _ _ E) as (H1 & H2 & H3). split_and!; [done..|]. eexists. vm_compute. reflexivity.
Defined.
End LinkWitnesses.

(** ** [ratchet.dns.query] down to the sockets

    [query("a.b.", "a")] with the objects of [l2], in a network that answers with the
    address 1.2.3.4: everything from the Lua function to the packets is run. *)
Module QueryOverLibdns.
Import ResWitnesses LinkWitnesses QueryWitnesses.
#[local] Existing Instance echo_os.
#[local] Existing Instance echo_res.
#[local] Existing Instance conv.
Definition api : DnsApi := libdns 60 0 (fun _ => sys1) no_pton (fun _ _ => inl 28) 0 (fun _ => ""%string).
Definition s0 : lstate dmem (@dst api) := LState (list_to_map [(0, registry); (1, class)]%nat)
  (list_to_map [(2%nat, UData (Some CONF_META) (MConf (Some 1)) VNil); (3%nat, UData (Some HOSTS_META) (MHosts (Some 2)) VNil)]) 4 (l2 : @dst api).
Definition answer : LuaC.after dmem (@dst api) := run (@dns_code conv api 0 30 0 0) 30 (start DF_query [VStr "a.b."; VStr "a"] s0).

(** The result is a table with one address; the resolver, its hints and its references
    are gone. *)
Example query_resolves : exists t u s, answer = Finished [VTab t; VNil] s /\ (ls_tabs s !! t) = Some (Tab ∅ {[1 := VUd u]}) /\
  ls_uds s !! u = Some (UData (Some A_META) (MIn4 [1; 2; 3; 4]) VNil) /\
  lib_res (ls_os s) = ∅ /\ lib_hints (ls_os s) = ∅ /\ lib_conf (ls_os s) = lib_conf l2 /\ lib_hosts (ls_os s) = lib_hosts l2.
Proof. eexists 6%nat, 7%nat, _. split_and!; vm_compute; reflexivity. Qed.
End QueryOverLibdns.
